(* ===== verification/_CoqProject ===== *)
-Q . S2P
Prelude.v
CStr.v
Wild.v
NumTime.v
DList.v
Timeout.v
Wp.v
Track.v
Graph.v
Net.v
Masks.v
Interfaces.v
Channels.v
Users.v
Messages.v
Table.v
ChanDB.v
ChanServ.v
Mlock.v
Query.v
CsAccess.v
CsLists.v
ChanCmds.v
SyncCmd.v
Part.v
Servers.v
Walk.v
Cache.v
NickServ.v
OperDB.v
Commands.v
Removal.v
NickLinks.v
NickCmds.v
NickSet.v
NickTable.v
NickAccess.v
AutoJoin.v
MemoServ.v
Akill.v
Sessions.v
