(* ===== verification/Prelude.v ===== *)
(** * Blitzed Services

    A verification development for Blitzed Services, the daemon that gives an
    IRC network its registered nicks and channels, its autokills and its
    session limits.  The daemon reads lines from an uplink server, keeps a
    picture of the network in memory (users, channels, servers), keeps everything
    persistent in MySQL tables, and acts by sending lines back.  It is one
    thread: a line is handled to its end before the next is read.

    ** The program and its model

    Paths are relative to [src/].  Each C function is a Rocq definition of the
    same name; auxiliary definitions (a loop, a branch of a long function) stand
    next to the function they belong to.

    - Library routines, without state:
      CStr.v ([src/misc.c], [src/compat.c]: case, comparison, bounded copies),
      Wild.v ([match_wild], and its copy in [mysql/blitzed_udf.c]),
      NumTime.v ([process_numlist], [dotime], [disect_time]),
      Masks.v ([match_usermask], [split_usermask], [create_mask], [is_banned]).
    - Pointer structures on explicit heaps: DList.v ([src/tools.c], and the
      [next]/[prev] idiom every list of the program repeats), Timeout.v
      ([src/timeout.c]), Servers.v ([src/servers.c]).
    - The network state: Net.v (the [User] and [Channel] structures of
      [include/services.h], hash tables, walks), Channels.v ([src/channels.c]),
      Users.v ([src/users.c] and the kills of [src/actions.c]), Walk.v (loops over
      all users), Messages.v ([src/process.c], [src/messages.c]: from a line to
      its handler).
    - ChanServ ([src/chanserv.c]): ChanDB.v (tables, access levels), ChanServ.v
      (what it does when users join, gain status or change modes and topics),
      Mlock.v ([SET] and [SET MLOCK]), CsAccess.v ([src/cs_access.c]: ACCESS, VOP,
      AOP and SOP), CsLists.v (AKICK and LEVELS), ChanCmds.v (INVITE, OP, DEOP,
      VOICE, DEVOICE, UNBAN, CLEAR, STATUS), SyncCmd.v (SYNC).
    - NickServ: Cache.v ([src/cache.c], the cache of statuses and languages),
      NickServ.v ([src/nickserv.c]: who is recognized and who identified, what
      happens when a user comes to a nick and leaves it, enforcement by timers),
      Removal.v (deleting nicks and channels from all tables, expiry), NickLinks.v
      (LINK, UNLINK, LISTLINKS), NickCmds.v (IDENTIFY, RECOVER, GHOST, RELEASE,
      STATUS), NickSet.v (SET), NickTable.v and NickAccess.v (ACCESS), AutoJoin.v
      ([src/autojoin.c]).
    - MemoServ: MemoServ.v ([src/memoserv.c]); its commands are looked up as
      Commands.v has it ([src/commands.c]).
    - Table.v: inserting, deleting and numbering rows, for all that keep tables.
    - Query.v ([mysql_build_query] of [src/mysql.c]: the condition a number list
      becomes), used by every command that takes a number list.
    - OperServ: OperDB.v (tables, privileges), Akill.v ([src/akill.c]), Sessions.v
      ([src/sessions.c]).

    State is explicit.  Wp.v has the monad: a computation maps a state to a
    result and a new state, or to nothing where the C code would follow a null
    or freed pointer, write outside an array or end the process; [wp m Q s]
    is total correctness (Track.v: which entries of the state a computation may
    have changed), so every theorem stated with it also says that the code
    terminates without such an access.  [Net E] is the state of the network;
    its field [ext : E] is the state of all other components, of which each
    sees its own part (Part.v).  Messages sent are appended to [out], time
    is the field [now].  Fixed-width integers are [Z] with the wrapping functions
    below ([wrap32], [u32], ...), bit masks use [Z.land] and [Z.lor] written as
    [.&] and [.|], C strings are Rocq strings.

    ** Interfaces

    The network code calls ChanServ, NickServ and OperServ, and they call it.
    Interfaces.v breaks the circle: classes [ChanServ], [NickServ] and [OperServ]
    with the laws [ChanServLaws], [NickServLaws], [OperServLaws] state what the
    network code relies on, in essence that the called routines answer and leave
    users, channels, membership and status alone.  Channels.v, Users.v and
    Messages.v are proved against the laws; ChanServ.v and Sessions.v prove that
    ChanServ, and autokills with sessions, obey them.  To ChanServ and OperServ
    NickServ is a parameter: its law that [get_nick_status] always answers is one
    of the states in which a cached nick has its row, which is what NickServ.v
    asks for; Cache.v shows what happens otherwise.  Parameters are also the
    configuration ([Conf], [OperConf] and the like) and MySQL: tables are data, a
    [SELECT] picks rows, an [INSERT] or [UPDATE] changes them, a column has
    the bounds of its type ([MySQL]).  The demonstrations at the ends of
    Interfaces.v, ChanDB.v and OperDB.v are instances of all of them, on which
    each theorem with a hypothesis is applied once.

    ** What is proved

    - Memory safety and consistency of the network state (Graph.v, Channels.v,
      Users.v, Messages.v).  [graph_ok] says that hash tables, pointers, the two
      directions of membership and the status lists agree.  From a consistent
      state every valid line is handled without a bad access and leads to a
      consistent state ([reachable_consistent]), and what it does to the network
      is a sequence of steps of a small abstract machine ([dispatch_refines]).
      The same for do_cmode on every mode string; a QUIT leaves no trace.
    - What ChanServ enforces: after [check_modes] a channel is under its lock,
      and a second check is silent; who is opped, deopped, kicked and banned;
      who has which ability; SET runs an option only for those who may, and
      SET MLOCK stores consistent locks only; ACCESS and AKICK change a list only
      in the ways the level of the user allows, LEVELS gives the level it says;
      OP, VOICE and their like, CLEAR and UNBAN do what they say on one channel,
      for those who may; SYNC keeps to its buffers and sends again what it can.
    - What NickServ promises: a user is recognized exactly as the access list and
      SECURE say, loses what he proved when he leaves the nick, and is renamed at
      the end of the delay if he has not identified; a deleted nick or channel
      is gone from every table that could grant something.  IDENTIFY, RECOVER,
      GHOST and RELEASE serve exactly the owner of a nick and keep the timers
      sound, LINK and UNLINK keep links one level deep, ACCESS and AUTOJOIN change
      the list of the identified nick alone and keep it numbered, and a user
      joins exactly the channels on his list, invited where he has to be.  SET
      changes the row of the identified nick as the option says, and gives
      what only administrators give to nobody else.
    - What MemoServ promises: SEND keeps a memo exactly if limits, delays and
      abilities allow it, READ shows it with the same text, DEL removes those
      named and the rest stay numbered from 1.
    - What OperServ enforces: the AKILL command changes the list only in the
      ways the user's privileges allow; a newcomer is turned away exactly if
      an autokill covers him; the session table counts the connected users and
      keeps to the limits over every history; a host refused too often is barred.
    - Data structures refine their abstractions: linked lists refine sequences,
      the timer queue a sorted list, the server structures a forest in which
      SERVER adds a leaf and SQUIT removes a subtree, the nick cache a map, a walk
      visits each user once.
    - Library routines: the matcher decides the language of masks (for masks
      without [*?]), parsers undo printers, buffers are not overrun, number lists
      denote what they say.
    - Error behaviour, by theorems that exhibit it: the status a server mode can
      give a user who is not a member, the argument [-k] leaves behind, the query
      without a condition that ends Services, the cached nick without a row, the
      successor who gets one channel of two, and others among the examples.

    ** Fuel and bounds

    A loop over a linked list takes its fuel from the number of structures on
    the heap, and one over a text from its length; theorems in total correctness
    (or equations without a fuel) show that this is enough: [numlist_loop_spec],
    [query_loop_spec], [wp_walk], [squit_spec], [check_timeouts_correct] among
    others.  Loops over bucket lists, mode strings and rows are structural.

    ** Not modelled

    - Reading and writing sockets, files and logs, formatting ([src/vsnprintf.c]),
      start-up and configuration parsing: input and output.  The texts of
      [src/language.c] are named by their message, not translated.
    - The MySQL client library.  A statement it refuses ends Services; where the
      code can provoke that by its own doing the model has a fault.
    - Passwords: MySQL's [SHA1] in [check_nick_password], of which the model has
      the answer as a parameter, and the tokens of [src/auth.c].  With them go
      REGISTER and DROP of NickServ and ChanServ, ChanServ's IDENTIFY, and
      SENDPASS; SET PASSWORD writes to columns nothing else here reads.  Then
      NickServ's INFO, LIST, FORBID and SUSPEND: single columns and printed lists.
    - What goes to the log and to the channel of operators ([log], [snoop]), and
      the order of all that is sent when a user identifies: to NickCmds.v
      [check_memos] and [check_autojoins], the models of which are in MemoServ.v
      and AutoJoin.v, are routines of an interface that only send messages.
    - The main loop ([src/main.c]), which calls the timers and the expiry
      routines; the calls of the latter are commented out there, so Removal.v
      shows what they would do.
    - Most commands of [src/operserv.c]; news, quarantine, FloodServ and HelpServ:
      they keep further tables of their own or print.
    - Statistics functions and listings that only print.

    This file: notations, automation and the lemmas all others share. *)

From Stdlib Require Export ZArith Lia Ascii String List Bool Btauto.
From stdpp Require Export base tactics list gmap strings.
From coqutil Require Export Datatypes.RecordSettersUsingExistingGetters.
From stdpp Require Import options.

Declare Scope c_scope.
Delimit Scope c_scope with c.
Open Scope Z_scope.
Open Scope c_scope.

#[global] Arguments Ascii.eqb : simpl never.
#[global] Arguments Z.mul : simpl never.
#[global] Arguments Z.add : simpl never.
#[global] Arguments alter : simpl never.
#[global] Arguments partial_alter : simpl never.

(** ** Record updates: [x{{f := v; g ::= h}}] is [x->f = v; x->g = h (x->g)]. *)
Notation "x {{ u }}" := (tset u x)
  (at level 8, left associativity, u custom field_update at level 1,
   format "x {{ '[hv ' u ']' }}") : c_scope.
Notation "x {{ u ; .. ; v ; w }}" := (tset w (tset v .. (tset u x) .. ))
  (at level 8, left associativity, u custom field_update at level 1,
   v custom field_update at level 1, w custom field_update at level 1,
   format "x {{ '[hv ' u ;  '/' .. ;  '/' v ;  '/' w ']' }}") : c_scope.
#[global] Arguments tset {R E} !t {Setter} _ /.
#[global] Arguments set {R E} getter {Setter} fieldUpdater r /.
#[global] Arguments const {E} newValue _ /.

(** ** Machine integers *)

Definition wrap32 (z : Z) : Z := (z + 2 ^ 31) mod 2 ^ 32 - 2 ^ 31.
Definition u32 (z : Z) : Z := z mod 2 ^ 32.
Definition wrap16 (z : Z) : Z := (z + 2 ^ 15) mod 2 ^ 16 - 2 ^ 15.
Definition u64 (z : Z) : Z := z mod 2 ^ 64.
Definition INT_MAX : Z := 2147483647.
Definition INT_MIN : Z := -2147483648.

Lemma wrap32_id z : INT_MIN <= z <= INT_MAX -> wrap32 z = z.
Proof. unfold wrap32, INT_MIN, INT_MAX. intros. rewrite Z.mod_small; lia. Qed.

Lemma wrap32_range z : INT_MIN <= wrap32 z <= INT_MAX.
Proof.
  unfold wrap32, INT_MIN, INT_MAX.
  pose proof (Z.mod_pos_bound (z + 2 ^ 31) (2 ^ 32) ltac:(lia)). lia.
Qed.

Lemma u32_id z : 0 <= z < 2 ^ 32 -> u32 z = z.
Proof. apply Z.mod_small. Qed.

Lemma u64_id z : 0 <= z < 2 ^ 64 -> u64 z = z.
Proof. apply Z.mod_small. Qed.

Lemma u32_range z : 0 <= u32 z < 2 ^ 32.
Proof. apply Z.mod_pos_bound. lia. Qed.

Lemma u32_idemp z : u32 (u32 z) = u32 z.
Proof. apply Z.mod_mod. lia. Qed.

Lemma u32_add_l a b : u32 (u32 a + b) = u32 (a + b).
Proof. apply Z.add_mod_idemp_l. lia. Qed.

Lemma u32_add_r a b : u32 (a + u32 b) = u32 (a + b).
Proof. apply Z.add_mod_idemp_r. lia. Qed.

(** ** Flag words

    The code keeps its flags in [int] bit masks; [m & f], [m | f] and
    [m & ~f] are written with the notations below. *)

Notation "m .& f" := (Z.land m f) (at level 40, left associativity) : c_scope.
Notation "m .| f" := (Z.lor m f) (at level 50, left associativity) : c_scope.
Notation "m .&~ f" := (Z.ldiff m f) (at level 40, left associativity) : c_scope.

(** A C condition [m & f] used as a truth value. *)
Definition has (m f : Z) : bool := negb (Z.eqb (m .& f) 0).

Ltac bits :=
  apply Z.bits_inj'; intros ?i ?Hi;
  repeat first [ rewrite Z.land_spec | rewrite Z.lor_spec | rewrite Z.ldiff_spec
               | rewrite Z.bits_0 | rewrite Z.lnot_spec by assumption ];
  try btauto.

Lemma has_true m f : has m f = true <-> m .& f <> 0.
Proof. unfold has. rewrite negb_true_iff, Z.eqb_neq. done. Qed.

Lemma has_false m f : has m f = false <-> m .& f = 0.
Proof. unfold has. rewrite negb_false_iff, Z.eqb_eq. done. Qed.

Lemma has_lor_self m f : f <> 0 -> has (m .| f) f = true.
Proof.
  intros Hf. apply has_true. replace ((m .| f) .& f) with f; [done|]. bits.
Qed.

Lemma has_ldiff_self m f : has (m .&~ f) f = false.
Proof. apply has_false. bits. Qed.

Lemma has_lor_other m f g : f .& g = 0 -> has (m .| f) g = has m g.
Proof.
  intros H. unfold has. replace ((m .| f) .& g) with (m .& g); [done|].
  transitivity ((m .& g) .| (f .& g)); [rewrite H, Z.lor_0_r; done | bits].
Qed.

Lemma has_ldiff_other m f g : f .& g = 0 -> has (m .&~ f) g = has m g.
Proof.
  intros H. unfold has. replace ((m .&~ f) .& g) with (m .& g); [done|].
  transitivity ((m .& g) .&~ (f .& g)); [rewrite H, Z.ldiff_0_r; done | bits].
Qed.

(** ** Lists *)

Fixpoint find_first {A} (p : A -> bool) (l : list A) : option A :=
  match l with
  | [] => None
  | x :: l' => if p x then Some x else find_first p l'
  end.

(** Unlink the first element satisfying [p] (what the code does to a
    linked list after a search loop). *)
Fixpoint remove_first {A} (p : A -> bool) (l : list A) : list A :=
  match l with
  | [] => []
  | x :: l' => if p x then l' else x :: remove_first p l'
  end.

Lemma find_first_ext {A} (p q : A -> bool) l :
  (forall x, p x = q x) -> find_first p l = find_first q l.
Proof. intros Hpq. induction l as [|x l IH]; [done|]. simpl. by rewrite Hpq, IH. Qed.

Section ListLemmas.
Context {A : Type} (p : A -> bool).

Lemma find_first_Some l x :
  find_first p l = Some x -> x ∈ l /\ p x = true.
Proof.
  induction l as [|y l IH]; simpl; [done|].
  destruct (p y) eqn:E; intros H; simplify_eq.
  - split; [by constructor|done].
  - destruct (IH H). split; [by constructor|done].
Qed.

Lemma find_first_None l :
  find_first p l = None <-> forall x, x ∈ l -> p x = false.
Proof.
  induction l as [|y l IH]; simpl.
  - split; [|done]. intros _ x Hx. by apply elem_of_nil in Hx.
  - destruct (p y) eqn:E.
    + split; [done|]. intros H. specialize (H y ltac:(by constructor)). congruence.
    + rewrite IH. split.
      * intros H x Hx. apply elem_of_cons in Hx as [->|Hx]; auto.
      * intros H x Hx. apply H. by constructor.
Qed.

Lemma find_first_is_Some l :
  is_Some (find_first p l) <-> exists x, x ∈ l /\ p x = true.
Proof.
  split.
  - intros [x Hx]. exists x. by apply find_first_Some.
  - intros (x & Hx & Hp). destruct (find_first p l) eqn:E; [eauto|].
    rewrite find_first_None in E. rewrite E in Hp; done.
Qed.

Lemma remove_first_subseteq l x : x ∈ remove_first p l -> x ∈ l.
Proof.
  induction l as [|y l IH]; simpl; [done|].
  destruct (p y); intros H; [by constructor|].
  apply elem_of_cons in H as [->|H]; constructor; auto.
Qed.

Lemma remove_first_keep l x : x ∈ l -> p x = false -> x ∈ remove_first p l.
Proof.
  induction l as [|y l IH]; simpl; [done|].
  intros H Hp. apply elem_of_cons in H as [->|H].
  - rewrite Hp. by constructor.
  - destruct (p y); [done|]. constructor; auto.
Qed.

Lemma remove_first_NoDup l : NoDup l -> NoDup (remove_first p l).
Proof.
  induction 1 as [|y l Hy Hl IH]; simpl; [constructor|].
  destruct (p y); [done|]. constructor; [|done].
  intros H. by apply remove_first_subseteq in H.
Qed.

Lemma remove_first_none l : (forall x, x ∈ l -> p x = false) -> remove_first p l = l.
Proof.
  induction l as [|y l IH]; simpl; [done|]. intros H.
  rewrite (H y) by constructor. f_equal. apply IH. intros x Hx. apply H. by constructor.
Qed.
End ListLemmas.

Lemma map_inj_in {A B} (f : A -> B) l x y : NoDup (map f l) -> x ∈ l -> y ∈ l -> f x = f y -> x = y.
Proof.
  induction l as [|z l IH]; simpl; [by intros _ ?%elem_of_nil|]. intros [Hz Hn]%NoDup_cons.
  assert (Hin : forall w, w ∈ l -> f w ∈ map f l) by (intros w Hw; apply list_elem_of_In, in_map; by apply list_elem_of_In).
  intros [->|Hx]%elem_of_cons [->|Hy]%elem_of_cons Hf; [done| | |by apply IH].
  - destruct Hz. rewrite Hf. by apply Hin.
  - destruct Hz. rewrite <- Hf. by apply Hin.
Qed.

Lemma NoDup_map_filter {A B} (f : A -> B) p l : NoDup (map f l) -> NoDup (map f (List.filter p l)).
Proof.
  induction l as [|x l IH]; [done|]. cbn [map]. intros [Hx Hn]%NoDup_cons. simpl. destruct (p x); [|by apply IH].
  cbn [map]. constructor; [|by apply IH]. intros Hin. apply Hx. apply list_elem_of_In in Hin.
  apply in_map_iff in Hin as (y & <- & Hy). apply filter_In in Hy as [Hy _]. by apply list_elem_of_In, in_map.
Qed.

Lemma existsb_filter {A} (p q : A -> bool) l : existsb q (List.filter p l) = existsb (fun x => p x && q x) l.
Proof. induction l as [|x l IH]; [done|]. simpl. destruct (p x); simpl; by rewrite IH. Qed.

Lemma existsb_none {A} (p : A -> bool) l : (forall x, x ∈ l -> p x = false) -> existsb p l = false.
Proof.
  induction l as [|x l IH]; [done|]. intros Hl. simpl. rewrite Hl, IH; [done| |constructor].
  intros y Hy. apply Hl. by constructor.
Qed.

(** Removing an element of a list of identifiers. *)
Definition unlink {A} `{EqDecision A} (x : A) : list A -> list A :=
  remove_first (fun y => bool_decide (y = x)).

Section Unlink.
Context {A : Type} `{EqDecision A}.

Lemma elem_of_unlink (x y : A) l :
  NoDup l -> y ∈ unlink x l <-> y ∈ l /\ y <> x.
Proof.
  intros Hnd. split.
  - intros H. split; [by eapply remove_first_subseteq|]. intros ->.
    induction Hnd as [|z l Hz Hl IH]; simpl in H; [by apply elem_of_nil in H|].
    unfold unlink in *. simpl in H. case_bool_decide; [by subst|].
    apply elem_of_cons in H as [->|H]; auto.
  - intros [H Hne]. apply remove_first_keep; [done|]. by rewrite bool_decide_eq_false_2.
Qed.

Lemma unlink_subseteq (x y : A) l : y ∈ unlink x l -> y ∈ l.
Proof. apply remove_first_subseteq. Qed.

Lemma unlink_keep (x y : A) l : y ∈ l -> y <> x -> y ∈ unlink x l.
Proof. intros. apply remove_first_keep; [done|]. by rewrite bool_decide_eq_false_2. Qed.

Lemma unlink_NoDup (x : A) l : NoDup l -> NoDup (unlink x l).
Proof. apply remove_first_NoDup. Qed.

Lemma unlink_not_in (x : A) l : x ∉ l -> unlink x l = l.
Proof.
  intros H. apply remove_first_none. intros y Hy. apply bool_decide_eq_false_2.
  by intros ->.
Qed.

Lemma unlink_length (x : A) l : x ∈ l -> length l = S (length (unlink x l)).
Proof.
  induction l as [|y l IH]; intros H; [by apply elem_of_nil in H|].
  unfold unlink in *. simpl. case_bool_decide; [done|].
  apply elem_of_cons in H as [->|H]; [done|]. simpl. f_equal. auto.
Qed.
End Unlink.

(** Occurrences of an element in a list. *)
Fixpoint cnt {A} `{EqDecision A} (x : A) (l : list A) : nat :=
  match l with
  | [] => 0
  | y :: l' => (if decide (y = x) then 1 else 0) + cnt x l'
  end.

Section Cnt.
Context {A : Type} `{EqDecision A}.

Lemma cnt_pos (x : A) l : (0 < cnt x l)%nat <-> x ∈ l.
Proof.
  induction l as [|y l IH]; simpl; [rewrite elem_of_nil; lia|].
  rewrite elem_of_cons. destruct (decide (y = x)) as [->|Hn]; [split; [auto|lia]|].
  rewrite Nat.add_0_l, IH. split; [auto|]. intros [->|]; done.
Qed.

Lemma cnt_zero (x : A) l : cnt x l = 0%nat <-> x ∉ l.
Proof. rewrite <- cnt_pos. lia. Qed.

Lemma cnt_unlink_same (x : A) l : cnt x (unlink x l) = Nat.pred (cnt x l).
Proof.
  induction l as [|y l IH]; [done|]. unfold unlink in *. simpl.
  case_bool_decide as H; destruct (decide (y = x)); try done.
  simpl. rewrite decide_False by done. done.
Qed.

Lemma cnt_unlink_other (x y : A) l : x <> y -> cnt x (unlink y l) = cnt x l.
Proof.
  intros Hxy. induction l as [|z l IH]; [done|]. unfold unlink in *. simpl.
  case_bool_decide as H; simpl; [by rewrite decide_False by congruence|]. by rewrite IH.
Qed.

Lemma unlink_head (x : A) l : unlink x (x :: l) = l.
Proof. unfold unlink. simpl. by rewrite bool_decide_eq_true_2. Qed.
End Cnt.

Create HintDb services.
Create Rewrite HintDb services.
#[export] Hint Resolve unlink_NoDup unlink_subseteq unlink_keep remove_first_NoDup : services.
#[export] Hint Resolve u32_range wrap32_range : services.
#[export] Hint Rewrite @has_ldiff_self @u32_idemp @u32_add_l @u32_add_r : services.
