(* ===== verification/CStr.v ===== *)
(** C strings: the ctype and string routines of [src/misc.c] and
    [src/compat.c].  A C string is a Rocq [string] (its terminator is
    [EmptyString]); routines that write through a [char *] work on an explicit
    buffer, a [list ascii], and yield [None] when they would write past it. *)

From S2P Require Import Prelude.

Definition NUL : ascii := Ascii.zero.

(** The value of a character as [unsigned char]. *)
Definition code (c : ascii) : Z := Z.of_nat (nat_of_ascii c).
Definition chr (z : Z) : ascii := ascii_of_nat (Z.to_nat z).

(** IRC's bold character. *)
Definition BOLD : string := String (chr 2) EmptyString.

(** *** ctype of the C locale *)
Definition islower (c : ascii) : bool := (97 <=? code c) && (code c <=? 122).
Definition isupper (c : ascii) : bool := (65 <=? code c) && (code c <=? 90).
Definition isalpha (c : ascii) : bool := islower c || isupper c.
Definition isdigit (c : ascii) : bool := (48 <=? code c) && (code c <=? 57).
Definition isspace (c : ascii) : bool :=
  (code c =? 32) || ((9 <=? code c) && (code c <=? 13)).

Definition toupper (c : ascii) : ascii :=
  if islower c then chr (code c - (97 - 65)) else c.

Definition tolower (c : ascii) : ascii :=
  if isupper c then chr (code c + (97 - 65)) else c.

Definition irc_toupper (c : ascii) : ascii :=
  if ((97 <=? code c) && (code c <=? 122)) || ((123 <=? code c) && (code c <=? 125))
  then chr (code c - (97 - 65)) else c.

Definition irc_tolower (c : ascii) : ascii :=
  if ((65 <=? code c) && (code c <=? 90)) || ((91 <=? code c) && (code c <=? 93))
  then chr (code c + (97 - 65)) else c.

(** *** Comparison *)

(** [*s], the terminator included. *)
Definition hd_char (s : string) : ascii :=
  match s with EmptyString => NUL | String c _ => c end.

Fixpoint irc_stricmp (s1 s2 : string) : Z :=
  match s1, s2 with
  | String a s1', String b s2' =>
      if Ascii.eqb (tolower a) (tolower b) then
        if Ascii.eqb (tolower a) NUL then 0 else irc_stricmp s1' s2'
      else if code (tolower a) <? code (tolower b) then -1 else 1
  | _, _ =>
      let a := tolower (hd_char s1) in let b := tolower (hd_char s2) in
      if Ascii.eqb a b then 0 else if code a <? code b then -1 else 1
  end.

Fixpoint stricmp (s1 s2 : string) : Z :=
  match s1, s2 with
  | String a s1', String b s2' =>
      if Ascii.eqb (tolower a) (tolower b) then
        if Ascii.eqb (tolower a) NUL then 0 else stricmp s1' s2'
      else if code (tolower a) <? code (tolower b) then -1 else 1
  | _, _ =>
      let a := tolower (hd_char s1) in let b := tolower (hd_char s2) in
      if Ascii.eqb a b then 0 else if code a <? code b then -1 else 1
  end.

Fixpoint strnicmp (s1 s2 : string) (len : nat) : Z :=
  match len with
  | O => 0
  | S len' =>
      match s1, s2 with
      | String a s1', String b s2' =>
          if Ascii.eqb (tolower a) (tolower b) then
            if Ascii.eqb (tolower a) NUL || (len' =? 0)%nat then 0 else strnicmp s1' s2' len'
          else if code (tolower a) <? code (tolower b) then -1 else 1
      | _, _ =>
          let a := tolower (hd_char s1) in let b := tolower (hd_char s2) in
          if Ascii.eqb a b then 0 else if code a <? code b then -1 else 1
      end
  end.

(** *** Whole-string maps *)
Fixpoint map_string (f : ascii -> ascii) (s : string) : string :=
  match s with EmptyString => EmptyString | String c s' => String (f c) (map_string f s') end.

Definition strupper (s : string) : string := map_string toupper s.
Definition strlower (s : string) : string := map_string tolower s.

Definition rot13 (str : string) : string :=
  map_string (fun p =>
    if isalpha p then
      let base := if isupper p then 65 else 97 in
      chr (Z.rem (code p - base + 13) 26 + base)
    else p) str.

(** *** Searching and splitting (libc and compat.c) *)
Fixpoint strchr (s : string) (c : ascii) : option string :=
  match s with
  | EmptyString => if Ascii.eqb c NUL then Some EmptyString else None
  | String d s' => if Ascii.eqb d c then Some s else strchr s' c
  end.

Definition has_char (s : string) (c : ascii) : bool :=
  match strchr s c with Some _ => true | None => false end.

Fixpoint strspn (s accept : string) : nat :=
  match s with
  | EmptyString => 0
  | String c s' => if has_char accept c then S (strspn s' accept) else 0%nat
  end.

Fixpoint strcspn (s reject : string) : nat :=
  match s with
  | EmptyString => 0
  | String c s' => if has_char reject c then 0%nat else S (strcspn s' reject)
  end.

(** [s + n] for [n <= strlen s]. *)
Fixpoint str_drop (n : nat) (s : string) : string :=
  match n, s with
  | S n', String _ s' => str_drop n' s'
  | _, _ => s
  end.

Fixpoint str_take (n : nat) (s : string) : string :=
  match n, s with
  | S n', String c s' => String c (str_take n' s')
  | _, _ => EmptyString
  end.

Definition validate_email (email : string) : bool := has_char email "@".

(** [stristr]: offset in [s1] of the match it returns.  [i] is the offset of
    the scan pointer, [s] the offset remembered as the start of the match and
    [d] the part of [s2] still to be matched. *)
Fixpoint stristr_loop (s1 : string) (i s : nat) (d s2 : string) : option nat :=
  match s1 with
  | EmptyString => None
  | String a s1' =>
      if Ascii.eqb (tolower a) (tolower (hd_char d)) then
        let d' := str_drop 1 d in
        match d' with
        | EmptyString => Some s
        | _ => stristr_loop s1' (S i) s d' s2
        end
      else stristr_loop s1' (S i) (S i) s2 s2
  end.

Definition stristr (s1 s2 : string) : option nat := stristr_loop s1 0 0 s2 s2.

(** *** Buffers *)

(** [buf[i] = c]; [None] is a write outside the array. *)
Definition store {A} (buf : list A) (i : nat) (c : A) : option (list A) :=
  if (i <? length buf)%nat then Some (<[i := c]> buf) else None.

(** The C string held by a buffer: everything before the first NUL
    ([None] when the buffer is not terminated). *)
Fixpoint cstring (buf : list ascii) : option string :=
  match buf with
  | [] => None
  | c :: buf' => if Ascii.eqb c NUL then Some EmptyString else String c <$> cstring buf'
  end.

(** [while (--len && ( *d++ = *s++)) ;] : [i] is [d - d_orig], [len] the value
    before the decrement.  Yields the buffer and the final [i]. *)
Fixpoint strscpy_loop (d : list ascii) (i : nat) (s : string) (len : nat)
    {struct len} : option (list ascii * nat) :=
  match len with
  | O => None
  | S len' =>
      if (len' =? 0)%nat then Some (d, i)
      else
        d' ← store d i (hd_char s);
        match s with
        | EmptyString => Some (d', S i)
        | String c s' => if Ascii.eqb c NUL then Some (d', S i)
                         else strscpy_loop d' (S i) s' len'
        end
  end.

Definition strscpy (d : list ascii) (s : string) (len : nat) : option (list ascii) :=
  if (len =? 0)%nat then Some d
  else '(d', i) ← strscpy_loop d 0 s len; store d' i NUL.

(** What [strscpy] leaves in a buffer of [len > 0] bytes. *)
Definition trunc (len : nat) (s : string) : string := str_take (len - 1) s.

(** [memmove (buf + dst, buf + src, n)], failing on any access outside. *)
Definition memmove {A} (buf : list A) (dst src n : nat) : option (list A) :=
  if (src + n <=? length buf)%nat && (dst + n <=? length buf)%nat then
    Some (take dst buf ++ take n (drop src buf) ++ drop (dst + n) buf)
  else None.

Fixpoint string_prefixb (p s : list ascii) : bool :=
  match p, s with
  | [], _ => true
  | a :: p', b :: s' => Ascii.eqb a b && string_prefixb p' s'
  | _ :: _, [] => false
  end.

(** [strncpy (buf + i, new, newlen)] with [newlen = strlen new]. *)
Definition blit (buf : list ascii) (i : nat) (new : list ascii) : option (list ascii) :=
  if (i + length new <=? length buf)%nat then
    Some (take i buf ++ new ++ drop (i + length new) buf)
  else None.

(** [strnrepl]: [ptr] and [left] are the loop variables; [avail] and [diff]
    are [size_t], so a shorter replacement makes [diff] wrap. *)
Fixpoint strnrepl_loop (fuel : nat) (s : list ascii) (ptr : nat) (left avail : Z)
    (old new : list ascii) : option (list ascii) :=
  let oldlen := Z.of_nat (length old) in
  let newlen := Z.of_nat (length new) in
  let diff := u64 (newlen - oldlen) in
  match fuel with
  | O => None
  | S fuel' =>
      if oldlen <=? left then
        if negb (string_prefixb old (drop ptr s)) then
          strnrepl_loop fuel' s (S ptr) (left - 1) avail old new
        else if avail <? diff then Some s
        else
          s1 ← (if negb (diff =? 0) then
                  memmove s (ptr + length old + Z.to_nat diff) (ptr + length old)
                    (Z.to_nat (left + 1))
                else Some s);
          s2 ← blit s1 ptr new;
          strnrepl_loop fuel' s2 (ptr + length new) (left - oldlen) avail old new
      else Some s
  end.

Definition strnrepl (s : list ascii) (size : Z) (old new : string) : option (list ascii) :=
  str ← cstring s;
  let left := Z.of_nat (String.length str) in
  let avail := u64 (size - (left + 1)) in
  strnrepl_loop (S (String.length str)) s 0 left avail
    (list_ascii_of_string old) (list_ascii_of_string new).

(** *** make_random_string: [rnd k] is the k-th value returned by [rand ()]. *)
Definition randchartab : string :=
  "abcdefghijklmnopqrstuvwxyzABCDEFGHIJKLMNOPQRSTUVWXYZ".

Fixpoint make_random_loop (buffer : list ascii) (rnd : nat -> Z) (i n : nat)
    : option (list ascii) :=
  match n with
  | O => Some buffer
  | S n' =>
      let maxidx := Z.of_nat (String.length randchartab) - 1 in
      let j := Z.rem (rnd i) (maxidx + 1) in
      b ← store buffer i (hd_char (str_drop (Z.to_nat j) randchartab));
      make_random_loop b rnd (S i) n'
  end.

(** [length - 1] is a [size_t]: for [length = 0] the loop bound wraps and
    the writes leave any buffer; the model rejects it. *)
Definition make_random_string (buffer : list ascii) (length : nat) (rnd : nat -> Z)
    : option (list ascii) :=
  if (length =? 0)%nat then None
  else b ← make_random_loop buffer rnd 0 (length - 1); store b (length - 1) NUL.

(** ** Lemmas *)

Definition all_ascii : list ascii := map ascii_of_nat (seq 0 256).

(** Decide a property of characters by trying all 256. *)
Lemma ascii_forall (P : ascii -> bool) :
  forallb P all_ascii = true -> forall c, P c = true.
Proof.
  rewrite forallb_forall. intros H c. apply H. unfold all_ascii.
  apply in_map_iff. exists (nat_of_ascii c). split; [apply ascii_nat_embedding|].
  apply in_seq. pose proof (nat_ascii_bounded c). lia.
Qed.

Ltac by_all_ascii P :=
  let H := fresh "H" in
  pose proof (ascii_forall P ltac:(vm_compute; reflexivity)) as H; cbv beta in H.

Lemma ascii_eqb_true (a b : ascii) : Ascii.eqb a b = true <-> a = b.
Proof. apply Ascii.eqb_eq. Qed.

Lemma tolower_idemp c : tolower (tolower c) = tolower c.
Proof.
  by_all_ascii (fun c => Ascii.eqb (tolower (tolower c)) (tolower c)).
  apply ascii_eqb_true, H.
Qed.

Lemma tolower_NUL c : tolower c = NUL <-> c = NUL.
Proof.
  by_all_ascii (fun c => eqb (Ascii.eqb (tolower c) NUL) (Ascii.eqb c NUL)).
  specialize (H c). apply eqb_prop in H.
  rewrite <- !ascii_eqb_true. by rewrite H.
Qed.

Lemma tolower_NUL_inv c : tolower c = NUL -> c = NUL.
Proof. apply tolower_NUL. Qed.

Lemma code_inj a b : code a = code b -> a = b.
Proof.
  unfold code. intros H. apply Nat2Z.inj in H.
  rewrite <- (ascii_nat_embedding a), <- (ascii_nat_embedding b). by rewrite H.
Qed.

(** A C string holds no NUL before its end. *)
Fixpoint no_nul (s : string) : bool :=
  match s with EmptyString => true | String c s' => negb (Ascii.eqb c NUL) && no_nul s' end.

Lemma str_app_cons c s t : (String c s +:+ t = String c (s +:+ t))%string.
Proof. done. Qed.

Lemma str_app_assoc a b c : ((a +:+ b) +:+ c = a +:+ (b +:+ c))%string.
Proof. induction a as [|x a IH]; [done|]. by rewrite !str_app_cons, IH. Qed.

Lemma str_length_app (a b : string) : String.length (a +:+ b) = (String.length a + String.length b)%nat.
Proof. induction a as [|x a IH]; [done|]. rewrite str_app_cons. simpl. by rewrite IH. Qed.

Lemma str_take_app (w rest : string) : str_take (String.length w) (w +:+ rest) = w.
Proof. induction w as [|a w IH]; [done|]. rewrite str_app_cons. exact (f_equal (String a) IH). Qed.

Lemma str_drop_app (w rest : string) : str_drop (String.length w) (w +:+ rest) = rest.
Proof. induction w as [|a w IH]; [done|]. rewrite str_app_cons. exact IH. Qed.

Lemma trunc_fits k s : (String.length s < k)%nat -> trunc k s = s.
Proof.
  unfold trunc. revert k. induction s as [|c s IH]; intros k Hk; simpl in *.
  - by destruct (k - 1)%nat.
  - destruct k as [|k]; [lia|]. destruct k as [|k]; [lia|]. simpl. f_equal.
    specialize (IH (S k)). simpl in IH. rewrite Nat.sub_0_r in IH. apply IH. lia.
Qed.

Lemma str_app_nil a : (a +:+ "" = a)%string.
Proof. induction a as [|x a IH]; [done|]. by rewrite str_app_cons, IH. Qed.

Fixpoint last_char (s : string) : ascii :=
  match s with EmptyString => NUL | String c EmptyString => c | String _ s' => last_char s' end.

(** A host as servers send it: it neither starts nor ends with a dot. *)
Definition host_ok (h : string) : bool :=
  no_nul h && negb (Ascii.eqb (hd_char h) ".") && negb (Ascii.eqb (last_char h) ".").

(** Close a goal from [negb (Ascii.eqb NUL NUL) = true]. *)
Ltac by_nul :=
  match goal with H : _ = true |- _ => solve [vm_compute in H; discriminate H] end.

Lemma irc_stricmp_0 s1 s2 :
  no_nul s1 = true -> no_nul s2 = true ->
  irc_stricmp s1 s2 = 0 <-> strlower s1 = strlower s2.
Proof.
  revert s2. induction s1 as [|a s1 IH]; intros [|b s2]; simpl; intros H1 H2.
  - done.
  - apply andb_prop in H2 as [H2 _].
    destruct (Ascii.eqb (tolower NUL) (tolower b)) eqn:E.
    + apply ascii_eqb_true in E. symmetry in E. change (tolower NUL) with NUL in E.
      apply tolower_NUL_inv in E. subst; by_nul.
    + split; [destruct (_ <? _); lia|discriminate].
  - apply andb_prop in H1 as [H1 _].
    destruct (Ascii.eqb (tolower a) (tolower NUL)) eqn:E.
    + apply ascii_eqb_true in E. change (tolower NUL) with NUL in E.
      apply tolower_NUL_inv in E. subst; by_nul.
    + split; [destruct (_ <? _); lia|discriminate].
  - apply andb_prop in H1 as [Ha H1]. apply andb_prop in H2 as [Hb H2].
    destruct (Ascii.eqb (tolower a) (tolower b)) eqn:E.
    + apply ascii_eqb_true in E.
      destruct (Ascii.eqb (tolower a) NUL) eqn:En.
      * apply ascii_eqb_true, tolower_NUL_inv in En. subst; by_nul.
      * rewrite (IH s2 H1 H2). unfold strlower. split; intros H; [|by injection H].
        simpl. rewrite E. f_equal. exact H.
    + assert (tolower a <> tolower b) by (intros Hx; apply ascii_eqb_true in Hx; congruence).
      split; [destruct (_ <? _); lia|]. intros Hx. injection Hx. done.
Qed.

Lemma stricmp_irc s1 s2 : stricmp s1 s2 = irc_stricmp s1 s2.
Proof. revert s2. induction s1; intros [|]; simpl; rewrite ?IHs1; done. Qed.

Lemma irc_stricmp_refl s : irc_stricmp s s = 0.
Proof.
  induction s as [|a s IH]; [done|]. simpl.
  rewrite Ascii.eqb_refl. by destruct (Ascii.eqb _ _).
Qed.

Lemma code_eqb a b : (code a <? code b) = true -> Ascii.eqb a b = false.
Proof. intros H. apply Ascii.eqb_neq. intros ->. rewrite Z.ltb_irrefl in H. done. Qed.

Lemma cmp_anti (a b : ascii) : Ascii.eqb a b = false ->
  (if code a <? code b then -1 else 1) = - (if code b <? code a then -1 else 1).
Proof.
  intros H. apply Ascii.eqb_neq in H.
  destruct (Z.ltb_spec (code a) (code b)), (Z.ltb_spec (code b) (code a)); try lia.
  exfalso. apply H, code_inj. lia.
Qed.

Lemma irc_stricmp_anti s1 s2 : irc_stricmp s2 s1 = - irc_stricmp s1 s2.
Proof.
  revert s2. induction s1 as [|a s1 IH]; intros [|b s2]; simpl; [done| | |];
    rewrite (Ascii.eqb_sym (tolower _) (tolower _)); destruct (Ascii.eqb _ _) eqn:E;
    try done; try (apply cmp_anti; first [exact E | rewrite Ascii.eqb_sym; exact E]).
  - apply ascii_eqb_true in E. rewrite E. destruct (Ascii.eqb _ NUL); [done|apply IH].
Qed.

(** *** strscpy *)

Lemma strscpy_loop_spec len d i s :
  (0 < len)%nat -> (i + len <= length d)%nat -> no_nul s = true ->
  exists d' j, strscpy_loop d i s len = Some (d', j) /\ length d' = length d /\
    (j < i + len)%nat /\
    take (i + String.length (trunc len s)) d' =
      take i d ++ list_ascii_of_string (trunc len s) /\
    (j = (i + String.length (trunc len s))%nat \/
       d' !! (i + String.length (trunc len s))%nat = Some NUL /\
       j = S (i + String.length (trunc len s))) /\
    drop (i + len) d' = drop (i + len) d.
Proof.
  revert d i s. induction len as [|len IH]; intros d i s Hpos Hlen Hnul; [lia|].
  simpl. destruct (Nat.eqb_spec len 0) as [->|Hne].
  { exists d, i. unfold trunc. simpl. rewrite !Nat.add_0_r.
    split_and!; [done|done|lia|by rewrite app_nil_r|by left|done]. }
  unfold store. destruct (Nat.ltb_spec i (length d)); [|lia]. simpl.
  destruct s as [|c s].
  { eexists _, _. split; [done|]. unfold trunc. simpl. rewrite Nat.sub_0_r.
    destruct len; [done|]. simpl. rewrite !Nat.add_0_r, length_insert.
    split_and!; [done|lia| | |].
    - by rewrite app_nil_r, take_insert_ge by lia.
    - right. split; [|done]. apply list_lookup_insert_eq. lia.
    - apply drop_insert_lt. lia. }
  simpl in Hnul. apply andb_prop in Hnul as [Hc Hnul].
  destruct (Ascii.eqb c NUL); [done|]. simpl.
  destruct (IH (<[i:=c]> d) (S i) s) as (d' & j & E & Hl & Hj & Ht & Hor & Hd);
    [lia|rewrite length_insert; lia|done|].
  rewrite E. rewrite length_insert in Hl. exists d', j.
  assert (Htr : trunc (S len) (String c s) = String c (trunc len s)).
  { unfold trunc. simpl. rewrite Nat.sub_0_r. destruct len; [done|]. simpl.
    by rewrite Nat.sub_0_r. }
  rewrite Htr. simpl String.length. replace (i + S (String.length (trunc len s)))%nat
    with (S i + String.length (trunc len s))%nat by lia.
  split_and!; [done|done|lia| |done|].
  - rewrite Ht. simpl. rewrite (take_S_r _ _ c) by (apply list_lookup_insert_eq; lia).
    rewrite take_insert_ge by lia. by rewrite <- app_assoc.
  - replace (i + S len)%nat with (S i + len)%nat by lia. rewrite Hd.
    apply drop_insert_lt. lia.
Qed.

Lemma cstring_app (l : string) (rest : list ascii) :
  no_nul l = true -> cstring (list_ascii_of_string l ++ NUL :: rest) = Some l.
Proof.
  induction l as [|c l IH]; [done|]. simpl. intros H. apply andb_prop in H as [Hc Hl].
  destruct (Ascii.eqb c NUL); [done|]. by rewrite IH.
Qed.

Lemma str_take_all k s : (String.length s <= k)%nat -> str_take k s = s.
Proof.
  revert s. induction k as [|k IH]; intros [|a s] Hl; simpl in *; try done; [lia|].
  exact (f_equal (String a) (IH s ltac:(lia))).
Qed.

Lemma no_nul_take n s : no_nul s = true -> no_nul (str_take n s) = true.
Proof.
  revert s. induction n; intros [|c s]; simpl; try done.
  intros H. apply andb_prop in H as [-> H]. simpl. auto.
Qed.

Lemma length_list_ascii s : length (list_ascii_of_string s) = String.length s.
Proof. induction s; simpl; congruence. Qed.

Lemma str_take_length n s : (String.length (str_take n s) <= n)%nat.
Proof. revert s; induction n; intros [|]; simpl; try lia. specialize (IHn s). lia. Qed.

(** A buffer that starts with [l] and a NUL holds the string [l]. *)
Lemma cstring_of_prefix (d : list ascii) (l : string) :
  no_nul l = true -> take (String.length l) d = list_ascii_of_string l ->
  d !! String.length l = Some NUL -> cstring d = Some l.
Proof.
  intros Hn Ht Hl. rewrite <- (take_drop_middle _ _ _ Hl), Ht. by apply cstring_app.
Qed.

Lemma lookup_drop_NUL (d : list ascii) n : d !! n = Some NUL -> <[n := NUL]> d = d.
Proof. apply list_insert_id. Qed.

Lemma irc_stricmp_strlower s1 s2 :
  irc_stricmp (strlower s1) (strlower s2) = irc_stricmp s1 s2.
Proof.
  revert s2. induction s1 as [|a s1 IH]; intros [|b s2]; simpl;
    rewrite ?tolower_idemp; try done.
  fold (strlower s1) (strlower s2). by rewrite IH.
Qed.

Lemma map_string_comp f g s : map_string f (map_string g s) = map_string (fun c => f (g c)) s.
Proof. induction s; simpl; congruence. Qed.

Lemma map_string_id f s : (forall c, f c = c) -> map_string f s = s.
Proof. intros H. induction s; simpl; congruence. Qed.

Lemma strlower_idemp s : strlower (strlower s) = strlower s.
Proof.
  unfold strlower. rewrite map_string_comp. induction s; simpl; [done|].
  by rewrite tolower_idemp, IHs.
Qed.

(** *** stristr *)

Lemma str_drop_S n s : str_drop (S n) s = str_drop n (str_drop 1 s).
Proof. destruct s; simpl; [by destruct n|done]. Qed.

(** [p] is a prefix of [s], up to case. *)
Fixpoint prefix_nocase (p s : string) : Prop :=
  match p, s with
  | EmptyString, _ => True
  | String a p', String b s' => tolower a = tolower b /\ prefix_nocase p' s'
  | _, _ => False
  end.

Lemma prefix_nocase_snoc p s a b rest :
  prefix_nocase p s -> str_drop (String.length p) s = String b rest ->
  tolower a = tolower b ->
  prefix_nocase (p +:+ String a EmptyString) s.
Proof.
  revert s. induction p as [|x p IH]; intros [|y s]; simpl; try done.
  - intros _ [= -> ->] H. done.
  - intros [Hxy Hp] Hd Hab. split; [done|]. by apply IH.
Qed.

Lemma append_assoc_one p a d : ((p +:+ String a EmptyString) +:+ d = p +:+ String a d)%string.
Proof. induction p as [|x p IH]; [done|]. exact (f_equal (String x) IH). Qed.

Lemma length_snoc p a : String.length (p +:+ String a EmptyString) = S (String.length p).
Proof. induction p as [|x p IH]; [done|]. exact (f_equal S IH). Qed.

Lemma str_drop_add n m s : str_drop (n + m) s = str_drop m (str_drop n s).
Proof.
  revert s. induction n as [|n IH]; intros s; [done|].
  rewrite Nat.add_succ_l, str_drop_S, IH, <- str_drop_S. done.
Qed.

Lemma stristr_loop_sound full s1 i s d done_ s2 k :
  no_nul full = true ->
  s2 = (done_ +:+ d)%string -> s1 = str_drop i full ->
  i = (s + String.length done_)%nat -> prefix_nocase done_ (str_drop s full) ->
  stristr_loop s1 i s d s2 = Some k ->
  prefix_nocase s2 (str_drop k full).
Proof.
  intros Hn. revert i s d done_.
  induction s1 as [|a s1 IH]; intros i s d done_ Hs2 Hs1 Hi Hp H; simpl in H; [done|].
  assert (Htail : s1 = str_drop (S i) full).
  { replace (S i) with (i + 1)%nat by lia. rewrite str_drop_add, <- Hs1. done. }
  assert (Ha : a <> NUL).
  { clear -Hn Hs1. revert i Hs1. induction full as [|c full IHf]; intros [|i] H; simpl in *; try done.
    - injection H as -> ->. apply andb_prop in Hn as [Hc _]. intros ->. by_nul.
    - apply andb_prop in Hn as [_ Hn]. eauto. }
  destruct (Ascii.eqb _ _) eqn:E.
  - apply ascii_eqb_true in E.
    destruct d as [|x d]; simpl in E.
    { change (tolower NUL) with NUL in E. by apply tolower_NUL_inv in E. }
    assert (Hp' : prefix_nocase (done_ +:+ String x EmptyString) (str_drop s full)).
    { eapply prefix_nocase_snoc; [done| |by symmetry].
      rewrite <- str_drop_add, <- Hi. by symmetry. }
    simpl in H. destruct d as [|y d].
    + injection H as <-. by subst s2.
    + eapply (IH _ _ _ (done_ +:+ String x EmptyString)%string);
        [|done| |exact Hp'|exact H].
      * by rewrite append_assoc_one.
      * rewrite length_snoc. lia.
  - apply (IH _ _ _ ""%string) in H; simpl; auto; lia.
Qed.

(** ** Properties *)

(** [irc_stricmp] is a case-insensitive three-way comparison: it returns 0
    exactly on strings equal after [strlower], swapping the arguments negates
    the result, and only the lower-cased strings matter. *)
Theorem irc_stricmp_correct s1 s2 (H1 : no_nul s1 = true) (H2 : no_nul s2 = true) :
  (irc_stricmp s1 s2 = 0 <-> strlower s1 = strlower s2) /\
  irc_stricmp s2 s1 = - irc_stricmp s1 s2 /\
  irc_stricmp (strlower s1) (strlower s2) = irc_stricmp s1 s2.
Proof.
  split_and!; [by apply irc_stricmp_0|apply irc_stricmp_anti|apply irc_stricmp_strlower].
Qed.

Lemma irc_stricmp_correct_witness :
  irc_stricmp "NickServ" "nickserv" = 0 <-> strlower "NickServ" = strlower "nickserv".
Proof. apply (irc_stricmp_correct "NickServ" "nickserv"); reflexivity. Defined.

(** [strscpy] never writes outside the [len] bytes it is given, and for
    [len > 0] leaves there the terminated string cut to [len - 1] characters. *)
Theorem strscpy_bounded d s len
    (Hlen : (len <= length d)%nat) (Hs : no_nul s = true) :
  exists d', strscpy d s len = Some d' /\ length d' = length d /\
    drop len d' = drop len d /\
    ((0 < len)%nat -> cstring d' = Some (trunc len s)).
Proof.
  unfold strscpy. destruct (Nat.eqb_spec len 0) as [->|Hne].
  { exists d. split_and!; [done|done|done|lia]. }
  destruct (strscpy_loop_spec len d 0 s) as (d' & j & -> & Hl & Hj & Ht & Hor & Hd);
    [lia|lia|done|]. simpl in *. unfold store.
  destruct (Nat.ltb_spec j (length d')); [|lia].
  eexists. split; [done|]. rewrite length_insert. split_and!; [done| |].
  - by rewrite drop_insert_lt.
  - intros _. apply cstring_of_prefix; [by apply no_nul_take| |].
    + rewrite take_insert_ge by (destruct Hor as [->|[_ ->]]; lia). done.
    + destruct Hor as [->|[Hn ->]]; [by apply list_lookup_insert_eq|].
      rewrite list_lookup_insert_ne by lia. done.
Qed.

Lemma strscpy_bounded_witness :
  exists d', strscpy (replicate 6 "x"%char) "nickname" 5 = Some d' /\ length d' = 6%nat /\
    drop 5 d' = drop 5 (replicate 6 "x"%char) /\
    ((0 < 5)%nat -> cstring d' = Some "nick"%string).
Proof. apply (strscpy_bounded (replicate 6 "x"%char) "nickname" 5); [simpl; lia|reflexivity]. Defined.

(** [rot13] undoes itself on every string, so a memo stored with it is read
    back unchanged. *)
Theorem rot13_involutive s : rot13 (rot13 s) = s.
Proof.
  unfold rot13. rewrite map_string_comp. apply map_string_id. intros c.
  match goal with |- ?f = c => set (g := f) end. pattern c in g.
  match eval cbv delta [g] in g with ?h _ =>
    pose proof (ascii_forall (fun c => Ascii.eqb (h c) c) ltac:(vm_compute; reflexivity) c) as H
  end. by apply ascii_eqb_true in H.
Qed.

(** A match reported by [stristr] is a case-insensitive occurrence of [s2]
    at that offset of [s1]. *)
Theorem stristr_sound s1 s2 k (Hs : no_nul s1 = true) (Hk : stristr s1 s2 = Some k) :
  prefix_nocase s2 (str_drop k s1).
Proof. by apply (stristr_loop_sound s1 s1 0 0 s2 "" s2 k). Qed.

Lemma stristr_sound_witness : prefix_nocase "SER" (str_drop 4 "nickserv").
Proof. apply (stristr_sound "nickserv" "SER" 4); reflexivity. Defined.

(** The scan restarts after the mismatch, not after the start of the failed
    match: an occurrence overlapping a failed attempt is missed. *)
Lemma stristr_misses_overlap :
  stristr "aaab" "aab" = None /\ prefix_nocase "aab" (str_drop 1 "aaab").
Proof. done. Qed.

Lemma string_prefixb_refl p s : string_prefixb p (p ++ s) = true.
Proof. induction p; simpl; [done|]. by rewrite Ascii.eqb_refl, IHp. Qed.

(** [strnrepl] runs off the end of a buffer that the result fits exactly:
    its [memmove] moves [left + 1] bytes from behind the match although only
    [left - oldlen + 1] remain there. *)
Theorem strnrepl_overrun old new
    (Ho : no_nul old = true) (H0 : (0 < String.length old)%nat)
    (Hlt : (String.length old < String.length new)%nat)
    (Hsz : Z.of_nat (String.length new) < 2 ^ 62) :
  let size := S (String.length new) in
  let buf := list_ascii_of_string old ++ replicate (size - String.length old) NUL in
  length buf = size /\ cstring buf = Some old /\
  strnrepl buf (Z.of_nat size) old new = None.
Proof.
  intros size buf. unfold buf, size.
  replace (S (String.length new) - String.length old)%nat
    with (S (String.length new - String.length old)) by lia.
  rewrite length_app, length_list_ascii, length_replicate. split; [lia|].
  pose proof (cstring_app old (replicate (String.length new - String.length old) NUL) Ho) as Hc.
  split; [exact Hc|]. unfold strnrepl. simpl replicate. rewrite Hc. simpl.
  rewrite !length_list_ascii.
  unfold u64. rewrite !Z.mod_small by lia.
  rewrite Z.leb_refl, drop_0, string_prefixb_refl. simpl.
  destruct (Z.ltb_spec (Z.of_nat (S (String.length new)) - (Z.of_nat (String.length old) + 1))
              (Z.of_nat (String.length new) - Z.of_nat (String.length old))); [lia|].
  destruct (Z.eqb_spec (Z.of_nat (String.length new) - Z.of_nat (String.length old)) 0); [lia|].
  simpl. unfold memmove. rewrite !length_app, length_list_ascii. simpl. rewrite length_replicate.
  destruct (Nat.leb_spec (String.length old + Z.to_nat (Z.of_nat (String.length new) - Z.of_nat (String.length old)) + Z.to_nat (Z.of_nat (String.length old) + 1))
    (String.length old + S (String.length new - String.length old))); [lia|].
  by rewrite andb_false_r.
Qed.

Lemma strnrepl_overrun_witness :
  length (list_ascii_of_string "%a" ++ replicate 2 NUL) = 4%nat /\
  cstring (list_ascii_of_string "%a" ++ replicate 2 NUL) = Some "%a"%string /\
  strnrepl (list_ascii_of_string "%a" ++ replicate 2 NUL) 4 "%a" "Mon" = None.
Proof. apply (strnrepl_overrun "%a" "Mon"); first [reflexivity | simpl; lia]. Defined.
