(* ===== verification/Wild.v ===== *)
(** Wildcard matching: [do_match_wild] of [src/misc.c], the same routine
    compiled into MySQL as [IRC_MATCH] ([mysql/blitzed_udf.c]), and a
    reference semantics of masks to compare them with. *)

From S2P Require Import Prelude CStr.

Local Open Scope char_scope.

(** The character test of the matcher. *)
Definition eqc (docase : bool) (a b : ascii) : bool :=
  if docase then Ascii.eqb a b else Ascii.eqb (tolower a) (tolower b).

(** [while ( *s) { if ( *s == *pattern && do_match_wild(pattern, s)) return 1; s++; } break;]
    [rest] is the call on the remaining pattern, [hd] its first character;
    when nothing matched, the outer loop goes on with [str] unmoved. *)
Fixpoint star_scan (rest : string -> bool) (docase : bool) (hd : ascii)
    (str s : string) : bool :=
  match s with
  | EmptyString => rest str
  | String x s' =>
      if eqc docase x hd && rest s then true else star_scan rest docase hd str s'
  end.

Fixpoint do_match_wild (pattern str : string) (docase : bool) : bool :=
  match pattern with
  | EmptyString => match str with EmptyString => true | _ => false end
  | String c pattern' =>
      if Ascii.eqb c "?" then
        match str with
        | EmptyString => false
        | String _ str' => do_match_wild pattern' str' docase
        end
      else if Ascii.eqb c "*" then
        match pattern' with
        | EmptyString => true
        | String hd _ =>
            star_scan (fun t => do_match_wild pattern' t docase) docase hd str str
        end
      else
        match str with
        | EmptyString => false
        | String x str' => if eqc docase x c then do_match_wild pattern' str' docase else false
        end
  end.

Definition match_wild (pattern str : string) : bool := do_match_wild pattern str true.
Definition match_wild_nocase (pattern str : string) : bool := do_match_wild pattern str false.

(** ** IRC_MATCH *)
Module Udf.
(** [irc_match_init]: [None] rejects the call. *)
Definition irc_match_init (arg_count : nat) : option unit :=
  if (arg_count <? 2)%nat || (3 <? arg_count)%nat then None else Some tt.

(** The inner loop of the copy of the matcher in the plugin. *)
Fixpoint scan (rest : string -> bool) (docase : bool) (hd : ascii) (s : string)
    : option bool :=
  match s with
  | EmptyString => None
  | String x s' =>
      if (if docase then Ascii.eqb x hd else Ascii.eqb (tolower x) (tolower hd)) && rest s
      then Some true else scan rest docase hd s'
  end.

Fixpoint do_match_wild (pattern str : string) (docase : bool) {struct pattern} : bool :=
  match pattern with
  | EmptyString => Nat.eqb (String.length str) 0
  | String c p =>
      match c, str with
      | "?", EmptyString => false
      | "?", String _ t => do_match_wild p t docase
      | "*", _ =>
          match p with
          | EmptyString => true
          | String hd _ =>
              match scan (fun t => do_match_wild p t docase) docase hd str with
              | Some r => r
              | None => do_match_wild p str docase
              end
          end
      | _, EmptyString => false
      | _, String x t =>
          if (if docase then negb (Ascii.eqb x c)
              else negb (Ascii.eqb (tolower x) (tolower c)))
          then false else do_match_wild p t docase
      end
  end.

(** [third] is the optional integer argument. *)
Definition irc_match (p s : string) (third : option Z) : Z :=
  let docase := match third with Some n => negb (n =? 0)%Z | None => false end in
  if do_match_wild p s docase then 1 else 0.
End Udf.

(** ** Reference semantics of masks

    [?] stands for one character, [*] for any sequence, anything else for
    itself (up to case when [docase] is false). *)
Fixpoint any_suffix (P : string -> bool) (s : string) : bool :=
  P s || match s with EmptyString => false | String _ s' => any_suffix P s' end.

Fixpoint glob (pattern str : string) (docase : bool) : bool :=
  match pattern with
  | EmptyString => match str with EmptyString => true | _ => false end
  | String c p =>
      if Ascii.eqb c "?" then
        match str with EmptyString => false | String _ t => glob p t docase end
      else if Ascii.eqb c "*" then any_suffix (fun t => glob p t docase) str
      else match str with EmptyString => false
           | String x t => eqc docase x c && glob p t docase end
  end.

(** No [*] stands directly before a [?]. *)
Fixpoint no_star_qm (p : string) : bool :=
  match p with
  | String "*" (String "?" _) => false
  | String _ p' => no_star_qm p'
  | EmptyString => true
  end.

(** ** Lemmas *)

Lemma any_suffix_self P s : P s = true -> any_suffix P s = true.
Proof. destruct s; simpl; intros ->; done. Qed.

Lemma any_suffix_empty_end P s : P EmptyString = true -> any_suffix P s = true.
Proof. intros H. induction s; simpl; rewrite ?H, ?IHs, ?orb_true_r; done. Qed.

Lemma any_suffix_mono P Q s :
  (forall t, P t = true -> Q t = true) -> any_suffix P s = true -> any_suffix Q s = true.
Proof.
  intros HPQ. induction s; simpl; rewrite !orb_true_iff; intros [H|H]; auto.
Qed.

Lemma any_suffix_idemp P s :
  any_suffix (fun t => any_suffix P t) s = true -> any_suffix P s = true.
Proof.
  induction s as [|x s IH]; simpl; rewrite !orb_true_iff; [intuition congruence|].
  intros [[H|H]|H]; auto.
Qed.

Lemma star_scan_spec rest docase hd str s :
  star_scan rest docase hd str s = true ->
  rest str = true \/ exists t, any_suffix (fun u => bool_decide (u = t)) s = true /\ rest t = true.
Proof.
  induction s as [|x s IH]; simpl; [by left|].
  destruct (eqc docase x hd && rest (String x s)) eqn:E.
  - intros _. right. exists (String x s). apply andb_prop in E as [_ E].
    by rewrite bool_decide_eq_true_2.
  - intros H. destruct (IH H) as [?|(t & Ht & Hr)]; [by left|].
    right. exists t. by rewrite Ht, orb_true_r.
Qed.

Lemma any_suffix_of P s t :
  any_suffix (fun u => bool_decide (u = t)) s = true -> P t = true -> any_suffix P s = true.
Proof.
  intros H HP. eapply any_suffix_mono; [|exact H]. intros u Hu.
  apply bool_decide_eq_true_1 in Hu. by subst.
Qed.

Lemma star_scan_fall rest docase hd str s :
  rest str = true -> star_scan rest docase hd str s = true.
Proof. intros H. induction s; simpl; [done|]. by destruct (_ && _). Qed.

(** When every match of the rest starts with [hd], the scan finds any suffix
    that the rest matches. *)
Lemma star_scan_complete rest docase hd str s :
  (forall t, rest t = true -> exists x t', t = String x t' /\ eqc docase x hd = true) ->
  any_suffix rest s = true -> star_scan rest docase hd str s = true.
Proof.
  intros Hhd. induction s as [|x s IH]; simpl; rewrite orb_true_iff.
  - intros [H|H]; [|done]. by destruct (Hhd _ H) as (? & ? & ? & _).
  - intros [H|H]; [|rewrite (IH H); by destruct (eqc _ _ _ && rest _)].
    destruct (Hhd _ H) as (y & t & [= <- <-] & ->). by rewrite H.
Qed.

Lemma do_match_wild_glob p s docase : do_match_wild p s docase = true -> glob p s docase = true.
Proof.
  revert s. induction p as [|c p IH]; intros s; simpl; [done|].
  destruct (Ascii.eqb c "?"); [destruct s; auto|].
  destruct (Ascii.eqb c "*").
  - destruct p as [|hd p']; [intros _; by apply any_suffix_empty_end|].
    intros H. apply star_scan_spec in H as [H|(t & Ht & H)].
    + apply any_suffix_self. by apply IH.
    + eapply any_suffix_of; [exact Ht|]. by apply IH.
  - destruct s; [done|]. destruct (eqc docase a c); simpl; auto.
Qed.

Lemma eqb_chars (c d : ascii) : Ascii.eqb c d = true -> c = d.
Proof. apply ascii_eqb_true. Qed.

Lemma no_star_qm_tail c p : no_star_qm (String c p) = true -> no_star_qm p = true.
Proof.
  simpl. destruct c as [[] [] [] [] [] [] [] []]; try done.
  destruct p as [|[[] [] [] [] [] [] [] []] p]; done.
Qed.

Lemma no_star_qm_star hd p :
  no_star_qm (String "*" (String hd p)) = true -> Ascii.eqb hd "?" = false.
Proof. simpl. by destruct hd as [[] [] [] [] [] [] [] []]. Qed.

(** A pattern that starts with an ordinary character only matches strings
    that start with it. *)
Lemma do_match_wild_literal hd p t docase :
  Ascii.eqb hd "?" = false -> Ascii.eqb hd "*" = false ->
  do_match_wild (String hd p) t docase = true ->
  exists x t', t = String x t' /\ eqc docase x hd = true.
Proof.
  intros H1 H2. simpl. rewrite H1, H2. destruct t as [|x t]; [done|].
  destruct (eqc docase x hd) eqn:E; [|done]. eauto.
Qed.

Lemma glob_do_match_wild p s docase :
  no_star_qm p = true -> glob p s docase = true -> do_match_wild p s docase = true.
Proof.
  revert s. induction p as [|c p IH]; intros s Hq; [done|].
  pose proof (no_star_qm_tail _ _ Hq) as Hq'. simpl.
  destruct (Ascii.eqb c "?") eqn:Ec; [destruct s; auto|].
  destruct (Ascii.eqb c "*") eqn:Es.
  - destruct p as [|hd p']; [done|]. intros H.
    apply eqb_chars in Es. subst c. apply no_star_qm_star in Hq.
    destruct (Ascii.eqb hd "*") eqn:Eh.
    + apply star_scan_fall, IH; [done|]. apply eqb_chars in Eh. subst hd.
      simpl in H |- *. by apply any_suffix_idemp.
    + apply star_scan_complete.
      * intros t. by apply do_match_wild_literal.
      * eapply any_suffix_mono; [|exact H]. intros t. by apply IH.
  - destruct s; [done|]. destruct (eqc docase a c); simpl; auto.
Qed.

Lemma udf_scan rest docase hd str s :
  match Udf.scan rest docase hd s with Some r => r | None => rest str end =
  star_scan rest docase hd str s.
Proof.
  induction s as [|x s IH]; simpl; [done|]. unfold eqc.
  destruct (_ && _); done.
Qed.

Lemma udf_do_match_wild_step c p s docase :
  Udf.do_match_wild (String c p) s docase =
    if Ascii.eqb c "?" then
      match s with EmptyString => false | String _ t => Udf.do_match_wild p t docase end
    else if Ascii.eqb c "*" then
      match p with
      | EmptyString => true
      | String hd _ =>
          match Udf.scan (fun t => Udf.do_match_wild p t docase) docase hd s with
          | Some r => r | None => Udf.do_match_wild p s docase end
      end
    else match s with EmptyString => false
         | String x t => if eqc docase x c then Udf.do_match_wild p t docase else false end.
Proof.
  unfold eqc. destruct c as [[] [] [] [] [] [] [] []]; destruct s, docase;
    try reflexivity; simpl; by destruct (Ascii.eqb _ _).
Qed.

Lemma star_scan_ext r1 r2 docase hd str s :
  (forall t, r1 t = r2 t) -> star_scan r1 docase hd str s = star_scan r2 docase hd str s.
Proof. intros H. induction s; simpl; rewrite !H, ?IHs; done. Qed.

Lemma udf_do_match_wild p s docase :
  Udf.do_match_wild p s docase = do_match_wild p s docase.
Proof.
  revert s. induction p as [|c p IH]; intros s; [by destruct s|].
  rewrite udf_do_match_wild_step. simpl.
  destruct (Ascii.eqb c "?"); [destruct s; auto|].
  destruct (Ascii.eqb c "*").
  - destruct p as [|hd p']; [done|].
    etransitivity; [apply (udf_scan (fun t => Udf.do_match_wild (String hd p') t docase))|].
    apply star_scan_ext. intros t. apply IH.
  - destruct s; [done|]. destruct (eqc _ _ _); auto.
Qed.

(** ** Properties *)

(** Whatever [match_wild] accepts does match the mask: [?] one character,
    [*] any sequence, other characters themselves; case-insensitively for
    [match_wild_nocase]. *)
Theorem match_wild_sound pattern str :
  (match_wild pattern str = true -> glob pattern str true = true) /\
  (match_wild_nocase pattern str = true -> glob pattern str false = true).
Proof. split; apply do_match_wild_glob. Qed.

Lemma match_wild_sound_witness : glob "*!*@*.oftc.net" "joe!j@x.oftc.net" true = true.
Proof. apply (match_wild_sound "*!*@*.oftc.net" "joe!j@x.oftc.net"). reflexivity. Defined.

(** C38: For masks without [*?] the matcher is complete, so there it decides
    mask membership exactly, and the copy of the routine that MySQL runs as
    [IRC_MATCH] gives the same answers. *)
Theorem match_wild_exact pattern str (Hq : no_star_qm pattern = true) :
  match_wild pattern str = glob pattern str true /\
  match_wild_nocase pattern str = glob pattern str false.
Proof.
  unfold match_wild, match_wild_nocase.
  split; apply Bool.eq_true_iff_eq; split; auto using do_match_wild_glob, glob_do_match_wild.
Qed.

Lemma match_wild_exact_witness : match_wild "*a*b" "xaxxb" = glob "*a*b" "xaxxb" true.
Proof. apply (match_wild_exact "*a*b" "xaxxb"). reflexivity. Defined.

(** The matcher that MySQL runs as [IRC_MATCH] agrees with the one inside
    the services process on every mask and string: with two arguments, or a
    zero third one, it is [match_wild_nocase], otherwise [match_wild]. *)
Theorem irc_match_agrees p s third :
  Udf.irc_match p s third =
    if (match third with
        | None | Some 0%Z => match_wild_nocase p s
        | Some _ => match_wild p s
        end) then 1%Z else 0%Z.
Proof.
  unfold Udf.irc_match, match_wild, match_wild_nocase. rewrite udf_do_match_wild.
  by destruct third as [[]|].
Qed.

(** Directly before a [?], a [*] loses its meaning: it only matches the empty
    sequence or up to a literal question mark. *)
Lemma match_wild_incomplete :
  match_wild "*?x" "abx" = false /\ glob "*?x" "abx" true = true.
Proof. done. Qed.
