(* ===== verification/NumTime.v ===== *)
(** Numbers and times as text: [process_numlist], [dotime] and
    [disect_time] of [src/misc.c], with the [strtol] and the decimal printing
    of the C library they use. *)

From Stdlib Require Import Sorted.
From S2P Require Import Prelude CStr.

(** ** strtol and decimal printing (libc) *)

Definition LONG_MAX : Z := 2 ^ 63 - 1.
Definition LONG_MIN : Z := - 2 ^ 63.

Fixpoint skip_space (s : string) : string :=
  match s with
  | String c s' => if isspace c then skip_space s' else s
  | EmptyString => s
  end.

Definition digit_val (c : ascii) : Z := code c - 48.

(** Value of the leading digits, in front of [acc], and the rest. *)
Fixpoint read_digits (acc : Z) (s : string) : Z * string :=
  match s with
  | String c s' => if isdigit c then read_digits (acc * 10 + digit_val c) s' else (acc, s)
  | EmptyString => (acc, s)
  end.

Definition starts_digit (s : string) : bool := isdigit (hd_char s).

(** [strtol (s, &end, 10)]: value and [end]; without digits [end] is [s]. *)
Definition strtol (s : string) : Z * string :=
  let t := skip_space s in
  let '(neg, t) :=
    match t with
    | String "-" t' => (true, t')
    | String "+" t' => (false, t')
    | _ => (false, t)
    end in
  if starts_digit t then
    let '(v, r) := read_digits 0 t in
    (Z.max LONG_MIN (Z.min LONG_MAX (if neg then - v else v)), r)
  else (0, s).

(** [%u]: decimal digits of a natural number. *)
Fixpoint dec_loop (fuel : nat) (n : Z) (acc : string) : string :=
  let acc' := String (chr (48 + n mod 10)) acc in
  match fuel with
  | O => acc'
  | S fuel' => if n / 10 =? 0 then acc' else dec_loop fuel' (n / 10) acc'
  end.

Definition dec (n : Z) : string := dec_loop (Z.to_nat (Z.log2 n)) n "".

(** [%d] *)
Definition show_int (n : Z) : string :=
  if n <? 0 then String "-" (dec (- n)) else dec n.

(** [%02d] of a non-negative number *)
Definition show02 (n : Z) : string := if n <? 10 then String "0" (dec n) else dec n.

(** ** process_numlist *)

Definition DIGITS_COMMA_DASH : string := "0123456789,-".
Definition DIGITS_COMMA : string := "0123456789,".

Definition skip_to (s reject : string) : string := str_drop (strcspn s reject) s.

(** One item of the list: the two [unsigned int] bounds, and the text left
    after it, up to and including the next comma. *)
Definition numlist_item (numstr : string) : Z * Z * string :=
  let '(v, r) := strtol numstr in
  let n1 := u32 v in
  let r := skip_to r DIGITS_COMMA_DASH in
  let '(n2, r) :=
    if Ascii.eqb (hd_char r) "-" then
      let r := skip_to (str_drop 1 r) DIGITS_COMMA in
      if starts_digit r then
        let '(v2, r) := strtol r in (u32 v2, skip_to r DIGITS_COMMA_DASH)
      else (n1, r)
    else (n1, r) in
  (n1, n2, str_drop 1 (skip_to r ",")).

Definition NUMFLAG_SIZE : Z := 65537.

(** [while (n1 <= n2) { numflag[n1] = 1; n1++; }] *)
Definition mark_range (numflag : gset Z) (n1 n2 : Z) : gset Z :=
  numflag ∪ list_to_set (seqZ n1 (n2 - n1 + 1)).

(** The parsing loop: flags set, [imin] and [imax]. *)
Fixpoint numlist_loop (fuel : nat) (numstr : string) (min max imin imax : Z)
    (numflag : gset Z) : option (gset Z * Z * Z) :=
  match numstr with
  | EmptyString => Some (numflag, imin, imax)
  | _ =>
      match fuel with
      | O => None
      | S fuel' =>
          let '(n1, n2, rest) := numlist_item numstr in
          let n1 := if n1 <? min then min else n1 in
          let n2 := if max <? n2 then max else n2 in
          let n2 := if 65536 <? n2 then 65536 else n2 in
          let imin := if n1 <? imin then n1 else imin in
          let imax := if imax <? n2 then n2 else imax in
          numlist_loop fuel' rest min max imin imax (mark_range numflag n1 n2)
      end
  end.

Section Callback.
Context {S : Type} (callback : S -> Z -> Z * S).

(** [for (i = imin; i <= imax; i++)] over the flags, most of it:
    [idxs] are the indices still to visit. *)
Fixpoint numlist_calls (idxs : list Z) (numflag : gset Z) (st : S) (retval numcount : Z)
    : Z * Z * S :=
  match idxs with
  | [] => (retval, numcount, st)
  | i :: idxs' =>
      if decide (i ∈ numflag) then
        let '(res, st') := callback st i in
        if res <? 0 then (retval, numcount + 1, st')
        else numlist_calls idxs' numflag st' (retval + res) (numcount + 1)
      else numlist_calls idxs' numflag st retval numcount
  end.

(** Result, [*count_ret] and the callback's state. *)
Definition process_numlist (numstr : string) (min max : Z) (st : S) : option (Z * Z * S) :=
  '(numflag, imin, imax) ← numlist_loop (String.length numstr) numstr min max 65536 0 ∅;
  Some (numlist_calls (seqZ imin (imax - imin + 1)) numflag st 0 0).
End Callback.

(** ** dotime *)

(** Signed [int] arithmetic; [None] is an overflow, undefined in C. *)
Definition int_ok (z : Z) : option Z :=
  if (INT_MIN <=? z) && (z <=? INT_MAX) then Some z else None.

Fixpoint dotime_loop (fuel : nat) (s : string) : option Z :=
  match fuel with
  | O => None
  | S fuel' =>
      let '(v, s) := strtol s in
      let amount := wrap32 v in
      match s with
      | EmptyString => Some amount
      | String c s =>
          rest ← dotime_loop fuel' s;
          if rest <? 0 then Some (-1)
          else if Ascii.eqb c "s" then int_ok (rest + amount)
          else if Ascii.eqb c "m" then p ← int_ok (amount * 60); int_ok (rest + p)
          else if Ascii.eqb c "h" then p ← int_ok (amount * 3600); int_ok (rest + p)
          else if Ascii.eqb c "d" then p ← int_ok (amount * 86400); int_ok (rest + p)
          else Some (-1)
      end
  end.

(** [None] only on a signed overflow: more fuel changes nothing ([dotime_loop_fuel]). *)
Definition dotime (s : string) : option Z := dotime_loop (S (String.length s)) s.

(** ** disect_time *)

(** [while (time >= k) { time -= k; n++; }] *)
Fixpoint while_sub (fuel : nat) (k time n : Z) : Z * Z :=
  match fuel with
  | O => (time, n)
  | S fuel' => if k <=? time then while_sub fuel' k (time - k) (n + 1) else (time, n)
  end.

Definition sub_loop (k time : Z) : Z * Z := while_sub (Z.to_nat (time / k)) k time 0.

Record dissected := Dissected {
  years : Z; months : Z; weeks : Z; days : Z; hours : Z; minutes : Z; seconds : Z
}.

Definition disect (time : Z) : dissected :=
  let '(time, years) := sub_loop (60 * 60 * 24 * 365) time in
  let '(time, months) := sub_loop (60 * 60 * 24 * 30) time in
  let '(time, weeks) := sub_loop (60 * 60 * 24 * 7) time in
  let '(time, days) := sub_loop (60 * 60 * 24) time in
  let '(time, hours) := sub_loop (60 * 60) time in
  let '(time, minutes) := sub_loop 60 time in
  Dissected years months weeks days hours minutes time.

(** ["%d <noun>%s", n, n == 1 ? "" : "s"] *)
Definition plural (n : Z) (noun : string) : string :=
  (show_int n +:+ String " " noun +:+ (if (n =? 1)%Z then "" else "s"))%string.

Definition clock (d : dissected) : string :=
  (show02 (hours d) +:+ String ":" (show02 (minutes d)) +:+ String ":" (show02 (seconds d)))%string.

(** The text given to [snprintf]. *)
Definition disect_text (d : dissected) : string :=
  let sep := ", "%string in
  (if negb (years d =? 0)%Z then
     plural (years d) "year" +:+ sep +:+ plural (months d) "month" +:+ sep +:+
     plural (weeks d) "week" +:+ sep +:+ plural (days d) "day" +:+ sep +:+ clock d
   else if negb (months d =? 0)%Z then
     plural (months d) "month" +:+ sep +:+ plural (weeks d) "week" +:+ sep +:+
     plural (days d) "day" +:+ sep +:+ clock d
   else if negb (weeks d =? 0)%Z then
     plural (weeks d) "week" +:+ sep +:+ plural (days d) "day" +:+ sep +:+ clock d
   else if negb (days d =? 0)%Z then plural (days d) "day" +:+ sep +:+ clock d
   else if negb (hours d =? 0)%Z then
     if negb (minutes d =? 0)%Z || negb (seconds d =? 0)%Z then
       plural (hours d) "hour" +:+ sep +:+ plural (minutes d) "minute" +:+ sep +:+
       plural (seconds d) "second"
     else plural (hours d) "hour"
   else if negb (minutes d =? 0)%Z then
     plural (minutes d) "minute" +:+ sep +:+ plural (seconds d) "second"
   else plural (seconds d) "second")%string.

(** [static char buf[64]] *)
Definition disect_time (time : Z) : string := trunc 64 (disect_text (disect time)).

Definition time_ago (now mytime : Z) : string := disect_time (now - mytime).

Example dotime_ex : dotime "1h30m" = Some 5400. Proof. reflexivity. Qed.
Example dotime_bad : dotime "5x" = Some (-1). Proof. reflexivity. Qed.
Example disect_ex : disect_time 93784 = "1 day, 02:03:04"%string. Proof. reflexivity. Qed.
Example numlist_ex :
  process_numlist (fun st i => (1, st ++ [i])) "7-3,2,5-6,9-" 1 8 [] = Some (3, 3, [2; 5; 6]).
Proof. vm_compute. reflexivity. Qed.

(** ** Lemmas *)

Lemma digit_chr d : 0 <= d < 10 ->
  isdigit (chr (48 + d)) = true /\ digit_val (chr (48 + d)) = d.
Proof.
  intros H. assert (d = 0 \/ d = 1 \/ d = 2 \/ d = 3 \/ d = 4 \/ d = 5 \/ d = 6 \/ d = 7
    \/ d = 8 \/ d = 9) as Hd by lia.
  by repeat destruct Hd as [->|Hd]; try subst.
Qed.

Lemma read_digits_dec_loop fuel n acc a :
  0 <= n < 2 ^ (Z.of_nat fuel + 1) ->
  exists k, 0 <= k /\
    read_digits a (dec_loop fuel n acc) = read_digits (a * 10 ^ k + n) acc.
Proof.
  revert n acc. induction fuel as [|fuel IH]; intros n acc Hn.
  - simpl in Hn. exists 1. split; [done|]. simpl.
    destruct (digit_chr (n mod 10)) as [-> ->]; [apply Z.mod_pos_bound; lia|].
    rewrite Z.mod_small by lia. done.
  - cbn [dec_loop]. pose proof (Z.mod_pos_bound n 10 ltac:(lia)) as Hm.
    pose proof (Z.div_mod n 10 ltac:(lia)) as Hdm.
    destruct (digit_chr (n mod 10) Hm) as [Hd Hv].
    destruct (Z.eqb_spec (n / 10) 0) as [E|E].
    + exists 1. split; [done|]. simpl. rewrite Hd, Hv. do 2 f_equal; lia.
    + destruct (IH (n / 10) (String (chr (48 + n mod 10)) acc)) as (k & Hk & ->).
      { split; [apply Z.div_pos; lia|]. apply Z.div_lt_upper_bound; [lia|].
        replace (Z.of_nat (S fuel) + 1) with (Z.succ (Z.of_nat fuel + 1)) in Hn by lia.
        rewrite Z.pow_succ_r in Hn by lia. lia. }
      exists (k + 1). split; [lia|]. simpl. rewrite Hd, Hv.
      rewrite Z.pow_add_r by lia. f_equal. nia.
Qed.

Lemma dec_fuel n : 0 <= n -> 0 <= n < 2 ^ (Z.of_nat (Z.to_nat (Z.log2 n)) + 1).
Proof.
  intros H. rewrite Z2Nat.id by apply Z.log2_nonneg. split; [done|].
  destruct (Z.eq_dec n 0) as [->|]; [done|]. apply Z.log2_spec. lia.
Qed.

Lemma dec_loop_app fuel n acc rest :
  (dec_loop fuel n acc +:+ rest = dec_loop fuel n (acc +:+ rest))%string.
Proof.
  revert n acc. induction fuel as [|fuel IH]; intros n acc; [done|].
  cbn [dec_loop]. destruct (n / 10 =? 0)%Z; [done|]. apply IH.
Qed.

Lemma read_digits_stop a rest : starts_digit rest = false -> read_digits a rest = (a, rest).
Proof. destruct rest as [|c r]; [done|]. unfold starts_digit. simpl. by intros ->. Qed.

Lemma read_digits_dec n rest : 0 <= n -> starts_digit rest = false ->
  read_digits 0 (dec n +:+ rest) = (n, rest).
Proof.
  intros Hn Hr. unfold dec. rewrite dec_loop_app.
  destruct (read_digits_dec_loop (Z.to_nat (Z.log2 n)) n (""%string +:+ rest) 0
    (dec_fuel n Hn)) as (k & _ & ->).
  rewrite Z.mul_0_l, Z.add_0_l. by apply read_digits_stop.
Qed.

Lemma dec_loop_starts fuel n acc : 0 <= n -> starts_digit (dec_loop fuel n acc) = true.
Proof.
  revert n acc. induction fuel as [|fuel IH]; intros n acc Hn; cbn [dec_loop].
  - apply digit_chr, Z.mod_pos_bound. lia.
  - destruct (n / 10 =? 0); [apply digit_chr, Z.mod_pos_bound; lia|].
    apply IH, Z.div_pos; lia.
Qed.

Lemma dec_starts n rest : 0 <= n -> starts_digit (dec n +:+ rest) = true.
Proof. intros. unfold dec. rewrite dec_loop_app. by apply dec_loop_starts. Qed.

Lemma digit_not_special c : isdigit c = true ->
  isspace c = false /\ Ascii.eqb c "-" = false /\ Ascii.eqb c "+" = false.
Proof.
  by_all_ascii (fun c => implb (isdigit c)
    (negb (isspace c) && negb (Ascii.eqb c "-") && negb (Ascii.eqb c "+"))).
  intros Hc. specialize (H c). rewrite Hc in H. simpl in H.
  apply andb_prop in H as [H ?]. apply andb_prop in H as [? ?].
  by rewrite <- !negb_true_iff.
Qed.

Lemma strtol_digits s : starts_digit s = true ->
  strtol s = (let '(v, r) := read_digits 0 s in (Z.max LONG_MIN (Z.min LONG_MAX v), r)).
Proof.
  intros H. destruct s as [|c s]; [done|].
  pose proof (digit_not_special c H) as (H1 & H2 & H3).
  unfold strtol. simpl skip_space. rewrite H1. cbv beta iota zeta.
  replace (match String c s with String "-" t' => (true, t') | String "+" t' => (false, t')
           | _ => (false, String c s) end) with (false, String c s).
  - by rewrite H.
  - destruct c as [[] [] [] [] [] [] [] []]; done.
Qed.

Lemma strtol_dec n rest : 0 <= n <= LONG_MAX -> starts_digit rest = false ->
  strtol (dec n +:+ rest) = (n, rest).
Proof.
  intros Hn Hr. rewrite strtol_digits by (apply dec_starts; lia).
  rewrite read_digits_dec by (lia || done).
  rewrite Z.min_r, Z.max_r; [done| |lia]. unfold LONG_MIN. lia.
Qed.

(** *** Number lists *)

Lemma str_drop_length n s : String.length (str_drop n s) = (String.length s - n)%nat.
Proof. revert s. induction n; intros [|c s]; simpl; auto with lia. Qed.

Lemma skip_to_length s r : (String.length (skip_to s r) <= String.length s)%nat.
Proof. unfold skip_to. rewrite str_drop_length. lia. Qed.

Lemma skip_space_length s : (String.length (skip_space s) <= String.length s)%nat.
Proof. induction s as [|c s IH]; simpl; [done|]. destruct (isspace c); simpl; lia. Qed.

Lemma read_digits_length a s : (String.length (read_digits a s).2 <= String.length s)%nat.
Proof.
  revert a. induction s as [|c s IH]; intros a; simpl; [done|].
  destruct (isdigit c); simpl; [|lia]. specialize (IH (a * 10 + digit_val c)). lia.
Qed.

Lemma strtol_length s : (String.length (strtol s).2 <= String.length s)%nat.
Proof.
  unfold strtol. pose proof (skip_space_length s) as Hs.
  set (t := skip_space s) in *.
  assert (Hb : forall neg t', (String.length t' <= String.length t)%nat ->
    (String.length (if starts_digit t' then
       let '(v, r) := read_digits 0 t' in
       (Z.max LONG_MIN (Z.min LONG_MAX (if neg : bool then - v else v)), r)
     else (0%Z, s)).2 <= String.length s)%nat).
  { intros neg t' Ht. destruct (starts_digit t'); [|simpl; lia].
    pose proof (read_digits_length 0 t') as Hr. destruct (read_digits 0 t'). simpl in *. lia. }
  destruct t as [|c t']; [exact (Hb false EmptyString ltac:(done))|].
  pose proof (Hb true t') as B1. pose proof (Hb false t') as B2.
  pose proof (Hb false (String c t') ltac:(done)) as B3. simpl in B1, B2.
  destruct c as [[] [] [] [] [] [] [] []]; first [exact B3 | apply B1; lia | apply B2; lia].
Qed.

Lemma numlist_item_length s : s <> EmptyString ->
  (String.length (numlist_item s).2 < String.length s)%nat.
Proof.
  intros Hs. assert (0 < String.length s)%nat by (destruct s; simpl; [done|lia]).
  unfold numlist_item. pose proof (strtol_length s) as H1.
  destruct (strtol s) as [v r]. simpl in H1.
  pose proof (skip_to_length r DIGITS_COMMA_DASH) as H2.
  set (r1 := skip_to r DIGITS_COMMA_DASH) in *.
  destruct (Ascii.eqb (hd_char r1) "-").
  - pose proof (skip_to_length (str_drop 1 r1) DIGITS_COMMA) as H3.
    rewrite str_drop_length in H3. set (r2 := skip_to _ DIGITS_COMMA) in *.
    destruct (starts_digit r2).
    + pose proof (strtol_length r2) as H4. destruct (strtol r2) as [v2 r3]. simpl in H4.
      pose proof (skip_to_length r3 DIGITS_COMMA_DASH) as H5.
      cbn [snd]. rewrite str_drop_length.
      pose proof (skip_to_length (skip_to r3 DIGITS_COMMA_DASH) ","). lia.
    + cbn [snd]. rewrite str_drop_length. pose proof (skip_to_length r2 ","). lia.
  - cbn [snd]. rewrite str_drop_length. pose proof (skip_to_length r1 ","). lia.
Qed.

(** The items a list denotes, as bounds read from the text. *)
Fixpoint numlist_items (fuel : nat) (s : string) : list (Z * Z) :=
  match fuel, s with
  | S fuel', String _ _ =>
      let '(n1, n2, rest) := numlist_item s in (n1, n2) :: numlist_items fuel' rest
  | _, _ => []
  end.

(** Number [i] is denoted by an item, inside [min..max] and the flag array. *)
Definition in_items (items : list (Z * Z)) (min max i : Z) : Prop :=
  exists a b, (a, b) ∈ items /\ Z.max a min <= i <= Z.min (Z.min b max) 65536.

Lemma elem_of_mark_range f a b i : i ∈ mark_range f a b <-> i ∈ f \/ a <= i <= b.
Proof.
  unfold mark_range. rewrite elem_of_union, elem_of_list_to_set, elem_of_seqZ.
  split; (intros [?|?]; [by left|right; lia]).
Qed.

Lemma numlist_loop_spec fuel s min max imin imax flags :
  (String.length s <= fuel)%nat ->
  (forall i, i ∈ flags -> imin <= i <= imax) ->
  exists flags' imin' imax',
    numlist_loop fuel s min max imin imax flags = Some (flags', imin', imax') /\
    (forall i, i ∈ flags' <-> i ∈ flags \/ in_items (numlist_items fuel s) min max i) /\
    (forall i, i ∈ flags' -> imin' <= i <= imax').
Proof.
  revert s imin imax flags. induction fuel as [|fuel IH]; intros [|c s] imin imax flags Hl Hf.
  1,3: exists flags, imin, imax; split_and!; [done| |done];
    intros i; split; [by left|intros [H|(a & b & H & _)]; [done|by apply elem_of_nil in H]].
  1: simpl in Hl; lia.
  cbn [numlist_loop numlist_items].
  pose proof (numlist_item_length (String c s) ltac:(done)) as Hlen.
  destruct (numlist_item (String c s)) as [[n1 n2] rest]. cbn [snd] in Hlen.
  edestruct (IH rest) as (f' & i1 & i2 & E & Hin & Hb); [lia| |].
  2: { exists f', i1, i2. split_and!; [exact E| |exact Hb].
    intros i. rewrite Hin, elem_of_mark_range. unfold in_items.
    split.
    - intros [[?|H]|(a & b & H & ?)]; [by left| |].
      + right. exists n1, n2. split; [by constructor|].
        repeat case_match; lia.
      + right. exists a, b. split; [by constructor|done].
    - intros [?|(a & b & H & Hr)]; [by left; left|].
      apply elem_of_cons in H as [[= -> ->]|H].
      + left; right. repeat case_match; lia.
      + right. by exists a, b. }
  intros i. rewrite elem_of_mark_range.
  intros [H%Hf|H]; repeat case_match; lia.
Qed.

Section CallbackLemmas.
Context {S : Type} (callback : S -> Z -> Z * S).

(** Calls in order, up to the first negative result. *)
Fixpoint run_calls (calls : list Z) (st : S) (retval numcount : Z) : Z * Z * S :=
  match calls with
  | [] => (retval, numcount, st)
  | i :: calls' =>
      let '(res, st') := callback st i in
      if res <? 0 then (retval, numcount + 1, st')
      else run_calls calls' st' (retval + res) (numcount + 1)
  end.

Lemma numlist_calls_run idxs flags st r n :
  numlist_calls callback idxs flags st r n =
    run_calls (filter (fun i => i ∈ flags) idxs) st r n.
Proof.
  revert st r n. induction idxs as [|i idxs IH]; intros st r n; [done|].
  simpl. rewrite filter_cons. destruct (decide (i ∈ flags)); [|done]. simpl.
  destruct (callback st i) as [res st']. by destruct (res <? 0).
Qed.
End CallbackLemmas.

Lemma seqZ_sorted a n : StronglySorted Z.lt (seqZ a n).
Proof.
  destruct (Z.le_gt_cases 0 n) as [Hn|Hn]; [|rewrite seqZ_nil by lia; constructor].
  revert a. pattern n. apply natlike_ind; [| |done].
  - intros a. constructor.
  - intros k Hk IH a. rewrite seqZ_cons by lia. constructor.
    + replace (Z.pred (Z.succ k)) with k by lia. apply IH.
    + apply Forall_forall. intros x Hx. apply elem_of_seqZ in Hx. lia.
Qed.

Lemma StronglySorted_filter {A} (R : A -> A -> Prop) (P : A -> Prop)
    `{forall x, Decision (P x)} l : StronglySorted R l -> StronglySorted R (filter P l).
Proof.
  induction 1 as [|x l Hs IH Hx]; [constructor|]. rewrite filter_cons.
  case_decide; [|done]. constructor; [done|]. apply Forall_forall. intros y Hy.
  apply list_elem_of_filter in Hy as [_ Hy]. rewrite Forall_forall in Hx. auto.
Qed.

(** *** Time strings *)

Inductive time_unit := Us | Um | Uh | Ud.
Definition unit_char (u : time_unit) : ascii :=
  match u with Us => "s" | Um => "m" | Uh => "h" | Ud => "d" end%char.
Definition unit_secs (u : time_unit) : Z :=
  match u with Us => 1 | Um => 60 | Uh => 3600 | Ud => 86400 end.

Fixpoint render_time (l : list (Z * time_unit)) : string :=
  match l with
  | [] => EmptyString
  | (n, u) :: l' => (dec n +:+ String (unit_char u) (render_time l'))%string
  end.

Fixpoint total_secs (l : list (Z * time_unit)) : Z :=
  match l with [] => 0 | (n, u) :: l' => n * unit_secs u + total_secs l' end.

Lemma int_ok_Some z : INT_MIN <= z <= INT_MAX -> int_ok z = Some z.
Proof.
  intros H. unfold int_ok. destruct (Z.leb_spec INT_MIN z), (Z.leb_spec z INT_MAX); simpl; lia || done.
Qed.

Lemma total_secs_nonneg l : Forall (fun p => 0 <= p.1) l -> 0 <= total_secs l.
Proof.
  induction 1 as [|[n u] l Hn Hl IH]; simpl in *; [done|]. destruct u; simpl; lia.
Qed.

Lemma dotime_loop_render l fuel :
  Forall (fun p => 0 <= p.1) l -> total_secs l <= INT_MAX -> (length l < fuel)%nat ->
  dotime_loop fuel (render_time l) = Some (total_secs l).
Proof.
  intros Hl. revert fuel. induction Hl as [|[n u] l Hn Hl IH]; intros [|fuel] Ht Hf; [lia|done| |].
  { simpl in Hf. lia. }
  pose proof (total_secs_nonneg _ Hl) as H0. simpl in Hn, Ht, Hf.
  assert (INT_MAX = 2147483647) as HI by done.
  assert (0 <= n <= INT_MAX) as Hni by (destruct u; simpl in Ht; lia).
  cbn [dotime_loop render_time].
  rewrite strtol_dec by (first [by destruct u | unfold LONG_MAX; lia]).
  rewrite IH by (try lia; destruct u; simpl in Ht; lia).
  rewrite wrap32_id by (unfold INT_MIN; lia).
  simpl. destruct (Z.ltb_spec (total_secs l) 0); [lia|].
  destruct u; simpl in Ht |- *; rewrite ?int_ok_Some by (unfold INT_MIN; lia);
    simpl; rewrite ?int_ok_Some by (unfold INT_MIN; lia); f_equal; lia.
Qed.

Lemma render_time_length l : (length l <= String.length (render_time l))%nat.
Proof.
  induction l as [|[n u] l IH]; [done|]. simpl.
  enough (forall s c t, (S (String.length t) <= String.length (s +:+ String c t))%nat) as H.
  { specialize (H (dec n) (unit_char u) (render_time l)). lia. }
  induction s as [|x s IHs]; intros c t; [done|].
  specialize (IHs c t). change (String.length (String x s +:+ String c t))
    with (S (String.length (s +:+ String c t))). lia.
Qed.

(** More fuel than characters never changes the answer. *)
Lemma dotime_loop_fuel n m s :
  (String.length s < n)%nat -> (String.length s < m)%nat -> dotime_loop n s = dotime_loop m s.
Proof.
  revert m s. induction n as [|n IH]; intros [|m] s Hn Hm; try lia.
  cbn [dotime_loop]. pose proof (strtol_length s) as Hl.
  destruct (strtol s) as [v [|c r]]; [done|]. simpl in Hl.
  by rewrite (IH m r) by lia.
Qed.

(** *** Durations *)

Lemma while_sub_div fuel k t n :
  0 < k -> (Z.to_nat (t / k) <= fuel)%nat ->
  while_sub fuel k t n = if t <? 0 then (t, n) else (t mod k, n + t / k).
Proof.
  intros Hk. revert t n. induction fuel as [|fuel IH]; intros t n Hf; simpl.
  - destruct (Z.ltb_spec t 0); [done|].
    assert (0 <= t / k) by (apply Z.div_pos; lia).
    assert (t / k = 0) as E by lia. rewrite E.
    pose proof (Z.div_mod t k ltac:(lia)). f_equal; lia.
  - destruct (Z.leb_spec k t) as [H|H].
    + rewrite IH.
      * destruct (Z.ltb_spec (t - k) 0), (Z.ltb_spec t 0); try lia.
        replace (t - k) with (t + (-1) * k) by lia.
        rewrite Z.mod_add, Z.div_add by lia. f_equal. lia.
      * replace (t - k) with (t + (-1) * k) by lia. rewrite Z.div_add by lia.
        assert (0 < t / k) by (apply Z.div_str_pos; lia). lia.
    + destruct (Z.ltb_spec t 0); [done|]. rewrite Z.mod_small, Z.div_small by lia.
      f_equal. lia.
Qed.

Lemma sub_loop_div k t : 0 < k -> 0 <= t -> sub_loop k t = (t mod k, t / k).
Proof.
  intros Hk Ht. unfold sub_loop. rewrite while_sub_div by done.
  by destruct (Z.ltb_spec t 0); [lia|].
Qed.

(** Replace one subtraction loop by quotient and remainder, as variables. *)
Ltac peel :=
  match goal with |- context [sub_loop ?k ?t] =>
    let Hm := fresh in let He := fresh in
    rewrite (sub_loop_div k t) by lia;
    pose proof (Z.mod_pos_bound t k ltac:(lia)) as Hm;
    pose proof (Z.div_mod t k ltac:(lia)) as He;
    cbv beta iota zeta;
    generalize dependent (t mod k); generalize dependent (t / k); intros
  end.

Lemma disect_spec t : 0 <= t ->
  let d := disect t in
  t = years d * 31536000 + months d * 2592000 + weeks d * 604800 + days d * 86400
      + hours d * 3600 + minutes d * 60 + seconds d /\
  0 <= years d /\ 0 <= months d <= 12 /\ 0 <= weeks d <= 4 /\ 0 <= days d <= 6 /\
  0 <= hours d <= 23 /\ 0 <= minutes d <= 59 /\ 0 <= seconds d <= 59.
Proof.
  intros Ht. unfold disect. do 6 peel. simpl. lia.
Qed.

Lemma dec_loop_length fuel n acc k :
  0 <= n < 10 ^ k -> 1 <= k ->
  Z.of_nat (String.length (dec_loop fuel n acc)) <= k + Z.of_nat (String.length acc).
Proof.
  revert n acc k. induction fuel as [|fuel IH]; intros n acc k Hn Hk; cbn [dec_loop].
  - simpl. lia.
  - destruct (Z.eqb_spec (n / 10) 0) as [E|E]; [simpl; lia|].
    assert (n >= 10) as H10.
    { destruct (Z.lt_ge_cases n 10); [|lia]. rewrite Z.div_small in E; lia. }
    destruct (Z.eq_dec k 1) as [->|]; [lia|].
    specialize (IH (n / 10) (String (chr (48 + n mod 10)) acc) (k - 1)).
    simpl in IH. ospecialize (IH _ _); [|lia|lia].
    split; [apply Z.div_pos; lia|]. apply Z.div_lt_upper_bound; [lia|].
    rewrite <- Z.pow_succ_r by lia. replace (Z.succ (k - 1)) with k by lia. lia.
Qed.

Lemma dec_length n k : 0 <= n < 10 ^ k -> 1 <= k -> Z.of_nat (String.length (dec n)) <= k.
Proof. intros. pose proof (dec_loop_length (Z.to_nat (Z.log2 n)) n "" k). simpl in *. unfold dec. lia. Qed.

Lemma length_append s t : String.length (s +:+ t) = (String.length s + String.length t)%nat.
Proof. induction s as [|c s IH]; [done|]. exact (f_equal S IH). Qed.

Lemma plural_length n noun k : 0 <= n < 10 ^ k -> 1 <= k ->
  Z.of_nat (String.length (plural n noun)) <= k + Z.of_nat (String.length noun) + 2.
Proof.
  intros Hn Hk. pose proof (dec_length n k Hn Hk). unfold plural, show_int.
  destruct (Z.ltb_spec n 0); [lia|]. rewrite length_append.
  change (String " " noun +:+ ?t)%string with (String " " (noun +:+ t)).
  simpl. rewrite length_append. destruct (n =? 1); simpl; lia.
Qed.

Lemma show02_length n : 0 <= n < 100 -> Z.of_nat (String.length (show02 n)) <= 2.
Proof.
  intros Hn. unfold show02. destruct (Z.ltb_spec n 10).
  - pose proof (dec_length n 1 ltac:(lia) ltac:(lia)). simpl. lia.
  - apply dec_length; lia.
Qed.

Lemma length_String c s : String.length (String c s) = S (String.length s).
Proof. done. Qed.

Lemma disect_text_length t : 0 <= t < 31536000 * 100000 ->
  (String.length (disect_text (disect t)) <= 63)%nat.
Proof.
  intros Ht. destruct (disect_spec t ltac:(lia)) as (E & Hy & Hmo & Hw & Hd & Hh & Hm & Hs).
  set (d := disect t) in *.
  pose proof (plural_length (years d) "year" 5 ltac:(lia) ltac:(lia)) as Ly.
  pose proof (plural_length (months d) "month" 2 ltac:(lia) ltac:(lia)) as Lmo.
  pose proof (plural_length (weeks d) "week" 1 ltac:(lia) ltac:(lia)) as Lw.
  pose proof (plural_length (days d) "day" 1 ltac:(lia) ltac:(lia)) as Ld.
  pose proof (plural_length (hours d) "hour" 2 ltac:(lia) ltac:(lia)) as Lh.
  pose proof (plural_length (minutes d) "minute" 2 ltac:(lia) ltac:(lia)) as Lm.
  pose proof (plural_length (seconds d) "second" 2 ltac:(lia) ltac:(lia)) as Ls.
  assert (Lc : Z.of_nat (String.length (clock d)) <= 8).
  { unfold clock.
    pose proof (show02_length (hours d) ltac:(lia)).
    pose proof (show02_length (minutes d) ltac:(lia)).
    pose proof (show02_length (seconds d) ltac:(lia)).
    rewrite length_append, str_app_cons, length_String, length_append, length_String. lia. }
  simpl String.length in Ly, Lmo, Lw, Ld, Lh, Lm, Ls.
  unfold disect_text. repeat case_match; rewrite ?length_append; simpl (String.length ", "); lia.
Qed.

(** ** Properties *)

(** C37: [process_numlist] terminates on every text and calls the callback, in
    ascending order and once each, for exactly the numbers that some item of
    the list denotes within [min..max] and the 65536 limit of its flag array,
    until the first negative result; the result is the sum of the others. *)
Theorem process_numlist_correct {S : Type} (callback : S -> Z -> Z * S)
    (numstr : string) (min max : Z) (st : S) :
  exists calls,
    StronglySorted Z.lt calls /\
    (forall i, i ∈ calls <->
       in_items (numlist_items (String.length numstr) numstr) min max i) /\
    process_numlist callback numstr min max st = Some (run_calls callback calls st 0 0).
Proof.
  unfold process_numlist.
  destruct (numlist_loop_spec (String.length numstr) numstr min max 65536 0 ∅)
    as (flags & imin & imax & -> & Hin & Hb); [done|set_solver|].
  exists (filter (fun i => i ∈ flags) (seqZ imin (imax - imin + 1))). split_and!.
  - apply StronglySorted_filter, seqZ_sorted.
  - intros i. rewrite list_elem_of_filter, elem_of_seqZ, Hin. split.
    + intros [[H|H] _]; [set_solver|done].
    + intros H. split; [by right|]. specialize (Hb i ltac:(apply Hin; by right)). lia.
  - simpl. by rewrite numlist_calls_run.
Qed.

(** [dotime] reads back every time string: a sequence of amounts with their
    units denotes the sum of its parts in seconds, as long as that is an
    [int]. *)
Theorem dotime_render (l : list (Z * time_unit))
    (Hl : Forall (fun p => 0 <= p.1) l) (Hmax : total_secs l <= INT_MAX) :
  dotime (render_time l) = Some (total_secs l).
Proof.
  apply dotime_loop_render; [done|done|]. pose proof (render_time_length l). lia.
Qed.

Lemma dotime_render_witness :
  dotime (render_time [(1, Uh); (30, Um)]) = Some (total_secs [(1, Uh); (30, Um)]).
Proof. apply dotime_render; [repeat constructor; simpl; lia|vm_compute; discriminate]. Defined.

(** A duration is split into years, months, weeks, days, hours, minutes and
    seconds that add up to it, each within its range, and for any duration
    below 100000 years the text fits the 64-byte buffer without truncation. *)
Theorem disect_time_correct t (Ht : 0 <= t < 31536000 * 100000) :
  let d := disect t in
  t = years d * 31536000 + months d * 2592000 + weeks d * 604800 + days d * 86400
      + hours d * 3600 + minutes d * 60 + seconds d /\
  0 <= months d <= 12 /\ 0 <= weeks d <= 4 /\ 0 <= days d <= 6 /\
  0 <= hours d <= 23 /\ 0 <= minutes d <= 59 /\ 0 <= seconds d <= 59 /\
  disect_time t = disect_text d.
Proof.
  intros d. destruct (disect_spec t ltac:(lia)) as (E & _ & H).
  split; [exact E|]. destruct H as (? & ? & ? & ? & ? & ?). subst d. split_and!; try lia.
  apply str_take_all. by apply disect_text_length.
Qed.

Lemma disect_time_correct_witness : disect_time 31536000 = disect_text (disect 31536000).
Proof. apply (disect_time_correct 31536000). lia. Defined.

(** Texts that are not time strings but are accepted all the same. *)
Lemma dotime_lenient : dotime "" = Some 0 /\ dotime "ms" = Some 0 /\ dotime "1h30" = Some 3630.
Proof. done. Qed.
