(* ===== verification/DList.v ===== *)
(** Doubly linked lists on a heap.

    The first half is about the idiom that [timeout.c], [users.c],
    [channels.c], [servers.c] and [nickserv.c] repeat by hand for their
    intrusive [next]/[prev] lists: link a node in front of the head, unlink a
    node.  It is stated for every node type with the two pointers (class
    [Linked]) and proved to be [cons] and removal on the sequence of nodes,
    which is what lets the other files model those lists as Rocq lists.  The
    second half models [src/tools.c]. *)

From S2P Require Import Prelude.

(** An address; a C pointer is an [option loc], [None] being [NULL]. *)
Abbreviation loc := positive.

Class Linked (N : Type) := {
  lprev : N -> option loc;
  lnext : N -> option loc;
  with_prev : option loc -> N -> N;
  with_next : option loc -> N -> N;
  lprev_with_prev p n : lprev (with_prev p n) = p;
  lnext_with_prev p n : lnext (with_prev p n) = lnext n;
  lprev_with_next p n : lprev (with_next p n) = lprev n;
  lnext_with_next p n : lnext (with_next p n) = p;
}.

#[global] Arguments with_prev : simpl never.
#[global] Arguments with_next : simpl never.

Section Heap.
Context {N : Type} `{Linked N}.

(** [x->...]: [None] when [x] is not allocated. *)
Definition deref (h : gmap loc N) (x : loc) : option N := h !! x.
Definition assign (h : gmap loc N) (x : loc) (f : N -> N) : option (gmap loc N) :=
  n ← h !! x; Some (<[x := f n]> h).

(** [if (head) head->prev = m; head = m] after [m->next = head; m->prev = NULL]. *)
Definition link_head (h : gmap loc N) (head : option loc) (m : loc)
    : option (gmap loc N * option loc) :=
  h ← assign h m (fun n => with_prev None (with_next head n));
  h ← match head with Some x => assign h x (with_prev (Some m)) | None => Some h end;
  Some (h, Some m).

(** [if (m->next) m->next->prev = m->prev;
     if (m->prev) m->prev->next = m->next; else head = m->next;] *)
Definition unlink_node (h : gmap loc N) (head : option loc) (m : loc)
    : option (gmap loc N * option loc) :=
  n ← deref h m;
  h ← match lnext n with Some x => assign h x (with_prev (lprev n)) | None => Some h end;
  match lprev n with
  | Some y => h ← assign h y (with_next (lnext n)); Some (h, head)
  | None => Some (h, lnext n)
  end.

(** [seg h pp p xs last q]: from [p], the nodes [xs] in order; the first has
    [prev = pp], the last node is [last] and its [next] is [q]. *)
Fixpoint seg (h : gmap loc N) (pp p : option loc) (xs : list loc) (last q : option loc)
    : Prop :=
  match xs with
  | [] => p = q /\ last = pp
  | x :: xs' => p = Some x /\
      exists n, h !! x = Some n /\ lprev n = pp /\ seg h (Some x) (lnext n) xs' last q
  end.

(** A whole list. *)
Definition chain (h : gmap loc N) (head : option loc) (xs : list loc) : Prop :=
  exists last, seg h None head xs last None.

Lemma assign_Some h x f n : h !! x = Some n -> assign h x f = Some (<[x := f n]> h).
Proof. unfold assign. by intros ->. Qed.

Lemma seg_app h pp p xs ys last q :
  seg h pp p (xs ++ ys) last q <->
  exists mp mid, seg h pp p xs mp mid /\ seg h mp mid ys last q.
Proof.
  revert pp p. induction xs as [|x xs IH]; intros pp p; simpl.
  - split; [intros Hs; by exists pp, p|]. by intros (mp & mid & [-> ->] & Hs).
  - split.
    + intros (-> & n & Hx & Hp & Hs). apply IH in Hs as (mp & mid & Hs1 & Hs2).
      exists mp, mid. split; [|done]. split; [done|]. by exists n.
    + intros (mp & mid & (-> & n & Hx & Hp & Hs1) & Hs2). split; [done|].
      exists n. split_and!; [done|done|]. apply IH. by exists mp, mid.
Qed.

Lemma seg_cons h pp x n xs last q :
  h !! x = Some n -> lprev n = pp -> seg h (Some x) (lnext n) xs last q ->
  seg h pp (Some x) (x :: xs) last q.
Proof. intros. split; [done|]. by exists n. Qed.

Lemma seg_frame h h' pp p xs last q :
  (forall x, x ∈ xs -> h' !! x = h !! x) ->
  seg h pp p xs last q -> seg h' pp p xs last q.
Proof.
  revert pp p. induction xs as [|x xs IH]; intros pp p Hf; simpl; [done|].
  intros (-> & n & Hx & Hp & Hs). split; [done|]. exists n.
  rewrite Hf by constructor. split_and!; [done|done|]. apply IH; [|done].
  intros y Hy. apply Hf. by constructor.
Qed.

(** Only the links matter. *)
Lemma seg_ext h h' pp p xs last q :
  (forall x n, x ∈ xs -> h !! x = Some n ->
     exists n', h' !! x = Some n' /\ lprev n' = lprev n /\ lnext n' = lnext n) ->
  seg h pp p xs last q -> seg h' pp p xs last q.
Proof.
  revert pp p. induction xs as [|x xs IH]; intros pp p Hf; simpl; [done|].
  intros (-> & n & Hx & Hp & Hs). split; [done|].
  destruct (Hf x n) as (n' & Hn' & Hp' & Hq'); [constructor|done|].
  exists n'. rewrite Hp', Hq'. split_and!; [done|done|]. apply IH; [|done].
  intros y m Hy. apply Hf. by constructor.
Qed.

(** Redirect the [prev] of the first node. *)
Lemma seg_reprev h pp p x xs last q pp' :
  x ∉ xs -> seg h pp p (x :: xs) last q ->
  exists h', assign h x (with_prev pp') = Some h' /\ seg h' pp' p (x :: xs) last q /\
    forall y, y <> x -> h' !! y = h !! y.
Proof.
  intros Hx (-> & n & Hn & Hp & Hs). unfold assign. rewrite Hn. simpl.
  eexists. split; [done|]. split.
  - simpl. split; [done|]. exists (with_prev pp' n). rewrite lookup_insert_eq.
    split_and!; [done|apply lprev_with_prev|]. rewrite lnext_with_prev.
    eapply seg_frame; [|exact Hs]. intros y Hy. apply lookup_insert_ne. by intros ->.
  - intros y Hy. by apply lookup_insert_ne.
Qed.

(** Redirect the [next] of the last node. *)
Lemma seg_renext h pp p xs x last q q' :
  x ∉ xs -> seg h pp p (xs ++ [x]) last q ->
  exists h', assign h x (with_next q') = Some h' /\ seg h' pp p (xs ++ [x]) last q' /\
    last = Some x /\ forall y, y <> x -> h' !! y = h !! y.
Proof.
  intros Hx (mp & mid & Hs & -> & n & Hn & Hp & Hq & ->)%seg_app.
  unfold assign. rewrite Hn. simpl.
  eexists. split; [done|]. split_and!; [|done|intros y Hy; by apply lookup_insert_ne].
  apply seg_app. exists mp, (Some x). split.
  - eapply seg_frame; [|exact Hs]. intros y Hy. apply lookup_insert_ne. by intros ->.
  - simpl. split; [done|]. exists (with_next q' n). rewrite lookup_insert_eq.
    by rewrite lprev_with_next, lnext_with_next.
Qed.

Lemma link_head_chain h head xs m n :
  chain h head xs -> NoDup xs -> m ∉ xs -> h !! m = Some n ->
  exists h', link_head h head m = Some (h', Some m) /\ chain h' (Some m) (m :: xs) /\
    forall y, y <> m -> y ∉ xs -> h' !! y = h !! y.
Proof.
  intros [last Hs] Hnd Hm Hn. unfold link_head. rewrite (assign_Some _ _ _ _ Hn). simpl.
  set (n' := with_prev None (with_next head n)). set (h1 := <[m := n']> h).
  assert (Hs1 : seg h1 None head xs last None).
  { eapply seg_frame; [|exact Hs]. intros y Hy. apply lookup_insert_ne. by intros ->. }
  assert (Hn' : lprev n' = None /\ lnext n' = head).
  { unfold n'. by rewrite lprev_with_prev, lnext_with_prev, lnext_with_next. }
  destruct Hn' as [Hp Hq]. destruct xs as [|x xs].
  - destruct Hs1 as [-> ->]. simpl. exists h1. split_and!; [done| |].
    + exists (Some m). simpl. split; [done|]. exists n'. unfold h1.
      by rewrite lookup_insert_eq, Hp, Hq.
    + intros y Hy _. by apply lookup_insert_ne.
  - pose proof Hs1 as [-> _]. apply NoDup_cons in Hnd as [Hx Hnd].
    destruct (seg_reprev _ _ _ _ _ _ _ (Some m) Hx Hs1) as (h2 & E & Hs2 & Hf).
    rewrite E. simpl. exists h2. split_and!; [done| |].
    + exists last. split; [done|]. exists n'.
      rewrite Hf by (intros ->; apply Hm; constructor).
      unfold h1. rewrite lookup_insert_eq, Hp, Hq. done.
    + intros y Hy Hyx. rewrite Hf by (intros ->; apply Hyx; constructor).
      by apply lookup_insert_ne.
Qed.

Lemma seg_lookup h pp p xs last q x : seg h pp p xs last q -> x ∈ xs -> is_Some (h !! x).
Proof.
  revert pp p. induction xs as [|y xs IH]; intros pp p Hs Hx; [by apply elem_of_nil in Hx|].
  destruct Hs as (-> & n & Hn & _ & Hs).
  apply elem_of_cons in Hx as [->|Hx]; eauto.
Qed.

(** First half of an unlink: the successors of [m] get its predecessor. *)
Lemma relink_right h m l2 last nx pv :
  seg h (Some m) nx l2 last None -> NoDup l2 ->
  exists h1, (match nx with Some x => assign h x (with_prev pv) | None => Some h end)
               = Some h1 /\
    seg h1 pv nx l2 (match l2 with [] => pv | _ => last end) None /\
    forall y, y ∉ l2 -> h1 !! y = h !! y.
Proof.
  intros Hs Hnd. destruct l2 as [|x l2].
  - destruct Hs as [-> _]. by exists h.
  - pose proof Hs as [E _]. rewrite E in Hs |- *. apply NoDup_cons in Hnd as [Hx _].
    destruct (seg_reprev _ _ _ _ _ _ _ pv Hx Hs) as (h1 & E1 & Hs1 & Hf).
    exists h1. split_and!; [done|done|]. intros y Hy. apply Hf. intros ->.
    apply Hy. constructor.
Qed.

(** Second half: the predecessors of [m] get its successor. *)
Lemma relink_left h head l1 m mp nx :
  seg h None head l1 mp (Some m) -> NoDup l1 ->
  exists h2 head', (match mp with
                    | Some y => h' ← assign h y (with_next nx); Some (h', head)
                    | None => Some (h, nx) end) = Some (h2, head') /\
    seg h2 None head' l1 mp nx /\
    (head' = match l1 with [] => nx | _ => head end) /\
    forall y, y ∉ l1 -> h2 !! y = h !! y.
Proof.
  intros Hs Hnd. destruct (decide (l1 = [])) as [->|Hne].
  - destruct Hs as [-> ->]. exists h, nx. by split_and!.
  - destruct (exists_last Hne) as (l0 & y & ->).
    apply NoDup_app in Hnd as (_ & Hd & _).
    assert (Hy : y ∉ l0) by (intros Hy; apply (Hd y Hy); constructor).
    destruct (seg_renext _ _ _ _ _ _ _ nx Hy Hs) as (h2 & E & Hs2 & -> & Hf).
    exists h2, head. rewrite E. split_and!; [done|done|by destruct l0|].
    intros z Hz. apply Hf. intros ->. apply Hz, elem_of_app. right. constructor.
Qed.

Lemma NoDup_middle (l1 l2 : list loc) m :
  NoDup (l1 ++ m :: l2) ->
  NoDup l1 /\ NoDup l2 /\ (m ∉ l1) /\ (m ∉ l2) /\ forall x, x ∈ l1 -> x ∉ l2.
Proof.
  intros (H1 & Hd & H2)%NoDup_app. apply NoDup_cons in H2 as [Hm H2].
  split_and!; [done|done| |done|].
  - intros Hx. apply (Hd m Hx). constructor.
  - intros x Hx Hx2. apply (Hd x Hx). by constructor.
Qed.

Lemma unlink_node_chain h head l1 m l2 :
  chain h head (l1 ++ m :: l2) -> NoDup (l1 ++ m :: l2) ->
  exists h' head', unlink_node h head m = Some (h', head') /\ chain h' head' (l1 ++ l2) /\
    forall y, y ∉ l1 ++ l2 -> h' !! y = h !! y.
Proof.
  intros [last Hs] (Hn1 & Hn2 & Hm1 & Hm2 & Hd)%NoDup_middle.
  apply seg_app in Hs as (mp & mid & Hs1 & -> & n & Hn & Hp & Hs2).
  unfold unlink_node, deref. rewrite Hn. simpl. rewrite Hp.
  destruct (relink_right _ _ _ _ _ mp Hs2 Hn2) as (h1 & -> & Hs2' & Hf1). simpl.
  assert (Hs1' : seg h1 None head l1 mp (Some m)).
  { eapply seg_frame; [|exact Hs1]. intros y Hy. auto. }
  destruct (relink_left _ _ _ _ _ (lnext n) Hs1' Hn1) as (h2 & head' & -> & Hs & _ & Hf2).
  exists h2, head'. split_and!; [done| |].
  - eexists. apply seg_app. exists mp, (lnext n). split; [done|].
    eapply seg_frame; [|exact Hs2']. intros y Hy. apply Hf2. intros Hy1. by apply (Hd y).
  - intros y [Hy1 Hy2]%not_elem_of_app. by rewrite Hf2, Hf1.
Qed.

(** Relinking touches nothing but the links. *)
Definition unlinked {B} (body : N -> B) : Prop :=
  forall p n, body (with_prev p n) = body n /\ body (with_next p n) = body n.

Lemma assign_body {B} (body : N -> B) h x f h' :
  (forall n, body (f n) = body n) -> assign h x f = Some h' -> body <$> h' = body <$> h.
Proof.
  intros Hf. unfold assign. destruct (h !! x) as [n|] eqn:Hx; [|done]. intros [= <-].
  rewrite fmap_insert, Hf. apply insert_id. by rewrite lookup_fmap, Hx.
Qed.

Lemma link_head_body {B} (body : N -> B) h hd x h' hd' :
  unlinked body -> link_head h hd x = Some (h', hd') -> body <$> h' = body <$> h.
Proof.
  intros Hb. unfold link_head. destruct (assign h x _) as [h1|] eqn:E1; [|done]. simpl.
  apply (assign_body body) in E1; [|intros n; by rewrite (proj1 (Hb _ _)), (proj2 (Hb _ _))].
  destruct hd as [y|]; [|by intros [= <- <-]].
  destruct (assign h1 y _) as [h2|] eqn:E2; [|done]. simpl. intros [= <- <-].
  apply (assign_body body) in E2; [congruence|]. intros n. apply Hb.
Qed.

Lemma unlink_node_body {B} (body : N -> B) h hd x h' hd' :
  unlinked body -> unlink_node h hd x = Some (h', hd') -> body <$> h' = body <$> h.
Proof.
  intros Hb. unfold unlink_node. destruct (deref h x) as [n|]; [|done]. simpl.
  destruct (match lnext n with Some _ => _ | None => _ end) as [h1|] eqn:E1; [|done]. simpl.
  assert (H1 : body <$> h1 = body <$> h).
  { destruct (lnext n) as [y|]; [|by injection E1 as <-].
    apply (assign_body body) in E1; [done|]. intros m. apply Hb. }
  destruct (lprev n) as [y|]; [|by intros [= <- <-]].
  destruct (assign h1 y _) as [h2|] eqn:E2; [|done]. simpl. intros [= <- <-].
  apply (assign_body body) in E2; [congruence|]. intros m. apply Hb.
Qed.

(** A chain is determined by its heap and head. *)
Lemma seg_functional h pp pp' p xs ys last last' :
  seg h pp p xs last None -> seg h pp' p ys last' None -> xs = ys.
Proof.
  revert pp pp' p ys. induction xs as [|x xs IH]; intros pp pp' p ys.
  - intros [-> ->]. destruct ys as [|y ys]; [done|]. by intros [? _].
  - intros (-> & n & Hn & _ & Hs). destruct ys as [|y ys]; [by intros [? _]|].
    intros ([= <-] & n' & Hn' & _ & Hs'). rewrite Hn in Hn'. injection Hn' as <-.
    f_equal. eauto.
Qed.
End Heap.

(** ** tools.c *)

Record dlink_node := DNode { data : Z; prev : option loc; next : option loc }.

#[global, program] Instance dlink_node_linked : Linked dlink_node := {
  lprev := prev;
  lnext := next;
  with_prev p n := DNode (data n) p (next n);
  with_next p n := DNode (data n) (prev n) p;
}.
Solve All Obligations with done.

Definition with_data (d : Z) (n : dlink_node) : dlink_node := DNode d (prev n) (next n).

Record dlink_list := DList { head : option loc; tail : option loc; dlength : Z }.

Abbreviation dheap := (gmap loc dlink_node).

Definition ULONG (z : Z) : Z := z mod 2 ^ 64.

(** [m->prev] is not written. *)
Definition dlinkAdd (d : Z) (m : loc) (list : dlink_list) (h : dheap)
    : option (dheap * dlink_list) :=
  h ← assign h m (fun n => with_next (head list) (with_data d n));
  match head list with
  | Some x =>
      h ← assign h x (with_prev (Some m));
      Some (h, DList (Some m) (tail list) (ULONG (dlength list + 1)))
  | None =>
      let tail' := match tail list with None => Some m | t => t end in
      Some (h, DList (Some m) tail' (ULONG (dlength list + 1)))
  end.

Definition dlinkAddBefore (b : loc) (d : Z) (m : loc) (list : dlink_list) (h : dheap)
    : option (dheap * dlink_list) :=
  if decide (head list = Some b) then dlinkAdd d m list h
  else
    h ← assign h m (with_data d);
    nb ← deref h b;
    bp ← prev nb;
    h ← assign h bp (with_next (Some m));
    h ← assign h m (with_prev (Some bp));
    h ← assign h b (with_prev (Some m));
    h ← assign h m (with_next (Some b));
    Some (h, DList (head list) (tail list) (ULONG (dlength list + 1))).

Definition dlinkAddTail (d : Z) (m : loc) (list : dlink_list) (h : dheap)
    : option (dheap * dlink_list) :=
  h ← assign h m (fun n => with_prev (tail list) (with_next None (with_data d n)));
  match tail list with
  | Some t =>
      h ← assign h t (with_next (Some m));
      Some (h, DList (head list) (Some m) (ULONG (dlength list + 1)))
  | None =>
      let head' := match head list with None => Some m | hd => hd end in
      Some (h, DList head' (Some m) (ULONG (dlength list + 1)))
  end.

Definition dlinkDelete (m : loc) (list : dlink_list) (h : dheap)
    : option (dheap * dlink_list) :=
  n ← deref h m;
  '(h, tail') ← match next n with
                | Some x => h ← assign h x (with_prev (prev n)); Some (h, tail list)
                | None => Some (h, prev n)
                end;
  '(h, head') ← match prev n with
                | Some y => h ← assign h y (with_next (next n)); Some (h, head list)
                | None => Some (h, next n)
                end;
  h ← assign h m (fun n => with_next None (with_prev None n));
  Some (h, DList head' tail' (ULONG (dlength list - 1))).

(** [DLINK_FOREACH]: walk from [ptr]; [fuel] bounds the walk, [None] is a
    fault or a walk that does not end. *)
Fixpoint dlinkFind_loop (fuel : nat) (h : dheap) (ptr : option loc) (d : Z)
    : option (option loc) :=
  match ptr with
  | None => Some None
  | Some x =>
      match fuel with
      | O => None
      | S fuel' =>
          n ← deref h x;
          if data n =? d then Some (Some x) else dlinkFind_loop fuel' h (next n) d
      end
  end.

Definition dlinkFind (list : dlink_list) (d : Z) (h : dheap) : option (option loc) :=
  dlinkFind_loop (size h) h (head list) d.

(** Yields the two lists. *)
Definition dlinkMoveList (from to : dlink_list) (h : dheap)
    : option (dheap * dlink_list * dlink_list) :=
  match head from with
  | None => Some (h, from, to)
  | Some fh =>
      match head to with
      | None => Some (h, DList None None 0, DList (head from) (tail from) (dlength from))
      | Some th =>
          ft ← tail from;
          h ← assign h ft (with_next (Some th));
          nt ← deref h th;
          h ← assign h fh (with_prev (prev nt));
          h ← assign h th (with_prev (Some ft));
          Some (h, DList None None 0,
                DList (Some fh) (tail to) (ULONG (dlength to + dlength from)))
      end
  end.

Definition dlinkFindDelete (list : dlink_list) (d : Z) (h : dheap)
    : option (dheap * dlink_list * option loc) :=
  r ← dlinkFind_loop (size h) h (head list) d;
  match r with
  | None => Some (h, list, None)
  | Some m =>
      n ← deref h m;
      '(h, tail') ← match next n with
                    | Some x => h ← assign h x (with_prev (prev n)); Some (h, tail list)
                    | None => Some (h, prev n)
                    end;
      h ← assign h m (fun n => with_next None (with_prev None n));
      Some (h, DList (head list) tail' (ULONG (dlength list - 1)), Some m)
  end.

(** [L] holds the nodes [xs], in order, with their data. *)
Definition rep (h : dheap) (L : dlink_list) (xs : list (loc * Z)) : Prop :=
  seg h None (head L) xs.*1 (tail L) None /\ NoDup xs.*1 /\
  Forall (fun p => data <$> h !! p.1 = Some p.2) xs /\
  dlength L = ULONG (Z.of_nat (length xs)).

(** The links of a node other than [m] never change its data. *)
Lemma assign_data h x f h' y :
  assign h x f = Some h' -> (forall n, data (f n) = data n) ->
  data <$> h' !! y = data <$> h !! y.
Proof.
  unfold assign. destruct (h !! x) as [n|] eqn:E; [|done]. intros [= <-] Hf.
  destruct (decide (x = y)) as [->|]; [|by rewrite lookup_insert_ne].
  rewrite lookup_insert_eq, E. simpl. by rewrite Hf.
Qed.

Lemma assign_lookup_ne {N} `{Linked N} (h : gmap loc N) x f h' y : assign h x f = Some h' -> y <> x -> h' !! y = h !! y.
Proof.
  unfold assign. destruct (h !! x); [|done]. intros [= <-] Hy. by apply lookup_insert_ne.
Qed.

Lemma rep_data_mono (h h' : dheap) (xs : list (loc * Z)) :
  (forall y, y ∈ xs.*1 -> data <$> h' !! y = data <$> h !! y) ->
  Forall (fun p => data <$> h !! p.1 = Some p.2) xs ->
  Forall (fun p => data <$> h' !! p.1 = Some p.2) xs.
Proof.
  intros Hd. rewrite !Forall_forall. intros H p Hp. rewrite Hd; [by apply H|].
  apply list_elem_of_fmap. by exists p.
Qed.

Lemma ULONG_succ n m : m = S n -> ULONG (ULONG (Z.of_nat n) + 1) = ULONG (Z.of_nat m).
Proof. intros ->. unfold ULONG. rewrite Z.add_mod_idemp_l by lia. f_equal. lia. Qed.

Lemma ULONG_pred n m : n = S m -> ULONG (ULONG (Z.of_nat n) - 1) = ULONG (Z.of_nat m).
Proof. intros ->. unfold ULONG. rewrite Zminus_mod_idemp_l. f_equal. lia. Qed.

Lemma ULONG_add n m : ULONG (ULONG (Z.of_nat n) + ULONG (Z.of_nat m)) = ULONG (Z.of_nat (m + n)).
Proof. unfold ULONG. rewrite <- Z.add_mod by lia. f_equal. lia. Qed.

Lemma seg_last {N} `{Linked N} (h : gmap loc N) pp p xs last q :
  seg h pp p xs last q -> last = match list.last xs with Some x => Some x | None => pp end.
Proof.
  revert pp p. induction xs as [|x xs IH]; intros pp p; [by intros [_ ->]|].
  intros (-> & n & _ & _ & Hs). rewrite (IH _ _ Hs).
  rewrite last_cons. by destruct (list.last xs).
Qed.

Lemma seg_tail_None (h : dheap) p xs q : seg h None p xs None q -> xs = [].
Proof.
  intros Hs. apply seg_last in Hs. destruct (list.last xs) eqn:E; [done|].
  by apply last_None in E.
Qed.

Lemma fresh_fst (xs : list (loc * Z)) m y : m ∉ xs.*1 -> y ∈ xs.*1 -> y <> m.
Proof. intros Hm Hy ->. done. Qed.

Lemma data_insert_eq (h : dheap) m n : data <$> <[m := n]> h !! m = Some (data n).
Proof. by rewrite lookup_insert_eq. Qed.

Ltac rep_split := refine (conj _ (conj _ (conj _ _))).

Lemma dlinkAdd_rep h L xs d m n :
  rep h L xs -> m ∉ xs.*1 -> h !! m = Some n -> prev n = None ->
  exists h' L', dlinkAdd d m L h = Some (h', L') /\ rep h' L' ((m, d) :: xs).
Proof.
  intros (Hs & Hnd & Hd & Hl) Hm Hn Hp. unfold dlinkAdd.
  rewrite (assign_Some _ _ _ _ Hn). simpl.
  set (h1 := <[m := with_next (head L) (with_data d n)]> h : dheap).
  assert (Hf : forall y, y <> m -> h1 !! y = h !! y) by (intros; by apply lookup_insert_ne).
  assert (Hs1 : seg h1 None (head L) xs.*1 (tail L) None).
  { eapply seg_frame; [|exact Hs]. intros y Hy. apply Hf. by apply (fresh_fst xs). }
  destruct xs as [|[x dx] xs].
  - destruct Hs1 as [Eh ->]. rewrite Eh. eexists _, _. split; [done|]. rep_split.
    + eapply seg_cons; [apply lookup_insert_eq|exact Hp|]. split; [exact Eh|done].
    + apply NoDup_singleton.
    + constructor; [exact (data_insert_eq h m (with_next (head L) (with_data d n)))|constructor].
    + simpl. rewrite Hl. by apply ULONG_succ.
  - pose proof Hs1 as [E _]. rewrite E in Hs1 |- *.
    cbn [fmap list_fmap fst] in *. apply NoDup_cons in Hnd as [Hx Hnd].
    destruct (seg_reprev _ _ _ _ _ _ _ (Some m) Hx Hs1) as (h2 & E2 & Hs2 & Hf2).
    rewrite E2. simpl. eexists _, _. split; [done|]. rep_split.
    + apply (seg_cons _ _ _ (with_next (head L) (with_data d n))); [|exact Hp|].
      { etransitivity; [apply (Hf2 m); intros ->; apply Hm; constructor|apply lookup_insert_eq]. }
      change (seg h2 (Some m) (head L) (x :: xs.*1) (tail L) None). rewrite E. exact Hs2.
    + constructor; [done|]. by constructor.
    + assert (Hall : forall y, y ∈ x :: xs.*1 -> data <$> h2 !! y = data <$> h !! y).
      { intros y Hy. rewrite (assign_data _ _ _ _ y E2), Hf; [done| |done].
        intros ->. done. }
      constructor.
      * cbn [fst snd]. rewrite Hf2 by (intros ->; apply Hm; constructor).
        exact (data_insert_eq h m (with_next (head L) (with_data d n))).
      * by eapply rep_data_mono.
    + simpl. rewrite Hl. by apply ULONG_succ.
Qed.

Lemma dlinkAddTail_rep h L xs d m n :
  rep h L xs -> m ∉ xs.*1 -> h !! m = Some n ->
  exists h' L', dlinkAddTail d m L h = Some (h', L') /\ rep h' L' (xs ++ [(m, d)]).
Proof.
  intros (Hs & Hnd & Hd & Hl) Hm Hn. unfold dlinkAddTail.
  rewrite (assign_Some _ _ _ _ Hn). simpl. set (h1 := <[m := with_prev (tail L) (with_next None (with_data d n))]> h : dheap).
  assert (Hf : forall y, y <> m -> h1 !! y = h !! y) by (intros; by apply lookup_insert_ne).
  assert (Hs1 : seg h1 None (head L) xs.*1 (tail L) None).
  { eapply seg_frame; [|exact Hs]. intros y Hy. apply Hf. by apply (fresh_fst xs). }
  destruct (decide (xs = [])) as [->|Hne].
  - destruct Hs1 as [Eh Et]. rewrite Et, Eh. eexists _, _. split; [done|]. rep_split.
    + eapply seg_cons; [apply lookup_insert_eq|exact Et|]. done.
    + apply NoDup_singleton.
    + constructor; [exact (data_insert_eq h m (with_prev (tail L) (with_next None (with_data d n))))|constructor].
    + simpl. rewrite Hl. by apply ULONG_succ.
  - destruct (exists_last Hne) as (ys & [t dt] & ->). rewrite fmap_app in *. simpl in *.
    assert (Ht : t ∉ ys.*1).
    { apply NoDup_app in Hnd as (_ & Hdis & _). intros Ht. apply (Hdis t Ht). constructor. }
    destruct (seg_renext _ _ _ _ _ _ _ (Some m) Ht Hs1) as (h2 & E2 & Hs2 & Htl & Hf2).
    rewrite Htl, E2. simpl. eexists _, _. split; [done|].
    assert (Hmt : m <> t) by (intros ->; apply Hm, elem_of_app; right; constructor).
    rep_split.
    + rewrite !fmap_app. simpl. apply seg_app. exists (Some t), (Some m). split.
      * rewrite <- Htl. exact Hs2.
      * apply (seg_cons _ _ _ (with_prev (tail L) (with_next None (with_data d n))));
          [|exact Htl|done].
        etransitivity; [by apply Hf2|apply lookup_insert_eq].
    + rewrite fmap_app. apply NoDup_app. split_and!.
      * by rewrite fmap_app.
      * rewrite fmap_app. intros x Hx. simpl. rewrite list_elem_of_singleton. by intros ->.
      * apply NoDup_singleton.
    + apply Forall_app. split.
      * eapply rep_data_mono; [|exact Hd]. intros y Hy. rewrite fmap_app in Hy.
        rewrite (assign_data _ _ _ _ y E2), Hf; [done| |done]. intros ->. done.
      * constructor; [|constructor]. cbn [fst snd]. rewrite Hf2 by done.
        exact (data_insert_eq h m (with_prev (tail L) (with_next None (with_data d n)))).
    + simpl. rewrite Hl. apply ULONG_succ. rewrite !length_app. simpl. lia.
Qed.

Lemma dlinkDelete_rep h L xs1 m d xs2 :
  rep h L (xs1 ++ (m, d) :: xs2) ->
  exists h' L' n, dlinkDelete m L h = Some (h', L') /\ rep h' L' (xs1 ++ xs2) /\
    h' !! m = Some n /\ prev n = None /\ next n = None.
Proof.
  intros (Hs & Hnd & Hd & Hl). rewrite fmap_app in Hs, Hnd. cbn [fmap list_fmap fst] in Hs, Hnd.
  pose proof (NoDup_middle _ _ _ Hnd) as (Hn1 & Hn2 & Hm1 & Hm2 & Hdis).
  apply seg_app in Hs as (mp & mid & Hs1 & -> & n & Hn & Hp & Hs2).
  change (prev n = mp) in Hp. change (lnext n) with (next n) in Hs2.
  unfold dlinkDelete, deref. rewrite Hn. simpl. rewrite Hp.
  destruct (relink_right _ _ _ _ _ mp Hs2 Hn2) as (h1 & E1 & Hs2' & Hf1).
  assert (Hs1' : seg h1 None (head L) xs1.*1 mp (Some m)).
  { eapply seg_frame; [|exact Hs1]. intros y Hy. auto. }
  destruct (relink_left _ _ _ _ _ (next n) Hs1' Hn1) as (h2 & hd' & E2 & Hs1'' & _ & Hf2).
  set (tl' := match xs2.*1 with [] => mp | _ => tail L end) in *.
  replace (match next n with
    | Some x => h0 ← assign h x (with_prev mp); Some (h0, tail L)
    | None => Some (h, mp) end) with (Some (h1, tl')).
  2: { destruct (next n) as [x|].
       - rewrite E1. unfold tl'. destruct xs2; [|done]. by destruct Hs2 as [? _].
       - injection E1 as <-. unfold tl'. destruct xs2; [done|]. by destruct Hs2 as [? _]. }
  simpl. rewrite E2. simpl.
  assert (Hm : h2 !! m = Some n) by (rewrite Hf2, Hf1; done).
  rewrite (assign_Some _ _ _ _ Hm). simpl.
  set (n' := with_next None (with_prev None n)). set (h3 := <[m := n']> h2).
  assert (Hf3 : forall y, y <> m -> h3 !! y = h2 !! y) by (intros; by apply lookup_insert_ne).
  eexists h3, _, n'. split; [done|]. split; [|split_and!; [apply lookup_insert_eq|done|done]].
  assert (Hout : forall y, y ∈ (xs1 ++ xs2).*1 -> y <> m).
  { intros y Hy ->. rewrite fmap_app in Hy. by apply elem_of_app in Hy as [?|?]. }
  rep_split.
  - rewrite fmap_app. apply seg_app. exists mp, (next n). split.
    + eapply seg_frame; [|exact Hs1'']. intros y Hy. apply Hf3. by intros ->.
    + eapply seg_frame; [|exact Hs2']. intros y Hy.
      rewrite Hf3 by (by intros ->). apply Hf2. intros Hy1. by apply (Hdis y).
  - rewrite fmap_app. apply NoDup_app. split_and!; [done| |done]. intros y Hy. by apply Hdis.
  - assert (Hd' : Forall (fun p => data <$> h !! p.1 = Some p.2) (xs1 ++ xs2)).
    { apply Forall_app in Hd as [Hd1 Hd2]. inversion Hd2; subst. by apply Forall_app. }
    eapply rep_data_mono; [|exact Hd']. intros y Hy. rewrite Hf3 by auto.
    transitivity (data <$> h1 !! y).
    + destruct mp as [y'|]; [|by injection E2 as <-].
      destruct (assign h1 y' _) as [h2'|] eqn:E; [|done]. injection E2 as <- _.
      by rewrite (assign_data _ _ _ _ y E).
    + destruct (next n) as [x|]; [|by injection E1 as <-].
      by rewrite (assign_data _ _ _ _ y E1).
  - simpl. rewrite Hl. apply ULONG_pred. rewrite !length_app. simpl. lia.
Qed.

Lemma rep_nil h L : head L = None -> tail L = None -> dlength L = 0 -> rep h L [].
Proof. intros Hh Ht Hl. rep_split; [done|constructor|constructor|done]. Qed.

Lemma assign_prev_same (h : dheap) x n p :
  h !! x = Some n -> prev n = p -> assign h x (with_prev p) = Some h.
Proof.
  intros Hn <-. rewrite (assign_Some _ _ _ _ Hn). f_equal.
  replace (with_prev (prev n) n) with n by by destruct n. by apply insert_id.
Qed.

Lemma seg_snoc_cons {N} `{Linked N} (h : gmap loc N) p xs t last y ys last' :
  seg h None p (xs ++ [t]) last (Some y) -> seg h (Some t) (Some y) ys last' None ->
  seg h None p ((xs ++ [t]) ++ ys) last' None.
Proof.
  intros Hs Hs'. apply seg_app. exists (Some t), (Some y). split; [|done].
  pose proof (seg_last _ _ _ _ _ _ Hs) as E. rewrite list.last_snoc in E. by subst.
Qed.

Lemma dlinkMoveList_rep h Lf Lt xs ys :
  rep h Lf xs -> rep h Lt ys -> (forall x, x ∈ xs.*1 -> x ∉ ys.*1) ->
  exists h' Lf' Lt', dlinkMoveList Lf Lt h = Some (h', Lf', Lt') /\
    rep h' Lt' (xs ++ ys) /\ rep h' Lf' [].
Proof.
  intros (Hs & Hnd & Hd & Hl) (Hs' & Hnd' & Hd' & Hl') Hdis. unfold dlinkMoveList.
  destruct (decide (xs = [])) as [->|Hne].
  { destruct Hs as [E1 E2]. rewrite E1. exists h, Lf, Lt.
    split_and!; [done|by rep_split|by apply rep_nil]. }
  destruct (exists_last Hne) as (zs & [t dt] & ->).
  rewrite fmap_app in Hs, Hnd, Hdis. cbn [fmap list_fmap fst] in Hs, Hnd, Hdis.
  assert (exists x, head Lf = Some x) as [x Ex].
  { destruct zs as [|[z dz] zs]; destruct Hs as [E _]; eauto. }
  rewrite Ex. destruct ys as [|[y dy] ys].
  { destruct Hs' as [E1 E2]. rewrite E1. eexists _, _, _. split; [done|].
    split; [|by apply rep_nil]. rewrite app_nil_r, <- Ex. rep_split; rewrite ?fmap_app; done. }
  pose proof Hs' as [Ey _]. cbn [fst] in Ey. rewrite Ey.
  assert (Ht : t ∉ zs.*1).
  { apply NoDup_app in Hnd as (_ & Hz & _). intros Ht. apply (Hz t Ht). constructor. }
  assert (Htz : t ∈ zs.*1 ++ [t]) by (apply elem_of_app; right; constructor).
  destruct (seg_renext _ _ _ _ _ _ _ (Some y) Ht Hs) as (h1 & E1 & Hs1 & Htl & Hf1).
  rewrite Htl. simpl. rewrite E1. simpl.
  assert (Hs1' : seg h1 None (Some y) (y :: ys.*1) (tail Lt) None).
  { rewrite Ey in Hs'. eapply seg_frame; [|exact Hs']. intros z Hz. apply Hf1. intros ->.
    by apply (Hdis t Htz). }
  pose proof Hs1' as (_ & ny & Hny & Hpy & _). unfold deref. rewrite Hny. simpl.
  change (prev ny = None) in Hpy. rewrite Hpy.
  assert (exists nx, h1 !! x = Some nx /\ prev nx = None) as (nx & Hnx & Hpx).
  { rewrite Ex in Hs1. destruct zs as [|[z dz] zs]; destruct Hs1 as ([= ->] & n & ? & ? & _); eauto. }
  rewrite (assign_prev_same _ _ _ _ Hnx Hpx). simpl.
  apply NoDup_cons in Hnd' as [Hy Hnd']. cbn [fst] in Hy.
  destruct (seg_reprev _ _ _ _ _ _ _ (Some t) Hy Hs1') as (h2 & E2 & Hs2 & Hf2).
  rewrite E2. simpl. eexists _, _, _. split; [done|]. split; [|by apply rep_nil].
  rep_split.
  - rewrite !fmap_app. eapply (seg_snoc_cons _ _ _ _ _ y); [|exact Hs2].
    eapply seg_frame; [|rewrite <- Ex; exact Hs1]. intros z Hz. apply Hf2. intros ->.
    apply (Hdis y Hz). constructor.
  - rewrite !fmap_app. apply NoDup_app. split_and!; [done|done|]. by constructor.
  - eapply (rep_data_mono h); [|by apply Forall_app]. intros z _.
    rewrite (assign_data _ _ _ _ z E2) by done. by apply (assign_data _ _ _ _ z E1).
  - cbn [dlength]. rewrite Hl, Hl', ULONG_add. by rewrite <- length_app.
Qed.

Lemma seg_length_size {N} `{Linked N} (h : gmap loc N) pp p xs last q :
  seg h pp p xs last q -> NoDup xs -> (length xs <= size h)%nat.
Proof.
  intros Hs Hnd. rewrite <- size_dom, <- (size_list_to_set (C := gset loc)) by done.
  apply subseteq_size. intros x Hx. apply elem_of_list_to_set in Hx. apply elem_of_dom.
  revert pp p Hs. clear Hnd. induction xs as [|y xs IH]; intros pp p Hs; [by apply elem_of_nil in Hx|].
  destruct Hs as (-> & n & Hn & _ & Hs). apply elem_of_cons in Hx as [->|Hx]; eauto.
Qed.

Lemma dlinkFind_loop_spec fuel h pp p xs last d :
  seg h pp p xs.*1 last None -> Forall (fun p => data <$> h !! p.1 = Some p.2) xs ->
  (length xs <= fuel)%nat ->
  dlinkFind_loop fuel h p d = Some (fst <$> find_first (fun p => p.2 =? d) xs).
Proof.
  revert pp p fuel. induction xs as [|[x dx] xs IH]; intros pp p fuel Hs Hd Hf.
  - destruct Hs as [-> _]. by destruct fuel.
  - destruct Hs as (-> & n & Hn & _ & Hs). destruct fuel as [|fuel]; [simpl in Hf; lia|].
    simpl. unfold deref. simpl in Hn. rewrite Hn. simpl.
    inversion Hd as [|? ? Hx Hd']; subst. simpl in Hx. rewrite Hn in Hx. injection Hx as ->.
    destruct (dx =? d); [done|]. eapply IH; [exact Hs|done|simpl in Hf; lia].
Qed.

Lemma rep_find h L xs d : rep h L xs ->
  dlinkFind_loop (size h) h (head L) d = Some (fst <$> find_first (fun p => p.2 =? d) xs).
Proof.
  intros (Hs & Hnd & Hd & _). eapply dlinkFind_loop_spec; [exact Hs|done|].
  rewrite <- (length_fmap fst). by eapply seg_length_size.
Qed.

(** A concrete two-node list for the witnesses. *)
Definition list12 : dlink_list := DList (Some 1%positive) (Some 2%positive) 2.
Definition heap12 : dheap :=
  <[1%positive := DNode 10 None (Some 2%positive)]>
  (<[2%positive := DNode 20 (Some 1%positive) None]>
  (<[3%positive := DNode 0 None None]> ∅)).

Lemma rep12 : rep heap12 list12 [(1%positive, 10); (2%positive, 20)].
Proof.
  rep_split.
  - split; [done|]. exists (DNode 10 None (Some 2%positive)). split_and!; [done|done|].
    split; [done|]. by exists (DNode 20 (Some 1%positive) None).
  - by apply (bool_decide_unpack _).
  - by repeat constructor.
  - done.
Qed.

(** ** Properties *)

(** [dlinkAdd] and [dlinkAddTail] refine insertion at the two ends of a
    sequence: on a well-formed list they succeed and the result is well-formed
    with the new datum in front, or at the end ([dlinkAdd] needs a node whose
    [prev] is already [NULL]). *)
Theorem dlink_insert_correct h L xs d m n
    (HL : rep h L xs) (Hm : m ∉ xs.*1) (Hn : h !! m = Some n) (Hp : prev n = None) :
  (exists h' L', dlinkAdd d m L h = Some (h', L') /\ rep h' L' ((m, d) :: xs)) /\
  (exists h' L', dlinkAddTail d m L h = Some (h', L') /\ rep h' L' (xs ++ [(m, d)])).
Proof. split; [by eapply dlinkAdd_rep|by eapply dlinkAddTail_rep]. Qed.

Lemma dlink_insert_correct_witness :
  exists h' L', dlinkAdd 30 3 list12 heap12 = Some (h', L') /\
    rep h' L' [(3%positive, 30); (1%positive, 10); (2%positive, 20)].
Proof.
  refine (proj1 (dlink_insert_correct heap12 list12 _ 30 3 _ rep12 _ _ _)).
  - by apply (bool_decide_unpack _).
  - reflexivity.
  - reflexivity.
Defined.

(** [dlinkDelete] refines removal: deleting any node of a well-formed list
    succeeds, leaves the others well-formed in their order, and clears the
    node's own links. *)
Theorem dlinkDelete_correct h L xs1 m d xs2 (HL : rep h L (xs1 ++ (m, d) :: xs2)) :
  exists h' L' n, dlinkDelete m L h = Some (h', L') /\ rep h' L' (xs1 ++ xs2) /\
    h' !! m = Some n /\ prev n = None /\ next n = None.
Proof. exact (dlinkDelete_rep h L xs1 m d xs2 HL). Qed.

Lemma dlinkDelete_correct_witness :
  exists h' L' n, dlinkDelete 1 list12 heap12 = Some (h', L') /\
    rep h' L' ([] ++ [(2%positive, 20)]) /\
    h' !! 1%positive = Some n /\ prev n = None /\ next n = None.
Proof. exact (dlinkDelete_correct heap12 list12 [] 1 10 [(2%positive, 20)] rep12). Defined.

(** [dlinkFind] returns the first node holding the datum, [NULL] when there
    is none, and [dlinkMoveList] prepends one well-formed list to another and
    empties it. *)
Theorem dlinkFind_MoveList_correct h Lf Lt xs ys d
    (Hf : rep h Lf xs) (Ht : rep h Lt ys) (Hdis : forall x, x ∈ xs.*1 -> x ∉ ys.*1) :
  dlinkFind Lf d h = Some (fst <$> find_first (fun p => p.2 =? d) xs) /\
  exists h' Lf' Lt', dlinkMoveList Lf Lt h = Some (h', Lf', Lt') /\
    rep h' Lt' (xs ++ ys) /\ rep h' Lf' [].
Proof. split; [by apply rep_find|by apply dlinkMoveList_rep]. Qed.

Lemma dlinkFind_MoveList_correct_witness :
  dlinkFind list12 20 heap12 = Some (Some 2%positive) /\
  exists h' Lf' Lt', dlinkMoveList list12 (DList None None 0) heap12 = Some (h', Lf', Lt') /\
    rep h' Lt' ([(1%positive, 10); (2%positive, 20)] ++ []) /\ rep h' Lf' [].
Proof.
  apply (dlinkFind_MoveList_correct heap12 list12 (DList None None 0)
    [(1%positive, 10); (2%positive, 20)] [] 20 rep12).
  - by apply rep_nil.
  - intros x _ Hx. by apply elem_of_nil in Hx.
Defined.

(** [dlinkFindDelete] never repairs the predecessor or the head: deleting
    the first of several nodes leaves the head pointing at the deleted node,
    whose [next] is cleared, so the rest of the list is lost. *)
Theorem dlinkFindDelete_loses_rest h L m d xs
    (HL : rep h L ((m, d) :: xs)) (Hxs : xs <> []) :
  exists h' L' n, dlinkFindDelete L d h = Some (h', L', Some m) /\
    head L' = Some m /\ h' !! m = Some n /\ next n = None.
Proof.
  unfold dlinkFindDelete. rewrite (rep_find _ _ _ _ HL). simpl. rewrite Z.eqb_refl. simpl.
  destruct HL as (Hs & Hnd & Hd & _). pose proof Hs as (Eh & n & Hn & Hp & Hs').
  cbn [fst] in *. unfold deref. rewrite Hn. simpl.
  destruct xs as [|[y dy] xs]; [done|].
  pose proof Hs' as [Ey _]. change (lnext n) with (next n) in *. rewrite Ey in *.
  apply NoDup_cons in Hnd as [Hm Hnd]. apply NoDup_cons in Hnd as [Hy Hnd].
  destruct (seg_reprev _ _ _ _ _ _ _ (prev n) Hy Hs') as (h1 & E1 & _ & Hf1).
  cbn [fst] in *. rewrite E1. simpl.
  assert (h1 !! m = Some n) as Hn1.
  { rewrite Hf1; [done|]. intros ->. apply Hm. constructor. }
  rewrite (assign_Some _ _ _ _ Hn1). simpl.
  eexists _, _, _. split_and!; [done|done|apply lookup_insert_eq|done].
Qed.

Lemma dlinkFindDelete_loses_rest_witness :
  exists h' L' n, dlinkFindDelete list12 10 heap12 = Some (h', L', Some 1%positive) /\
    head L' = Some 1%positive /\ h' !! 1%positive = Some n /\ next n = None.
Proof.
  exact (dlinkFindDelete_loses_rest heap12 list12 1 10 [(2%positive, 20)] rep12 ltac:(done)).
Defined.

(** [dlinkAdd] does not initialise [m->prev].  A node from [smalloc] (as in
    [add_floodtxt]) that is added and then deleted while still first makes
    [dlinkDelete] follow the stale pointer: when it points nowhere, it faults. *)
Theorem dlinkAdd_stale_prev h L xs d m n g
    (HL : rep h L xs) (Hm : m ∉ xs.*1) (Hn : h !! m = Some n)
    (Hp : prev n = Some g) (Hg : h !! g = None) :
  exists h' L', dlinkAdd d m L h = Some (h', L') /\ dlinkDelete m L' h' = None.
Proof.
  destruct HL as (Hs & Hnd & Hd & _). unfold dlinkAdd.
  rewrite (assign_Some _ _ _ _ Hn). simpl.
  set (n1 := with_next (head L) (with_data d n)). set (h1 := <[m := n1]> h).
  assert (Hgm : g <> m) by congruence.
  assert (Hg1 : h1 !! g = None) by (unfold h1; by rewrite lookup_insert_ne).
  assert (Hf : forall y, y <> m -> h1 !! y = h !! y) by (intros; by apply lookup_insert_ne).
  assert (Hs1 : seg h1 None (head L) xs.*1 (tail L) None).
  { eapply seg_frame; [|exact Hs]. intros y Hy. apply Hf. by intros ->. }
  destruct xs as [|[x dx] xs].
  - destruct Hs1 as [E _]. rewrite E. eexists _, _. split; [done|].
    unfold dlinkDelete, deref, h1. rewrite lookup_insert_eq. simpl.
    rewrite E, Hp. simpl. unfold assign. fold n1. fold h1. by rewrite Hg1.
  - pose proof Hs1 as [E _]. rewrite E. cbn [fst] in *.
    apply NoDup_cons in Hnd as [Hx _]. rewrite E in Hs1.
    destruct (seg_reprev _ _ _ _ _ _ _ (Some m) Hx Hs1) as (h2 & E2 & _ & Hf2).
    cbn [fst] in *. rewrite E2. simpl. eexists _, _. split; [done|].
    assert (Hxm : x <> m) by (intros ->; apply Hm; constructor).
    assert (Hgx : g <> x).
    { intros ->. destruct Hs1 as (_ & nx & Hnx & _). cbn [fst] in Hnx; by rewrite Hg1 in Hnx. }
    unfold dlinkDelete, deref. rewrite Hf2 by done. unfold h1. rewrite lookup_insert_eq.
    simpl. rewrite E, Hp. simpl.
    destruct (assign h2 x _) as [h3|] eqn:E3; [|done]. simpl.
    unfold assign. rewrite (assign_lookup_ne _ _ _ _ g E3), Hf2, Hg1 by done. done.
Qed.

Lemma dlinkAdd_stale_prev_witness :
  exists h' L', dlinkAdd 5 3 (DList None None 0) {[3%positive := DNode 0 (Some 9%positive) None]}
    = Some (h', L') /\ dlinkDelete 3 L' h' = None.
Proof.
  apply (dlinkAdd_stale_prev _ _ [] 5 3 (DNode 0 (Some 9%positive) None) 9);
    [by apply rep_nil|intros Hx; by apply elem_of_nil in Hx|reflexivity..].
Defined.
