(* ===== verification/Timeout.v ===== *)
(** Time-delayed actions: [src/timeout.c], on a heap of [Timeout] structures.

    The routine a timeout runs is a tag [C] interpreted by [run]; it may change
    the timeout list itself, so it works on the whole state. *)

From S2P Require Import Prelude DList.

Section Timeouts.
Context {C S : Type}.

(** The fields the list code does not touch. *)
Record timeout_info := TInfo {
  settime : Z; timeout : Z; repeat : bool; code : C; tdata : Z
}.

Record Timeout := MkTimeout { info : timeout_info; tprev : option loc; tnext : option loc }.

#[global, program] Instance Timeout_linked : Linked Timeout := {
  lprev := tprev;
  lnext := tnext;
  with_prev p n := MkTimeout (info n) p (tnext n);
  with_next p n := MkTimeout (info n) (tprev n) p;
}.
Solve All Obligations with done.

(** Heap, the [timeouts] pointer and the rest of the program. *)
Record tstate := TState { theap : gmap loc Timeout; timeouts : option loc; client : S }.

(** [t] is the block [smalloc] returned. *)
Definition add_timeout (t : loc) (now delay : Z) (c : C) (rep : bool) (data : Z)
    (st : tstate) : option tstate :=
  let h := <[t := MkTimeout (TInfo now (now + delay) rep c data) None None]> (theap st) in
  '(h, hd) ← link_head h (timeouts st) t;
  Some (TState h hd (client st)).

(** [for (ptr = timeouts; ptr; ptr = ptr->next) if (ptr == t) break;] *)
Fixpoint find_ptr (fuel : nat) (h : gmap loc Timeout) (ptr : option loc) (t : loc)
    : option bool :=
  match ptr with
  | None => Some false
  | Some x =>
      match fuel with
      | O => None
      | Datatypes.S fuel' =>
          if decide (x = t) then Some true
          else n ← deref h x; find_ptr fuel' h (tnext n) t
      end
  end.

Definition del_timeout (t : loc) (st : tstate) : option tstate :=
  found ← find_ptr (size (theap st)) (theap st) (timeouts st) t;
  if found : bool then
    '(h, hd) ← unlink_node (theap st) (timeouts st) t;
    Some (TState (delete t h) hd (client st))
  else Some st.

Variable run : C -> loc -> tstate -> option tstate.

(** The loop of [check_timeouts] from [to]; it also yields the timeouts whose
    routine was called, in order. *)
Fixpoint check_loop (fuel : nat) (t : Z) (to : option loc) (st : tstate)
    : option (tstate * list loc) :=
  match to with
  | None => Some (st, [])
  | Some x =>
      match fuel with
      | O => None
      | Datatypes.S fuel' =>
          n ← deref (theap st) x;
          if t <? timeout (info n) then check_loop fuel' t (tnext n) st
          else
            st ← run (code (info n)) x st;
            n ← deref (theap st) x;
            if repeat (info n) then
              '(st, tr) ← check_loop fuel' t (tnext n) st; Some (st, x :: tr)
            else
              '(h, hd) ← unlink_node (theap st) (timeouts st) x;
              '(st, tr) ← check_loop fuel' t (tnext n) (TState (delete x h) hd (client st));
              Some (st, x :: tr)
      end
  end.

Definition check_timeouts (t : Z) (st : tstate) : option (tstate * list loc) :=
  check_loop (size (theap st)) t (timeouts st) st.

(** ** The list a state represents *)

Definition wf (st : tstate) (xs : list (loc * timeout_info)) : Prop :=
  chain (theap st) (timeouts st) xs.*1 /\ NoDup xs.*1 /\
  Forall (fun p => info <$> theap st !! p.1 = Some p.2) xs.

Definition due (t : Z) (p : loc * timeout_info) : Prop := timeout p.2 <= t.
Definition kept (t : Z) (p : loc * timeout_info) : Prop :=
  t < timeout p.2 \/ repeat p.2 = true.

#[global] Instance due_dec t p : Decision (due t p).
Proof. unfold due. apply _. Defined.
#[global] Instance kept_dec t p : Decision (kept t p).
Proof. unfold kept. apply _. Defined.

(** *** Payloads survive relinking *)

Lemma assign_info (h : gmap loc Timeout) x f h' y :
  assign h x f = Some h' -> (forall n, info (f n) = info n) ->
  info <$> h' !! y = info <$> h !! y.
Proof.
  unfold assign. destruct (h !! x) as [n|] eqn:E; [|done]. intros [= <-] Hf.
  destruct (decide (x = y)) as [->|]; [|by rewrite lookup_insert_ne].
  rewrite lookup_insert_eq, E. simpl. by rewrite Hf.
Qed.

Lemma unlink_node_info (h : gmap loc Timeout) hd m h' hd' y :
  unlink_node h hd m = Some (h', hd') -> info <$> h' !! y = info <$> h !! y.
Proof.
  unfold unlink_node. destruct (deref h m) as [n|]; [|done]. simpl. intros H.
  destruct (match tnext n with Some x => _ | None => _ end) as [h1|] eqn:E1; [|done].
  simpl in H. transitivity (info <$> h1 !! y).
  - destruct (tprev n) as [p|]; [|by injection H as <-].
    destruct (assign h1 p _) as [h2|] eqn:E2; [|done]. injection H as <- <-.
    by rewrite (assign_info _ _ _ _ y E2).
  - destruct (tnext n) as [x|]; [|by injection E1 as <-].
    by rewrite (assign_info _ _ _ _ y E1).
Qed.

Lemma link_head_info (h : gmap loc Timeout) hd m h' hd' y :
  link_head h hd m = Some (h', hd') -> info <$> h' !! y = info <$> h !! y.
Proof.
  unfold link_head. intros H.
  destruct (assign h m _) as [h1|] eqn:E1; [|done]. simpl in H.
  transitivity (info <$> h1 !! y); [|by rewrite (assign_info _ _ _ _ y E1)].
  destruct hd as [x|]; [|by injection H as <-].
  destruct (assign h1 x _) as [h2|] eqn:E2; [|done]. injection H as <- <-.
  by rewrite (assign_info _ _ _ _ y E2).
Qed.

Lemma Forall_info_mono (h h' : gmap loc Timeout) (xs : list (loc * timeout_info)) :
  (forall y, y ∈ xs.*1 -> info <$> h' !! y = info <$> h !! y) ->
  Forall (fun p => info <$> h !! p.1 = Some p.2) xs ->
  Forall (fun p => info <$> h' !! p.1 = Some p.2) xs.
Proof.
  intros Hd. rewrite !Forall_forall. intros H p Hp. rewrite Hd; [by apply H|].
  apply list_elem_of_fmap. by exists p.
Qed.

Lemma wf_lookup st xs p : wf st xs -> p ∈ xs ->
  exists n, theap st !! p.1 = Some n /\ info n = p.2.
Proof.
  intros (_ & _ & Hi) Hp. rewrite Forall_forall in Hi. specialize (Hi p Hp).
  apply fmap_Some in Hi as (n & Hn & E). eauto.
Qed.

Lemma add_timeout_wf t now delay c rep data st xs :
  wf st xs -> t ∉ xs.*1 ->
  exists st', add_timeout t now delay c rep data st = Some st' /\
    wf st' ((t, TInfo now (now + delay) rep c data) :: xs) /\ client st' = client st.
Proof.
  intros ([last Hs] & Hnd & Hi) Ht. unfold add_timeout.
  set (n := MkTimeout _ None None). set (h := <[t := n]> (theap st)).
  assert (Hc : chain h (timeouts st) xs.*1).
  { exists last. eapply seg_frame; [|exact Hs]. intros y Hy. apply lookup_insert_ne.
    by intros ->. }
  destruct (link_head_chain h _ _ t n Hc Hnd Ht (lookup_insert_eq _ _ _))
    as (h' & E & Hc' & Hf). rewrite E. simpl.
  eexists. split; [done|]. split; [|done]. split; [exact Hc'|]. split; [by constructor|].
  constructor.
  - cbn [fst snd theap]. rewrite (link_head_info _ _ _ _ _ t E).
    unfold h. by rewrite lookup_insert_eq.
  - eapply Forall_info_mono; [|exact Hi]. intros y Hy.
    cbn [theap]. rewrite (link_head_info _ _ _ _ _ y E). unfold h.
    rewrite lookup_insert_ne; [done|]. by intros ->.
Qed.

(** Unlinking and freeing one timeout. *)
Lemma unlink_free_wf st xs1 x i xs2 :
  wf st (xs1 ++ (x, i) :: xs2) ->
  exists h hd, unlink_node (theap st) (timeouts st) x = Some (h, hd) /\
    wf (TState (delete x h) hd (client st)) (xs1 ++ xs2).
Proof.
  intros (Hc & Hnd & Hi). rewrite fmap_app in Hc, Hnd. cbn [fmap list_fmap fst] in Hc, Hnd.
  destruct (unlink_node_chain _ _ _ _ _ Hc Hnd) as (h & hd & E & Hc' & Hf).
  exists h, hd. split; [done|].
  pose proof (NoDup_middle _ _ _ Hnd) as (Hn1 & Hn2 & Hx1 & Hx2 & Hdis).
  assert (Hne : forall y, y ∈ (xs1 ++ xs2).*1 -> y <> x).
  { intros y Hy ->. rewrite fmap_app in Hy. by apply elem_of_app in Hy as [?|?]. }
  split; [|split].
  - destruct Hc' as [last Hs]. exists last. rewrite fmap_app.
    eapply seg_frame; [|exact Hs]. intros y Hy. cbn [theap].
    rewrite lookup_delete_ne; [done|]. intros <-. apply (Hne x); [|done]. by rewrite fmap_app.
  - rewrite fmap_app. apply NoDup_app. split_and!; [done|intros y Hy; by apply Hdis|done].
  - assert (Hi' : Forall (fun p => info <$> theap st !! p.1 = Some p.2) (xs1 ++ xs2)).
    { apply Forall_app in Hi as [Hi1 Hi2]. inversion Hi2; subst. by apply Forall_app. }
    eapply Forall_info_mono; [|exact Hi']. intros y Hy. cbn [theap].
    rewrite lookup_delete_ne by (intros ->; by apply (Hne y)).
    by rewrite (unlink_node_info _ _ _ _ _ y E).
Qed.
End Timeouts.

#[global] Arguments timeout_info : clear implicits.
#[global] Arguments Timeout : clear implicits.
#[global] Arguments tstate : clear implicits.

(** ** A run of the list

    Assume what [timeout.h] asks of the routines: each may add timeouts (they
    go to the front) and change the rest of the program, but does not remove
    any timeout itself. *)
Section CheckTimeouts.
Context {C S : Type} (run : C -> loc -> tstate C S -> option (tstate C S)).

Hypothesis run_only_adds : forall c x st xs i,
  wf st xs -> (x, i) ∈ xs ->
  exists st' news, run c x st = Some st' /\ wf st' (news ++ xs).

Definition ptr_of (xs : list (loc * timeout_info C)) : option loc :=
  match xs with [] => None | p :: _ => Some p.1 end.

Lemma wf_node (st : tstate C S) xs1 x i xs2 :
  wf st (xs1 ++ (x, i) :: xs2) ->
  exists n, theap st !! x = Some n /\ info n = i /\ tnext n = ptr_of xs2.
Proof.
  intros (Hc & Hnd & Hi). destruct Hc as [last Hs].
  rewrite fmap_app in Hs. apply seg_app in Hs as (mp & mid & _ & E & n & Hn & _ & Hs).
  exists n. cbn [fst] in Hn. split; [done|]. split.
  - apply Forall_app in Hi as [_ Hi]. inversion Hi as [|? ? Hx _]; subst.
    cbn [fst snd] in Hx. rewrite Hn in Hx. by injection Hx.
  - destruct xs2 as [|p xs2]; [by destruct Hs as [? _]|by destruct Hs as [? _]].
Qed.

Lemma check_loop_spec fuel t pre post st :
  wf st (pre ++ post) -> (length post <= fuel)%nat ->
  exists st' news,
    check_loop run fuel t (ptr_of post) st = Some (st', (filter (due t) post).*1) /\
    wf st' (news ++ pre ++ filter (kept t) post).
Proof.
  revert pre post st. induction fuel as [|fuel IH]; intros pre [|[x i] post] st Hwf Hl.
  1,3: exists st, []; by rewrite app_nil_r in *.
  1: simpl in Hl; lia.
  destruct (wf_node _ _ _ _ _ Hwf) as (n & Hn & Hi & Hnx).
  cbn [check_loop ptr_of fst]. unfold deref. rewrite Hn. simpl. rewrite Hi.
  destruct (Z.ltb_spec t (timeout i)) as [Hlt|Hge].
  - rewrite filter_cons_False by (unfold due; simpl; lia).
    rewrite filter_cons_True by (by left).
    rewrite Hnx. replace (pre ++ (x, i) :: post) with ((pre ++ [(x, i)]) ++ post) in Hwf
      by by rewrite <- app_assoc.
    destruct (IH _ _ _ Hwf ltac:(simpl in Hl; lia)) as (st' & news & E & Hwf').
    exists st', news. split; [exact E|]. by rewrite <- app_assoc in Hwf'.
  - rewrite (filter_cons_True (due t)) by (unfold due; simpl; lia).
    destruct (run_only_adds (code i) x st _ i Hwf) as (st1 & news & Er & Hwf1).
    { apply elem_of_app. right. constructor. }
    rewrite Er. simpl. rewrite app_assoc in Hwf1.
    destruct (wf_node _ _ _ _ _ Hwf1) as (n1 & Hn1 & Hi1 & Hnx1).
    rewrite Hn1. simpl. rewrite Hi1, Hnx1. destruct (repeat i) eqn:Hrep.
    + rewrite filter_cons_True by (by right).
      replace ((news ++ pre) ++ (x, i) :: post) with (((news ++ pre) ++ [(x, i)]) ++ post)
        in Hwf1 by by rewrite <- app_assoc.
      destruct (IH _ _ _ Hwf1 ltac:(simpl in Hl; lia)) as (st' & news' & E & Hwf').
      rewrite E. simpl. exists st', (news' ++ news). split; [done|].
      by repeat rewrite <- app_assoc in Hwf'; repeat rewrite <- app_assoc.
    + rewrite filter_cons_False by (intros [?|?]; [simpl in *; lia|simpl in *; congruence]).
      destruct (unlink_free_wf _ _ _ _ _ Hwf1) as (h & hd & Eu & Hwf2).
      rewrite Eu. simpl.
      destruct (IH _ _ _ Hwf2 ltac:(simpl in Hl; lia)) as (st' & news' & E & Hwf').
      rewrite E. simpl. exists st', (news' ++ news). split; [done|].
      by repeat rewrite <- app_assoc in Hwf'; repeat rewrite <- app_assoc.
Qed.
End CheckTimeouts.

Lemma find_ptr_spec {C S} (st : tstate C S) xs t fuel p pp last :
  seg (theap st) pp p xs last None -> (length xs <= fuel)%nat ->
  find_ptr fuel (theap st) p t = Some (bool_decide (t ∈ xs)).
Proof.
  revert pp p fuel. induction xs as [|x xs IH]; intros pp p fuel Hs Hf.
  - destruct Hs as [-> _]. by destruct fuel.
  - destruct Hs as (-> & n & Hn & _ & Hs). destruct fuel as [|fuel]; [simpl in Hf; lia|].
    simpl. destruct (decide (x = t)) as [->|Hne].
    + by rewrite bool_decide_eq_true_2 by constructor.
    + unfold deref. rewrite Hn. simpl. rewrite (IH _ _ _ Hs) by (simpl in Hf; lia).
      f_equal. apply bool_decide_ext. rewrite elem_of_cons. split; [by right|].
      by intros [->|?].
Qed.

(** A client whose only routine adds one more timeout at address [9]. *)
Definition rearm (c : bool) (x : loc) (st : tstate bool unit)
    : option (tstate bool unit) := Some st.

Definition empty_state : tstate bool unit := TState ∅ None tt.

Lemma empty_wf : wf empty_state [].
Proof. split; [by exists None|split; constructor]. Qed.

(** ** Properties *)

(** C36: [check_timeouts], run at time [t], calls the routine of exactly the
    timeouts of the list that are due, in list order, and never one that was
    added during the run; afterwards the list holds the added ones in front of
    those that were not yet due or repeat. *)
Theorem check_timeouts_correct {C S : Type}
    (run : C -> loc -> tstate C S -> option (tstate C S))
    (run_only_adds : forall c x st xs i, wf st xs -> (x, i) ∈ xs ->
       exists st' news, run c x st = Some st' /\ wf st' (news ++ xs))
    (t : Z) (st : tstate C S) (xs : list (loc * timeout_info C)) (Hwf : wf st xs) :
  exists st' news,
    check_timeouts run t st = Some (st', (filter (due t) xs).*1) /\
    wf st' (news ++ filter (kept t) xs).
Proof.
  unfold check_timeouts.
  assert (timeouts st = ptr_of xs) as ->.
  { destruct Hwf as ([last Hs] & _). destruct xs; by destruct Hs as [? _]. }
  apply (check_loop_spec run run_only_adds _ t [] xs st Hwf).
  destruct Hwf as ([last Hs] & Hnd & _). rewrite <- (length_fmap fst).
  by eapply seg_length_size.
Qed.

Lemma check_timeouts_correct_witness :
  exists st', wf st' [(1%positive, TInfo 0 5 false true 7)] /\
    exists st'' news,
      check_timeouts rearm 5 st' =
        Some (st'', (filter (due 5) [(1%positive, TInfo 0 5 false true 7)]).*1) /\
      wf st'' (news ++ filter (kept 5) [(1%positive, TInfo 0 5 false true 7)]).
Proof.
  destruct (add_timeout_wf 1 0 5 true false 7 empty_state [] empty_wf) as (st' & _ & Hwf & _);
    [intros Hx; by apply elem_of_nil in Hx|].
  exists st'. split; [exact Hwf|].
  apply (check_timeouts_correct rearm).
  - intros c x st xs i Hw _. exists st, []. by split.
  - exact Hwf.
Defined.

(** [add_timeout] puts a timeout due at [now + delay] in front of the list;
    [del_timeout] removes a timeout that is on the list, freeing it, and does
    nothing for an address that is not. *)
Theorem add_del_timeout_correct {C S : Type} (st : tstate C S)
    (xs : list (loc * timeout_info C)) (Hwf : wf st xs) (t : loc) :
  (t ∉ xs.*1 -> forall now delay c rep data, exists st',
     add_timeout t now delay c rep data st = Some st' /\
     wf st' ((t, TInfo now (now + delay) rep c data) :: xs)) /\
  (t ∉ xs.*1 -> del_timeout t st = Some st) /\
  (forall xs1 i xs2, xs = xs1 ++ (t, i) :: xs2 -> exists st',
     del_timeout t st = Some st' /\ wf st' (xs1 ++ xs2) /\ theap st' !! t = None).
Proof.
  assert (Hfind : find_ptr (size (theap st)) (theap st) (timeouts st) t
                  = Some (bool_decide (t ∈ xs.*1))).
  { destruct Hwf as ([last Hs] & Hnd & _). eapply find_ptr_spec; [exact Hs|].
    by eapply seg_length_size. }
  split_and!.
  - intros Ht now delay c rep data.
    destruct (add_timeout_wf t now delay c rep data st xs Hwf Ht) as (st' & E & Hw & _). eauto.
  - intros Ht. unfold del_timeout. rewrite Hfind. simpl. by rewrite bool_decide_eq_false_2.
  - intros xs1 i xs2 ->. unfold del_timeout. rewrite Hfind. simpl.
    rewrite bool_decide_eq_true_2.
    2: { rewrite fmap_app. apply elem_of_app. right. constructor. }
    destruct (unlink_free_wf _ _ _ _ _ Hwf) as (h & hd & E & Hw). rewrite E. simpl.
    eexists. split; [done|]. split; [exact Hw|apply lookup_delete_eq].
Qed.

Lemma add_del_timeout_correct_witness :
  del_timeout 4 empty_state = Some empty_state.
Proof.
  apply (add_del_timeout_correct empty_state [] empty_wf 4).
  intros Hx. by apply elem_of_nil in Hx.
Defined.
