(* ===== verification/Track.v ===== *)
(** Routines that leave a known value in one part of the state.

    A component whose data is a value [tracked s] of the state, and whose
    routines otherwise keep a [frame] (a preorder), is described by what each
    routine answers and leaves: [does s m a d]. *)

From S2P Require Import Prelude Wp.

Class Track (S D : Type) := {
  tracked : S -> D;
  frame : S -> S -> Prop;
  #[global] frame_preorder :: PreOrder frame
}.

Section Track.
Context {S D : Type} `{!Track S D}.
Implicit Types (s : S) (d : D).

Definition leaves d s s' : Prop := frame s s' /\ tracked s' = d.

Lemma leaves_refl s : leaves (tracked s) s s.
Proof. by split. Qed.

Lemma leaves_trans d d' s s1 s2 : leaves d s s1 -> leaves d' s1 s2 -> leaves d' s s2.
Proof. intros [H1 _] [H2 Hd]. split; [by transitivity s1|done]. Qed.

Lemma leaves_tracked d s s' : leaves d s s' -> tracked s' = d.
Proof. by intros [_ ?]. Qed.

Lemma leaves_frame d s s' : leaves d s s' -> frame s s'.
Proof. by intros [? _]. Qed.

(** [m] answers [a], and [d] is left. *)
Definition does {A} s (m : M S A) (a : A) d : Prop := wp m (fun b s' => b = a /\ leaves d s s') s.

Lemma does_ret {A} s (a : A) : does s (mret a) a (tracked s).
Proof. apply wp_ret. split; [done|apply leaves_refl]. Qed.

Lemma does_gets {A} s (f : S -> A) : does s (gets f) (f s) (tracked s).
Proof. apply wp_gets. split; [done|apply leaves_refl]. Qed.

Lemma does_bind {A B} s (m : M S A) (k : A -> M S B) a b d d' :
  does s m a d -> (forall s', leaves d s s' -> does s' (k a) b d') -> does s (mbind k m) b d'.
Proof.
  intros Hm Hk. apply wp_bind. eapply wp_mono; [exact Hm|]. intros ? s1 [-> Hl].
  eapply wp_mono; [by apply Hk|]. intros ? s2 [-> Hl']. split; [done|by eapply leaves_trans].
Qed.

(** A step that leaves the data as it is. *)
Lemma does_step {A B} s (m : M S A) (k : A -> M S B) a b d :
  does s m a (tracked s) -> (forall s', leaves (tracked s) s s' -> does s' (k a) b d) -> does s (mbind k m) b d.
Proof. apply does_bind. Qed.

Lemma does_run {A} s (m : M S A) a d b s' : does s m a d -> m s = Some (b, s') -> b = a /\ leaves d s s'.
Proof. unfold does, wp. intros Hm Hr. by rewrite Hr in Hm. Qed.

Lemma does_when s b (m : M S unit) : does s m tt (tracked s) -> does s (when b m) tt (tracked s).
Proof. destruct b; [done|intros _; apply does_ret]. Qed.

Lemma does_for_each {A} s (l : list A) (f : A -> M S unit) :
  (forall x s', frame s s' -> does s' (f x) tt (tracked s')) -> does s (for_each l f) tt (tracked s).
Proof.
  revert s. induction l as [|x l IH]; intros s Hf; [apply does_ret|]. eapply does_step; [by apply Hf|].
  intros s' [Hs' Hd]. rewrite <- Hd. apply IH. intros y s'' Hs''. apply Hf. by transitivity s'.
Qed.

Lemma wp_does {A B} s (m : M S A) (k : A -> M S B) a d (Q : B -> S -> Prop) :
  does s m a d -> (forall s', leaves d s s' -> wp (k a) Q s') -> wp (mbind k m) Q s.
Proof. intros Hm Hk. apply wp_bind. eapply wp_mono; [exact Hm|]. intros ? s' [-> Hl]. by apply Hk. Qed.

(** Symbolic execution towards a property [P] of the data, in the frame of a
    state [s0]. *)
Definition ends {A} s0 (P : D -> Prop) : A -> S -> Prop := fun _ s' => frame s0 s' /\ P (tracked s').

Lemma ends_does {A} s0 P s (m : M S A) a d : frame s0 s -> does s m a d -> P d -> wp m (ends s0 P) s.
Proof.
  intros H0 Hm HP. eapply wp_mono; [exact Hm|]. intros ? s' [_ [Hf <-]]. split; [by transitivity s|done].
Qed.

Lemma ends_step {A B} s0 P s (m : M S A) (k : A -> M S B) a d :
  frame s0 s -> does s m a d ->
  (forall s', frame s0 s' -> tracked s' = d -> wp (k a) (ends s0 P) s') -> wp (mbind k m) (ends s0 P) s.
Proof.
  intros H0 Hm Hk. apply wp_bind. eapply wp_mono; [exact Hm|]. intros ? s' [-> [Hf Hd]].
  apply Hk; [by transitivity s|done].
Qed.
End Track.
