(* ===== verification/Graph.v ===== *)
(** The network graph: what the structures of [src/users.c] and
    [src/channels.c] say about who is on which channel, with everything else
    (modes, topics, times) erased.  [heap_ok] says that every pointer and both
    hash tables are sound, [members_ok] that the two directions of membership
    agree and that operators and voiced users are members; the operations of
    this file are what the C routines do to the graph, and each keeps both. *)

From S2P Require Import Prelude CStr.

Definition ptr : Type := Z.
Definition NULL : ptr := 0.

(** *** Hash functions *)

(** [s[i]], the terminator included. *)
Definition char_at (s : string) (i : nat) : ascii := hd_char (str_drop i s).

Definition nick_HASH (nick : string) : Z :=
  Z.shiftl (code (char_at nick 0) .& 31) 5 .| (code (char_at nick 1) .& 31).

Definition chan_HASH (chan : string) : Z :=
  if Ascii.eqb (char_at chan 1) NUL then 0
  else Z.shiftl (code (char_at chan 1) .& 31) 5 .| (code (char_at chan 2) .& 31).

Definition bucket (t : gmap Z (list ptr)) (h : Z) : list ptr := default [] (t !! h).


(** ** The graph *)
Record uview := mkUView { v_nick : string; v_username : string; v_host : string; v_chans : list ptr }.
Record cview := mkCView { w_name : string; w_users : list ptr; w_ops : list ptr; w_voices : list ptr }.

Record graph := mkGraph {
  g_users : gmap ptr uview;
  g_chans : gmap ptr cview;
  g_ulist : gmap Z (list ptr);
  g_clist : gmap Z (list ptr);
  g_next : Z;
  g_walk : ptr                    (* where a walk over all users stands *)
}.

(** A bucket table lists every structure once, under the hash of its name. *)
Record list_ok {A} (hash : string -> Z) (nm : A -> string) (m : gmap ptr A)
    (t : gmap Z (list ptr)) : Prop := {
  lo_nodup : forall h, NoDup (bucket t h);
  lo_elem : forall h p, p ∈ bucket t h <-> exists v, m !! p = Some v /\ hash (nm v) = h
}.

Record heap_ok (g : graph) : Prop := {
  ho_next : 0 < g_next g;
  ho_addr : forall p, is_Some (g_users g !! p) \/ is_Some (g_chans g !! p) -> 0 < p < g_next g;
  ho_ulist : list_ok nick_HASH v_nick (g_users g) (g_ulist g);
  ho_clist : list_ok chan_HASH w_name (g_chans g) (g_clist g);
  ho_nick : forall p v, g_users g !! p = Some v -> no_nul (v_nick v) = true;
  ho_host : forall p v, g_users g !! p = Some v -> host_ok (v_host v) = true;
  ho_name : forall c w, g_chans g !! c = Some w -> no_nul (w_name w) = true;
  ho_chans : forall p v c, g_users g !! p = Some v -> c ∈ v_chans v -> is_Some (g_chans g !! c);
  ho_users : forall c w p, g_chans g !! c = Some w ->
    p ∈ w_users w \/ p ∈ w_ops w \/ p ∈ w_voices w -> is_Some (g_users g !! p);
  ho_walk : g_walk g = NULL
}.

Record counts_ok (g : graph) : Prop := {
  mo_count : forall p v c w, g_users g !! p = Some v -> g_chans g !! c = Some w ->
    cnt p (w_users w) = cnt c (v_chans v);
  mo_ops : forall c w p, g_chans g !! c = Some w -> (cnt p (w_ops w) <= cnt p (w_users w))%nat;
  mo_voices : forall c w p, g_chans g !! c = Some w ->
    (cnt p (w_voices w) <= cnt p (w_users w))%nat
}.

(** Every channel, [c0] apart, has a user. *)
Definition inhabited_but (c0 : ptr) (g : graph) : Prop :=
  forall c w, c <> c0 -> g_chans g !! c = Some w -> w_users w <> [].

Definition members_ok (g : graph) : Prop :=
  counts_ok g /\ forall c w, g_chans g !! c = Some w -> w_users w <> [].

Definition graph_ok (g : graph) : Prop := heap_ok g /\ members_ok g.

(** ** Operations *)
Definition push (t : gmap Z (list ptr)) (h : Z) (p : ptr) : gmap Z (list ptr) :=
  <[h := p :: bucket t h]> t.
Definition pull (t : gmap Z (list ptr)) (h : Z) (p : ptr) : gmap Z (list ptr) :=
  <[h := unlink p (bucket t h)]> t.

(** [new_user], [change_user_nick] and the end of [delete_user]. *)
Definition g_new_user (nk : string) (g : graph) : graph :=
  g{{g_users ::= insert (g_next g) (mkUView nk EmptyString EmptyString []);
     g_ulist := push (g_ulist g) (nick_HASH nk) (g_next g);
     g_next := g_next g + 1}}.

Definition g_rename (p : ptr) (nk : string) (g : graph) : graph :=
  match g_users g !! p with
  | None => g
  | Some v =>
      let t := pull (g_ulist g) (nick_HASH (v_nick v)) p in
      g{{g_users := <[p := v{{v_nick := nk}}]> (g_users g);
         g_ulist := push t (nick_HASH nk) p}}
  end.

Definition g_free_user (p : ptr) (g : graph) : graph :=
  match g_users g !! p with
  | None => g
  | Some v => g{{g_users := delete p (g_users g);
                 g_ulist := pull (g_ulist g) (nick_HASH (v_nick v)) p}}
  end.

(** [chan_adduser]: creation, then membership with an optional status. *)
Definition g_new_chan (nm : string) (g : graph) : graph :=
  g{{g_chans ::= insert (g_next g) (mkCView nm [] [] []);
     g_clist := push (g_clist g) (chan_HASH nm) (g_next g);
     g_next := g_next g + 1}}.

Definition g_op (p c : ptr) (g : graph) : graph :=
  g{{g_chans ::= alter (fun w => w{{w_ops ::= cons p}}) c}}.
Definition g_voice (p c : ptr) (g : graph) : graph :=
  g{{g_chans ::= alter (fun w => w{{w_voices ::= cons p}}) c}}.
Definition g_deop (p c : ptr) (g : graph) : graph :=
  g{{g_chans ::= alter (fun w => w{{w_ops ::= unlink p}}) c}}.
Definition g_devoice (p c : ptr) (g : graph) : graph :=
  g{{g_chans ::= alter (fun w => w{{w_voices ::= unlink p}}) c}}.
Definition g_member (p c : ptr) (g : graph) : graph :=
  g{{g_chans ::= alter (fun w => w{{w_users ::= cons p}}) c}}.

(** The user's own list. *)
Definition g_set_chans (p : ptr) (l : list ptr) (g : graph) : graph :=
  g{{g_users ::= alter (fun v => v{{v_chans := l}}) p}}.
Definition g_link (p c : ptr) (g : graph) : graph :=
  g{{g_users ::= alter (fun v => v{{v_chans ::= cons c}}) p}}.
Definition g_unlink (p c : ptr) (g : graph) : graph :=
  g{{g_users ::= alter (fun v => v{{v_chans ::= unlink c}}) p}}.

Definition part_view (p : ptr) (w : cview) : cview :=
  w{{w_users ::= unlink p; w_ops ::= unlink p; w_voices ::= unlink p}}.

(** [chan_deluser]: the channel goes with its last user. *)
Definition g_deluser (p c : ptr) (g : graph) : graph :=
  match g_chans g !! c with
  | None => g
  | Some w =>
      match w_users (part_view p w) with
      | [] => g{{g_chans := delete c (g_chans g);
                 g_clist := pull (g_clist g) (chan_HASH (w_name w)) c}}
      | _ => g{{g_chans ::= insert c (part_view p w)}}
      end
  end.

(** The status [chan_adduser] gives a user who joins. *)
Inductive status := Plain | Opped | Voiced.
Definition g_status (st : status) (p c : ptr) (g : graph) : graph :=
  match st with Plain => g | Opped => g_op p c g | Voiced => g_voice p c g end.

#[global] Arguments g_status !st _ _ _ /.

Definition g_join (p c : ptr) (g : graph) : graph := g_link p c (g_member p c g).
Definition g_leave (p c : ptr) (g : graph) : graph := g_deluser p c (g_unlink p c g).
Definition g_leave_all (p : ptr) (l : list ptr) (g : graph) : graph :=
  fold_left (fun g c => g_deluser p c g) l g.

(** ** Bucket tables *)
Lemma bucket_push t h p h' :
  bucket (push t h p) h' = if decide (h' = h) then p :: bucket t h else bucket t h'.
Proof.
  unfold push, bucket. destruct (decide (h' = h)) as [->|];
    [by rewrite lookup_insert_eq|by rewrite lookup_insert_ne].
Qed.

Lemma bucket_pull t h p h' :
  bucket (pull t h p) h' = if decide (h' = h) then unlink p (bucket t h) else bucket t h'.
Proof.
  unfold pull, bucket. destruct (decide (h' = h)) as [->|];
    [by rewrite lookup_insert_eq|by rewrite lookup_insert_ne].
Qed.

Section ListOk.
Context {A : Type} (hash : string -> Z) (nm : A -> string).
Implicit Types (m : gmap ptr A).

Lemma list_ok_push m t p v :
  list_ok hash nm m t -> m !! p = None ->
  list_ok hash nm (<[p := v]> m) (push t (hash (nm v)) p).
Proof.
  intros [Hn He] Hp. split.
  - intros h. rewrite bucket_push. case_decide; [|done]. constructor; [|done].
    rewrite He. intros (? & ? & _). congruence.
  - intros h q. rewrite bucket_push. destruct (decide (q = p)) as [->|Hq].
    + rewrite lookup_insert_eq. case_decide as Hh.
      * subst. split; [intros _; eauto|intros _; constructor].
      * rewrite He. split; [intros (? & ? & _); congruence|intros (? & ? & ?); congruence].
    + rewrite lookup_insert_ne by done. case_decide as Hh; [|apply He].
      rewrite elem_of_cons, He. subst. split; [intros [->|]; done|auto].
Qed.

Lemma list_ok_pull m t p v :
  list_ok hash nm m t -> m !! p = Some v ->
  list_ok hash nm (delete p m) (pull t (hash (nm v)) p).
Proof.
  intros [Hn He] Hp. split.
  - intros h. rewrite bucket_pull. case_decide; auto using unlink_NoDup.
  - intros h q. rewrite bucket_pull. destruct (decide (q = p)) as [->|Hq].
    + rewrite lookup_delete_eq. split; [|intros (? & ? & _); done].
      case_decide as Hh; [rewrite elem_of_unlink by done; intros []; done|].
      rewrite He. intros (? & ? & ?). congruence.
    + rewrite lookup_delete_ne by done. case_decide as Hh; [|apply He].
      rewrite elem_of_unlink by done. rewrite He. subst. naive_solver.
Qed.

Lemma list_ok_alter m t p f :
  list_ok hash nm m t -> (forall v, m !! p = Some v -> nm (f v) = nm v) ->
  list_ok hash nm (alter f p m) t.
Proof.
  intros [Hn He] Hf. split; [done|]. intros h q. rewrite He.
  destruct (decide (q = p)) as [->|Hq]; [|by rewrite lookup_alter_ne].
  rewrite lookup_alter_eq. destruct (m !! p) as [v|] eqn:E; simpl; [|naive_solver].
  split; intros (v' & Hv & Hh); simplify_eq; eexists; (split; [reflexivity|]);
    rewrite (Hf _ eq_refl) in *; done.
Qed.
End ListOk.

(** Case analysis on a lookup in an updated map. *)
Ltac map_cases :=
  repeat (match goal with
  | H : insert ?a _ _ !! ?b = _ |- _ =>
      destruct (decide (a = b)); [subst; rewrite lookup_insert_eq in H|
        rewrite lookup_insert_ne in H by done]
  | H : delete ?a _ !! ?b = _ |- _ =>
      destruct (decide (a = b)); [subst; rewrite lookup_delete_eq in H|
        rewrite lookup_delete_ne in H by done]
  | H : alter _ ?a _ !! ?b = _ |- _ =>
      destruct (decide (a = b)); [subst; rewrite lookup_alter_eq in H|
        rewrite lookup_alter_ne in H by done]
  end; simplify_option_eq).

Lemma is_Some_alter {A} (f : A -> A) (m : gmap ptr A) p q :
  is_Some (alter f p m !! q) <-> is_Some (m !! q).
Proof.
  destruct (decide (p = q)) as [->|]; [rewrite lookup_alter_eq|by rewrite lookup_alter_ne].
  by rewrite fmap_is_Some.
Qed.

Lemma alter_insert_eq' {A} (m : gmap ptr A) p v f :
  m !! p = Some v -> alter f p m = <[p := f v]> m.
Proof.
  intros H. apply map_eq. intros q. destruct (decide (p = q)) as [->|];
    [by rewrite lookup_alter_eq, lookup_insert_eq, H|by rewrite lookup_alter_ne, lookup_insert_ne].
Qed.

(** ** Pointer soundness *)
Section HeapOk.
Implicit Types (g : graph).

Lemma heap_ok_alter_chan g c f :
  (forall w, w_name (f w) = w_name w) ->
  (forall w p, g_chans g !! c = Some w ->
     p ∈ w_users (f w) \/ p ∈ w_ops (f w) \/ p ∈ w_voices (f w) -> is_Some (g_users g !! p)) ->
  heap_ok g -> heap_ok (g{{g_chans ::= alter f c}}).
Proof.
  intros Hn Hp []. split; simpl; try done.
  - intros p. rewrite is_Some_alter. auto.
  - apply list_ok_alter; auto.
  - intros c' w H. map_cases; rewrite ?Hn; eauto.
  - intros p v c' Hv Hc. rewrite is_Some_alter. eauto.
  - intros c' w p H Hin. map_cases; eauto.
Qed.

Lemma heap_ok_alter_user g p f :
  (forall v, v_nick (f v) = v_nick v) ->
  (forall v, g_users g !! p = Some v -> host_ok (v_host v) = true -> host_ok (v_host (f v)) = true) ->
  (forall v c, g_users g !! p = Some v -> c ∈ v_chans (f v) -> is_Some (g_chans g !! c)) ->
  heap_ok g -> heap_ok (g{{g_users ::= alter f p}}).
Proof.
  intros Hn Hh Hp []. split; simpl; try done.
  - intros q. rewrite is_Some_alter. auto.
  - apply list_ok_alter; auto.
  - intros q v H. map_cases; rewrite ?Hn; eauto.
  - intros q v H. map_cases; eauto.
  - intros q v c H Hc. map_cases; eauto.
  - intros c w q Hw Hin. rewrite is_Some_alter. eauto.
Qed.

Lemma heap_ok_new_user g nk :
  no_nul nk = true -> heap_ok g -> heap_ok (g_new_user nk g).
Proof.
  intros Hnk []. assert (Hf : g_users g !! g_next g = None).
  { destruct (g_users g !! g_next g) eqn:E; [|done].
    specialize (ho_addr0 (g_next g)). rewrite E in ho_addr0.
    destruct ho_addr0; [by left; eauto|lia]. }
  split; simpl; try done; [lia|..].
  - intros p [[v H]|H]; [map_cases; [lia|]|];
      [specialize (ho_addr0 p ltac:(left; eauto))|specialize (ho_addr0 p ltac:(by right))]; lia.
  - by apply (list_ok_push nick_HASH v_nick _ _ _ (mkUView nk "" "" [])).
  - intros p v H. map_cases; eauto.
  - intros p v H. map_cases; eauto.
  - intros p v c H Hc. map_cases; [by apply elem_of_nil in Hc|eauto].
  - intros c w p H Hin. destruct (decide (p = g_next g)) as [->|];
      [rewrite lookup_insert_eq; eauto|rewrite lookup_insert_ne by done; eauto].
Qed.

Lemma heap_ok_new_chan g nm :
  no_nul nm = true -> heap_ok g -> heap_ok (g_new_chan nm g).
Proof.
  intros Hnk []. assert (Hf : g_chans g !! g_next g = None).
  { destruct (g_chans g !! g_next g) eqn:E; [|done].
    specialize (ho_addr0 (g_next g)). rewrite E in ho_addr0.
    destruct ho_addr0; [by right; eauto|lia]. }
  split; simpl; try done; [lia|..].
  - intros p [H|[v H]]; [|map_cases; [lia|]];
      [specialize (ho_addr0 p ltac:(by left))|specialize (ho_addr0 p ltac:(right; eauto))]; lia.
  - by apply (list_ok_push chan_HASH w_name _ _ _ (mkCView nm [] [] [])).
  - intros p v H. map_cases; eauto.
  - intros p v c H Hin. destruct (decide (c = g_next g)) as [->|];
      [rewrite lookup_insert_eq; eauto|rewrite lookup_insert_ne by done; eauto].
  - intros c w p H Hc. map_cases; [|eauto].
    simpl in Hc. destruct Hc as [Hc|[Hc|Hc]]; by apply elem_of_nil in Hc.
Qed.

Lemma heap_ok_rename g p nk :
  no_nul nk = true -> heap_ok g -> heap_ok (g_rename p nk g).
Proof.
  intros Hnk Hg. unfold g_rename. destruct (g_users g !! p) as [v|] eqn:Hp; [|done].
  destruct Hg. split; simpl; try done.
  - intros q Hq. apply ho_addr0. destruct Hq as [[v' H]|H]; [map_cases; left; eauto|by right].
  - rewrite <- insert_delete_eq.
    apply (list_ok_push nick_HASH v_nick _ _ _
      (mkUView nk (v_username v) (v_host v) (v_chans v))); [|apply lookup_delete_eq].
    by apply list_ok_pull.
  - intros q v' H. map_cases; eauto.
  - intros q v' H. map_cases; simpl; eauto.
  - intros q v' c H Hc. map_cases; eauto.
  - intros c w q H Hin. destruct (decide (q = p)) as [->|];
      [rewrite lookup_insert_eq; eauto|rewrite lookup_insert_ne by done; eauto].
Qed.

(** A user nothing refers to may be freed. *)
Lemma heap_ok_free_user g p :
  (forall c w, g_chans g !! c = Some w -> (p ∉ w_users w) /\ (p ∉ w_ops w) /\ (p ∉ w_voices w)) ->
  heap_ok g -> heap_ok (g_free_user p g).
Proof.
  intros Hr Hg. unfold g_free_user. destruct (g_users g !! p) as [v|] eqn:Hp; [|done].
  destruct Hg. split; simpl; try done.
  - intros q Hq. apply ho_addr0. destruct Hq as [[v' H]|H]; [map_cases; left; eauto|by right].
  - by apply list_ok_pull.
  - intros q v' H. map_cases; eauto.
  - intros q v' H. map_cases; eauto.
  - intros q v' c H Hc. map_cases; eauto.
  - intros c w q H Hin. destruct (decide (q = p)) as [->|];
      [|rewrite lookup_delete_ne by done; eauto].
    destruct (Hr _ _ H) as (? & ? & ?). naive_solver.
Qed.

Lemma heap_ok_member g p c : is_Some (g_users g !! p) -> heap_ok g -> heap_ok (g_member p c g).
Proof.
  intros Hp Hg. apply heap_ok_alter_chan; [done| |done]. simpl. intros w q Hw Hq.
  rewrite elem_of_cons in Hq. destruct Hq as [[->|Hq]|Hq]; [done|..];
    eapply (ho_users g Hg); eauto.
Qed.

Lemma heap_ok_op g p c : is_Some (g_users g !! p) -> heap_ok g -> heap_ok (g_op p c g).
Proof.
  intros Hp Hg. apply heap_ok_alter_chan; [done| |done]. simpl. intros w q Hw Hq.
  rewrite elem_of_cons in Hq. destruct Hq as [Hq|[[->|Hq]|Hq]]; [|done|..];
    eapply (ho_users g Hg); eauto.
Qed.

Lemma heap_ok_voice g p c : is_Some (g_users g !! p) -> heap_ok g -> heap_ok (g_voice p c g).
Proof.
  intros Hp Hg. apply heap_ok_alter_chan; [done| |done]. simpl. intros w q Hw Hq.
  rewrite elem_of_cons in Hq. destruct Hq as [Hq|[Hq|[->|Hq]]]; [..|done|];
    eapply (ho_users g Hg); eauto.
Qed.

Lemma heap_ok_deop g p c : heap_ok g -> heap_ok (g_deop p c g).
Proof.
  intros Hg. apply heap_ok_alter_chan; [done| |done]. simpl. intros w q Hw Hq.
  eapply (ho_users g Hg); [done|]. destruct Hq as [Hq|[Hq|Hq]]; eauto with services.
Qed.

Lemma heap_ok_devoice g p c : heap_ok g -> heap_ok (g_devoice p c g).
Proof.
  intros Hg. apply heap_ok_alter_chan; [done| |done]. simpl. intros w q Hw Hq.
  eapply (ho_users g Hg); [done|]. destruct Hq as [Hq|[Hq|Hq]]; eauto with services.
Qed.

Lemma heap_ok_link g p c : is_Some (g_chans g !! c) -> heap_ok g -> heap_ok (g_link p c g).
Proof.
  intros Hc Hg. apply heap_ok_alter_user; [done|done| |done]. simpl. intros v c' Hv Hin.
  apply elem_of_cons in Hin as [->|Hin]; [done|]. by eapply (ho_chans g Hg).
Qed.

Lemma heap_ok_unlink g p c : heap_ok g -> heap_ok (g_unlink p c g).
Proof.
  intros Hg. apply heap_ok_alter_user; [done|done| |done]. simpl. intros v c' Hv Hin.
  apply unlink_subseteq in Hin. by eapply (ho_chans g Hg).
Qed.

(** A channel no user refers to may be freed. *)
Lemma heap_ok_free_chan g c w :
  g_chans g !! c = Some w ->
  (forall p v, g_users g !! p = Some v -> c ∉ v_chans v) -> heap_ok g ->
  heap_ok (g{{g_chans := delete c (g_chans g);
              g_clist := pull (g_clist g) (chan_HASH (w_name w)) c}}).
Proof.
  intros Hc Hr []. split; simpl; try done.
  - intros q Hq. apply ho_addr0. destruct Hq as [H|[v' H]]; [by left|map_cases; right; eauto].
  - by apply list_ok_pull.
  - intros q v' H. map_cases; eauto.
  - intros q v' c' H Hc'. destruct (decide (c' = c)) as [->|];
      [by destruct (Hr _ _ H)|rewrite lookup_delete_ne by done; eauto].
  - intros c' w' q H Hin. map_cases; eauto.
Qed.
End HeapOk.

(** ** Membership *)
Section Members.
Implicit Types (g : graph).

Lemma heap_ok_status st g p c :
  is_Some (g_users g !! p) -> heap_ok g -> heap_ok (g_status st p c g).
Proof. destruct st; simpl; auto using heap_ok_op, heap_ok_voice. Qed.

Lemma g_users_status st g p c : g_users (g_status st p c g) = g_users g.
Proof. by destruct st. Qed.

Lemma is_Some_chans_status st g p c c' :
  is_Some (g_chans (g_status st p c g) !! c') <-> is_Some (g_chans g !! c').
Proof. destruct st; simpl; [done|apply is_Some_alter..]. Qed.

Lemma members_but g c : members_ok g -> counts_ok g /\ inhabited_but c g.
Proof. intros [Hc Hi]. split; [done|]. intros c' w _. apply Hi. Qed.

(** Joining: the user enters the channel's list, with a status or not, and
    the channel the user's. *)
Lemma graph_ok_join st g p c :
  heap_ok g -> counts_ok g -> inhabited_but c g ->
  is_Some (g_users g !! p) -> is_Some (g_chans g !! c) ->
  graph_ok (g_join p c (g_status st p c g)).
Proof.
  intros Hg Hm Hi Hp Hc. split; [|split; [split|]].
  - apply heap_ok_link; [simpl; by rewrite is_Some_alter, is_Some_chans_status|].
    apply heap_ok_member; [by rewrite g_users_status|]. by apply heap_ok_status.
  - simpl. rewrite g_users_status. intros q v c' w Hv Hw.
    destruct st; simpl in Hw; map_cases; simpl; repeat case_decide; simplify_eq; try done;
      rewrite ?Nat.add_0_l; try apply (f_equal S); by eapply (mo_count g Hm).
  - simpl. intros c' w q Hw. destruct st; simpl in Hw; map_cases; simpl;
      match goal with H : g_chans g !! _ = Some ?w |- _ => pose proof (mo_ops g Hm _ w q H) end;
      repeat case_decide; lia.
  - simpl. intros c' w q Hw. destruct st; simpl in Hw; map_cases; simpl;
      match goal with H : g_chans g !! _ = Some ?w |- _ => pose proof (mo_voices g Hm _ w q H) end;
      repeat case_decide; lia.
  - simpl. intros c' w Hw. destruct st; simpl in Hw; map_cases; simpl; try done; eauto.
Qed.

Lemma g_next_fresh_chan g : heap_ok g -> g_chans g !! g_next g = None.
Proof.
  intros Hg. destruct (g_chans g !! g_next g) eqn:E; [|done].
  destruct (ho_addr g Hg (g_next g)); [right; eauto|lia].
Qed.

Lemma g_next_fresh_user g : heap_ok g -> g_users g !! g_next g = None.
Proof.
  intros Hg. destruct (g_users g !! g_next g) eqn:E; [|done].
  destruct (ho_addr g Hg (g_next g)); [left; eauto|lia].
Qed.

Lemma new_chan_members g nm :
  heap_ok g -> members_ok g ->
  counts_ok (g_new_chan nm g) /\ inhabited_but (g_next g) (g_new_chan nm g).
Proof.
  intros Hg [[] Hi]. split; [split|]; simpl.
  - intros p v c w Hv Hw. map_cases; [|eauto]. simpl. symmetry. apply cnt_zero. intros Hin.
    destruct (ho_chans g Hg _ _ _ Hv Hin) as [w Hw].
    rewrite g_next_fresh_chan in Hw by done. done.
  - intros c w p Hw. map_cases; [done|eauto].
  - intros c w p Hw. map_cases; [done|eauto].
  - intros c w Hc Hw. simpl in Hw. map_cases. eauto.
Qed.

Lemma graph_ok_new_user g nk :
  no_nul nk = true -> graph_ok g -> graph_ok (g_new_user nk g).
Proof.
  intros Hnk (Hg & [] & Hi). split; [by apply heap_ok_new_user|]. split; [split|]; simpl; eauto.
  intros p v c w Hv Hw. map_cases; [|eauto]. simpl. apply cnt_zero. intros Hin.
  destruct (ho_users g Hg c w (g_next g) Hw) as [v Hv]; [auto|].
  rewrite g_next_fresh_user in Hv by done. done.
Qed.

Lemma graph_ok_rename g p nk :
  no_nul nk = true -> graph_ok g -> graph_ok (g_rename p nk g).
Proof.
  intros Hnk (Hg & [] & Hi). split; [by apply heap_ok_rename|]. unfold g_rename.
  destruct (g_users g !! p) as [v|] eqn:Hp; [|by repeat split].
  split; [split|]; simpl; eauto. intros q v' c w Hv Hw. map_cases; eauto.
Qed.

(** A change to a member's own fields other than nick and channels. *)
Lemma graph_ok_alter_user g p f :
  (forall v, v_nick (f v) = v_nick v) -> (forall v, v_chans (f v) = v_chans v) ->
  (forall v, g_users g !! p = Some v -> host_ok (v_host v) = true -> host_ok (v_host (f v)) = true) ->
  graph_ok g -> graph_ok (g{{g_users ::= alter f p}}).
Proof.
  intros Hn Hc Hh (Hg & [] & Hi). split.
  - apply heap_ok_alter_user; [done|done| |done]. intros v c Hv. rewrite Hc. by eapply (ho_chans g).
  - split; [split|]; simpl; eauto. intros q v c w Hv Hw. map_cases; rewrite ?Hc; eauto.
Qed.

Lemma graph_ok_op g p c w :
  g_chans g !! c = Some w -> (cnt p (w_ops w) < cnt p (w_users w))%nat ->
  graph_ok g -> graph_ok (g_op p c g).
Proof.
  intros Hc Hlt (Hg & [] & Hi). split.
  - apply heap_ok_op; [|done]. eapply (ho_users g Hg c w); [done|]. left. apply cnt_pos. lia.
  - split; [split|]; simpl.
    + intros q v c' w' Hv Hw. map_cases; simpl; eauto.
    + intros c' w' q Hw. map_cases; simpl; eauto; lia.
    + intros c' w' q Hw. map_cases; simpl; eauto.
    + intros c' w' Hw. map_cases; simpl; eauto.
Qed.

Lemma graph_ok_voice g p c w :
  g_chans g !! c = Some w -> (cnt p (w_voices w) < cnt p (w_users w))%nat ->
  graph_ok g -> graph_ok (g_voice p c g).
Proof.
  intros Hc Hlt (Hg & [] & Hi). split.
  - apply heap_ok_voice; [|done]. eapply (ho_users g Hg c w); [done|]. left. apply cnt_pos. lia.
  - split; [split|]; simpl.
    + intros q v c' w' Hv Hw. map_cases; simpl; eauto.
    + intros c' w' q Hw. map_cases; simpl; eauto.
    + intros c' w' q Hw. map_cases; simpl; eauto; lia.
    + intros c' w' Hw. map_cases; simpl; eauto.
Qed.

Lemma cnt_unlink_le (p q : ptr) l : (cnt q (unlink p l) <= cnt q l)%nat.
Proof.
  destruct (decide (q = p)) as [->|]; [rewrite cnt_unlink_same|rewrite cnt_unlink_other]; lia || done.
Qed.

Lemma graph_ok_deop g p c : graph_ok g -> graph_ok (g_deop p c g).
Proof.
  intros (Hg & [] & Hi). split; [by apply heap_ok_deop|]. split; [split|]; simpl.
  - intros q v c' w' Hv Hw. map_cases; simpl; eauto.
  - intros c' w' q Hw. map_cases; simpl; eauto. etrans; [apply cnt_unlink_le|eauto].
  - intros c' w' q Hw. map_cases; simpl; eauto.
  - intros c' w' Hw. map_cases; simpl; eauto.
Qed.

Lemma graph_ok_devoice g p c : graph_ok g -> graph_ok (g_devoice p c g).
Proof.
  intros (Hg & [] & Hi). split; [by apply heap_ok_devoice|]. split; [split|]; simpl.
  - intros q v c' w' Hv Hw. map_cases; simpl; eauto.
  - intros c' w' q Hw. map_cases; simpl; eauto.
  - intros c' w' q Hw. map_cases; simpl; eauto. etrans; [apply cnt_unlink_le|eauto].
  - intros c' w' Hw. map_cases; simpl; eauto.
Qed.
End Members.

(** ** Leaving *)
Section Leave.
Implicit Types (g : graph).

Lemma unlink_nil_cnt (p q : ptr) l : unlink p l = [] -> p ∈ l -> cnt q l = if decide (p = q) then 1%nat else 0%nat.
Proof.
  intros Hu Hp. destruct (decide (p = q)) as [->|Hq].
  - apply cnt_pos in Hp. pose proof (cnt_unlink_same q l) as H. rewrite Hu in H. simpl in H. lia.
  - rewrite <- (cnt_unlink_other q p) by done. by rewrite Hu.
Qed.

Lemma cnt_part (p q : ptr) l :
  cnt q (unlink p l) = if decide (p = q) then Nat.pred (cnt q l) else cnt q l.
Proof.
  destruct (decide (p = q)) as [->|]; [apply cnt_unlink_same|].
  by rewrite cnt_unlink_other.
Qed.

(** The user leaves a channel that keeps other users. *)
Lemma leave_members_stay g p c w :
  g_chans g !! c = Some w -> unlink p (w_users w) <> [] -> counts_ok g ->
  (forall v, g_users g !! p = Some v -> c ∈ v_chans v) -> is_Some (g_users g !! p) ->
  counts_ok ((g_unlink p c g){{g_chans ::= insert c (part_view p w)}}).
Proof.
  intros Hc Hne [] Hin Hp. split; simpl.
  - intros q v c' w' Hv Hw.
    map_cases; simpl; rewrite ?cnt_unlink_same; rewrite ?cnt_unlink_other by done;
      try apply (f_equal Nat.pred); by eapply mo_count0.
  - intros c' w' q Hw. map_cases; simpl; eauto. rewrite !cnt_part.
    specialize (mo_ops0 _ w q Hc). case_decide; lia.
  - intros c' w' q Hw. map_cases; simpl; eauto. rewrite !cnt_part.
    specialize (mo_voices0 _ w q Hc). case_decide; lia.
Qed.

(** The last user leaves: nobody refers to the channel any more. *)
Lemma leave_members_last g p c w :
  g_chans g !! c = Some w -> unlink p (w_users w) = [] -> counts_ok g ->
  (forall v, g_users g !! p = Some v -> c ∈ v_chans v) -> is_Some (g_users g !! p) ->
  counts_ok ((g_unlink p c g){{g_chans ::= delete c}}) /\
  forall q v, g_users (g_unlink p c g) !! q = Some v -> c ∉ v_chans v.
Proof.
  intros Hc Hne [] Hin [v Hp]. specialize (Hin v Hp).
  assert (Hpu : p ∈ w_users w) by (rewrite <- cnt_pos, (mo_count0 p v c w), cnt_pos; done).
  split; [split; simpl|].
  - intros q v' c' w' Hv Hw. map_cases; simpl; rewrite ?cnt_unlink_other by done; by eapply mo_count0.
  - intros c' w' q Hw. map_cases. eauto.
  - intros c' w' q Hw. map_cases. eauto.
  - simpl. intros q v' Hv. apply cnt_zero. pose proof (unlink_nil_cnt p q _ Hne Hpu) as H1.
    map_cases; simpl; rewrite ?cnt_unlink_same, <- (mo_count0 _ _ _ _ ltac:(done) Hc); lia.
Qed.

Lemma graph_ok_leave g p v c :
  graph_ok g -> g_users g !! p = Some v -> c ∈ v_chans v -> graph_ok (g_leave p c g).
Proof.
  intros (Hg & Hm & Hi) Hp Hin. unfold g_leave, g_deluser.
  destruct (ho_chans g Hg _ _ _ Hp Hin) as [w Hc].
  change (g_chans (g_unlink p c g)) with (g_chans g). rewrite Hc. cbn [w_users part_view].
  assert (Hin' : forall v, g_users g !! p = Some v -> c ∈ v_chans v) by naive_solver.
  change (w_users (part_view p w)) with (unlink p (w_users w)).
  pose proof (heap_ok_unlink g p c Hg) as Hu.
  destruct (unlink p (w_users w)) as [|q l] eqn:E.
  - destruct (leave_members_last g p c w Hc E Hm Hin' ltac:(eauto)) as [Hm' Hr].
    split; [by apply (heap_ok_free_chan (g_unlink p c g))|]. split; [by destruct Hm'; split|].
    simpl. intros c' w' Hw. map_cases. eauto.
  - assert (Hne : unlink p (w_users w) <> []) by (rewrite E; done). split; [|split].
    + pose proof (heap_ok_alter_chan (g_unlink p c g) c (part_view p)) as Ha.
      unfold g_unlink in *. simpl in *. rewrite (alter_insert_eq' (g_chans g) c w) in Ha by done.
      apply Ha; [done| |done]. intros w' q' Hw' Hq. rewrite is_Some_alter. simplify_eq.
      eapply (ho_users g Hg); [done|]. destruct Hq as [Hq|[Hq|Hq]]; eauto with services.
    + by apply leave_members_stay; eauto.
    + simpl. intros c' w' Hw. map_cases; eauto.
Qed.

Lemma g_set_chans_deluser p c l g : g_set_chans p l (g_deluser p c g) = g_deluser p c (g_set_chans p l g).
Proof. unfold g_deluser, g_set_chans. simpl. repeat case_match; simplify_eq; done. Qed.

Lemma g_set_chans_unlink p c l g :
  g_unlink p c (g_set_chans p (c :: l) g) = g_set_chans p l g.
Proof.
  destruct g as [us cs ul cl nx]. unfold g_unlink, g_set_chans. simpl. f_equal.
  rewrite alter_alter_eq. apply alter_ext. intros v _. simpl. by rewrite unlink_head.
Qed.

Lemma lookup_set_chans p l g :
  g_users (g_set_chans p l g) !! p = (fun v => v{{v_chans := l}}) <$> g_users g !! p.
Proof. apply lookup_alter_eq. Qed.

Lemma g_users_deluser p c g : g_users (g_deluser p c g) = g_users g.
Proof. unfold g_deluser. by repeat case_match. Qed.

Lemma graph_ok_leave_step g p c l :
  is_Some (g_users g !! p) -> graph_ok (g_set_chans p (c :: l) g) ->
  graph_ok (g_set_chans p l (g_deluser p c g)).
Proof.
  intros [v Hp] Hg. rewrite g_set_chans_deluser, <- (g_set_chans_unlink p c).
  eapply graph_ok_leave; [done|..]; simpl; [by rewrite lookup_alter_eq, Hp|constructor].
Qed.

(** Leaving every channel of a list, the user's own list emptied at the end. *)
Lemma graph_ok_leave_all g p l :
  is_Some (g_users g !! p) -> graph_ok (g_set_chans p l g) ->
  graph_ok (g_set_chans p [] (g_leave_all p l g)) /\ g_users (g_leave_all p l g) = g_users g.
Proof.
  revert g. induction l as [|c l IH]; intros g Hp Hg; simpl; [done|].
  unfold g_leave_all in *. destruct (IH (g_deluser p c g)) as [H1 H2].
  - by rewrite g_users_deluser.
  - by apply graph_ok_leave_step.
  - split; [done|]. by rewrite H2, g_users_deluser.
Qed.

Lemma g_set_chans_id g p v : g_users g !! p = Some v -> g_set_chans p (v_chans v) g = g.
Proof.
  intros Hp. destruct g as [us cs ul cl nx]. unfold g_set_chans. simpl in *. f_equal.
  erewrite alter_insert_eq' by done. apply insert_id. rewrite Hp. by destruct v.
Qed.

(** A user on no channel may be freed. *)
Lemma graph_ok_free_user g p :
  graph_ok (g_set_chans p [] g) -> graph_ok (g_free_user p g).
Proof.
  intros (Hg & Hm & Hi).
  assert (Hf : g_free_user p (g_set_chans p [] g) = g_free_user p g).
  { unfold g_free_user, g_set_chans. simpl. rewrite lookup_alter_eq.
    destruct (g_users g !! p) as [v|] eqn:Hp; simpl; [by rewrite delete_alter_eq|].
    unfold alter, fin_maps.map_alter. rewrite partial_alter_id by (by rewrite Hp). by destruct g. }
  rewrite <- Hf. assert (Hn : forall c w, g_chans g !! c = Some w -> is_Some (g_users g !! p) ->
    cnt p (w_users w) = 0%nat).
  { intros c w Hc [v Hp]. pose proof (mo_count _ Hm p (v{{v_chans := [] }}) c w) as H.
    simpl in H. rewrite lookup_alter_eq, Hp in H. by apply H. }
  destruct (g_users g !! p) as [v|] eqn:Hp.
  - split; [apply heap_ok_free_user; [|done]|].
    + simpl. intros c w Hc. pose proof (Hn c w Hc ltac:(eauto)).
      pose proof (mo_ops _ Hm c w p Hc). pose proof (mo_voices _ Hm c w p Hc).
      rewrite <- !cnt_zero. lia.
    + unfold g_free_user. simpl. rewrite lookup_alter_eq, Hp. simpl.
      destruct Hm as [mc mops mv]. split; [split; simpl in *|done]; [|eauto..].
      intros q v' c w Hv Hw. map_cases. eapply mc; [|done]. by rewrite lookup_alter_ne.
  - unfold g_free_user at 1. simpl. by rewrite lookup_alter_eq, Hp.
Qed.
End Leave.

(** The lookups as functions of the graph. *)
Definition g_finduser (g : graph) (nk : string) : ptr :=
  default NULL (find_first (fun p => match g_users g !! p with
    | Some v => irc_stricmp (v_nick v) nk =? 0 | None => false end)
    (bucket (g_ulist g) (nick_HASH nk))).
Definition g_findchan (g : graph) (nm : string) : ptr :=
  default NULL (find_first (fun c => match g_chans g !! c with
    | Some w => irc_stricmp (w_name w) nm =? 0 | None => false end)
    (bucket (g_clist g) (chan_HASH nm))).

(** ** The abstract machine: what may happen to the graph

    [gstep] is the specification of the network code: users appear, change
    nick, join, leave and quit, and members gain and lose status. *)
Inductive gstep (g : graph) : graph -> Prop :=
  | gs_user nk : no_nul nk = true -> gstep g (g_new_user nk g)
  | gs_identity p us hs : host_ok hs = true ->
      gstep g (g{{g_users ::= alter (fun v => v{{v_username := us; v_host := hs}}) p}})
  | gs_nick p nk : no_nul nk = true -> gstep g (g_rename p nk g)
  | gs_join p c st : is_Some (g_users g !! p) -> is_Some (g_chans g !! c) ->
      gstep g (g_join p c (g_status st p c g))
  | gs_create p nm st : is_Some (g_users g !! p) -> no_nul nm = true -> g_findchan g nm = NULL ->
      gstep g (g_join p (g_next g) (g_status st p (g_next g) (g_new_chan nm g)))
  | gs_leave p v c : g_users g !! p = Some v -> c ∈ v_chans v -> gstep g (g_leave p c g)
  | gs_leave_all p v : g_users g !! p = Some v ->
      gstep g (g_set_chans p [] (g_leave_all p (v_chans v) g))
  | gs_quit p v : g_users g !! p = Some v ->
      gstep g (g_free_user p (g_leave_all p (v_chans v) g))
  | gs_op p c w : g_chans g !! c = Some w -> p ∈ w_users w -> p ∉ w_ops w -> gstep g (g_op p c g)
  | gs_voice p c w : g_chans g !! c = Some w -> p ∈ w_users w -> p ∉ w_voices w ->
      gstep g (g_voice p c g)
  | gs_deop p c : gstep g (g_deop p c g)
  | gs_devoice p c : gstep g (g_devoice p c g).

Lemma graph_ok_gstep g g' : gstep g g' -> graph_ok g -> graph_ok g'.
Proof.
  intros Hs Hg. pose proof Hg as [Hh Hm]. destruct Hs.
  - by apply graph_ok_new_user.
  - by apply graph_ok_alter_user.
  - by apply graph_ok_rename.
  - destruct (members_but g c Hm). by apply graph_ok_join.
  - destruct (new_chan_members g nm Hh Hm).
    apply graph_ok_join; try done; [by apply heap_ok_new_chan|]. simpl. rewrite lookup_insert_eq. eauto.
  - by eapply graph_ok_leave.
  - apply graph_ok_leave_all; [eauto|]. by rewrite (g_set_chans_id g p v).
  - apply graph_ok_free_user, graph_ok_leave_all; [eauto|]. by rewrite (g_set_chans_id g p v).
  - eapply graph_ok_op; [done| |done].
    pose proof (proj2 (cnt_pos p (w_users w)) ltac:(done)).
    pose proof (proj2 (cnt_zero p (w_ops w)) ltac:(done)). lia.
  - eapply graph_ok_voice; [done| |done].
    pose proof (proj2 (cnt_pos p (w_users w)) ltac:(done)).
    pose proof (proj2 (cnt_zero p (w_voices w)) ltac:(done)). lia.
  - by apply graph_ok_deop.
  - by apply graph_ok_devoice.
Qed.

Lemma graph_ok_gsteps g g' : rtc gstep g g' -> graph_ok g -> graph_ok g'.
Proof. induction 1; eauto using graph_ok_gstep. Qed.
