(* ===== verification/Net.v ===== *)
(** The network state of Services: the [User] and [Channel] structures of
    [include/services.h], the two hash tables of [src/users.c] and
    [src/channels.c], lookups, iteration, and the interfaces ([Class]es)
    through which the network code calls the other components.

    Structures live in a store indexed by address; 0 is [NULL], and an address
    that is not in the store is a freed structure, so following it faults.
    The intrusive bucket lists and the [c_userlist]/[u_chanlist] lists are
    lists of addresses (DList.v verifies the pointer code behind them). *)

From S2P Require Import Prelude CStr Wp Graph.

Definition NICKMAX : nat := 32.
Definition CHANMAX : nat := 200.

(** User modes *)
Definition UMODE_o : Z := 1.
Definition UMODE_i : Z := 2.
Definition UMODE_s : Z := 4.
Definition UMODE_w : Z := 8.
Definition UMODE_g : Z := 16.
Definition UMODE_h : Z := 32.
Definition UMODE_a : Z := 64.
Definition UMODE_r : Z := 128.

(** Channel modes *)
Definition CMODE_i : Z := 1.
Definition CMODE_m : Z := 2.
Definition CMODE_n : Z := 4.
Definition CMODE_p : Z := 8.
Definition CMODE_s : Z := 16.
Definition CMODE_t : Z := 32.
Definition CMODE_k : Z := 64.
Definition CMODE_l : Z := 128.
Definition CMODE_R : Z := 256.
Definition CMODE_c : Z := 1024.
Definition CMODE_O : Z := 2048.
Definition CMODE_M : Z := 4096.

Record User := mkUser {
  nick : string;
  nick_id : Z;
  real_id : Z;
  server : ptr;
  username : string;
  host : string;
  realname : string;
  signon : Z;
  my_signon : Z;
  mode : Z;
  chans : list ptr;             (* u_chanlist *)
  founder_chans : list Z;       (* u_chanidlist *)
  invalid_pw_count : Z;
  invalid_pw_time : Z;
  lastmemosend : Z
}.

Record Ban := mkBan { mask : string; btime : Z }.

Record Channel := mkChannel {
  name : string;
  channel_id : Z;
  creation_time : Z;
  topic : option string;
  topic_setter : string;
  topic_time : Z;
  cmode : Z;
  limit : Z;
  key : option string;
  bansize : Z;
  newbans : list Ban;           (* bancount is its length *)
  users : list ptr;
  chanops : list ptr;
  voices : list ptr;
  server_modetime : Z;
  chanserv_modetime : Z;
  server_modecount : Z;
  chanserv_modecount : Z;
  bouncy_modes : Z;
  last_limit_time : Z;
  limit_offset : Z;
  limit_tolerance : Z;
  limit_period : Z;
  bantime : Z;
  floodserv : Z
}.

(** What Services sends: [send_cmd], [notice]/[notice_lang] and [wallops]. *)
Inductive Msg :=
  | Cmd (source : option string) (text : string)
  | Notice (source dest text : string)
  | Wallops (source : option string) (text : string).

Record Net {E : Type} := mkNet {
  users_heap : gmap ptr User;
  chans_heap : gmap ptr Channel;
  userlist : gmap Z (list ptr);
  chanlist : gmap Z (list ptr);
  next_addr : Z;                (* the allocator: every address in use is below *)
  usercnt : Z;
  opcnt : Z;
  maxusercnt : Z;
  maxusertime : Z;
  u_current : ptr;              (* static User *current; next_index of users.c *)
  u_next_index : Z;
  c_current : ptr;              (* ... and of channels.c *)
  c_next_index : Z;
  lastmodes : string;           (* static in do_cmode *)
  now : Z;                      (* what time (NULL) returns *)
  out : list Msg;               (* messages sent, the last one first *)
  ext : E                       (* the state of the other components *)
}.
Arguments Net : clear implicits.

Section Ops.
Context {E : Type}.
Implicit Types (n : Net E).

(** *** Access to the store *)
Definition load_user (p : ptr) : M (Net E) User :=
  fun n => match users_heap n !! p with Some u => Some (u, n) | None => None end.

Definition load_chan (p : ptr) : M (Net E) Channel :=
  fun n => match chans_heap n !! p with Some c => Some (c, n) | None => None end.

Definition upd_user (p : ptr) (f : User -> User) : M (Net E) unit :=
  u ← load_user p; modify (fun n => n{{users_heap ::= insert p (f u)}}).

Definition upd_chan (p : ptr) (f : Channel -> Channel) : M (Net E) unit :=
  c ← load_chan p; modify (fun n => n{{chans_heap ::= insert p (f c)}}).

Definition emit (m : Msg) : M (Net E) unit := modify (fun n => n{{out ::= cons m}}).
Definition send_cmd (source : option string) (text : string) : M (Net E) unit :=
  emit (Cmd source text).

(** *** Lookups *)
Fixpoint finduser_loop (l : list ptr) (nk : string) : M (Net E) ptr :=
  match l with
  | [] => mret NULL
  | p :: l' =>
      u ← load_user p;
      if irc_stricmp (nick u) nk =? 0 then mret p else finduser_loop l' nk
  end.

Definition finduser (nk : string) : M (Net E) ptr :=
  l ← gets (fun n => bucket (userlist n) (nick_HASH nk)); finduser_loop l nk.

Fixpoint findchan_loop (l : list ptr) (chan : string) : M (Net E) ptr :=
  match l with
  | [] => mret NULL
  | p :: l' =>
      c ← load_chan p;
      if irc_stricmp (name c) chan =? 0 then mret p else findchan_loop l' chan
  end.

Definition findchan (chan : string) : M (Net E) ptr :=
  l ← gets (fun n => bucket (chanlist n) (chan_HASH chan)); findchan_loop l chan.

(** *** Iteration *)

(** The element after [p] in a list. *)
Fixpoint after (p : ptr) (l : list ptr) : ptr :=
  match l with
  | [] => NULL
  | q :: l' => if q =? p then hd NULL l' else after p l'
  end.

(** [while (next_index < 1024 && current == NULL) current = list[next_index++];] *)
Fixpoint seek (fuel : nat) (t : gmap Z (list ptr)) (current next_index : Z) : Z * Z :=
  match fuel with
  | O => (current, next_index)
  | S fuel' =>
      if (next_index <? 1024) && (current =? NULL) then
        seek fuel' t (hd NULL (bucket t next_index)) (next_index + 1)
      else (current, next_index)
  end.

Definition firstuser : M (Net E) ptr :=
  n ← get;
  let '(cur, i) := seek 1025 (userlist n) (u_current n) 0 in
  modify (fun n => n{{u_current := cur; u_next_index := i}});; mret cur.

Definition nextuser : M (Net E) ptr :=
  n ← get;
  cur0 ← (if u_current n =? NULL then mret NULL
          else u ← load_user (u_current n);
               mret (after (u_current n) (bucket (userlist n) (nick_HASH (nick u)))));
  let '(cur, i) := seek 1025 (userlist n) cur0 (u_next_index n) in
  modify (fun n => n{{u_current := cur; u_next_index := i}});; mret cur.

Definition firstchan : M (Net E) ptr :=
  n ← get;
  let '(cur, i) := seek 1025 (chanlist n) (c_current n) 0 in
  modify (fun n => n{{c_current := cur; c_next_index := i}});; mret cur.

Definition nextchan : M (Net E) ptr :=
  n ← get;
  cur0 ← (if c_current n =? NULL then mret NULL
          else c ← load_chan (c_current n);
               mret (after (c_current n) (bucket (chanlist n) (chan_HASH (name c)))));
  let '(cur, i) := seek 1025 (chanlist n) cur0 (c_next_index n) in
  modify (fun n => n{{c_current := cur; c_next_index := i}});; mret cur.
End Ops.

(** ** The graph of a state *)
Definition user_view (u : User) : uview := mkUView (nick u) (username u) (host u) (chans u).
Definition chan_view (c : Channel) : cview := mkCView (name c) (users c) (chanops c) (voices c).

Definition graph_of {E} (n : Net E) : graph :=
  mkGraph (user_view <$> users_heap n) (chan_view <$> chans_heap n) (userlist n) (chanlist n)
    (next_addr n) (u_current n).

(** [m] runs without a fault on a sound heap and leaves the graph alone. *)
Definition framed {E A} (m : M (Net E) A) : Prop :=
  forall n, heap_ok (graph_of n) -> wp m (fun _ n' => graph_of n' = graph_of n) n.

(** The user, or the channel, a lookup by name finds. *)
Definition nick_found (g : graph) (nk : string) (p : ptr) : Prop :=
  (p = NULL /\ forall q v, g_users g !! q = Some v -> irc_stricmp (v_nick v) nk <> 0) \/
  (p <> NULL /\ exists v, g_users g !! p = Some v /\ irc_stricmp (v_nick v) nk = 0).
Definition chan_found (g : graph) (nm : string) (c : ptr) : Prop :=
  (c = NULL /\ forall q w, g_chans g !! q = Some w -> irc_stricmp (w_name w) nm <> 0) \/
  (c <> NULL /\ exists w, g_chans g !! c = Some w /\ irc_stricmp (w_name w) nm = 0).

Section NetLemmas.
Context {E : Type}.
Implicit Types (n : Net E).

Lemma graph_user n p v :
  g_users (graph_of n) !! p = Some v <->
  exists u, users_heap n !! p = Some u /\ user_view u = v.
Proof. simpl. rewrite lookup_fmap_Some. naive_solver. Qed.

Lemma graph_chan n c w :
  g_chans (graph_of n) !! c = Some w <->
  exists ch, chans_heap n !! c = Some ch /\ chan_view ch = w.
Proof. simpl. rewrite lookup_fmap_Some. naive_solver. Qed.

Lemma is_Some_graph_user n p : is_Some (g_users (graph_of n) !! p) <-> is_Some (users_heap n !! p).
Proof. simpl. by rewrite lookup_fmap, fmap_is_Some. Qed.

Lemma is_Some_graph_chan n c : is_Some (g_chans (graph_of n) !! c) <-> is_Some (chans_heap n !! c).
Proof. simpl. by rewrite lookup_fmap, fmap_is_Some. Qed.

Lemma wp_load_user n p u Q : users_heap n !! p = Some u -> Q u n -> wp (load_user p) Q n.
Proof. intros H HQ. unfold wp, load_user. by rewrite H. Qed.

Lemma wp_load_chan n c ch Q : chans_heap n !! c = Some ch -> Q ch n -> wp (load_chan c) Q n.
Proof. intros H HQ. unfold wp, load_chan. by rewrite H. Qed.

Lemma wp_upd_user n p u f Q :
  users_heap n !! p = Some u -> Q tt (n{{users_heap ::= insert p (f u)}}) -> wp (upd_user p f) Q n.
Proof. intros H HQ. unfold upd_user. wps. by eapply wp_load_user. Qed.

Lemma wp_upd_chan n c ch f Q :
  chans_heap n !! c = Some ch -> Q tt (n{{chans_heap ::= insert c (f ch)}}) -> wp (upd_chan c f) Q n.
Proof. intros H HQ. unfold upd_chan. wps. by eapply wp_load_chan. Qed.

(** A store to a user changes the graph at that user only. *)
Lemma graph_upd_user n p u f h :
  users_heap n !! p = Some u -> (forall u, user_view (f u) = h (user_view u)) ->
  graph_of (n{{users_heap ::= insert p (f u)}}) = (graph_of n){{g_users ::= alter h p}}.
Proof.
  intros Hp Hh. unfold graph_of. simpl. f_equal. rewrite fmap_insert, Hh. symmetry.
  apply alter_insert_eq'. by rewrite lookup_fmap, Hp.
Qed.

Lemma graph_upd_chan n c ch f h :
  chans_heap n !! c = Some ch -> (forall ch, chan_view (f ch) = h (chan_view ch)) ->
  graph_of (n{{chans_heap ::= insert c (f ch)}}) = (graph_of n){{g_chans ::= alter h c}}.
Proof.
  intros Hp Hh. unfold graph_of. simpl. f_equal. rewrite fmap_insert, Hh. symmetry.
  apply alter_insert_eq'. by rewrite lookup_fmap, Hp.
Qed.

Lemma graph_upd_user_id n p u u' :
  users_heap n !! p = Some u -> user_view u' = user_view u ->
  graph_of (n{{users_heap ::= insert p u'}}) = graph_of n.
Proof.
  intros Hp Hh. unfold graph_of. simpl. f_equal. rewrite fmap_insert, Hh.
  apply insert_id. by rewrite lookup_fmap, Hp.
Qed.

Lemma graph_upd_chan_id n c ch ch' :
  chans_heap n !! c = Some ch -> chan_view ch' = chan_view ch ->
  graph_of (n{{chans_heap ::= insert c ch'}}) = graph_of n.
Proof.
  intros Hp Hh. unfold graph_of. simpl. f_equal. rewrite fmap_insert, Hh.
  apply insert_id. by rewrite lookup_fmap, Hp.
Qed.
End NetLemmas.

(** *** Hashing respects the comparison: names that compare equal share a bucket. *)
Lemma code_tolower_land c : code (tolower c) .& 31 = code c .& 31.
Proof.
  by_all_ascii (fun c => (code (tolower c) .& 31) =? (code c .& 31)).
  by apply Z.eqb_eq.
Qed.

Lemma stricmp_char_at s1 s2 i :
  no_nul s1 = true -> no_nul s2 = true -> irc_stricmp s1 s2 = 0 ->
  tolower (char_at s1 i) = tolower (char_at s2 i).
Proof.
  intros H1 H2 H. apply (irc_stricmp_0 _ _ H1 H2) in H. clear H1 H2. revert s1 s2 H.
  induction i as [|i IH]; intros [|a s1] [|b s2]; unfold strlower; simpl; intros H;
    simplify_eq; try done.
  by apply IH.
Qed.

Lemma nick_HASH_eq s1 s2 :
  no_nul s1 = true -> no_nul s2 = true -> irc_stricmp s1 s2 = 0 -> nick_HASH s1 = nick_HASH s2.
Proof.
  intros H1 H2 H. unfold nick_HASH.
  rewrite <- (code_tolower_land (char_at s1 0)), <- (code_tolower_land (char_at s1 1)).
  by rewrite !(stricmp_char_at s1 s2), !code_tolower_land.
Qed.

Lemma chan_HASH_eq s1 s2 :
  no_nul s1 = true -> no_nul s2 = true -> irc_stricmp s1 s2 = 0 -> chan_HASH s1 = chan_HASH s2.
Proof.
  intros H1 H2 H. unfold chan_HASH. pose proof (stricmp_char_at s1 s2 1 H1 H2 H) as E1.
  assert (HN : Ascii.eqb (char_at s1 1) NUL = Ascii.eqb (char_at s2 1) NUL).
  { apply eq_iff_eq_true. rewrite !ascii_eqb_true, <- (tolower_NUL (char_at s1 1)), E1.
    by rewrite tolower_NUL. }
  rewrite HN, <- (code_tolower_land (char_at s1 1)), <- (code_tolower_land (char_at s1 2)).
  by rewrite E1, (stricmp_char_at s1 s2), !code_tolower_land.
Qed.

Section Lookup.
Context {E : Type}.
Implicit Types (n : Net E).

Lemma finduser_loop_spec n nk l :
  (forall p, p ∈ l -> p <> NULL /\ is_Some (users_heap n !! p)) ->
  wp (finduser_loop l nk) (fun p n' => n' = n /\
    ((p = NULL /\ forall q u, q ∈ l -> users_heap n !! q = Some u -> irc_stricmp (nick u) nk <> 0) \/
     (p <> NULL /\ p ∈ l /\ exists u, users_heap n !! p = Some u /\ irc_stricmp (nick u) nk = 0))) n.
Proof.
  induction l as [|p l IH]; intros Hl; simpl.
  - apply wp_ret. split; [done|]. left. split; [done|]. intros q u Hq. by apply elem_of_nil in Hq.
  - destruct (Hl p ltac:(constructor)) as [Hp [u Hu]]. apply wp_bind. eapply wp_load_user; [done|].
    destruct (irc_stricmp (nick u) nk =? 0) eqn:Ec.
    + apply wp_ret. split; [done|]. right. apply Z.eqb_eq in Ec.
      split_and!; [done|by constructor|eauto].
    + eapply wp_mono; [apply IH; intros q Hq; apply Hl; by constructor|].
      intros r n' [-> [[-> Hn]|(Hr & Hrl & Hru)]]; (split; [done|]).
      * left. split; [done|]. intros q u' Hq Hu'. apply elem_of_cons in Hq as [->|Hq]; [|by eapply Hn].
        apply Z.eqb_neq in Ec. congruence.
      * right. split_and!; [done|by constructor|done].
Qed.

Lemma bucket_users n h p :
  heap_ok (graph_of n) ->
  p ∈ bucket (userlist n) h <-> exists u, users_heap n !! p = Some u /\ nick_HASH (nick u) = h.
Proof.
  intros Hg. rewrite (lo_elem _ _ _ _ (ho_ulist _ Hg) h p).
  setoid_rewrite graph_user. naive_solver.
Qed.

Lemma bucket_chans n h c :
  heap_ok (graph_of n) ->
  c ∈ bucket (chanlist n) h <-> exists ch, chans_heap n !! c = Some ch /\ chan_HASH (name ch) = h.
Proof.
  intros Hg. rewrite (lo_elem _ _ _ _ (ho_clist _ Hg) h c).
  setoid_rewrite graph_chan. naive_solver.
Qed.

Lemma user_addr n p u : heap_ok (graph_of n) -> users_heap n !! p = Some u -> p <> NULL.
Proof.
  intros Hg Hp ->. destruct (ho_addr _ Hg NULL); [|unfold NULL in *; lia].
  left. rewrite is_Some_graph_user. eauto.
Qed.

Lemma chan_addr n c ch : heap_ok (graph_of n) -> chans_heap n !! c = Some ch -> c <> NULL.
Proof.
  intros Hg Hp ->. destruct (ho_addr _ Hg NULL); [|unfold NULL in *; lia].
  right. rewrite is_Some_graph_chan. eauto.
Qed.

(** [finduser] never faults, changes nothing, and finds a user of that nick
    whenever there is one. *)
Lemma finduser_spec n nk :
  heap_ok (graph_of n) -> no_nul nk = true ->
  wp (finduser nk) (fun p n' => n' = n /\ nick_found (graph_of n) nk p) n.
Proof.
  intros Hg Hnk. unfold finduser. wps. eapply wp_mono.
  - apply finduser_loop_spec. intros p Hp. apply (bucket_users n _ p Hg) in Hp as (u & Hu & _).
    split; [by eapply user_addr|eauto].
  - intros p n' [-> [[-> Hn]|(Hp & Hl & u & Hu & Hc)]]; (split; [done|]).
    + left. split; [done|]. intros q v Hv Hc. apply graph_user in Hv as (u & Hu & <-).
      eapply Hn; [|done|done]. apply bucket_users; [done|]. exists u. split; [done|].
      apply nick_HASH_eq; [|done|done]. eapply (ho_nick _ Hg q (user_view u)), graph_user; eauto.
    + right. split; [done|]. exists (user_view u). split; [apply graph_user; eauto|done].
Qed.

Lemma findchan_loop_spec n nm l :
  (forall c, c ∈ l -> c <> NULL /\ is_Some (chans_heap n !! c)) ->
  wp (findchan_loop l nm) (fun c n' => n' = n /\
    ((c = NULL /\ forall q ch, q ∈ l -> chans_heap n !! q = Some ch -> irc_stricmp (name ch) nm <> 0) \/
     (c <> NULL /\ c ∈ l /\ exists ch, chans_heap n !! c = Some ch /\ irc_stricmp (name ch) nm = 0))) n.
Proof.
  induction l as [|c l IH]; intros Hl; simpl.
  - apply wp_ret. split; [done|]. left. split; [done|]. intros q u Hq. by apply elem_of_nil in Hq.
  - destruct (Hl c ltac:(constructor)) as [Hp [ch Hu]]. apply wp_bind. eapply wp_load_chan; [done|].
    destruct (irc_stricmp (name ch) nm =? 0) eqn:Ec.
    + apply wp_ret. split; [done|]. right. apply Z.eqb_eq in Ec.
      split_and!; [done|by constructor|eauto].
    + eapply wp_mono; [apply IH; intros q Hq; apply Hl; by constructor|].
      intros r n' [-> [[-> Hn]|(Hr & Hrl & Hru)]]; (split; [done|]).
      * left. split; [done|]. intros q u' Hq Hu'. apply elem_of_cons in Hq as [->|Hq]; [|by eapply Hn].
        apply Z.eqb_neq in Ec. congruence.
      * right. split_and!; [done|by constructor|done].
Qed.

Lemma findchan_spec n nm :
  heap_ok (graph_of n) -> no_nul nm = true ->
  wp (findchan nm) (fun c n' => n' = n /\ chan_found (graph_of n) nm c) n.
Proof.
  intros Hg Hnk. unfold findchan. wps. eapply wp_mono.
  - apply findchan_loop_spec. intros p Hp. apply (bucket_chans n _ p Hg) in Hp as (u & Hu & _).
    split; [by eapply chan_addr|eauto].
  - intros p n' [-> [[-> Hn]|(Hp & Hl & u & Hu & Hc)]]; (split; [done|]).
    + left. split; [done|]. intros q v Hv Hc. apply graph_chan in Hv as (u & Hu & <-).
      eapply Hn; [|done|done]. apply bucket_chans; [done|]. exists u. split; [done|].
      apply chan_HASH_eq; [|done|done]. eapply (ho_name _ Hg q (chan_view u)), graph_chan; eauto.
    + right. split; [done|]. exists (chan_view u). split; [apply graph_chan; eauto|done].
Qed.

Lemma finduser_det n nk :
  heap_ok (graph_of n) -> finduser nk n = Some (g_finduser (graph_of n) nk, n).
Proof.
  intros Hg. unfold finduser, g_finduser, mbind, M_bind, gets. simpl.
  assert (Hl : forall p, p ∈ bucket (userlist n) (nick_HASH nk) -> is_Some (users_heap n !! p)).
  { intros p Hp. apply (bucket_users n _ p Hg) in Hp as (u & Hu & _). eauto. }
  revert Hl. generalize (bucket (userlist n) (nick_HASH nk)).
  induction l as [|p l IH]; intros Hl; [done|]. simpl.
  destruct (Hl p ltac:(constructor)) as [u Hu].
  unfold mbind, M_bind, load_user. rewrite lookup_fmap, Hu. simpl.
  destruct (irc_stricmp (nick u) nk =? 0); [done|]. apply IH. intros q Hq. apply Hl. by constructor.
Qed.

Lemma findchan_det n nm :
  heap_ok (graph_of n) -> findchan nm n = Some (g_findchan (graph_of n) nm, n).
Proof.
  intros Hg. unfold findchan, g_findchan, mbind, M_bind, gets. simpl.
  assert (Hl : forall p, p ∈ bucket (chanlist n) (chan_HASH nm) -> is_Some (chans_heap n !! p)).
  { intros p Hp. apply (bucket_chans n _ p Hg) in Hp as (u & Hu & _). eauto. }
  revert Hl. generalize (bucket (chanlist n) (chan_HASH nm)).
  induction l as [|p l IH]; intros Hl; [done|]. simpl.
  destruct (Hl p ltac:(constructor)) as [u Hu].
  unfold mbind, M_bind, load_chan. rewrite lookup_fmap, Hu. simpl.
  destruct (irc_stricmp (name u) nm =? 0); [done|]. apply IH. intros q Hq. apply Hl. by constructor.
Qed.

Lemma g_finduser_found n nk :
  heap_ok (graph_of n) -> no_nul nk = true -> nick_found (graph_of n) nk (g_finduser (graph_of n) nk).
Proof.
  intros Hg Hnk. pose proof (finduser_spec n nk Hg Hnk) as H. unfold wp in H.
  rewrite finduser_det in H by done. apply H.
Qed.

Lemma g_findchan_found n nm :
  heap_ok (graph_of n) -> no_nul nm = true -> chan_found (graph_of n) nm (g_findchan (graph_of n) nm).
Proof.
  intros Hg Hnk. pose proof (findchan_spec n nm Hg Hnk) as H. unfold wp in H.
  rewrite findchan_det in H by done. apply H.
Qed.

(** What a caller that has a user in hand needs. *)
Lemma wp_finduser n nk Q :
  heap_ok (graph_of n) -> no_nul nk = true ->
  (forall p, nick_found (graph_of n) nk p -> p = g_finduser (graph_of n) nk -> Q p n) ->
  wp (finduser nk) Q n.
Proof.
  intros Hg Hnk HQ. eapply wp_intro; [by apply finduser_det|].
  apply HQ; [by apply g_finduser_found|done].
Qed.

Lemma wp_findchan n nm Q :
  heap_ok (graph_of n) -> no_nul nm = true ->
  (forall c, chan_found (graph_of n) nm c -> Q c n) -> wp (findchan nm) Q n.
Proof.
  intros Hg Hnk HQ. eapply wp_mono; [by apply findchan_spec|]. intros p n' [-> Hp]. eauto.
Qed.

Lemma nick_found_user n nk p :
  nick_found (graph_of n) nk p -> p <> NULL -> exists u, users_heap n !! p = Some u /\ irc_stricmp (nick u) nk = 0.
Proof.
  intros [[-> _]|(Hp & v & Hv & Hc)] ?; [done|]. apply graph_user in Hv as (u & Hu & <-). eauto.
Qed.

Lemma chan_found_chan n nm c :
  chan_found (graph_of n) nm c -> c <> NULL -> exists ch, chans_heap n !! c = Some ch /\ irc_stricmp (name ch) nm = 0.
Proof.
  intros [[-> _]|(Hp & v & Hv & Hc)] ?; [done|]. apply graph_chan in Hv as (u & Hu & <-). eauto.
Qed.

(** Framed computations compose. *)
Lemma framed_ret {A} (a : A) : framed (E := E) (mret a).
Proof. intros n _. by apply wp_ret. Qed.

Lemma framed_bind {A B} (m : M (Net E) A) (k : A -> M (Net E) B) :
  framed m -> (forall a, framed (k a)) -> framed (mbind k m).
Proof.
  intros Hm Hk n Hg. apply wp_bind. eapply wp_mono; [by apply Hm|]. intros a n' Hn.
  eapply wp_mono; [apply Hk; by rewrite Hn|]. intros b n'' ->. done.
Qed.

Lemma framed_emit m : framed (E := E) (emit m).
Proof. intros n _. by apply wp_modify. Qed.

Lemma wp_framed {A} (m : M (Net E) A) n (Q : A -> Net E -> Prop) :
  framed m -> heap_ok (graph_of n) ->
  (forall a n', graph_of n' = graph_of n -> heap_ok (graph_of n') -> Q a n') -> wp m Q n.
Proof.
  intros Hm Hg HQ. eapply wp_mono; [by apply Hm|]. intros a n' Hn. apply HQ; [done|].
  by rewrite Hn.
Qed.
End Lookup.
#[export] Hint Resolve framed_ret framed_emit : services.

(** ** Iteration visits exactly the structures of the table *)
Definition all_of (t : gmap Z (list ptr)) : list ptr :=
  concat (map (fun i => bucket t (Z.of_nat i)) (seq 0 1024)).
