(* ===== verification/Masks.v ===== *)
(** User masks ([src/users.c]): [match_usermask], [split_usermask],
    [create_mask] and [is_banned].

    The routines build and cut C strings in place.  [None] stands for an access
    outside a buffer or through a null pointer. *)

From S2P Require Import Prelude CStr Wild NumTime Graph Net.

(** [strtok (s, delims)]: the token, and the string later calls go on with.
    [strtok (NULL, "")] takes what is left. *)
Definition strtok (s delims : string) : option string * string :=
  let t := str_drop (strspn s delims) s in
  match t with
  | EmptyString => (None, EmptyString)
  | _ => let k := strcspn t delims in (Some (str_take k t), str_drop (S k) t)
  end.

(** ** match_usermask *)
Definition match_host_part (uname hst : option string) (u : User) : bool :=
  match uname, hst with
  | Some un, Some h =>
      match_wild un (username u) && match_wild (strlower h) (strlower (host u))
  | _, _ => false
  end.

Definition match_usermask (msk : string) (u : User) : option bool :=
  if has_char msk "!" then
    match strtok msk "!" with
    | (None, _) => None                          (* strlower (NULL) *)
    | (Some nk, rest) =>
        let '(uname, rest) := strtok rest "@" in
        let '(hst, _) := strtok rest "" in
        Some (match uname, hst with
              | Some _, Some _ =>
                  match_wild (strlower nk) (strlower (nick u)) && match_host_part uname hst u
              | _, _ => false
              end)
    end
  else
    let '(uname, rest) := strtok msk "@" in
    let '(hst, _) := strtok rest "" in
    Some (match_host_part uname hst u).

(** ** is_banned *)
Fixpoint banned_loop (l : list Ban) (u : User) : option bool :=
  match l with
  | [] => Some false
  | b :: l' =>
      match match_usermask (mask b) u with
      | None => None
      | Some true => Some true
      | Some false => banned_loop l' u
      end
  end.

Definition is_banned (u : User) (c : option Channel) : option bool :=
  match c with None => Some false | Some ch => banned_loop (newbans ch) u end.

(** ** split_usermask *)
Definition or_star (s : option string) : string := default "*" s.

Definition split_usermask (msk : string) : string * string * string :=
  let lead := strspn msk "!" in
  let '(nk, rest) := strtok msk "!" in
  let '(us, rest) := strtok rest "@" in
  let '(hs, _) := strtok rest "" in
  match nk, us with
  | Some n, None =>
      if has_char n "@" then
        (* the buffer now ends where the first token did *)
        let '(us, rest) := strtok (str_take (lead + String.length n) msk) "@" in
        let '(hs, _) := strtok rest "" in
        ("*", or_star us, or_star hs)
      else (or_star nk, or_star us, or_star hs)
  | _, _ => (or_star nk, or_star us, or_star hs)
  end%string.

(** ** create_mask *)
Fixpoint count_char (s : string) (c : ascii) : nat :=
  match s with
  | EmptyString => 0
  | String x s' => ((if Ascii.eqb x c then 1 else 0) + count_char s' c)%nat
  end.

(** [*strrchr (s, '.') = 0;] on a string that has a dot. *)
Fixpoint cut_last_dot (s : string) : string :=
  match s with
  | EmptyString => EmptyString
  | String x s' =>
      if Ascii.eqb x "." && negb (has_char s' ".") then EmptyString
      else String x (cut_last_dot s')
  end.

Definition is_ip (h : string) : bool :=
  (strspn h "0123456789." =? String.length h)%nat && (count_char h "." =? 3)%nat.

Definition atoi (s : string) : Z := wrap32 (fst (strtol s)).

(** What replaces the host. *)
Definition host_mask (h : string) : option string :=
  if is_ip h then
    let s := cut_last_dot h in
    let s := if atoi h <? 192 then cut_last_dot s else s in
    let s := if atoi h <? 128 then cut_last_dot s else s in
    Some (s +:+ ".*")%string
  else if (2 <=? count_char h ".")%nat then
    let k := strcspn h "." in
    if (k =? 0)%nat then None                     (* strchr (host, '.') - 1 *)
    else Some (String "*" (str_drop k h))
  else Some h.

(** The buffer has [strlen (username) + strlen (host) + 2] bytes. *)
Definition create_mask (u : User) : option string :=
  match host_mask (host u) with
  | None => None
  | Some h =>
      let m := (username u +:+ "@" +:+ h)%string in
      if (String.length m + 1 <=? String.length (username u) + String.length (host u) + 2)%nat
      then Some m else None
  end.

(** ** Lemmas *)

Fixpoint all_chars (P : ascii -> bool) (s : string) : bool :=
  match s with EmptyString => true | String c s' => P c && all_chars P s' end.

(** A character with no meaning in a mask. *)
Definition plain (c : ascii) : bool := negb (has_char "!@*?" c).

Lemma all_chars_impl (P Q : ascii -> bool) s :
  (forall c, P c = true -> Q c = true) -> all_chars P s = true -> all_chars Q s = true.
Proof. intros HPQ. induction s; simpl; [done|]. rewrite !andb_true_iff. intros []; auto. Qed.

Lemma all_chars_app P s t : all_chars P (s +:+ t) = all_chars P s && all_chars P t.
Proof. induction s as [|c s IH]; simpl; [done|]. by rewrite IH, andb_assoc. Qed.

Lemma all_chars_lower s : all_chars plain s = true -> all_chars plain (strlower s) = true.
Proof.
  assert (Hl : forall c, (negb (plain c) || plain (tolower c)) = true)
    by (apply ascii_forall; vm_compute; reflexivity).
  unfold strlower. induction s as [|c s IH]; simpl; [done|]. rewrite !andb_true_iff.
  intros [Hc Hs]. specialize (Hl c). rewrite Hc in Hl. auto.
Qed.

Lemma plain_neq c d : has_char "!@*?" d = true -> plain c = true -> Ascii.eqb c d = false.
Proof.
  unfold plain. intros Hd Hc. destruct (Ascii.eqb_spec c d) as [->|]; [|done].
  by rewrite Hd in Hc.
Qed.

Lemma no_char_has P s c :
  (forall d, P d = true -> Ascii.eqb d c = false) -> c <> NUL -> all_chars P s = true ->
  has_char s c = false.
Proof.
  intros HP Hc. unfold has_char. induction s as [|d s IH]; simpl.
  - intros _. destruct (Ascii.eqb_spec c NUL); [done|reflexivity].
  - rewrite andb_true_iff. intros [Hd Hs]. by rewrite HP, IH.
Qed.

Lemma no_qm p : all_chars (fun c => negb (Ascii.eqb c "?")) p = true -> no_star_qm p = true.
Proof.
  induction p as [|c p IH]; [done|]. simpl. rewrite andb_true_iff. intros [_ Hp].
  specialize (IH Hp). destruct c as [[] [] [] [] [] [] [] []]; try done.
  destruct p as [|[[] [] [] [] [] [] [] []] p]; done.
Qed.

(** A mask matches what extends its literal part by something its rest matches. *)
Lemma glob_app p q t : glob q t true = true -> glob (p +:+ q) (p +:+ t) true = true.
Proof.
  intros H. induction p as [|c p IH]; simpl; [done|].
  destruct (Ascii.eqb c "?"); [done|]. destruct (Ascii.eqb c "*").
  - by rewrite any_suffix_self, orb_true_r.
  - unfold eqc. by rewrite Ascii.eqb_refl.
Qed.

Lemma glob_self p : glob p p true = true.
Proof.
  induction p as [|c p IH]; simpl; [done|].
  destruct (Ascii.eqb c "?"); [done|]. destruct (Ascii.eqb c "*").
  - by rewrite any_suffix_self, orb_true_r.
  - unfold eqc. by rewrite Ascii.eqb_refl.
Qed.

Lemma glob_star t : glob "*" t true = true.
Proof. simpl. apply any_suffix_empty_end. done. Qed.

Lemma glob_star_drop k p t : glob p (str_drop k t) true = true -> glob (String "*" p) t true = true.
Proof.
  simpl. revert k. induction t as [|c t IH]; intros [|k] H; simpl in *; rewrite ?H; try done.
  by rewrite (IH k), orb_true_r.
Qed.

Lemma match_wild_glob p t :
  all_chars (fun c => negb (Ascii.eqb c "?")) p = true -> glob p t true = true -> match_wild p t = true.
Proof. intros Hp H. unfold match_wild. by apply glob_do_match_wild; [apply no_qm|]. Qed.

Lemma plain_no_qm c : plain c = true -> negb (Ascii.eqb c "?") = true.
Proof. intros H. by rewrite (plain_neq c "?"). Qed.

(** *** strtok *)
Lemma str_drop_all k s : (String.length s <= k)%nat -> str_drop k s = EmptyString.
Proof. revert k. induction s; intros [|k]; simpl; try done; [lia|]. intros. apply IHs. lia. Qed.

Lemma strtok_token s d rest delims :
  s <> EmptyString -> all_chars (fun c => negb (has_char delims c)) s = true ->
  has_char delims d = true ->
  strtok (s +:+ String d rest) delims = (Some s, rest).
Proof.
  intros Hne Hs Hd. unfold strtok.
  assert (H0 : strspn (s +:+ String d rest) delims = 0%nat).
  { destruct s; [done|]. simpl in *. apply andb_prop in Hs as [Hc _]. by destruct (has_char _ _). }
  rewrite H0. assert (Hk : strcspn (s +:+ String d rest) delims = String.length s).
  { clear Hne H0. induction s as [|c s IH]; simpl in *; [by rewrite Hd|].
    apply andb_prop in Hs as [Hc Hs]. destruct (has_char delims c); [done|]. by rewrite IH. }
  change (str_drop 0 (s +:+ String d rest)) with (s +:+ String d rest). rewrite Hk.
  assert (Ht : str_take (String.length s) (s +:+ String d rest) = s).
  { clear. induction s; simpl; congruence. }
  assert (Hr : str_drop (S (String.length s)) (s +:+ String d rest) = rest).
  { clear. induction s; simpl in *; congruence. }
  rewrite Ht, Hr. by destruct s.
Qed.

Lemma has_char_empty c : c <> NUL -> has_char "" c = false.
Proof. unfold has_char; simpl. destruct (Ascii.eqb_spec c NUL); [done|reflexivity]. Qed.

Lemma strtok_last s delims : s <> EmptyString ->
  all_chars (fun c => negb (has_char delims c)) s = true -> strtok s delims = (Some s, EmptyString).
Proof.
  intros Hne Hs. unfold strtok.
  assert (H0 : strspn s delims = 0%nat).
  { destruct s; [done|]. simpl in *. apply andb_prop in Hs as [Hc _]. by destruct (has_char _ _). }
  assert (Hk : strcspn s delims = String.length s).
  { clear Hne H0. induction s as [|c s IH]; simpl in *; [done|].
    apply andb_prop in Hs as [Hc Hs]. destruct (has_char delims c); [done|]. by rewrite IH. }
  rewrite H0. change (str_drop 0 s) with s. rewrite Hk, str_take_all by lia.
  destruct s as [|a s]; [done|]. f_equal. by apply str_drop_all; simpl; lia.
Qed.

Lemma strtok_rest s : s <> EmptyString -> no_nul s = true -> strtok s "" = (Some s, EmptyString).
Proof.
  intros Hne Hs. apply strtok_last; [done|]. clear Hne. induction s as [|c s IH]; [done|].
  simpl in *. apply andb_prop in Hs as [Hc Hs]. rewrite IH, andb_true_r by done.
  rewrite has_char_empty; [done|]. by intros ->.
Qed.

(** *** Dots *)
Lemma has_char_String c d s :
  Ascii.eqb d NUL = false -> has_char (String c s) d = Ascii.eqb c d || has_char s d.
Proof. unfold has_char. simpl. by destruct (Ascii.eqb c d). Qed.

Lemma count_dot_has s : (0 < count_char s ".")%nat <-> has_char s "." = true.
Proof.
  induction s as [|c s IH]; simpl count_char; [split; [lia|done]|].
  rewrite has_char_String by done. destruct (Ascii.eqb c "."); simpl; [split; [done|lia]|].
  by rewrite IH.
Qed.

(** Cutting at the last dot. *)
Lemma cut_last_dot_spec s : has_char s "." = true ->
  exists t, s = (cut_last_dot s +:+ "." +:+ t)%string /\ has_char t "." = false /\
    count_char s "." = S (count_char (cut_last_dot s) ".").
Proof.
  induction s as [|c s IH]; [done|]. rewrite has_char_String by done. simpl.
  destruct (has_char s ".") eqn:Hs.
  - intros _. rewrite andb_false_r. destruct (IH eq_refl) as (t & Ht & Hn & Hc). exists t.
    split; [by rewrite str_app_cons, <- Ht|]. split; [done|]. simpl. lia.
  - rewrite orb_false_r. intros Hc. rewrite Hc. simpl. apply ascii_eqb_true in Hc as ->.
    exists s. split; [done|]. split; [done|]. f_equal.
    destruct (count_char s ".") eqn:E; [done|]. by apply not_true_iff_false in Hs as []; apply count_dot_has; lia.
Qed.

(** [host_mask] on an address: some leading part of it, cut at a dot. *)
Lemma host_mask_ip h : is_ip h = true ->
  exists s t, host_mask h = Some (s +:+ ".*")%string /\ h = (s +:+ "." +:+ t)%string.
Proof.
  intros Hip. unfold host_mask. rewrite Hip.
  apply andb_prop in Hip as [_ Hc]. apply Nat.eqb_eq in Hc.
  assert (Hcut : forall k s, count_char s "." = S k ->
    exists t, s = (cut_last_dot s +:+ "." +:+ t)%string /\ count_char (cut_last_dot s) "." = k).
  { intros k s Hs. destruct (cut_last_dot_spec s) as (t & Ht & _ & Hn); [apply count_dot_has; lia|].
    exists t. split; [done|lia]. }
  destruct (Hcut 2%nat h Hc) as (t1 & H1 & C1).
  destruct (Hcut 1%nat _ C1) as (t2 & H2 & C2).
  destruct (Hcut 0%nat _ C2) as (t3 & H3 & _).
  destruct (atoi h <? 192), (atoi h <? 128); (eexists _, _; split; [reflexivity|]).
  - etransitivity; [exact H1|]. rewrite H2 at 1. rewrite H3 at 1. rewrite !str_app_assoc. reflexivity.
  - etransitivity; [exact H1|]. rewrite H2 at 1. rewrite !str_app_assoc. reflexivity.
  - etransitivity; [exact H1|]. rewrite H2 at 1. rewrite !str_app_assoc. reflexivity.
  - exact H1.
Qed.

Lemma map_string_app f a b : map_string f (a +:+ b)%string = (map_string f a +:+ map_string f b)%string.
Proof. induction a as [|c a IH]; [done|]. rewrite str_app_cons. simpl map_string. by rewrite IH, str_app_cons. Qed.

Lemma map_string_drop f k s : map_string f (str_drop k s) = str_drop k (map_string f s).
Proof. revert k. induction s as [|c s IH]; intros [|k]; simpl; try done. Qed.

Lemma last_char_dot s : last_char (s +:+ ".")%string = "."%char.
Proof.
  induction s as [|c s IH]; [done|]. rewrite str_app_cons. simpl.
  destruct (s +:+ ".")%string eqn:E; [by destruct s|done].
Qed.

Lemma strcspn_length s r : (strcspn s r <= String.length s)%nat.
Proof. induction s as [|c s IH]; simpl; [done|]. destruct (has_char r c); lia. Qed.

Lemma no_qm_lower s : all_chars (fun c => negb (Ascii.eqb c "?")) s = true ->
  all_chars (fun c => negb (Ascii.eqb c "?")) (strlower s) = true.
Proof.
  assert (Hl : forall c, (Ascii.eqb c "?" || negb (Ascii.eqb (tolower c) "?")) = true)
    by (apply ascii_forall; vm_compute; reflexivity).
  unfold strlower. induction s as [|c s IH]; simpl; [done|]. rewrite !andb_true_iff.
  intros [Hc Hs]. specialize (Hl c). apply negb_true_iff in Hc. rewrite Hc in Hl. auto.
Qed.

Lemma all_chars_drop P k s : all_chars P s = true -> all_chars P (str_drop k s) = true.
Proof. revert k. induction s; intros [|k]; simpl; try done. rewrite andb_true_iff. intros []; auto. Qed.

(** The characters a mask made from a plain host consists of. *)
Definition maskable (c : ascii) : bool := plain c || Ascii.eqb c "*".

Lemma maskable_no_qm m : all_chars maskable m = true ->
  all_chars (fun c => negb (Ascii.eqb c "?")) m = true /\ no_nul m = true /\
  all_chars (fun c => negb (has_char "!" c)) m = true.
Proof.
  assert (Hl : forall c, (negb (maskable c) || (negb (Ascii.eqb c "?") && negb (Ascii.eqb c NUL) &&
    negb (has_char "!" c))) = true) by (apply ascii_forall; vm_compute; reflexivity).
  induction m as [|c m IH]; simpl; [done|]. rewrite andb_true_iff. intros [Hc Hm].
  specialize (Hl c). rewrite Hc in Hl. simpl in Hl. apply andb_prop in Hl as [Hl H3].
  apply andb_prop in Hl as [H1 H2]. destruct (IH Hm) as (E1 & E2 & E3).
  by rewrite H1, H2, H3, E1, E2, E3.
Qed.

Lemma strcspn_plain_dot h : all_chars plain h = true -> h <> EmptyString -> hd_char h <> "."%char ->
  strcspn h "." <> 0%nat.
Proof.
  assert (Hl : forall c, (negb (plain c) || negb (has_char "." c) || Ascii.eqb c ".") = true)
    by (apply ascii_forall; vm_compute; reflexivity).
  destruct h as [|c h]; simpl; [done|]. rewrite andb_true_iff. intros [Hc _] _ Hd.
  specialize (Hl c). rewrite Hc in Hl. simpl in Hl. destruct (has_char "." c); [|done].
  by apply ascii_eqb_true in Hl.
Qed.

Lemma host_mask_spec h :
  all_chars plain h = true -> h <> EmptyString -> hd_char h <> "."%char -> last_char h <> "."%char ->
  exists m, host_mask h = Some m /\ (String.length m <= String.length h)%nat /\ m <> EmptyString /\
    all_chars maskable m = true /\ match_wild (strlower m) (strlower h) = true.
Proof.
  intros Hp Hne Hhd Hlast.
  assert (Hmask : all_chars maskable h = true)
    by (eapply all_chars_impl; [|exact Hp]; unfold maskable; by intros c ->).
  assert (Hfin : forall m, all_chars maskable m = true -> glob (strlower m) (strlower h) true = true ->
    match_wild (strlower m) (strlower h) = true).
  { intros m Hm Hg. apply match_wild_glob; [|done]. by apply no_qm_lower, maskable_no_qm. }
  destruct (is_ip h) eqn:Hip.
  - destruct (host_mask_ip h Hip) as (s & t & -> & Eh). exists (s +:+ ".*")%string.
    assert (Ht : t <> EmptyString) by (intros ->; apply Hlast; rewrite Eh; apply last_char_dot).
    assert (Hms : all_chars maskable (s +:+ ".*")%string = true).
    { rewrite Eh in Hmask. rewrite all_chars_app in Hmask |- *. apply andb_prop in Hmask as [-> _]. done. }
    split; [done|]. split; [|split; [by destruct s|split; [done|]]].
    + rewrite Eh, !length_append. simpl. destruct t; [done|]. simpl. lia.
    + apply Hfin; [done|]. rewrite Eh. unfold strlower. rewrite !map_string_app.
      apply glob_app. simpl. by apply any_suffix_empty_end.
  - unfold host_mask. rewrite Hip. case_match.
    + assert (Hk : strcspn h "." <> 0%nat) by by apply strcspn_plain_dot.
      destruct (Nat.eqb_spec (strcspn h ".") 0) as [|_]; [done|].
      eexists. split; [done|]. pose proof (strcspn_length h "."). split; [|split; [done|]].
      * simpl. rewrite str_drop_length. lia.
      * assert (Hd : all_chars maskable (str_drop (strcspn h ".") h) = true) by by apply all_chars_drop.
        split; [exact Hd|]. apply Hfin; [exact Hd|]. unfold strlower. simpl map_string.
        rewrite map_string_drop. apply (glob_star_drop (strcspn h ".")), glob_self.
    + exists h. do 4 (split; [done|]). apply Hfin; [done|]. apply glob_self.
Qed.

(** A host as servers send it never breaks [create_mask]. *)
Lemma create_mask_total u : host_ok (host u) = true -> is_Some (create_mask u).
Proof.
  unfold host_ok. rewrite !andb_true_iff, !negb_true_iff. intros [[Hn Hhd] Hlast].
  assert (Hfit : forall hm, host_mask (host u) = Some hm ->
    (String.length hm <= String.length (host u))%nat -> is_Some (create_mask u)).
  { intros hm Hhm Hlen. unfold create_mask. rewrite Hhm, !length_append. simpl.
    destruct (Nat.leb_spec (String.length (username u) + S (String.length hm) + 1)
      (String.length (username u) + String.length (host u) + 2)); [eauto|lia]. }
  destruct (is_ip (host u)) eqn:Hip.
  - destruct (host_mask_ip _ Hip) as (s & t & Hm & Eh). apply (Hfit _ Hm).
    rewrite Eh, !length_append. simpl. destruct t; [|simpl; lia].
    rewrite Eh, last_char_dot in Hlast. done.
  - destruct (host_mask (host u)) as [hm|] eqn:Hm.
    + apply (Hfit _ eq_refl). revert Hm. unfold host_mask. rewrite Hip. case_match; [|by intros [= <-]].
      destruct (Nat.eqb_spec (strcspn (host u) ".") 0) as [|Hk]; [done|]. intros [= <-].
      simpl. rewrite str_drop_length. pose proof (strcspn_length (host u) "."). lia.
    + exfalso. revert Hm. unfold host_mask. rewrite Hip. case_match eqn:Hc2; [|done].
      destruct (Nat.eqb_spec (strcspn (host u) ".") 0) as [Hk|]; [|done]. intros _.
      destruct (host u) as [|c h]; [done|]. simpl in Hk, Hhd, Hn.
      apply andb_prop in Hn as [Hn _]. apply negb_true_iff in Hn. unfold has_char in Hk. simpl in Hk.
      by rewrite (Ascii.eqb_sym "." c), Hhd, Hn in Hk.
Qed.

(** The characters of [delims] end a token; none of [s] does. *)
Definition no_delim (delims s : string) : bool := all_chars (fun c => negb (has_char delims c)) s.

Lemma no_delim_has d s : d <> NUL -> no_delim (String d EmptyString) s = true -> has_char s d = false.
Proof.
  intros Hd. apply no_char_has; [|done]. intros c. rewrite negb_true_iff. unfold has_char. simpl.
  rewrite Ascii.eqb_sym. by destruct (Ascii.eqb c d).
Qed.

Lemma plain_no_delim d s : d = "!"%char \/ d = "@"%char -> all_chars plain s = true ->
  no_delim (String d EmptyString) s = true.
Proof.
  assert (Hl : forall c, (negb (plain c) || (negb (has_char "!" c) && negb (has_char "@" c))) = true)
    by (apply ascii_forall; vm_compute; reflexivity).
  intros Hd. apply all_chars_impl. intros c Hc. specialize (Hl c). rewrite Hc in Hl.
  apply andb_prop in Hl as [? ?]. by destruct Hd as [-> | ->].
Qed.

Lemma create_mask_covers u
  (Hu : all_chars plain (username u) = true) (Hu0 : username u <> EmptyString)
  (Hh : all_chars plain (host u) = true) (Hh0 : host u <> EmptyString)
  (Hhd : hd_char (host u) <> "."%char) (Hlast : last_char (host u) <> "."%char) :
  exists m, create_mask u = Some m /\ match_usermask m u = Some true /\
    match_usermask ("*!" +:+ m)%string u = Some true.
Proof.
  destruct (host_mask_spec (host u)) as (hm & Hm & Hlen & Hne & Hms & Hmatch); [done..|].
  destruct (maskable_no_qm hm Hms) as (_ & Hnul & Hbang).
  set (m := (username u +:+ String "@" hm)%string).
  assert (Htok : strtok m "@" = (Some (username u), hm)) by (apply strtok_token; [done|by apply plain_no_delim; auto|done]).
  assert (Hrest : strtok hm "" = (Some hm, EmptyString)) by by apply strtok_rest.
  assert (Hpart : match_host_part (Some (username u)) (Some hm) u = true).
  { simpl. rewrite Hmatch, andb_true_r. apply match_wild_glob; [|apply glob_self].
    eapply all_chars_impl; [apply plain_no_qm|done]. }
  exists m. split; [|split].
  - unfold create_mask. rewrite Hm. change (username u +:+ "@" +:+ hm)%string with m.
    assert (String.length m = (String.length (username u) + S (String.length hm))%nat)
      by (unfold m; by rewrite length_append).
    destruct (Nat.leb_spec (String.length m + 1) (String.length (username u) + String.length (host u) + 2)); [done|lia].
  - unfold match_usermask. rewrite Htok, Hrest, Hpart.
    assert (Hb : has_char m "!" = false).
    { apply no_delim_has; [done|]. unfold m, no_delim. rewrite all_chars_app. simpl.
      rewrite Hbang. change (no_delim "!" (username u) && true = true). by rewrite plain_no_delim by auto. }
    by rewrite Hb.
  - unfold match_usermask. change ("*!" +:+ m)%string with ("*" +:+ String "!" m)%string.
    rewrite (strtok_token "*" "!" m "!") by done. rewrite Htok, Hrest, Hpart. done.
Qed.

(** ** Properties *)

(** The mask ChanServ bans a user by covers that user, with and without the
    nick part, and fits the buffer allocated for it: for a username and a host
    of ordinary characters, the host not starting or ending with a dot. *)
Theorem create_mask_correct u
  (Hu : all_chars plain (username u) = true) (Hu0 : username u <> EmptyString)
  (Hh : all_chars plain (host u) = true) (Hh0 : host u <> EmptyString)
  (Hhd : hd_char (host u) <> "."%char) (Hlast : last_char (host u) <> "."%char) :
  exists m, create_mask u = Some m /\ match_usermask m u = Some true /\
    match_usermask ("*!" +:+ m)%string u = Some true.
Proof. by apply create_mask_covers. Qed.

Definition joe (hst : string) : User := mkUser "joe" 0 0 NULL "~joe" hst "Joe" 0 0 0 [] [] 0 0 0.

Lemma create_mask_correct_witness : exists m, create_mask (joe "192.0.2.7") = Some m /\
  match_usermask m (joe "192.0.2.7") = Some true /\
  match_usermask ("*!" +:+ m)%string (joe "192.0.2.7") = Some true.
Proof. apply create_mask_correct; [reflexivity|done|reflexivity|done|done|done]. Defined.

(** For an address that ends with a dot [create_mask] writes one byte past its
    buffer; for a name that starts with one it reads before the host. *)
Lemma create_mask_trailing_dot :
  create_mask (joe "192.0.2.") = None /\ create_mask (joe ".oftc.net") = None /\
  create_mask (joe "192.0.2.7") = Some "~joe@192.0.2.*"%string.
Proof. repeat split. Qed.

(** A mask of exclamation marks alone makes [match_usermask] follow a null pointer. *)
Lemma match_usermask_bang : match_usermask "!" (joe "192.0.2.7") = None.
Proof. reflexivity. Qed.

(** [split_usermask] takes [nick!user@host] and [user@host] apart, the missing
    nick being [*]. *)
Theorem split_usermask_correct nk us hs
  (Hn : no_delim "!" nk = true) (Hn0 : nk <> EmptyString)
  (Hu : no_delim "@" us = true) (Hu' : no_delim "!" us = true) (Hu0 : us <> EmptyString)
  (Hh : no_nul hs = true) (Hh' : no_delim "!" hs = true) (Hh0 : hs <> EmptyString) :
  split_usermask (nk +:+ "!" +:+ us +:+ "@" +:+ hs) = (nk, us, hs) /\
  split_usermask (us +:+ "@" +:+ hs) = ("*"%string, us, hs).
Proof.
  set (m := (us +:+ String "@" hs)%string).
  assert (Htok : strtok m "@" = (Some us, hs)) by by apply strtok_token.
  assert (Hrest : strtok hs "" = (Some hs, EmptyString)) by by apply strtok_rest.
  unfold split_usermask. split.
  - change (nk +:+ "!" +:+ us +:+ "@" +:+ hs)%string with (nk +:+ String "!" m)%string.
    by rewrite (strtok_token nk "!" m "!"), Htok, Hrest.
  - change (us +:+ "@" +:+ hs)%string with m. 
    assert (Hm : no_delim "!" m = true).
    { unfold m, no_delim. rewrite all_chars_app. simpl. by rewrite andb_true_iff. }
    assert (Hm0 : m <> EmptyString) by by destruct us.
    assert (Hlead : strspn m "!" = 0%nat).
    { destruct us as [|c us]; [done|]. simpl in Hu' |- *. apply andb_prop in Hu' as [Hc _].
      by apply negb_true_iff in Hc as ->. }
    assert (Hat : has_char m "@" = true).
    { clear -Hu. unfold m. clear Hu. induction us as [|c us IH]; [done|].
      rewrite str_app_cons, has_char_String, IH by done. by rewrite orb_true_r. }
    rewrite (strtok_last m "!") by done. change (strtok "" "@") with (@None string, EmptyString).
    cbn iota beta. rewrite Hlead, Hat. simpl (0 + _)%nat. rewrite str_take_all by lia.
    by rewrite Htok, Hrest.
Qed.

Lemma split_usermask_correct_witness :
  split_usermask "*!~joe@*.oftc.net" = ("*", "~joe", "*.oftc.net")%string.
Proof. apply (split_usermask_correct "*" "~joe" "*.oftc.net"); done. Defined.
