(* ===== verification/Interfaces.v ===== *)
(** The interfaces through which [src/users.c] and [src/channels.c] call the
    rest of Services, as type classes: the configuration, and the operations of
    ChanServ, NickServ and OperServ with the laws their callers rely on.  The
    client theorems (Channels.v, Users.v) are proved against the laws;
    ChanServ.v and Sessions.v implement the interfaces of ChanServ and OperServ
    and prove them. *)

From S2P Require Import Prelude CStr Wp Graph Net.

(** ** Configuration ([src/config.c]) *)
Class Conf := {
  ServerName : string;
  s_NickServ : string;
  s_ChanServ : string;
  s_OperServ : string;
  s_FloodServ : string;
  s_MemoServ : string;
  s_HelpServ : string;
  s_GlobalNoticer : string;
  s_IrcIIHelp : option string;
  s_DevNull : option string;
  WallOper : bool;
  LogMaxUsers : bool;
  LimitSessions : bool;
  CSOpOper : bool;
  CSAkickOper : bool;
  CSRestrictDelay : Z;
  CSAutokickReason : string;
  BadPassLimit : Z;
  BadPassTimeout : Z;
  start_time : Z
}.

(** The columns of table [channel] that [mysql_init_channel] reads. *)
Record ChanRow := mkChanRow {
  r_last_limit_time : Z; r_limit_offset : Z; r_limit_tolerance : Z;
  r_limit_period : Z; r_bantime : Z; r_floodserv : Z
}.

(** ** ChanServ as seen by the network code

    A mode change calls back only [check_modes] and [check_valid_op]; ChanServ
    itself changes modes, so it is written against this smaller interface. *)
Class ModeServ (E : Type) := {
  check_modes : string -> M (Net E) unit;
  check_valid_op : ptr -> string -> bool -> M (Net E) bool
}.

Class ChanServ (E : Type) := {
  #[global] chanserv_modes :: ModeServ E;
  mysql_findchan : string -> M (Net E) Z;
  mysql_channel_row : Z -> M (Net E) (option ChanRow);
  mysql_channel_store : Channel -> M (Net E) unit;
  mysql_set_limit_time : Z -> Z -> M (Net E) unit;
  restore_topic : string -> M (Net E) unit;
  record_topic : string -> M (Net E) unit;
  check_topiclock : string -> string -> ptr -> M (Net E) bool;
  check_should_op : ptr -> string -> M (Net E) bool;
  check_should_voice : ptr -> string -> M (Net E) bool;
  check_kick : ptr -> string -> M (Net E) bool;
  mysql_entry_message : Z -> M (Net E) (option (string * string));
  check_chan_memos : ptr -> Z -> M (Net E) unit
}.

(** A computation that runs in any state and changes the data of the other
    components only: an SQL statement, a cache lookup. *)
Definition ext_only {E A} (m : M (Net E) A) : Prop :=
  forall n, wp m (fun _ n' => exists e, n' = n{{ext := e}}) n.

(** A computation about a user who exists. *)
Definition framed_user {E A} (p : ptr) (m : M (Net E) A) : Prop :=
  forall n, heap_ok (graph_of n) -> is_Some (users_heap n !! p) ->
  wp m (fun _ n' => graph_of n' = graph_of n) n.

(** What the network code relies on: ChanServ sends modes, kicks and notices
    and keeps its own data, but who is on which channel, and who is opped or
    voiced there, is changed by the network code alone. *)
Class ChanServLaws (E : Type) `{!ChanServ E} : Prop := {
  law_findchan nm : ext_only (mysql_findchan nm);
  law_channel_row i : ext_only (mysql_channel_row i);
  law_channel_store c : ext_only (mysql_channel_store c);
  law_set_limit_time i t : ext_only (mysql_set_limit_time i t);
  law_check_modes nm : no_nul nm = true -> framed (check_modes nm);
  law_restore_topic nm : no_nul nm = true -> framed (restore_topic nm);
  law_record_topic nm : no_nul nm = true -> framed (record_topic nm);
  law_check_topiclock nm nk c n : no_nul nm = true -> heap_ok (graph_of n) ->
    is_Some (chans_heap n !! c) ->
    wp (check_topiclock nm nk c) (fun _ n' => graph_of n' = graph_of n) n;
  law_check_valid_op p nm b : no_nul nm = true -> framed_user p (check_valid_op p nm b);
  law_check_should_op p nm : no_nul nm = true -> framed_user p (check_should_op p nm);
  law_check_should_voice p nm : no_nul nm = true -> framed_user p (check_should_voice p nm);
  law_check_kick p nm : no_nul nm = true -> framed_user p (check_kick p nm);
  law_entry_message i : ext_only (mysql_entry_message i);
  law_chan_memos p i : framed_user p (check_chan_memos p i)
}.

(** ** NickServ (with MemoServ and the news) as seen by the network code *)
Class NickServ (E : Type) := {
  mysql_findnick : string -> M (Net E) Z;
  mysql_getlink : Z -> M (Net E) Z;
  get_nick_status : Z -> M (Net E) Z;
  set_nick_status : Z -> Z -> M (Net E) unit;
  get_nick_flags : Z -> M (Net E) Z;
  mysql_maxuser_stat : Z -> Z -> M (Net E) unit;
  validate_user : ptr -> M (Net E) bool;
  cancel_user : ptr -> M (Net E) unit;
  check_on_access : ptr -> M (Net E) unit;
  check_memos : ptr -> M (Net E) unit;
  mysql_update_last_seen : ptr -> Z -> M (Net E) unit;
  mysql_quit_row : Z -> M (Net E) bool;
  mysql_quit_store : Z -> Z -> string -> M (Net E) unit;
  is_services_admin : ptr -> M (Net E) bool;
  nickcache_update : Z -> M (Net E) unit;
  get_email_from_id : Z -> M (Net E) string;
  get_cloak_from_id : Z -> M (Net E) (option string);
  check_autojoins : ptr -> M (Net E) unit;
  display_news_logon : ptr -> M (Net E) unit;
  display_news_oper : ptr -> M (Net E) unit
}.

Class NickServLaws (E : Type) `{!NickServ E} : Prop := {
  law_findnick nk : ext_only (mysql_findnick nk);
  law_getlink i : ext_only (mysql_getlink i);
  law_get_nick_status i : ext_only (get_nick_status i);
  law_set_nick_status i s : ext_only (set_nick_status i s);
  law_get_nick_flags i : ext_only (get_nick_flags i);
  law_maxuser_stat a b : ext_only (mysql_maxuser_stat a b);
  law_validate_user p : framed_user p (validate_user p);
  law_cancel_user p : framed_user p (cancel_user p);
  law_check_on_access p : framed_user p (check_on_access p);
  law_check_memos p : framed_user p (check_memos p);
  law_update_last_seen p s : framed_user p (mysql_update_last_seen p s);
  law_quit_row i : ext_only (mysql_quit_row i);
  law_quit_store i t s : ext_only (mysql_quit_store i t s);
  law_services_admin p : framed_user p (is_services_admin p);
  law_nickcache_update i : ext_only (nickcache_update i);
  law_email i : ext_only (get_email_from_id i);
  law_cloak i : ext_only (get_cloak_from_id i);
  law_autojoins p : framed_user p (check_autojoins p);
  law_news_logon p : framed_user p (display_news_logon p);
  law_news_oper p : framed_user p (display_news_oper p)
}.

(** The nick a user bears is identified, or at least recognized. *)
Definition NS_IDENTIFIED : Z := 0x8000.
Definition NS_RECOGNIZED : Z := 0x4000.

Definition nick_has {E} `{!NickServ E} (flags : Z) (p : ptr) : M (Net E) bool :=
  u ← load_user p;
  if real_id u =? 0 then mret false
  else s ← get_nick_status (real_id u); mret (has s flags).
Definition nick_identified {E} `{!NickServ E} : ptr -> M (Net E) bool := nick_has NS_IDENTIFIED.
Definition nick_recognized {E} `{!NickServ E} : ptr -> M (Net E) bool :=
  nick_has (NS_IDENTIFIED .| NS_RECOGNIZED).

(** ** OperServ (autokills and sessions) as seen by the network code *)
Class OperServ (E : Type) := {
  check_akill : string -> string -> string -> M (Net E) bool;
  add_session : string -> string -> M (Net E) bool;
  del_session : string -> M (Net E) unit;
  findserver : string -> M (Net E) ptr
}.

(** Autokills and session limits are enforced on a nick that is not online yet. *)
Definition nick_free (g : graph) (nk : string) : Prop :=
  forall p v, g_users g !! p = Some v -> irc_stricmp (v_nick v) nk <> 0.

Class OperServLaws (E : Type) `{!OperServ E} : Prop := {
  law_check_akill nk us hs n : heap_ok (graph_of n) -> nick_free (graph_of n) nk ->
    wp (check_akill nk us hs) (fun _ n' => graph_of n' = graph_of n) n;
  law_add_session nk hs n : heap_ok (graph_of n) -> nick_free (graph_of n) nk ->
    wp (add_session nk hs) (fun _ n' => graph_of n' = graph_of n) n;
  law_del_session hs : ext_only (del_session hs);
  law_findserver nm : ext_only (findserver nm)
}.

Lemma ext_only_graph {E A} (m : M (Net E) A) n :
  ext_only m -> wp m (fun _ n' => graph_of n' = graph_of n) n.
Proof. intros H. eapply wp_mono; [apply H|]. by intros a n' [e ->]. Qed.

Lemma ext_only_framed {E A} (m : M (Net E) A) : ext_only m -> framed m.
Proof. intros H n _. by apply ext_only_graph. Qed.
#[export] Hint Resolve ext_only_framed ext_only_graph : services.

(** *** Computations about a user that leave the graph alone compose. *)
Section Framed.
Context {E : Type}.

Lemma framed_user_ret p {A} (a : A) : framed_user (E := E) p (mret a).
Proof. by intros n _ _. Qed.

Lemma framed_user_bind p {A B} (m : M (Net E) A) (k : A -> M (Net E) B) :
  framed_user p m -> (forall a, framed_user p (k a)) -> framed_user p (mbind k m).
Proof.
  intros Hm Hk n Hg Hp. apply wp_bind. eapply wp_mono; [by apply Hm|]. intros a n' Hn.
  assert (Hp' : is_Some (users_heap n' !! p)) by (by rewrite <- is_Some_graph_user, Hn, is_Some_graph_user).
  eapply wp_mono; [apply Hk; [by rewrite Hn|done]|]. intros b n'' ->. done.
Qed.

Lemma framed_user_gets p {A} (f : Net E -> A) : framed_user p (gets f).
Proof. by intros n _ _. Qed.

Lemma framed_user_modify p (f : Net E -> Net E) :
  (forall n, graph_of (f n) = graph_of n) -> framed_user p (modify f).
Proof. intros Hf n _ _. apply wp_modify, Hf. Qed.

Lemma framed_user_emit p m : framed_user (E := E) p (emit m).
Proof. by apply framed_user_modify. Qed.

Lemma framed_user_load p : framed_user (E := E) p (load_user p).
Proof. intros n _ [u Hu]. by eapply wp_load_user. Qed.

Lemma framed_user_upd p f :
  (forall u, user_view (f u) = user_view u) -> framed_user (E := E) p (upd_user p f).
Proof.
  intros Hf n _ [u Hu]. eapply wp_upd_user; [done|]. by apply (graph_upd_user_id n p u).
Qed.

Lemma framed_user_ext p {A} (m : M (Net E) A) : ext_only m -> framed_user p m.
Proof. intros Hm n _ _. by apply ext_only_graph. Qed.

Lemma framed_user_when p b (m : M (Net E) unit) : framed_user p m -> framed_user p (when b m).
Proof. destruct b; [done|intros _; apply framed_user_ret]. Qed.

Lemma framed_user_finduser p nk : framed_user (E := E) p (finduser nk).
Proof. intros n Hg _. by eapply wp_intro; [by apply finduser_det|]. Qed.

Lemma wp_framed_user {A} p (m : M (Net E) A) n (Q : A -> Net E -> Prop) :
  framed_user p m -> heap_ok (graph_of n) -> is_Some (users_heap n !! p) ->
  (forall a n', graph_of n' = graph_of n -> heap_ok (graph_of n') ->
     is_Some (users_heap n' !! p) -> Q a n') -> wp m Q n.
Proof.
  intros Hm Hg Hp HQ. eapply wp_mono; [by apply Hm|]. intros a n' Hn. apply HQ; [done|by rewrite Hn|].
  by rewrite <- is_Some_graph_user, Hn, is_Some_graph_user.
Qed.
End Framed.

Create HintDb framed.
#[export] Hint Resolve framed_user_ret framed_user_gets framed_user_emit framed_user_load
  framed_user_finduser : framed.
#[export] Hint Resolve law_findchan law_channel_row law_channel_store law_set_limit_time
  law_entry_message law_findnick law_getlink law_get_nick_status law_set_nick_status
  law_get_nick_flags law_maxuser_stat law_quit_row law_quit_store law_nickcache_update law_email
  law_cloak law_del_session law_findserver : framed.
#[export] Hint Resolve law_chan_memos law_validate_user law_cancel_user law_check_on_access
  law_check_memos law_update_last_seen law_services_admin law_autojoins
  law_news_logon law_news_oper law_check_kick law_check_valid_op law_check_should_op
  law_check_should_voice : framed.

(** Decompose a computation into its steps and close each by a law. *)
Ltac framed_step :=
  lazymatch goal with
  | |- framed_user _ (mbind _ _) => apply framed_user_bind; [|intros ?]
  | |- framed_user _ (when _ _) => apply framed_user_when
  | |- framed_user _ (upd_user _ _) => apply framed_user_upd; done
  | |- framed_user _ (modify _) => apply framed_user_modify; done
  | |- framed_user _ (match ?x with _ => _ end) => destruct x
  | |- framed_user _ _ => first [solve [eauto with framed] | apply framed_user_ext; solve [eauto with framed]]
  end.
Ltac solve_framed := repeat framed_step.

Lemma law_nick_has {E} `{!NickServ E} `{!NickServLaws E} f p : framed_user p (nick_has (E := E) f p).
Proof. unfold nick_has. solve_framed. Qed.
#[export] Hint Resolve law_nick_has : framed.

(** ** A small network, and components that grant and refuse nothing, on which
    the theorems are exercised. *)
Module Demo.

#[export] Instance conf : Conf := {
  ServerName := "services.oftc.net"; s_NickServ := "NickServ"; s_ChanServ := "ChanServ";
  s_OperServ := "OperServ"; s_FloodServ := "FloodServ";
  s_MemoServ := "MemoServ"; s_HelpServ := "HelpServ"; s_GlobalNoticer := "Global";
  s_IrcIIHelp := None; s_DevNull := None; WallOper := true; LogMaxUsers := true;
  LimitSessions := true; CSOpOper := false; CSAkickOper := false; CSRestrictDelay := 30;
  CSAutokickReason := "User has been banned from the channel"; BadPassLimit := 5;
  BadPassTimeout := 0; start_time := 0
}.

Definition modeserv : ModeServ unit := {|
  check_modes := fun _ => mret tt;
  check_valid_op := fun _ _ _ => mret true
|}.

#[export] Instance chanserv : ChanServ unit := {
  chanserv_modes := modeserv;
  mysql_findchan := fun _ => mret 0;
  mysql_channel_row := fun _ => mret None;
  mysql_channel_store := fun _ => mret tt;
  mysql_set_limit_time := fun _ _ => mret tt;
  restore_topic := fun _ => mret tt;
  record_topic := fun _ => mret tt;
  check_topiclock := fun _ _ _ => mret false;
  check_should_op := fun _ _ => mret false;
  check_should_voice := fun _ _ => mret false;
  check_kick := fun _ _ => mret false;
  mysql_entry_message := fun _ => mret None;
  check_chan_memos := fun _ _ => mret tt
}.

Lemma ext_only_ret {A} (a : A) : ext_only (E := unit) (mret a).
Proof. intros n. apply wp_ret. exists tt. by destruct n as [? ? ? ? ? ? ? ? ? ? ? ? ? ? ? ? []]. Qed.

#[export] Instance chanserv_laws : ChanServLaws unit.
Proof. split; intros; first [apply ext_only_ret|by intros n Hn|by apply wp_ret]. Qed.

#[export] Instance nickserv : NickServ unit := {
  mysql_findnick := fun _ => mret 0;
  mysql_getlink := fun _ => mret 0;
  get_nick_status := fun _ => mret 0;
  set_nick_status := fun _ _ => mret tt;
  get_nick_flags := fun _ => mret 0;
  mysql_maxuser_stat := fun _ _ => mret tt;
  validate_user := fun _ => mret false;
  cancel_user := fun _ => mret tt;
  check_on_access := fun _ => mret tt;
  check_memos := fun _ => mret tt;
  mysql_update_last_seen := fun _ _ => mret tt;
  mysql_quit_row := fun _ => mret false;
  mysql_quit_store := fun _ _ _ => mret tt;
  is_services_admin := fun _ => mret false;
  nickcache_update := fun _ => mret tt;
  get_email_from_id := fun _ => mret EmptyString;
  get_cloak_from_id := fun _ => mret None;
  check_autojoins := fun _ => mret tt;
  display_news_logon := fun _ => mret tt;
  display_news_oper := fun _ => mret tt
}.

#[export] Instance nickserv_laws : NickServLaws unit.
Proof. split; intros; first [apply ext_only_ret|by intros n Hn]. Qed.

#[export] Instance operserv : OperServ unit := {
  check_akill := fun _ _ _ => mret false;
  add_session := fun _ _ => mret true;
  del_session := fun _ => mret tt;
  findserver := fun _ => mret NULL
}.

#[export] Instance operserv_laws : OperServLaws unit.
Proof. split; intros; first [apply ext_only_ret|by apply wp_ret]. Qed.

(** alice, opped on #a, and bob, who is on no channel. *)
Definition alice : User :=
  mkUser "alice" 0 0 NULL "al" "one.example.org" "Alice" 0 0 UMODE_i [2] [] 0 0 0.
Definition bob : User :=
  mkUser "bob" 0 0 NULL "bo" "two.example.org" "Bob" 0 0 0 [] [] 0 0 0.
Definition chan_a : Channel :=
  mkChannel "#a" 0 0 None "" 0 CMODE_n 0 None 0 [] [1] [1] [] 0 0 0 0 0 0 0 0 0 0 0.

Definition net : Net unit :=
  mkNet unit (<[3 := bob]> {[1 := alice]}) {[2 := chan_a]}
    (push (push ∅ (nick_HASH "alice") 1) (nick_HASH "bob") 3) (push ∅ (chan_HASH "#a") 2)
    4 2 0 2 0 NULL 0 NULL 0 "" 1000 [] tt.

Definition empty_graph : graph := mkGraph ∅ ∅ ∅ ∅ 1 NULL.

Lemma empty_graph_ok : graph_ok empty_graph.
Proof.
  assert (Hl : forall A h (nm : A -> string), list_ok h nm (∅ : gmap ptr A) ∅).
  { intros A h nm. split; [intros k; constructor|]. intros k p. unfold bucket.
    rewrite lookup_empty. simpl. rewrite elem_of_nil.
    split; [done|]. by intros (v & Hv & _). }
  split; [|split]; [split; simpl; intros; try done; auto|split; simpl; intros; done|done].
  destruct H as [[v H]|[v H]]; by rewrite lookup_empty in H.
Qed.

Lemma net_ok : graph_ok (graph_of net).
Proof.
  set (g1 := g_new_user "alice" empty_graph).
  set (g2 := (g_new_user "bob" (g_join 1 2 (g_status Opped 1 2 (g_new_chan "#a" g1))))).
  assert (H1 : graph_ok g1) by (apply graph_ok_new_user; [done|apply empty_graph_ok]).
  destruct (new_chan_members g1 "#a") as [Hm Hi]; [apply H1..|].
  assert (H2 : graph_ok g2).
  { apply graph_ok_new_user; [done|]. apply graph_ok_join; [|done|done|by eexists|by eexists].
    apply heap_ok_new_chan; [done|apply H1]. }
  set (f1 := fun v : uview => v{{v_username := "al"; v_host := "one.example.org"}}).
  set (f3 := fun v : uview => v{{v_username := "bo"; v_host := "two.example.org"}}).
  apply (graph_ok_alter_user _ 1 f1) in H2; [|done..].
  by apply (graph_ok_alter_user _ 3 f3) in H2.
Qed.

End Demo.
