(* ===== verification/Channels.v ===== *)
(** [src/channels.c]: the channel table, membership and channel modes. *)

From S2P Require Import Prelude CStr NumTime Wp Graph Net Interfaces.

(** [(unsigned int) strtoul (s, NULL, 10)] *)
Definition ULONG_MAX : Z := 2 ^ 64 - 1.
Definition strtoul_u32 (s : string) : Z :=
  let t := skip_space s in
  let '(neg, t) :=
    match t with
    | String "-" t' => (true, t')
    | String "+" t' => (false, t')
    | _ => (false, t)
    end in
  if starts_digit t then
    let '(v, _) := read_digits 0 t in
    if ULONG_MAX <? v then u32 ULONG_MAX else u32 (if neg then - v else v)
  else 0.

(** The flag of a mode letter that takes no parameter. *)
Definition cmode_flag (c : ascii) : option Z :=
  if Ascii.eqb c "i" then Some CMODE_i
  else if Ascii.eqb c "m" then Some CMODE_m
  else if Ascii.eqb c "M" then Some CMODE_M
  else if Ascii.eqb c "n" then Some CMODE_n
  else if Ascii.eqb c "p" then Some CMODE_p
  else if Ascii.eqb c "s" then Some CMODE_s
  else if Ascii.eqb c "t" then Some CMODE_t
  else if Ascii.eqb c "c" then Some CMODE_c
  else if Ascii.eqb c "O" then Some CMODE_O
  else if Ascii.eqb c "R" then Some CMODE_R
  else None.

(** [if (add) m |= f; else m &= ~f;] *)
Definition set_flag (add : bool) (f m : Z) : Z := if add then m .| f else m .&~ f.

(** The variables of the mode loop: [add], [ac] and [av]. *)
Record mstate := mkMState { m_add : bool; m_ac : Z; m_av : list string }.

Section Channels.
Context `{Conf} {E : Type} `{ChanServ E}.
Implicit Types (n : Net E).

(** *** chan_adduser *)
Definition empty_channel (nm : string) : Channel :=
  mkChannel nm 0 0 None EmptyString 0 0 0 None 0 [] [] [] [] 0 0 0 0 0 0 0 0 0 0 0.

(** [scalloc], then the link into [chanlist]. *)
Definition alloc_channel (chan : string) : M (Net E) ptr :=
  n ← get;
  let p := next_addr n in
  let nm := trunc CHANMAX chan in
  modify (fun n => n{{chans_heap ::= insert p (empty_channel nm);
                      chanlist := push (chanlist n) (chan_HASH nm) p;
                      next_addr := p + 1}});;
  mret p.

Definition mysql_init_channel (c : ptr) : M (Net E) unit :=
  upd_chan c (fun ch => ch{{last_limit_time := 0; limit_offset := 0; limit_tolerance := 0;
                           limit_period := 0; bantime := 0}});;
  ch ← load_chan c;
  if channel_id ch =? 0 then mret tt
  else
    row ← mysql_channel_row (channel_id ch);
    match row with
    | None => mret tt
    | Some r =>
        upd_chan c (fun ch => ch{{last_limit_time := r_last_limit_time r;
                                 limit_offset := r_limit_offset r;
                                 limit_tolerance := r_limit_tolerance r;
                                 limit_period := r_limit_period r;
                                 bantime := r_bantime r; floodserv := r_floodserv r}})
    end.

Definition create_channel (chan : string) : M (Net E) ptr :=
  c ← alloc_channel chan;
  t ← gets now;
  upd_chan c (fun ch => ch{{creation_time := t}});;
  i ← mysql_findchan chan;
  upd_chan c (fun ch => ch{{channel_id := i}});;
  mysql_init_channel c;;
  check_modes chan;;
  restore_topic chan;;
  ch ← load_chan c;
  when (negb (floodserv ch =? 0))
    (send_cmd (Some ServerName)
       ("SJOIN " +:+ show_int t +:+ " " +:+ name ch +:+ " + :" +:+ s_FloodServ));;
  mret c.

Definition chan_adduser (user : ptr) (chan : string) : M (Net E) unit :=
  c0 ← findchan chan;
  c ← (if c0 =? NULL then create_channel chan else mret c0);
  op ← check_should_op user chan;
  (if op : bool then upd_chan c (fun ch => ch{{chanops ::= cons user}})
   else
     vo ← check_should_voice user chan;
     when vo (upd_chan c (fun ch => ch{{voices ::= cons user}})));;
  upd_chan c (fun ch => ch{{users ::= cons user}}).

(** *** check_autolimit *)
Definition check_autolimit (c : ptr) (t : Z) (allow_raise : bool) : M (Net E) unit :=
  if c =? NULL then mret tt else
  ch ← load_chan c;
  if (channel_id ch =? 0) || (limit_offset ch =? 0) then mret tt
  else if t - last_limit_time ch <=? 10 then mret tt
  else
    let usercnt := u32 (Z.of_nat (length (users ch))) in
    let delta := wrap32 (usercnt + limit_offset ch - limit ch) in
    when ((delta <? 0) || ((limit_tolerance ch <? u32 delta) && allow_raise))
      (upd_chan c (fun ch => ch{{limit := u32 (usercnt + limit_offset ch)}});;
       send_cmd (Some s_ChanServ)
         ("MODE " +:+ name ch +:+ " +l " +:+ show_int (wrap32 (usercnt + limit_offset ch))));;
    upd_chan c (fun ch => ch{{last_limit_time := t}});;
    mysql_set_limit_time (channel_id ch) t.

(** *** chan_deluser *)
Definition mysql_destroy_channel (c : ptr) : M (Net E) unit :=
  ch ← load_chan c;
  when (negb (channel_id ch =? 0)) (mysql_channel_store ch).

Definition free_channel (c : ptr) : M (Net E) unit :=
  ch ← load_chan c;
  modify (fun n => n{{chans_heap ::= delete c;
                      chanlist := pull (chanlist n) (chan_HASH (name ch)) c}}).

Definition chan_deluser (user c : ptr) : M (Net E) unit :=
  upd_chan c (fun ch => ch{{users ::= unlink user}});;
  upd_chan c (fun ch => ch{{chanops ::= unlink user}});;
  upd_chan c (fun ch => ch{{voices ::= unlink user}});;
  ch ← load_chan c;
  match users ch with
  | [] => mysql_destroy_channel c;; free_channel c
  | _ => t ← gets now; check_autolimit c t false
  end.

End Channels.

(** *** do_cmode *)
Section CmodeOps.
Context `{Conf} {E : Type} `{!ModeServ E}.
Implicit Types (n : Net E).

(** [*av]: reading past the arguments is a fault. *)
Definition arg (av : list string) : M (Net E) string :=
  match av with a :: _ => mret a | [] => fault end.

(** [for (u = list; u && stricmp (u->user->nick, nick) != 0; u = u->next) ;] *)
Fixpoint list_find_nick (l : list ptr) (nk : string) : M (Net E) ptr :=
  match l with
  | [] => mret NULL
  | p :: l' =>
      u ← load_user p;
      if stricmp (nick u) nk =? 0 then mret p else list_find_nick l' nk
  end.

Definition add_ban (c : ptr) (msk : string) : M (Net E) unit :=
  t ← gets now;
  upd_chan c (fun ch =>
    let sz := if bansize ch <=? Z.of_nat (length (newbans ch)) then bansize ch + 8
              else bansize ch in
    ch{{bansize := sz; newbans := newbans ch ++ [mkBan msk t] }}).

Definition del_ban (c : ptr) (msk : string) : M (Net E) unit :=
  upd_chan c (fun ch =>
    ch{{newbans ::= remove_first (fun b => String.eqb (mask b) msk)}}).

Definition cmode_key (c : ptr) (st : mstate) : M (Net E) mstate :=
  let ac := m_ac st - 1 in
  if ac <? 0 then mret (st{{m_ac := ac}})
  else
    upd_chan c (fun ch => ch{{key := None}});;
    if m_add st then
      k ← arg (m_av st);
      upd_chan c (fun ch => ch{{key := Some k}});;
      mret (st{{m_ac := ac; m_av ::= tail}})
    else mret (st{{m_ac := ac}}).

Definition cmode_limit (c : ptr) (st : mstate) : M (Net E) mstate :=
  if m_add st then
    let ac := m_ac st - 1 in
    if ac <? 0 then mret (st{{m_ac := ac}})
    else
      a ← arg (m_av st);
      upd_chan c (fun ch => ch{{limit := strtoul_u32 a}});;
      mret (st{{m_ac := ac; m_av ::= tail}})
  else upd_chan c (fun ch => ch{{limit := 0}});; mret st.

Definition cmode_ban (c : ptr) (st : mstate) : M (Net E) mstate :=
  let ac := m_ac st - 1 in
  if ac <? 0 then mret (st{{m_ac := ac}})
  else
    a ← arg (m_av st);
    (if m_add st then add_ban c a else del_ban c a);;
    mret (st{{m_ac := ac; m_av ::= tail}}).

Definition cmode_op (source : string) (c : ptr) (st : mstate) : M (Net E) mstate :=
  let ac := m_ac st - 1 in
  if ac <? 0 then mret (st{{m_ac := ac}})
  else
    nk ← arg (m_av st);
    ch ← load_chan c;
    u ← list_find_nick (chanops ch) nk;
    (if m_add st then
       if negb (u =? NULL) then mret tt
       else
         user ← finduser nk;
         if user =? NULL then mret tt
         else
           ok ← check_valid_op user (name ch) (has_char source ".");
           when ok (upd_chan c (fun ch => ch{{chanops ::= cons user}}))
     else
       when (negb (u =? NULL)) (upd_chan c (fun ch => ch{{chanops ::= unlink u}})));;
    mret (st{{m_ac := ac; m_av ::= tail}}).

Definition cmode_voice (c : ptr) (st : mstate) : M (Net E) mstate :=
  let ac := m_ac st - 1 in
  if ac <? 0 then mret (st{{m_ac := ac}})
  else
    nk ← arg (m_av st);
    ch ← load_chan c;
    u ← list_find_nick (voices ch) nk;
    (if m_add st then
       if negb (u =? NULL) then mret tt
       else
         user ← finduser nk;
         when (negb (user =? NULL)) (upd_chan c (fun ch => ch{{voices ::= cons user}}))
     else
       when (negb (u =? NULL)) (upd_chan c (fun ch => ch{{voices ::= unlink u}})));;
    mret (st{{m_ac := ac; m_av ::= tail}}).

Definition cmode_step (source : string) (c : ptr) (st : mstate) (modechar : ascii)
    : M (Net E) mstate :=
  if Ascii.eqb modechar "+" then mret (st{{m_add := true}})
  else if Ascii.eqb modechar "-" then mret (st{{m_add := false}})
  else match cmode_flag modechar with
  | Some f => upd_chan c (fun ch => ch{{cmode ::= set_flag (m_add st) f}});; mret st
  | None =>
      if Ascii.eqb modechar "k" then cmode_key c st
      else if Ascii.eqb modechar "l" then cmode_limit c st
      else if Ascii.eqb modechar "b" then cmode_ban c st
      else if Ascii.eqb modechar "o" then cmode_op source c st
      else if Ascii.eqb modechar "v" then cmode_voice c st
      else mret st
  end.

Fixpoint cmode_loop (source : string) (c : ptr) (s : string) (st : mstate) : M (Net E) unit :=
  match s with
  | EmptyString => mret tt
  | String modechar s' => st' ← cmode_step source c st modechar; cmode_loop source c s' st'
  end.

(** The counting of repeated modes from a server. *)
Definition count_server_modes (source : string) (c : ptr) (modestr : string) : M (Net E) unit :=
  when (has_char source "." && negb (String.eqb source ServerName) &&
        Ascii.eqb (char_at modestr (strcspn modestr "bov")) NUL)
    (t ← gets now;
     last ← gets lastmodes;
     ch ← load_chan c;
     when (negb (t =? server_modetime ch) || negb (String.eqb modestr last))
       (upd_chan c (fun ch => ch{{server_modecount := 0; server_modetime := t}});;
        modify (fun n => n{{lastmodes := trunc 40 modestr}}));;
     upd_chan c (fun ch => ch{{server_modecount ::= fun k => wrap16 (k + 1)}})).

(** [av] is the argument vector after the channel and the modes, [ac] the
    full argument count. *)
Definition do_cmode (source : string) (ac : Z) (chan modestr : string) (av : list string)
    : M (Net E) unit :=
  c ← findchan chan;
  if c =? NULL then mret tt
  else
    count_server_modes source c modestr;;
    cmode_loop source c modestr (mkMState true (ac - 2) av);;
    ch ← load_chan c;
    check_modes (name ch).

End CmodeOps.

(** *** do_topic *)
Section ChannelEvents.
Context `{Conf} {E : Type} `{!ChanServ E}.
Implicit Types (n : Net E).

Definition do_topic (nk : string) (ac : Z) (chan : string) (av : list string) : M (Net E) unit :=
  c ← findchan chan;
  if c =? NULL then mret tt
  else
    locked ← check_topiclock chan nk c;
    if locked : bool then mret tt
    else
      t ← gets now;
      upd_chan c (fun ch => ch{{topic_setter := trunc NICKMAX nk; topic_time := t;
                               topic := None}});;
      (if 1 <? ac then
         a ← arg av;
         when (negb (String.eqb a EmptyString)) (upd_chan c (fun ch => ch{{topic := Some a}}))
       else mret tt);;
      record_topic chan.

(** *** Lookup by id, and the periodic events *)
Fixpoint findchan_by_id_loop (fuel : nat) (c : ptr) (i : Z) : M (Net E) ptr :=
  match fuel with
  | O => fault
  | S fuel' =>
      if c =? NULL then mret NULL
      else
        ch ← load_chan c;
        if channel_id ch =? i then mret c
        else c' ← nextchan; findchan_by_id_loop fuel' c' i
  end.

Definition findchan_by_id (i : Z) : M (Net E) ptr :=
  n ← get; c ← firstchan; findchan_by_id_loop (S (size (chans_heap n))) c i.

(** The bans [chan_update_events] removes: those set before the threshold. *)
Definition expired_bans (ch : Channel) (t : Z) : list string :=
  map mask (filter (fun b => bool_decide (btime b < t - u32 (bantime ch * 60))) (newbans ch)).

Definition chan_update_event (c : ptr) (t : Z) : M (Net E) unit :=
  ch ← load_chan c;
  if channel_id ch =? 0 then mret tt
  else
    when ((0 <? limit_offset ch) &&
          (u32 (limit_period ch * 60) <=? u32 (t - last_limit_time ch)))
      (check_autolimit c t true);;
    ch ← load_chan c;
    when (negb (bantime ch =? 0))
      (for_each (expired_bans ch t) (fun msk =>
         send_cmd (Some s_ChanServ) ("MODE " +:+ name ch +:+ " -b " +:+ msk);;
         do_cmode s_ChanServ 3 (name ch) "-b" [msk])).

Fixpoint chan_update_loop (fuel : nat) (c : ptr) (t : Z) : M (Net E) unit :=
  match fuel with
  | O => fault
  | S fuel' =>
      if c =? NULL then mret tt
      else chan_update_event c t;; c' ← nextchan; chan_update_loop fuel' c' t
  end.

Definition chan_update_events (t : Z) : M (Net E) unit :=
  n ← get; c ← firstchan; chan_update_loop (S (size (chans_heap n))) c t.

Definition chan_count_users (c : ptr) : M (Net E) Z :=
  if c =? NULL then mret 0 else ch ← load_chan c; mret (u32 (Z.of_nat (length (users ch)))).
End ChannelEvents.

(** ** Lemmas *)
Section ChannelLemmas.
Context `{Conf} {E : Type} `{!ChanServ E} `{!ChanServLaws E}.
Implicit Types (n : Net E).

(** A store to a channel that its view does not show. *)
Lemma wp_upd_chan_hidden n c ch f (Q : unit -> Net E -> Prop) :
  chans_heap n !! c = Some ch -> (forall ch, chan_view (f ch) = chan_view ch) ->
  (forall n' ch', graph_of n' = graph_of n -> chans_heap n' !! c = Some ch' ->
     ch' = f ch -> users_heap n' = users_heap n -> Q tt n') -> wp (upd_chan c f) Q n.
Proof.
  intros Hc Hf HQ. eapply wp_upd_chan; [done|]. eapply HQ; [|apply lookup_insert_eq|done|done].
  apply (graph_upd_chan_id n c ch); [done|apply Hf].
Qed.

(** A store that does to the view what [h] says. *)
Lemma wp_upd_chan_view n c ch f h (Q : unit -> Net E -> Prop) :
  chans_heap n !! c = Some ch -> (forall ch, chan_view (f ch) = h (chan_view ch)) ->
  (forall n', graph_of n' = (graph_of n){{g_chans ::= alter h c}} ->
     chans_heap n' !! c = Some (f ch) -> users_heap n' = users_heap n -> Q tt n') ->
  wp (upd_chan c f) Q n.
Proof.
  intros Hc Hf HQ. eapply wp_upd_chan; [done|]. apply HQ; [|apply lookup_insert_eq|done].
  by apply graph_upd_chan.
Qed.

Lemma chan_of_graph n n' c :
  graph_of n' = graph_of n -> is_Some (chans_heap n !! c) -> is_Some (chans_heap n' !! c).
Proof. intros Hg. by rewrite <- !is_Some_graph_chan, Hg. Qed.

Lemma user_of_graph n n' p :
  graph_of n' = graph_of n -> is_Some (users_heap n !! p) -> is_Some (users_heap n' !! p).
Proof. intros Hg. by rewrite <- !is_Some_graph_user, Hg. Qed.

Lemma check_autolimit_frame n c t b :
  is_Some (chans_heap n !! c) -> wp (check_autolimit c t b) (fun _ n' => graph_of n' = graph_of n) n.
Proof.
  intros [ch Hc]. unfold check_autolimit. destruct (c =? NULL); [by apply wp_ret|].
  apply wp_bind. eapply wp_load_chan; [done|].
  destruct (_ || _); [by apply wp_ret|]. destruct (_ <=? 10); [by apply wp_ret|].
  apply wp_bind, wp_when; intros _.
  - apply wp_bind. eapply wp_upd_chan_hidden; [done|done|]. intros n1 ch1 Hg1 Hc1 _ _.
    apply wp_modify. apply wp_bind. eapply wp_upd_chan_hidden; [done|done|].
    intros n2 ch2 Hg2 Hc2 _ _. eapply wp_mono; [apply ext_only_graph, law_set_limit_time|].
    intros _ n3 ->. rewrite Hg2. done.
  - apply wp_bind. eapply wp_upd_chan_hidden; [done|done|].
    intros n2 ch2 Hg2 Hc2 _ _. eapply wp_mono; [apply ext_only_graph, law_set_limit_time|].
    intros _ n3 ->. done.
Qed.

(** [chan_deluser] removes the user from the three lists and frees the
    channel with its last user. *)
Lemma chan_deluser_spec n p c :
  is_Some (chans_heap n !! c) ->
  wp (chan_deluser p c) (fun _ n' => graph_of n' = g_deluser p c (graph_of n)) n.
Proof.
  intros [ch Hc]. unfold chan_deluser. apply wp_bind.
  eapply (wp_upd_chan_view n c ch _ (fun w => w{{w_users ::= unlink p}})); [done|done|].
  intros n1 Hg1 Hc1 Hu1. apply wp_bind.
  eapply (wp_upd_chan_view n1 c _ _ (fun w => w{{w_ops ::= unlink p}})); [done|done|].
  intros n2 Hg2 Hc2 Hu2. apply wp_bind.
  eapply (wp_upd_chan_view n2 c _ _ (fun w => w{{w_voices ::= unlink p}})); [done|done|].
  intros n3 Hg3 Hc3 Hu3. apply wp_bind. eapply wp_load_chan; [done|]. simpl in Hc3.
  assert (Hg : graph_of n3 = (graph_of n){{g_chans ::= insert c (part_view p (chan_view ch))}}).
  { rewrite Hg3, Hg2, Hg1. simpl. f_equal. rewrite !alter_alter_eq. apply alter_insert_eq'.
    by rewrite lookup_fmap, Hc. }
  unfold g_deluser. assert (Hx : g_chans (graph_of n) !! c = Some (chan_view ch)) by (apply graph_chan; eauto).
  rewrite Hx. cbn [part_view w_users chan_view tset set]. simpl.
  destruct (unlink p (users ch)) as [|q l] eqn:El.
  - apply wp_bind. unfold mysql_destroy_channel. apply wp_bind. eapply wp_load_chan; [done|].
    assert (Hfree : forall n', graph_of n' = graph_of n3 ->
      wp (free_channel c) (fun _ n'' => graph_of n'' =
        (graph_of n){{g_chans := delete c (g_chans (graph_of n));
                      g_clist := pull (g_clist (graph_of n)) (chan_HASH (name ch)) c}}) n').
    { intros n' Hn'. destruct (chan_of_graph n3 n' c Hn' ltac:(eauto)) as [ch' Hc'].
      unfold free_channel. apply wp_bind. eapply wp_load_chan; [done|]. apply wp_modify.
      assert (Hv : chan_view ch' = part_view p (chan_view ch)).
      { assert (Hy : g_chans (graph_of n') !! c = Some (chan_view ch')) by (apply graph_chan; eauto).
        rewrite Hn', Hg in Hy. simpl in Hy. rewrite lookup_insert_eq in Hy. by simplify_eq. }
      injection Hv as Hnm _ _ _. rewrite Hnm. rewrite Hg in Hn'.
      unfold graph_of in *. simpl in *. injection Hn' as H1 H2 H3 H4 H5 H6.
      rewrite fmap_delete, H1, H2, H3, H4, H5, H6. by rewrite delete_insert_eq. }
    apply wp_when; intros _; [|by apply Hfree].
    eapply wp_mono; [apply ext_only_graph, law_channel_store|]. intros [] n' Hn'. by apply Hfree.
  - wps. eapply wp_mono; [apply check_autolimit_frame; eauto|].
    intros _ n' ->. by rewrite Hg.
Qed.

Lemma mysql_init_channel_frame n c :
  is_Some (chans_heap n !! c) -> wp (mysql_init_channel c) (fun _ n' => graph_of n' = graph_of n) n.
Proof.
  intros [ch Hc]. unfold mysql_init_channel. apply wp_bind.
  eapply wp_upd_chan_hidden; [done|done|]. intros n1 ch1 Hg1 Hc1 _ _.
  apply wp_bind. eapply wp_load_chan; [done|]. destruct (_ =? 0); [by apply wp_ret|].
  apply wp_bind. eapply wp_mono; [apply ext_only_graph, law_channel_row|]. intros [r|] n2 Hn2; [|apply wp_ret; congruence].
  destruct (chan_of_graph n1 n2 c Hn2 ltac:(eauto)) as [ch2 Hc2].
  eapply wp_upd_chan_hidden; [done|done|]. intros. congruence.
Qed.

Lemma create_channel_spec n chan :
  heap_ok (graph_of n) -> no_nul chan = true ->
  wp (create_channel chan) (fun c n' => c = next_addr n /\
    graph_of n' = g_new_chan (trunc CHANMAX chan) (graph_of n)) n.
Proof.
  intros Hg Hch. set (g' := g_new_chan (trunc CHANMAX chan) (graph_of n)).
  assert (Hg' : heap_ok g') by (apply heap_ok_new_chan; [by apply no_nul_take|done]).
  unfold create_channel, alloc_channel. wps.
  set (n1 := n{{chans_heap ::= _; chanlist := _; next_addr := _}}).
  assert (Hn1 : graph_of n1 = g').
  { unfold n1, g', g_new_chan, graph_of. simpl. by rewrite fmap_insert. }
  assert (Hc1 : chans_heap n1 !! next_addr n = Some (empty_channel (trunc CHANMAX chan)))
    by apply lookup_insert_eq.
  clearbody n1. eapply wp_upd_chan_hidden; [done|done|]. intros n2 ch2 Hn2 Hc2 _ _. wps.
  eapply wp_mono; [apply ext_only_graph, law_findchan|]. intros i n3 Hn3. wps.
  destruct (chan_of_graph n2 n3 _ Hn3 ltac:(eauto)) as [ch3 Hc3].
  eapply wp_upd_chan_hidden; [done|done|]. intros n4 ch4 Hn4 Hc4 _ _. wps.
  eapply wp_mono; [apply mysql_init_channel_frame; eauto|]. intros [] n5 Hn5. wps.
  assert (H5 : graph_of n5 = g') by congruence.
  eapply wp_framed; [by apply law_check_modes|by rewrite H5|]. intros [] n6 Hn6 Hh6. wps.
  eapply wp_framed; [by apply law_restore_topic|done|]. intros [] n7 Hn7 Hh7. wps.
  destruct (chan_of_graph n4 n7 (next_addr n)) as [ch7 Hc7]; [by rewrite Hn7, Hn6, Hn5|eauto|].
  eapply wp_load_chan; [done|]. apply wp_bind, wp_when; intros _; [apply wp_modify|];
    apply wp_ret; (split; [done|]); rewrite <- H5, <- Hn6, <- Hn7; done.
Qed.

(** What [chan_adduser] does to the graph. *)
Definition adduser_graph (p : ptr) (chan : string) (g g' : graph) : Prop :=
  exists c st,
    (c <> NULL /\ c = g_findchan g chan /\ g' = g_member p c (g_status st p c g)) \/
    (g_findchan g chan = NULL /\ c = g_next g /\
     g' = g_member p c (g_status st p c (g_new_chan (trunc CHANMAX chan) g))).

Lemma chan_adduser_tail n p chan c :
  heap_ok (graph_of n) -> no_nul chan = true ->
  is_Some (users_heap n !! p) -> is_Some (chans_heap n !! c) ->
  wp (op ← check_should_op p chan;
      (if op : bool then upd_chan c (fun ch => ch{{chanops ::= cons p}})
       else vo ← check_should_voice p chan;
            when vo (upd_chan c (fun ch => ch{{voices ::= cons p}})));;
      upd_chan c (fun ch => ch{{users ::= cons p}}))
    (fun _ n' => exists st, graph_of n' = g_member p c (g_status st p c (graph_of n))) n.
Proof.
  intros Hg Hnm Hp Hc. apply wp_bind.
  eapply wp_mono; [by apply law_check_should_op|]. intros op n1 Hn1.
  destruct (chan_of_graph n n1 c Hn1 Hc) as [ch1 Hc1]. apply wp_bind. destruct op.
  - eapply (wp_upd_chan_view n1 c ch1 _ (fun w => w{{w_ops ::= cons p}})); [done|done|].
    intros n2 Hn2 Hc2 _.
    eapply (wp_upd_chan_view n2 c _ _ (fun w => w{{w_users ::= cons p}})); [done|done|].
    intros n3 Hn3 _ _. exists Opped. rewrite Hn3, Hn2, Hn1. done.
  - apply wp_bind. eapply wp_mono; [apply law_check_should_voice; [done|by rewrite Hn1|by eapply user_of_graph]|].
    intros vo n2 Hn2. destruct (chan_of_graph n1 n2 c Hn2 ltac:(eauto)) as [ch2 Hc2].
    apply wp_when; intros _.
    + eapply (wp_upd_chan_view n2 c ch2 _ (fun w => w{{w_voices ::= cons p}})); [done|done|].
      intros n3 Hn3 Hc3 _.
      eapply (wp_upd_chan_view n3 c _ _ (fun w => w{{w_users ::= cons p}})); [done|done|].
      intros n4 Hn4 _ _. exists Voiced. rewrite Hn4, Hn3, Hn2, Hn1. done.
    + eapply (wp_upd_chan_view n2 c _ _ (fun w => w{{w_users ::= cons p}})); [done|done|].
      intros n4 Hn4 _ _. exists Plain. rewrite Hn4, Hn2, Hn1. done.
Qed.

Lemma chan_adduser_spec n p chan :
  heap_ok (graph_of n) -> no_nul chan = true -> is_Some (users_heap n !! p) ->
  wp (chan_adduser p chan) (fun _ n' => adduser_graph p chan (graph_of n) (graph_of n')) n.
Proof.
  intros Hg Hnm Hp. unfold chan_adduser. apply wp_bind.
  eapply wp_intro; [by apply findchan_det|]. pose proof (g_findchan_found n chan Hg Hnm) as Hc0.
  destruct (Z.eqb_spec (g_findchan (graph_of n) chan) NULL) as [E0|Hne]; apply wp_bind.
  - eapply wp_mono; [by apply create_channel_spec|]. intros c n1 [-> Hn1].
    eapply wp_mono; [apply chan_adduser_tail; [|done|..]|].
    + rewrite Hn1. apply heap_ok_new_chan; [by apply no_nul_take|done].
    + rewrite <- is_Some_graph_user, Hn1. simpl. by rewrite lookup_fmap, fmap_is_Some.
    + rewrite <- is_Some_graph_chan, Hn1. simpl. by rewrite lookup_insert_eq.
    + intros [] n2 [st Hn2]. exists (next_addr n), st. right. by rewrite Hn2, Hn1.
  - apply wp_ret. destruct (chan_found_chan _ _ _ Hc0 Hne) as (ch & Hc & _).
    eapply wp_mono; [apply chan_adduser_tail; eauto|].
    intros [] n2 [st Hn2]. eexists _, st. by left.
Qed.
End ChannelLemmas.

(** *** Channel modes

    A MODE command changes the operator and voice lists of its channel and
    nothing else of the graph.  [I] is any property of the graph kept by those
    changes; the loop keeps it and never faults, whatever the mode string, as
    long as the argument count is that of the argument vector. *)

(** Can the mode string op or voice anyone? *)
Fixpoint may_op (s : string) : bool :=
  match s with
  | EmptyString => false
  | String mc s' => Ascii.eqb mc "o" || Ascii.eqb mc "v" || may_op s'
  end.

Section Cmode.
Context `{Conf} {E : Type} `{!ChanServ E} `{!ChanServLaws E}.
Context (c : ptr) (args : list string) (mayop : bool) (I : graph -> Prop).
Hypothesis args_ok : forall a, a ∈ args -> no_nul a = true.
Hypothesis I_heap : forall g, I g -> heap_ok g.
Hypothesis I_chan : forall g, I g -> is_Some (g_chans g !! c).
Hypothesis I_deop : forall g p, I g -> I (g_deop p c g).
Hypothesis I_devoice : forall g p, I g -> I (g_devoice p c g).
Hypothesis I_op : forall g p w nk, mayop = true -> I g -> nk ∈ args ->
  g_chans g !! c = Some w -> nick_found g nk p -> p = g_finduser g nk -> p <> NULL ->
  p ∉ w_ops w -> I (g_op p c g).
Hypothesis I_voice : forall g p w nk, mayop = true -> I g -> nk ∈ args ->
  g_chans g !! c = Some w -> nick_found g nk p -> p = g_finduser g nk -> p <> NULL ->
  p ∉ w_voices w -> I (g_voice p c g).
Implicit Types (n : Net E).

Definition st_ok (st : mstate) : Prop :=
  m_ac st <= Z.of_nat (length (m_av st)) /\ forall a, a ∈ m_av st -> a ∈ args.

Definition step_post (st' : mstate) n : Prop := I (graph_of n) /\ st_ok st'.

Lemma chan_there n : I (graph_of n) -> exists ch, chans_heap n !! c = Some ch.
Proof. intros HI. apply I_chan in HI. by apply is_Some_graph_chan in HI. Qed.

Lemma st_ok_flag st b : st_ok st -> st_ok (st{{m_add := b}}).
Proof. done. Qed.

Lemma st_ok_none st : st_ok st -> st_ok (st{{m_ac := m_ac st - 1}}).
Proof. intros [H1 H2]. split; simpl; [lia|done]. Qed.

(** An argument is there when the count says so. *)
Lemma wp_arg st n Q :
  st_ok st -> 0 <= m_ac st - 1 ->
  (forall a, a ∈ args -> no_nul a = true ->
     st_ok (st{{m_ac := m_ac st - 1; m_av ::= tail}}) -> Q a n) ->
  wp (arg (m_av st)) Q n.
Proof.
  intros [Hl Ha] Hac HQ. destruct (m_av st) as [|a av] eqn:E'; simpl in *; [lia|].
  apply wp_ret. apply HQ; [apply Ha; constructor|apply args_ok, Ha; constructor|].
  split; simpl; rewrite E'; simpl; [lia|]. intros b Hb. apply Ha. by constructor.
Qed.

Lemma wp_hidden n f Q :
  I (graph_of n) -> (forall ch, chan_view (f ch) = chan_view ch) ->
  (forall n', I (graph_of n') -> graph_of n' = graph_of n -> Q tt n') -> wp (upd_chan c f) Q n.
Proof.
  intros HI Hf HQ. destruct (chan_there n HI) as [ch Hc].
  eapply wp_upd_chan_hidden; [done|done|]. intros n' _ Hn _ _ _. apply HQ; [by rewrite Hn|done].
Qed.

Lemma cmode_key_inv st n :
  I (graph_of n) -> st_ok st -> wp (cmode_key c st) step_post n.
Proof.
  intros HI Hst. unfold cmode_key. case_match eqn:Hac; [apply wp_ret; auto using st_ok_none|..].
  { split; [done|]. by apply st_ok_none. }
  apply Z.ltb_ge in Hac. apply wp_bind, wp_hidden; [done|done|]. intros n1 HI1 _.
  destruct (m_add st); [|apply wp_ret; split; [done|by apply st_ok_none]].
  apply wp_bind, wp_arg; [done|done|]. intros a _ _ Hst'. apply wp_bind, wp_hidden; [done|done|].
  intros n2 HI2 _. by apply wp_ret.
Qed.

Lemma cmode_limit_inv st n :
  I (graph_of n) -> st_ok st -> wp (cmode_limit c st) step_post n.
Proof.
  intros HI Hst. unfold cmode_limit. destruct (m_add st).
  - case_match eqn:Hac; [apply wp_ret; split; [done|by apply st_ok_none]|].
    apply Z.ltb_ge in Hac. apply wp_bind, wp_arg; [done|done|]. intros a _ _ Hst'.
    apply wp_bind, wp_hidden; [done|done|]. intros n2 HI2 _. by apply wp_ret.
  - apply wp_bind, wp_hidden; [done|done|]. intros n2 HI2 _. by apply wp_ret.
Qed.

Lemma cmode_ban_inv st n :
  I (graph_of n) -> st_ok st -> wp (cmode_ban c st) step_post n.
Proof.
  intros HI Hst. unfold cmode_ban. case_match eqn:Hac; [apply wp_ret; split; [done|by apply st_ok_none]|].
  apply Z.ltb_ge in Hac. apply wp_bind, wp_arg; [done|done|]. intros a _ _ Hst'. apply wp_bind.
  destruct (m_add st).
  - unfold add_ban. apply wp_bind, wp_gets, wp_hidden; [done|done|]. intros n2 HI2 _. by apply wp_ret.
  - apply wp_hidden; [done|done|]. intros n2 HI2 _. by apply wp_ret.
Qed.

Lemma list_find_nick_spec n l nk :
  (forall p, p ∈ l -> is_Some (users_heap n !! p)) ->
  wp (list_find_nick l nk) (fun p n' => n' = n /\
    (p = NULL -> NULL ∉ l ->
     forall q u, q ∈ l -> users_heap n !! q = Some u -> stricmp (nick u) nk <> 0)) n.
Proof.
  induction l as [|p l IH]; intros Hl; simpl.
  - apply wp_ret. split; [done|]. intros _ _ q u Hq. by apply elem_of_nil in Hq.
  - destruct (Hl p ltac:(constructor)) as [u Hu]. apply wp_bind. eapply wp_load_user; [done|].
    destruct (Z.eqb_spec (stricmp (nick u) nk) 0) as [Ec|Ec].
    + apply wp_ret. split; [done|]. intros -> []. constructor.
    + eapply wp_mono; [apply IH; intros q Hq; apply Hl; by constructor|].
      intros r n' [-> Hn]. split; [done|]. intros -> Hnl q u' Hq Hu'.
      apply elem_of_cons in Hq as [->|Hq]; [congruence|]. eapply Hn; [done| |done|done].
      intros Hin. apply Hnl. by constructor.
Qed.

Lemma members_valid n ch p :
  I (graph_of n) -> chans_heap n !! c = Some ch ->
  p ∈ users ch \/ p ∈ chanops ch \/ p ∈ voices ch -> is_Some (users_heap n !! p).
Proof.
  intros HI Hc Hp. apply is_Some_graph_user.
  eapply (ho_users _ (I_heap _ HI) c (chan_view ch)); [apply graph_chan; eauto|done].
Qed.

(** A nick that no listed user bears names a user who is not listed. *)
Lemma not_listed n (l : list ptr) nk p :
  heap_ok (graph_of n) -> nick_found (graph_of n) nk p -> p <> NULL ->
  (NULL ∉ l -> forall q u, q ∈ l -> users_heap n !! q = Some u -> stricmp (nick u) nk <> 0) ->
  (forall q, q ∈ l -> is_Some (users_heap n !! q)) -> p ∉ l.
Proof.
  intros Hg Hf Hp Hn Hv Hin. destruct (nick_found_user _ _ _ Hf Hp) as (u & Hu & Hc).
  eapply (Hn ltac:(intros H0; destruct (Hv _ H0); by eapply user_addr) p u); [done|done|].
  by rewrite stricmp_irc.
Qed.

Lemma cmode_op_inv source st n :
  mayop = true -> I (graph_of n) -> st_ok st -> wp (cmode_op source c st) step_post n.
Proof.
  intros Hmay HI Hst. unfold cmode_op. case_match eqn:Hac; [apply wp_ret; split; [done|by apply st_ok_none]|].
  apply Z.ltb_ge in Hac. apply wp_bind, wp_arg; [done|done|]. intros nk Hnk Hnul Hst'.
  destruct (chan_there n HI) as [ch Hc]. apply wp_bind. eapply wp_load_chan; [done|].
  assert (Hval : forall q, q ∈ chanops ch -> is_Some (users_heap n !! q))
    by (intros; eapply members_valid; eauto).
  apply wp_bind. eapply wp_mono; [by apply list_find_nick_spec|]. intros u n' [-> Hu].
  apply wp_bind. destruct (m_add st).
  - destruct (Z.eqb_spec u NULL) as [->|]; simpl; [|by apply wp_ret].
    apply wp_bind, wp_finduser; [by apply I_heap|done|]. intros user Huser Hdet.
    destruct (Z.eqb_spec user NULL) as [->|Hne]; [by apply wp_ret|].
    destruct (nick_found_user _ _ _ Huser Hne) as (uu & Huu & _).
    apply wp_bind. eapply wp_mono; [apply law_check_valid_op; [|by apply I_heap|eauto]|].
    { eapply (ho_name _ (I_heap _ HI) c (chan_view ch)), graph_chan; eauto. }
    intros ok n1 Hn1. apply wp_when; intros _; [|apply wp_ret; split; [by rewrite Hn1|done]].
    destruct (chan_of_graph n n1 c Hn1 ltac:(eauto)) as [ch1 Hc1].
    eapply (wp_upd_chan_view n1 c ch1 _ (fun w => w{{w_ops ::= cons user}})); [done|done|].
    intros n2 Hn2 _ _. apply wp_ret. split; [|done]. rewrite Hn2, Hn1.
    eapply (I_op _ user (chan_view ch) nk); [done|done|done|apply graph_chan; eauto|done|done|done|].
    apply (not_listed n (chanops ch) nk user); [by apply I_heap|done|done|by apply Hu|done].
  - apply wp_when; intros _; [|by apply wp_ret].
    eapply (wp_upd_chan_view n c ch _ (fun w => w{{w_ops ::= unlink u}})); [done|done|].
    intros n2 Hn2 _ _. apply wp_ret. split; [|done]. rewrite Hn2. by apply I_deop.
Qed.

Lemma cmode_voice_inv st n :
  mayop = true -> I (graph_of n) -> st_ok st -> wp (cmode_voice c st) step_post n.
Proof.
  intros Hmay HI Hst. unfold cmode_voice. case_match eqn:Hac; [apply wp_ret; split; [done|by apply st_ok_none]|].
  apply Z.ltb_ge in Hac. apply wp_bind, wp_arg; [done|done|]. intros nk Hnk Hnul Hst'.
  destruct (chan_there n HI) as [ch Hc]. apply wp_bind. eapply wp_load_chan; [done|].
  assert (Hval : forall q, q ∈ voices ch -> is_Some (users_heap n !! q))
    by (intros; eapply members_valid; eauto).
  apply wp_bind. eapply wp_mono; [by apply list_find_nick_spec|]. intros u n' [-> Hu].
  apply wp_bind. destruct (m_add st).
  - destruct (Z.eqb_spec u NULL) as [->|]; simpl; [|by apply wp_ret].
    apply wp_bind, wp_finduser; [by apply I_heap|done|]. intros user Huser Hdet.
    apply wp_when; intros Hne; [|by apply wp_ret].
    apply negb_true_iff, Z.eqb_neq in Hne.
    eapply (wp_upd_chan_view n c ch _ (fun w => w{{w_voices ::= cons user}})); [done|done|].
    intros n2 Hn2 _ _. apply wp_ret. split; [|done]. rewrite Hn2.
    eapply (I_voice _ user (chan_view ch) nk); [done|done|done|apply graph_chan; eauto|done|done|done|].
    apply (not_listed n (voices ch) nk user); [by apply I_heap|done|done|by apply Hu|done].
  - apply wp_when; intros _; [|by apply wp_ret].
    eapply (wp_upd_chan_view n c ch _ (fun w => w{{w_voices ::= unlink u}})); [done|done|].
    intros n2 Hn2 _ _. apply wp_ret. split; [|done]. rewrite Hn2. by apply I_devoice.
Qed.

Lemma cmode_step_inv source st mc n :
  (Ascii.eqb mc "o" || Ascii.eqb mc "v" = true -> mayop = true) -> I (graph_of n) -> st_ok st -> wp (cmode_step source c st mc) step_post n.
Proof.
  intros Hmay HI Hst. unfold cmode_step.
  repeat match goal with
  | |- context [if ?b then _ else _] => destruct b eqn:?
  | |- context [cmode_flag ?m] => destruct (cmode_flag m)
  end; try (by apply wp_ret);
    auto using cmode_key_inv, cmode_limit_inv, cmode_ban_inv, cmode_op_inv, cmode_voice_inv, orb_true_r.
  all: apply wp_bind, wp_hidden; [done|done|]; intros n2 HI2 _; by apply wp_ret.
Qed.

Lemma cmode_loop_inv source s st n :
  (may_op s = true -> mayop = true) ->
  I (graph_of n) -> st_ok st -> wp (cmode_loop source c s st) (fun _ n' => I (graph_of n')) n.
Proof.
  revert st n. induction s as [|mc s IH]; intros st n Hmay HI Hst; simpl; [by apply wp_ret|].
  simpl in Hmay. apply wp_bind. eapply wp_mono; [apply cmode_step_inv; [|done|done]|].
  - intros Hmc. apply Hmay. by rewrite Hmc.
  - intros st' n' [HI' Hst']. apply IH; [|done|done]. intros Hs. apply Hmay. rewrite Hs. apply orb_true_r.
Qed.

Lemma count_server_modes_inv source s n :
  I (graph_of n) -> wp (count_server_modes source c s) (fun _ n' => graph_of n' = graph_of n) n.
Proof.
  intros HI. unfold count_server_modes. apply wp_when; intros _; [|done].
  destruct (chan_there n HI) as [ch Hc]. wps. eapply wp_load_chan; [done|]. wps.
  - apply wp_hidden; [done|done|]. intros n1 HI1 Hn1. apply wp_modify.
    apply wp_hidden; [done|done|]. intros n2 _ Hn2. by rewrite Hn2.
  - apply wp_hidden; [done|done|]. intros n2 _ Hn2. by rewrite Hn2.
Qed.
End Cmode.

(** ** Properties *)
Section ChannelTheorems.
Context `{Conf} {E : Type} `{!ChanServ E} `{!ChanServLaws E}.
Implicit Types (n : Net E).

(** [g'] is [g] up to the operators and voices of channel [c]. *)
Definition modes_only (c : ptr) (g g' : graph) : Prop :=
  g_users g' = g_users g /\ g_ulist g' = g_ulist g /\ g_clist g' = g_clist g /\
  g_next g' = g_next g /\
  (forall c', c' <> c -> g_chans g' !! c' = g_chans g !! c') /\
  (fun w => (w_name w, w_users w)) <$> g_chans g' !! c =
  (fun w => (w_name w, w_users w)) <$> g_chans g !! c.

Lemma modes_only_refl c g : modes_only c g g.
Proof. done. Qed.

Lemma modes_only_alter c g g' f :
  (forall w, w_name (f w) = w_name w) -> (forall w, w_users (f w) = w_users w) ->
  modes_only c g g' -> modes_only c g (g'{{g_chans ::= alter f c}}).
Proof.
  intros Hn Hu (? & ? & ? & ? & Hc' & Hc). split_and!; simpl; try done.
  - intros c' Hne. rewrite lookup_alter_ne by done. by apply Hc'.
  - rewrite lookup_alter_eq, <- Hc. destruct (g_chans g' !! c); simpl; [|done]. by rewrite Hn, Hu.
Qed.

(** The loop, for any invariant closed under what modes do. *)
Lemma do_cmode_inv (I : ptr -> graph -> Prop) source ac chan modestr av n :
  no_nul chan = true -> (forall a, a ∈ av -> no_nul a = true) ->
  ac - 2 <= Z.of_nat (length av) -> heap_ok (graph_of n) ->
  (forall c g, I c g -> heap_ok g /\ is_Some (g_chans g !! c)) ->
  (forall c, c = g_findchan (graph_of n) chan -> is_Some (g_chans (graph_of n) !! c) ->
     I c (graph_of n)) ->
  (forall c g p, I c g -> I c (g_deop p c g)) ->
  (forall c g p, I c g -> I c (g_devoice p c g)) ->
  (forall c g p w nk, may_op modestr = true -> I c g -> nk ∈ av -> g_chans g !! c = Some w ->
     nick_found g nk p -> p = g_finduser g nk -> p <> NULL -> p ∉ w_ops w -> I c (g_op p c g)) ->
  (forall c g p w nk, may_op modestr = true -> I c g -> nk ∈ av -> g_chans g !! c = Some w ->
     nick_found g nk p -> p = g_finduser g nk -> p <> NULL -> p ∉ w_voices w ->
     I c (g_voice p c g)) ->
  wp (do_cmode source ac chan modestr av)
    (fun _ n' => graph_of n' = graph_of n \/ exists c, I c (graph_of n')) n.
Proof.
  intros Hchan Hav Hac Hg I1 I0 I2 I3 I4 I5. unfold do_cmode.
  apply wp_bind. eapply wp_intro; [by apply findchan_det|].
  pose proof (g_findchan_found n chan Hg Hchan) as Hc. remember (g_findchan (graph_of n) chan) as c eqn:Ec.
  destruct (Z.eqb_spec c NULL) as [->|Hne]; [apply wp_ret; by left|].
  destruct (chan_found_chan _ _ _ Hc Hne) as (ch & Hch & Hcmp).
  assert (HI0 : I c (graph_of n)) by (apply I0; [done|apply is_Some_graph_chan; eauto]).
  assert (I1h : forall g, I c g -> heap_ok g) by (intros; by eapply I1).
  assert (I1c : forall g, I c g -> is_Some (g_chans g !! c)) by (intros; by eapply I1).
  apply wp_bind. eapply wp_mono; [by apply (count_server_modes_inv c (I c) I1c)|].
  intros [] n1 Hn1. apply wp_bind. eapply wp_mono.
  { eapply (cmode_loop_inv c av (may_op modestr) (I c) Hav I1h I1c (I2 c) (I3 c));
      [by eauto..|done|by rewrite Hn1|]. split; simpl; [lia|done]. }
  intros [] n2 HI2. destruct (chan_there c (I c) I1c n2 HI2) as [ch2 Hc2].
  apply wp_bind. eapply wp_load_chan; [done|].
  eapply wp_mono; [apply law_check_modes; [|by apply I1h]|].
  - eapply (ho_name _ (I1h _ HI2) c (chan_view ch2)), graph_chan; eauto.
  - intros [] n3 Hn3. right. exists c. by rewrite Hn3.
Qed.

(** C32: on a sound heap [do_cmode] is memory-safe for every mode string and
    source, as long as [ac] does not exceed the arguments given: it never
    follows a bad pointer nor reads past [av], keeps every pointer and both
    hash tables sound, and changes nobody's membership. *)
Theorem do_cmode_safe source ac chan modestr av n
    (Hchan : no_nul chan = true) (Hav : forall a, a ∈ av -> no_nul a = true)
    (Hac : ac - 2 <= Z.of_nat (length av)) (Hg : heap_ok (graph_of n)) :
  wp (do_cmode source ac chan modestr av)
    (fun _ n' => heap_ok (graph_of n') /\ exists c, modes_only c (graph_of n) (graph_of n')) n.
Proof.
  assert (Hp : forall g nk p, nick_found g nk p -> p <> NULL -> is_Some (g_users g !! p)).
  { intros g nk p [[-> _]|(_ & v & Hv & _)]; [done|eauto]. }
  eapply wp_mono.
  - apply (do_cmode_inv (fun c g => heap_ok g /\ is_Some (g_chans g !! c) /\
      modes_only c (graph_of n) g)); try done.
    + intros c g (? & ? & ?). done.
    + intros c g p (? & ? & ?). split; [by apply heap_ok_deop|].
      split; [by apply is_Some_alter|by apply modes_only_alter].
    + intros c g p (? & ? & ?). split; [by apply heap_ok_devoice|].
      split; [by apply is_Some_alter|by apply modes_only_alter].
    + intros c g p w nk _ (? & ? & ?) _ _ Hf _ Hne _. split; [apply heap_ok_op; eauto|].
      split; [by apply is_Some_alter|by apply modes_only_alter].
    + intros c g p w nk _ (? & ? & ?) _ _ Hf _ Hne _. split; [apply heap_ok_voice; eauto|].
      split; [by apply is_Some_alter|by apply modes_only_alter].
  - intros [] n' [->|(c & ? & _ & ?)]; [by split; [|exists NULL]|by split; [|exists c]].
Qed.

Lemma g_finduser_views g g' nk :
  g_ulist g' = g_ulist g -> g_users g' = g_users g -> g_finduser g' nk = g_finduser g nk.
Proof. unfold g_finduser. by intros -> ->. Qed.

(** The nicks a MODE may op or voice, if any, are on the channel. *)
Definition mode_args_ok (g : graph) (chan modestr : string) (av : list string) : Prop :=
  may_op modestr = true -> forall a w, a ∈ av -> g_finduser g a <> NULL ->
    g_chans g !! g_findchan g chan = Some w -> g_finduser g a ∈ w_users w.

Lemma do_cmode_steps source ac chan modestr av n :
  no_nul chan = true -> (forall a, a ∈ av -> no_nul a = true) ->
  ac - 2 <= Z.of_nat (length av) -> graph_ok (graph_of n) ->
  mode_args_ok (graph_of n) chan modestr av ->
  wp (do_cmode source ac chan modestr av)
    (fun _ n' => rtc gstep (graph_of n) (graph_of n') /\
       g_users (graph_of n') = g_users (graph_of n)) n.
Proof.
  intros Hchan Hav Hac Hg Hmem.
  set (I := fun c g => rtc gstep (graph_of n) g /\ modes_only c (graph_of n) g /\
    c = g_findchan (graph_of n) chan /\ is_Some (g_chans (graph_of n) !! c)).
  assert (HI : forall c g w, I c g -> g_chans g !! c = Some w ->
    exists w0, g_chans (graph_of n) !! c = Some w0 /\ w_users w = w_users w0).
  { intros c g w (_ & (_ & _ & _ & _ & _ & Hm) & _ & w0 & Hw0) Hw.
    rewrite Hw, Hw0 in Hm. injection Hm as _ Hm. eauto. }
  assert (Hu : forall c g p w nk, may_op modestr = true -> I c g -> nk ∈ av ->
    g_chans g !! c = Some w -> p = g_finduser g nk -> p <> NULL -> p ∈ w_users w).
  { intros c g p w nk Hmay Hi Hnk Hw -> Hne. destruct (HI c g w Hi Hw) as (w0 & Hw0 & ->).
    destruct Hi as (_ & (Hus & Hul & _) & -> & _).
    rewrite (g_finduser_views (graph_of n) g nk Hul Hus) in *. by apply Hmem. }
  eapply wp_mono.
  - apply (do_cmode_inv I); try done; [by destruct Hg|..].
    + intros c g (Hs & (_ & _ & _ & _ & _ & Hm) & _ & w0 & Hw0).
      split; [by destruct (graph_ok_gsteps _ _ Hs Hg)|].
      rewrite Hw0 in Hm. destruct (g_chans g !! c); [eauto|done].
    + intros c g p (Hs & Hm & Hc). refine (conj _ (conj _ Hc)); [|by apply modes_only_alter].
      eapply rtc_r; [done|constructor].
    + intros c g p (Hs & Hm & Hc). refine (conj _ (conj _ Hc)); [|by apply modes_only_alter].
      eapply rtc_r; [done|constructor].
    + intros c g p w nk Hmay Hi Hnk Hw Hf Hd Hne Hno.
      pose proof (Hu c g p w nk Hmay Hi Hnk Hw Hd Hne) as Hin. destruct Hi as (Hs & Hm & Hc).
      refine (conj _ (conj _ Hc)); [|by apply modes_only_alter].
      eapply rtc_r; [done|by econstructor].
    + intros c g p w nk Hmay Hi Hnk Hw Hf Hd Hne Hno.
      pose proof (Hu c g p w nk Hmay Hi Hnk Hw Hd Hne) as Hin. destruct Hi as (Hs & Hm & Hc).
      refine (conj _ (conj _ Hc)); [|by apply modes_only_alter].
      eapply rtc_r; [done|by econstructor].
  - intros [] n' [->|(c & Hs & (Hm & _) & _)]; done.
Qed.

(** When the nicks that a MODE command may op or voice are on the channel,
    as IRC servers guarantee, [do_cmode] only takes steps of the abstract
    machine, so operators and voiced users remain members and the whole graph
    stays consistent. *)
Theorem do_cmode_consistent source ac chan modestr av n
    (Hchan : no_nul chan = true) (Hav : forall a, a ∈ av -> no_nul a = true)
    (Hac : ac - 2 <= Z.of_nat (length av)) (Hg : graph_ok (graph_of n))
    (Hmem : mode_args_ok (graph_of n) chan modestr av) :
  wp (do_cmode source ac chan modestr av)
    (fun _ n' => rtc gstep (graph_of n) (graph_of n') /\ graph_ok (graph_of n')) n.
Proof.
  eapply wp_mono; [by apply do_cmode_steps|]. intros [] n' [Hs _].
  split; [done|by eapply graph_ok_gsteps].
Qed.

(** *** The flag letters *)

Fixpoint flags_only (s : string) : bool :=
  match s with
  | EmptyString => true
  | String a s' =>
      (Ascii.eqb a "+" || Ascii.eqb a "-" || bool_decide (is_Some (cmode_flag a))) && flags_only s'
  end.

(** The sign under which flag [f] occurs last, if it does. *)
Fixpoint last_sign (add : bool) (s : string) (f : Z) : option bool :=
  match s with
  | EmptyString => None
  | String a s' =>
      if Ascii.eqb a "+" then last_sign true s' f
      else if Ascii.eqb a "-" then last_sign false s' f
      else match last_sign add s' f with
      | Some b => Some b
      | None => if bool_decide (cmode_flag a = Some f) then Some add else None
      end
  end.

Lemma cmode_flag_disjoint a b f g :
  cmode_flag a = Some f -> cmode_flag b = Some g -> f <> 0 /\ (f = g \/ f .& g = 0).
Proof.
  unfold cmode_flag. intros Ha Hb. repeat case_match; simplify_eq;
    (split; [done|]); first [left; reflexivity|right; reflexivity].
Qed.

Lemma has_set_flag_same b f m : f <> 0 -> has (set_flag b f m) f = b.
Proof. intros. destruct b; simpl; [by apply has_lor_self|apply has_ldiff_self]. Qed.

Lemma has_set_flag_other b f g m : f .& g = 0 -> has (set_flag b f m) g = has m g.
Proof. intros. destruct b; simpl; [by apply has_lor_other|by apply has_ldiff_other]. Qed.

(** After a MODE of flag letters every channel flag is on or off as its
    last occurrence in the mode string says, and the flags not mentioned
    keep their value. *)
Theorem cmode_flags_correct source c s st n ch
    (Hc : chans_heap n !! c = Some ch) (Hs : flags_only s = true) :
  wp (cmode_loop source c s st) (fun _ n' => exists ch', chans_heap n' !! c = Some ch' /\
    forall a f, cmode_flag a = Some f ->
      has (cmode ch') f = default (has (cmode ch) f) (last_sign (m_add st) s f)) n.
Proof.
  revert st n ch Hc Hs. induction s as [|a s IH]; intros st n ch Hc Hs; simpl.
  { apply wp_ret. eauto. }
  simpl in Hs. apply andb_prop in Hs as [Ha Hs]. apply wp_bind. unfold cmode_step.
  destruct (Ascii.eqb a "+"); [apply wp_ret; exact (IH (st{{m_add := true}}) n ch Hc Hs)|].
  destruct (Ascii.eqb a "-"); [apply wp_ret; exact (IH (st{{m_add := false}}) n ch Hc Hs)|]. simpl in Ha.
  apply bool_decide_eq_true in Ha as [g Hg]. rewrite Hg. apply wp_bind.
  eapply wp_upd_chan; [done|]. apply wp_ret.
  eapply wp_mono; [eapply IH; [apply lookup_insert_eq|done]|].
  intros [] n' (ch' & Hc' & Hf). exists ch'. split; [done|]. intros b f Hb. rewrite (Hf b f Hb).
  destruct (last_sign (m_add st) s f); simpl; [done|].
  destruct (cmode_flag_disjoint a b g f Hg Hb) as [Hg0 [->|Hgf]].
  - rewrite bool_decide_eq_true_2 by done. by apply has_set_flag_same.
  - rewrite bool_decide_eq_false_2; [by apply has_set_flag_other|].
    intros [= ->]. rewrite Z.land_diag in Hgf. done.
Qed.

(** *** Keys *)

(** Removing a key ([-k key]) does not consume its argument, so a later
    parameter of the same MODE is read from the key: [MODE #c -ko key nick]
    leaves [nick] opped unless an operator happens to be called [key]. *)
Theorem cmode_del_key_shifts source c n ch k nk
    (Hc : chans_heap n !! c = Some ch)
    (Hv : forall p, p ∈ chanops ch -> p <> NULL /\
            exists u, users_heap n !! p = Some u /\ stricmp (nick u) k <> 0) :
  wp (cmode_loop source c "-ko" (mkMState true 2 [k; nk]))
    (fun _ n' => exists ch', chans_heap n' !! c = Some ch' /\ key ch' = None /\
       chanops ch' = chanops ch) n.
Proof.
  assert (Hn : forall n1 l, users_heap n1 = users_heap n -> (forall p, p ∈ l -> p ∈ chanops ch) ->
    wp (list_find_nick l k) (fun u n' => n' = n1 /\ u = NULL) n1).
  { intros n1 l Hu1. induction l as [|p l IH]; intros Hl; simpl; [by apply wp_ret|].
    destruct (Hv p (Hl p ltac:(constructor))) as (_ & u & Hu & Hne).
    apply wp_bind. eapply wp_load_user; [by rewrite Hu1|]. apply Z.eqb_neq in Hne. rewrite Hne.
    apply IH. intros q Hq. apply Hl. by constructor. }
  simpl. apply wp_bind, wp_ret, wp_bind. unfold cmode_step. simpl. unfold cmode_key. simpl.
  apply wp_bind. eapply wp_upd_chan; [done|]. apply wp_ret, wp_bind.
  unfold cmode_op. simpl. apply wp_bind, wp_ret, wp_bind.
  eapply wp_load_chan; [apply lookup_insert_eq|]. apply wp_bind. simpl.
  eapply wp_mono; [by apply Hn|]. intros u n' [-> ->]. simpl. apply wp_ret.
  eexists. split; [apply lookup_insert_eq|]. done.
Qed.

(** *** Bans *)

Definition bans_ok (ch : Channel) : Prop := Z.of_nat (length (newbans ch)) <= bansize ch.

Lemma remove_first_app_new {A} (q : A -> bool) l x :
  (forall y, y ∈ l -> q y = false) -> q x = true -> remove_first q (l ++ [x]) = l.
Proof.
  intros Hl Hx. induction l as [|y l IH]; simpl; [by rewrite Hx|].
  rewrite (Hl y) by constructor. f_equal. apply IH. intros z Hz. apply Hl. by constructor.
Qed.

(** The ban array never overflows, a new ban goes last with the current
    time, and removing it again restores the list, other bans keeping their
    order. *)
Theorem ban_list_correct c msk n ch
    (Hc : chans_heap n !! c = Some ch) (Hb : bans_ok ch)
    (Hnew : forall b, b ∈ newbans ch -> mask b <> msk) :
  wp (add_ban c msk) (fun _ n1 => exists ch1, chans_heap n1 !! c = Some ch1 /\ bans_ok ch1 /\
    newbans ch1 = newbans ch ++ [mkBan msk (now n)] /\
    wp (del_ban c msk) (fun _ n2 => exists ch2, chans_heap n2 !! c = Some ch2 /\ bans_ok ch2 /\
      newbans ch2 = newbans ch) n1) n.
Proof.
  unfold add_ban, del_ban. wps. eapply wp_upd_chan; [done|]. eexists.
  split; [apply lookup_insert_eq|].
  assert (Hok : bans_ok ch) by done. unfold bans_ok in *. cbv zeta. simpl. rewrite length_app. simpl.
  split; [case_match; lia|]. split; [done|].
  eapply wp_upd_chan; [apply lookup_insert_eq|]. simpl. eexists. split; [apply lookup_insert_eq|].
  simpl. rewrite remove_first_app_new; [|intros y Hy; by apply String.eqb_neq, Hnew|apply String.eqb_refl].
  split; [case_match; lia|done].
Qed.

(** *** Autolimit *)

(** The automatic limit of a registered channel follows the user count at
    the configured distance: more than ten seconds after the last change the
    limit becomes [users + offset] when that is lower, or higher by more than
    the tolerance and raising is allowed; otherwise it stays.  A departure
    (no raise) never raises it.  Within ten seconds nothing changes. *)
Theorem check_autolimit_correct c t raise n ch
    (Hc : chans_heap n !! c = Some ch) (Hnn : c <> NULL)
    (Hid : channel_id ch <> 0) (Hoff : 0 < limit_offset ch)
    (Hu : Z.of_nat (length (users ch)) + limit_offset ch <= INT_MAX)
    (Hl : 0 <= limit ch <= INT_MAX) :
  let want := Z.of_nat (length (users ch)) + limit_offset ch in
  let lim := if (want <? limit ch) || ((limit_tolerance ch <? want - limit ch) && raise)
             then want else limit ch in
  wp (check_autolimit c t raise) (fun _ n' =>
    if t - last_limit_time ch <=? 10 then n' = n
    else exists ch', chans_heap n' !! c = Some ch' /\ limit ch' = lim /\
           last_limit_time ch' = t /\ (raise = false -> limit ch' <= limit ch)) n.
Proof.
  intros want lim. unfold check_autolimit. unfold INT_MAX in *.
  rewrite (proj2 (Z.eqb_neq c NULL)) by done. wps. eapply wp_load_chan; [done|].
  rewrite (proj2 (Z.eqb_neq _ _) Hid), (proj2 (Z.eqb_neq (limit_offset ch) 0)) by lia. simpl.
  case_match; [by apply wp_ret|].
  assert (Hd : wrap32 (u32 (Z.of_nat (length (users ch))) + limit_offset ch - limit ch) = want - limit ch).
  { rewrite u32_id by lia. apply wrap32_id. unfold INT_MIN, INT_MAX, want. lia. }
  rewrite Hd. assert (Hw : u32 (u32 (Z.of_nat (length (users ch))) + limit_offset ch) = want).
  { rewrite (u32_id (Z.of_nat _)) by lia. apply u32_id. unfold want. lia. }
  assert (Hl1 : (want - limit ch <? 0) = (want <? limit ch)).
  { apply eq_iff_eq_true. rewrite !Z.ltb_lt. lia. }
  assert (Hl2 : (want - limit ch <? 0) || ((limit_tolerance ch <? u32 (want - limit ch)) && raise) =
                (want <? limit ch) || ((limit_tolerance ch <? want - limit ch) && raise)).
  { rewrite Hl1. destruct (Z.ltb_spec want (limit ch)); [done|]. simpl. by rewrite u32_id by lia. }
  rewrite Hl2.
  assert (Hraise : raise = false -> lim <= limit ch).
  { intros ->. unfold lim. rewrite andb_false_r, orb_false_r. case_match; [|lia]. lia. }
  unfold lim in *. destruct (_ || _); simpl.
  - wps. eapply wp_upd_chan; [done|]. apply wp_modify. wps. eapply wp_upd_chan; [apply lookup_insert_eq|].
    eapply wp_mono; [apply law_set_limit_time|]. intros [] n' [e ->]. eexists.
    split; [apply lookup_insert_eq|]. simpl. by rewrite Hw.
  - wps. eapply wp_upd_chan; [done|].
    eapply wp_mono; [apply law_set_limit_time|]. intros [] n' [e ->]. eexists.
    split; [apply lookup_insert_eq|]. done.
Qed.
End ChannelTheorems.

(** ** Witnesses *)
Module Witness.
Import Demo.

Lemma do_cmode_safe_witness :
  wp (do_cmode "irc.oftc.net" 4 "#a" "+mo-v" ["alice"; "bob"])
    (fun _ n' => heap_ok (graph_of n') /\ exists c, modes_only c (graph_of net) (graph_of n')) net.
Proof.
  apply do_cmode_safe; [reflexivity| |simpl; lia|apply net_ok].
  intros a Ha. repeat (apply elem_of_cons in Ha as [->|Ha]; [reflexivity|]).
  by apply elem_of_nil in Ha.
Defined.

Lemma do_cmode_consistent_witness :
  wp (do_cmode "alice" 3 "#a" "+v" ["Alice"])
    (fun _ n' => rtc gstep (graph_of net) (graph_of n') /\ graph_ok (graph_of n')) net.
Proof.
  apply do_cmode_consistent; [reflexivity| |simpl; lia|apply net_ok|].
  - intros a Ha. apply list_elem_of_singleton in Ha as ->. reflexivity.
  - intros _ a w Ha _ Hw. apply list_elem_of_singleton in Ha as ->.
    assert (E : w = mkCView "#a" [1] [1] []) by (vm_compute in Hw; injection Hw as <-; reflexivity).
    subst w. apply list_elem_of_singleton. reflexivity.
Defined.

Lemma cmode_flags_correct_witness :
  wp (cmode_loop "alice" 2 "+i-n+t" (mkMState true 0 []))
    (fun _ n' => exists ch', chans_heap n' !! 2 = Some ch' /\ has (cmode ch') CMODE_n = false) net.
Proof.
  eapply wp_mono; [apply (cmode_flags_correct "alice" 2 "+i-n+t" (mkMState true 0 []) net chan_a);
    reflexivity|].
  intros [] n' (ch' & Hc & Hf). exists ch'. split; [exact Hc|].
  exact (Hf "n"%char CMODE_n eq_refl).
Defined.

Lemma cmode_del_key_shifts_witness :
  wp (cmode_loop "alice" 2 "-ko" (mkMState true 2 ["secret"; "alice"]))
    (fun _ n' => exists ch', chans_heap n' !! 2 = Some ch' /\ key ch' = None /\ chanops ch' = [1]) net.
Proof.
  apply (cmode_del_key_shifts "alice" 2 net chan_a); [reflexivity|].
  intros p Hp. apply list_elem_of_singleton in Hp as ->. split; [discriminate|].
  exists alice. split; [reflexivity|discriminate].
Defined.

Lemma ban_list_correct_witness :
  bans_ok chan_a /\ wp (add_ban 2 "*!*@bad") (fun _ n1 => exists ch1, chans_heap n1 !! 2 = Some ch1 /\
    bans_ok ch1 /\ newbans ch1 = [mkBan "*!*@bad" 1000] /\
    wp (del_ban 2 "*!*@bad") (fun _ n2 => exists ch2, chans_heap n2 !! 2 = Some ch2 /\ bans_ok ch2 /\
      newbans ch2 = []) n1) net.
Proof.
  assert (Hb : bans_ok chan_a) by (unfold bans_ok; simpl; lia). split; [exact Hb|].
  apply (ban_list_correct 2 "*!*@bad" net chan_a); [reflexivity|exact Hb|].
  intros b Hin. by apply elem_of_nil in Hin.
Defined.

Definition limited : Channel := chan_a{{channel_id := 7; limit_offset := 5; limit_tolerance := 2}}.

Lemma check_autolimit_correct_witness :
  wp (check_autolimit 2 100 true) (fun _ n' => exists ch', chans_heap n' !! 2 = Some ch' /\ limit ch' = 6)
    (net{{chans_heap ::= insert 2 limited}}).
Proof.
  eapply wp_mono.
  - apply (check_autolimit_correct 2 100 true _ limited);
      [reflexivity|discriminate|discriminate|reflexivity|vm_compute; discriminate|].
    vm_compute. split; discriminate.
  - intros [] n' (ch' & Hc & Hl & _). exists ch'. split; [exact Hc|]. rewrite Hl. reflexivity.
Defined.

End Witness.
