(* ===== verification/Users.v ===== *)
(** [src/users.c] (and the kills of [src/actions.c]): the table of online users
    and the handlers of the NICK, JOIN, SJOIN, PART, KICK, MODE, QUIT and KILL
    messages. *)

From S2P Require Import Prelude CStr NumTime Wp Graph Net Interfaces Channels.

Definition NS_VERBOTEN : Z := 0x2.
Definition NS_NO_EXPIRE : Z := 0x4.
Definition NS_ON_ACCESS : Z := 0x2000.
Definition NS_KILL_HELD : Z := 0x1000.
Definition NS_GUESTED : Z := 0x100.
Definition NS_REGAINED : Z := 0x200.
Definition NS_TEMPORARY : Z := 0xFF00.
Definition NI_CLOAK : Z := 0x10000.

(** The loop over the separated items of a parameter: while the rest is not
    empty, cut it at the first separator ([strcspn]) and skip that. *)
Fixpoint tokens_loop (fuel : nat) (s sep : string) : list string :=
  match fuel with
  | O => []
  | S fuel' =>
      match s with
      | EmptyString => []
      | _ => let k := strcspn s sep in
             str_take k s :: tokens_loop fuel' (str_drop 1 (str_drop k s)) sep
      end
  end.
Definition tokens (s sep : string) : list string := tokens_loop (String.length s) s sep.

(** The [@] and [+] in front of a nick in an SJOIN, and the modes they stand for. *)
Fixpoint sjoin_prefix (s : string) : string * string :=
  match s with
  | String "@" s' => let '(m, r) := sjoin_prefix s' in (String "o" m, r)
  | String "+" s' => let '(m, r) := sjoin_prefix s' in (String "v" m, r)
  | _ => (EmptyString, s)
  end.

Section Users.
Context `{Conf} {E : Type} `{!ChanServ E} `{!NickServ E} `{!OperServ E}.
Implicit Types (n : Net E).

Definition wallops (source : option string) (text : string) : M (Net E) unit :=
  emit (Wallops source text).
Definition notice (source dest text : string) : M (Net E) unit :=
  emit (Notice source dest text).

(** *** new_user *)
Definition blank_user (nk : string) : User :=
  mkUser nk 0 0 NULL EmptyString EmptyString EmptyString 0 0 0 [] [] 0 0 0.

Definition alloc_user (nk : string) : M (Net E) ptr :=
  n ← get;
  let p := next_addr n in
  let nm := trunc NICKMAX nk in
  modify (fun n => n{{users_heap ::= insert p (blank_user nm);
                      userlist := push (userlist n) (nick_HASH nm) p;
                      next_addr := p + 1}});;
  mret p.

(** [real_id] and [nick_id] of a user who takes nick [nk]. *)
Definition lookup_ids (user : ptr) (nk : string) : M (Net E) unit :=
  i ← mysql_findnick nk;
  upd_user user (fun u => u{{real_id := i}});;
  if i =? 0 then upd_user user (fun u => u{{nick_id := 0}})
  else l ← mysql_getlink i; upd_user user (fun u => u{{nick_id := l}}).

Definition count_user : M (Net E) unit :=
  modify (fun n => n{{usercnt ::= fun k => wrap32 (k + 1)}});;
  n ← get;
  when (maxusercnt n <? usercnt n)
    (modify (fun n => n{{maxusercnt := usercnt n; maxusertime := now n}});;
     mysql_maxuser_stat (usercnt n) (now n);;
     when LogMaxUsers
       (wallops (Some s_NickServ)
          ("New maximum user count: " +:+ BOLD +:+ show_int (usercnt n) +:+ BOLD))).

Definition new_user (nk : string) : M (Net E) ptr :=
  p ← alloc_user nk;
  lookup_ids p nk;;
  count_user;;
  mret p.

(** *** change_user_nick *)
Definition relink_user (user : ptr) (nk : string) : M (Net E) unit :=
  u ← load_user user;
  let nm := trunc NICKMAX nk in
  modify (fun n =>
    n{{users_heap ::= insert user (u{{nick := nm}});
       userlist := push (pull (userlist n) (nick_HASH (nick u)) user) (nick_HASH nm) user}}).

Definition change_user_nick (user : ptr) (nk : string) (ni_changed : bool) : M (Net E) unit :=
  relink_user user nk;;
  i ← mysql_findnick nk;
  upd_user user (fun u => u{{real_id := i}});;
  if i =? 0 then upd_user user (fun u => u{{nick_id := 0}})
  else
    when (negb ni_changed)
      (u ← load_user user;
       status ← get_nick_status (nick_id u);
       set_nick_status i status);;
    l ← mysql_getlink i;
    upd_user user (fun u => u{{nick_id := l}}).

(** *** delete_user *)
Definition free_user (user : ptr) : M (Net E) unit :=
  u ← load_user user;
  modify (fun n => n{{users_heap ::= delete user;
                      userlist := pull (userlist n) (nick_HASH (nick u)) user}}).

Definition delete_user (user : ptr) : M (Net E) unit :=
  u ← load_user user;
  modify (fun n => n{{usercnt ::= fun k => wrap32 (k - 1)}});;
  when (has (mode u) UMODE_o) (modify (fun n => n{{opcnt ::= fun k => wrap32 (k - 1)}}));;
  cancel_user user;;
  u ← load_user user;
  for_each (chans u) (fun c => chan_deluser user c);;
  free_user user.

(** *** do_nick *)
Definition argn (av : list string) (i : nat) : M (Net E) string :=
  match av !! i with Some a => mret a | None => fault end.

Definition atol (s : string) : Z := fst (strtol s).

(** A new user: autokills, then session limits, then the [User]. *)
Definition nick_new_user (av : list string) : M (Net E) ptr :=
  nk ← argn av 0; us ← argn av 4; hs ← argn av 5;
  killed ← check_akill nk us hs;
  if killed : bool then mret NULL
  else
    ok ← (if LimitSessions then add_session nk hs else mret true);
    if negb ok then mret NULL
    else
      user ← new_user nk;
      ts ← argn av 2; sv ← argn av 6; rn ← argn av 7;
      s ← findserver sv;
      t ← gets now;
      upd_user user (fun u => u{{signon := atol ts; username := us; host := hs; server := s;
                                realname := rn; my_signon := t}});;
      display_news_logon user;;
      mret user.

(** What follows a nick change, [ni_changed] or not. *)
Definition nick_checks (user : ptr) (nk : string) (ni_changed : bool) : M (Net E) unit :=
  (if ni_changed then
     v ← validate_user user; when v (check_memos user)
   else check_on_access user);;
  ident ← nick_identified user;
  when ident
    (u ← load_user user;
     when (negb ni_changed && negb (real_id u =? 0) && negb (real_id u =? nick_id u))
       (mysql_update_last_seen user 0);;
     send_cmd (Some ServerName) ("SVSMODE " +:+ nk +:+ " :+Rr");;
     upd_user user (fun u => u{{mode ::= fun m => m .| UMODE_r}})).

Definition do_nick (source : string) (av : list string) : M (Net E) bool :=
  if String.eqb source EmptyString then
    user ← nick_new_user av;
    if user =? NULL then mret false
    else nk ← argn av 0; nick_checks user nk true;; mret true
  else
    user ← finduser source;
    if user =? NULL then mret false
    else
      nk ← argn av 0;
      let ni_changed := negb (irc_stricmp nk source =? 0) in
      t ← gets now;
      when ni_changed (upd_user user (fun u => u{{my_signon := t}}));;
      i ← mysql_findnick nk;
      _ ← (if i =? 0 then mret 0 else mysql_getlink i);
      cancel_user user;;
      change_user_nick user nk ni_changed;;
      nick_checks user nk ni_changed;;
      mret true.

(** *** do_join *)
Definition display_entry_message (user : ptr) (i : Z) : M (Net E) unit :=
  if i =? 0 then mret tt
  else
    row ← mysql_entry_message i;
    match row with
    | None => mret tt
    | Some (message, nm) =>
        u ← load_user user;
        notice s_ChanServ (nick u) ("[" +:+ nm +:+ "] " +:+ message)
    end.

(** The notices a user gets on entering a registered channel. *)
Definition welcome (user : ptr) (chan : string) : M (Net E) unit :=
  t ← gets now;
  i ← mysql_findchan chan;
  when (negb (i =? 0))
    (when (10 <=? t - start_time) (display_entry_message user i);;
     check_chan_memos user i).

Definition leave_all (user : ptr) : M (Net E) unit :=
  u ← load_user user;
  for_each (chans u) (fun c => chan_deluser user c);;
  upd_user user (fun u => u{{chans := [] }}).

(** What [do_join] and [do_sjoin] both do once the user may enter. *)
Definition enter_channel (user : ptr) (s : string) : M (Net E) ptr :=
  chan_adduser user s;;
  welcome user s;;
  c ← findchan s;
  upd_user user (fun u => u{{chans ::= cons c}});;
  mret c.

Definition join_one (user : ptr) (s : string) : M (Net E) unit :=
  if Ascii.eqb (hd_char s) "0" then leave_all user
  else
    kicked ← check_kick user s;
    if kicked : bool then mret tt
    else enter_channel user s;; mret tt.

Definition do_join (source : string) (chanlist : string) : M (Net E) unit :=
  user ← finduser source;
  if user =? NULL then mret tt
  else for_each (tokens chanlist ",") (join_one user).

(** *** do_sjoin.  [addr] is the address of [av[0]]: the code stores the
    pointer itself as the creation time. *)
Definition sjoin_one (source channel : string) (addr : Z) (item : string)
    : M (Net E) bool :=
  let '(modes, nk) := sjoin_prefix item in
  let modecnt := Z.of_nat (String.length modes) in
  if 3 <=? modecnt then fault         (* modebuf[modecnt + 1] is past modebuf[4] *)
  else
    user ← finduser nk;
    if user =? NULL then mret false
    else
      kicked ← check_kick user channel;
      if kicked : bool then mret false
      else
        c ← enter_channel user channel;
        upd_chan c (fun ch => ch{{creation_time := addr}});;
        when (0 <? modecnt)
          (do_cmode source (modecnt + 2) channel (String "+" modes) [nk; nk]);;
        mret true.

Fixpoint sjoin_loop (source channel : string) (addr : Z) (items : list string) (joins : Z)
    : M (Net E) Z :=
  match items with
  | [] => mret joins
  | item :: items' =>
      j ← sjoin_one source channel addr item;
      sjoin_loop source channel addr items' (if j : bool then joins + 1 else joins)
  end.

Definition do_sjoin (source : string) (addr : Z) (av0 : list string) : M (Net E) unit :=
  a1 ← argn av0 1;
  let av := if isdigit (hd_char a1) then tail av0 else av0 in
  let ac := Z.of_nat (length av) in
  channel ← argn av 1;
  t ← (if 4 <=? ac then argn av (length av - 1) else mret source);
  joins ← sjoin_loop source channel addr (tokens t " ") 0;
  if negb (joins =? 0) && (2 <? ac) then
    modes ← argn av 2;
    when (negb (Ascii.eqb (char_at modes 1) NUL))
      (args ← (if 6 <=? ac then a3 ← argn av 3; a4 ← argn av 4; mret [a3; a4]
               else if 5 <=? ac then a3 ← argn av 3; mret [a3]
               else mret []);
       do_cmode source (ac - 2) channel modes args)
  else mret tt.

(** *** do_part, do_kick *)

(** The user's entry for the channel of that name. *)
Fixpoint find_uchan (l : list ptr) (s : string) : M (Net E) (option ptr) :=
  match l with
  | [] => mret None
  | c :: l' =>
      ch ← load_chan c;
      if stricmp s (name ch) =? 0 then mret (Some c) else find_uchan l' s
  end.

Definition part_one (user : ptr) (s : string) : M (Net E) unit :=
  u ← load_user user;
  oc ← find_uchan (chans u) s;
  match oc with
  | None => mret tt
  | Some c =>
      chan_deluser user c;;
      upd_user user (fun u => u{{chans ::= unlink c}})
  end.

Definition do_part (source : string) (chanlist : string) : M (Net E) unit :=
  user ← finduser source;
  if user =? NULL then mret tt
  else for_each (tokens chanlist ",") (part_one user).

Definition kick_one (chan s : string) : M (Net E) unit :=
  user ← finduser s;
  if user =? NULL then mret tt else part_one user chan.

Definition do_kick (chan nicks : string) : M (Net E) unit :=
  for_each (tokens nicks ",") (kick_one chan).

(** *** Predicates on nicks *)
Definition is_oper (nk : string) : M (Net E) bool :=
  user ← finduser nk;
  if user =? NULL then mret false else u ← load_user user; mret (has (mode u) UMODE_o).

Definition is_on_chan (nk chan : string) : M (Net E) bool :=
  user ← finduser nk;
  if user =? NULL then mret false
  else
    u ← load_user user;
    (fix walk (l : list ptr) : M (Net E) bool :=
       match l with
       | [] => mret false
       | c :: l' => ch ← load_chan c;
                    if stricmp (name ch) chan =? 0 then mret true else walk l'
       end) (chans u).

(** Does a user of the list bear the nick? *)
Fixpoint nick_in (l : list ptr) (nk : string) : M (Net E) bool :=
  match l with
  | [] => mret false
  | p :: l' => u ← load_user p;
               if irc_stricmp (nick u) nk =? 0 then mret true else nick_in l' nk
  end.

Definition is_chanop (nk chan : string) : M (Net E) bool :=
  c ← findchan chan;
  if c =? NULL then mret false else ch ← load_chan c; nick_in (chanops ch) nk.

Definition is_voiced (nk chan : string) : M (Net E) bool :=
  c ← findchan chan;
  if c =? NULL then mret false else ch ← load_chan c; nick_in (voices ch) nk.

(** *** do_umode *)
Definition umode_flag (c : ascii) : option Z :=
  if Ascii.eqb c "i" then Some UMODE_i
  else if Ascii.eqb c "w" then Some UMODE_w
  else if Ascii.eqb c "g" then Some UMODE_g
  else if Ascii.eqb c "s" then Some UMODE_s
  else None.

(** +R: the server vouches that the user owns the nick. *)
Definition auto_identify (user : ptr) : M (Net E) unit :=
  u ← load_user user;
  mysql_update_last_seen user NS_IDENTIFIED;;
  nickcache_update (real_id u);;
  send_cmd (Some s_NickServ)
    ("NOTICE " +:+ nick u +:+ " :You have been automatically identified");;
  send_cmd (Some ServerName) ("SVSMODE " +:+ nick u +:+ " :+R");;
  email ← get_email_from_id (real_id u);
  when (bool_decide (String.length email <= 1)%nat)
    (notice s_NickServ (nick u) "NICK_BEG_SET_EMAIL");;
  status ← get_nick_status (real_id u);
  when (negb (has status NS_RECOGNIZED)) (check_memos user);;
  status ← get_nick_status (real_id u);
  flags ← (if negb (has status NS_RECOGNIZED) then get_nick_flags (real_id u) else mret 0);
  when (negb (has status NS_RECOGNIZED) && has flags NI_CLOAK)
    (cloak ← get_cloak_from_id (real_id u);
     match cloak with
     | Some k => when (negb (String.eqb k EmptyString))
                   (send_cmd (Some ServerName) ("SVSCLOAK " +:+ nick u +:+ " :" +:+ k))
     | None => mret tt
     end;;
     check_autojoins user).

Definition umode_a (user : ptr) (add : bool) (av0 : string) : M (Net E) unit :=
  u ← load_user user;
  oper ← is_oper (nick u);
  admin ← (if oper : bool then is_services_admin user else mret false);
  if admin : bool then
    when (negb add) (send_cmd (Some s_NickServ) ("SVSMODE " +:+ av0 +:+ " :+a"))
  else
    when add (send_cmd (Some s_NickServ) ("SVSMODE " +:+ av0 +:+ " :-a")).

Definition umode_o (user : ptr) (add : bool) : M (Net E) unit :=
  if add then
    upd_user user (fun u => u{{mode ::= fun m => m .| UMODE_o}});;
    u ← load_user user;
    when WallOper
      (wallops (Some s_OperServ) (BOLD +:+ nick u +:+ BOLD +:+ " is now an IRC operator."));;
    display_news_oper user;;
    modify (fun n => n{{opcnt ::= fun k => wrap32 (k + 1)}})
  else
    upd_user user (fun u => u{{mode ::= fun m => m .&~ UMODE_o}});;
    modify (fun n => n{{opcnt ::= fun k => wrap32 (k - 1)}}).

Definition umode_step (user : ptr) (av0 : string) (add : bool) (c : ascii) : M (Net E) bool :=
  if Ascii.eqb c "+" then mret true
  else if Ascii.eqb c "-" then mret false
  else if Ascii.eqb c "R" then
    upd_user user (fun u => u{{mode ::= set_flag add UMODE_r}});;
    u ← load_user user;
    when (add && negb (real_id u =? 0)) (auto_identify user);;
    mret add
  else if Ascii.eqb c "a" then umode_a user add av0;; mret add
  else if Ascii.eqb c "o" then umode_o user add;; mret add
  else match umode_flag c with
  | Some f => upd_user user (fun u => u{{mode ::= set_flag add f}});; mret add
  | None => mret add
  end.

Fixpoint umode_loop (user : ptr) (av0 s : string) (add : bool) : M (Net E) unit :=
  match s with
  | EmptyString => mret tt
  | String c s' => add' ← umode_step user av0 add c; umode_loop user av0 s' add'
  end.

Definition do_umode (source av0 av1 : string) : M (Net E) unit :=
  if negb (stricmp source av0 =? 0) then
    wallops None (source +:+ " attempted to change mode " +:+ av1 +:+ " for " +:+ av0)
  else
    user ← finduser source;
    if user =? NULL then mret tt else umode_loop user av0 av1 true.

(** *** do_quit, do_kill, kill_user, svskill, bad_password *)
Definition mysql_quit_user (user : ptr) (last_seen : Z) (quit_msg : string) : M (Net E) unit :=
  u ← load_user user;
  rows ← mysql_quit_row (real_id u);
  when rows (mysql_quit_store (real_id u) last_seen quit_msg).

Definition user_gone (user : ptr) (msg : string) : M (Net E) unit :=
  u ← load_user user;
  t ← gets now;
  when (negb (nick_id u =? 0)) (mysql_quit_user user t msg);;
  when LimitSessions (del_session (host u));;
  delete_user user.

Definition do_quit (source reason : string) : M (Net E) unit :=
  user ← finduser source;
  if user =? NULL then mret tt else user_gone user reason.

Definition do_kill (nk reason : string) : M (Net E) unit :=
  user ← finduser nk;
  if user =? NULL then mret tt else user_gone user reason.

Definition BUFSIZE : nat := 1024.

Definition kill_user (source : option string) (user reason : string) : M (Net E) unit :=
  if String.eqb user EmptyString then mret tt
  else
    let src := match source with
               | Some s => if String.eqb s EmptyString then ServerName else s
               | None => ServerName end in
    let buf := trunc BUFSIZE reason in
    send_cmd (Some src) ("KILL " +:+ user +:+ " :" +:+ src +:+ " (" +:+ buf +:+ ")");;
    do_kill user buf.

Definition svskill (source : option string) (user reason : string) : M (Net E) unit :=
  if String.eqb user EmptyString then mret tt
  else
    let src := match source with
               | Some s => if String.eqb s EmptyString then ServerName else s
               | None => ServerName end in
    let buf := trunc BUFSIZE reason in
    send_cmd (Some src) ("SVSKILL " +:+ user +:+ " :" +:+ buf);;
    do_kill user buf.

(** [invalid_pw_count] is a [short]. *)
Definition bad_password (user : ptr) : M (Net E) unit :=
  t ← gets now;
  if BadPassLimit =? 0 then mret tt
  else
    u ← load_user user;
    when ((0 <? BadPassTimeout) && (0 <? invalid_pw_time u) &&
          (invalid_pw_time u <? t - BadPassTimeout))
      (upd_user user (fun u => u{{invalid_pw_count := 0}}));;
    upd_user user (fun u => u{{invalid_pw_count ::= fun k => wrap16 (k + 1);
                              invalid_pw_time := t}});;
    u ← load_user user;
    when (BadPassLimit <=? invalid_pw_count u)
      (kill_user None (nick u) "Too many invalid passwords").
End Users.

(** ** Effect on the graph *)
Section UserLemmas.
Context `{Conf} {E : Type} `{!ChanServ E} `{!NickServ E} `{!OperServ E}.
Context `{!ChanServLaws E} `{!NickServLaws E} `{!OperServLaws E}.
Implicit Types (n : Net E).

(** A store to a user that its view does not show. *)
Lemma wp_upd_user_hidden n p u f (Q : unit -> Net E -> Prop) :
  users_heap n !! p = Some u -> (forall u, user_view (f u) = user_view u) ->
  (forall n', graph_of n' = graph_of n -> users_heap n' !! p = Some (f u) -> Q tt n') ->
  wp (upd_user p f) Q n.
Proof.
  intros Hc Hf HQ. eapply wp_upd_user; [done|]. eapply HQ; [|apply lookup_insert_eq].
  apply (graph_upd_user_id n p u); [done|apply Hf].
Qed.

Lemma wp_upd_user_view n p u f h (Q : unit -> Net E -> Prop) :
  users_heap n !! p = Some u -> (forall u, user_view (f u) = h (user_view u)) ->
  (forall n', graph_of n' = (graph_of n){{g_users ::= alter h p}} ->
     users_heap n' !! p = Some (f u) -> Q tt n') ->
  wp (upd_user p f) Q n.
Proof.
  intros Hc Hf HQ. eapply wp_upd_user; [done|]. apply HQ; [|apply lookup_insert_eq].
  by apply graph_upd_user.
Qed.

(** The same, seen from the graph only. *)
Lemma wp_user_frame n p f :
  is_Some (users_heap n !! p) -> (forall u, user_view (f u) = user_view u) ->
  wp (upd_user p f) (fun _ n' => graph_of n' = graph_of n) n.
Proof. intros [u Hu] Hf. eapply wp_upd_user_hidden; [done|done|]. by intros n' Hn' _. Qed.

Lemma lookup_ids_frame p nk : framed_user p (lookup_ids p nk).
Proof. unfold lookup_ids. solve_framed. Qed.

Lemma count_user_frame n : wp count_user (fun _ n' => graph_of n' = graph_of n) n.
Proof.
  unfold count_user. apply wp_bind, wp_modify, wp_bind, wp_get, wp_when; intros _; [|done].
  apply wp_bind, wp_modify, wp_bind. eapply wp_mono; [apply ext_only_graph, law_maxuser_stat|].
  intros [] n1 Hn1. apply wp_when; intros _; [apply wp_modify; done|done].
Qed.

(** [new_user] adds a user, on no channel, at a fresh address. *)
Lemma new_user_spec n nk :
  heap_ok (graph_of n) -> no_nul nk = true ->
  wp (new_user nk) (fun p n' => p = next_addr n /\
    graph_of n' = g_new_user (trunc NICKMAX nk) (graph_of n)) n.
Proof.
  intros Hg Hnk. set (g' := g_new_user (trunc NICKMAX nk) (graph_of n)).
  assert (Hg' : heap_ok g') by (apply heap_ok_new_user; [by apply no_nul_take|done]).
  unfold new_user, alloc_user. wps.
  match goal with |- wp _ _ ?s => set (n1 := s) end.
  assert (Hn1 : graph_of n1 = g').
  { unfold n1, g', g_new_user, graph_of. simpl. by rewrite fmap_insert. }
  assert (Hp1 : is_Some (users_heap n1 !! next_addr n))
    by (apply is_Some_graph_user; rewrite Hn1; simpl; rewrite lookup_insert_eq; eauto).
  clearbody n1. eapply wp_framed_user; [apply lookup_ids_frame|by rewrite Hn1|done|].
  intros [] n2 Hn2 _ _. wps. eapply wp_mono; [apply count_user_frame|]. intros [] n3 Hn3. wps.
  split; [done|]. by rewrite Hn3, Hn2.
Qed.

Lemma relink_user_spec n p nk :
  is_Some (users_heap n !! p) ->
  wp (relink_user p nk) (fun _ n' => graph_of n' = g_rename p (trunc NICKMAX nk) (graph_of n)) n.
Proof.
  intros [u Hu]. unfold relink_user. wps. eapply wp_load_user; [done|]. apply wp_modify.
  unfold g_rename, graph_of. simpl. rewrite lookup_fmap, Hu. simpl. by rewrite fmap_insert.
Qed.

Lemma rename_user_there g p q nk :
  is_Some (g_users g !! q) -> is_Some (g_users (g_rename p nk g) !! q).
Proof.
  intros H1. unfold g_rename. destruct (g_users g !! p) as [v|] eqn:Hp; [|done]. simpl.
  destruct (decide (q = p)) as [->|]; [rewrite lookup_insert_eq; eauto|by rewrite lookup_insert_ne].
Qed.

(** [change_user_nick] moves the user to the bucket of the new nick. *)
Lemma change_user_nick_spec n p nk b :
  heap_ok (graph_of n) -> no_nul nk = true -> is_Some (users_heap n !! p) ->
  wp (change_user_nick p nk b) (fun _ n' =>
    graph_of n' = g_rename p (trunc NICKMAX nk) (graph_of n)) n.
Proof.
  intros Hg Hnk Hp. unfold change_user_nick. apply wp_bind.
  eapply wp_mono; [by apply relink_user_spec|]. intros [] n1 Hn1.
  assert (Hg1 : heap_ok (graph_of n1)) by (rewrite Hn1; apply heap_ok_rename; [by apply no_nul_take|done]).
  assert (Hp1 : is_Some (users_heap n1 !! p)).
  { apply is_Some_graph_user. rewrite Hn1. by apply rename_user_there, is_Some_graph_user. }
  eapply wp_framed_user; [|done|done|intros [] n2 -> _ _; exact Hn1]. solve_framed.
Qed.

(** The walk of [delete_user] and [JOIN 0] over the user's channels. *)
Lemma leave_loop_spec p l n :
  is_Some (users_heap n !! p) -> graph_ok (g_set_chans p l (graph_of n)) ->
  wp (for_each l (fun c => chan_deluser p c))
    (fun _ n' => graph_of n' = g_leave_all p l (graph_of n)) n.
Proof.
  rewrite <- is_Some_graph_user. revert n. induction l as [|c l IH]; intros n Hp Hg; [done|].
  simpl. apply wp_bind. eapply wp_mono; [apply chan_deluser_spec|].
  - apply is_Some_graph_chan. destruct Hp as [v Hv].
    apply (ho_chans _ (proj1 Hg) p (v{{v_chans := c :: l}}) c); [|constructor].
    by rewrite lookup_set_chans, Hv.
  - intros [] n1 Hn1. rewrite <- Hn1. apply IH; rewrite Hn1; [by rewrite g_users_deluser|].
    by apply graph_ok_leave_step.
Qed.

(** [delete_user] takes the user off every channel and frees it. *)
Lemma delete_user_spec n p u :
  graph_ok (graph_of n) -> users_heap n !! p = Some u ->
  wp (delete_user p) (fun _ n' => graph_ok (graph_of n') /\
    graph_of n' = g_free_user p (g_leave_all p (chans u) (graph_of n))) n.
Proof.
  intros Hg Hu. assert (Hv : g_users (graph_of n) !! p = Some (user_view u)) by (apply graph_user; eauto).
  unfold delete_user. apply wp_bind. eapply wp_load_user; [done|]. apply wp_bind, wp_modify, wp_bind.
  assert (Hcont : forall n1, graph_of n1 = graph_of n ->
    wp (cancel_user p;; u ← load_user p; for_each (chans u) (fun c => chan_deluser p c);; free_user p)
      (fun _ n' => graph_ok (graph_of n') /\
        graph_of n' = g_free_user p (g_leave_all p (chans u) (graph_of n))) n1).
  { intros n1 Hn1. apply wp_bind. eapply wp_mono; [apply law_cancel_user|].
    - rewrite Hn1. apply Hg.
    - apply (user_of_graph n); eauto.
    - intros [] n2 Hn2. assert (Hg2 : graph_of n2 = graph_of n) by congruence.
      pose proof Hv as Hv2. rewrite <- Hg2 in Hv2. apply graph_user in Hv2 as (u2 & Hu2 & Hvu).
      assert (Hch : chans u2 = chans u) by (by injection Hvu). apply wp_bind.
      eapply wp_load_user; [done|]. rewrite Hch, <- Hg2.
      assert (Hset : graph_ok (g_set_chans p (chans u) (graph_of n2))).
      { rewrite Hg2, (g_set_chans_id _ p (user_view u)); done. }
      apply wp_bind. eapply wp_mono; [apply leave_loop_spec; [eauto|done]|]. intros [] n3 Hn3.
      destruct (graph_ok_leave_all (graph_of n2) p (chans u)) as [Hok Hus]; [|done|].
      { rewrite Hg2. eauto. }
      rewrite <- Hn3 in *. assert (Hp3 : is_Some (users_heap n3 !! p)).
      { apply is_Some_graph_user. rewrite Hus, Hg2. eauto. }
      destruct Hp3 as [u3 Hu3]. unfold free_user. apply wp_bind.
      eapply wp_load_user; [done|]. apply wp_modify.
      assert (Hfin : graph_of (n3{{users_heap ::= delete p;
          userlist := pull (userlist n3) (nick_HASH (nick u3)) p}}) = g_free_user p (graph_of n3)).
      { unfold g_free_user, graph_of. simpl. rewrite lookup_fmap, Hu3. simpl. by rewrite fmap_delete. }
      rewrite Hfin. split; [by apply graph_ok_free_user|done]. }
  apply wp_when; intros _; [apply wp_modify|]; by apply Hcont.
Qed.

(** *** Joining *)
Lemma welcome_frame p chan : framed_user p (welcome p chan).
Proof. unfold welcome, display_entry_message, notice. solve_framed. Qed.

Lemma g_findchan_names g g' s :
  g_clist g' = g_clist g ->
  (forall c, w_name <$> g_chans g' !! c = w_name <$> g_chans g !! c) ->
  g_findchan g' s = g_findchan g s.
Proof.
  intros Hl Hn. unfold g_findchan. rewrite Hl. f_equal.
  generalize (bucket (g_clist g) (chan_HASH s)). induction l as [|c l IH]; [done|]. simpl.
  specialize (Hn c). destruct (g_chans g' !! c), (g_chans g !! c); simplify_eq/=; by rewrite ?Hn, IH.
Qed.

Lemma names_alter g c f c' :
  (forall w, w_name (f w) = w_name w) ->
  w_name <$> (alter f c (g_chans g)) !! c' = w_name <$> g_chans g !! c'.
Proof.
  intros Hf. destruct (decide (c = c')) as [->|]; [|by rewrite lookup_alter_ne].
  rewrite lookup_alter_eq. destruct (g_chans g !! c'); simpl; [by rewrite Hf|done].
Qed.

Lemma g_findchan_adduser g s p c st :
  g_findchan (g_member p c (g_status st p c g)) s = g_findchan g s.
Proof.
  transitivity (g_findchan (g_status st p c g) s).
  - apply g_findchan_names; [done|]. intros c'. by apply names_alter.
  - destruct st; [done|..]; apply g_findchan_names; try done; intros c'; by apply names_alter.
Qed.

Lemma g_finduser_nicks g g' nk :
  g_ulist g' = g_ulist g ->
  (forall p, v_nick <$> g_users g' !! p = v_nick <$> g_users g !! p) ->
  g_finduser g' nk = g_finduser g nk.
Proof.
  intros Hl Hn. unfold g_finduser. rewrite Hl. f_equal.
  generalize (bucket (g_ulist g) (nick_HASH nk)). induction l as [|p l IH]; [done|]. simpl.
  specialize (Hn p). destruct (g_users g' !! p), (g_users g !! p); simplify_eq/=; by rewrite ?Hn, IH.
Qed.

Lemma g_ulist_status st p c g : g_ulist (g_status st p c g) = g_ulist g.
Proof. by destruct st. Qed.

Lemma g_finduser_join p c st g nk :
  g_finduser (g_join p c (g_status st p c g)) nk = g_finduser g nk.
Proof.
  apply g_finduser_nicks; [by destruct st|]. intros q. simpl. rewrite g_users_status.
  destruct (decide (p = q)) as [->|]; [|by rewrite lookup_alter_ne].
  rewrite lookup_alter_eq. by destruct (g_users g !! q).
Qed.

Lemma in_users_member st p c g :
  is_Some (g_chans g !! c) ->
  exists w, g_chans (g_member p c (g_status st p c g)) !! c = Some w /\ p ∈ w_users w.
Proof.
  intros Hc. apply (is_Some_chans_status st g p c) in Hc as [w Hw]. simpl.
  rewrite lookup_alter_eq, Hw. eexists. split; [done|]. simpl. constructor.
Qed.

(** After [chan_adduser] a lookup finds the channel, and linking it to the
    user completes a step of the abstract machine. *)
Lemma adduser_join p chan g g' (c := g_findchan g' chan) :
  adduser_graph p chan g g' -> graph_ok g -> is_Some (g_users g !! p) ->
  no_nul chan = true -> (String.length chan < CHANMAX)%nat ->
  chan_found g chan (g_findchan g chan) ->
  heap_ok g' /\ is_Some (g_users g' !! p) /\ gstep g (g_link p c g') /\
  (exists w, g_chans g' !! c = Some w /\ p ∈ w_users w) /\
  forall nk, g_finduser (g_link p c g') nk = g_finduser g nk.
Proof.
  intros (c0 & st & Hadd) Hg Hp Hnm Hlen Hf. pose proof Hg as [Hh Hm].
  assert (Hjoin : forall g1, heap_ok g1 -> is_Some (g_users g1 !! p) -> is_Some (g_chans g1 !! c0) ->
    g_findchan g1 chan = c0 -> (forall nk, g_finduser g1 nk = g_finduser g nk) ->
    gstep g (g_join p c0 (g_status st p c0 g1)) -> g' = g_member p c0 (g_status st p c0 g1) ->
    heap_ok g' /\ is_Some (g_users g' !! p) /\ gstep g (g_link p c g') /\
    (exists w, g_chans g' !! c = Some w /\ p ∈ w_users w) /\
    forall nk, g_finduser (g_link p c g') nk = g_finduser g nk).
  { intros g1 H1 H2 H3 H4 H5 H6 ->. unfold c. rewrite g_findchan_adduser, H4.
    split; [apply heap_ok_member; [by rewrite g_users_status|by apply heap_ok_status]|].
    split; [simpl; by rewrite g_users_status|]. split; [done|].
    split; [by apply in_users_member|]. intros nk. by rewrite <- H5, <- (g_finduser_join p c0 st g1). }
  destruct Hadd as [(Hc & -> & Hg')|(Hc0 & -> & Hg')].
  - destruct Hf as [[? _]|(_ & w & Hw & _)]; [done|]. eapply (Hjoin g); eauto. constructor; eauto.
  - assert (Htr : trunc CHANMAX chan = chan) by (apply str_take_all; unfold CHANMAX in *; lia).
    rewrite Htr in Hg'. eapply (Hjoin (g_new_chan chan g)); try done.
    + by apply heap_ok_new_chan.
    + simpl. rewrite lookup_insert_eq. eauto.
    + unfold g_findchan, g_new_chan. simpl. rewrite bucket_push, decide_True by done. simpl.
      rewrite lookup_insert_eq. simpl. by rewrite irc_stricmp_refl.
    + by constructor.
Qed.

(** A handler that takes abstract steps, user [p] staying online. *)
Definition steps_user (p : ptr) n (m : M (Net E) unit) : Prop :=
  wp m (fun _ n' => rtc gstep (graph_of n) (graph_of n') /\ is_Some (users_heap n' !! p)) n.

Lemma leave_all_steps n p :
  graph_ok (graph_of n) -> is_Some (users_heap n !! p) -> steps_user p n (leave_all p).
Proof.
  intros Hg [u Hu]. unfold steps_user, leave_all. apply wp_bind. eapply wp_load_user; [done|].
  assert (Hv : g_users (graph_of n) !! p = Some (user_view u)) by (apply graph_user; eauto).
  assert (Hid : graph_ok (g_set_chans p (chans u) (graph_of n)))
    by (rewrite (g_set_chans_id _ p (user_view u)); done).
  apply wp_bind. eapply wp_mono; [apply leave_loop_spec; eauto|]. intros [] n1 Hn1.
  destruct (graph_ok_leave_all (graph_of n) p (chans u)) as [_ Hus]; [eauto|done|].
  assert (Hp1 : is_Some (users_heap n1 !! p)) by (apply is_Some_graph_user; rewrite Hn1, Hus; eauto).
  destruct Hp1 as [u1 Hu1].
  eapply (wp_upd_user_view n1 p u1 _ (fun v => v{{v_chans := [] }})); [done|done|].
  intros n2 Hn2 Hp2. split; [|eauto]. apply rtc_once. rewrite Hn2, Hn1.
  apply (gs_leave_all (graph_of n) p (user_view u) Hv).
Qed.

(** The part of JOIN and SJOIN that both share: enter, greet, link. *)
Lemma enter_steps n p chan :
  graph_ok (graph_of n) -> is_Some (users_heap n !! p) ->
  no_nul chan = true -> (String.length chan < CHANMAX)%nat ->
  wp (enter_channel p chan)
    (fun c n' => gstep (graph_of n) (graph_of n') /\ is_Some (users_heap n' !! p) /\
       c = g_findchan (graph_of n') chan /\
       (exists w, g_chans (graph_of n') !! c = Some w /\ p ∈ w_users w) /\
       forall nk, g_finduser (graph_of n') nk = g_finduser (graph_of n) nk) n.
Proof.
  intros Hg Hp Hnm Hlen. unfold enter_channel. apply wp_bind.
  eapply wp_mono; [apply chan_adduser_spec; [apply Hg|done|done]|].
  intros [] n1 Hadd.
  destruct (adduser_join p chan _ _ Hadd Hg) as (Hh1 & Hp1 & Hs & Hw & Hfu);
    [by apply is_Some_graph_user|done|done|by apply g_findchan_found; [apply Hg|]|].
  apply is_Some_graph_user in Hp1. apply wp_bind.
  eapply wp_framed_user; [apply welcome_frame|done|done|].
  intros [] n2 Hn2 Hh2 [u2 Hu2]. apply wp_bind. eapply wp_intro; [by apply findchan_det|].
  apply wp_bind. rewrite Hn2.
  eapply (wp_upd_user_view n2 p u2 _ (fun v => v{{v_chans ::= cons (g_findchan (graph_of n1) chan)}}));
    [done|done|].
  intros n3 Hn3 Hp3. apply wp_ret. rewrite Hn2 in Hn3. rewrite Hn3.
  split_and!; [done|eauto| |done|done].
  symmetry. by apply g_findchan_names.
Qed.

(** A channel name as an IRC server sends it. *)
Definition chan_ok (s : string) : Prop := no_nul s = true /\ (String.length s < CHANMAX)%nat.

Lemma join_one_steps n p s :
  graph_ok (graph_of n) -> is_Some (users_heap n !! p) -> chan_ok s -> steps_user p n (join_one p s).
Proof.
  intros Hg Hp [Hnm Hlen]. unfold steps_user, join_one. case_match; [by apply leave_all_steps|].
  apply wp_bind. eapply wp_mono; [by apply law_check_kick; [|apply Hg|]|]. intros kicked n1 Hn1.
  assert (Hp1 : is_Some (users_heap n1 !! p)) by (by apply (user_of_graph n)).
  destruct kicked; [apply wp_ret; by rewrite Hn1|]. apply wp_bind.
  eapply wp_mono; [apply enter_steps; [by rewrite Hn1|done..]|].
  intros c n2 (Hs & Hp2 & _). apply wp_ret. split; [|done]. rewrite <- Hn1. by apply rtc_once.
Qed.

(** Iterating a handler over a list of items. *)
Lemma for_each_steps {A} (I : Net E -> Prop) (l : list A) f n :
  I n -> graph_ok (graph_of n) ->
  (forall x n', x ∈ l -> I n' -> graph_ok (graph_of n') ->
     wp (f x) (fun _ n'' => rtc gstep (graph_of n') (graph_of n'') /\ I n'') n') ->
  wp (for_each l f) (fun _ n' => rtc gstep (graph_of n) (graph_of n') /\ I n') n.
Proof.
  intros HI Hg Hf. apply (wp_for_each (fun n' => rtc gstep (graph_of n) (graph_of n') /\ I n')); [done|].
  intros x n' Hx [Hs HI']. eapply wp_mono; [apply Hf; [done|done|by eapply graph_ok_gsteps]|].
  intros [] n'' [Hs' HI'']. split; [by etrans|done].
Qed.

Lemma do_join_steps n source l :
  graph_ok (graph_of n) -> no_nul source = true -> (forall s, s ∈ tokens l "," -> chan_ok s) ->
  wp (do_join source l) (fun _ n' => rtc gstep (graph_of n) (graph_of n')) n.
Proof.
  intros Hg Hsrc Hl. unfold do_join. apply wp_bind, wp_finduser; [apply Hg|done|]. intros p Hf _.
  destruct (Z.eqb_spec p NULL) as [->|Hne]; [by apply wp_ret|].
  destruct (nick_found_user _ _ _ Hf Hne) as (u & Hu & _).
  eapply wp_mono; [apply (for_each_steps (fun n => is_Some (users_heap n !! p))); [eauto|done|]|].
  - intros s n' Hs Hp Hg'. apply join_one_steps; auto.
  - by intros [] n' [? _].
Qed.

(** *** Leaving *)
Lemma find_uchan_spec n l s :
  (forall c, c ∈ l -> is_Some (chans_heap n !! c)) ->
  wp (find_uchan l s) (fun oc n' => n' = n /\ match oc with
    | Some c => c ∈ l /\ exists ch, chans_heap n !! c = Some ch /\ stricmp s (name ch) = 0
    | None => forall c ch, c ∈ l -> chans_heap n !! c = Some ch -> stricmp s (name ch) <> 0
    end) n.
Proof.
  induction l as [|c l IH]; intros Hl; simpl.
  - apply wp_ret. split; [done|]. intros c ch Hc. by apply elem_of_nil in Hc.
  - destruct (Hl c ltac:(constructor)) as [ch Hc]. apply wp_bind. eapply wp_load_chan; [done|].
    destruct (Z.eqb_spec (stricmp s (name ch)) 0) as [E0|E0].
    + apply wp_ret. split; [done|]. split; [constructor|eauto].
    + eapply wp_mono; [apply IH; intros d Hd; apply Hl; by constructor|].
      intros [d|] n' [-> Hd]; (split; [done|]).
      * destruct Hd. split; [by constructor|done].
      * intros d ch' Hd' Hch'. apply elem_of_cons in Hd' as [->|Hd']; [congruence|eauto].
Qed.

(** [part_one] removes the membership in the channel of that name, if any. *)
Lemma part_one_spec n p u s :
  graph_ok (graph_of n) -> users_heap n !! p = Some u ->
  wp (part_one p s) (fun _ n' =>
    (graph_of n' = graph_of n /\ forall c ch, c ∈ chans u -> chans_heap n !! c = Some ch ->
       stricmp s (name ch) <> 0) \/
    exists c ch, c ∈ chans u /\ chans_heap n !! c = Some ch /\ stricmp s (name ch) = 0 /\
      graph_of n' = g_leave p c (graph_of n)) n.
Proof.
  intros Hg Hu. unfold part_one. apply wp_bind. eapply wp_load_user; [done|].
  assert (Hv : g_users (graph_of n) !! p = Some (user_view u)) by (apply graph_user; eauto).
  apply wp_bind. eapply wp_mono; [apply find_uchan_spec|].
  { intros c Hc. apply is_Some_graph_chan. by apply (ho_chans _ (proj1 Hg) p (user_view u)). }
  intros [c|] n' [-> Hc]; [|apply wp_ret; by left].
  destruct Hc as (Hin & ch & Hch & Hcmp). apply wp_bind.
  eapply wp_mono; [apply chan_deluser_spec; eauto|]. intros [] n1 Hn1.
  assert (Hp1 : is_Some (users_heap n1 !! p)).
  { apply is_Some_graph_user. rewrite Hn1, g_users_deluser. eauto. }
  destruct Hp1 as [u1 Hu1].
  eapply (wp_upd_user_view n1 p u1 _ (fun v => v{{v_chans ::= unlink c}})); [done|done|].
  intros n2 Hn2 _. right. exists c, ch. split_and!; try done. rewrite Hn2, Hn1.
  unfold g_leave, g_unlink, g_deluser. simpl. by repeat case_match.
Qed.

Lemma g_users_leave_some g p c q :
  is_Some (g_users g !! q) -> is_Some (g_users (g_leave p c g) !! q).
Proof. intros Hq. unfold g_leave. rewrite g_users_deluser. simpl. by apply is_Some_alter. Qed.

Lemma part_one_steps n p s :
  graph_ok (graph_of n) -> is_Some (users_heap n !! p) -> steps_user p n (part_one p s).
Proof.
  intros Hg [u Hu]. eapply wp_mono; [by apply part_one_spec|].
  intros [] n' [[Hn _]|(c & ch & Hin & Hch & _ & Hn)].
  - rewrite Hn. split; [done|]. apply (user_of_graph n); eauto.
  - rewrite Hn. split.
    + apply rtc_once. eapply (gs_leave _ p (user_view u)); [apply graph_user; eauto|done].
    + apply is_Some_graph_user. rewrite Hn. apply g_users_leave_some, is_Some_graph_user. eauto.
Qed.

Lemma do_part_steps n source l :
  graph_ok (graph_of n) -> no_nul source = true ->
  wp (do_part source l) (fun _ n' => rtc gstep (graph_of n) (graph_of n')) n.
Proof.
  intros Hg Hsrc. unfold do_part. apply wp_bind, wp_finduser; [apply Hg|done|]. intros p Hf _.
  destruct (Z.eqb_spec p NULL) as [->|Hne]; [by apply wp_ret|].
  destruct (nick_found_user _ _ _ Hf Hne) as (u & Hu & _).
  eapply wp_mono; [apply (for_each_steps (fun n => is_Some (users_heap n !! p))); [eauto|done|]|].
  - intros s n' Hs Hp Hg'. by apply part_one_steps.
  - by intros [] n' [? _].
Qed.

Lemma do_kick_steps n chan l :
  graph_ok (graph_of n) -> (forall s, s ∈ tokens l "," -> no_nul s = true) ->
  wp (do_kick chan l) (fun _ n' => rtc gstep (graph_of n) (graph_of n')) n.
Proof.
  intros Hg Hl. eapply wp_mono; [apply (for_each_steps (fun _ => True)); [done|done|]|].
  - intros s n' Hs _ Hg'. unfold kick_one. apply wp_bind, wp_finduser; [apply Hg'|by apply Hl|].
    intros p Hf _. destruct (Z.eqb_spec p NULL) as [->|Hne]; [by apply wp_ret|].
    destruct (nick_found_user _ _ _ Hf Hne) as (u & Hu & _).
    eapply wp_mono; [apply part_one_steps; eauto|]. by intros [] n'' [? _].
  - by intros [] n' [? _].
Qed.

(** *** QUIT and KILL *)
Lemma user_gone_steps n p u msg :
  graph_ok (graph_of n) -> users_heap n !! p = Some u ->
  wp (user_gone p msg) (fun _ n' =>
    graph_of n' = g_free_user p (g_leave_all p (chans u) (graph_of n))) n.
Proof.
  intros Hg Hu. unfold user_gone. apply wp_bind. eapply wp_load_user; [done|].
  apply wp_bind, wp_gets, wp_bind.
  assert (Hk : forall n1, graph_of n1 = graph_of n ->
    wp (when LimitSessions (del_session (host u));; delete_user p) (fun _ n' =>
      graph_of n' = g_free_user p (g_leave_all p (chans u) (graph_of n))) n1).
  { intros n1 Hn1. apply wp_bind.
    assert (Hk2 : forall n2, graph_of n2 = graph_of n -> wp (delete_user p) (fun _ n' =>
      graph_of n' = g_free_user p (g_leave_all p (chans u) (graph_of n))) n2).
    { intros n2 Hn2. assert (Hv : g_users (graph_of n2) !! p = Some (user_view u))
        by (rewrite Hn2; apply graph_user; eauto).
      apply graph_user in Hv as (u2 & Hu2 & Hvu). assert (Hch : chans u2 = chans u) by (by injection Hvu).
      eapply wp_mono; [eapply delete_user_spec; [by rewrite Hn2|done]|].
      intros [] n3 [_ ->]. by rewrite Hn2, Hch. }
    apply wp_when; intros _; [|by apply Hk2].
    eapply wp_mono; [apply ext_only_graph, law_del_session|]. intros [] n2 Hn2. apply Hk2. congruence. }
  apply wp_when; intros _; [|by apply Hk]. unfold mysql_quit_user. apply wp_bind.
  eapply wp_load_user; [done|]. apply wp_bind.
  eapply wp_mono; [apply ext_only_graph, law_quit_row|]. intros b n1 Hn1.
  apply wp_when; intros _; [|by apply Hk].
  eapply wp_mono; [apply ext_only_graph, law_quit_store|]. intros [] n2 Hn2. apply Hk. congruence.
Qed.

Lemma do_kill_steps n nk msg :
  graph_ok (graph_of n) -> no_nul nk = true ->
  wp (do_kill nk msg) (fun _ n' => rtc gstep (graph_of n) (graph_of n')) n.
Proof.
  intros Hg Hsrc. unfold do_kill. apply wp_bind, wp_finduser; [apply Hg|done|]. intros p Hf _.
  destruct (Z.eqb_spec p NULL) as [->|Hne]; [by apply wp_ret|].
  destruct (nick_found_user _ _ _ Hf Hne) as (u & Hu & _).
  eapply wp_mono; [by apply user_gone_steps|]. intros [] n' ->. apply rtc_once.
  apply (gs_quit (graph_of n) p (user_view u)). apply graph_user. eauto.
Qed.

Lemma do_quit_steps n nk msg :
  graph_ok (graph_of n) -> no_nul nk = true ->
  wp (do_quit nk msg) (fun _ n' => rtc gstep (graph_of n) (graph_of n')) n.
Proof. apply do_kill_steps. Qed.

(** *** User modes *)
Lemma g_finduser_some g nk : g_finduser g nk <> NULL -> is_Some (g_users g !! g_finduser g nk).
Proof.
  unfold g_finduser. destruct (find_first _ _) as [q|] eqn:Ef; simpl; [|done]. intros _.
  apply find_first_Some in Ef as [_ Ef]. destruct (g_users g !! q); [eauto|done].
Qed.

Lemma is_oper_frame p nk : framed_user (E := E) p (is_oper nk).
Proof.
  intros n Hg Hp. unfold is_oper. apply wp_bind. eapply wp_intro; [by apply finduser_det|].
  destruct (Z.eqb_spec (g_finduser (graph_of n) nk) NULL) as [|Hne]; [by apply wp_ret|].
  apply g_finduser_some, is_Some_graph_user in Hne as [u Hu].
  apply wp_bind. by eapply wp_load_user.
Qed.

Lemma umode_step_frame p av0 add a : framed_user p (umode_step p av0 add a).
Proof.
  unfold umode_step, auto_identify, umode_a, umode_o, wallops, notice.
  pose proof (is_oper_frame p). solve_framed.
Qed.

Lemma umode_loop_frame p av0 s add : framed_user p (umode_loop p av0 s add).
Proof.
  revert add. induction s as [|a s IH]; intros add; simpl; [apply framed_user_ret|].
  apply framed_user_bind; [apply umode_step_frame|done].
Qed.

Lemma do_umode_steps n source av0 av1 :
  heap_ok (graph_of n) -> no_nul source = true ->
  wp (do_umode source av0 av1) (fun _ n' => graph_of n' = graph_of n) n.
Proof.
  intros Hg Hs. unfold do_umode. case_match; [by apply wp_modify|].
  apply wp_bind, wp_finduser; [done|done|]. intros p Hf _.
  destruct (Z.eqb_spec p NULL) as [->|Hne]; [by apply wp_ret|].
  destruct (nick_found_user _ _ _ Hf Hne) as (u & Hu & _). apply umode_loop_frame; eauto.
Qed.

(** *** NICK *)
Lemma nick_checks_frame p nk b : framed_user p (nick_checks p nk b).
Proof. unfold nick_checks, send_cmd. solve_framed. Qed.

Lemma wp_argn n av i Q : (i < length av)%nat -> (forall a, av !! i = Some a -> Q a n) -> wp (argn av i) Q n.
Proof.
  intros Hi HQ. unfold argn. destruct (lookup_lt_is_Some_2 av i Hi) as [a Ha]. rewrite Ha.
  by apply wp_ret, HQ.
Qed.

(** A NICK introducing a user, as a server sends it. *)
Definition nick_intro_ok (g : graph) (av : list string) : Prop :=
  (8 <= length av)%nat /\ (forall a, av !! 0%nat = Some a -> no_nul a = true /\ nick_free g a) /\
  (forall h, av !! 5%nat = Some h -> host_ok h = true).

Lemma nick_new_user_steps n av :
  graph_ok (graph_of n) -> nick_intro_ok (graph_of n) av ->
  wp (nick_new_user av) (fun p n' => rtc gstep (graph_of n) (graph_of n') /\
    (p = NULL \/ is_Some (users_heap n' !! p))) n.
Proof.
  intros Hg (Hlen & Hnk & Hhost). unfold nick_new_user.
  apply wp_bind, wp_argn; [lia|]. intros nk Hnk0. destruct (Hnk nk Hnk0) as [Hnul Hfree].
  apply wp_bind, wp_argn; [lia|]. intros us _. apply wp_bind, wp_argn; [lia|]. intros hs Hhs.
  apply wp_bind. eapply wp_mono; [apply law_check_akill; [apply Hg|done]|].
  intros killed n1 Hn1. destruct killed; [apply wp_ret; rewrite Hn1; split; [done|by left]|].
  assert (Hk : forall ok n2, graph_of n2 = graph_of n ->
    wp (if negb ok then mret NULL else
          user ← new_user nk; ts ← argn av 2; sv ← argn av 6; rn ← argn av 7;
          s ← findserver sv; t ← gets now;
          upd_user user (fun u => u{{signon := atol ts; username := us; host := hs; server := s;
                                    realname := rn; my_signon := t}});;
          display_news_logon user;; mret user)
      (fun p n' => rtc gstep (graph_of n) (graph_of n') /\ (p = NULL \/ is_Some (users_heap n' !! p))) n2).
  { intros [] n2 Hn2; simpl; [|apply wp_ret; rewrite Hn2; split; [done|by left]].
    assert (Hh : heap_ok (graph_of n2)) by (rewrite Hn2; apply Hg).
    apply wp_bind. eapply wp_mono; [by apply new_user_spec|]. intros p n3 [Hp Hn3].
    assert (Hp3 : is_Some (users_heap n3 !! p)).
    { apply is_Some_graph_user. rewrite Hn3, Hp. unfold g_new_user. simpl. rewrite lookup_insert_eq. eauto. }
    do 3 (apply wp_bind, wp_argn; [lia|]; intros ? _).
    apply wp_bind. eapply wp_mono; [apply ext_only_graph, law_findserver|]. intros s n4 Hn4.
    apply wp_bind, wp_gets, wp_bind. assert (Hp4 : is_Some (users_heap n4 !! p)) by by apply (user_of_graph n3).
    destruct Hp4 as [u4 Hu4].
    eapply (wp_upd_user_view n4 p u4 _ (fun v => v{{v_username := us; v_host := hs}})); [done|done|].
    intros n5 Hn5 Hp5.
    assert (Hs : rtc gstep (graph_of n) (graph_of n5)).
    { rewrite Hn5, Hn4, Hn3, Hn2. eapply rtc_l; [apply (gs_user _ (trunc NICKMAX nk)); by apply no_nul_take|].
      by apply rtc_once, gs_identity, Hhost. }
    apply wp_bind. eapply wp_framed_user; [apply law_news_logon| |eauto|].
    - by apply (graph_ok_gsteps _ _ Hs Hg).
    - intros [] n6 Hn6 _ Hp6. apply wp_ret. rewrite Hn6. split; [done|by right]. }
  apply wp_bind. destruct LimitSessions.
  - eapply wp_mono; [apply law_add_session; [rewrite Hn1; apply Hg|by rewrite Hn1]|].
    intros ok n2 Hn2. apply Hk. congruence.
  - apply wp_ret. by apply (Hk true).
Qed.

Lemma do_nick_intro_steps n av :
  graph_ok (graph_of n) -> nick_intro_ok (graph_of n) av ->
  wp (do_nick EmptyString av) (fun _ n' => rtc gstep (graph_of n) (graph_of n')) n.
Proof.
  intros Hg Hav. unfold do_nick. simpl. apply wp_bind.
  eapply wp_mono; [by apply nick_new_user_steps|]. intros p n1 [Hs Hp].
  destruct (Z.eqb_spec p NULL) as [|Hne]; [by apply wp_ret|].
  destruct Hp as [|Hp]; [done|]. apply wp_bind, wp_argn; [destruct Hav; lia|]. intros nk _.
  apply wp_bind. eapply wp_framed_user; [apply nick_checks_frame|by apply (graph_ok_gsteps _ _ Hs Hg)|done|].
  intros [] n2 Hn2 _ _. apply wp_ret. by rewrite Hn2.
Qed.

Lemma do_nick_change_steps n source nk :
  graph_ok (graph_of n) -> source <> EmptyString -> no_nul source = true -> no_nul nk = true ->
  wp (do_nick source [nk]) (fun _ n' => rtc gstep (graph_of n) (graph_of n')) n.
Proof.
  intros Hg Hne Hsrc Hnk. unfold do_nick. rewrite (proj2 (String.eqb_neq _ _)) by done.
  apply wp_bind, wp_finduser; [apply Hg|done|]. intros p Hf _.
  destruct (Z.eqb_spec p NULL) as [->|Hp]; [by apply wp_ret|].
  destruct (nick_found_user _ _ _ Hf Hp) as (u & Hu & _). apply wp_bind, wp_ret.
  apply wp_bind, wp_gets, wp_bind.
  eapply (wp_framed_user p); [solve_framed|apply Hg|eauto|]. intros [] n1 Hn1 Hg1 Hp1.
  apply wp_bind. eapply (wp_framed_user p); [solve_framed|done|done|]. intros i n2 Hn2 Hg2 Hp2.
  apply wp_bind. eapply (wp_framed_user p); [solve_framed|done|done|]. intros l n3 Hn3 Hg3 Hp3.
  apply wp_bind. eapply (wp_framed_user p); [solve_framed|done|done|]. intros [] n4 Hn4 Hg4 Hp4.
  apply wp_bind. eapply wp_mono; [by apply change_user_nick_spec|]. intros [] n5 Hn5.
  apply wp_bind. eapply (wp_framed_user p); [apply nick_checks_frame|..].
  - rewrite Hn5. apply heap_ok_rename; [by apply no_nul_take|done].
  - apply is_Some_graph_user. rewrite Hn5. by apply rename_user_there, is_Some_graph_user.
  - intros [] n6 Hn6 _ _. apply wp_ret. rewrite Hn6, Hn5, Hn4, Hn3, Hn2, Hn1.
    apply rtc_once, gs_nick. by apply no_nul_take.
Qed.

(** *** SJOIN *)

(** An item of the nick list: at most two status marks and a nick. *)
Definition item_ok (item : string) : Prop :=
  (String.length (fst (sjoin_prefix item)) <= 2)%nat /\ no_nul (snd (sjoin_prefix item)) = true.

Lemma sjoin_one_steps n source channel addr item :
  graph_ok (graph_of n) -> chan_ok channel -> item_ok item ->
  wp (sjoin_one source channel addr item)
    (fun _ n' => rtc gstep (graph_of n) (graph_of n')) n.
Proof.
  intros Hg [Hnm Hlen] [Hpre Hnk]. unfold sjoin_one.
  destruct (sjoin_prefix item) as [modes nk]. simpl in Hpre, Hnk.
  rewrite (proj2 (Z.leb_gt 3 _)) by lia.
  apply wp_bind, wp_finduser; [apply Hg|done|]. intros p Hf Hp.
  destruct (Z.eqb_spec p NULL) as [->|Hne]; [by apply wp_ret|].
  destruct (nick_found_user _ _ _ Hf Hne) as (u & Hu & _).
  apply wp_bind. eapply wp_framed_user; [by apply law_check_kick|apply Hg|eauto|].
  intros kicked n1 Hn1 Hg1 Hp1. destruct kicked; [apply wp_ret; by rewrite Hn1|].
  apply wp_bind. eapply wp_mono; [apply enter_steps; [by rewrite Hn1|done..]|].
  intros c n2 (Hs & Hp2 & Hc & (w & Hw & Hin) & Hfu).
  assert (Hg2 : graph_ok (graph_of n2)) by (eapply graph_ok_gstep; [done|by rewrite Hn1]).
  rewrite Hn1 in Hs, Hfu. apply wp_bind.
  pose proof Hw as Hw'. apply graph_chan in Hw' as (ch & Hch & _).
  eapply wp_upd_chan_hidden; [done|done|]. intros n3 _ Hn3 _ _ _. apply wp_bind.
  apply wp_when; intros _; [|apply wp_ret; rewrite Hn3; by apply rtc_once].
  eapply wp_mono; [apply do_cmode_steps; [done| |simpl; lia|by rewrite Hn3|]|].
  - intros a Ha. repeat (apply elem_of_cons in Ha as [->|Ha]; [done|]). by apply elem_of_nil in Ha.
  - rewrite Hn3. intros _ a w' Ha _ Hw'. assert (a = nk) as ->.
    { repeat (apply elem_of_cons in Ha as [->|Ha]; [done|]). by apply elem_of_nil in Ha. }
    rewrite <- Hc in Hw'. rewrite Hfu, <- Hp. congruence.
  - intros [] n4 [Hs4 _]. apply wp_ret. rewrite Hn3 in Hs4. by eapply rtc_l.
Qed.

Lemma sjoin_loop_steps n source channel addr items j :
  graph_ok (graph_of n) -> chan_ok channel -> (forall i, i ∈ items -> item_ok i) ->
  wp (sjoin_loop source channel addr items j)
    (fun _ n' => rtc gstep (graph_of n) (graph_of n')) n.
Proof.
  revert n j. induction items as [|i items IH]; intros n j Hg Hc Hi; simpl; [by apply wp_ret|].
  apply wp_bind. eapply wp_mono; [apply sjoin_one_steps; [done|done|apply Hi; constructor]|].
  intros b n1 Hs. cbv beta in Hs. eapply wp_mono; [apply IH; [by eapply graph_ok_gsteps|done|]|].
  - intros k Hk. apply Hi. by constructor.
  - intros r n2 Hs2. by etrans.
Qed.

(** The arguments of an SJOIN without its join timestamp, and what a server
    sends there: channel, modes that set no status, their parameters, nicks. *)
Definition sjoin_args (av0 : list string) : list string :=
  match av0 !! 1%nat with
  | Some a1 => if isdigit (hd_char a1) then tail av0 else av0
  | None => av0
  end.
Definition sjoin_ok (source : string) (av0 : list string) : Prop :=
  let av := sjoin_args av0 in
  (2 <= length av0)%nat /\ (2 <= length av <= 6)%nat /\
  (forall c, av !! 1%nat = Some c -> chan_ok c) /\
  (forall m, av !! 2%nat = Some m -> may_op m = false) /\
  (forall i a, av !! i = Some a -> no_nul a = true) /\
  (forall t i, t = source \/ t ∈ av -> i ∈ tokens t " " -> item_ok i).

Lemma do_sjoin_steps n source addr av0 :
  graph_ok (graph_of n) -> sjoin_ok source av0 ->
  wp (do_sjoin source addr av0) (fun _ n' => rtc gstep (graph_of n) (graph_of n')) n.
Proof.
  intros Hg (Hl0 & Hl & Hc & Hm & Hnul & Hi). unfold do_sjoin.
  apply wp_bind, wp_argn; [lia|]. intros a1 Ha1. unfold sjoin_args in *. rewrite Ha1 in *.
  set (av := if isdigit (hd_char a1) then tail av0 else av0) in *.
  apply wp_bind, wp_argn; [lia|]. intros channel Hch. specialize (Hc _ Hch).
  apply wp_bind. assert (Ht : wp (if 4 <=? Z.of_nat (length av) then argn av (length av - 1) else mret source)
    (fun t n' => n' = n /\ (t = source \/ t ∈ av)) n).
  { case_match; [|by apply wp_ret; auto]. apply wp_argn; [lia|]. intros t Ht. split; [done|].
    right. by eapply list_elem_of_lookup_2. }
  eapply wp_mono; [apply Ht|]. intros t n' [-> Ht'].
  apply wp_bind. eapply wp_mono; [apply sjoin_loop_steps; [done|done|by intros; eapply Hi]|]. 
  intros j n1 Hs. cbv beta in Hs. destruct (negb _ && _) eqn:Ej; [|by apply wp_ret].
  apply andb_true_iff in Ej as [_ Hac]. apply Z.ltb_lt in Hac.
  apply wp_bind, wp_argn; [lia|]. intros modes Hmo. apply wp_when; intros _; [|done].
  apply wp_bind. assert (Ha : wp (if 6 <=? Z.of_nat (length av) then a3 ← argn av 3; a4 ← argn av 4; mret [a3; a4]
      else if 5 <=? Z.of_nat (length av) then a3 ← argn av 3; mret [a3] else mret [])
    (fun args n' => n' = n1 /\ Z.of_nat (length av) - 2 - 2 <= Z.of_nat (length args) /\
       forall a, a ∈ args -> no_nul a = true) n1).
  { clearbody av. destruct (Z.leb_spec 6 (Z.of_nat (length av))); [|destruct (Z.leb_spec 5 (Z.of_nat (length av)))].
    - apply wp_bind, wp_argn; [lia|]. intros a3 H3. apply wp_bind, wp_argn; [lia|]. intros a4 H4.
      apply wp_ret. split; [done|]. split; [simpl; lia|]. intros a Ha.
      repeat (apply elem_of_cons in Ha as [->|Ha]; [by eapply Hnul|]). by apply elem_of_nil in Ha.
    - apply wp_bind, wp_argn; [lia|]. intros a3 H3. apply wp_ret. split; [done|]. split; [simpl; lia|].
      intros a Ha. apply list_elem_of_singleton in Ha as ->. by eapply Hnul.
    - apply wp_ret. split; [done|]. split; [simpl; lia|]. intros a Ha. by apply elem_of_nil in Ha. }
  eapply wp_mono; [apply Ha|]. intros args n' (-> & Hlen & Hna).
  eapply wp_mono; [apply do_cmode_steps; [apply Hc|done|done|by eapply graph_ok_gsteps|]|].
  - intros Hmay. by rewrite (Hm _ Hmo) in Hmay.
  - intros [] n2 [Hs2 _]. by etrans.
Qed.

(** *** TOPIC *)
Lemma do_topic_frame n nk ac chan av :
  heap_ok (graph_of n) -> no_nul chan = true -> ac - 1 <= Z.of_nat (length av) ->
  wp (do_topic nk ac chan av) (fun _ n' => graph_of n' = graph_of n) n.
Proof.
  intros Hg Hch Hac. unfold do_topic. apply wp_bind, wp_findchan; [done|done|]. intros c Hc.
  destruct (Z.eqb_spec c NULL) as [->|Hne]; [by apply wp_ret|].
  destruct (chan_found_chan _ _ _ Hc Hne) as (ch & Hc0 & _). apply wp_bind.
  eapply wp_mono; [by apply law_check_topiclock; eauto|]. intros b n1 Hn1.
  destruct b; [by apply wp_ret|]. apply wp_bind, wp_gets, wp_bind.
  destruct (chan_of_graph n n1 c Hn1 ltac:(eauto)) as [ch1 Hc1].
  eapply wp_upd_chan_hidden; [done|done|]. intros n2 ch2 Hn2 Hc2 _ _. apply wp_bind.
  assert (Hr : forall n3, graph_of n3 = graph_of n -> wp (record_topic chan) (fun _ n' => graph_of n' = graph_of n) n3).
  { intros n3 Hn3. eapply wp_mono; [apply law_record_topic; [done|by rewrite Hn3]|].
    intros [] n4 ->. done. }
  destruct (Z.ltb_spec 1 ac) as [H1|H1]; [|apply wp_ret, Hr; congruence].
  destruct av as [|a av]; [simpl in Hac; lia|]. apply wp_bind, wp_ret. apply wp_when; intros _; [|apply Hr; congruence].
  eapply wp_upd_chan_hidden; [done|done|]. intros n3 _ Hn3 _ _ _. apply Hr. congruence.
Qed.
End UserLemmas.
