(* ===== verification/Messages.v ===== *)
(** Messages from the uplink: the line parser and the ignore list of
    [src/process.c], and the message table of [src/messages.c]. *)

From S2P Require Import Prelude CStr NumTime Wp Graph Net Interfaces Channels Users.

(** ** split_buf and the parser of [process] *)

(** [s = strpbrk (buf, " "); *s++ = 0; while (isspace ( *s)) s++;] : the word
    and the rest. *)
Definition take_word (buf : string) : string * string :=
  let k := strcspn buf " " in
  (str_take k buf, skip_space (str_drop 1 (str_drop k buf))).

Fixpoint split_loop (fuel : nat) (buf : string) : list string :=
  match fuel with
  | O => []
  | S fuel' =>
      match buf with
      | EmptyString => []
      | String ":" rest => [rest]
      | _ => let '(w, rest) := take_word buf in w :: split_loop fuel' rest
      end
  end.
Definition split_buf (buf : string) : list string := split_loop (String.length buf) buf.

(** A parsed line: source (empty when there is none), command, arguments. *)
Record Line := mkLine { l_source : string; l_cmd : string; l_args : list string }.

Definition parse_command (source buf : string) : option Line :=
  match buf with
  | EmptyString => None
  | _ => let '(cmd, rest) := take_word buf in
         Some (mkLine source (trunc 64 cmd) (split_buf rest))
  end.

(** [process] up to the dispatch; [None] where it returns early. *)
Definition parse_line (inbuf : string) : option Line :=
  let bufptr := if Ascii.eqb (hd_char inbuf) (chr 255) then str_drop 1 inbuf else inbuf in
  let buf := trunc 512 bufptr in
  match buf with
  | String ":" buf' =>
      if negb (has_char buf " ") then None
      else let '(src, rest) := take_word buf' in
           parse_command (trunc 64 src) rest
  | _ => parse_command EmptyString buf
  end.

(** ** The ignore list *)
Record IgnoreData := mkIgnore { who : string; itime : Z }.

(** [ignore[256]], hashed by the lower-cased first character. *)
Notation ignore_table := (gmap Z (list IgnoreData)).
Definition ign_hash (nick : string) : Z := code (tolower (hd_char nick)).
Definition ign_list (t : ignore_table) (h : Z) : list IgnoreData := default [] (t !! h).

Fixpoint ign_update (l : list IgnoreData) (w : string) (now delta : Z) : option (list IgnoreData) :=
  match l with
  | [] => None
  | i :: l' =>
      if stricmp (who i) w =? 0 then
        Some (mkIgnore (who i) (if now <? itime i then itime i + delta else now + delta) :: l')
      else cons i <$> ign_update l' w now delta
  end.

Definition add_ignore (t : ignore_table) (now : Z) (nick : string) (delta : Z) : ignore_table :=
  let h := ign_hash nick in
  let w := trunc NICKMAX nick in
  let l := ign_list t h in
  <[h := match ign_update l w now delta with
         | Some l' => l'
         | None => mkIgnore w (now + delta) :: l
         end]> t.

Definition get_ignore (t : ignore_table) (now : Z) (nick : string) : option IgnoreData * ignore_table :=
  let h := ign_hash nick in
  let same i := irc_stricmp (who i) nick =? 0 in
  match find_first same (ign_list t h) with
  | None => (None, t)
  | Some i =>
      if itime i <=? now then (None, <[h := remove_first same (ign_list t h)]> t)
      else (Some i, t)
  end.

(** ** The message table *)
Section Messages.
Context `{Conf} {E : Type} `{!ChanServ E} `{!NickServ E} `{!OperServ E}.

(** The pseudo-clients' reintroduction ([src/init.c]) and the messages handled
    by other components: service commands, servers, statistics, texts. *)
Context (introduce_user : string -> M (Net E) unit)
        (other : string -> string -> list string -> M (Net E) unit).
Implicit Types (source : string) (av : list string).

Definition m_nickcoll source av : M (Net E) unit :=
  match av with [] => mret tt | a :: _ => introduce_user a end.

Definition m_ping source av : M (Net E) unit :=
  match av with
  | [] => mret tt
  | [a] => send_cmd (Some ServerName) ("PONG " +:+ ServerName +:+ " " +:+ a)
  | a :: b :: _ => send_cmd (Some ServerName) ("PONG " +:+ b +:+ " " +:+ a)
  end.

Definition m_away source av : M (Net E) unit :=
  u ← finduser source;
  when (negb (u =? NULL) &&
        match av with [] => true | a :: _ => Ascii.eqb (hd_char a) NUL end)
    (check_memos u).

Definition m_join source av : M (Net E) unit :=
  match av with [l] => do_join source l | _ => mret tt end.

Definition m_kick source av : M (Net E) unit :=
  match av with [chan; nicks; _] => do_kick chan nicks | _ => mret tt end.

(** The nicks that [m_kill] brings back. *)
Definition is_service_nick (nk : string) : bool :=
  existsb (fun s => stricmp nk s =? 0)
    ([s_OperServ; s_NickServ; s_ChanServ; s_MemoServ; s_HelpServ; s_GlobalNoticer] ++
     option_list s_IrcIIHelp ++ option_list s_DevNull).

Definition m_kill source av : M (Net E) unit :=
  match av with
  | [nk; reason] => if is_service_nick nk then introduce_user nk else do_kill nk reason
  | _ => mret tt
  end.

(** Without arguments [*av[0]] reads an unset pointer. *)
Definition m_mode source av : M (Net E) unit :=
  match av with
  | [] => fault
  | a :: rest =>
      if Ascii.eqb (hd_char a) "#" || Ascii.eqb (hd_char a) "&" then
        match rest with
        | [] => mret tt
        | modes :: args => do_cmode source (Z.of_nat (length av)) a modes args
        end
      else match rest with [modes] => do_umode source a modes | _ => mret tt end
  end.

Definition m_nick source av : M (Net E) unit :=
  let ac := length av in
  if (if String.eqb source EmptyString then (ac =? 8)%nat else (ac =? 2)%nat) then
    ok ← do_nick source av;
    if ok : bool then
      a0 ← argn av 0;
      modes ← (if (2 <? ac)%nat then argn av 3 else mret EmptyString);
      do_umode a0 a0 modes
    else mret tt
  else mret tt.

Definition m_part source av : M (Net E) unit :=
  match av with [l] | [l; _] => do_part source l | _ => mret tt end.

Definition m_quit source av : M (Net E) unit :=
  match av with [reason] => do_quit source reason | _ => mret tt end.

Definition m_topic source av : M (Net E) unit :=
  match av with [chan; topic] => do_topic source 2 chan [topic] | _ => mret tt end.

Definition m_sjoin (addr : Z) source av : M (Net E) unit :=
  let ac := length av in
  if (ac =? 3)%nat || (ac <? 2)%nat then mret tt else do_sjoin source addr av.

Definition handler := string -> list string -> M (Net E) unit.

Definition messages (addr : Z) : list (string * option handler) :=
  [ ("436", Some m_nickcoll); ("AWAY", Some m_away); ("INFO", Some (other "INFO"));
    ("JOIN", Some m_join); ("KICK", Some m_kick); ("KILL", Some m_kill); ("MODE", Some m_mode);
    ("MOTD", Some (other "MOTD")); ("NICK", Some m_nick); ("NOTICE", None); ("PART", Some m_part);
    ("PASS", None); ("PING", Some m_ping); ("PRIVMSG", Some (other "PRIVMSG"));
    ("QUIT", Some m_quit); ("SERVER", Some (other "SERVER")); ("SQUIT", Some (other "SQUIT"));
    ("STATS", Some (other "STATS")); ("TIME", Some (other "TIME")); ("TOPIC", Some m_topic);
    ("USER", Some (fun _ _ => mret tt)); ("VERSION", Some (other "VERSION")); ("WALLOPS", None);
    ("WHOIS", Some (other "WHOIS")); ("CAPAB", None); ("SVINFO", None);
    ("SJOIN", Some (m_sjoin addr)); ("AKILL", None); ("GLOBOPS", None); ("CHATOPS", None);
    ("GNOTICE", None); ("GOPER", None); ("SQLINE", Some (other "SQLINE")); ("RAKILL", None) ].

Definition find_message (addr : Z) (name : string) : option (string * option handler) :=
  find_first (fun m => stricmp name (fst m) =? 0) (messages addr).

Definition dispatch (addr : Z) (l : Line) : M (Net E) unit :=
  match find_message addr (l_cmd l) with
  | Some (_, Some f) => f (l_source l) (l_args l)
  | _ => mret tt
  end.

Definition process (addr : Z) (inbuf : string) : M (Net E) unit :=
  match parse_line inbuf with Some l => dispatch addr l | None => mret tt end.
End Messages.

(** ** Safety and refinement of the message handlers *)
Section Dispatch.
Context `{Conf} {E : Type} `{!ChanServ E} `{!NickServ E} `{!OperServ E}.
Context `{!ChanServLaws E} `{!NickServLaws E} `{!OperServLaws E}.
Context (introduce_user : string -> M (Net E) unit)
        (other : string -> string -> list string -> M (Net E) unit).
Implicit Types (n : Net E).

(** The components behind the remaining messages only take steps of the
    abstract machine (a service may op, kick or kill on a user's request). *)
Hypothesis introduce_law : forall nk n, heap_ok (graph_of n) ->
  wp (introduce_user nk) (fun _ n' => graph_of n' = graph_of n) n.
Hypothesis other_law : forall cmd source av n, graph_ok (graph_of n) ->
  wp (other cmd source av) (fun _ n' => rtc gstep (graph_of n) (graph_of n')) n.

Definition line_is (l : Line) (cmd : string) : Prop := stricmp (l_cmd l) cmd = 0.

(** What an IRC server guarantees of the lines it sends. *)
Record line_ok (g : graph) (l : Line) : Prop := {
  lk_nul : forall a, a ∈ l_source l :: l_args l -> no_nul a = true;
  lk_join : line_is l "JOIN" -> forall a s, a ∈ l_args l -> s ∈ tokens a "," -> chan_ok s;
  lk_kick : line_is l "KICK" -> forall a s, a ∈ l_args l -> s ∈ tokens a "," -> no_nul s = true;
  lk_mode : line_is l "MODE" -> l_args l <> [] /\
    forall chan modes args, l_args l = chan :: modes :: args -> mode_args_ok g chan modes args;
  lk_nick : line_is l "NICK" -> l_source l = EmptyString -> length (l_args l) = 8%nat ->
    nick_intro_ok g (l_args l);
  lk_sjoin : line_is l "SJOIN" -> sjoin_ok (l_source l) (l_args l)
}.

Definition steps n (m : M (Net E) unit) : Prop :=
  wp m (fun _ n' => rtc gstep (graph_of n) (graph_of n')) n.

Lemma steps_frame n m : wp m (fun _ n' => graph_of n' = graph_of n) n -> steps n m.
Proof. intros H0. eapply wp_mono; [done|]. by intros [] n' ->. Qed.

Lemma m_away_steps n source av :
  graph_ok (graph_of n) -> no_nul source = true -> steps n (m_away source av).
Proof.
  intros Hg Hs. apply steps_frame. unfold m_away. apply wp_bind, wp_finduser; [apply Hg|done|].
  intros p Hf _. apply wp_when; intros Hb; [|done].
  apply andb_prop in Hb as [Hp _]. apply negb_true_iff, Z.eqb_neq in Hp.
  destruct (nick_found_user _ _ _ Hf Hp) as (u & Hu & _). apply law_check_memos; [apply Hg|eauto].
Qed.

Lemma m_nick_steps n source av :
  graph_ok (graph_of n) -> no_nul source = true -> (forall a, a ∈ av -> no_nul a = true) ->
  (source = EmptyString -> length av = 8%nat -> nick_intro_ok (graph_of n) av) ->
  steps n (m_nick source av).
Proof.
  intros Hg Hsrc Hav Hin. unfold steps, m_nick.
  destruct (if String.eqb source EmptyString then _ else _) eqn:Eac; [|by apply wp_ret].
  assert (Hlen : (2 <= length av)%nat).
  { destruct (String.eqb source EmptyString); apply Nat.eqb_eq in Eac; lia. }
  apply wp_bind. eapply (wp_mono _ (fun _ n' => rtc gstep (graph_of n) (graph_of n'))).
  - destruct (String.eqb_spec source EmptyString) as [->|Hne].
    + apply do_nick_intro_steps; [done|]. apply Hin; [done|by apply Nat.eqb_eq].
    + destruct av as [|nk rest]; [simpl in Hlen; lia|].
      assert (Heq : do_nick source (nk :: rest) = do_nick source [nk]).
      { unfold do_nick. by rewrite (proj2 (String.eqb_neq _ _)) by done. }
      rewrite Heq. apply do_nick_change_steps; try done. apply Hav. constructor.
  - intros ok n1 Hs. cbv beta in Hs. destruct ok; [|by apply wp_ret].
    apply wp_bind, wp_argn; [lia|]. intros a0 Ha0. apply wp_bind.
    assert (Hum : forall modes, wp (do_umode a0 a0 modes)
      (fun _ n' => rtc gstep (graph_of n) (graph_of n')) n1).
    { intros modes. eapply wp_mono; [apply do_umode_steps|].
      - by apply (graph_ok_gsteps _ _ Hs Hg).
      - apply Hav. by eapply list_elem_of_lookup_2.
      - by intros [] n2 ->. }
    destruct (Nat.ltb_spec 2 (length av)) as [H2|H2]; [|by apply wp_ret].
    apply wp_argn; [|by intros].
    destruct (String.eqb source EmptyString); apply Nat.eqb_eq in Eac; lia.
Qed.

Lemma m_mode_steps n source av :
  graph_ok (graph_of n) -> no_nul source = true -> (forall a, a ∈ av -> no_nul a = true) ->
  av <> [] -> (forall chan modes args, av = chan :: modes :: args ->
    mode_args_ok (graph_of n) chan modes args) ->
  steps n (m_mode source av).
Proof.
  intros Hg Hsrc Hav Hne Hmem. unfold m_mode. destruct av as [|a rest]; [done|].
  destruct (_ || _).
  - destruct rest as [|modes args]; [by apply wp_ret|].
    eapply wp_mono; [apply do_cmode_steps; [apply Hav; constructor| |simpl; lia|done|by apply Hmem]|].
    + intros b Hb. apply Hav. by do 2 constructor.
    + by intros [] n' [? _].
  - destruct rest as [|modes [|? ?]]; try by apply wp_ret.
    apply steps_frame, do_umode_steps; [apply Hg|done].
Qed.

(** The handler of every message takes abstract steps on a valid line. *)
Lemma handler_steps n addr l nm f :
  graph_ok (graph_of n) -> line_ok (graph_of n) l ->
  (nm, Some f) ∈ messages introduce_user other addr -> line_is l nm ->
  steps n (f (l_source l) (l_args l)).
Proof.
  intros Hg [Hnul Hjoin Hkick Hmode Hnick Hsjoin] Hin Hnm.
  assert (Hsrc : no_nul (l_source l) = true) by (apply Hnul; constructor).
  assert (Hav : forall a, a ∈ l_args l -> no_nul a = true) by (intros; apply Hnul; by constructor).
  unfold messages in Hin.
  repeat (apply elem_of_cons in Hin as [[= -> ->]|Hin]); try (by apply elem_of_nil in Hin);
    try (by apply other_law).
  - apply steps_frame. unfold m_nickcoll. destruct (l_args l); [by apply wp_ret|].
    apply introduce_law, Hg.
  - by apply m_away_steps.
  - unfold m_join. specialize (Hjoin Hnm). destruct (l_args l) as [|a [|? ?]]; try by apply wp_ret.
    apply do_join_steps; [done|done|]. intros s Hs. eapply Hjoin; [constructor|done].
  - unfold m_kick. specialize (Hkick Hnm).
    destruct (l_args l) as [|a [|b [|c [|? ?]]]]; try by apply wp_ret.
    apply do_kick_steps; [done|]. intros s Hs. eapply Hkick; [|done]. constructor. constructor.
  - unfold m_kill. destruct (l_args l) as [|a [|b [|? ?]]]; try by apply wp_ret.
    destruct (is_service_nick a); [apply steps_frame, introduce_law, Hg|].
    apply do_kill_steps; [done|]. apply Hav. constructor.
  - destruct (Hmode Hnm). by apply m_mode_steps.
  - apply m_nick_steps; auto.
  - unfold m_part. destruct (l_args l) as [|a [|b [|? ?]]]; try (by apply wp_ret);
      by apply do_part_steps.
  - apply steps_frame. unfold m_ping. destruct (l_args l) as [|a [|b ?]]; [by apply wp_ret|by apply wp_modify..].
  - unfold m_quit. destruct (l_args l) as [|a [|? ?]]; try by apply wp_ret.
    by apply do_quit_steps.
  - apply steps_frame. unfold m_topic. destruct (l_args l) as [|a [|b [|? ?]]]; try by apply wp_ret.
    apply do_topic_frame; [apply Hg|apply Hav; constructor|simpl; lia].
  - by apply wp_ret.
  - unfold m_sjoin. destruct (_ || _); [by apply wp_ret|]. apply do_sjoin_steps; auto.
Qed.

Lemma dispatch_steps n addr l :
  graph_ok (graph_of n) -> line_ok (graph_of n) l ->
  steps n (dispatch introduce_user other addr l).
Proof.
  intros Hg Hl. unfold dispatch. destruct (find_message _ _ _ _) as [[nm [f|]]|] eqn:Ef;
    [|by apply wp_ret..].
  unfold find_message in Ef. apply find_first_Some in Ef as [Hin Hnm]. simpl in Hnm.
  eapply handler_steps; [done|done|done|by apply Z.eqb_eq].
Qed.


(** The life of the process: lines from the uplink, and time passing. *)
Inductive net_step n : Net E -> Prop :=
  | ns_line addr l n' : line_ok (graph_of n) l ->
      dispatch introduce_user other addr l n = Some (tt, n') -> net_step n n'
  | ns_clock t : net_step n (n{{now := t}}).

End Dispatch.

(** ** Quitting *)
Section Quit.
Context `{Conf} {E : Type} `{!ChanServ E} `{!NickServ E} `{!OperServ E}.
Context `{!ChanServLaws E} `{!NickServLaws E} `{!OperServLaws E}.
Implicit Types (n : Net E).

Lemma g_leave_all_users p l g : g_users (g_leave_all p l g) = g_users g.
Proof.
  revert g. induction l as [|c l IH]; intros g; [done|]. simpl. unfold g_leave_all in *. simpl.
  by rewrite IH, g_users_deluser.
Qed.

(** C35: QUIT of an online nick frees that user: the nick's entry is gone, no
    channel lists the user as member, operator or voiced any more, and every
    other user stays online with the same channels. *)
Theorem do_quit_correct n nk msg p
    (Hg : graph_ok (graph_of n)) (Hnk : no_nul nk = true)
    (Hp : p = g_finduser (graph_of n) nk) (Hne : p <> NULL) :
  wp (m_quit nk [msg]) (fun _ n' => graph_ok (graph_of n') /\
    users_heap n' !! p = None /\
    (forall c ch, chans_heap n' !! c = Some ch ->
       p ∉ users ch /\ p ∉ chanops ch /\ p ∉ voices ch) /\
    forall q, q <> p -> user_view <$> users_heap n' !! q = user_view <$> users_heap n !! q) n.
Proof.
  unfold m_quit, do_quit. apply wp_bind. eapply wp_intro; [apply finduser_det, Hg|].
  rewrite <- Hp. rewrite (proj2 (Z.eqb_neq _ _) Hne).
  assert (Hf : nick_found (graph_of n) nk p) by (rewrite Hp; by apply g_finduser_found; [apply Hg|]).
  destruct (nick_found_user _ _ _ Hf Hne) as (u & Hu & _).
  eapply wp_mono; [by apply user_gone_steps|]. intros [] n' Hn'. cbv beta in Hn'.
  assert (Hv : g_users (graph_of n) !! p = Some (user_view u)) by (apply graph_user; eauto).
  assert (Hok : graph_ok (graph_of n')).
  { rewrite Hn'. eapply graph_ok_gstep; [|exact Hg]. by apply (gs_quit _ p (user_view u)). }
  assert (Hus : forall q, user_view <$> users_heap n' !! q = delete p (g_users (graph_of n)) !! q).
  { intros q. rewrite <- lookup_fmap. change (user_view <$> users_heap n') with (g_users (graph_of n')).
    rewrite Hn'. unfold g_free_user. by rewrite g_leave_all_users, Hv. }
  assert (Hpn : users_heap n' !! p = None).
  { specialize (Hus p). rewrite lookup_delete_eq in Hus. by destruct (users_heap n' !! p). }
  refine (conj Hok (conj Hpn (conj _ _))).
  - intros c ch Hc. assert (Hw : g_chans (graph_of n') !! c = Some (chan_view ch)) by (apply graph_chan; eauto).
    assert (Hnot : ~ (p ∈ users ch \/ p ∈ chanops ch \/ p ∈ voices ch)).
    { intros Hin. apply (ho_users _ (proj1 Hok) c (chan_view ch)) in Hin; [|done].
      apply is_Some_graph_user in Hin as [? Hx]. congruence. }
    tauto.
  - intros q Hq. rewrite Hus, lookup_delete_ne by done. by rewrite <- lookup_fmap.
Qed.
End Quit.

(** ** The line parser *)

(** A middle parameter: not empty, without spaces, not starting with [:] nor
    with a blank. *)
Fixpoint no_space (s : string) : bool :=
  match s with EmptyString => true | String a s' => negb (Ascii.eqb a " ") && no_space s' end.
Definition word_ok (w : string) : bool :=
  no_space w && no_nul w &&
  match w with EmptyString => false | String a _ => negb (Ascii.eqb a ":") && negb (isspace a) end.

(** How a server writes parameters, the last one after a [:]. *)
Fixpoint render_args (ws : list string) (trailing : string) : string :=
  match ws with
  | [] => String ":" trailing
  | w :: ws' => w +:+ String " " (render_args ws' trailing)
  end.

Definition render_line (src cmd : string) (ws : list string) (trailing : string) : string :=
  String ":" (src +:+ String " " (cmd +:+ String " " (render_args ws trailing))).

Section Parser.
Lemma string_app_cons a s t : String a s +:+ t = String a (s +:+ t).
Proof. done. Qed.

Lemma has_char_sp a : has_char " " a = Ascii.eqb a " " || Ascii.eqb a NUL.
Proof.
  by_all_ascii (fun a => eqb (has_char " " a) (Ascii.eqb a " " || Ascii.eqb a NUL)).
  apply eqb_prop, H.
Qed.

Lemma strcspn_word w rest : no_space w = true -> no_nul w = true ->
  strcspn (w +:+ String " " rest) " " = String.length w.
Proof.
  induction w as [|a w IH]; intros Hs Hn; [done|]. simpl in Hs, Hn.
  apply andb_prop in Hs as [Ha Hs]. apply andb_prop in Hn as [Hb Hn].
  apply negb_true_iff in Ha, Hb. rewrite string_app_cons. cbn [strcspn].
  rewrite has_char_sp, Ha, Hb. simpl. f_equal. by apply IH.
Qed.

(** A word is cut off at the space behind it. *)
Lemma take_word_app w rest : no_space w = true -> no_nul w = true ->
  take_word (w +:+ String " " rest) = (w, skip_space rest).
Proof.
  intros Hs Hn. unfold take_word. rewrite strcspn_word by done.
  by rewrite str_take_app, str_drop_app.
Qed.

Lemma skip_space_render ws t : forallb word_ok ws = true -> skip_space (render_args ws t) = render_args ws t.
Proof.
  destruct ws as [|w ws]; [done|]. intros Hw. apply andb_prop in Hw as [Hw _]. simpl.
  destruct w as [|a w]; [done|]. rewrite string_app_cons. unfold word_ok in Hw.
  apply andb_prop in Hw as [_ Ha]. apply andb_prop in Ha as [_ Ha]. apply negb_true_iff in Ha.
  simpl. by rewrite Ha.
Qed.

Lemma split_loop_render fuel ws t :
  forallb word_ok ws = true -> (String.length (render_args ws t) <= fuel)%nat ->
  split_loop fuel (render_args ws t) = ws ++ [t].
Proof.
  revert fuel. induction ws as [|w ws IH]; intros fuel Hw Hf.
  - destruct fuel; simpl in *; [lia|done].
  - simpl in Hw. apply andb_prop in Hw as [Hw Hws]. unfold word_ok in Hw.
    apply andb_prop in Hw as [Hw Ha]. apply andb_prop in Hw as [Hs Hn].
    simpl render_args in *. rewrite length_append in Hf. simpl in Hf.
    destruct w as [|a w]; [done|]. apply andb_prop in Ha as [Hc _]. apply negb_true_iff in Hc.
    destruct fuel as [|fuel]; [simpl in Hf; lia|].
    assert (Hstep : split_loop (S fuel) (String a w +:+ String " " (render_args ws t)) =
      String a w :: split_loop fuel (render_args ws t)).
    { rewrite string_app_cons. pose proof (take_word_app (String a w) (render_args ws t) Hs Hn) as Ht.
      rewrite string_app_cons, skip_space_render in Ht by done.
      cbn [split_loop]. rewrite Ht. destruct a as [[] [] [] [] [] [] [] []]; done. }
    rewrite Hstep, IH; [done|done|]. simpl in Hf. lia.
Qed.

Lemma has_char_space_app w rest : has_char (w +:+ String " " rest) " " = true.
Proof.
  unfold has_char. induction w as [|a w IH]; [done|]. rewrite string_app_cons. simpl.
  by destruct (Ascii.eqb a " ").
Qed.

Lemma word_ok_inv w : word_ok w = true ->
  exists a w', w = String a w' /\ Ascii.eqb a ":" = false /\ isspace a = false /\
    no_space w = true /\ no_nul w = true.
Proof.
  unfold word_ok. rewrite !andb_true_iff. intros [[Hs Hn] Ha]. destruct w as [|a w]; [done|].
  rewrite andb_true_iff, !negb_true_iff in Ha. destruct Ha. eauto 10.
Qed.

Lemma parse_command_word src cmd rest :
  word_ok cmd = true -> parse_command src (cmd +:+ String " " rest) =
    Some (mkLine src (trunc 64 cmd) (split_buf (skip_space rest))).
Proof.
  intros Hc. apply word_ok_inv in Hc as (b & cmd' & -> & _ & _ & Hs & Hn).
  pose proof (take_word_app (String b cmd') rest Hs Hn) as Ht. rewrite string_app_cons in *.
  unfold parse_command. by rewrite Ht.
Qed.

Lemma skip_space_word w rest : word_ok w = true -> skip_space (w +:+ rest) = w +:+ rest.
Proof.
  intros Hc. apply word_ok_inv in Hc as (b & w' & -> & _ & Hb & _). rewrite string_app_cons.
  simpl. by rewrite Hb.
Qed.

Lemma parse_line_colon buf :
  (String.length buf < 511)%nat -> has_char (String ":" buf) " " = true ->
  parse_line (String ":" buf) = let '(src, rest) := take_word buf in parse_command (trunc 64 src) rest.
Proof.
  intros Hl Hsp. unfold parse_line.
  assert (Ht : trunc 512 (String ":" buf) = String ":" buf) by (apply str_take_all; simpl; lia).
  change (if Ascii.eqb (hd_char (String ":" buf)) (chr 255) then str_drop 1 (String ":" buf)
          else String ":" buf) with (String ":" buf).
  by rewrite Ht, Hsp.
Qed.

(** Round trip: a line [:source COMMAND p1 ... pk :trailing] of at most 511
    characters, source and command of at most 63, is parsed into exactly its
    source, command and parameters, the trailing one kept whole. *)
Theorem parse_line_roundtrip src cmd ws t
    (Hsrc : word_ok src = true) (Hcmd : word_ok cmd = true) (Hws : forallb word_ok ws = true)
    (Hls : (String.length src < 64)%nat) (Hlc : (String.length cmd < 64)%nat)
    (Hl : (String.length (render_line src cmd ws t) < 512)%nat) :
  parse_line (render_line src cmd ws t) = Some (mkLine src cmd (ws ++ [t])).
Proof.
  unfold render_line in *. simpl in Hl. rewrite parse_line_colon; [|lia|].
  2: { unfold has_char. apply (has_char_space_app (String ":" src)). }
  apply word_ok_inv in Hsrc as (a & src' & Es & _ & _ & Hs & Hn).
  rewrite take_word_app by done. rewrite skip_space_word by done.
  rewrite parse_command_word by done. rewrite skip_space_render by done.
  unfold trunc. rewrite !str_take_all by lia. unfold split_buf. by rewrite split_loop_render.
Qed.
End Parser.

(** ** The ignore list *)
Section Ignore.
Implicit Types (t : ignore_table).

Lemma ign_update_find l w now delta l' :
  ign_update l w now delta = Some l' ->
  exists i, find_first (fun i => stricmp (who i) w =? 0) l' = Some i /\ now + delta <= itime i.
Proof.
  revert l'. induction l as [|i l IH]; intros l' Hu; simpl in Hu; [done|].
  destruct (stricmp (who i) w =? 0) eqn:Ei.
  - simplify_eq. simpl. rewrite Ei. eexists. split; [done|]. simpl.
    destruct (Z.ltb_spec now (itime i)); lia.
  - apply fmap_Some in Hu as (l1 & Hl1 & ->). simpl. rewrite Ei. by apply IH.
Qed.

(** After [add_ignore] a nick (of at most 31 characters) is ignored for at
    least [delta] seconds, under any case of its letters; once the record has
    expired the lookup finds nothing and drops it, other nicks' buckets
    staying as they are. *)
Theorem ignore_correct t now nick delta t' later
    (Hlen : (String.length nick < NICKMAX)%nat) (Ht : t' = add_ignore t now nick delta) :
  exists i, find_first (fun i => stricmp (who i) nick =? 0) (ign_list t' (ign_hash nick)) = Some i /\
    now + delta <= itime i /\
    get_ignore t' later nick =
      (if itime i <=? later
       then (None, <[ign_hash nick := remove_first (fun i => irc_stricmp (who i) nick =? 0)
                       (ign_list t' (ign_hash nick))]> t')
       else (Some i, t')) /\
    forall h, h <> ign_hash nick -> ign_list t' h = ign_list t h.
Proof.
  subst t'. unfold add_ignore. unfold NICKMAX in *.
  assert (Htr : trunc 32 nick = nick) by (apply str_take_all; lia). rewrite Htr.
  set (l := match ign_update _ _ _ _ with Some l' => l' | None => _ end).
  assert (Hl : exists i, find_first (fun i => stricmp (who i) nick =? 0) l = Some i /\
    now + delta <= itime i).
  { unfold l. destruct (ign_update _ _ _ _) eqn:Eu; [by eapply ign_update_find|].
    simpl. rewrite stricmp_irc, irc_stricmp_refl. simpl. eexists. split; [done|]. simpl. lia. }
  destruct Hl as (i & Hf & Hi). exists i.
  assert (Hll : ign_list (<[ign_hash nick := l]> t) (ign_hash nick) = l)
    by (unfold ign_list; by rewrite lookup_insert_eq).
  split; [by rewrite Hll|]. split; [done|]. split.
  - unfold get_ignore. rewrite Hll.
    assert (He : find_first (fun i => irc_stricmp (who i) nick =? 0) l = Some i).
    { rewrite <- Hf. apply find_first_ext. done. }
    by rewrite He.
  - intros h Hh. unfold ign_list. by rewrite lookup_insert_ne.
Qed.
End Ignore.

(** ** Witnesses and counter-scenarios on the small network *)
Module Witness.
Import Demo.

Definition introduce (nk : string) : M (Net unit) unit := mret tt.
Definition others (cmd source : string) (av : list string) : M (Net unit) unit := mret tt.

Lemma introduce_ok nk n :
  heap_ok (graph_of n) -> wp (introduce nk) (fun _ n' => graph_of n' = graph_of n) n.
Proof. intros _. by apply wp_ret. Qed.

Lemma others_ok cmd source av n :
  graph_ok (graph_of n) -> wp (others cmd source av) (fun _ n' => rtc gstep (graph_of n) (graph_of n')) n.
Proof. intros _. by apply wp_ret. Qed.

Definition bob_joins : Line := mkLine "bob" "JOIN" ["#a"].

Lemma bob_joins_ok : line_ok (graph_of net) bob_joins.
Proof.
  split; try (intros Hc; vm_compute in Hc; discriminate Hc).
  - intros a Ha. repeat (apply elem_of_cons in Ha as [->|Ha]; [reflexivity|]).
    by apply elem_of_nil in Ha.
  - intros _ a s Ha Hs. apply list_elem_of_singleton in Ha as ->. vm_compute in Hs.
    apply list_elem_of_singleton in Hs as ->. split; [reflexivity|]. apply Nat.ltb_lt. reflexivity.
Qed.



Lemma do_quit_correct_witness :
  wp (m_quit "Alice" ["bye"]) (fun _ n' => graph_ok (graph_of n') /\ users_heap n' !! 1 = None /\
    (forall c ch, chans_heap n' !! c = Some ch ->
       (1 ∉ users ch) /\ (1 ∉ chanops ch) /\ (1 ∉ voices ch)) /\
    forall q, q <> 1 -> user_view <$> users_heap n' !! q = user_view <$> users_heap net !! q) net.
Proof. apply do_quit_correct; [apply net_ok|reflexivity|reflexivity|discriminate]. Defined.

Lemma parse_line_roundtrip_witness :
  parse_line (render_line "irc.oftc.net" "MODE" ["#a"; "+k"] "the key") =
  Some (mkLine "irc.oftc.net" "MODE" ["#a"; "+k"; "the key"]).
Proof.
  apply (parse_line_roundtrip "irc.oftc.net" "MODE" ["#a"; "+k"] "the key");
    first [reflexivity|apply Nat.ltb_lt; reflexivity].
Defined.

Lemma ignore_correct_witness :
  exists i, get_ignore (add_ignore ∅ 100 "Bob" 20) 119 "Bob" = (Some i, add_ignore ∅ 100 "Bob" 20) /\
    120 <= itime i.
Proof.
  destruct (ignore_correct ∅ 100 "Bob" 20 (add_ignore ∅ 100 "Bob" 20) 119) as (i & _ & Hi & Hg & _);
    [apply Nat.ltb_lt; reflexivity|reflexivity|].
  exists i. split; [|exact Hi]. rewrite Hg. destruct (Z.leb_spec (itime i) 119); [lia|reflexivity].
Defined.

(** The lines the tests below receive. *)
Definition receive : string -> M (Net unit) unit := process introduce others 0.


(** A name of 200 characters: [chan_adduser] stores it cut to 199. *)
Definition long_name : string := String "#" (Nat.iter 199 (String "x") EmptyString).

(** A channel name of [CHANMAX] or more characters is stored truncated, so
    [do_join] does not find the channel it has just created and links a null
    pointer to the user; the user's next PART follows it. *)
Theorem long_channel_null :
  is_Some (receive (":bob JOIN :" +:+ long_name)%string net) /\
  (receive (":bob JOIN :" +:+ long_name)%string;; receive ":bob PART :#a") net = None.
Proof. split; [eexists|]; vm_compute; reflexivity. Qed.

(** The operator count drifts: [+o] counts even a user who is an operator
    already, so [MODE bob +oo] leaves one operator online and a count of two. *)
Theorem opcnt_drifts :
  (fun r => (opcnt (snd r), (fun u => has (mode u) UMODE_o) <$> users_heap (snd r) !! 3)) <$>
    receive ":bob MODE bob :+oo" net = Some (2, Some true) /\
  opcnt net = 0.
Proof. split; vm_compute; reflexivity. Qed.

(** Three status marks in an SJOIN overrun [modebuf]. *)
Lemma sjoin_marks_overrun : receive ":irc.oftc.net SJOIN 1 #a + :@+@bob" net = None.
Proof. vm_compute. reflexivity. Qed.
End Witness.
