(* ===== verification/Table.v ===== *)
(** MySQL tables whose rows carry a number: what the statements of the program
    do to them, [ORDER BY], and the renumbering that [src/cs_access.c],
    [src/nickserv.c] and [src/memoserv.c] each do with a temporary table. *)

From Stdlib Require Import Sorting.Sorted.
From S2P Require Import Prelude.

(** ** Tables

    The rows of a table in the order they were inserted, and the next
    [AUTO_INCREMENT] value, which is never used again. *)
Record Table (A : Type) := mkTable { rows : list A; auto_increment : Z }.
Arguments mkTable {A} _ _.
Arguments rows {A} _.
Arguments auto_increment {A} _.

Section Statements.
Context {A : Type}.
Implicit Types (t : Table A) (p : A -> bool).

Definition insert_into (row : Z -> A) t : Table A :=
  mkTable (rows t ++ [row (auto_increment t)]) (auto_increment t + 1).
Definition delete_where p t : Table A := mkTable (List.filter (fun r => negb (p r)) (rows t)) (auto_increment t).
Definition update_where p (f : A -> A) t : Table A :=
  mkTable (map (fun r => if p r then f r else r) (rows t)) (auto_increment t).
Definition select_where p t : list A := List.filter p (rows t).

Lemma elem_select p t r : r ∈ select_where p t <-> r ∈ rows t /\ p r = true.
Proof. unfold select_where. by rewrite list_elem_of_In, filter_In, <- list_elem_of_In. Qed.

Lemma elem_delete p t r : r ∈ rows (delete_where p t) <-> r ∈ rows t /\ p r = false.
Proof. simpl. by rewrite list_elem_of_In, filter_In, <- list_elem_of_In, negb_true_iff. Qed.

Lemma select_delete p q t : select_where q (delete_where p t) = List.filter (fun r => negb (p r)) (select_where q t).
Proof.
  unfold select_where. simpl. induction (rows t) as [|r l IH]; [done|]. simpl.
  destruct (p r) eqn:Ep, (q r) eqn:Eq; simpl; rewrite ?Ep, ?Eq; simpl; by rewrite IH.
Qed.
End Statements.

(** ** [SELECT .. ORDER BY key], rows that compare equal staying as they are *)
Section OrderBy.
Context {A : Type} (key : A -> Z).

Fixpoint insert_row (x : A) (l : list A) : list A :=
  match l with
  | [] => [x]
  | y :: l' => if key y <? key x then y :: insert_row x l' else x :: y :: l'
  end.

Definition order_by (l : list A) : list A := fold_right insert_row [] l.

Definition ordered : list A -> Prop := StronglySorted (fun x y => key x <= key y).

Lemma insert_row_perm x l : insert_row x l ≡ₚ x :: l.
Proof. induction l as [|y l IH]; simpl; [done|]. destruct (key y <? key x); [rewrite IH; constructor|done]. Qed.

Lemma order_by_perm l : order_by l ≡ₚ l.
Proof. induction l as [|x l IH]; simpl; [done|]. by rewrite insert_row_perm, IH. Qed.

Lemma insert_row_ordered x l : ordered l -> ordered (insert_row x l).
Proof.
  induction 1 as [|y l Hl IH Hy]; simpl; [repeat constructor|].
  destruct (Z.ltb_spec (key y) (key x)).
  - constructor; [done|]. rewrite insert_row_perm. constructor; [lia|done].
  - constructor; [by constructor|]. constructor; [done|]. eapply Forall_impl; [exact Hy|]. intros z Hz. cbv beta in *. lia.
Qed.

Lemma order_by_ordered l : ordered (order_by l).
Proof. induction l as [|x l IH]; simpl; [constructor|by apply insert_row_ordered]. Qed.

Lemma order_by_sorted l : ordered l -> order_by l = l.
Proof.
  induction 1 as [|x l Hl IH Hx]; [done|]. simpl. rewrite IH. destruct l as [|y l]; [done|]. simpl.
  apply Forall_inv in Hx. destruct (Z.ltb_spec (key y) (key x)); [lia|done].
Qed.
Lemma order_by_snoc l x : (forall y, y ∈ l -> key y <= key x) -> order_by (l ++ [x]) = order_by l ++ [x].
Proof.
  intros Hl. induction l as [|y l IH]; [done|]. simpl. rewrite IH by (intros z Hz; apply Hl; by constructor).
  assert (Hy : key y <= key x) by (apply Hl; constructor). generalize (order_by l) as l'.
  induction l' as [|z l' IHl]; simpl; [|by rewrite IHl; destruct (key z <? key y)].
  destruct (Z.ltb_spec (key x) (key y)); [lia|done].
Qed.

Lemma insert_row_first x l : (forall y, y ∈ l -> key x <= key y) -> insert_row x l = x :: l.
Proof.
  destruct l as [|y l]; [done|]. intros Hl. simpl. destruct (Z.ltb_spec (key y) (key x)); [|done].
  specialize (Hl y ltac:(constructor)). lia.
Qed.

Lemma insert_row_filter p x l : ordered l ->
  List.filter p (insert_row x l) = if p x then insert_row x (List.filter p l) else List.filter p l.
Proof.
  induction 1 as [|y l Hl IH Hy]; simpl; [by destruct (p x)|]. destruct (Z.ltb_spec (key y) (key x)); simpl.
  - destruct (p y), (p x); simpl; rewrite IH; simpl; try done. destruct (Z.ltb_spec (key y) (key x)); [done|lia].
  - destruct (p x); [|done]. symmetry. apply insert_row_first. rewrite Forall_forall in Hy. intros z Hz.
    assert (Hz' : z ∈ y :: l).
    { destruct (p y); [|constructor]; apply list_elem_of_In in Hz.
      - destruct Hz as [<-|Hz]; [constructor|]. apply filter_In in Hz as [Hz _]. constructor. by apply list_elem_of_In.
      - apply filter_In in Hz as [Hz _]. by apply list_elem_of_In. }
    apply elem_of_cons in Hz' as [->|Hz']; [lia|]. specialize (Hy z Hz'). lia.
Qed.

Lemma order_by_filter p l : order_by (List.filter p l) = List.filter p (order_by l).
Proof.
  induction l as [|x l IH]; [done|]. simpl. rewrite insert_row_filter by apply order_by_ordered. destruct (p x); simpl; by rewrite IH.
Qed.

Lemma order_by_map f l : (forall x, key (f x) = key x) -> order_by (map f l) = map f (order_by l).
Proof.
  intros Hf. induction l as [|x l IH]; [done|]. simpl. rewrite IH. clear IH. induction (order_by l) as [|y l' IH]; [done|].
  simpl. rewrite !Hf. destruct (key y <? key x); simpl; [by rewrite IH|done].
Qed.

(** With distinct keys there is one order. *)
Lemma ordered_unique l l' : ordered l -> ordered l' -> NoDup (map key l) -> l ≡ₚ l' -> l = l'.
Proof.
  intros Ho. revert l'. induction Ho as [|x l Hl IH Hx]; intros l' Ho' Hn Hp.
  { by apply Permutation_nil in Hp. }
  destruct Ho' as [|y l' Hl' Hy]; [by symmetry in Hp; apply Permutation_nil_cons in Hp|].
  rewrite Forall_forall in Hx, Hy. cbn [map] in Hn. apply NoDup_cons in Hn as [Hnx Hn].
  assert (x = y) as <-.
  { assert (Hyx : y ∈ x :: l) by (rewrite Hp; constructor). assert (Hxy : x ∈ y :: l') by (rewrite <- Hp; constructor).
    apply elem_of_cons in Hyx as [->|Hyx]; [done|]. apply elem_of_cons in Hxy as [->|Hxy]; [done|].
    specialize (Hx y Hyx). specialize (Hy x Hxy). destruct Hnx. replace (key x) with (key y) by lia.
    by apply list_elem_of_In, in_map, list_elem_of_In. }
  f_equal. apply IH; [done|done|]. by apply Permutation_cons_inv in Hp.
Qed.
End OrderBy.

(** A row with its id and its number. *)
Class Numbered (A : Type) := {
  row_id : A -> Z;
  row_idx : A -> Z;
  set_idx : Z -> A -> A;
  id_set : forall k r, row_id (set_idx k r) = row_id r;
  idx_set : forall k r, row_idx (set_idx k r) = k
}.

(** ** Numbering

    [TRUNCATE tmp; INSERT INTO tmp SELECT .., NULL WHERE mine ORDER BY key; REPLACE
    INTO t SELECT .. FROM tmp]: the temporary table counts from 1, and a row with
    the id of an old one takes its place. *)
Section Numbering.
Context {A : Type} `{!Numbered A} (mine : A -> bool) (key : A -> Z).
Implicit Types (l : list A) (r x : A).

Fixpoint number_from (k : Z) l : list A :=
  match l with
  | [] => []
  | r :: l' => set_idx k r :: number_from (k + 1) l'
  end.

Definition same_id r r' : bool := row_id r' =? row_id r.

Definition replace_rows (new l : list A) : list A :=
  map (fun r => default r (find_first (same_id r) new)) l ++
  List.filter (fun r => negb (existsb (same_id r) l)) new.

Definition renumber_where l : list A := replace_rows (number_from 1 (order_by key (List.filter mine l))) l.

Context (mine_set : forall k r, mine (set_idx k r) = mine r) (key_set : forall k r, key (set_idx k r) = key r).

Lemma number_from_idx k l : map row_idx (number_from k l) = seqZ k (Z.of_nat (length l)).
Proof.
  revert k. induction l as [|r l IH]; intros k; [done|]. cbn [number_from map length].
  rewrite seqZ_cons by lia. rewrite IH, idx_set. do 2 f_equal; lia.
Qed.

Lemma number_from_map {B} (f : A -> B) k l : (forall k r, f (set_idx k r) = f r) ->
  map f (number_from k l) = map f l.
Proof. intros Hf. revert k. induction l as [|r l IH]; intros k; [done|]. cbn [number_from map]. by rewrite IH, Hf. Qed.

Lemma number_from_length k l : length (number_from k l) = length l.
Proof. revert k. induction l as [|r l IH]; intros k; [done|]. simpl. by rewrite IH. Qed.

Lemma number_from_in k l x : x ∈ number_from k l -> exists r, r ∈ l /\ x = set_idx (row_idx x) r /\ k <= row_idx x.
Proof.
  revert k. induction l as [|r l IH]; intros k; [by intros ?%elem_of_nil|]. cbn [number_from].
  intros [->|Hr]%elem_of_cons; [exists r; rewrite idx_set; split; [constructor|]; split; [done|lia]|].
  destruct (IH _ Hr) as (r1 & Hr1 & ? & ?). exists r1. split; [by constructor|]. split; [done|lia].
Qed.

Lemma number_from_ordered k l : ordered key l ->
  forall r r', r ∈ number_from k l -> r' ∈ number_from k l -> key r < key r' -> row_idx r < row_idx r'.
Proof.
  intros Hs. revert k. induction Hs as [|x l Hl IH Hx]; intros k r r'; [by intros ?%elem_of_nil|].
  cbn [number_from]. rewrite Forall_forall in Hx. intros [->|Hr]%elem_of_cons [->|Hr']%elem_of_cons Hlt.
  - lia.
  - destruct (number_from_in _ _ _ Hr') as (_ & _ & _ & ?). rewrite idx_set. lia.
  - destruct (number_from_in _ _ _ Hr) as (r0 & Hr0 & E & _). specialize (Hx r0 Hr0). rewrite E, !key_set in Hlt. lia.
  - by apply (IH (k + 1)).
Qed.

Section Rows.
Context l (Hids : NoDup (map row_id l)).

Let new := number_from 1 (order_by key (List.filter mine l)).

Lemma renumber_new_in x : x ∈ new -> exists r, r ∈ l /\ mine r = true /\ x = set_idx (row_idx x) r.
Proof.
  intros (r & Hr & Hx & _)%number_from_in. rewrite order_by_perm in Hr.
  apply list_elem_of_In, filter_In in Hr as [Hr Hi]. exists r. by rewrite list_elem_of_In.
Qed.

Lemma renumber_new_ids : NoDup (map row_id new).
Proof.
  unfold new. rewrite number_from_map by apply id_set. rewrite order_by_perm. by apply NoDup_map_filter.
Qed.

Lemma find_new r : r ∈ l ->
  match find_first (same_id r) new with
  | Some x => mine r = true /\ x ∈ new /\ x = set_idx (row_idx x) r
  | None => mine r = false
  end.
Proof.
  intros Hr. destruct (find_first (same_id r) new) as [x|] eqn:E.
  - apply find_first_Some in E as [Hx Hid]. unfold same_id in Hid. apply Z.eqb_eq in Hid.
    pose proof (renumber_new_in x Hx) as (r' & Hr' & Hi & Ex).
    assert (r' = r) as -> by (apply (map_inj_in row_id l); try done; rewrite Ex, id_set in Hid; done). done.
  - rewrite find_first_None in E. destruct (mine r) eqn:Hi; [|done].
    assert (Hin : r ∈ order_by key (List.filter mine l)).
    { rewrite order_by_perm. apply list_elem_of_In, filter_In. by rewrite <- list_elem_of_In. }
    assert (Hid : row_id r ∈ map row_id new).
    { unfold new. rewrite number_from_map by apply id_set. by apply list_elem_of_In, in_map, list_elem_of_In. }
    apply list_elem_of_In, in_map_iff in Hid as (x & Hx & Hin').
    apply list_elem_of_In in Hin'. specialize (E x Hin'). unfold same_id in E. by rewrite Hx, Z.eqb_refl in E.
Qed.

Lemma renumber_map : renumber_where l = map (fun r => default r (find_first (same_id r) new)) l.
Proof.
  unfold renumber_where, replace_rows. fold new. rewrite <- (app_nil_r (map _ l)) at 2. f_equal.
  assert (Hx : forall x, x ∈ new -> existsb (same_id x) l = true).
  { intros x (r & Hr & _ & Ex)%renumber_new_in. apply existsb_exists. exists r. rewrite <- list_elem_of_In.
    split; [done|]. unfold same_id. rewrite Ex, id_set. apply Z.eqb_refl. }
  revert Hx. generalize new. intros l'. induction l' as [|x l' IH]; intros Hx; [done|]. simpl.
  rewrite (Hx x) by constructor. apply IH. intros y Hy. apply Hx. by constructor.
Qed.

(** Only the numbers change. *)
Lemma renumber_same {B} (f : A -> B) : (forall k r, f (set_idx k r) = f r) -> map f (renumber_where l) = map f l.
Proof.
  intros Hf. rewrite renumber_map, map_map. apply map_ext_in. intros r Hr. rewrite <- list_elem_of_In in Hr.
  pose proof (find_new r Hr) as Hn. destruct (find_first _ _); [|done]. simpl. destruct Hn as (_ & _ & ->). apply Hf.
Qed.

(** The other rows stay. *)
Lemma renumber_other (p : A -> bool) : (forall k r, p (set_idx k r) = p r) ->
  (forall r, p r = true -> mine r = false) -> List.filter p (renumber_where l) = List.filter p l.
Proof.
  intros Hp Hm. rewrite renumber_map. set (f := fun r => default r (find_first (same_id r) new)).
  assert (Hl : forall r, r ∈ l -> p (f r) = p r /\ (p r = true -> f r = r)).
  { intros r Hr. unfold f. pose proof (find_new r Hr) as Hf. destruct (find_first _ _); simpl; [|done].
    destruct Hf as (Hi & _ & ->). rewrite Hp. split; [done|]. intros Hpr. apply Hm in Hpr. congruence. }
  clearbody f. revert Hl. clear Hids new.
  induction l as [|r l' IH]; intros Hl; [done|]. simpl.
  destruct (Hl r ltac:(constructor)) as [-> Hr].
  assert (IH' := IH (fun x Hx => Hl x ltac:(by constructor))).
  destruct (p r) eqn:E; [rewrite (Hr eq_refl)|]; by rewrite IH'.
Qed.

Lemma renumber_mine : List.filter mine (renumber_where l) ≡ₚ new.
Proof.
  assert (Hids' : NoDup (map row_id (renumber_where l))) by by rewrite (renumber_same row_id id_set).
  apply NoDup_Permutation.
  - apply (NoDup_fmap_1 row_id). by apply (NoDup_map_filter row_id).
  - apply (NoDup_fmap_1 row_id), renumber_new_ids.
  - intros x. rewrite list_elem_of_In, filter_In, renumber_map, in_map_iff. split.
    + intros [(r & Er & Hr) Hx]. rewrite <- list_elem_of_In in Hr. pose proof (find_new r Hr) as Hf.
      destruct (find_first (same_id r) new) as [y|]; simpl in Er; subst; [by destruct Hf as (_ & ? & _)|congruence].
    + intros Hx. destruct (renumber_new_in x Hx) as (r & Hr & Hi & Ex). split; [|by rewrite Ex, mine_set].
      exists r. rewrite <- list_elem_of_In. split; [|done].
      pose proof (find_new r Hr) as Hf.
      destruct (find_first (same_id r) new) as [y|] eqn:E; [|congruence]. simpl. destruct Hf as (_ & Hy & Ey).
      apply (map_inj_in row_id new); [apply renumber_new_ids|done|done|by rewrite Ey, Ex, !id_set].
Qed.

(** The rows are numbered from 1, in the order of the key. *)
Lemma renumber_idx : map row_idx (List.filter mine (renumber_where l)) ≡ₚ seqZ 1 (Z.of_nat (length (List.filter mine l))).
Proof. rewrite renumber_mine. unfold new. by rewrite number_from_idx, order_by_perm. Qed.

Lemma renumber_ordered r r' : r ∈ List.filter mine (renumber_where l) -> r' ∈ List.filter mine (renumber_where l) ->
  key r < key r' -> row_idx r < row_idx r'.
Proof. rewrite renumber_mine. apply number_from_ordered, order_by_ordered. Qed.

Lemma renumber_length : length (List.filter mine (renumber_where l)) = length (List.filter mine l).
Proof. rewrite renumber_mine. unfold new. by rewrite number_from_length, order_by_perm. Qed.
(** In place, every row of [mine] gets the number of its turn. *)
Lemma number_from_find k l' : NoDup (map row_id l') ->
  map (fun r => default r (find_first (same_id r) (number_from k l'))) l' = number_from k l'.
Proof.
  revert k. induction l' as [|r l' IH]; intros k; [done|]. cbn [map number_from]. intros [Hr Hn]%NoDup_cons.
  simpl. unfold same_id at 1. rewrite id_set, Z.eqb_refl. simpl. f_equal. etransitivity; [|apply (IH (k + 1) Hn)].
  apply map_ext_in. intros x Hx. unfold same_id at 1. rewrite id_set. destruct (Z.eqb_spec (row_id r) (row_id x)) as [Hid|]; [|done].
  destruct Hr. rewrite Hid. by apply list_elem_of_In, in_map.
Qed.

Lemma renumber_in_turn : order_by key (List.filter mine (renumber_where l)) = new.
Proof.
  set (f := fun r => default r (find_first (same_id r) new)).
  assert (Hf : forall r, r ∈ l -> mine (f r) = mine r /\ key (f r) = key r).
  { intros r Hr. unfold f. pose proof (find_new r Hr) as Hn. destruct (find_first _ _); [|done].
    destruct Hn as (_ & _ & ->). simpl. by rewrite mine_set, key_set. }
  rewrite renumber_map. fold f.
  assert (Hsel : List.filter mine (map f l) = map f (List.filter mine l)).
  { revert Hf. clear Hids. generalize f. intros g Hg. clear f. revert Hg. generalize l. intros l'.
    induction l' as [|r l' IH]; intros Hg; [done|]. simpl.
    destruct (Hg r ltac:(constructor)) as [-> _]. rewrite IH by (intros; apply Hg; by constructor). by destruct (mine r). }
  rewrite Hsel.
  assert (Hord : order_by key (map f (List.filter mine l)) = map f (order_by key (List.filter mine l))).
  { assert (Hk : forall r, r ∈ List.filter mine l -> key (f r) = key r).
    { intros r Hr. apply list_elem_of_In, filter_In in Hr as [Hr _]. apply Hf. by apply list_elem_of_In. }
    clear Hsel Hf. revert Hk. generalize (List.filter mine l). intros l'. induction l' as [|x l' IH]; intros Hk; [done|].
    simpl. rewrite IH by (intros; apply Hk; by constructor).
    assert (Hk' : forall r, r ∈ order_by key l' -> key (f r) = key r) by (intros r Hr; rewrite order_by_perm in Hr; apply Hk; by constructor).
    assert (Hx : key (f x) = key x) by (apply Hk; constructor). clear IH Hk. revert Hk'. generalize (order_by key l').
    induction l0 as [|y l0 IH]; intros Hk'; [done|]. simpl. rewrite Hx, (Hk' y) by constructor.
    destruct (key y <? key x); simpl; [|done]. f_equal. apply IH. intros r Hr. apply Hk'. by constructor. }
  rewrite Hord. unfold f, new. apply number_from_find. rewrite order_by_perm. by apply NoDup_map_filter.
Qed.
End Rows.
End Numbering.
