(* ===== verification/ChanDB.v ===== *)
(** The tables ChanServ keeps in MySQL, and the routines of [src/chanserv.c]
    that read and write them.

    MySQL itself is outside the program.  The class [ChanDB] gives the tables as
    a component [db] of the state of the other parts; a [SELECT ... WHERE id]
    looks a row up, an [UPDATE] alters it.  Values pass through
    [smysql_escape_string] into string literals, so a column holds what was
    given.  The columns [last_used], [last_modified] and [last_matched], which
    only statistics and expiry queries read, are behind [touch]. *)

From S2P Require Import Prelude CStr Wild Table Wp Graph Net Interfaces.

(** ** Rows *)

(** A row of [channel] ([struct channelinfo_]). *)
Record ChanInfo := mkChanInfo {
  ci_name : string;
  ci_founder : Z;
  ci_flags : Z;
  ci_mlock_on : Z;
  ci_mlock_off : Z;
  ci_mlock_limit : Z;
  ci_mlock_key : string;
  ci_last_topic : string;
  ci_last_topic_setter : string;
  ci_last_topic_time : Z;
  ci_entry_message : string;
  ci_founder_memo_read : Z;
  ci_events : ChanRow;
  ci_successor : Z;
  ci_registered : Z
}.

(** A row of [chanaccess]; [ca_idx] is its place in the channel's list. *)
Record ChanAccess := mkChanAccess {
  ca_id : Z; ca_channel : Z; ca_nick : Z; ca_level : Z; ca_memo_read : Z; ca_idx : Z;
  ca_added : Z; ca_added_by : string; ca_last_modified : Z; ca_modified_by : string
}.

(** A row of [akick]: a mask, or the id of a nick and no mask. *)
Record Akick := mkAkick {
  ak_id : Z; ak_channel : Z; ak_mask : string; ak_nick : Z; ak_reason : option string;
  ak_idx : Z; ak_who : string; ak_added : Z
}.

(** Rows of [nickaccess], [nicksuspend], [chansuspend], [suspend], [autojoin], [memo]
    and [memoinfo]. *)
Record NickAccess := mkNickAccess { na_id : Z; na_nick : Z; na_idx : Z; na_userhost : string }.
Record NickSuspend := mkNickSuspend { nsu_id : Z; nsu_nick : Z; nsu_suspend : Z }.
Record ChanSuspend := mkChanSuspend { csu_id : Z; csu_chan : Z; csu_suspend : Z }.
Record Autojoin := mkAutojoin { aj_id : Z; aj_nick : Z; aj_idx : Z; aj_channel : Z }.
Record Suspend := mkSuspend { su_id : Z; su_who : string; su_reason : string; su_suspended : Z; su_expires : Z }.
Record Memo := mkMemo {
  m_id : Z; m_owner : string; m_idx : Z; m_flags : Z; m_time : Z; m_sender : string; m_text : string; m_rot13 : bool
}.
Record MemoInfo := mkMemoInfo { mi_id : Z; mi_owner : string; mi_max : Z }.

#[export, program] Instance numbered_nickaccess : Numbered NickAccess :=
  {row_id := na_id; row_idx := na_idx; set_idx k r := r{{na_idx := k}} }.
Solve Obligations with done.
#[export, program] Instance numbered_autojoin : Numbered Autojoin :=
  {row_id := aj_id; row_idx := aj_idx; set_idx k r := r{{aj_idx := k}} }.
Solve Obligations with done.
#[export, program] Instance numbered_akick : Numbered Akick :=
  {row_id := ak_id; row_idx := ak_idx; set_idx k r := r{{ak_idx := k}} }.
Solve Obligations with done.
#[export, program] Instance numbered_memo : Numbered Memo :=
  {row_id := m_id; row_idx := m_idx; set_idx k r := r{{m_idx := k}} }.
Solve Obligations with done.

(** A row of [nick] ([struct nickinfo_]): what decides who a user is, and who
    bore the nick last ([n_usermask] and the two after it). *)
Record NickRow := mkNickRow {
  n_nick : string; n_status : Z; n_flags : Z; n_usermask : string; n_realname : string; n_last_seen : Z;
  n_link : Z; n_language : Z; n_id_stamp : Z; n_registered : Z; n_channelmax : Z; n_email : string; n_cloak : string
}.

Record DB := mkDB {
  channel : gmap Z ChanInfo;
  channel_named : string -> option Z;         (* by name, under MySQL's collation *)
  chanlevel : gmap (Z * Z) Z;                 (* channel and ability *)
  chanaccess : list ChanAccess;
  akick : Table Akick;
  chanaccess_next : Z;                        (* AUTO_INCREMENT *)
  nicks : gmap Z NickRow;
  nick_named : string -> option Z;            (* by nick, under MySQL's collation *)
  nickaccess : Table NickAccess;
  nicksuspend : Table NickSuspend;
  chansuspend : Table ChanSuspend;
  suspend : Table Suspend;
  autojoin : Table Autojoin;
  memo : Table Memo;
  memoinfo : Table MemoInfo
}.

(** A row that is gone is not found by its name. *)
Definition unnamed (i : Z) (named : string -> option Z) (nm : string) : option Z :=
  if bool_decide (named nm = Some i) then None else named nm.

(** [IF(link_id, link_id, nick_id)] *)
Definition nick_master (d : DB) : gmap Z Z :=
  map_imap (fun i r => Some (if n_link r =? 0 then i else n_link r)) (nicks d).

Class ChanDB (E : Type) := {
  db : E -> DB;
  set_db : DB -> E -> E;
  touch : string -> Z -> Z -> E -> E;         (* table, row, time *)
  new_chan_memos : E -> Z -> Z -> Z;          (* memoserv.c *)
  schedule_leave : string -> E -> E;          (* add_timeout (.., timeout_leave, 0) *)
  db_set : forall d e, db (set_db d e) = d;
  db_touch : forall t i w e, db (touch t i w e) = db e;
  db_schedule : forall c e, db (schedule_leave c e) = db e
}.

(** ** Channel flags, abilities and their levels *)
Definition CI_KEEPTOPIC : Z := 0x1.
Definition CI_SECUREOPS : Z := 0x2.
Definition CI_PRIVATE : Z := 0x4.
Definition CI_TOPICLOCK : Z := 0x8.
Definition CI_RESTRICTED : Z := 0x10.
Definition CI_LEAVEOPS : Z := 0x20.
Definition CI_SECURE : Z := 0x40.
Definition CI_VERBOTEN : Z := 0x80.
Definition CI_VERBOSE : Z := 0x800.

(** ** Nick status and flags *)
Definition NS_VERBOTEN : Z := 0x2.
Definition NS_ON_ACCESS : Z := 0x2000.
Definition NS_KILL_HELD : Z := 0x1000.
Definition NS_GUESTED : Z := 0x100.
Definition NS_TEMPORARY : Z := 0xFF00.

Definition NI_ENFORCE : Z := 0x1.
Definition NI_SECURE : Z := 0x2.
Definition NI_MEMO_HARDMAX : Z := 0x8.
Definition NI_MEMO_SIGNON : Z := 0x10.
Definition NI_MEMO_RECEIVE : Z := 0x20.
Definition NI_HIDE_MASK : Z := 0x100.
Definition NI_ENFORCEQUICK : Z := 0x400.
Definition NI_NOOP : Z := 0x800.
Definition NI_IRCOP : Z := 0x1000.
Definition NI_SUSPENDED : Z := 0x10000000.

Definition ACCESS_FOUNDER : Z := 10000.
Definition ACCESS_INVALID : Z := -10000.

Definition CA_INVITE : Z := 0.
Definition CA_AKICK : Z := 1.
Definition CA_SET : Z := 2.
Definition CA_UNBAN : Z := 3.
Definition CA_AUTOOP : Z := 4.
Definition CA_AUTODEOP : Z := 5.
Definition CA_AUTOVOICE : Z := 6.
Definition CA_OPDEOP : Z := 7.
Definition CA_ACCESS_LIST : Z := 8.
Definition CA_CLEAR : Z := 9.
Definition CA_NOJOIN : Z := 10.
Definition CA_ACCESS_CHANGE : Z := 11.
Definition CA_MEMO_READ : Z := 12.
Definition CA_LEVEL_LIST : Z := 13.
Definition CA_LEVEL_CHANGE : Z := 14.
Definition CA_SYNC : Z := 15.
Definition CA_MEMO_SEND : Z := 16.
Definition CA_AKICK_LIST : Z := 17.

Definition def_levels : list (Z * Z) :=
  [(CA_AUTOOP, 5); (CA_AUTOVOICE, 3); (CA_AUTODEOP, -1); (CA_NOJOIN, -2); (CA_INVITE, 5);
   (CA_AKICK, 10); (CA_SET, ACCESS_INVALID); (CA_CLEAR, ACCESS_INVALID); (CA_UNBAN, 5);
   (CA_OPDEOP, 5); (CA_ACCESS_LIST, 1); (CA_ACCESS_CHANGE, 10); (CA_MEMO_READ, 1);
   (CA_LEVEL_LIST, 1); (CA_LEVEL_CHANGE, ACCESS_INVALID); (CA_SYNC, 10); (CA_MEMO_SEND, 10);
   (CA_AKICK_LIST, 10)].

Definition lookup_def_level (what : Z) : Z :=
  match find_first (fun r => fst r =? what) def_levels with
  | Some r => snd r
  | None => ACCESS_INVALID
  end.

(** ** Queries *)

(** The row of [chanaccess] for a channel whose nick has the given master. *)
Definition access_row (d : DB) (channel_id master : Z) : option ChanAccess :=
  find_first (fun r => (ca_channel r =? channel_id) &&
                       bool_decide (nick_master d !! ca_nick r = Some master)) (chanaccess d).

Section Queries.
Context {E : Type} `{!ChanDB E}.
Implicit Types (n : Net E) (d : DB).

(** [SELECT .. FROM channel WHERE channel_id=i]: a column, or a default. *)
Definition column {A} (f : ChanInfo -> A) (dflt : A) (i : Z) : M (Net E) A :=
  gets (fun n => match channel (db (ext n)) !! i with Some r => f r | None => dflt end).

(** [UPDATE channel SET .. WHERE channel_id=i] *)
Definition update_channel (i : Z) (f : ChanInfo -> ChanInfo) : M (Net E) unit :=
  modify (fun n => n{{ext ::= fun e => set_db ((db e){{channel ::= alter f i}}) e}}).

Definition mysql_findchan (chan : string) : M (Net E) Z :=
  gets (fun n => default 0 (channel_named (db (ext n)) chan)).

(** The id and the flags, both 0 when there is no such channel. *)
Definition mysql_findchanflags (chan : string) : M (Net E) (Z * Z) :=
  gets (fun n =>
    match channel_named (db (ext n)) chan with
    | Some i => match channel (db (ext n)) !! i with
                | Some r => (i, ci_flags r)
                | None => (0, 0)
                end
    | None => (0, 0)
    end).

Definition get_chan_flags : Z -> M (Net E) Z := column ci_flags 0.
Definition get_founder_id : Z -> M (Net E) Z := column ci_founder 0.
Definition get_mlock_on : Z -> M (Net E) Z := column ci_mlock_on 0.
Definition get_mlock_off : Z -> M (Net E) Z := column ci_mlock_off 0.
Definition get_mlock_limit : Z -> M (Net E) Z := column (fun r => u32 (ci_mlock_limit r)) 0.
Definition get_mlock_key : Z -> M (Net E) (option string) :=
  column (fun r => Some (ci_mlock_key r)) None.
Definition get_founder_memo_read : Z -> M (Net E) Z := column ci_founder_memo_read 0.

(** [None] leaves the caller's buffer as it was. *)
Definition get_chan_name (i : Z) : M (Net E) (option string) :=
  column (fun r => Some (ci_name r)) None i.

(** The nick the founder's nick is linked to. *)
Definition get_founder_master_id (i : Z) : M (Net E) Z :=
  gets (fun n => let d := db (ext n) in
    match channel d !! i with
    | Some r => default 0 (nick_master d !! ci_founder r)
    | None => 0
    end).

Definition update_chan_last_used (i : Z) : M (Net E) unit :=
  modify (fun n => n{{ext ::= touch "channel" i (now n)}}).

Definition update_akick_last_used (i : Z) : M (Net E) unit :=
  modify (fun n => n{{ext ::= touch "akick" i (now n)}}).

Definition get_chanaccess_level (channel_id nick_id : Z) : M (Net E) Z :=
  row ← gets (fun n => access_row (db (ext n)) channel_id nick_id);
  match row with
  | None => mret 0
  | Some r =>
      when (negb (ca_id r =? 0))
        (modify (fun n => n{{ext ::= touch "chanaccess" (ca_id r) (now n)}}));;
      mret (ca_level r)
  end.

Definition get_chanaccess_id (channel_id nick_id : Z) : M (Net E) Z :=
  gets (fun n => match access_row (db (ext n)) channel_id nick_id with
                 | Some r => ca_id r | None => 0 end).

(** The time in the row of the user's own nick; no link is followed. *)
Definition get_access_memo_read (u : ptr) (channel_id : Z) : M (Net E) Z :=
  if u =? NULL then mret 0 else
  us ← load_user u;
  if nick_id us =? 0 then mret 0 else
  gets (fun n => match find_first (fun r => (ca_nick r =? nick_id us) && (ca_channel r =? channel_id))
                         (chanaccess (db (ext n))) with
                 | Some r => ca_memo_read r | None => 0 end).

(** [get_chan_level]; [get_level] is the same computation. *)
Definition get_chan_level (channel_id what : Z) : M (Net E) Z :=
  gets (fun n => default (lookup_def_level what) (chanlevel (db (ext n)) !! (channel_id, what))).

(** ** Who may do what on a channel *)
Context `{!NickServ E}.

Definition is_identified (user : ptr) (channel_id : Z) : M (Net E) bool :=
  u ← load_user user;
  mret (existsb (fun c => c =? channel_id) (founder_chans u)).

(** Is the user known well enough for this channel? *)
Definition known (user : ptr) (channel_id : Z) : M (Net E) bool :=
  ident ← nick_identified user;
  if ident : bool then mret true
  else
    recog ← nick_recognized user;
    if recog : bool then flags ← get_chan_flags channel_id; mret (negb (has flags CI_SECURE))
    else mret false.

Definition is_founder (user : ptr) (channel_id : Z) : M (Net E) bool :=
  u ← load_user user;
  f ← get_founder_master_id channel_id;
  ok ← (if nick_id u =? f then known user channel_id else mret false);
  if ok : bool then mret true else is_identified user channel_id.

Definition get_access (user : ptr) (channel_id : Z) : M (Net E) Z :=
  u ← load_user user;
  if (channel_id =? 0) || (nick_id u =? 0) then mret 0
  else
    f ← is_founder user channel_id;
    if f : bool then mret ACCESS_FOUNDER
    else
      ok ← known user channel_id;
      if ok : bool then get_chanaccess_level channel_id (nick_id u) else mret 0.

Definition check_access (user : ptr) (channel_id what : Z) : M (Net E) bool :=
  user_level ← get_access user channel_id;
  if user_level =? ACCESS_FOUNDER then
    mret (negb ((what =? CA_AUTODEOP) || (what =? CA_NOJOIN)))
  else
    what_level ← get_chan_level channel_id what;
    flags ← get_chan_flags channel_id;
    if (what =? CA_AUTODEOP) && (user_level =? 0) && has flags CI_SECUREOPS then mret true
    else if what_level =? ACCESS_INVALID then mret false
    else if (what =? CA_AUTODEOP) || (what =? CA_NOJOIN) then mret (user_level <=? what_level)
    else mret (what_level <=? user_level).
End Queries.

(** ** What the queries answer *)

(** Only data behind the tables changed: caches, times of last use. *)
Definition quiet {E} `{!ChanDB E} (n n' : Net E) : Prop :=
  exists e, n' = n{{ext := e}} /\ db e = db (ext n).

(** What ChanServ relies on about the status of nicks: the cache answers with
    the status kept for the nick, and an administrator is told by the tables. *)
Class NickView (E : Type) `{!NickServ E} `{!ChanDB E} := {
  nick_status : DB -> Z -> Z;
  services_admin : DB -> User -> bool;
  law_status i (n : Net E) :
    wp (get_nick_status i) (fun s n' => s = nick_status (db (ext n)) i /\ quiet n n') n;
  law_admin p u (n : Net E) : users_heap n !! p = Some u ->
    wp (is_services_admin p) (fun b n' => b = services_admin (db (ext n)) u /\ quiet n n') n
}.

Section Answers.
Context {E : Type} `{!ChanDB E} `{!NickServ E} `{!NickView E}.
Implicit Types (n : Net E) (d : DB) (u : User).

Definition col {A} (d : DB) (f : ChanInfo -> A) (dflt : A) (i : Z) : A :=
  match channel d !! i with Some r => f r | None => dflt end.

Definition identified d u : bool :=
  negb (real_id u =? 0) && has (nick_status d (real_id u)) NS_IDENTIFIED.
Definition recognized d u : bool :=
  negb (real_id u =? 0) && has (nick_status d (real_id u)) (NS_IDENTIFIED .| NS_RECOGNIZED).

(** Known well enough: identified, or recognized where the channel is not SECURE. *)
Definition trusted d u (i : Z) : bool :=
  identified d u || recognized d u && negb (has (col d ci_flags 0 i) CI_SECURE).

Definition founder_master d (i : Z) : Z :=
  match channel d !! i with Some r => default 0 (nick_master d !! ci_founder r) | None => 0 end.

Definition founder d u (i : Z) : bool :=
  (nick_id u =? founder_master d i) && trusted d u i ||
  existsb (fun c => c =? i) (founder_chans u).

Definition access_level d u (i : Z) : Z :=
  if (i =? 0) || (nick_id u =? 0) then 0
  else if founder d u i then ACCESS_FOUNDER
  else if trusted d u i then
    match access_row d i (nick_id u) with Some r => ca_level r | None => 0 end
  else 0.

Definition ability_level d (i what : Z) : Z :=
  default (lookup_def_level what) (chanlevel d !! (i, what)).

(** [CA_AUTODEOP] and [CA_NOJOIN] single out those with too little access. *)
Definition negative (what : Z) : bool := (what =? CA_AUTODEOP) || (what =? CA_NOJOIN).

Definition permits d u (i what : Z) : bool :=
  let l := access_level d u i in
  let w := ability_level d i what in
  if l =? ACCESS_FOUNDER then negb (negative what)
  else if (what =? CA_AUTODEOP) && (l =? 0) && has (col d ci_flags 0 i) CI_SECUREOPS then true
  else if w =? ACCESS_INVALID then false
  else if negative what then l <=? w else w <=? l.

Lemma quiet_refl n : quiet n n.
Proof. exists (ext n). split; [by destruct n|done]. Qed.

Lemma quiet_trans n1 n2 n3 : quiet n1 n2 -> quiet n2 n3 -> quiet n1 n3.
Proof. intros (e & -> & H1) (e' & -> & H2). exists e'. split; [done|]. simpl in H2. congruence. Qed.

Lemma quiet_ext n (f : E -> E) : (forall e, db (f e) = db e) -> quiet n (n{{ext ::= f}}).
Proof. intros Hf. exists (f (ext n)). done. Qed.

Lemma quiet_graph n n' : quiet n n' -> graph_of n' = graph_of n.
Proof. by intros (e & -> & _). Qed.

Lemma quiet_db n n' : quiet n n' -> db (ext n') = db (ext n).
Proof. by intros (e & -> & H). Qed.

Lemma quiet_users n n' : quiet n n' -> users_heap n' = users_heap n.
Proof. by intros (e & -> & H). Qed.

(** [m] is a query: it yields [a] and is quiet. *)
Definition query {A} n (m : M (Net E) A) (a : A) : Prop :=
  wp m (fun b n' => b = a /\ quiet n n') n.

Lemma query_ret {A} n (a : A) : query n (mret a) a.
Proof. apply wp_ret. split; [done|apply quiet_refl]. Qed.

Lemma query_bind {A B} n (m : M (Net E) A) (k : A -> M (Net E) B) a b :
  query n m a -> (forall n', quiet n n' -> query n' (k a) b) -> query n (mbind k m) b.
Proof.
  intros Hm Hk. apply wp_bind. eapply wp_mono; [apply Hm|]. intros ? n' [-> Hq].
  eapply wp_mono; [by apply Hk|]. intros ? n'' [-> Hq']. split; [done|by eapply quiet_trans].
Qed.

Lemma query_gets {A} n (f : Net E -> A) a : f n = a -> query n (gets f) a.
Proof. intros <-. split; [done|apply quiet_refl]. Qed.

Lemma query_load n p u : users_heap n !! p = Some u -> query n (load_user p) u.
Proof. intros H. eapply wp_load_user; [done|]. split; [done|apply quiet_refl]. Qed.

Lemma query_touch n (f : Net E -> E -> E) :
  (forall e, db (f n e) = db e) -> query n (modify (fun n => n{{ext ::= f n}})) tt.
Proof. intros Hf. apply wp_modify. split; [done|by apply quiet_ext]. Qed.

Lemma query_column {A} n (f : ChanInfo -> A) dflt i : query n (column f dflt i) (col (db (ext n)) f dflt i).
Proof. by apply query_gets. Qed.

Lemma query_nick_has n p u flags : users_heap n !! p = Some u ->
  query n (nick_has flags p) (negb (real_id u =? 0) && has (nick_status (db (ext n)) (real_id u)) flags).
Proof.
  intros Hu. eapply query_bind; [by apply query_load|]. intros n' Hn.
  destruct (real_id u =? 0); simpl; [apply query_ret|].
  eapply query_bind; [apply law_status|]. intros n'' Hn'. rewrite (quiet_db _ _ Hn). apply query_ret.
Qed.

Lemma query_known n p u i : users_heap n !! p = Some u ->
  query n (known p i) (trusted (db (ext n)) u i).
Proof.
  intros Hu. eapply query_bind; [by apply query_nick_has|]. intros n1 H1. unfold trusted, identified.
  destruct (_ && _); simpl; [apply query_ret|].
  eapply query_bind; [apply query_nick_has; by rewrite (quiet_users _ _ H1)|].
  intros n2 H2. unfold recognized. rewrite (quiet_db _ _ H1). destruct (_ && _); simpl; [|apply query_ret].
  eapply query_bind; [apply query_column|]. intros n3 H3.
  rewrite (quiet_db _ _ H2), (quiet_db _ _ H1). apply query_ret.
Qed.

Lemma query_is_founder n p u i : users_heap n !! p = Some u ->
  query n (is_founder p i) (founder (db (ext n)) u i).
Proof.
  intros Hu. eapply query_bind; [by apply query_load|]. intros n1 H1.
  eapply query_bind; [by apply query_gets|]. intros n2 H2. cbv beta.
  assert (Hd1 := quiet_db _ _ H1). assert (Hd2 := quiet_db _ _ H2). unfold founder.
  change (match channel (db (ext n1)) !! i with
          | Some r => default 0 (nick_master (db (ext n1)) !! ci_founder r) | None => 0 end)
    with (founder_master (db (ext n1)) i). rewrite Hd1.
  assert (Hu2 : users_heap n2 !! p = Some u)
    by (by rewrite (quiet_users _ _ H2), (quiet_users _ _ H1)).
  eapply (query_bind _ _ _ ((nick_id u =? founder_master (db (ext n)) i) && trusted (db (ext n)) u i)).
  - destruct (_ =? _); simpl; [|apply query_ret].
    pose proof (query_known n2 p u i Hu2) as Hk. by rewrite Hd2, Hd1 in Hk.
  - intros n3 H3. destruct (_ && _); simpl; [apply query_ret|].
    eapply query_bind; [apply query_load; by rewrite (quiet_users _ _ H3)|]. intros n4 _. apply query_ret.
Qed.

Lemma query_get_access n p u i : users_heap n !! p = Some u ->
  query n (get_access p i) (access_level (db (ext n)) u i).
Proof.
  intros Hu. eapply query_bind; [by apply query_load|]. intros n1 H1. unfold access_level.
  destruct (_ || _); [apply query_ret|].
  assert (Hu1 : users_heap n1 !! p = Some u) by by rewrite (quiet_users _ _ H1).
  assert (Hd1 := quiet_db _ _ H1).
  eapply query_bind; [by apply query_is_founder|]. rewrite Hd1. intros n2 H2.
  destruct (founder _ _ _); [apply query_ret|].
  eapply query_bind; [apply query_known; by rewrite (quiet_users _ _ H2)|].
  rewrite (quiet_db _ _ H2), Hd1. intros n3 H3. destruct (trusted _ _ _); [|apply query_ret].
  unfold get_chanaccess_level. eapply query_bind; [by apply query_gets|]. cbv beta.
  rewrite (quiet_db _ _ H3), (quiet_db _ _ H2), Hd1. intros n4 H4.
  destruct (access_row _ _ _) as [r|]; [|apply query_ret].
  eapply (query_bind _ _ _ tt).
  - destruct (negb _); simpl; [|apply query_ret].
    apply (query_touch _ (fun n => touch "chanaccess" (ca_id r) (now n))). intros e. apply db_touch.
  - intros n5 H5. apply query_ret.
Qed.

Lemma query_check_access n p u i what : users_heap n !! p = Some u ->
  query n (check_access p i what) (permits (db (ext n)) u i what).
Proof.
  intros Hu. eapply query_bind; [by apply query_get_access|]. intros n1 H1. unfold permits.
  destruct (_ =? ACCESS_FOUNDER); [apply query_ret|].
  eapply query_bind; [by apply query_gets|]. intros n2 H2. cbv beta.
  eapply query_bind; [apply query_column|]. intros n3 H3.
  rewrite (quiet_db _ _ H2), (quiet_db _ _ H1). unfold ability_level.
  destruct (_ && _); [apply query_ret|]. destruct (_ =? ACCESS_INVALID); [apply query_ret|].
  unfold negative. destruct (_ || _); apply query_ret.
Qed.
End Answers.

(** ** Properties *)
Section Access.
Context {E : Type} `{!ChanDB E} `{!NickServ E} `{!NickView E}.
Implicit Types (n : Net E).

(** C5: [check_access] decides by the user's level on the channel and the level the
    ability needs: the founder has every ability and neither restriction;
    [CA_AUTODEOP] and [CA_NOJOIN] hit those at or below the level, the other
    abilities need at least the level; a disabled ability is nobody's, and on a
    SECUREOPS channel a user without access is deopped whatever the level. *)
Theorem check_access_correct n p u i what (Hu : users_heap n !! p = Some u) :
  let d := db (ext n) in let l := access_level d u i in let w := ability_level d i what in
  wp (check_access p i what) (fun b n' => quiet n n' /\
    (b = true <->
       (l = ACCESS_FOUNDER /\ what <> CA_AUTODEOP /\ what <> CA_NOJOIN) \/
       (l <> ACCESS_FOUNDER /\ what = CA_AUTODEOP /\ l = 0 /\
          has (col d ci_flags 0 i) CI_SECUREOPS = true) \/
       (l <> ACCESS_FOUNDER /\ w <> ACCESS_INVALID /\
          if decide (what = CA_AUTODEOP \/ what = CA_NOJOIN) then l <= w else w <= l))) n.
Proof.
  intros d l w. eapply wp_mono; [by apply query_check_access|]. intros b n' [-> Hq].
  split; [done|]. unfold permits, negative. fold d. fold l. fold w.
  destruct (Z.eqb_spec l ACCESS_FOUNDER), (Z.eqb_spec what CA_AUTODEOP), (Z.eqb_spec what CA_NOJOIN),
    (Z.eqb_spec l 0), (Z.eqb_spec w ACCESS_INVALID), (has (col d ci_flags 0 i) CI_SECUREOPS);
    simpl; destruct (decide _); rewrite ?Z.leb_le; naive_solver.
Qed.

(** Access comes only with trust: a user has a level on a channel only if he
    gave the founder's password for it, or is identified for his nick, or
    recognized where the channel is not SECURE. *)
Theorem get_access_trusted n p u i (Hu : users_heap n !! p = Some u) :
  wp (get_access p i) (fun l n' => quiet n n' /\
    (l <> 0 -> i <> 0 /\ nick_id u <> 0 /\
       (i ∈ founder_chans u \/ identified (db (ext n)) u = true \/
        (recognized (db (ext n)) u = true /\ has (col (db (ext n)) ci_flags 0 i) CI_SECURE = false)))) n.
Proof.
  eapply wp_mono; [by apply query_get_access|]. intros l n' [-> Hq]. split; [done|].
  unfold access_level, founder, trusted.
  destruct (Z.eqb_spec i 0), (Z.eqb_spec (nick_id u) 0); simpl; try done. intros Hl.
  split; [done|]. split; [done|]. destruct (identified _ u) eqn:Hi; [by right; left|].
  destruct (recognized _ u) eqn:Hr; simpl in *.
  - destruct (has _ CI_SECURE) eqn:Hs; [|by right; right]. simpl in Hl. left.
    rewrite andb_false_r in Hl. simpl in Hl. destruct (existsb _ _) eqn:He; [|done].
    apply existsb_exists in He as (c & Hc & Heq). apply Z.eqb_eq in Heq as ->. by apply list_elem_of_In.
  - left. rewrite andb_false_r in Hl. simpl in Hl. destruct (existsb _ _) eqn:He; [|done].
    apply existsb_exists in He as (c & Hc & Heq). apply Z.eqb_eq in Heq as ->. by apply list_elem_of_In.
Qed.
End Access.

(** ** Small tables, on which the theorems are exercised *)
Module Tables.

#[export] Instance chandb : ChanDB DB := {
  db := id; set_db := fun d _ => d; touch := fun _ _ _ e => e;
  new_chan_memos := fun _ _ _ => 0; schedule_leave := fun _ e => e;
  db_set := fun _ _ => eq_refl; db_touch := fun _ _ _ _ => eq_refl; db_schedule := fun _ _ => eq_refl
}.

(** Nick 7 is identified, nick 8 recognized. *)
Definition status (d : DB) (i : Z) : Z :=
  if i =? 7 then NS_IDENTIFIED else if i =? 8 then NS_RECOGNIZED else 0.

#[export] Instance nickserv : NickServ DB := {
  mysql_findnick := fun _ => mret 0;
  mysql_getlink := fun _ => mret 0;
  get_nick_status := fun i => gets (fun n => status (ext n) i);
  set_nick_status := fun _ _ => mret tt;
  get_nick_flags := fun _ => mret 0;
  mysql_maxuser_stat := fun _ _ => mret tt;
  validate_user := fun _ => mret false;
  cancel_user := fun _ => mret tt;
  check_on_access := fun _ => mret tt;
  check_memos := fun _ => mret tt;
  mysql_update_last_seen := fun _ _ => mret tt;
  mysql_quit_row := fun _ => mret false;
  mysql_quit_store := fun _ _ _ => mret tt;
  is_services_admin := fun _ => mret false;
  nickcache_update := fun _ => mret tt;
  get_email_from_id := fun _ => mret EmptyString;
  get_cloak_from_id := fun _ => mret None;
  check_autojoins := fun _ => mret tt;
  display_news_logon := fun _ => mret tt;
  display_news_oper := fun _ => mret tt
}.

Lemma ext_only_ret_db {A} (a : A) : ext_only (E := DB) (mret a).
Proof. intros n. apply wp_ret. exists (ext n). by destruct n. Qed.

#[export] Instance nickserv_laws : NickServLaws DB.
Proof.
  split; intros; first [apply ext_only_ret_db|by intros n Hn|idtac].
  intros n. exists (ext n). by destruct n.
Qed.

Lemma status_law i (n : Net DB) :
  wp (get_nick_status i) (fun s n' => s = status (db (ext n)) i /\ quiet n n') n.
Proof. split; [done|apply quiet_refl]. Qed.

Lemma admin_law p u (n : Net DB) : users_heap n !! p = Some u ->
  wp (is_services_admin p) (fun b n' => b = false /\ quiet n n') n.
Proof. intros _. split; [done|apply quiet_refl]. Qed.

#[export] Instance nickview : NickView DB := {
  nick_status := status; services_admin := fun _ _ => false;
  law_status := status_law; law_admin := admin_law
}.

Definition row : ChanInfo :=
  mkChanInfo "#a" 7 CI_KEEPTOPIC (CMODE_n .| CMODE_t) (CMODE_i .| CMODE_l) 0 "sesame" "welcome" "alice" 900
    "" 0 (mkChanRow 0 0 0 0 0 0) 0 800.

Definition nick_row (nk : string) (link : Z) : NickRow := mkNickRow nk 0 0 "" "" 0 link 0 0 0 0 "" "".

(** #a has id 1; nick 7 founded it and nick 9, linked to nick 8, is on its access list. *)
Definition tables : DB :=
  mkDB {[1 := row]} (fun nm => if String.eqb nm "#a" then Some 1 else None)
    {[(1, CA_AUTOOP) := 10]} [mkChanAccess 1 1 9 5 0 1 0 "" 0 ""]
    (mkTable [mkAkick 1 1 "*!*@*.example.org" 0 None 1 "alice" 900] 2) 2
    {[7 := nick_row "alice" 0; 8 := nick_row "eve" 0; 9 := nick_row "carol" 8]}
    (fun nk => if String.eqb nk "alice" then Some 7 else if String.eqb nk "eve" then Some 8
               else if String.eqb nk "carol" then Some 9 else None)
    (mkTable [] 1) (mkTable [] 1) (mkTable [] 1) (mkTable [] 1) (mkTable [] 1) (mkTable [] 1) (mkTable [] 1).

Definition net : Net DB :=
  let m := Demo.net in
  mkNet DB (alter (fun u => u{{nick_id := 7; real_id := 7}}) 1 (users_heap m))
    (alter (fun c => c{{channel_id := 1}}) 2 (chans_heap m)) (userlist m) (chanlist m) (next_addr m)
    (usercnt m) (opcnt m) (maxusercnt m) (maxusertime m) NULL 0 NULL 0 (lastmodes m) (now m) [] tables.

Lemma check_access_correct_witness :
  exists b n', check_access 1 1 CA_SET net = Some (b, n') /\ b = true.
Proof.
  set (u := Demo.alice{{nick_id := 7; real_id := 7}}).
  pose proof (check_access_correct net 1 u 1 CA_SET eq_refl) as H. cbv zeta in H.
  unfold wp in H. destruct (check_access 1 1 CA_SET net) as [[b n']|]; [|done].
  exists b, n'. split; [done|]. apply (proj2 (proj2 H)). left. split; [vm_compute; reflexivity|done].
Defined.

Lemma get_access_trusted_witness :
  exists l n', get_access 1 1 net = Some (l, n') /\ (l <> 0 -> 1 <> 0 /\ 7 <> 0).
Proof.
  set (u := Demo.alice{{nick_id := 7; real_id := 7}}).
  pose proof (get_access_trusted net 1 u 1 eq_refl) as H.
  unfold wp in H. destruct (get_access 1 1 net) as [[l n']|]; [|done].
  exists l, n'. split; [done|]. intros Hl. destruct H as [_ H]. destruct (H Hl) as (? & ? & _). done.
Defined.
End Tables.
