(* ===== verification/ChanServ.v ===== *)
(** ChanServ as the network code sees it ([src/chanserv.c]): mode locks
    ([check_modes]), who may be opped, voiced and stay ([check_valid_op],
    [check_should_op], [check_should_voice], [check_kick]), topics, and the proof
    that this implementation satisfies the interface of Interfaces.v. *)

From S2P Require Import Prelude CStr Wild NumTime Wp Graph Net Masks Interfaces Table Channels Users ChanDB.

(** ** Operator and voice status *)
Section Status.
Context `{Conf} {E : Type} `{!ChanDB E} `{!NickServ E}.
Implicit Types (n : Net E).

(** Services operators and administrators. *)
Definition is_priv (user : ptr) : M (Net E) bool :=
  u ← load_user user;
  o ← is_oper (nick u);
  if o : bool then mret true else is_services_admin user.

Definition deop (user : ptr) (chan : string) : M (Net E) bool :=
  u ← load_user user;
  send_cmd (Some s_ChanServ) ("MODE " +:+ chan +:+ " -o " +:+ nick u);;
  mret false.

Definition check_valid_op (user : ptr) (chan : string) (serverop : bool) : M (Net E) bool :=
  r ← mysql_findchanflags chan;
  let '(channel_id, flags) := r in
  if (channel_id =? 0) || has flags CI_LEAVEOPS then mret true
  else
    priv ← (if CSOpOper then is_priv user else mret false);
    if priv : bool then mret true
    else if has flags CI_VERBOTEN then deop user chan
    else
      t ← gets now;
      refuse ← (if serverop && (CSRestrictDelay <=? t - start_time) then
                  ok ← check_access user channel_id CA_AUTOOP; mret (negb ok)
                else mret false);
      if refuse : bool then
        u ← load_user user;
        emit (Notice s_ChanServ (nick u) "CHAN_IS_REGISTERED");;
        deop user chan
      else
        auto ← check_access user channel_id CA_AUTODEOP;
        if auto : bool then deop user chan else mret true.

(** The part [check_should_op] and [check_should_voice] share: the id of a
    channel on which the user may get a status. *)
Definition status_channel (user : ptr) (chan : string) : M (Net E) (option Z) :=
  if Ascii.eqb (hd_char chan) "+" || Ascii.eqb (hd_char chan) "&" then mret None
  else
    r ← mysql_findchanflags chan;
    let '(channel_id, flags) := r in
    if (channel_id =? 0) || has flags CI_VERBOTEN then mret None
    else if has flags CI_SECURE then
      ident ← nick_identified user;
      mret (if ident : bool then Some channel_id else None)
    else mret (Some channel_id).

Definition check_should_op (user : ptr) (chan : string) : M (Net E) bool :=
  r ← status_channel user chan;
  match r with
  | None => mret false
  | Some channel_id =>
      ok ← check_access user channel_id CA_AUTOOP;
      if ok : bool then
        reqlev ← get_chan_level channel_id CA_AUTOOP;
        if 0 <? reqlev then
          u ← load_user user;
          send_cmd (Some s_ChanServ) ("MODE " +:+ chan +:+ " +o " +:+ nick u);;
          update_chan_last_used channel_id;;
          mret true
        else update_chan_last_used channel_id;; mret false
      else
        l ← get_access user channel_id;
        when (0 <? l) (update_chan_last_used channel_id);;
        mret false
  end.

Definition check_should_voice (user : ptr) (chan : string) : M (Net E) bool :=
  r ← status_channel user chan;
  match r with
  | None => mret false
  | Some channel_id =>
      ok ← check_access user channel_id CA_AUTOVOICE;
      if ok : bool then
        reqlev ← get_chan_level channel_id CA_AUTOVOICE;
        if 0 <? reqlev then
          u ← load_user user;
          send_cmd (Some s_ChanServ) ("MODE " +:+ chan +:+ " +v " +:+ nick u);;
          mret true
        else update_chan_last_used channel_id;; mret false
      else mret false
  end.

(** *** Memos for the channel *)
Definition check_chan_memos (u : ptr) (channel_id : Z) : M (Net E) unit :=
  if channel_id =? 0 then mret tt
  else
    access_level ← get_access u channel_id;
    if access_level <=? 0 then mret tt
    else
      memoread_level ← get_chan_level channel_id CA_MEMO_READ;
      if access_level <? memoread_level then mret tt
      else
        last ← (if access_level =? ACCESS_FOUNDER then get_founder_memo_read channel_id
                else get_access_memo_read u channel_id);
        count ← gets (fun n => new_chan_memos (ext n) channel_id last);
        when (0 <? count)
          (us ← load_user u; emit (Notice s_MemoServ (nick us) "CHAN_HAS_NEW_MEMOS")).

Definition update_memo_time (u : ptr) (chan : string) (memo_time : Z) : M (Net E) unit :=
  channel_id ← mysql_findchan chan;
  if channel_id =? 0 then mret tt
  else
    us ← load_user u;
    f ← is_founder u channel_id;
    if f : bool then update_channel channel_id (fun r => r{{ci_founder_memo_read := memo_time}})
    else
      id ← get_chanaccess_id channel_id (nick_id us);
      when (negb (id =? 0))
        (modify (fun n => n{{ext ::= fun e => set_db ((db e){{chanaccess ::= map (fun r =>
           if ca_id r =? id then r{{ca_memo_read := memo_time}} else r)}}) e}})).

(** *** Topics *)
Definition record_topic (chan : string) : M (Net E) unit :=
  c ← findchan chan;
  if c =? NULL then mret tt
  else
    ch ← load_chan c;
    when (negb (channel_id ch =? 0))
      (update_channel (channel_id ch) (fun r =>
         r{{ci_last_topic := default EmptyString (topic ch);
            ci_last_topic_setter := topic_setter ch; ci_last_topic_time := topic_time ch}})).

Definition topic_row (i : Z) : M (Net E) (option (string * string * Z)) :=
  column (fun r => Some (ci_last_topic r, ci_last_topic_setter r, ci_last_topic_time r)) None i.

Definition tburst (ch : Channel) (chan tp : string) : string :=
  "TBURST " +:+ show_int (creation_time ch) +:+ " " +:+ chan +:+ " " +:+ show_int (topic_time ch)
  +:+ " " +:+ topic_setter ch +:+ " :" +:+ tp.

Definition restore_topic (chan : string) : M (Net E) unit :=
  c ← findchan chan;
  if c =? NULL then mret tt
  else
    ch ← load_chan c;
    flags ← get_chan_flags (channel_id ch);
    if (channel_id ch =? 0) || negb (has flags CI_KEEPTOPIC) then mret tt
    else
      row ← topic_row (channel_id ch);
      upd_chan c (fun ch =>
        match row with
        | Some (tp, setter, tm) =>
            if String.eqb tp EmptyString then ch{{topic := None; topic_setter := trunc NICKMAX s_ChanServ}}
            else ch{{topic := Some tp; topic_setter := trunc NICKMAX setter; topic_time := tm}}
        | None => ch{{topic := None; topic_setter := trunc NICKMAX s_ChanServ}}
        end);;
      t ← gets now;
      upd_chan c (fun ch => ch{{topic_time := t}});;
      ch ← load_chan c;
      match topic ch with
      | Some tp => send_cmd (Some ServerName) (tburst ch chan tp)
      | None => mret tt
      end.

Definition check_topiclock (chan setter : string) (c : ptr) : M (Net E) bool :=
  if c =? NULL then mret false
  else
    ch ← load_chan c;
    flags ← get_chan_flags (channel_id ch);
    if (channel_id ch =? 0) || negb (has flags CI_TOPICLOCK) then mret false
    else
      u ← finduser setter;
      allowed ← (if u =? NULL then mret false
                 else us ← load_user u;
                      if nick_id us =? 0 then mret false else check_access u (channel_id ch) CA_SET);
      if allowed : bool then mret false
      else
        row ← topic_row (channel_id ch);
        (match row with
         | Some (tp, st, tm) =>
             upd_chan c (fun ch => ch{{topic := if String.eqb tp EmptyString then None else Some tp;
                                      topic_setter := trunc NICKMAX st; topic_time := tm}})
         | None => match topic ch with Some _ => fault | None => mret tt end   (* freed, used below *)
         end);;
        t ← gets now;
        upd_chan c (fun ch => ch{{topic_time := t}});;
        ch ← load_chan c;
        send_cmd (Some ServerName) (tburst ch chan (default EmptyString (topic ch)));;
        mret true.
End Status.

(** ** Mode locks *)

(** The letters in the order [check_modes] tries them. *)
Definition mode_letters : list (ascii * Z) :=
  [("i", CMODE_i); ("m", CMODE_m); ("M", CMODE_M); ("n", CMODE_n); ("p", CMODE_p);
   ("s", CMODE_s); ("t", CMODE_t); ("c", CMODE_c); ("O", CMODE_O); ("R", CMODE_R)]%char.

(** [if (modes & CMODE_x) { *end++ = 'x'; c->mode |= CMODE_x; }] for each letter;
    [&= ~CMODE_x] when not [add]. *)
Fixpoint run_letters (add : bool) (l : list (ascii * Z)) (modes : Z) (newmodes : string) (m : Z)
    : string * Z :=
  match l with
  | [] => (newmodes, m)
  | (a, f) :: l' =>
      if has modes f then
        run_letters add l' modes (newmodes +:+ String a EmptyString) (set_flag add f m)
      else run_letters add l' modes newmodes m
  end.

(** [if (end[-1] == x) end--;] *)
Fixpoint drop_last_if (x : ascii) (s : string) : string :=
  match s with
  | EmptyString => EmptyString
  | String c EmptyString => if Ascii.eqb c x then EmptyString else s
  | String c s' => String c (drop_last_if x s')
  end.

Section Lock.
Context `{Conf} {E : Type} `{!ChanDB E} `{!ModeServ E}.
Implicit Types (n : Net E).

(** Counting the checks of this second. *)
Definition lock_count (c : ptr) : M (Net E) unit :=
  ch ← load_chan c;
  when ((3 <=? server_modecount ch) && (3 <=? chanserv_modecount ch))
    (emit (Wallops None ("Bouncy modes on channel " +:+ name ch +:+ ". " +:+
       show_int (server_modecount ch) +:+ " " +:+ show_int (chanserv_modecount ch))));;
  t ← gets now;
  upd_chan c (fun ch => if chanserv_modetime ch =? t then ch
                        else ch{{chanserv_modecount := 0; chanserv_modetime := t}});;
  upd_chan c (fun ch => ch{{chanserv_modecount ::= fun k => wrap16 (k + 1)}}).

Definition lock_flags (add : bool) (c : ptr) (modes : Z) (newmodes : string) : M (Net E) string :=
  ch ← load_chan c;
  let '(newmodes, m) := run_letters add mode_letters modes newmodes (cmode ch) in
  upd_chan c (fun ch => ch{{cmode := m}});;
  mret newmodes.

(** With the new limit, if it is set. *)
Definition lock_limit (c : ptr) (i : Z) (newmodes : string) : M (Net E) (string * option Z) :=
  mlock_limit ← get_mlock_limit i;
  ch ← load_chan c;
  if negb (mlock_limit =? 0) && negb (mlock_limit =? limit ch) then
    let newlimit := wrap32 mlock_limit in
    upd_chan c (fun ch => ch{{limit := u32 newlimit}});;
    mret (newmodes +:+ "l", Some newlimit)
  else mret (newmodes, None).

(** With the new key, if it is set. *)
Definition lock_key (c : ptr) (i : Z) (newmodes : string) : M (Net E) (string * option string) :=
  mlock_key ← get_mlock_key i;
  ch ← load_chan c;
  match mlock_key with
  | None | Some EmptyString => mret (newmodes, None)
  | Some k =>
      match key ch with
      | None =>
          upd_chan c (fun ch => ch{{key := Some k}});;
          mret (newmodes +:+ "k", Some k)
      | Some k0 =>
          if String.eqb k0 k then mret (newmodes, None)
          else
            send_cmd (Some s_ChanServ) ("MODE " +:+ name ch +:+ " -k " +:+ k0);;
            do_cmode s_ChanServ 3 (name ch) "-k" [k0];;
            upd_chan c (fun ch => ch{{key := Some k}});;
            mret (newmodes +:+ "k", Some k)
      end
  end.

(** [+k] and [+l] locked off. *)
Definition unlock_params (c : ptr) (mlock_off : Z) (newmodes : string) (newkey : option string)
    : M (Net E) (string * option string) :=
  ch ← load_chan c;
  r ← (match key ch with
       | Some k0 =>
           if has mlock_off CMODE_k then
             upd_chan c (fun ch => ch{{key := None}});;
             mret (newmodes +:+ "k", Some k0)
           else mret (newmodes, newkey)
       | None => mret (newmodes, newkey)
       end);
  let '(newmodes, newkey) := r in
  if negb (limit ch =? 0) && has mlock_off CMODE_l then
    upd_chan c (fun ch => ch{{limit := 0}});;
    mret (newmodes +:+ "l", newkey)
  else mret (newmodes, newkey).

Definition lock_send (c : ptr) (newmodes : string) (newlimit : option Z) (newkey : option string)
    : M (Net E) unit :=
  ch ← load_chan c;
  let cmd := "MODE " +:+ name ch +:+ " " +:+ newmodes in
  send_cmd (Some s_ChanServ)
    match newlimit, newkey with
    | Some l, Some _ => cmd +:+ " " +:+ show_int l +:+ " :" +:+ default EmptyString (key ch)
    | Some l, None => cmd +:+ " " +:+ show_int l
    | None, Some k => cmd +:+ " :" +:+ k
    | None, None => cmd
    end.

(** From the first [if (end[-1] == '+')] on: the modes locked off, and the
    command.  [char newmodes[32]] holds the modes and their end. *)
Definition unlock (c : ptr) (i : Z) (newmodes : string) (newlimit : option Z)
    (newkey : option string) : M (Net E) unit :=
  let newmodes := drop_last_if "+" newmodes +:+ "-" in
  mlock_off ← get_mlock_off i;
  ch ← load_chan c;
  newmodes ← lock_flags false c (cmode ch .& mlock_off) newmodes;
  r ← unlock_params c mlock_off newmodes newkey;
  let '(newmodes, newkey) := r in
  let newmodes := drop_last_if "-" newmodes in
  if (31 <? String.length newmodes)%nat then fault
  else if String.eqb newmodes EmptyString then mret tt
  else lock_send c newmodes newlimit newkey.

Definition check_modes_body (chan : string) : M (Net E) unit :=
  c ← findchan chan;
  if c =? NULL then mret tt
  else
    ch ← load_chan c;
    if negb (bouncy_modes ch =? 0) then mret tt
    else
      lock_count c;;
      let i := channel_id ch in
      mlock_on ← get_mlock_on i;
      newmodes ← lock_flags true c (Z.lnot (cmode ch) .& mlock_on) "+";
      r ← lock_limit c i newmodes;
      let '(newmodes, newlimit) := r in
      r ← lock_key c i newmodes;
      let '(newmodes, newkey) := r in
      unlock c i newmodes newlimit newkey.
End Lock.

(** [check_modes] and [do_cmode] call each other; the check that follows the
    removal of a wrong key finds none, so two levels are enough. *)
Section CheckModes.
Context `{Conf} {E : Type} `{!ChanDB E} `{!NickServ E}.

Fixpoint check_modes (depth : nat) (chan : string) : M (Net E) unit :=
  match depth with
  | O => fault
  | S d => check_modes_body (ModeServ0 := {| Interfaces.check_modes := check_modes d;
                                             Interfaces.check_valid_op := check_valid_op |}) chan
  end.

(** What [do_cmode] calls. *)
Definition modeserv : ModeServ E := {|
  Interfaces.check_modes := check_modes 2; Interfaces.check_valid_op := check_valid_op
|}.
End CheckModes.

(** ** check_kick *)
Section Kick.
Context `{Conf} {E : Type} `{!ChanDB E} `{!NickServ E}.
Implicit Types (n : Net E).

(** Why a user may not stay: the ban mask and the reason of the kick. *)
Record Verdict := mkVerdict { k_mask : string; k_reason : string }.

(** [SELECT .. FROM akick LEFT JOIN nick .. WHERE channel_id=.. && ((a nick, linked
    to the user's) || (a mask the user matches))]: the first row. *)
Definition akick_match (d : DB) (channel_id nid : Z) (u : User) (a : Akick) : bool :=
  (ak_channel a =? channel_id) &&
  (negb (ak_nick a =? 0) && bool_decide (nick_master d !! ak_nick a = Some nid) ||
   (ak_nick a =? 0) &&
   negb (Udf.irc_match (ak_mask a) (nick u +:+ "!" +:+ username u +:+ "@" +:+ host u) None =? 0)).

Definition find_akick (channel_id nid : Z) (u : User) : M (Net E) (option Akick) :=
  gets (fun n => let d := db (ext n) in find_first (akick_match d channel_id nid u) (rows (akick d))).

Definition make_mask (u : User) : M (Net E) string :=
  match create_mask u with Some m => mret m | None => fault end.

(** Up to the label [kick]: [None] where it returns 0. *)
Definition kick_verdict (user : ptr) (chan : string) : M (Net E) (option Verdict) :=
  r ← mysql_findchanflags chan;
  let '(channel_id, flags) := r in
  if channel_id =? 0 then mret None
  else
    priv ← (if negb CSAkickOper then is_priv user else mret false);
    if priv : bool then mret None
    else
      u ← load_user user;
      if has flags CI_VERBOTEN then
        m ← make_mask u;
        mret (Some (mkVerdict ("*!" +:+ m) "CHAN_MAY_NOT_BE_USED"))
      else
        recog ← nick_recognized user;
        a ← find_akick channel_id (if recog : bool then nick_id u else 0) u;
        match a with
        | Some a =>
            m ← (if ak_nick a =? 0 then mret (ak_mask a)
                 else m ← make_mask u; mret ("*!" +:+ m));
            update_akick_last_used (ak_id a);;
            mret (Some (mkVerdict m (default CSAutokickReason (ak_reason a))))
        | None =>
            t ← gets now;
            nojoin ← (if CSRestrictDelay <=? t - start_time then
                        check_access user channel_id CA_NOJOIN else mret false);
            if nojoin : bool then
              m ← make_mask u;
              mret (Some (mkVerdict ("*!" +:+ m) "CHAN_NOT_ALLOWED_TO_JOIN"))
            else mret None
        end.

(** From the label [kick] on. *)
Definition kickban (user : ptr) (chan : string) (v : Verdict) : M (Net E) unit :=
  c ← findchan chan;
  let stay := c =? NULL in
  t ← gets now;
  when stay (send_cmd None ("SJOIN " +:+ show_int t +:+ " " +:+ chan +:+ " + " +:+ s_ChanServ));;
  send_cmd (Some s_ChanServ) ("MODE " +:+ chan +:+ " +b: " +:+ k_mask v);;
  do_cmode (ModeServ0 := modeserv) s_ChanServ 3 chan "+b" [k_mask v];;
  u ← load_user user;
  send_cmd (Some s_ChanServ) ("KICK " +:+ chan +:+ " " +:+ nick u +:+ " :" +:+ k_reason v);;
  when stay (modify (fun n => n{{ext ::= schedule_leave chan}})).

Definition check_kick (user : ptr) (chan : string) : M (Net E) bool :=
  v ← kick_verdict user chan;
  match v with
  | None => mret false
  | Some v => kickban user chan v;; mret true
  end.

(** The routine of the timer [schedule_leave] sets. *)
Definition timeout_leave (chan : string) : M (Net E) unit :=
  send_cmd (Some s_ChanServ) ("PART " +:+ chan).
End Kick.

(** ** The interface of the network code *)
#[export] Instance chanserv `{Conf} {E} `{!ChanDB E} `{!NickServ E} : ChanServ E := {
  chanserv_modes := modeserv;
  Interfaces.mysql_findchan := mysql_findchan;
  mysql_channel_row := column (fun r => Some (ci_events r)) None;
  mysql_channel_store := fun ch => update_channel (channel_id ch) (fun r =>
    let v := ci_events r in
    r{{ci_events := mkChanRow (last_limit_time ch) (limit_offset ch) (limit_tolerance ch)
                      (limit_period ch) (bantime ch) (r_floodserv v)}});
  mysql_set_limit_time := fun i t => update_channel i (fun r =>
    let v := ci_events r in
    r{{ci_events := mkChanRow t (r_limit_offset v) (r_limit_tolerance v) (r_limit_period v)
                      (r_bantime v) (r_floodserv v)}});
  Interfaces.restore_topic := restore_topic;
  Interfaces.record_topic := record_topic;
  Interfaces.check_topiclock := check_topiclock;
  Interfaces.check_should_op := check_should_op;
  Interfaces.check_should_voice := check_should_voice;
  Interfaces.check_kick := check_kick;
  mysql_entry_message := column (fun r =>
    if String.eqb (ci_entry_message r) EmptyString then None
    else Some (ci_entry_message r, ci_name r)) None;
  Interfaces.check_chan_memos := check_chan_memos
}.

(** ** ChanServ leaves the graph alone *)
Section Frames.
Context `{Conf} {E : Type} `{!ChanDB E} `{!NickServ E} `{!NickServLaws E}.
Implicit Types (n : Net E).

Lemma framed_column p {A} (f : ChanInfo -> A) d i : framed_user (E := E) p (column f d i).
Proof. apply framed_user_gets. Qed.

Lemma framed_known p i : framed_user (E := E) p (known p i).
Proof. unfold known, get_chan_flags. pose proof (@framed_column p). solve_framed. Qed.

Lemma framed_is_founder p i : framed_user (E := E) p (is_founder p i).
Proof. unfold is_founder, is_identified, get_founder_master_id. pose proof (framed_known p). solve_framed. Qed.

Lemma framed_get_access p i : framed_user (E := E) p (get_access p i).
Proof.
  unfold get_access, get_chanaccess_level. pose proof (framed_known p). pose proof (framed_is_founder p).
  solve_framed.
Qed.

Lemma framed_check_access p i what : framed_user (E := E) p (check_access p i what).
Proof.
  unfold check_access, get_chan_level, get_chan_flags. pose proof (framed_get_access p).
  pose proof (@framed_column p). solve_framed.
Qed.

Lemma framed_is_priv p : framed_user (E := E) p (is_priv p).
Proof. unfold is_priv. pose proof (is_oper_frame (E := E) p). solve_framed. Qed.

Lemma framed_deop p chan : framed_user (E := E) p (deop p chan).
Proof. unfold deop, send_cmd. solve_framed. Qed.

Lemma framed_check_valid_op p chan b : framed_user (E := E) p (check_valid_op p chan b).
Proof.
  unfold check_valid_op, mysql_findchanflags. pose proof (framed_check_access p).
  pose proof (framed_is_priv p). pose proof (framed_deop p). solve_framed.
Qed.

Lemma framed_status_channel p chan : framed_user (E := E) p (status_channel p chan).
Proof. unfold status_channel, mysql_findchanflags. solve_framed. Qed.

Lemma framed_check_should_op p chan : framed_user (E := E) p (check_should_op p chan).
Proof.
  unfold check_should_op, get_chan_level, send_cmd, update_chan_last_used.
  pose proof (framed_status_channel p). pose proof (framed_check_access p).
  pose proof (framed_get_access p). solve_framed.
Qed.

Lemma framed_check_should_voice p chan : framed_user (E := E) p (check_should_voice p chan).
Proof.
  unfold check_should_voice, get_chan_level, send_cmd, update_chan_last_used.
  pose proof (framed_status_channel p). pose proof (framed_check_access p). solve_framed.
Qed.

Lemma framed_check_chan_memos p i : framed_user (E := E) p (check_chan_memos p i).
Proof.
  unfold check_chan_memos, get_chan_level, get_founder_memo_read, get_access_memo_read.
  pose proof (framed_get_access p). pose proof (@framed_column p). solve_framed.
Qed.

Lemma framed_modify (f : Net E -> Net E) :
  (forall n, graph_of (f n) = graph_of n) -> framed (modify f).
Proof. intros Hf n _. apply wp_modify, Hf. Qed.

End Frames.

(** ** Runs that touch one channel

    [at_chan c ch o n0 n]: since [n0] only channel [c] changed, to [ch], and the
    messages [o] were sent. *)
Section AtChan.
Context {E : Type}.
Implicit Types (n : Net E) (ch : Channel).

Record at_chan (c : ptr) ch (o : list Msg) n0 n : Prop := {
  at_chans : chans_heap n = <[c := ch]> (chans_heap n0);
  at_users : users_heap n = users_heap n0;
  at_ulist : userlist n = userlist n0;
  at_clist : chanlist n = chanlist n0;
  at_next : next_addr n = next_addr n0;
  at_walk : u_current n = u_current n0;
  at_now : now n = now n0;
  at_ext : ext n = ext n0;
  at_out : out n = o ++ out n0
}.

Lemma at_init c ch n : chans_heap n !! c = Some ch -> at_chan c ch [] n n.
Proof. intros Hc. split; try done. by rewrite insert_id. Qed.

Lemma at_lookup c ch o n0 n : at_chan c ch o n0 n -> chans_heap n !! c = Some ch.
Proof. intros []. by rewrite at_chans0, lookup_insert_eq. Qed.

Lemma at_trans c ch1 o1 ch2 o2 n0 n1 n2 :
  at_chan c ch1 o1 n0 n1 -> at_chan c ch2 o2 n1 n2 -> at_chan c ch2 (o2 ++ o1) n0 n2.
Proof.
  intros [] []. split; try congruence.
  - rewrite at_chans1, at_chans0. by rewrite insert_insert_eq.
  - by rewrite at_out1, at_out0, app_assoc.
Qed.

Lemma at_upd c ch o n0 n f (Q : unit -> Net E -> Prop) :
  at_chan c ch o n0 n -> (forall n', at_chan c (f ch) o n0 n' -> Q tt n') -> wp (upd_chan c f) Q n.
Proof.
  intros Hat HQ. eapply wp_upd_chan; [by eapply at_lookup|]. apply HQ. destruct Hat. split; try done.
  simpl. by rewrite at_chans0, insert_insert_eq.
Qed.

Lemma at_load c ch o n0 n (Q : Channel -> Net E -> Prop) :
  at_chan c ch o n0 n -> Q ch n -> wp (load_chan c) Q n.
Proof. intros Hat HQ. eapply wp_load_chan; [by eapply at_lookup|done]. Qed.

Lemma at_emit c ch o n0 n m (Q : unit -> Net E -> Prop) :
  at_chan c ch o n0 n -> (forall n', at_chan c ch (m :: o) n0 n' -> Q tt n') -> wp (emit m) Q n.
Proof. intros Hat HQ. apply wp_modify, HQ. destruct Hat. split; try done. simpl. by rewrite at_out0. Qed.

Lemma at_graph c ch ch0 o n0 n : chans_heap n0 !! c = Some ch0 -> chan_view ch = chan_view ch0 ->
  at_chan c ch o n0 n -> graph_of n = graph_of n0.
Proof.
  intros Hc Hv []. unfold graph_of. rewrite at_users0, at_ulist0, at_clist0, at_next0, at_walk0, at_chans0.
  f_equal. rewrite fmap_insert, Hv. apply insert_id. by rewrite lookup_fmap, Hc.
Qed.

(** Channels that differ only in the counts of mode changes. *)
Definition core ch : Channel :=
  ch{{server_modetime := 0; server_modecount := 0; chanserv_modetime := 0; chanserv_modecount := 0}}.
Definition book (a b : Channel) : Prop := core a = core b.

#[global] Instance book_equiv : Equivalence book.
Proof.
  split.
  - by intros a.
  - intros a b Hab. unfold book. by rewrite Hab.
  - intros a b c Hab Hbc. unfold book in *. by rewrite Hab.
Qed.

Lemma book_view a b : book a b -> chan_view a = chan_view b.
Proof. intros He. exact (f_equal chan_view He). Qed.

Lemma book_fields a b : book a b ->
  name a = name b /\ cmode a = cmode b /\ limit a = limit b /\ key a = key b /\
  channel_id a = channel_id b /\ bouncy_modes a = bouncy_modes b /\ newbans a = newbans b.
Proof.
  intros He. split_and!;
    [exact (f_equal name He)|exact (f_equal cmode He)|exact (f_equal limit He)|exact (f_equal key He)
    |exact (f_equal channel_id He)|exact (f_equal bouncy_modes He)|exact (f_equal newbans He)].
Qed.
End AtChan.

(** ** What a mode lock asks for *)

(** The lock of a channel, as [check_modes] reads it. *)
Record Mlock := mkMlock { l_on : Z; l_off : Z; l_limit : Z; l_key : string }.

Definition lock_of (d : DB) (i : Z) : Mlock :=
  mkMlock (col d ci_mlock_on 0 i) (col d ci_mlock_off 0 i)
    (col d (fun r => u32 (ci_mlock_limit r)) 0 i) (col d ci_mlock_key EmptyString i).

(** The modes a lock can hold that take no parameter. *)
Definition LOCKABLE : Z := fold_right (fun p m => snd p .| m) 0 mode_letters.

(** The channel with the lock in force. *)
Definition enforce (lk : Mlock) (ch : Channel) : Channel :=
  ch{{cmode := (cmode ch .| (l_on lk .& LOCKABLE)) .&~ (l_off lk .& LOCKABLE);
      limit := if has (l_off lk) CMODE_l then 0
               else if l_limit lk =? 0 then limit ch else l_limit lk;
      key := if has (l_off lk) CMODE_k then None
             else if String.eqb (l_key lk) EmptyString then key ch else Some (l_key lk)}}.

Lemma has_single m f : (exists k, 0 <= k /\ f = 2 ^ k) -> m .& f = if has m f then f else 0.
Proof.
  intros (k & Hk & ->). unfold has. destruct (Z.eqb_spec (m .& 2 ^ k) 0) as [->|Hne]; simpl; [done|].
  apply Z.bits_inj'. intros j Hj. rewrite Z.land_spec, Z.pow2_bits_eqb by done.
  destruct (Z.eqb_spec k j) as [<-|]; [|by rewrite andb_false_r]. rewrite andb_true_r.
  destruct (Z.testbit m k) eqn:Hb; [done|]. destruct Hne. apply Z.bits_inj'. intros i Hi.
  rewrite Z.land_spec, Z.pow2_bits_eqb, Z.bits_0 by done.
  destruct (Z.eqb_spec k i) as [<-|]; [by rewrite Hb|by rewrite andb_false_r].
Qed.

Lemma mode_letters_single : Forall (fun p => exists k, 0 <= k /\ snd p = 2 ^ k) mode_letters.
Proof.
  repeat constructor; simpl; [exists 0|exists 1|exists 12|exists 2|exists 3|exists 4|exists 5|exists 10
    |exists 11|exists 8]; done.
Qed.

Lemma run_letters_modes add l modes buf m :
  Forall (fun p => exists k, 0 <= k /\ snd p = 2 ^ k) l ->
  snd (run_letters add l modes buf m) =
    set_flag add (modes .& fold_right (fun p m => snd p .| m) 0 l) m.
Proof.
  intros Hl. revert buf m. induction Hl as [|[a f] l Hf Hl IH]; intros buf m; simpl.
  - rewrite Z.land_0_r. destruct add; simpl; [by rewrite Z.lor_0_r|by rewrite Z.ldiff_0_r].
  - pose proof (has_single modes f Hf) as Hm. rewrite Z.land_lor_distr_r, Hm.
    destruct (has modes f); rewrite IH; destruct add; simpl; rewrite ?Z.lor_0_l; try done.
    + by rewrite Z.lor_assoc.
    + rewrite <- Z.ldiff_ldiff_l. done.
Qed.

Lemma run_letters_buf add l modes buf m :
  exists s, fst (run_letters add l modes buf m) = (buf +:+ s)%string /\
    (String.length s <= length l)%nat.
Proof.
  revert buf m. induction l as [|[a f] l IH]; intros buf m; simpl.
  - exists EmptyString. split; [|done]. clear. induction buf as [|c buf IH]; [done|]. by rewrite str_app_cons, <- IH.
  - destruct (has modes f).
    + destruct (IH (buf +:+ String a EmptyString)%string (set_flag add f m)) as (s & -> & Hs).
      exists (String a s). split; [|simpl; lia]. clear. induction buf as [|c buf IH]; [done|].
      by rewrite !str_app_cons, IH.
    + destruct (IH buf m) as (s & -> & Hs). exists s. split; [done|lia].
Qed.

Lemma run_letters_none add l modes buf m :
  modes .& fold_right (fun p m => snd p .| m) 0 l = 0 -> run_letters add l modes buf m = (buf, m).
Proof.
  revert buf m. induction l as [|[a f] l IH]; intros buf m; simpl; [done|].
  rewrite Z.land_lor_distr_r. intros [H1 H2]%Z.lor_eq_0_iff.
  assert (Hf : has modes f = false) by (by apply has_false). rewrite Hf. by apply IH.
Qed.

Lemma LOCKABLE_eq : fold_right (fun p m => snd p .| m) 0 mode_letters = LOCKABLE.
Proof. done. Qed.

Lemma drop_last_if_length x s : (String.length (drop_last_if x s) <= String.length s)%nat.
Proof. induction s as [|c [|d s] IH]; simpl in *; [done|destruct (Ascii.eqb c x); simpl; lia|lia]. Qed.

Lemma drop_last_if_snoc x s : drop_last_if x (s +:+ String x EmptyString)%string = s.
Proof.
  induction s as [|c s IH]; [simpl; by rewrite Ascii.eqb_refl|]. rewrite str_app_cons. simpl.
  rewrite IH. destruct (s +:+ String x EmptyString)%string eqn:E; [by destruct s|done].
Qed.

Section Enforce.
Context `{Conf} {E : Type} `{!ChanDB E} `{!ModeServ E}.
Implicit Types (n : Net E).

Lemma lock_flags_spec add c ch o n0 n modes buf (Q : string -> Net E -> Prop) :
  at_chan c ch o n0 n ->
  (forall n', at_chan c (ch{{cmode := set_flag add (modes .& LOCKABLE) (cmode ch)}}) o n0 n' ->
     Q (fst (run_letters add mode_letters modes buf (cmode ch))) n') ->
  wp (lock_flags add c modes buf) Q n.
Proof.
  intros Hat HQ. unfold lock_flags. apply wp_bind. eapply at_load; [done|].
  pose proof (run_letters_modes add mode_letters modes buf (cmode ch) mode_letters_single) as Hm.
  rewrite LOCKABLE_eq in Hm. destruct (run_letters _ _ _ _ _) as [buf' m]. simpl in Hm. subst m.
  apply wp_bind. eapply at_upd; [done|]. intros n' Hat'. by apply wp_ret, HQ.
Qed.

Lemma at_column {A} c ch o n0 n (f : ChanInfo -> A) d i (Q : A -> Net E -> Prop) :
  at_chan c ch o n0 n -> Q (col (db (ext n0)) f d i) n -> wp (column f d i) Q n.
Proof. intros Hat HQ. apply wp_gets. unfold col in HQ. by rewrite (at_ext _ _ _ _ _ Hat). Qed.

(** Messages other than commands. *)
Definition no_cmd (o : list Msg) : Prop := forall s t, Cmd s t ∉ o.

Lemma lock_count_spec c ch o n0 n (Q : unit -> Net E -> Prop) :
  at_chan c ch o n0 n ->
  (forall n' ch' w, at_chan c ch' (w ++ o) n0 n' -> book ch' ch -> no_cmd w -> Q tt n') ->
  wp (lock_count c) Q n.
Proof.
  intros Hat HQ. unfold lock_count. apply wp_bind. eapply at_load; [done|]. apply wp_bind.
  assert (Hk : forall n' w, at_chan c ch (w ++ o) n0 n' -> no_cmd w ->
    wp (t ← gets now;
        upd_chan c (fun ch => if chanserv_modetime ch =? t then ch
                              else ch{{chanserv_modecount := 0; chanserv_modetime := t}});;
        upd_chan c (fun ch => ch{{chanserv_modecount ::= fun k => wrap16 (k + 1)}})) Q n').
  { intros n1 w Hat1 Hw. apply wp_bind, wp_gets, wp_bind. eapply at_upd; [done|].
    intros n2 Hat2. eapply at_upd; [done|]. intros n3 Hat3. eapply HQ; [done| |done].
    unfold book. by destruct (_ =? _). }
  apply wp_when; intros _.
  - eapply at_emit; [done|]. intros n1 Hat1. eapply (Hk n1 [Wallops None _]); [done|].
    intros s t Hin. by apply list_elem_of_singleton in Hin.
  - apply (Hk n []); [done|]. intros s t Hin. by apply elem_of_nil in Hin.
Qed.

(** What [unlock] makes of the channel. *)
Definition relax (off : Z) (ch : Channel) : Channel :=
  ch{{cmode := cmode ch .&~ (off .& LOCKABLE);
      limit := if has off CMODE_l then 0 else limit ch;
      key := if has off CMODE_k then None else key ch}}.

Lemma unlock_params_spec c ch o n0 n off buf nk (Q : string * option string -> Net E -> Prop) :
  at_chan c ch o n0 n ->
  (forall n' s nk', at_chan c (ch{{limit := if has off CMODE_l then 0 else limit ch;
                                   key := if has off CMODE_k then None else key ch}}) o n0 n' ->
     (String.length s <= 2)%nat ->
     ((has off CMODE_l = true -> limit ch = 0) -> (has off CMODE_k = true -> key ch = None) ->
      s = EmptyString) ->
     Q (buf +:+ s, nk')%string n') ->
  wp (unlock_params c off buf nk) Q n.
Proof.
  intros Hat HQ. unfold unlock_params. apply wp_bind. eapply at_load; [done|]. apply wp_bind.
  assert (Hend : forall n1 (s : string) (nk' : option string), (String.length s <= 1)%nat ->
    ((has off CMODE_k = true -> key ch = None) -> s = EmptyString) ->
    at_chan c (ch{{key := if has off CMODE_k then None else key ch}}) o n0 n1 ->
    wp (if negb (limit ch =? 0) && has off CMODE_l then
          upd_chan c (fun ch => ch{{limit := 0}});; mret ((buf +:+ s) +:+ "l", nk')
        else mret (buf +:+ s, nk')) Q n1).
  { intros n1 s nk' Hs Hk Hat1. destruct (negb (limit ch =? 0) && has off CMODE_l) eqn:Hc.
    - apply andb_prop in Hc as [Hl Hb]. apply wp_bind. eapply at_upd; [done|].
      intros n2 Hat2. apply wp_ret. rewrite str_app_assoc. rewrite Hb in HQ.
      apply HQ; [done|rewrite length_append; simpl; lia|].
      intros H1. rewrite (H1 eq_refl) in Hl. done.
    - apply wp_ret, HQ; [|lia|auto]. destruct (has off CMODE_l); [|done].
      rewrite andb_true_r in Hc. apply negb_false_iff, Z.eqb_eq in Hc. rewrite <- Hc. done. }
  assert (Hid : forall n1, key ch = (if has off CMODE_k then None else key ch) ->
    at_chan c ch o n0 n1 -> at_chan c (ch{{key := if has off CMODE_k then None else key ch}}) o n0 n1).
  { intros n1 <-. by destruct ch. }
  destruct (key ch) as [k0|] eqn:Ek; [destruct (has off CMODE_k) eqn:Hk|].
  - apply wp_bind. eapply at_upd; [done|]. intros n1 Hat1. apply wp_ret.
    apply Hend; [done| |done]. intros Hx. by specialize (Hx eq_refl).
  - apply wp_ret. rewrite <- (str_app_nil buf). apply Hend; [simpl; lia|done|]. by apply Hid.
  - apply wp_ret. rewrite <- (str_app_nil buf). apply Hend; [simpl; lia|done|].
    apply Hid; [by destruct (has off CMODE_k)|done].
Qed.

Lemma ldiff_fix m x : m .&~ x = m -> m .& x = 0.
Proof. intros <-. apply Z.land_ldiff. Qed.

Lemma chan_eta ch : ch{{cmode := cmode ch; limit := limit ch; key := key ch}} = ch.
Proof. by destruct ch. Qed.

Lemma unlock_spec c ch o n0 n i s lim nk (off := col (db (ext n0)) ci_mlock_off 0 i) :
  at_chan c ch o n0 n -> (String.length s <= 12)%nat ->
  wp (unlock c i ("+" +:+ s) lim nk) (fun _ n' => exists o', at_chan c (relax off ch) (o' ++ o) n0 n' /\
    (s = EmptyString -> relax off ch = ch -> o' = [])) n.
Proof.
  intros Hat Hs. unfold unlock. apply wp_bind. eapply at_column; [done|]. fold off.
  apply wp_bind. eapply at_load; [done|]. apply wp_bind. eapply lock_flags_spec; [done|].
  intros n1 Hat1. set (buf := (drop_last_if "+" ("+" +:+ s) +:+ "-")%string).
  destruct (run_letters_buf false mode_letters (cmode ch .& off) buf (cmode ch)) as (s1 & Hb & Hs1).
  assert (Hz : relax off ch = ch -> run_letters false mode_letters (cmode ch .& off) buf (cmode ch) = (buf, cmode ch)).
  { intros Hr. apply run_letters_none. rewrite LOCKABLE_eq, <- Z.land_assoc. apply ldiff_fix.
    exact (f_equal cmode Hr). }
  rewrite Hb. apply wp_bind. eapply unlock_params_spec; [done|]. intros n2 s2 nk' Hat2 Hs2 Hnone.
  assert (Hlen : (String.length (drop_last_if "-" ((buf +:+ s1) +:+ s2)) <= 31)%nat).
  { etransitivity; [apply drop_last_if_length|]. rewrite !length_append. unfold buf.
    rewrite length_append. pose proof (drop_last_if_length "+" ("+" +:+ s)) as Hd.
    rewrite length_append in Hd. simpl in *. lia. }
  apply Nat.ltb_ge in Hlen. rewrite Hlen.
  assert (Hat2' : at_chan c (relax off ch) o n0 n2).
  { destruct Hat2. split; try done. rewrite at_chans0. f_equal. unfold relax. simpl.
    rewrite <- Z.land_assoc. f_equal. apply Z.bits_inj'. intros j Hj.
    rewrite !Z.ldiff_spec, !Z.land_spec. destruct (Z.testbit (cmode ch) j), (Z.testbit off j), (Z.testbit LOCKABLE j); done. }
  destruct (String.eqb_spec (drop_last_if "-" ((buf +:+ s1) +:+ s2)) EmptyString) as [He|He].
  - apply wp_ret. by exists [].
  - unfold lock_send. apply wp_bind. eapply at_load; [done|]. eapply at_emit; [done|].
    intros n3 Hat3. eexists [_]. split; [exact Hat3|]. intros -> Hr. exfalso. apply He.
    assert (Hs1' : s1 = EmptyString).
    { specialize (Hz Hr). rewrite Hz in Hb. simpl in Hb. destruct s1; [done|].
      apply (f_equal String.length) in Hb. rewrite length_append in Hb. simpl in Hb. lia. }
    assert (Hs2' : s2 = EmptyString).
    { apply Hnone; intros Ho.
      - pose proof (f_equal limit Hr) as Hl. simpl in Hl. by rewrite Ho in Hl.
      - pose proof (f_equal key Hr) as Hl. simpl in Hl. by rewrite Ho in Hl. }
    rewrite Hs1', Hs2', !str_app_nil. done.
Qed.

Lemma u32_wrap32 z : u32 (wrap32 z) = u32 z.
Proof.
  unfold u32, wrap32. rewrite Zminus_mod, Zmod_mod, <- Zminus_mod. f_equal. lia.
Qed.

(** The channel after the modes locked on, its key apart. *)
Definition tighten (lk : Mlock) (ch : Channel) : Channel :=
  ch{{cmode := cmode ch .| (l_on lk .& LOCKABLE);
      limit := if l_limit lk =? 0 then limit ch else l_limit lk}}.

Lemma lock_limit_spec c ch o n0 n i buf (lim := col (db (ext n0)) (fun r => u32 (ci_mlock_limit r)) 0 i)
    (Q : string * option Z -> Net E -> Prop) :
  at_chan c ch o n0 n ->
  (forall n' s l, at_chan c (ch{{limit := if lim =? 0 then limit ch else lim}}) o n0 n' ->
     (String.length s <= 1)%nat -> ((if lim =? 0 then limit ch else lim) = limit ch -> s = EmptyString) ->
     Q (buf +:+ s, l)%string n') ->
  wp (lock_limit c i buf) Q n.
Proof.
  intros Hat HQ. unfold lock_limit. apply wp_bind. eapply at_column; [done|]. fold lim.
  apply wp_bind. eapply at_load; [done|].
  assert (Hlim : u32 (wrap32 lim) = lim).
  { rewrite u32_wrap32. unfold lim, col. destruct (channel _ !! i); [apply u32_idemp|done]. }
  destruct (Z.eqb_spec lim 0) as [E0|E0]; simpl.
  - apply wp_ret. rewrite <- (str_app_nil buf). apply HQ; [by destruct ch|simpl; lia|done].
  - destruct (Z.eqb_spec lim (limit ch)) as [E1|E1]; simpl.
    + apply wp_ret. rewrite <- (str_app_nil buf). apply HQ; [|simpl; lia|done]. rewrite E1. by destruct ch.
    + apply wp_bind. eapply at_upd; [done|]. rewrite Hlim. intros n1 Hat1. apply wp_ret.
      apply HQ; [done|done|]. congruence.
Qed.

(** Nothing forces the present key out. *)
Definition key_agrees (lk : Mlock) (ch : Channel) : Prop :=
  l_key lk = EmptyString \/ key ch = None \/ key ch = Some (l_key lk).

Definition set_key (lk : Mlock) (ch : Channel) : Channel :=
  ch{{key := if String.eqb (l_key lk) EmptyString then key ch else Some (l_key lk)}}.

Lemma lock_key_agrees c ch o n0 n i buf (lk := lock_of (db (ext n0)) i)
    (Q : string * option string -> Net E -> Prop) :
  at_chan c ch o n0 n -> key_agrees lk ch ->
  (forall n' s k, at_chan c (set_key lk ch) o n0 n' ->
     (String.length s <= 1)%nat -> (set_key lk ch = ch -> s = EmptyString) ->
     Q (buf +:+ s, k)%string n') ->
  wp (lock_key c i buf) Q n.
Proof.
  intros Hat Hk HQ. unfold lock_key. apply wp_bind. eapply at_column; [done|].
  apply wp_bind. eapply at_load; [done|].
  assert (Hl : forall k, col (db (ext n0)) (fun r => Some (ci_mlock_key r)) None i = Some k -> l_key lk = k).
  { unfold lk, lock_of, col. simpl. destruct (channel _ !! i); simpl; congruence. }
  assert (Hl0 : col (db (ext n0)) (fun r => Some (ci_mlock_key r)) None i = None -> l_key lk = EmptyString).
  { unfold lk, lock_of, col. simpl. by destruct (channel _ !! i). }
  assert (Hsame : l_key lk = EmptyString -> set_key lk ch = ch).
  { intros He. unfold set_key. rewrite He. by destruct ch. }
  destruct (col _ _ None i) as [[|a k]|].
  - apply wp_ret. rewrite <- (str_app_nil buf). apply HQ; [by rewrite Hsame by auto|simpl; lia|done].
  - specialize (Hl _ eq_refl). destruct Hk as [Hk|[Hk|Hk]]; [congruence|..]; rewrite Hk.
    + apply wp_bind. eapply at_upd; [done|]. intros n1 Hat1. apply wp_ret. apply HQ.
      * unfold set_key. rewrite Hl. exact Hat1.
      * done.
      * intros He. apply (f_equal key) in He. unfold set_key in He. rewrite Hl, Hk in He. done.
    + rewrite Hl, String.eqb_refl. apply wp_ret. rewrite <- (str_app_nil buf). apply HQ; [|simpl; lia|done].
      unfold set_key. rewrite Hl. simpl. rewrite <- Hl, <- Hk. by destruct ch.
  - apply wp_ret. rewrite <- (str_app_nil buf). apply HQ; [by rewrite Hsame by auto|simpl; lia|done].
Qed.

Lemma relax_tighten lk ch : relax (l_off lk) (set_key lk (tighten lk ch)) = enforce lk ch.
Proof.
  unfold relax, set_key, tighten, enforce. destruct ch. simpl. f_equal.
Qed.

(** The channel already is as the lock wants it. *)
Definition conforms (lk : Mlock) (ch : Channel) : Prop :=
  tighten lk ch = ch /\ set_key lk ch = ch /\ relax (l_off lk) ch = ch.

Lemma book_tighten lk a b : book a b -> book (tighten lk a) (tighten lk b).
Proof. intros Hb. exact (f_equal (tighten lk) Hb). Qed.
Lemma book_set_key lk a b : book a b -> book (set_key lk a) (set_key lk b).
Proof. intros Hb. exact (f_equal (set_key lk) Hb). Qed.
Lemma book_relax off a b : book a b -> book (relax off a) (relax off b).
Proof. intros Hb. exact (f_equal (relax off) Hb). Qed.
Lemma book_enforce lk a b : book a b -> book (enforce lk a) (enforce lk b).
Proof. intros Hb. exact (f_equal (enforce lk) Hb). Qed.

Lemma land_not_on m on : (Z.lnot m .& on) .& LOCKABLE .| m = m .| (on .& LOCKABLE).
Proof.
  apply Z.bits_inj'. intros j Hj. rewrite !Z.lor_spec, !Z.land_spec, Z.lnot_spec by done.
  destruct (Z.testbit m j), (Z.testbit on j), (Z.testbit LOCKABLE j); done.
Qed.

(** Identity of a phase on the recorded fields passes to channels that differ in
    the counts. *)
Lemma tighten_book lk a b : book a b -> tighten lk b = b -> tighten lk a = a.
Proof.
  intros Hb He. destruct (book_fields _ _ Hb) as (_ & Hm & Hl & _).
  pose proof (f_equal cmode He) as Em. pose proof (f_equal limit He) as El. simpl in Em, El.
  unfold tighten. rewrite Hm, Hl, Em, El, <- Hm, <- Hl. by destruct a.
Qed.

Lemma set_key_book lk a b : book a b -> set_key lk b = b -> set_key lk a = a.
Proof.
  intros Hb He. destruct (book_fields _ _ Hb) as (_ & _ & _ & Hk & _).
  pose proof (f_equal key He) as Ek. simpl in Ek.
  unfold set_key. rewrite Hk, Ek, <- Hk. by destruct a.
Qed.

Lemma relax_book off a b : book a b -> relax off b = b -> relax off a = a.
Proof.
  intros Hb He. destruct (book_fields _ _ Hb) as (_ & Hm & Hl & Hk & _).
  pose proof (f_equal cmode He) as Em. pose proof (f_equal limit He) as El.
  pose proof (f_equal key He) as Ek. simpl in Em, El, Ek.
  unfold relax. rewrite Hm, Hl, Hk, Em, El, Ek, <- Hm, <- Hl, <- Hk. by destruct a.
Qed.

(** [check_modes] up to the key. *)
Lemma body_prefix n c ch chan (lk := lock_of (db (ext n)) (channel_id ch)) (Q : unit -> Net E -> Prop) :
  findchan chan n = Some (c, n) -> c <> NULL -> chans_heap n !! c = Some ch -> bouncy_modes ch = 0 ->
  (forall n3 ch1 s w lim, at_chan c (tighten lk ch1) w n n3 -> book ch1 ch -> no_cmd w ->
     (String.length s <= 11)%nat -> (tighten lk ch = ch -> s = EmptyString) ->
     wp (r ← lock_key c (channel_id ch) ("+" +:+ s);
         let '(newmodes, newkey) := r in unlock c (channel_id ch) newmodes lim newkey) Q n3) ->
  wp (check_modes_body chan) Q n.
Proof.
  intros Hf Hne Hc Hb HQ. unfold check_modes_body. apply wp_bind. eapply wp_intro; [exact Hf|].
  destruct (Z.eqb_spec c NULL) as [|_]; [done|]. apply wp_bind. eapply wp_load_chan; [done|].
  rewrite Hb. simpl. apply wp_bind. eapply lock_count_spec; [by apply at_init|].
  intros n1 ch1 w Hat1 Hbk Hw. rewrite app_nil_r in Hat1.
  destruct (book_fields _ _ Hbk) as (_ & Hm & Hl & Hkey & _).
  apply wp_bind. eapply at_column; [done|]. change (col (db (ext n)) ci_mlock_on 0 (channel_id ch)) with (l_on lk).
  apply wp_bind. eapply lock_flags_spec; [done|]. intros n2 Hat2.
  destruct (run_letters_buf true mode_letters (Z.lnot (cmode ch) .& l_on lk) "+" (cmode ch1)) as (s1 & Hs1 & Hlen1).
  assert (Hs1' : tighten lk ch = ch -> s1 = EmptyString).
  { intros Ht. rewrite run_letters_none in Hs1.
    - destruct s1; [done|discriminate Hs1].
    - rewrite LOCKABLE_eq. assert (Em : cmode ch .| (l_on lk .& LOCKABLE) = cmode ch) by exact (f_equal cmode Ht).
      apply Z.bits_inj'. intros j Hj. apply (f_equal (fun z => Z.testbit z j)) in Em.
      rewrite Z.lor_spec, Z.land_spec in Em. rewrite !Z.land_spec, Z.lnot_spec, Z.bits_0 by done.
      destruct (Z.testbit (cmode ch) j), (Z.testbit (l_on lk) j), (Z.testbit LOCKABLE j); done. }
  rewrite Hs1. apply wp_bind. eapply lock_limit_spec; [done|].
  change (col (db (ext n)) (fun r => u32 (ci_mlock_limit r)) 0 (channel_id ch)) with (l_limit lk).
  simpl set_flag. intros n3 s2 lim Hat3 Hlen2 Hs2.
  assert (Hat3' : at_chan c (tighten lk ch1) w n n3).
  { destruct Hat3. split; try done. rewrite at_chans0. f_equal. unfold tighten. simpl.
    by rewrite <- Hm, Z.lor_comm, land_not_on. }
  cbv beta iota. rewrite str_app_assoc. apply (HQ n3 ch1 (s1 +:+ s2)%string w lim); [done..| |].
  - rewrite length_append. change (length mode_letters) with 10%nat in Hlen1. lia.
  - intros Ht. assert (Ht1 : tighten lk ch1 = ch1) by (by apply (tighten_book lk ch1 ch)).
    by rewrite Hs1', (Hs2 (f_equal limit Ht1)).
Qed.

(** A channel whose key is not in the way. *)
Lemma body_plain n c ch chan (lk := lock_of (db (ext n)) (channel_id ch)) :
  findchan chan n = Some (c, n) -> c <> NULL -> chans_heap n !! c = Some ch ->
  bouncy_modes ch = 0 -> key_agrees lk ch ->
  wp (check_modes_body chan) (fun _ n' => exists ch' o, at_chan c ch' o n n' /\
    book ch' (enforce lk ch) /\ (conforms lk ch -> no_cmd o)) n.
Proof.
  intros Hf Hne Hc Hb Hk. eapply body_prefix; [done..|]. fold lk.
  intros n3 ch1 s w lim Hat3 Hbk Hw Hlen Hs.
  apply wp_bind. eapply lock_key_agrees; [exact Hat3| |].
  { destruct (book_fields _ _ Hbk) as (_ & _ & _ & Hkey & _). unfold key_agrees. simpl. by rewrite Hkey. }
  fold lk. intros n4 s3 nk Hat4 Hlen3 Hs3. cbv beta iota. rewrite str_app_assoc.
  eapply wp_mono; [eapply unlock_spec; [exact Hat4|rewrite length_append; lia]|].
  intros [] n5 (o' & Hat5 & Ho'). eexists _, (o' ++ w). split; [exact Hat5|].
  change (col (db (ext n)) ci_mlock_off 0 (channel_id ch)) with (l_off lk) in *.
  rewrite relax_tighten. split; [by apply book_enforce|].
  intros (Ht & Hsk & Hr).
  assert (Ht1 : tighten lk ch1 = ch1) by (by apply (tighten_book lk ch1 ch)).
  assert (Hk1 : set_key lk ch1 = ch1) by (by apply (set_key_book lk ch1 ch)).
  assert (Hr1 : relax (l_off lk) ch1 = ch1) by (by apply (relax_book (l_off lk) ch1 ch)).
  rewrite Ht1 in Hs3, Ho'. rewrite Hk1 in Hs3, Ho'. rewrite Ho'; [done| |done]. by rewrite Hs, Hs3.
Qed.
End Enforce.

(** A channel found by some name is found by its own. *)
Lemma findchan_own {E} (n : Net E) chan c ch :
  heap_ok (graph_of n) -> no_nul chan = true -> findchan chan n = Some (c, n) -> c <> NULL ->
  chans_heap n !! c = Some ch -> findchan (name ch) n = Some (c, n).
Proof.
  intros Hg Hnul Hf Hne Hc. rewrite findchan_det in Hf by done. rewrite findchan_det by done. injection Hf as Hf.
  do 2 f_equal. rewrite <- Hf.
  assert (Hnm : forall q w, g_chans (graph_of n) !! q = Some w -> no_nul (w_name w) = true)
    by (intros q w; apply (ho_name _ Hg)).
  assert (Hch : no_nul (name ch) = true) by (apply (Hnm c (chan_view ch)), graph_chan; eauto).
  assert (Heq : strlower (name ch) = strlower chan).
  { pose proof (g_findchan_found n chan Hg Hnul) as Hfd. rewrite Hf in Hfd.
    destruct (chan_found_chan _ _ _ Hfd Hne) as (ch' & Hc' & Hs). simplify_eq.
    by apply irc_stricmp_0. }
  unfold g_findchan. rewrite (chan_HASH_eq (name ch) chan); [|done|done|by apply irc_stricmp_0].
  f_equal. apply find_first_ext. intros q. destruct (g_chans (graph_of n) !! q) as [w|] eqn:E'; [|done].
  apply Bool.eq_true_iff_eq. rewrite !Z.eqb_eq, !irc_stricmp_0 by eauto. by rewrite Heq.
Qed.

Lemma findchan_at {E} (n0 n1 : Net E) chan c ch0 ch o :
  heap_ok (graph_of n0) -> no_nul chan = true -> findchan chan n0 = Some (c, n0) -> c <> NULL ->
  chans_heap n0 !! c = Some ch0 -> at_chan c ch o n0 n1 -> chan_view ch = chan_view ch0 ->
  findchan (name ch0) n1 = Some (c, n1).
Proof.
  intros Hg Hnul Hf Hne Hc Hat Hv. pose proof (at_graph _ _ _ _ _ _ Hc Hv Hat) as Hgr.
  pose proof (findchan_own n0 chan c ch0 Hg Hnul Hf Hne Hc) as Ho.
  rewrite findchan_det in Ho by done. injection Ho as Ho.
  rewrite findchan_det by (by rewrite Hgr). by rewrite Hgr, Ho.
Qed.

(** ** do_cmode as ChanServ calls it *)
Section OwnModes.
Context `{Conf} {E : Type} `{!ModeServ E}.
Implicit Types (n : Net E).

Lemma count_server_spec source c s ch o n0 n (Q : unit -> Net E -> Prop) :
  at_chan c ch o n0 n ->
  (forall n' ch', at_chan c ch' o n0 n' -> book ch' ch -> Q tt n') ->
  wp (count_server_modes source c s) Q n.
Proof.
  intros Hat HQ. unfold count_server_modes. apply wp_when; intros _; [|by eapply HQ].
  apply wp_bind, wp_gets, wp_bind, wp_gets, wp_bind. eapply at_load; [done|].
  assert (Hk : forall n' ch', at_chan c ch' o n0 n' -> book ch' ch ->
    wp (upd_chan c (fun ch => ch{{server_modecount ::= fun k => wrap16 (k + 1)}})) Q n').
  { intros n1 ch1 Hat1 Hb. eapply at_upd; [done|]. intros n2 Hat2. eapply HQ; [done|]. exact Hb. }
  apply wp_bind, wp_when; intros _; [|by eapply Hk].
  apply wp_bind. eapply at_upd; [done|]. intros n1 Hat1. apply wp_modify.
  eapply (Hk _ (ch{{server_modecount := 0; server_modetime := now n}})); [|done]. destruct Hat1. by split.
Qed.

Lemma do_cmode_del_key source chan c ch o n0 n k (Q : unit -> Net E -> Prop) :
  at_chan c ch o n0 n -> findchan chan n = Some (c, n) -> c <> NULL ->
  (forall n' ch', at_chan c ch' o n0 n' -> book ch' (ch{{key := None}}) ->
     wp (Interfaces.check_modes (name ch)) Q n') ->
  wp (do_cmode source 3 chan "-k" [k]) Q n.
Proof.
  intros Hat Hf Hne HQ. unfold do_cmode. apply wp_bind. eapply wp_intro; [exact Hf|].
  destruct (Z.eqb_spec c NULL) as [|_]; [done|]. apply wp_bind. eapply count_server_spec; [done|].
  intros n1 ch1 Hat1 Hb1. apply wp_bind.
  change (wp (st' ← cmode_key (E := E) c (mkMState false 1 [k]); mret tt)
    (fun _ n => wp (ch ← load_chan c; Interfaces.check_modes (name ch)) Q n) n1).
  unfold cmode_key. apply wp_bind. simpl. apply wp_bind. eapply at_upd; [done|]. intros n2 Hat2. apply wp_ret.
  apply wp_ret. apply wp_bind. eapply at_load; [done|].
  destruct (book_fields _ _ Hb1) as (Hnm & _). simpl. rewrite Hnm. eapply HQ; [done|].
  exact (f_equal (fun ch => ch{{key := None}}) Hb1).
Qed.

Lemma do_cmode_add_ban source chan c ch o n0 n m (Q : unit -> Net E -> Prop) :
  at_chan c ch o n0 n -> findchan chan n = Some (c, n) -> c <> NULL ->
  (forall n' ch' sz, at_chan c ch' o n0 n' ->
     book ch' (ch{{bansize := sz; newbans := newbans ch ++ [mkBan m (now n0)] }}) ->
     wp (Interfaces.check_modes (name ch)) Q n') ->
  wp (do_cmode source 3 chan "+b" [m]) Q n.
Proof.
  intros Hat Hf Hne HQ. unfold do_cmode. apply wp_bind. eapply wp_intro; [exact Hf|].
  destruct (Z.eqb_spec c NULL) as [|_]; [done|]. apply wp_bind. eapply count_server_spec; [done|].
  intros n1 ch1 Hat1 Hb1. apply wp_bind.
  change (wp (st' ← cmode_ban (E := E) c (mkMState true 1 [m]); mret tt)
    (fun _ n => wp (ch ← load_chan c; Interfaces.check_modes (name ch)) Q n) n1).
  unfold cmode_ban, add_ban. apply wp_bind. simpl. apply wp_bind, wp_ret, wp_bind, wp_bind, wp_gets.
  eapply at_upd; [done|]. intros n2 Hat2. apply wp_ret. apply wp_ret. apply wp_bind.
  eapply at_load; [done|]. destruct (book_fields _ _ Hb1) as (Hnm & _). simpl. rewrite Hnm.
  rewrite (at_now _ _ _ _ _ Hat1) in Hat2.
  set (sz := if bansize ch1 <=? Z.of_nat (length (newbans ch1)) then bansize ch1 + 8 else bansize ch1) in Hat2.
  apply (HQ _ _ sz Hat2).
  pose proof (f_equal (fun a => a{{bansize := sz; newbans := newbans a ++ [mkBan m (now n0)] }}) Hb1) as Hb2.
  unfold book. etransitivity; [|etransitivity; [exact Hb2|]].
  - reflexivity.
  - reflexivity.
Qed.
End OwnModes.

(** ** check_modes *)
Section CheckModesSpec.
Context `{Conf} {E : Type} `{!ChanDB E} `{!NickServ E}.
Implicit Types (n : Net E).

Lemma set_key_idem lk k ch : l_key lk <> EmptyString ->
  (set_key lk (ch{{key := k}})) = (ch{{key := Some (l_key lk)}}).
Proof. intros Hl. unfold set_key. destruct (String.eqb_spec (l_key lk) EmptyString); done. Qed.

Lemma book_key a b k : book a b -> book (a{{key := k}}) (b{{key := k}}).
Proof.
  intros Hb. pose proof (f_equal (fun a => a{{key := k}}) Hb) as Hb2.
  unfold book. etransitivity; [|etransitivity; [exact Hb2|]]; reflexivity.
Qed.

Lemma enforce_twice lk ch : l_key lk <> EmptyString ->
  relax (l_off lk) ((enforce lk ((tighten lk ch){{key := None}})){{key := Some (l_key lk)}}) = enforce lk ch.
Proof.
  intros Hl. unfold relax, enforce, tighten.
  destruct (String.eqb_spec (l_key lk) EmptyString) as [|_]; [done|]. simpl. f_equal.
  - apply Z.bits_inj'. intros j Hj.
    repeat (rewrite Z.ldiff_spec || rewrite Z.lor_spec || rewrite Z.land_spec).
    destruct (Z.testbit (cmode ch) j), (Z.testbit (l_on lk) j), (Z.testbit (l_off lk) j),
      (Z.testbit LOCKABLE j); done.
  - destruct (has (l_off lk) CMODE_l); [done|]. by destruct (Z.eqb_spec (l_limit lk) 0).
Qed.

(** The wrong key is removed first: that runs [check_modes] on a channel
    without a key, and the rest of the outer check finds little to do. *)
Lemma body_wrong_key d n c ch chan k0 (lk := lock_of (db (ext n)) (channel_id ch)) :
  heap_ok (graph_of n) -> no_nul chan = true ->
  findchan chan n = Some (c, n) -> c <> NULL -> chans_heap n !! c = Some ch ->
  bouncy_modes ch = 0 -> key ch = Some k0 -> l_key lk <> EmptyString -> k0 <> l_key lk ->
  wp (check_modes (S (S d)) chan) (fun _ n' => exists ch' o, at_chan c ch' o n n' /\
    book ch' (enforce lk ch)) n.
Proof.
  intros Hg Hnul Hf Hne Hc Hb Hk Hl Hk0. simpl. eapply body_prefix; [done..|]. fold lk.
  intros n3 ch1 s w lim Hat3 Hbk _ Hlen _.
  destruct (book_fields _ _ Hbk) as (Hnm & _ & _ & Hkey & Hid & Hbm & _).
  assert (Hv1 : chan_view ch1 = chan_view ch) by by apply book_view.
  apply wp_bind. unfold lock_key. apply wp_bind. eapply at_column; [exact Hat3|].
  apply wp_bind. eapply at_load; [exact Hat3|].
  assert (Hkk : exists a k, col (db (ext n)) (fun r => Some (ci_mlock_key r)) None (channel_id ch) =
    Some (String a k) /\ l_key lk = String a k).
  { unfold lk, lock_of, col in *. simpl in *. destruct (channel _ !! _) as [r|]; [|done].
    destruct (ci_mlock_key r) as [|a k]; [done|eauto]. }
  destruct Hkk as (a & k & -> & Hlk). simpl key. rewrite Hkey, Hk.
  destruct (String.eqb_spec k0 (String a k)) as [E0|_]; [congruence|].
  apply wp_bind. eapply at_emit; [exact Hat3|]. intros n4 Hat4. apply wp_bind.
  simpl name. change (name ch1) with (name (tighten lk ch1)).
  eapply do_cmode_del_key; [exact Hat4| |done|].
  { simpl name. rewrite Hnm. eapply findchan_at; [exact Hg|exact Hnul|done|done|exact Hc|exact Hat4|done]. }
  intros n5 ch5 Hat5 Hb5. simpl name. rewrite Hnm.
  assert (Hv5 : chan_view ch5 = chan_view ch) by (rewrite (book_view _ _ Hb5); done).
  destruct (book_fields _ _ Hb5) as (_ & _ & _ & Hk5 & Hid5 & Hbm5 & _). simpl in Hk5, Hid5, Hbm5.
  assert (Hlk5 : lock_of (db (ext n5)) (channel_id ch5) = lk)
    by (rewrite (at_ext _ _ _ _ _ Hat5), Hid5, Hid; done).
  simpl Interfaces.check_modes.
  eapply wp_mono; [eapply body_plain; [eapply findchan_at; [exact Hg|exact Hnul|done|done|exact Hc|exact Hat5|done]|done|by eapply at_lookup
    |congruence|rewrite Hlk5; right; by left]|].
  intros [] n6 (ch6 & o6 & Hat6' & Hb6 & _). rewrite Hlk5 in Hb6.
  pose proof (at_trans _ _ _ _ _ _ _ _ Hat5 Hat6') as Hat6.
  apply wp_bind. eapply at_upd; [exact Hat6|]. intros n7 Hat7. apply wp_ret. cbv beta iota.
  rewrite str_app_assoc. eapply wp_mono; [eapply unlock_spec; [exact Hat7|rewrite length_append; simpl; lia]|].
  intros [] n8 (o8 & Hat8 & _). eexists _, _. split; [exact Hat8|].
  change (col (db (ext n)) ci_mlock_off 0 (channel_id ch)) with (l_off lk). rewrite <- Hlk.
  transitivity (relax (l_off lk) ((enforce lk ((tighten lk ch){{key := None}})){{key := Some (l_key lk)}})).
  { apply book_relax. assert (Hbb : book ch6 (enforce lk ((tighten lk ch){{key := None}}))).
    { etransitivity; [exact Hb6|]. apply book_enforce. etransitivity; [exact Hb5|].
      by apply book_key, book_tighten. }
    by apply book_key. }
  by rewrite enforce_twice.
Qed.

Lemma check_modes_run d n c ch chan (lk := lock_of (db (ext n)) (channel_id ch)) :
  heap_ok (graph_of n) -> no_nul chan = true -> findchan chan n = Some (c, n) -> c <> NULL ->
  chans_heap n !! c = Some ch -> bouncy_modes ch = 0 ->
  wp (check_modes (S (S d)) chan) (fun _ n' => exists ch' o, at_chan c ch' o n n' /\
    book ch' (enforce lk ch) /\ (conforms lk ch -> no_cmd o)) n.
Proof.
  intros Hg Hnul Hf Hne Hc Hb.
  destruct (key ch) as [k0|] eqn:Hk.
  - destruct (decide (l_key lk = EmptyString \/ k0 = l_key lk)) as [Hd|Hd].
    + apply body_plain; try done. destruct Hd as [Hd| ->]; [by left|by right; right].
    + eapply wp_mono; [apply (body_wrong_key d n c ch chan k0); naive_solver|].
      intros [] n' (ch' & o & Hat & Hbk). exists ch', o. split; [done|]. split; [done|].
      intros (_ & Hs & _). apply (f_equal key) in Hs. unfold set_key in Hs. simpl in Hs. exfalso. apply Hd.
      change (col (db (ext n)) ci_mlock_key EmptyString (channel_id ch)) with (l_key lk) in Hs.
      rewrite Hk in Hs. destruct (String.eqb_spec (l_key lk) EmptyString); [by left|right; congruence].
  - apply body_plain; try done. by right; left.
Qed.

Lemma check_modes_other d n c ch chan :
  findchan chan n = Some (c, n) ->
  (c = NULL \/ (chans_heap n !! c = Some ch /\ bouncy_modes ch <> 0)) ->
  check_modes (S d) chan n = Some (tt, n).
Proof.
  intros Hf Hc. simpl. unfold check_modes_body, mbind, M_bind. rewrite Hf.
  destruct Hc as [->|[Hc Hb]]; [done|]. destruct (Z.eqb_spec c NULL); [done|].
  unfold load_chan. rewrite Hc. by destruct (Z.eqb_spec (bouncy_modes ch) 0).
Qed.

Lemma check_modes_keeps d chan n : heap_ok (graph_of n) -> no_nul chan = true ->
  wp (check_modes (E := E) (S (S d)) chan)
    (fun _ n' => graph_of n' = graph_of n /\ ext n' = ext n) n.
Proof.
  intros Hg Hnul. pose proof (findchan_det n chan Hg) as Hf.
  pose proof (g_findchan_found n chan Hg Hnul) as Hfd.
  destruct (Z.eqb_spec (g_findchan (graph_of n) chan) NULL) as [E0|Hne].
  - eapply wp_intro; [|done]. by apply (check_modes_other (S d) n _ (empty_channel "") chan Hf); left.
  - destruct (chan_found_chan _ _ _ Hfd Hne) as (ch & Hc & _).
    destruct (Z.eqb_spec (bouncy_modes ch) 0) as [Hb|Hb].
    + eapply wp_mono; [by eapply check_modes_run|]. intros [] n' (ch' & o & Hat & Hbk & _).
      split; [|by apply (at_ext _ _ _ _ _ Hat)].
      eapply at_graph; [done| |done]. by rewrite (book_view _ _ Hbk).
    + by eapply wp_intro; [eapply check_modes_other; [done|right; eauto]|].
Qed.

Lemma check_modes_bans d n chan c ch : heap_ok (graph_of n) -> no_nul chan = true ->
  findchan chan n = Some (c, n) -> c <> NULL -> chans_heap n !! c = Some ch ->
  wp (check_modes (E := E) (S (S d)) chan) (fun _ n' => users_heap n' = users_heap n /\
    exists ch', chans_heap n' !! c = Some ch' /\ newbans ch' = newbans ch) n.
Proof.
  intros Hg Hnul Hf Hne Hc. destruct (Z.eqb_spec (bouncy_modes ch) 0) as [Hb|Hb].
  - eapply wp_mono; [by eapply check_modes_run|]. intros [] n' (ch' & o & Hat & Hbk & _).
    split; [by apply (at_users _ _ _ _ _ Hat)|]. exists ch'. split; [by eapply at_lookup|].
    by destruct (book_fields _ _ Hbk) as (_ & _ & _ & _ & _ & _ & ->).
  - eapply wp_intro; [eapply check_modes_other; [done|right; eauto]|]. split; [done|]. eauto.
Qed.

Lemma check_modes_framed d chan : no_nul chan = true -> framed (E := E) (check_modes (S (S d)) chan).
Proof. intros Hnul n Hg. eapply wp_mono; [by apply check_modes_keeps|]. by intros [] n' [? _]. Qed.
End CheckModesSpec.

(** ** The laws of the interface *)
Section Laws.
Context `{Conf} {E : Type} `{!ChanDB E} `{!NickServ E} `{!NickServLaws E}.
Implicit Types (n : Net E).

Lemma framed_user_load_host {A} p (k : User -> M (Net E) A) :
  (forall u, host_ok (host u) = true -> framed_user p (k u)) -> framed_user p (u ← load_user p; k u).
Proof.
  intros Hk n Hg [u Hu]. apply wp_bind. eapply wp_load_user; [done|]. apply Hk; [|done|eauto].
  apply (ho_host _ Hg p (user_view u)). apply graph_user. eauto.
Qed.

Lemma framed_make_mask p u : host_ok (host u) = true -> framed_user (E := E) p (make_mask u).
Proof. intros Hh. unfold make_mask. destruct (create_mask_total u Hh) as [m ->]. apply framed_user_ret. Qed.

Lemma framed_kick_verdict p chan : framed_user (E := E) p (kick_verdict p chan).
Proof.
  unfold kick_verdict, mysql_findchanflags, find_akick, update_akick_last_used.
  pose proof (framed_is_priv (E := E) p). pose proof (framed_check_access (E := E) p).
  apply framed_user_bind; [solve_framed|]. intros [i flags]. destruct (i =? 0); [solve_framed|].
  apply framed_user_bind; [solve_framed|]. intros []; [solve_framed|].
  apply framed_user_load_host. intros u Hu. pose proof (framed_make_mask p u Hu). solve_framed.
Qed.

Lemma do_cmode_ban_framed p chan m : no_nul chan = true ->
  framed_user (E := E) p (do_cmode (ModeServ0 := modeserv) s_ChanServ 3 chan "+b" [m]).
Proof.
  intros Hnul n Hg _. pose proof (findchan_det n chan Hg) as Hf.
  pose proof (g_findchan_found n chan Hg Hnul) as Hfd.
  destruct (Z.eqb_spec (g_findchan (graph_of n) chan) NULL) as [E0|Hne].
  - unfold do_cmode. apply wp_bind. eapply wp_intro; [exact Hf|]. by rewrite E0.
  - destruct (chan_found_chan _ _ _ Hfd Hne) as (ch & Hc & _).
    eapply do_cmode_add_ban; [by apply at_init|exact Hf|done|].
    intros n1 ch1 sz Hat Hbk.
    assert (Hgr : graph_of n1 = graph_of n).
    { eapply at_graph; [exact Hc| |exact Hat]. by rewrite (book_view _ _ Hbk). }
    eapply wp_mono; [apply (check_modes_framed 0); [|by rewrite Hgr]|].
    + apply (ho_name _ Hg (g_findchan (graph_of n) chan) (chan_view ch)). apply graph_chan. eauto.
    + intros [] n2 ->. done.
Qed.

Lemma framed_check_kick p chan : no_nul chan = true -> framed_user (E := E) p (check_kick p chan).
Proof.
  intros Hnul. unfold check_kick, kickban, send_cmd.
  pose proof (framed_kick_verdict p chan). pose proof (fun m => do_cmode_ban_framed p chan m Hnul).
  assert (framed_user (E := E) p (findchan chan)).
  { intros n Hg _. by eapply wp_intro; [by apply findchan_det|]. }
  solve_framed.
Qed.

Lemma ext_only_gets {A} (f : Net E -> A) : ext_only (gets f).
Proof. intros n. apply wp_gets. exists (ext n). by destruct n. Qed.

Lemma ext_only_update i f : ext_only (E := E) (update_channel i f).
Proof. intros n. by eexists. Qed.

Lemma topic_row_flags n i fl (Q : option (string * string * Z) -> Net E -> Prop) :
  has (col (db (ext n)) ci_flags 0 i) fl = true ->
  (forall r, Q (Some r) n) -> wp (topic_row i) Q n.
Proof.
  intros Hf HQ. unfold topic_row, column. apply wp_gets. unfold col in Hf.
  destruct (channel _ !! i); [apply HQ|]. done.
Qed.

(** [findchan] and the channel it finds. *)
Lemma wp_found n chan (Q : ptr -> Net E -> Prop) :
  heap_ok (graph_of n) -> no_nul chan = true -> Q NULL n ->
  (forall c ch, findchan chan n = Some (c, n) -> c <> NULL -> chans_heap n !! c = Some ch -> Q c n) ->
  wp (findchan chan) Q n.
Proof.
  intros Hg Hnul H0 H1. eapply wp_intro; [by apply findchan_det|].
  pose proof (g_findchan_found n chan Hg Hnul) as Hfd.
  destruct (Z.eqb_spec (g_findchan (graph_of n) chan) NULL) as [->|Hne]; [done|].
  destruct (chan_found_chan _ _ _ Hfd Hne) as (ch & Hc & _).
  eapply H1; [by apply findchan_det|done|done].
Qed.

Lemma record_topic_framed chan : no_nul chan = true -> framed (E := E) (record_topic chan).
Proof.
  intros Hnul n Hg. unfold record_topic. apply wp_bind. apply wp_found; [done|done|done|].
  intros c ch _ Hne Hc. destruct (Z.eqb_spec c NULL) as [|_]; [done|].
  apply wp_bind. eapply wp_load_chan; [done|]. by apply wp_when; intros _.
Qed.

Lemma restore_topic_framed chan : no_nul chan = true -> framed (E := E) (restore_topic chan).
Proof.
  intros Hnul n Hg. unfold restore_topic. apply wp_bind. apply wp_found; [done|done|done|].
  intros c ch _ Hne Hc. destruct (Z.eqb_spec c NULL) as [|_]; [done|].
  apply wp_bind. eapply wp_load_chan; [done|]. apply wp_bind, wp_gets. destruct (_ || _); [done|].
  apply wp_bind, wp_gets, wp_bind. eapply at_upd; [by apply at_init|]. intros n1 Hat1.
  apply wp_bind, wp_gets, wp_bind. eapply at_upd; [done|]. intros n2 Hat2.
  apply wp_bind. eapply at_load; [done|].
  assert (Hgr : graph_of n2 = graph_of n).
  { eapply at_graph; [done| |done]. repeat case_match; done. }
  destruct (topic _); [|done]. unfold send_cmd. apply wp_modify. done.
Qed.

Lemma check_topiclock_framed `{!NickView E} chan setter c n :
  heap_ok (graph_of n) -> is_Some (chans_heap n !! c) ->
  wp (check_topiclock (E := E) chan setter c) (fun _ n' => graph_of n' = graph_of n) n.
Proof.
  intros Hg [ch Hc]. unfold check_topiclock. destruct (Z.eqb_spec c NULL); [done|].
  apply wp_bind. eapply wp_load_chan; [done|]. apply wp_bind, wp_gets.
  destruct (_ || negb _) eqn:Hlock; [done|].
  apply orb_false_iff in Hlock as [_ Hlock]. apply negb_false_iff in Hlock.
  apply wp_bind. eapply wp_intro; [by apply finduser_det|]. apply wp_bind.
  set (u := g_finduser (graph_of n) setter).
  apply (wp_mono _ (fun _ n' => quiet n n')).
  { destruct (Z.eqb_spec u NULL) as [|Hu]; [apply wp_ret, quiet_refl|].
    destruct (g_finduser_some (graph_of n) setter Hu) as [v Hv]. fold u in Hv.
    apply graph_user in Hv as (us & Hus & _). apply wp_bind. eapply wp_load_user; [done|].
    destruct (nick_id us =? 0); [apply wp_ret, quiet_refl|].
    eapply wp_mono; [by apply query_check_access|]. by intros b n' [_ Hq]. }
  intros allowed n1 Hq. pose proof (quiet_graph _ _ Hq) as Hg1. destruct allowed; [done|].
  apply wp_bind. eapply (topic_row_flags _ _ CI_TOPICLOCK); [by rewrite (quiet_db _ _ Hq)|].
  intros [[tp st] tm]. destruct (chan_of_graph n n1 c Hg1 ltac:(eauto)) as [ch1 Hc1].
  apply wp_bind. eapply at_upd; [by apply at_init|]. intros n2 Hat2.
  apply wp_bind, wp_gets, wp_bind. eapply at_upd; [done|]. intros n3 Hat3.
  apply wp_bind. eapply at_load; [done|]. apply wp_bind. unfold send_cmd. apply wp_modify, wp_ret.
  rewrite <- Hg1. change (graph_of n3 = graph_of n1). eapply (at_graph c _ ch1 _ n1 n3); [exact Hc1| |exact Hat3]. done.
Qed.
End Laws.

(** The network code may rely on this ChanServ. *)
#[export] Instance chanserv_laws `{Conf} {E} `{!ChanDB E} `{!NickServ E} `{!NickServLaws E}
  `{!NickView E} : ChanServLaws E.
Proof.
  split; intros; try apply ext_only_gets; try (by apply (check_modes_framed 0)); simpl; auto using ext_only_update,
    restore_topic_framed, record_topic_framed, check_topiclock_framed, framed_check_valid_op,
    framed_check_should_op, framed_check_should_voice, framed_check_kick, framed_check_chan_memos.
Qed.

(** ** Status and kicks, as the tables have it *)

(** Since [n] the messages [o] were sent; the tables are as they were. *)
Definition sent {E} `{!ChanDB E} (o : list Msg) (n n' : Net E) : Prop :=
  exists e, n' = n{{ext := e; out := o ++ out n}} /\ db e = db (ext n).

Section StatusSpec.
Context `{Conf} {E : Type} `{!ChanDB E} `{!NickServ E} `{!NickView E}.
Implicit Types (n : Net E) (d : DB) (u : User).

Definition named_flags d (chan : string) : Z * Z :=
  match channel_named d chan with
  | Some i => match channel d !! i with Some r => (i, ci_flags r) | None => (0, 0) end
  | None => (0, 0)
  end.

Definition oper_nick n (nk : string) : bool :=
  match users_heap n !! g_finduser (graph_of n) nk with Some v => has (mode v) UMODE_o | None => false end.

Lemma sent_quiet n n1 n2 : quiet n n1 -> quiet n1 n2 -> sent [] n n2.
Proof. intros H1 H2. destruct (quiet_trans _ _ _ H1 H2) as (e & -> & He). by exists e. Qed.

Lemma sent_nil n n' : quiet n n' -> sent [] n n'.
Proof. intros (e & -> & He). by exists e. Qed.

Lemma quiet_heap n n' : quiet n n' -> heap_ok (graph_of n) -> heap_ok (graph_of n').
Proof. intros Hq. by rewrite (quiet_graph _ _ Hq). Qed.

Lemma wp_quiet {A} n n1 (m : M (Net E) A) a (Q : A -> Net E -> Prop) :
  quiet n n1 -> query n1 m a -> (forall n', quiet n n' -> Q a n') -> wp m Q n1.
Proof.
  intros Hq Hm HQ. eapply wp_mono; [apply Hm|]. intros b n2 [-> Hq2]. apply HQ. by eapply quiet_trans.
Qed.

Lemma query_flags n chan : query n (mysql_findchanflags chan) (named_flags (db (ext n)) chan).
Proof. by apply query_gets. Qed.

Lemma query_is_oper n nk : heap_ok (graph_of n) -> query n (is_oper nk) (oper_nick n nk).
Proof.
  intros Hg. unfold is_oper, oper_nick. apply wp_bind. eapply wp_intro; [by apply finduser_det|].
  destruct (Z.eqb_spec (g_finduser (graph_of n) nk) NULL) as [E0|Hne].
  - apply wp_ret. split; [|apply quiet_refl]. rewrite E0.
    destruct (users_heap n !! NULL) as [v|] eqn:Hv; [|done]. by apply (user_addr _ _ _ Hg) in Hv.
  - apply g_finduser_some, is_Some_graph_user in Hne as [v Hv]. apply wp_bind.
    eapply wp_load_user; [done|]. apply wp_ret. rewrite Hv. split; [done|apply quiet_refl].
Qed.

Definition privileged n u : bool := oper_nick n (nick u) || services_admin (db (ext n)) u.

Lemma query_is_priv n p u : heap_ok (graph_of n) -> users_heap n !! p = Some u ->
  query n (is_priv p) (privileged n u).
Proof.
  intros Hg Hu. eapply query_bind; [by apply query_load|]. intros n1 H1.
  eapply query_bind; [by apply query_is_oper, (quiet_heap n)|]. intros n2 H2.
  assert (Ho : oper_nick n1 (nick u) = oper_nick n (nick u)).
  { unfold oper_nick. by rewrite (quiet_users _ _ H1), (quiet_graph _ _ H1). }
  unfold privileged. rewrite Ho. destruct (oper_nick n (nick u)); simpl; [apply query_ret|].
  rewrite <- (quiet_db _ _ H1), <- (quiet_db _ _ H2). apply law_admin.
  by rewrite (quiet_users _ _ H2), (quiet_users _ _ H1).
Qed.
(** The channel on which [chan]'s users may get a status, by the tables. *)
Definition status_id d u (chan : string) : option Z :=
  let '(i, flags) := named_flags d chan in
  if Ascii.eqb (hd_char chan) "+" || Ascii.eqb (hd_char chan) "&" then None
  else if (i =? 0) || has flags CI_VERBOTEN then None
  else if has flags CI_SECURE && negb (identified d u) then None
  else Some i.

Lemma query_status_channel n p u chan : users_heap n !! p = Some u ->
  query n (status_channel p chan) (status_id (db (ext n)) u chan).
Proof.
  intros Hu. unfold status_channel, status_id.
  destruct (named_flags (db (ext n)) chan) as [i flags] eqn:Hf. destruct (_ || Ascii.eqb _ "&"); [apply query_ret|].
  eapply query_bind; [apply query_flags|]. rewrite Hf. intros n1 H1.
  destruct (_ || _); [apply query_ret|]. destruct (has flags CI_SECURE); simpl; [|apply query_ret].
  eapply query_bind; [by apply query_nick_has; rewrite (quiet_users _ _ H1)|]. rewrite (quiet_db _ _ H1).
  intros n2 H2. unfold identified. destruct (_ && _); apply query_ret.
Qed.

Lemma query_chan_level n i what : query n (get_chan_level i what) (ability_level (db (ext n)) i what).
Proof. by apply query_gets. Qed.

Lemma sent_emit n n1 m (Q : unit -> Net E -> Prop) :
  quiet n n1 -> (forall n', sent [m] n n' -> Q tt n') -> wp (emit m) Q n1.
Proof. intros (e & -> & He) HQ. apply wp_modify, HQ. by exists e. Qed.

Lemma sent_touch o n n1 t i (Q : unit -> Net E -> Prop) :
  sent o n n1 -> (forall n', sent o n n' -> Q tt n') ->
  wp (modify (fun n => n{{ext ::= touch t i (now n)}})) Q n1.
Proof.
  intros (e & -> & He) HQ. apply wp_modify, HQ. exists (touch t i (now n) e). by rewrite db_touch.
Qed.
Definition should_op d u (chan : string) : bool :=
  match status_id d u chan with
  | Some i => permits d u i CA_AUTOOP && (0 <? ability_level d i CA_AUTOOP)
  | None => false
  end.

Definition mode_cmd (chan md : string) u : Msg :=
  Cmd (Some s_ChanServ) ("MODE " +:+ chan +:+ md +:+ nick u).

Lemma check_should_op_run n p u chan : users_heap n !! p = Some u ->
  wp (check_should_op p chan) (fun b n' => b = should_op (db (ext n)) u chan /\
    sent (if b then [mode_cmd chan " +o " u] else []) n n') n.
Proof.
  intros Hu. unfold check_should_op, should_op. set (d := db (ext n)).
  assert (Hus : forall n', quiet n n' -> users_heap n' !! p = Some u) by (intros n' Hq; by rewrite (quiet_users _ _ Hq)).
  apply wp_bind. eapply wp_quiet; [apply quiet_refl|by apply query_status_channel|]. intros n1 H1. fold d.
  destruct (status_id d u chan) as [i|]; [|apply wp_ret; split; [done|by apply sent_nil]].
  apply wp_bind. eapply wp_quiet; [done|by apply query_check_access, Hus|]. rewrite (quiet_db _ _ H1). fold d.
  intros n2 H2. destruct (permits d u i CA_AUTOOP); simpl.
  - apply wp_bind. eapply wp_quiet; [done|apply query_chan_level|]. rewrite (quiet_db _ _ H2). fold d.
    intros n3 H3. destruct (0 <? ability_level d i CA_AUTOOP).
    + apply wp_bind. eapply wp_load_user; [by apply Hus|]. apply wp_bind. eapply sent_emit; [done|].
      intros n4 H4. apply wp_bind. eapply sent_touch; [done|]. intros n5 H5. by apply wp_ret.
    + apply wp_bind. eapply sent_touch; [by apply sent_nil|]. intros n4 H4. by apply wp_ret.
  - apply wp_bind. eapply wp_quiet; [done|by apply query_get_access, Hus|]. intros n3 H3. apply wp_bind.
    apply wp_when; intros _; [|apply wp_ret; split; [done|by apply sent_nil]].
    eapply sent_touch; [by apply sent_nil|]. intros n4 H4. by apply wp_ret.
Qed.

Definition valid_op n u (chan : string) (serverop : bool) : bool :=
  let d := db (ext n) in
  let '(i, flags) := named_flags d chan in
  (i =? 0) || has flags CI_LEAVEOPS || CSOpOper && privileged n u ||
  negb (has flags CI_VERBOTEN) &&
  negb (serverop && (CSRestrictDelay <=? now n - start_time) && negb (permits d u i CA_AUTOOP)) &&
  negb (permits d u i CA_AUTODEOP).

(** Deopped: the MODE -o is the last message, after replies only. *)
Definition deopped n n' u (chan : string) : Prop :=
  exists o, sent (mode_cmd chan " -o " u :: o) n n' /\ no_cmd o.

Lemma no_cmd_nil : no_cmd [].
Proof. intros s t Hin. by apply elem_of_nil in Hin. Qed.

Lemma deop_run n n1 p u chan o (Q : bool -> Net E -> Prop) : users_heap n1 !! p = Some u ->
  sent o n n1 -> no_cmd o -> (forall n', deopped n n' u chan -> Q false n') -> wp (deop p chan) Q n1.
Proof.
  intros Hu (e & -> & He) Ho HQ. unfold deop. apply wp_bind. eapply wp_load_user; [done|].
  apply wp_bind. unfold send_cmd. apply wp_modify, wp_ret, HQ. exists o. split; [by exists e|done].
Qed.

Lemma check_valid_op_run n p u chan serverop : heap_ok (graph_of n) -> users_heap n !! p = Some u ->
  wp (check_valid_op p chan serverop) (fun b n' => b = valid_op n u chan serverop /\
    if b then sent [] n n' else deopped n n' u chan) n.
Proof.
  intros Hg Hu. unfold check_valid_op, valid_op. set (d := db (ext n)).
  assert (Hus : forall n', quiet n n' -> users_heap n' !! p = Some u) by (intros n' Hq; by rewrite (quiet_users _ _ Hq)).
  apply wp_bind. eapply wp_quiet; [apply quiet_refl|apply query_flags|]. intros n1 H1. fold d.
  destruct (named_flags d chan) as [i flags].
  destruct ((i =? 0) || has flags CI_LEAVEOPS); simpl; [apply wp_ret; split; [done|by apply sent_nil]|].
  apply wp_bind. apply (wp_mono _ (fun b n' => b = CSOpOper && privileged n u /\ quiet n n')).
  { destruct CSOpOper; [|by apply wp_ret]. eapply wp_quiet; [done|apply query_is_priv; [by apply (quiet_heap n)|by apply Hus]|].
    intros n2 H2. split; [|done]. unfold privileged, oper_nick.
    by rewrite (quiet_users _ _ H1), (quiet_graph _ _ H1), (quiet_db _ _ H1). }
  intros priv n2 [-> H2]. destruct (CSOpOper && privileged n u); simpl; [apply wp_ret; split; [done|by apply sent_nil]|].
  destruct (has flags CI_VERBOTEN); simpl.
  { eapply deop_run; [by apply Hus|by apply sent_nil|apply no_cmd_nil|done]. }
  apply wp_bind, wp_gets. assert (Hnow : now n2 = now n) by (by destruct H2 as (e & -> & _)). rewrite Hnow.
  apply wp_bind. apply (wp_mono _ (fun b n' => quiet n n' /\
    b = serverop && (CSRestrictDelay <=? now n - start_time) && negb (permits d u i CA_AUTOOP))).
  { destruct (serverop && _); [|by apply wp_ret]. apply wp_bind.
    eapply wp_quiet; [done|by apply query_check_access, Hus|]. rewrite (quiet_db _ _ H2). fold d.
    intros n3 H3. by apply wp_ret. }
  intros refuse n3 [H3 ->]. destruct (serverop && _ && _); simpl.
  - apply wp_bind. eapply wp_load_user; [by apply Hus|]. apply wp_bind. eapply sent_emit; [done|].
    intros n4 H4. eapply deop_run; [by destruct H4 as (e & -> & _)|done| |done].
    intros s t Hin. by apply list_elem_of_singleton in Hin.
  - apply wp_bind. eapply wp_quiet; [done|by apply query_check_access, Hus|]. rewrite (quiet_db _ _ H3). fold d.
    intros n4 H4. destruct (permits d u i CA_AUTODEOP); simpl.
    + eapply deop_run; [by apply Hus|by apply sent_nil|apply no_cmd_nil|done].
    + apply wp_ret. split; [done|by apply sent_nil].
Qed.
End StatusSpec.

(** ** Properties *)

(** C3: [check_modes] brings a channel under its mode lock, whatever its modes,
    limit and key were: the locked-on modes are set, the locked-off ones cleared,
    limit and key as locked, nothing else of the channel or of any other part of
    the state changed (the counts of mode changes apart).  It always returns (at
    every depth of the recursion with [do_cmode] from 2 on), stays within its
    32-byte buffer, and on a channel that conforms it sends no command. *)
Theorem check_modes_enforces `{Conf} {E} `{!ChanDB E} `{!NickServ E} depth (n : Net E) chan c ch
  (Hdepth : (2 <= depth)%nat)
  (Hg : heap_ok (graph_of n)) (Hchan : no_nul chan = true) (Hf : findchan chan n = Some (c, n))
  (Hne : c <> NULL) (Hc : chans_heap n !! c = Some ch) (Hb : bouncy_modes ch = 0) :
  let lk := lock_of (db (ext n)) (channel_id ch) in
  wp (check_modes depth chan) (fun _ n' => exists ch' o, at_chan c ch' o n n' /\
    book ch' (enforce lk ch) /\ (conforms lk ch -> no_cmd o)) n.
Proof.
  intros lk. destruct depth as [|[|d]]; [lia|lia|]. by apply check_modes_run.
Qed.

(** ChanServ ops a user who enters exactly when the channel is registered and not
    forbidden, the user has the AUTOOP ability there (identified, if the channel is
    SECURE) and the ability asks for a positive level; it then sends one MODE +o
    for that user, and otherwise nothing. *)
Theorem check_should_op_correct `{Conf} {E} `{!ChanDB E} `{!NickServ E} `{!NickView E}
  (n : Net E) p u chan (Hu : users_heap n !! p = Some u) :
  let d := db (ext n) in let i := fst (named_flags d chan) in let flags := snd (named_flags d chan) in
  wp (check_should_op p chan) (fun b n' =>
    (b = true <-> hd_char chan <> "+"%char /\ hd_char chan <> "&"%char /\ i <> 0 /\
       has flags CI_VERBOTEN = false /\ (has flags CI_SECURE = true -> identified d u = true) /\
       permits d u i CA_AUTOOP = true /\ 0 < ability_level d i CA_AUTOOP) /\
    sent (if b then [mode_cmd chan " +o " u] else []) n n') n.
Proof.
  intros d i flags. eapply wp_mono; [by apply check_should_op_run|]. intros b n' [-> Hs]. split; [|done].
  unfold should_op, status_id. fold d. unfold i, flags. destruct (named_flags d chan) as [j fl]. simpl.
  destruct (Ascii.eqb_spec (hd_char chan) "+"), (Ascii.eqb_spec (hd_char chan) "&"), (Z.eqb_spec j 0),
    (has fl CI_VERBOTEN), (has fl CI_SECURE), (identified d u); simpl;
    rewrite ?andb_true_iff, ?Z.ltb_lt; naive_solver.
Qed.

(** A user given operator status keeps it exactly when the channel is not
    registered or set to LEAVEOPS, or he is privileged, or the channel is not
    forbidden, he is not singled out by AUTODEOP, and, if a server opped him while
    Services enforce restrictions, he has the AUTOOP ability.  Otherwise a MODE -o
    for him is sent. *)
Theorem check_valid_op_correct `{Conf} {E} `{!ChanDB E} `{!NickServ E} `{!NickView E}
  (n : Net E) p u chan serverop (Hg : heap_ok (graph_of n)) (Hu : users_heap n !! p = Some u) :
  let d := db (ext n) in let i := fst (named_flags d chan) in let flags := snd (named_flags d chan) in
  wp (check_valid_op p chan serverop) (fun b n' =>
    (b = true <-> i = 0 \/ has flags CI_LEAVEOPS = true \/ (CSOpOper = true /\ privileged n u = true) \/
       (has flags CI_VERBOTEN = false /\ permits d u i CA_AUTODEOP = false /\
        (serverop = true -> CSRestrictDelay <= now n - start_time -> permits d u i CA_AUTOOP = true))) /\
    if b then sent [] n n' else deopped n n' u chan) n.
Proof.
  intros d i flags. eapply wp_mono; [by apply check_valid_op_run|]. intros b n' [-> Hs]. split; [|done].
  unfold valid_op. fold d. unfold i, flags. destruct (named_flags d chan) as [j fl]. simpl.
  destruct (Z.eqb_spec j 0), (has fl CI_LEAVEOPS), CSOpOper, (privileged n u), (has fl CI_VERBOTEN), serverop,
    (Z.leb_spec CSRestrictDelay (now n - start_time)), (permits d u j CA_AUTOOP), (permits d u j CA_AUTODEOP);
    simpl; naive_solver lia.
Qed.

(** ** Kicks *)
Section KickSpec.
Context `{Conf} {E : Type} `{!ChanDB E} `{!NickServ E} `{!NickView E}.
Implicit Types (n : Net E) (u : User).

(** A user with an ordinary username and host, so that masks made for him work. *)
Record ordinary u : Prop := {
  od_user : all_chars plain (username u) = true;
  od_user0 : username u <> EmptyString;
  od_host : all_chars plain (host u) = true;
  od_host0 : host u <> EmptyString;
  od_hd : hd_char (host u) <> "."%char;
  od_last : last_char (host u) <> "."%char
}.

Definition full_mask u : string := nick u +:+ "!" +:+ username u +:+ "@" +:+ host u.

(** A mask that matches the user, for [is_banned] or, under IRC_MATCH, as a mask of
    [nick!user@host]. *)
Definition covers u (m : string) : Prop :=
  match_usermask m u = Some true \/ glob m (full_mask u) false = true.

Lemma akick_covers d i nid u a : ordinary u -> akick_match d i nid u a = true -> ak_nick a = 0 ->
  covers u (ak_mask a).
Proof.
  intros _ Ha Hn. right. unfold akick_match in Ha. rewrite Hn in Ha. simpl in Ha.
  apply andb_prop in Ha as [_ Ha]. unfold Udf.irc_match in Ha.
  destruct (Udf.do_match_wild _ _ _) eqn:Hm; [|done]. rewrite udf_do_match_wild in Hm.
  by apply do_match_wild_glob.
Qed.

Lemma wp_make_mask u n1 (Q : string -> Net E -> Prop) : ordinary u ->
  (forall m, covers u ("*!" +:+ m) -> Q m n1) -> wp (make_mask u) Q n1.
Proof.
  intros [] HQ. destruct (create_mask_covers u) as (m & Hm & _ & Hm2); [done..|].
  unfold make_mask. rewrite Hm. apply wp_ret, HQ. by left.
Qed.

(** The verdict bans the user, whatever it is for. *)
Lemma kick_verdict_run n p u chan : heap_ok (graph_of n) -> users_heap n !! p = Some u -> ordinary u ->
  wp (kick_verdict p chan) (fun v n' => quiet n n' /\ forall k, v = Some k -> covers u (k_mask k)) n.
Proof.
  intros Hg Hu Ho. unfold kick_verdict.
  assert (Hus : forall n', quiet n n' -> users_heap n' !! p = Some u) by (intros n' Hq; by rewrite (quiet_users _ _ Hq)).
  assert (Hnone : forall n', quiet n n' -> wp (mret None)
    (fun v n' => quiet n n' /\ forall k : Verdict, v = Some k -> covers u (k_mask k)) n') by (intros n' Hq; by apply wp_ret).
  assert (Hmade : forall n' why, quiet n n' -> wp (m ← make_mask u; mret (Some (mkVerdict ("*!" +:+ m) why)))
    (fun v n' => quiet n n' /\ forall k : Verdict, v = Some k -> covers u (k_mask k)) n').
  { intros n' why Hq. apply wp_bind, wp_make_mask; [done|]. intros m Hm. apply wp_ret. split; [done|by intros ? [= <-]]. }
  apply wp_bind. eapply wp_quiet; [apply quiet_refl|apply query_flags|]. intros n1 H1.
  destruct (named_flags _ chan) as [i flags]. destruct (i =? 0); [by apply Hnone|].
  apply wp_bind. apply (wp_mono _ (fun _ n' => quiet n n')).
  { destruct CSAkickOper; [by apply wp_ret|]. simpl.
    eapply wp_quiet; [done|apply query_is_priv; [by apply (quiet_heap n)|by apply Hus]|]. done. }
  intros priv n2 H2. destruct priv; [by apply Hnone|].
  apply wp_bind. eapply wp_load_user; [by apply Hus|]. destruct (has flags CI_VERBOTEN); [by apply Hmade|].
  apply wp_bind. eapply wp_quiet; [done|by apply query_nick_has, Hus|]. intros n3 H3.
  apply wp_bind. unfold find_akick. apply wp_gets. cbv beta zeta.
  match goal with |- context [find_first ?f ?l] => destruct (find_first f l) as [a|] eqn:Hf end.
  - apply find_first_Some in Hf as [_ Hf]. apply wp_bind.
    apply (wp_mono _ (fun m n' => n' = n3 /\ covers u m)).
    + destruct (Z.eqb_spec (ak_nick a) 0) as [E0|E0].
      * apply wp_ret. split; [done|]. by eapply akick_covers.
      * apply wp_bind, wp_make_mask; [done|]. intros m Hm. by apply wp_ret.
    + intros m ? [-> Hm]. apply wp_bind. unfold update_akick_last_used. apply wp_modify, wp_ret.
      split; [|by intros ? [= <-]]. eapply quiet_trans; [done|]. apply quiet_ext. intros e. apply db_touch.
  - apply wp_bind, wp_gets, wp_bind. destruct (_ <=? _).
    + eapply wp_quiet; [done|by apply query_check_access, Hus|]. intros n4 H4.
      destruct (permits _ _ _ _); [by apply Hmade|by apply Hnone].
    + apply wp_ret. by apply Hnone.
Qed.
End KickSpec.


Module Witness.
Import Demo Tables.

Definition bob : User := Demo.bob.
Definition chan_a : Channel := Demo.chan_a{{channel_id := 1}}.

Lemma tables_net_ok : heap_ok (graph_of Tables.net).
Proof. exact (proj1 Demo.net_ok). Qed.

Lemma check_modes_enforces_witness :
  exists n' ch', check_modes 2 "#a" Tables.net = Some (tt, n') /\ chans_heap n' !! 2 = Some ch' /\
    cmode ch' = CMODE_n .| CMODE_t /\ key ch' = Some "sesame"%string.
Proof.
  pose proof (check_modes_enforces 2 Tables.net "#a" 2 chan_a (le_n 2) tables_net_ok eq_refl
    ltac:(vm_compute; reflexivity) ltac:(discriminate) ltac:(vm_compute; reflexivity) eq_refl) as Hw.
  cbv zeta in Hw. unfold wp in Hw. destruct (check_modes 2 "#a" Tables.net) as [[[] n']|]; [|done].
  destruct Hw as (ch' & o & Hat & Hbk & _). exists n', ch'. split; [done|].
  split; [by eapply at_lookup|]. destruct (book_fields _ _ Hbk) as (_ & Hm & _ & Hk & _).
  rewrite Hm, Hk. split; vm_compute; reflexivity.
Defined.

Lemma check_should_op_correct_witness :
  exists b n', check_should_op 1 "#a" Tables.net = Some (b, n') /\ b = true.
Proof.
  pose proof (check_should_op_correct Tables.net 1 (Demo.alice{{nick_id := 7; real_id := 7}}) "#a" eq_refl) as Hw.
  cbv zeta in Hw. unfold wp in Hw. destruct (check_should_op 1 "#a" Tables.net) as [[b n']|]; [|done].
  exists b, n'. split; [done|]. apply (proj2 (proj1 Hw)). split_and!; vm_compute; done.
Defined.

Lemma check_valid_op_correct_witness :
  exists b n', check_valid_op 1 "#a" true Tables.net = Some (b, n') /\ b = true.
Proof.
  pose proof (check_valid_op_correct Tables.net 1 (Demo.alice{{nick_id := 7; real_id := 7}}) "#a" true
    tables_net_ok eq_refl) as Hw.
  cbv zeta in Hw. unfold wp in Hw. destruct (check_valid_op 1 "#a" true Tables.net) as [[b n']|]; [|done].
  exists b, n'. split; [done|]. apply (proj2 (proj1 Hw)). right. right. right. split_and!; vm_compute; done.
Defined.

Lemma bob_ordinary : ordinary bob.
Proof. by split. Qed.

End Witness.
