(* ===== verification/Mlock.v ===== *)
(** [/msg ChanServ SET] ([src/chanserv.c]): [do_set], which decides who may
    change a channel's settings, and [do_set_mlock], which parses a mode lock,
    stores it and puts it in force. *)

From S2P Require Import Prelude CStr NumTime Wp Graph Net Masks Interfaces Channels Users ChanDB ChanServ.

(** ** Parsing a mode lock *)

(** The variables of the loop; [s_rest] is what [strtok (NULL, " ")] goes on with. *)
Record lockst := mkLockst {
  s_add : option bool;          (* 1 adding, 0 deleting, -1 neither *)
  s_on : Z;
  s_off : Z;
  s_limit : Z;
  s_key : option string;
  s_rest : string
}.

(** [newlock_on |= f; newlock_off &= ~f;] or the converse. *)
Definition lock_flag (add : bool) (f : Z) (st : lockst) : lockst :=
  if add then st{{s_on := s_on st .| f; s_off := s_off st .&~ f}}
  else st{{s_off := s_off st .| f; s_on := s_on st .&~ f}}.

Section Parse.
Context `{Conf} {E : Type} `{!ChanDB E} `{!NickServ E}.
Implicit Types (n : Net E).

Definition reply (u : ptr) (text : string) : M (Net E) unit :=
  us ← load_user u; emit (Notice s_ChanServ (nick us) text).

Definition mlock_key_step (u : ptr) (add : bool) (st : lockst) : M (Net E) (option lockst) :=
  if add then
    match strtok (s_rest st) " " with
    | (None, _) => reply u "CHAN_SET_MLOCK_KEY_REQUIRED";; mret None
    | (Some s, rest) =>
        mret (Some (st{{s_key := Some s; s_off := s_off st .&~ CMODE_k; s_rest := rest}}))
    end
  else mret (Some (st{{s_key := Some EmptyString; s_off := s_off st .| CMODE_k}})).

Definition mlock_limit_step (u : ptr) (add : bool) (st : lockst) : M (Net E) (option lockst) :=
  if add then
    match strtok (s_rest st) " " with
    | (None, _) => reply u "CHAN_SET_MLOCK_LIMIT_REQUIRED";; mret None
    | (Some s, rest) =>
        if atol s <=? 0 then reply u "CHAN_SET_MLOCK_LIMIT_POSITIVE";; mret None
        else mret (Some (st{{s_limit := u32 (atol s); s_off := s_off st .&~ CMODE_l; s_rest := rest}}))
    end
  else mret (Some (st{{s_limit := 0; s_off := s_off st .| CMODE_l}})).

(** Only an operator changes the lock on [O]; for others it stays. *)
Definition mlock_O_step (u : ptr) (i : Z) (add : bool) (st : lockst) : M (Net E) lockst :=
  us ← load_user u;
  oper ← is_oper (nick us);
  if oper : bool then mret (lock_flag add CMODE_O st)
  else
    on ← get_mlock_on i;
    off ← get_mlock_off i;
    let st := if has on CMODE_O then lock_flag true CMODE_O st else st in
    mret (if has off CMODE_O then lock_flag false CMODE_O st else st).

(** One letter of the argument; [None] where the command ends early. *)
Definition mlock_step (u : ptr) (i : Z) (c : ascii) (st : lockst) : M (Net E) (option lockst) :=
  if negb (Ascii.eqb c "+") && negb (Ascii.eqb c "-") && bool_decide (s_add st = None) then mret (Some st)
  else
    let add := match s_add st with Some b => b | None => true end in
    if Ascii.eqb c "+" then mret (Some (st{{s_add := Some true}}))
    else if Ascii.eqb c "-" then mret (Some (st{{s_add := Some false}}))
    else if Ascii.eqb c "k" then mlock_key_step u add st
    else if Ascii.eqb c "l" then mlock_limit_step u add st
    else if Ascii.eqb c "O" then st' ← mlock_O_step u i add st; mret (Some st')
    else match cmode_flag c with
         | Some f => mret (Some (lock_flag add f st))
         | None => reply u "CHAN_SET_MLOCK_UNKNOWN_CHAR";; mret (Some st)
         end.

Fixpoint mlock_loop (u : ptr) (i : Z) (param : string) (st : lockst) : M (Net E) (option lockst) :=
  match param with
  | EmptyString => mret (Some st)
  | String c param' =>
      r ← mlock_step u i c st;
      match r with None => mret None | Some st' => mlock_loop u i param' st' end
  end.

(** ** Storing it and telling the user *)
Definition lock_letters (mode : Z) (k l : bool) : string :=
  let s (c : ascii) (b : bool) := if b then String c EmptyString else EmptyString in
  s "i"%char (has mode CMODE_i) +:+ s "k"%char k +:+ s "l"%char l +:+ s "m"%char (has mode CMODE_m) +:+
  s "M"%char (has mode CMODE_M) +:+ s "n"%char (has mode CMODE_n) +:+ s "p"%char (has mode CMODE_p) +:+
  s "s"%char (has mode CMODE_s) +:+ s "t"%char (has mode CMODE_t) +:+ s "c"%char (has mode CMODE_c) +:+
  s "O"%char (has mode CMODE_O) +:+ s "R"%char (has mode CMODE_R).

(** [char modebuf[32]] *)
Definition lock_text (r : ChanInfo) : string :=
  let k := negb (String.eqb (ci_mlock_key r) EmptyString) in
  let l := negb (u32 (ci_mlock_limit r) =? 0) in
  trunc 32
    ((if negb (ci_mlock_on r =? 0) || k || l then "+" +:+ lock_letters (ci_mlock_on r) k l
      else EmptyString) +:+
     (if negb (ci_mlock_off r =? 0) then
        "-" +:+ lock_letters (ci_mlock_off r) (has (ci_mlock_off r) CMODE_k) (has (ci_mlock_off r) CMODE_l)
      else EmptyString)).

Definition opnotice (source chan text : string) : M (Net E) unit :=
  send_cmd (Some source) ("NOTICE @" +:+ chan +:+ " :" +:+ text).

Definition store_lock (i : Z) (st : lockst) : M (Net E) unit :=
  update_channel i (fun r => r{{ci_mlock_on := s_on st; ci_mlock_off := s_off st;
                               ci_mlock_limit := s_limit st;
                               ci_mlock_key := default EmptyString (s_key st)}}).

Definition tell_lock (u : ptr) (i : Z) (nm : string) : M (Net E) unit :=
  row ← gets (fun n => channel (db (ext n)) !! i);
  match row with
  | None => fault
  | Some r =>
      let modebuf := lock_text r in
      reply u (if String.eqb modebuf EmptyString then "CHAN_MLOCK_REMOVED" else "CHAN_MLOCK_CHANGED");;
      flags ← get_chan_flags i;
      us ← load_user u;
      when (has flags CI_VERBOSE)
        (opnotice s_ChanServ nm
           (if String.eqb modebuf EmptyString then nick us +:+ " removed the channel mode lock"
            else nick us +:+ " changed the channel mode lock to " +:+ BOLD +:+ modebuf +:+ BOLD))
  end.

Definition do_set_mlock (u : ptr) (channel_id : Z) (param : option string) (rest : string)
    : M (Net E) unit :=
  nm ← get_chan_name channel_id;
  match param with
  | None => reply u "CHAN_SET_MLOCK_SYNTAX"
  | Some param =>
      let off := stricmp param "OFF" =? 0 in
      r ← mlock_loop u channel_id (if off then EmptyString else param)
            (mkLockst (if off then Some true else None) 0 0 0
               (if off then Some EmptyString else None) rest);
      match r with
      | None => mret tt
      | Some st =>
          if bool_decide (s_add st = None) then reply u "CHAN_SET_MLOCK_SYNTAX"
          else
            store_lock channel_id st;;
            match nm with
            | None => fault
            | Some nm => tell_lock u channel_id nm;; check_modes 2 nm
            end
      end
  end.
End Parse.

(** ** The lock that is stored is consistent *)

(** No mode is locked both on and off, no key or limit is locked with [k] or [l]
    off, and only modes without parameter are locked on. *)
Record lock_ok (lk : Mlock) : Prop := {
  lo_disjoint : l_on lk .& l_off lk = 0;
  lo_on : l_on lk .&~ LOCKABLE = 0;
  lo_key : l_key lk <> EmptyString -> has (l_off lk) CMODE_k = false;
  lo_limit : l_limit lk <> 0 -> has (l_off lk) CMODE_l = false
}.

Definition lock_made (st : lockst) : Mlock :=
  mkMlock (s_on st) (s_off st) (s_limit st) (default EmptyString (s_key st)).

Definition st_ok (st : lockst) : Prop := lock_ok (lock_made st) /\ u32 (s_limit st) = s_limit st.

(** Decide an equation between bit masks bit by bit, from equations in the context. *)
Ltac bitwise :=
  apply Z.bits_inj'; let j := fresh "j" in intros j ?;
  repeat match goal with H : @eq Z _ _ |- _ =>
    apply (f_equal (fun z => Z.testbit z j)) in H; cbv beta in H end;
  repeat rewrite ?Z.ldiff_spec, ?Z.lor_spec, ?Z.land_spec, ?Z.bits_0 in *;
  repeat match goal with |- context [Z.testbit ?a ?b] => destruct (Z.testbit a b)
                       | H : context [Z.testbit ?a ?b] |- _ => destruct (Z.testbit a b) end;
  try done.

Lemma lock_flag_ok add f st : f .&~ LOCKABLE = 0 -> f .& CMODE_k = 0 -> f .& CMODE_l = 0 ->
  st_ok st -> st_ok (lock_flag add f st).
Proof.
  intros HL Hk Hl ([Hd Hon Hkey Hlim] & Hu). split; [|by destruct add]. simpl in *. split; simpl.
  - clear Hkey Hlim Hu Hk Hl HL Hon. destruct add; simpl; bitwise.
  - clear Hkey Hlim Hu Hk Hl Hd. destruct add; simpl; bitwise.
  - intros Hne. assert (Hne' : default EmptyString (s_key st) <> EmptyString) by (by destruct add).
    destruct add; simpl; [rewrite has_ldiff_other|rewrite has_lor_other]; auto.
  - intros Hne. assert (Hne' : s_limit st <> 0) by (by destruct add).
    destruct add; simpl; [rewrite has_ldiff_other|rewrite has_lor_other]; auto.
Qed.

(** The parameter letters: what is locked on frees the off bit, and conversely. *)
Lemma param_off st f (st' : lockst) : st_ok st -> f .& LOCKABLE = 0 ->
  s_on st' = s_on st -> s_off st' = s_off st .| f -> u32 (s_limit st') = s_limit st' ->
  (default EmptyString (s_key st') <> EmptyString -> f .& CMODE_k = 0 /\ s_key st' = s_key st) ->
  (s_limit st' <> 0 -> f .& CMODE_l = 0 /\ s_limit st' = s_limit st) -> st_ok st'.
Proof.
  intros ([Hd Hon Hkey Hlim] & Hu) Hf H1 H2 H3 Hk Hl. simpl in *. split; [|done]. split; simpl.
  - rewrite H1, H2. clear -Hd Hon Hf. bitwise.
  - by rewrite H1.
  - intros Hne. destruct (Hk Hne) as [Hfk Heq]. rewrite H2, has_lor_other by done. apply Hkey. congruence.
  - intros Hne. destruct (Hl Hne) as [Hfl Heq]. rewrite H2, has_lor_other by done. apply Hlim. congruence.
Qed.

Lemma param_on st f (st' : lockst) : st_ok st ->
  s_on st' = s_on st -> s_off st' = s_off st .&~ f -> u32 (s_limit st') = s_limit st' ->
  (default EmptyString (s_key st') <> EmptyString -> f = CMODE_k \/ (f .& CMODE_k = 0 /\ s_key st' = s_key st)) ->
  (s_limit st' <> 0 -> f = CMODE_l \/ (f .& CMODE_l = 0 /\ s_limit st' = s_limit st)) -> st_ok st'.
Proof.
  intros ([Hd Hon Hkey Hlim] & Hu) H1 H2 H3 Hk Hl. simpl in *. split; [|done]. split; simpl.
  - rewrite H1, H2. clear -Hd. bitwise.
  - by rewrite H1.
  - intros Hne. rewrite H2. destruct (Hk Hne) as [->|[Hf Heq]]; [apply has_ldiff_self|].
    rewrite has_ldiff_other by done. apply Hkey. congruence.
  - intros Hne. rewrite H2. destruct (Hl Hne) as [->|[Hf Heq]]; [apply has_ldiff_self|].
    rewrite has_ldiff_other by done. apply Hlim. congruence.
Qed.

Lemma cmode_flag_params c f : cmode_flag c = Some f ->
  f .&~ LOCKABLE = 0 /\ f .& CMODE_k = 0 /\ f .& CMODE_l = 0.
Proof. unfold cmode_flag. intros Hc. repeat case_match; simplify_eq; done. Qed.

Section MlockOk.
Context `{Conf} {E : Type} `{!ChanDB E} `{!NickServ E}.
Implicit Types (n : Net E).

(** Replies only. *)
Definition replied n n' : Prop := exists o, n' = n{{out := o ++ out n}}.

Lemma replied_refl n : replied n n.
Proof. exists []. by destruct n. Qed.

Lemma replied_trans n1 n2 n3 : replied n1 n2 -> replied n2 n3 -> replied n1 n3.
Proof. intros [o1 ->] [o2 ->]. exists (o2 ++ o1). simpl. by rewrite app_assoc. Qed.

Lemma reply_spec u us text n (Q : unit -> Net E -> Prop) : users_heap n !! u = Some us ->
  (forall n', replied n n' -> Q tt n') -> wp (reply u text) Q n.
Proof.
  intros Hu HQ. unfold reply. apply wp_bind. eapply wp_load_user; [done|]. apply wp_modify, HQ.
  by eexists [_].
Qed.

Lemma is_oper_run nk n : heap_ok (graph_of n) -> wp (is_oper (E := E) nk) (fun _ n' => n' = n) n.
Proof.
  intros Hg. unfold is_oper. apply wp_bind. eapply wp_intro; [by apply finduser_det|].
  destruct (Z.eqb_spec (g_finduser (graph_of n) nk) NULL) as [|Hne]; [by apply wp_ret|].
  apply g_finduser_some, is_Some_graph_user in Hne as [u Hu].
  apply wp_bind. by eapply wp_load_user.
Qed.

Lemma mlock_step_spec u us i c st n : users_heap n !! u = Some us -> heap_ok (graph_of n) -> st_ok st ->
  wp (mlock_step u i c st) (fun r n' => replied n n' /\ forall st', r = Some st' -> st_ok st') n.
Proof.
  intros Hu Hg Hst. unfold mlock_step.
  assert (Hret : wp (mret (Some st)) (fun r n' => replied n n' /\ forall st', r = Some st' -> st_ok st') n)
    by (apply wp_ret; split; [apply replied_refl|by intros ? [= <-]]).
  assert (Hadd : forall b, wp (mret (Some (st{{s_add := b}})))
    (fun r n' => replied n n' /\ forall st', r = Some st' -> st_ok st') n)
    by (intros b; apply wp_ret; split; [apply replied_refl|by intros ? [= <-]]).
  assert (Hend : forall text, wp (reply u text;; mret None)
    (fun r n' => replied n n' /\ forall st' : lockst, r = Some st' -> st_ok st') n).
  { intros text. apply wp_bind. eapply reply_spec; [done|]. intros n' Hn'. by apply wp_ret. }
  destruct (_ && _); [done|]. set (add := match s_add st with Some b => b | None => true end).
  destruct (Ascii.eqb c "+"); [done|]. destruct (Ascii.eqb c "-"); [done|].
  destruct (Ascii.eqb c "k"); [|destruct (Ascii.eqb c "l"); [|destruct (Ascii.eqb c "O")]].
  - unfold mlock_key_step. destruct add.
    + destruct (strtok (s_rest st) " ") as [[s|] rest]; [|done].
      apply wp_ret. split; [apply replied_refl|]. intros ? [= <-]. apply (param_on st CMODE_k); simpl; try done; [apply Hst|by left|by right].
    + apply wp_ret. split; [apply replied_refl|]. intros ? [= <-]. apply (param_off st CMODE_k); simpl; try done; apply Hst.
  - unfold mlock_limit_step. destruct add.
    + destruct (strtok (s_rest st) " ") as [[s|] rest]; [|done]. destruct (atol s <=? 0); [done|].
      apply wp_ret. split; [apply replied_refl|]. intros ? [= <-]. apply (param_on st CMODE_l); simpl; try done; [apply u32_idemp|by right|by left].
    + apply wp_ret. split; [apply replied_refl|]. intros ? [= <-]. by apply (param_off st CMODE_l).
  - apply wp_bind. unfold mlock_O_step. apply wp_bind. eapply wp_load_user; [done|].
    apply wp_bind. eapply wp_mono; [by apply is_oper_run|]. intros b n' ->.
    assert (HO : forall b st, st_ok st -> st_ok (lock_flag b CMODE_O st)) by (intros; by apply lock_flag_ok).
    destruct b; [apply wp_ret, wp_ret; split; [apply replied_refl|intros ? [= <-]; auto]|].
    apply wp_bind, wp_gets, wp_bind, wp_gets, wp_ret, wp_ret. split; [apply replied_refl|].
    intros st' Heq. apply (inj Some) in Heq as <-. repeat case_match; auto.
  - destruct (cmode_flag c) as [f|] eqn:Hf.
    + apply wp_ret. split; [apply replied_refl|]. intros ? [= <-].
      destruct (cmode_flag_params c f Hf) as (? & ? & ?). by apply lock_flag_ok.
    + apply wp_bind. eapply reply_spec; [done|]. intros n' Hn'. apply wp_ret. split; [done|by intros ? [= <-]].
Qed.

Lemma replied_graph n n' : replied n n' -> graph_of n' = graph_of n.
Proof. by intros [o ->]. Qed.

Lemma mlock_loop_spec u us i param st n :
  users_heap n !! u = Some us -> heap_ok (graph_of n) -> st_ok st ->
  wp (mlock_loop u i param st) (fun r n' => replied n n' /\ forall st', r = Some st' -> st_ok st') n.
Proof.
  revert st n. induction param as [|c param IH]; intros st n Hu Hg Hst; simpl.
  - apply wp_ret. split; [apply replied_refl|by intros ? [= <-]].
  - apply wp_bind. eapply wp_mono; [by eapply mlock_step_spec|]. intros r n1 [Hr Hok].
    destruct r as [st'|]; [|by apply wp_ret].
    eapply wp_mono; [apply IH; [by destruct Hr as [o ->]|by rewrite (replied_graph _ _ Hr)|by apply Hok]|].
    intros r n2 [Hr2 Hok2]. split; [by eapply replied_trans|done].
Qed.

Lemma tell_lock_spec u us i nm r n : users_heap n !! u = Some us -> channel (db (ext n)) !! i = Some r ->
  wp (tell_lock u i nm) (fun _ n' => replied n n') n.
Proof.
  intros Hu Hr. unfold tell_lock. apply wp_bind, wp_gets. rewrite Hr. apply wp_bind.
  eapply reply_spec; [done|]. intros n1 H1. apply wp_bind, wp_gets, wp_bind.
  assert (Hu1 : users_heap n1 !! u = Some us) by (by destruct H1 as [o ->]).
  eapply wp_load_user; [done|]. apply wp_when; intros _; [|done].
  unfold opnotice, send_cmd. apply wp_modify. eapply replied_trans; [done|]. by eexists [_].
Qed.

Lemma has_zero_land m f : m .& f = 0 -> has m f = false.
Proof. apply has_false. Qed.

(** Once enforced, a consistent lock asks for nothing more. *)
Lemma enforce_conforms lk ch : lock_ok lk -> conforms lk (enforce lk ch).
Proof.
  intros [Hd Hon Hk Hl]. unfold conforms, tighten, set_key, relax, enforce. split_and!; simpl.
  - f_equal.
    + clear Hk Hl. bitwise.
    + destruct (Z.eqb_spec (l_limit lk) 0); [done|]. by rewrite Hl.
  - f_equal. destruct (String.eqb_spec (l_key lk) EmptyString); [done|]. by rewrite Hk.
  - f_equal.
    + clear. bitwise.
    + by destruct (has (l_off lk) CMODE_l).
    + by destruct (has (l_off lk) CMODE_k).
Qed.

(** The channel, if it is in use, as the lock wants it. *)
Definition settled (n' : Net E) (lk : Mlock) (x : ptr * Channel) : Prop :=
  exists ch', chans_heap n' !! fst x = Some ch' /\ book ch' (enforce lk (snd x)) /\ conforms lk ch'.

Lemma check_modes_settle d n lk c ch chan :
  heap_ok (graph_of n) -> no_nul chan = true -> findchan chan n = Some (c, n) -> c <> NULL ->
  chans_heap n !! c = Some ch -> bouncy_modes ch = 0 ->
  lock_of (db (ext n)) (channel_id ch) = lk -> lock_ok lk ->
  wp (check_modes (S (S d)) chan) (fun _ n' => settled n' lk (c, ch)) n.
Proof.
  intros Hg Hnul Hf Hne Hc Hb <- Hok. eapply wp_mono; [by eapply check_modes_run|].
  intros [] n' (ch' & o & Hat & Hbk & _). exists ch'. split; [by eapply at_lookup|]. split; [done|].
  destruct (enforce_conforms _ ch Hok) as (Ht & Hs & Hx).
  split; [by eapply tighten_book|]. split; [by eapply set_key_book|by eapply relax_book].
Qed.

Definition in_use (n : Net E) (nm : string) (i : Z) (x : ptr * Channel) : Prop :=
  findchan nm n = Some (fst x, n) /\ fst x <> NULL /\ chans_heap n !! fst x = Some (snd x) /\
  channel_id (snd x) = i /\ bouncy_modes (snd x) = 0.
End MlockOk.

(** C4: SET MLOCK either only replies, or stores a lock that is consistent and puts
    it in force: the channel of that name, if in use, now has the locked modes,
    key and limit, so that further checks ask for nothing; who is on which
    channel is as before.  It never faults on a registered channel. *)
Theorem do_set_mlock_correct `{Conf} {E} `{!ChanDB E} `{!NickServ E} (n : Net E) u us i r param rest
  (Hu : users_heap n !! u = Some us) (Hg : heap_ok (graph_of n))
  (Hr : channel (db (ext n)) !! i = Some r) (Hnm : no_nul (ci_name r) = true) :
  wp (do_set_mlock u i param rest) (fun _ n' => replied n n' \/
    exists st, let lk := lock_made st in
      lock_ok lk /\ lock_of (db (ext n')) i = lk /\ graph_of n' = graph_of n /\
      forall x, in_use n (ci_name r) i x -> settled n' lk x) n.
Proof.
  unfold do_set_mlock. apply wp_bind, wp_gets. rewrite Hr.
  destruct param as [param|]; [|eapply reply_spec; [done|]; by left].
  apply wp_bind. eapply wp_mono; [eapply mlock_loop_spec; [done|done|]|].
  { split; [|done]. by split. }
  intros res n1 [Hr1 Hok]. destruct res as [st|]; [|apply wp_ret; by left].
  specialize (Hok st eq_refl). assert (Hu1 : users_heap n1 !! u = Some us) by by destruct Hr1 as [o ->].
  case_match; [eapply reply_spec; [done|]; intros n2 H2; left; by eapply replied_trans|].
  apply wp_bind. unfold store_lock, update_channel. apply wp_modify.
  destruct Hr1 as [o1 ->]. set (lk := lock_made st).
  match goal with |- wp _ _ ?s => set (n2 := s) end.
  set (r2 := r{{ci_mlock_on := s_on st; ci_mlock_off := s_off st; ci_mlock_limit := s_limit st;
               ci_mlock_key := default EmptyString (s_key st)}}).
  assert (Hr2 : channel (db (ext n2)) !! i = Some r2)
    by (unfold n2; simpl; rewrite db_set; simpl; by rewrite lookup_alter_eq, Hr).
  apply wp_bind. eapply wp_mono; [by eapply (tell_lock_spec u us)|]. intros [] n3 [o3 ->].
  match goal with |- wp _ _ ?s => set (n3 := s) end.
  assert (Hg3 : graph_of n3 = graph_of n) by done.
  assert (Hlk : lock_of (db (ext n3)) i = lk).
  { unfold lock_of, col, lk, lock_made. change (ext n3) with (ext n2). rewrite Hr2. unfold r2. simpl.
    by rewrite (proj2 Hok). }
  eapply wp_mono; [eapply (wp_all _ (fun _ n' => graph_of n' = graph_of n3 /\ ext n' = ext n3)
    (in_use n (ci_name r) i) (fun x _ n' => settled n' lk x))|].
  - by apply check_modes_keeps.
  - intros [c ch] (Hf & Hne & Hc & Hid & Hb). simpl in *.
    assert (Hf3 : findchan (ci_name r) n3 = Some (c, n3)).
    { rewrite findchan_det in Hf by done. injection Hf as Hf. rewrite findchan_det by done. by rewrite Hg3, Hf. }
    apply (check_modes_settle 0 n3 lk c ch (ci_name r)); try done; [by rewrite Hid|apply Hok].
  - intros [] n4 [[Hg4 He4] Hall]. right. exists st. split; [apply Hok|].
    split; [by rewrite He4|]. split; [by rewrite Hg4|done].
Qed.

(** C33: A consistent lock is not fought over: after one check the next sends no
    command. *)
Theorem check_modes_quiesces `{Conf} {E} `{!ChanDB E} `{!NickServ E} (n : Net E) chan c ch
  (Hg : heap_ok (graph_of n)) (Hchan : no_nul chan = true) (Hf : findchan chan n = Some (c, n))
  (Hne : c <> NULL) (Hc : chans_heap n !! c = Some ch) (Hb : bouncy_modes ch = 0)
  (Hok : lock_ok (lock_of (db (ext n)) (channel_id ch))) :
  exists n1 n2 o, check_modes 2 chan n = Some (tt, n1) /\ check_modes 2 chan n1 = Some (tt, n2) /\
    out n2 = o ++ out n1 /\ no_cmd o.
Proof.
  pose proof (check_modes_run 0 n c ch chan Hg Hchan Hf Hne Hc Hb) as H1. unfold wp in H1.
  destruct (check_modes 2 chan n) as [[[] n1]|]; [|done]. destruct H1 as (ch1 & o1 & Hat & Hbk & _).
  set (lk := lock_of (db (ext n)) (channel_id ch)) in *.
  destruct (book_fields _ _ Hbk) as (_ & _ & _ & _ & Hid & Hb1 & _). simpl in Hid, Hb1.
  assert (Hgr : graph_of n1 = graph_of n) by (eapply at_graph; [exact Hc| |exact Hat]; by rewrite (book_view _ _ Hbk)).
  assert (Hf1 : findchan chan n1 = Some (c, n1)).
  { rewrite findchan_det in Hf by done. injection Hf as Hf. rewrite findchan_det by (by rewrite Hgr).
    by rewrite Hgr, Hf. }
  assert (Hlk : lock_of (db (ext n1)) (channel_id ch1) = lk) by (by rewrite (at_ext _ _ _ _ _ Hat), Hid).
  pose proof (check_modes_run 0 n1 c ch1 chan) as H2. rewrite Hgr in H2.
  specialize (H2 Hg Hchan Hf1 Hne (at_lookup _ _ _ _ _ Hat) ltac:(by rewrite Hb1)).
  rewrite Hlk in H2. unfold wp in H2.
  destruct (check_modes 2 chan n1) as [[[] n2]|] eqn:E2; [|done]. destruct H2 as (ch2 & o2 & Hat2 & _ & Hq).
  exists n1, n2, o2. split; [done|]. split; [done|]. split; [by apply (at_out _ _ _ _ _ Hat2)|].
  apply Hq. destruct (enforce_conforms lk ch Hok) as (Ht & Hs & Hx).
  split; [by eapply tighten_book|]. split; [by eapply set_key_book|by eapply relax_book].
Qed.

(** ** do_set *)

(** The options of SET, the routine that carries each out, and whether only the
    founder may use it. *)
Inductive set_option :=
  | S_FOUNDER | S_SUCCESSOR | S_PASSWORD | S_DESC | S_URL | S_EMAIL | S_ENTRYMSG | S_FLOODSERV
  | S_TOPIC | S_MLOCK | S_KEEPTOPIC | S_TOPICLOCK | S_PRIVATE | S_SECUREOPS | S_LEAVEOPS
  | S_RESTRICTED | S_SECURE | S_VERBOSE | S_NOEXPIRE | S_AUTOLIMIT | S_CLEARBANS | S_REGTIME.

#[export] Instance set_option_dec : EqDecision set_option.
Proof. solve_decision. Defined.

Definition set_options : list (string * set_option) :=
  [("FOUNDER", S_FOUNDER); ("SUCCESSOR", S_SUCCESSOR); ("PASSWORD", S_PASSWORD); ("DESC", S_DESC);
   ("URL", S_URL); ("EMAIL", S_EMAIL); ("ENTRYMSG", S_ENTRYMSG); ("FLOODSERV", S_FLOODSERV);
   ("TOPIC", S_TOPIC); ("MLOCK", S_MLOCK); ("KEEPTOPIC", S_KEEPTOPIC); ("TOPICLOCK", S_TOPICLOCK);
   ("PRIVATE", S_PRIVATE); ("SECUREOPS", S_SECUREOPS); ("LEAVEOPS", S_LEAVEOPS);
   ("RESTRICTED", S_RESTRICTED); ("SECURE", S_SECURE); ("VERBOSE", S_VERBOSE);
   ("NOEXPIRE", S_NOEXPIRE); ("AUTOLIMIT", S_AUTOLIMIT); ("CLEARBANS", S_CLEARBANS);
   ("REGTIME", S_REGTIME)].

Definition founder_only (o : set_option) : bool :=
  match o with S_FOUNDER | S_SUCCESSOR | S_PASSWORD | S_FLOODSERV => true | _ => false end.

Definition option_named (cmd : string) : option set_option :=
  snd <$> find_first (fun p => stricmp cmd (fst p) =? 0) set_options.

(** Options that may come without a parameter, or take the rest of the line. *)
Definition optional_param (cmd : string) : bool :=
  existsb (fun s => stricmp cmd s =? 0) ["SUCCESSOR"; "URL"; "EMAIL"; "ENTRYMSG"].
Definition whole_param (cmd : string) : bool :=
  existsb (fun s => stricmp cmd s =? 0) ["DESC"; "TOPIC"; "ENTRYMSG"].

Section DoSet.
Context `{Conf} {E : Type} `{!ChanDB E} `{!NickServ E}.
(** The routines of the other options, with the parameter and what follows it. *)
Context (do_set_other : set_option -> ptr -> Z -> option string -> string -> M (Net E) unit).
Implicit Types (n : Net E).

Definition run_option (o : set_option) (u : ptr) (i : Z) (param : option string) (rest : string)
    : M (Net E) unit :=
  if decide (o = S_MLOCK) then do_set_mlock u i param rest else do_set_other o u i param rest.

(** [args] is the line after SET. *)
Definition do_set (u : ptr) (args : string) : M (Net E) unit :=
  let '(chan, rest) := strtok args " " in
  let '(cmd, rest) := strtok rest " " in
  is_servadmin ← is_services_admin u;
  let '(param, rest) :=
    match cmd with
    | Some cmd => strtok rest (if whole_param cmd then "" else " ")
    | None => (None, rest)
    end in
  match chan, cmd with
  | Some chan, Some cmd =>
      if bool_decide (param = None) && negb (optional_param cmd) then reply u "CHAN_SET_SYNTAX"
      else
        channel_id ← mysql_findchan chan;
        if channel_id =? 0 then reply u "CHAN_X_NOT_REGISTERED"
        else
          flags ← get_chan_flags channel_id;
          if has flags CI_VERBOTEN then reply u "CHAN_X_FORBIDDEN"
          else
            allowed ← (if is_servadmin : bool then mret true else check_access u channel_id CA_SET);
            if negb allowed then reply u "ACCESS_DENIED"
            else
              match option_named cmd with
              | None => reply u "CHAN_SET_UNKNOWN_OPTION";; reply u "MORE_INFO"
              | Some o =>
                  low ← (if negb is_servadmin && founder_only o then
                           l ← get_access u channel_id; mret (l <? ACCESS_FOUNDER)
                         else mret false);
                  if low : bool then reply u "CHAN_IDENTIFY_REQUIRED"
                  else run_option o u channel_id param rest
              end
  | _, _ => reply u "CHAN_SET_SYNTAX"
  end.
End DoSet.

(** Since [n] only replies were sent and data behind the tables changed. *)
Definition untouched {E} `{!ChanDB E} (n n' : Net E) : Prop :=
  exists e o, n' = n{{ext := e; out := o ++ out n}} /\ db e = db (ext n).

(** Who may use an option on a channel. *)
Definition authorised {E} `{!ChanDB E} `{!NickServ E} `{!NickView E} (d : DB) (us : User)
    (chan : string) (i : Z) (o : set_option) : Prop :=
  default 0 (channel_named d chan) = i /\ i <> 0 /\ has (col d ci_flags 0 i) CI_VERBOTEN = false /\
  (services_admin d us = true \/
   (permits d us i CA_SET = true /\ (founder_only o = true -> ACCESS_FOUNDER <= access_level d us i))).

Section DoSetLemmas.
Context `{Conf} {E : Type} `{!ChanDB E} `{!NickServ E} `{!NickView E}.
Implicit Types (n : Net E).

Lemma untouched_quiet n n1 n2 : quiet n n1 -> quiet n1 n2 -> untouched n n2.
Proof.
  intros H1 H2. destruct (quiet_trans _ _ _ H1 H2) as (e & -> & He). by exists e, [].
Qed.

Lemma reply_quiet u us text n n1 (Q : unit -> Net E -> Prop) :
  users_heap n !! u = Some us -> quiet n n1 -> (forall n', untouched n n' -> Q tt n') ->
  wp (reply u text) Q n1.
Proof.
  intros Hu (e & -> & He) HQ. eapply reply_spec; [done|]. intros n' [o ->]. apply HQ. by exists e, o.
Qed.

(** A query, when the state has only been queried so far. *)
Lemma wp_query {A} n n1 (m : M (Net E) A) a (Q : A -> Net E -> Prop) :
  quiet n n1 -> query n1 m a -> (forall n', quiet n n' -> Q a n') -> wp m Q n1.
Proof.
  intros Hq Hm HQ. eapply wp_mono; [apply Hm|]. intros b n2 [-> Hq2]. apply HQ. by eapply quiet_trans.
Qed.
End DoSetLemmas.

(** SET carries an option out only for those who may: on a registered channel
    that is not forbidden, for a Services administrator or a user with the SET
    ability, and, for FOUNDER, SUCCESSOR, PASSWORD and FLOODSERV, the founder.
    In every other case it only replies.  So whatever holds after a refusal,
    and after each option run by somebody authorised, holds after SET. *)
Theorem do_set_authorised `{Conf} {E} `{!ChanDB E} `{!NickServ E} `{!NickView E}
  (other : set_option -> ptr -> Z -> option string -> string -> M (Net E) unit)
  (n : Net E) u us args (Q : unit -> Net E -> Prop)
  (Hu : users_heap n !! u = Some us)
  (Hrefuse : forall n', untouched n n' -> Q tt n')
  (Hrun : forall o chan i param rest n', quiet n n' -> authorised (db (ext n)) us chan i o ->
     wp (run_option other o u i param rest) Q n') :
  wp (do_set other u args) Q n.
Proof.
  unfold do_set. destruct (strtok args " ") as [chan rest]. destruct (strtok rest " ") as [cmd rest'].
  apply wp_bind. eapply (wp_query n n); [apply quiet_refl|by apply law_admin|]. intros n1 H1.
  destruct (match cmd with Some _ => _ | None => _ end) as [param rest''].
  destruct chan as [chan|]; [|by eapply reply_quiet].
  destruct cmd as [cmd|]; [|by eapply reply_quiet].
  destruct (_ && _); [by eapply reply_quiet|].
  assert (Hdb : forall n', quiet n n' -> db (ext n') = db (ext n)) by (intros; by apply quiet_db).
  apply wp_bind, wp_gets. rewrite (Hdb _ H1). set (d := db (ext n)) in *.
  set (i := default 0 (channel_named d chan)). destruct (Z.eqb_spec i 0) as [|Hi]; [by eapply reply_quiet|].
  apply wp_bind, wp_gets. rewrite (Hdb _ H1). change (match channel d !! i with Some r => ci_flags r | None => 0 end)
    with (col d ci_flags 0 i).
  destruct (has (col d ci_flags 0 i) CI_VERBOTEN) eqn:Hv; [by eapply reply_quiet|].
  assert (Hus : forall n', quiet n n' -> users_heap n' !! u = Some us) by (intros n' Hq; by rewrite (quiet_users _ _ Hq)).
  apply wp_bind. apply (wp_mono _ (fun b n' => quiet n n' /\ b = services_admin d us || permits d us i CA_SET)).
  { destruct (services_admin d us); [by apply wp_ret|].
    eapply wp_query; [done|by apply query_check_access, Hus|]. intros n2 H2. by rewrite (Hdb _ H1). }
  intros allowed n2 [H2 ->]. destruct (services_admin d us || permits d us i CA_SET) eqn:Ha; simpl; [|by eapply reply_quiet].
  destruct (option_named cmd) as [o|].
  2: { apply wp_bind. eapply reply_spec; [by apply Hus|]. intros n3 [o3 ->].
       eapply reply_spec; [simpl; by apply Hus|]. intros n4 [o4 ->]. apply Hrefuse.
       destruct H2 as (e & -> & He). exists e, (o4 ++ o3). simpl. by rewrite app_assoc. }
  apply wp_bind. apply (wp_mono _ (fun b n' => quiet n n' /\
    b = negb (services_admin d us) && founder_only o && (access_level d us i <? ACCESS_FOUNDER))).
  { destruct (negb (services_admin d us) && founder_only o); [|by apply wp_ret].
    apply wp_bind. eapply wp_query; [done|by apply query_get_access, Hus|]. intros n3 H3. apply wp_ret.
    by rewrite (Hdb _ H2). }
  intros low n3 [H3 ->].
  destruct (negb (services_admin d us) && founder_only o && (access_level d us i <? ACCESS_FOUNDER)) eqn:Hl;
    [by eapply reply_quiet|].
  apply (Hrun o chan); [done|]. split; [done|]. split; [done|]. split; [done|].
  destruct (services_admin d us); [by left|right]. simpl in *. split; [done|]. intros Hfo.
  rewrite Hfo in Hl. simpl in Hl. by apply Z.ltb_ge in Hl.
Qed.

Module Witness.
Import Demo Tables ChanServ.Witness.

Lemma do_set_mlock_correct_witness :
  exists n' st, do_set_mlock 1 1 (Some "+ik-t")%string "open" Tables.net = Some (tt, n') /\
    lock_ok (lock_made st) /\ settled n' (lock_made st) (2, ChanServ.Witness.chan_a).
Proof.
  assert (Hr : exists n', do_set_mlock 1 1 (Some "+ik-t")%string "open" Tables.net = Some (tt, n') /\
    ci_mlock_key <$> channel (ext n') !! 1 = Some "open"%string).
  { eexists. split; vm_compute; reflexivity. }
  pose proof (do_set_mlock_correct Tables.net 1 (Demo.alice{{nick_id := 7; real_id := 7}}) 1 row (Some "+ik-t")%string
    "open" eq_refl tables_net_ok eq_refl eq_refl) as Hw.
  destruct Hr as (n' & Hn' & Hk). unfold wp in Hw. rewrite Hn' in Hw.
  destruct Hw as [[o ->]|(st & Hok & _ & _ & Hall)]; [vm_compute in Hk; discriminate Hk|].
  exists n', st. split; [done|]. split; [done|].
  apply Hall. split_and!; try (vm_compute; reflexivity). discriminate.
Defined.

Lemma check_modes_quiesces_witness :
  exists n1 n2 o, check_modes 2 "#a" Tables.net = Some (tt, n1) /\ check_modes 2 "#a" n1 = Some (tt, n2) /\
    out n2 = o ++ out n1 /\ no_cmd o.
Proof.
  apply (check_modes_quiesces Tables.net "#a" 2 ChanServ.Witness.chan_a tables_net_ok eq_refl);
    [vm_compute; reflexivity|discriminate|vm_compute; reflexivity|reflexivity|].
  split; vm_compute; done.
Defined.

Definition other (o : set_option) (u : ptr) (i : Z) (param : option string) (rest : string) : M (Net DB) unit :=
  mret tt.

(** bob, who has no access, changes nothing. *)
Lemma do_set_authorised_witness :
  exists n', do_set other 3 "#a MLOCK +i" Tables.net = Some (tt, n') /\ db (ext n') = tables.
Proof.
  assert (Hw : wp (do_set other 3 "#a MLOCK +i") (fun _ n' => db (ext n') = tables) Tables.net).
  { apply (do_set_authorised other Tables.net 3 Demo.bob "#a MLOCK +i"); [vm_compute; reflexivity|..].
    - by intros n' (e & o & -> & He).
    - intros o chan i param rest n' Hq (Hi & Hi0 & _ & [Ha|[Ha _]]); [done|]. exfalso.
      change (default 0 (if String.eqb chan "#a" then Some 1 else None) = i) in Hi.
      destruct (String.eqb chan "#a"); simpl in Hi; [|congruence]. subst i. vm_compute in Ha. discriminate Ha. }
  unfold wp in Hw. destruct (do_set other 3 "#a MLOCK +i" Tables.net) as [[[] n']|]; [|done]. eauto.
Defined.
End Witness.
