(* ===== verification/Query.v ===== *)
(** MySQL as the tables see it, and [mysql_build_query] ([src/mysql.c]): the
    condition of a query for the rows a list of numbers names. *)

From S2P Require Import Prelude CStr NumTime Channels.

(** What MySQL does with the values: texts are equal when their collation keys
    are, and a [smallint unsigned] column holds 0 to 65535. *)
Class MySQL := {
  collate : string -> string;
  smallint : Z -> Z;
  smallint_id : forall z, 0 <= z <= 65535 -> smallint z = z
}.

(** [ORDER BY] a column of texts. *)
Class TextOrder := { text_rank : string -> Z }.

Definition same_text `{MySQL} (a b : string) : bool := String.eqb (collate a) (collate b).

Lemma clamp_id z : 0 <= z <= 65535 -> Z.max 0 (Z.min z 65535) = z.
Proof. lia. Qed.

(** ** Number lists *)

(** The ranges of numbers the query asks for; a single number is a range. *)
Definition query_item (numstr : string) : Z * Z * string :=
  let '(_, r) := strtol numstr in
  let n1 := strtoul_u32 numstr in
  let r := skip_to r DIGITS_COMMA_DASH in
  let '(n2, r) :=
    if Ascii.eqb (hd_char r) "-" then
      let r := skip_to (str_drop 1 r) DIGITS_COMMA in
      if starts_digit r then
        let '(_, r') := strtol r in (strtoul_u32 r, skip_to r' DIGITS_COMMA_DASH)
      else (n1, r)
    else (n1, r) in
  (n1, n2, str_drop 1 (skip_to r ",")).

Fixpoint query_loop (fuel : nat) (numstr : string) (max : Z) : option (list (Z * Z)) :=
  match numstr with
  | EmptyString => Some []
  | _ =>
      match fuel with
      | O => None
      | S fuel' =>
          let '(n1, n2, rest) := query_item numstr in
          let n1 := if max <? n1 then max else n1 in
          let n2 := if max <? n2 then max else n2 in
          l ← query_loop fuel' rest max;
          Some (if n1 <=? n2 then (n1, n2) :: l else l)
      end
  end.

Definition mysql_build_query (numstr : string) (max : Z) : option (list (Z * Z)) :=
  query_loop (String.length numstr) numstr max.

Definition in_ranges (l : list (Z * Z)) (i : Z) : bool :=
  existsb (fun r => (fst r <=? i) && (i <=? snd r)) l.

(** ** The text is read to its end *)
Lemma query_item_rest s : (query_item s).2 = (numlist_item s).2.
Proof.
  unfold query_item, numlist_item. destruct (strtol s) as [v r].
  destruct (Ascii.eqb _ "-"); [|done]. destruct (starts_digit _); [|done]. by destruct (strtol _).
Qed.

(** The items of the text, as bounds read from it. *)
Fixpoint query_items (fuel : nat) (s : string) : list (Z * Z) :=
  match fuel, s with
  | S fuel', String _ _ =>
      let '(n1, n2, rest) := query_item s in (n1, n2) :: query_items fuel' rest
  | _, _ => []
  end.

Definition clip (max : Z) (p : Z * Z) : Z * Z := (Z.min (fst p) max, Z.min (snd p) max).

Lemma query_loop_spec fuel s max : (String.length s <= fuel)%nat ->
  query_loop fuel s max =
  Some (List.filter (fun p => fst p <=? snd p) (map (clip max) (query_items fuel s))).
Proof.
  revert s. induction fuel as [|fuel IH]; intros [|c s] Hl; [done|simpl in Hl; lia|done|].
  cbn [query_loop query_items].
  pose proof (numlist_item_length (String c s) ltac:(done)) as Hlen. rewrite <- query_item_rest in Hlen.
  destruct (query_item (String c s)) as [[n1 n2] rest]. cbn [snd] in Hlen. cbn [String.length] in *.
  assert (Hclip : forall z, (if max <? z then max else z) = Z.min z max) by (intros; case_match; lia).
  rewrite !Hclip, IH by lia. cbn. by destruct (_ <=? _).
Qed.

Lemma in_ranges_iff l i : in_ranges l i = true <-> exists a b, (a, b) ∈ l /\ a <= i <= b.
Proof.
  unfold in_ranges. rewrite existsb_exists. split.
  - intros ([a b] & Hin & Hi). exists a, b. rewrite list_elem_of_In. simpl in Hi. split; [done|lia].
  - intros (a & b & Hin & Hi). exists (a, b). rewrite <- list_elem_of_In. split; [done|]. simpl. lia.
Qed.

Lemma mysql_build_query_spec s max : exists l, mysql_build_query s max = Some l /\
  forall i, in_ranges l i = true <->
    exists a b, (a, b) ∈ query_items (String.length s) s /\ Z.min a max <= i <= Z.min b max.
Proof.
  unfold mysql_build_query. eexists. split; [by apply query_loop_spec|]. intros i. rewrite in_ranges_iff. split.
  - intros (a & b & Hin & Hi). rewrite list_elem_of_In, filter_In, in_map_iff in Hin.
    destruct Hin as [([a' b'] & [= <- <-] & Hin) _]. exists a', b'. by rewrite list_elem_of_In.
  - intros (a & b & Hin & Hi). exists (Z.min a max), (Z.min b max). split; [|done].
    rewrite list_elem_of_In, filter_In, in_map_iff. split; [|simpl; lia].
    exists (a, b). by rewrite <- list_elem_of_In.
Qed.

Lemma in_ranges_clip max l i :
  in_ranges (List.filter (fun p => fst p <=? snd p) (map (clip max) l)) i =
  existsb (fun p => let '(a, b) := clip max p in (a <=? i) && (i <=? b)) l.
Proof.
  induction l as [|[a b] l IH]; [done|]. cbn [map List.filter existsb]. rewrite <- IH.
  change (clip max (a, b)) with (Z.min a max, Z.min b max). cbn [fst snd].
  destruct (Z.leb_spec (Z.min a max) (Z.min b max)); [done|].
  destruct (Z.leb_spec (Z.min a max) i), (Z.leb_spec i (Z.min b max)); simpl; [lia|done..].
Qed.

(** A range that ends before it begins selects nothing. *)
Lemma empty_range max : 1 <= max -> mysql_build_query "2-0" max = Some [].
Proof.
  intros Hm. change (mysql_build_query "2-0" max) with
    (Some (let a := if max <? 2 then max else 2 in
           let b := if max <? 0 then max else 0 in
           if a <=? b then [(a, b)] else [])).
  destruct (Z.ltb_spec max 2), (Z.ltb_spec max 0); cbv zeta; case_match; first [done|lia].
Qed.
