(* ===== verification/CsAccess.v ===== *)
(** ChanServ ACCESS, VOP, AOP and SOP: [src/cs_access.c]. *)

From S2P Require Import Prelude CStr NumTime Wp Track Graph Net Masks Interfaces Channels Users Table Query ChanDB ChanServ Mlock.

Class AccessConf := { CSAccessMax : Z }.

(** Rows of one channel, the higher levels first, and their numbers. *)
Definition rows_of (i : Z) (l : list ChanAccess) : list ChanAccess :=
  List.filter (fun r => ca_channel r =? i) l.
Definition by_level : list ChanAccess -> list ChanAccess := order_by (fun r => - ca_level r).
Definition by_idx : list ChanAccess -> list ChanAccess := order_by ca_idx.

#[export, program] Instance numbered_chanaccess : Numbered ChanAccess :=
  {row_id := ca_id; row_idx := ca_idx; set_idx k r := r{{ca_idx := k}} }.
Solve Obligations with done.

Definition renumber (i : Z) : list ChanAccess -> list ChanAccess :=
  renumber_where (fun r => ca_channel r =? i) (fun r => - ca_level r).

Section Access.
Context `{Conf} `{AccessConf} {E : Type} `{!ChanDB E} `{!NickServ E}.
(** The column [last_used], by id ([touch] writes it). *)
Context (last_used : E -> Z -> Z).
(** What the [int]s of [do_cs_access_del] hold before they are set. *)
Context (junk_last junk_perm : Z).
Implicit Types (n : Net E).

Definition update_db (f : DB -> DB) : M (Net E) unit :=
  modify (fun n => n{{ext ::= fun e => set_db (f (db e)) e}}).
Definition select {A} (f : DB -> A) : M (Net E) A := gets (fun n => f (db (ext n))).

(** *** Nicks ([src/nickserv.c]) *)
Definition mysql_findnick (nk : string) : M (Net E) Z := select (fun d => default 0 (nick_named d nk)).
Definition get_nickinfo_from_id (i : Z) : M (Net E) (option NickRow) := select (fun d => nicks d !! i).
Definition get_nick_from_id (i : Z) : M (Net E) (option string) := select (fun d => n_nick <$> nicks d !! i).
Definition nickinfo_named (d : DB) (nk : string) : option (Z * NickRow) :=
  i ← nick_named d nk; r ← nicks d !! i; Some (i, r).
Definition mysql_findnickinfo (nk : string) : M (Net E) (option (Z * NickRow)) :=
  select (fun d => nickinfo_named d nk).

Definition update_nick (i : Z) (f : NickRow -> NickRow) : M (Net E) unit :=
  update_db (fun d => d{{nicks ::= alter f i}}).

Definition get_nick_flags (nick_id : Z) : M (Net E) Z :=
  select (fun d => match nicks d !! nick_id with Some r => n_flags r | None => 0 end).
Definition add_nick_flags (nick_id new_flags : Z) : M (Net E) unit :=
  update_nick nick_id (fun r => r{{n_flags ::= Z.lor new_flags}}).
Definition remove_nick_flags (nick_id flags : Z) : M (Net E) unit :=
  update_nick nick_id (fun r => r{{n_flags ::= Z.land (Z.lnot flags)}}).

(** [link_id ? link_id : nick_id], also where there is no row. *)
Definition mysql_getlink (nick_id : Z) : M (Net E) Z :=
  select (fun d => let master_id := match nicks d !! nick_id with Some r => n_link r | None => 0 end in
                   if master_id =? 0 then nick_id else master_id).

(** *** The table *)
Definition get_chanaccess_from_nickid (nick_id channel_id : Z) : M (Net E) (option ChanAccess) :=
  select (fun d => find_first (fun r => (ca_nick r =? nick_id) && (ca_channel r =? channel_id)) (chanaccess d)).

Definition chanaccess_count (channel_id : Z) : M (Net E) Z :=
  select (fun d => Z.of_nat (length (rows_of channel_id (chanaccess d)))).

Definition sort_chan_access (channel_id : Z) : M (Net E) unit :=
  update_db (fun d => d{{chanaccess ::= renumber channel_id}}).

(** A verbose channel is told of every change. *)
Definition tell_chan (channel_id : Z) (u : ptr) (text : string) : M (Net E) unit :=
  nm ← get_chan_name channel_id;
  flags ← get_chan_flags channel_id;
  us ← load_user u;
  when (has flags CI_VERBOSE) (opnotice s_ChanServ (default EmptyString nm) (nick us +:+ text)).

Definition modify_access (ca : ChanAccess) (channel_id level : Z) (u : ptr) : M (Net E) unit :=
  t ← gets now;
  us ← load_user u;
  their_nick ← get_nick_from_id (ca_nick ca);
  update_db (fun d => d{{chanaccess ::= map (fun r =>
    if (ca_id r =? ca_id ca) && (ca_channel r =? channel_id) then
      if String.eqb (ca_added_by ca) EmptyString then
        r{{ca_level := level; ca_added := t; ca_last_modified := t;
           ca_added_by := nick us; ca_modified_by := nick us}}
      else r{{ca_level := level; ca_last_modified := t; ca_modified_by := nick us}}
    else r)}});;
  tell_chan channel_id u (" changed the access level for " +:+ BOLD +:+ default EmptyString their_nick +:+ BOLD +:+
    " from " +:+ BOLD +:+ show_int (ca_level ca) +:+ BOLD +:+ " to " +:+ BOLD +:+ show_int level +:+ BOLD);;
  reply u "CHAN_ACCESS_LEVEL_CHANGED";;
  sort_chan_access channel_id.

Definition insert_access (channel_id nick_id level : Z) (u : ptr) : M (Net E) unit :=
  t ← gets now;
  us ← load_user u;
  their_nick ← get_nick_from_id nick_id;
  update_db (fun d => d{{chanaccess := chanaccess d ++
      [mkChanAccess (chanaccess_next d) channel_id nick_id level 0 0 t (nick us) t (nick us)];
    chanaccess_next := chanaccess_next d + 1}});;
  tell_chan channel_id u (" added " +:+ BOLD +:+ default EmptyString their_nick +:+ BOLD +:+
    " to the access list (level " +:+ BOLD +:+ show_int level +:+ BOLD +:+ ")");;
  reply u "CHAN_ACCESS_ADDED";;
  sort_chan_access channel_id.

(** An entry at a level: a new one, or a change of the one there is. *)
Definition set_access (u : ptr) (channel_id nick_id level ulev : Z) : M (Net E) unit :=
  ca ← get_chanaccess_from_nickid nick_id channel_id;
  match ca with
  | Some ca =>
      if ulev <=? ca_level ca then reply u "PERMISSION_DENIED"
      else if ca_level ca =? level then reply u "CHAN_ACCESS_LEVEL_UNCHANGED"
      else modify_access ca channel_id level u
  | None =>
      k ← chanaccess_count channel_id;
      if CSAccessMax <=? k then reply u "CHAN_ACCESS_REACHED_LIMIT"
      else insert_access channel_id nick_id level u
  end.

Definition do_cs_access_add (u : ptr) (channel_id : Z) (nk s : string) : M (Net E) unit :=
  let level := atoi s in
  ulev ← get_access u channel_id;
  if level =? 0 then reply u "CHAN_ACCESS_LEVEL_NONZERO"
  else if (level <=? ACCESS_INVALID) || (ACCESS_FOUNDER <=? level) then reply u "CHAN_ACCESS_LEVEL_RANGE"
  else if ulev <=? level then reply u "ACCESS_DENIED"
  else
    denied ← (if level <? 0 then b ← check_access u channel_id CA_AKICK; mret (negb b) else mret false);
    if denied : bool then reply u "ACCESS_DENIED"
    else
      nick_id ← mysql_findnick nk;
      ni ← (if nick_id =? 0 then mret None else get_nickinfo_from_id nick_id);
      match ni with
      | None => reply u "CHAN_ACCESS_NICKS_ONLY"
      | Some ni =>
          if has (n_status ni) NS_VERBOTEN then reply u "NICK_X_FORBIDDEN"
          else if has (n_flags ni) NI_NOOP then reply u "NICK_X_NOOP"
          else set_access u channel_id nick_id level ulev
      end.

Definition delete_access (id : Z) : M (Net E) unit :=
  update_db (fun d => d{{chanaccess ::= List.filter (fun r => negb (ca_id r =? id))}}).

(** The entry with a number, if its nick exists: [FROM chanaccess, nick]. *)
Definition entry (d : DB) (channel_id num : Z) : option (ChanAccess * NickRow) :=
  r ← find_first (fun r => (ca_channel r =? channel_id) && (ca_idx r =? num) &&
                           bool_decide (is_Some (nicks d !! ca_nick r))) (chanaccess d);
  k ← nicks d !! ca_nick r;
  Some (r, k).

(** Yields the result, and the new values of [*last] and [*perm]. *)
Definition access_del_callback (u : ptr) (channel_id uacc akick_lev : Z) (last perm num : Z)
    : M (Net E) (Z * Z * Z) :=
  if num <? 1 then mret (0, last, perm)
  else
    row ← select (fun d => entry d channel_id num);
    match row with
    | None => mret (0, num, perm)
    | Some (r, k) =>
        if ca_id r =? 0 then mret (0, num, perm)
        else if (uacc <=? ca_level r) || ((ca_level r <? 0) && (uacc <=? akick_lev)) then
          mret (0, num, perm + 1)
        else
          delete_access (ca_id r);;
          tell_chan channel_id u (" removed " +:+ BOLD +:+ n_nick k +:+ BOLD +:+ " (level " +:+ BOLD +:+
            show_int (ca_level r) +:+ BOLD +:+ ") from the access list");;
          mret (1, num, perm)
    end.

(** [process_numlist] over the entries: deleted, [*count], [*last], [*perm]. *)
Fixpoint del_calls (u : ptr) (channel_id uacc akick_lev : Z) (idxs : list Z) (flags : gset Z)
    (retval numcount last perm : Z) : M (Net E) (Z * Z * Z * Z) :=
  match idxs with
  | [] => mret (retval, numcount, last, perm)
  | i :: idxs' =>
      if decide (i ∈ flags) then
        '(res, last, perm) ← access_del_callback u channel_id uacc akick_lev last perm i;
        if res <? 0 then mret (retval, numcount + 1, last, perm)
        else del_calls u channel_id uacc akick_lev idxs' flags (retval + res) (numcount + 1) last perm
      else del_calls u channel_id uacc akick_lev idxs' flags retval numcount last perm
  end.

Definition is_numlist (s : string) : bool := (strspn s "1234567890,-" =? String.length s)%nat.

Definition do_cs_access_del (u : ptr) (channel_id : Z) (nk : string) : M (Net E) unit :=
  akick_lev ← get_chan_level channel_id CA_AKICK;
  if isdigit (hd_char nk) && is_numlist nk then
    uacc ← get_access u channel_id;
    match numlist_loop (String.length nk) nk 1 (u32 (CSAccessMax - 1)) 65536 0 ∅ with
    | None => fault
    | Some (flags, imin, imax) =>
        '(deleted, count, last, perm) ← del_calls u channel_id uacc akick_lev (seqZ imin (imax - imin + 1)) flags
          0 0 junk_last junk_perm;
        if deleted =? 0 then
          if negb (perm =? 0) then reply u "PERMISSION_DENIED"
          else if count =? 1 then reply u ("CHAN_ACCESS_NO_SUCH_ENTRY " +:+ show_int last)
          else reply u "CHAN_ACCESS_NO_MATCH"
        else
          sort_chan_access channel_id;;
          reply u (if deleted =? 1 then "CHAN_ACCESS_DELETED_ONE" else "CHAN_ACCESS_DELETED_SEVERAL")
    end
  else
    ni ← mysql_findnickinfo nk;
    match ni with
    | None => reply u "NICK_X_NOT_REGISTERED"
    | Some (nick_id, ni) =>
        if nick_id =? 0 then reply u "NICK_X_NOT_REGISTERED"
        else
          ca ← get_chanaccess_from_nickid nick_id channel_id;
          let ca_id := match ca with Some r => ca_id r | None => 0 end in
          let their_level := match ca with Some r => ca_level r | None => ACCESS_INVALID end in
          if ca_id =? 0 then reply u "CHAN_ACCESS_NOT_FOUND"
          else
            uacc ← get_access u channel_id;
            if uacc <=? their_level then reply u "PERMISSION_DENIED"
            else
              delete_access ca_id;;
              sort_chan_access channel_id;;
              tell_chan channel_id u (" removed " +:+ BOLD +:+ n_nick ni +:+ BOLD +:+ " (level " +:+ BOLD +:+
                show_int their_level +:+ BOLD +:+ ") from the access list");;
              reply u "CHAN_ACCESS_DELETED"
    end.

(** LIST and VIEW.  A list of numbers without a range gives the query [.. && ()],
    which MySQL refuses: Services end. *)
Definition shown_mask (k : NickRow) : string :=
  if has (n_flags k) NI_HIDE_MASK then EmptyString else " (" +:+ n_usermask k +:+ ")".

Definition list_lines (n : Net E) (r : ChanAccess) (k : NickRow) : list string :=
  ["CHAN_ACCESS_LIST_FORMAT " +:+ show_int (ca_idx r) +:+ " " +:+ show_int (ca_level r) +:+ " " +:+
     n_nick k +:+ shown_mask k].

Definition view_lines (n : Net E) (r : ChanAccess) (k : NickRow) : list string :=
  ["CHAN_ACCESS_VIEW_FORMAT1 " +:+ show_int (ca_idx r) +:+ " " +:+ show_int (ca_level r) +:+ " " +:+
     n_nick k +:+ shown_mask k] ++
  (if ca_added r =? 0 then []
   else [if ca_last_modified r =? 0 then "CHAN_ACCESS_VIEW_FORMAT2_NOMODIFY " +:+ ca_added_by r
         else "CHAN_ACCESS_VIEW_FORMAT2 " +:+ ca_added_by r +:+ " " +:+ ca_modified_by r;
         "CHAN_ACCESS_VIEW_FORMAT3 " +:+ time_ago (now n) (ca_added r)]) ++
  (if ca_last_modified r =? 0 then []
   else ["CHAN_ACCESS_VIEW_FORMAT4 " +:+ time_ago (now n) (ca_last_modified r)]) ++
  [let t := last_used (ext n) (ca_id r) in
   if t =? 0 then "CHAN_ACCESS_VIEW_FORMAT5_NEVER_USED" else "CHAN_ACCESS_VIEW_FORMAT5 " +:+ time_ago (now n) t].

Definition do_cs_access_list (lines : Net E -> ChanAccess -> NickRow -> list string) (header : string)
    (u : ptr) (channel_id : Z) (nk : option string) : M (Net E) unit :=
  k ← chanaccess_count channel_id;
  if k =? 0 then reply u "CHAN_ACCESS_LIST_EMPTY"
  else
    let show (p : ChanAccess -> NickRow -> bool) :=
      rows ← select (fun d => omap (fun r => k ← nicks d !! ca_nick r;
                                             if p r k : bool then Some (r, k) else None)
                                   (by_idx (rows_of channel_id (chanaccess d))));
      when (negb (bool_decide (rows = []))) (reply u header);;
      for_each rows (fun rk => n ← get; for_each (lines n (fst rk) (snd rk)) (reply u));;
      when (bool_decide (rows = [])) (reply u "CHAN_ACCESS_NO_MATCH") in
    match nk with
    | Some nk =>
        if is_numlist nk then
          match mysql_build_query nk CSAccessMax with
          | None | Some [] => fault
          | Some l => show (fun r _ => in_ranges l (ca_idx r))
          end
        else
          i ← select (fun d => nick_named d nk);
          show (fun r _ => bool_decide (i = Some (ca_nick r)))
    | None => show (fun _ _ => true)
    end.

Definition one_of (cmd : string) (l : list string) : bool := existsb (fun s => stricmp cmd s =? 0) l.

Definition do_cs_access (u : ptr) (args : string) : M (Net E) unit :=
  let '(chan, rest) := strtok args " " in
  let '(cmd, rest) := strtok rest " " in
  let '(nk, rest) := strtok rest " " in
  let '(s, _) := strtok rest " " in
  let is_list := match cmd with Some c => one_of c ["LIST"; "COUNT"; "VIEW"] | None => false end in
  stop ← (if is_list then mret false else i ← nick_identified u; mret (negb i));
  if stop : bool then reply u "NICK_IDENTIFY_REQUIRED"
  else
    match chan, cmd with
    | Some chan, Some cmd =>
        let bad := if is_list then false
                   else if stricmp cmd "DEL" =? 0 then bool_decide (nk = None) || negb (bool_decide (s = None))
                   else bool_decide (s = None) in
        if bad then reply u "CHAN_ACCESS_SYNTAX"
        else
          channel_id ← mysql_findchan chan;
          ci ← select (fun d => if channel_id =? 0 then None else channel d !! channel_id);
          match ci with
          | None => reply u "CHAN_X_NOT_REGISTERED"
          | Some ci =>
              if has (ci_flags ci) CI_VERBOTEN then reply u "CHAN_X_FORBIDDEN"
              else
                may ← check_access u channel_id (if is_list then CA_ACCESS_LIST else CA_ACCESS_CHANGE);
                allowed ← (if may : bool then mret true else is_services_admin u);
                if negb allowed then reply u "ACCESS_DENIED"
                else if stricmp cmd "ADD" =? 0 then
                  do_cs_access_add u channel_id (default EmptyString nk) (default EmptyString s)
                else if stricmp cmd "DEL" =? 0 then do_cs_access_del u channel_id (default EmptyString nk)
                else if stricmp cmd "LIST" =? 0 then
                  do_cs_access_list list_lines "CHAN_ACCESS_LIST_HEADER" u channel_id nk
                else if stricmp cmd "VIEW" =? 0 then
                  do_cs_access_list view_lines "CHAN_ACCESS_VIEW_HEADER" u channel_id nk
                else if stricmp cmd "COUNT" =? 0 then
                  k ← chanaccess_count channel_id; reply u ("CHAN_ACCESS_COUNT " +:+ show_int k)
                else reply u "CHAN_ACCESS_SYNTAX"
          end
    | _, _ => reply u "CHAN_ACCESS_SYNTAX"
    end.

(** VOP, AOP and SOP are the same but for the ability that gives the level. *)
Definition do_cs_xop (what : Z) (disabled : string) (u : ptr) (args : string) : M (Net E) unit :=
  let '(chan, rest) := strtok args " " in
  let '(cmd, rest) := strtok rest " " in
  let '(nk, _) := strtok rest " " in
  match chan, cmd, nk with
  | Some chan, Some cmd, Some nk =>
      channel_id ← mysql_findchan chan;
      ci ← select (fun d => if channel_id =? 0 then None else channel d !! channel_id);
      match ci with
      | None => reply u "CHAN_X_NOT_REGISTERED"
      | Some _ =>
          flags ← get_chan_flags channel_id;
          if has flags CI_VERBOTEN then reply u "CHAN_X_FORBIDDEN"
          else
            may ← check_access u channel_id CA_ACCESS_CHANGE;
            allowed ← (if may : bool then mret true else is_services_admin u);
            if negb allowed then reply u "ACCESS_DENIED"
            else if stricmp cmd "ADD" =? 0 then
              reqlev ← get_chan_level channel_id what;
              if reqlev <=? 0 then reply u disabled
              else
                ulev ← get_access u channel_id;
                if ulev <=? reqlev then reply u "PERMISSION_DENIED"
                else if (reqlev <=? ACCESS_INVALID) || (ACCESS_FOUNDER <=? reqlev) then
                  reply u "CHAN_ACCESS_LEVEL_RANGE"
                else
                  ni ← mysql_findnickinfo nk;
                  match ni with
                  | None => reply u "CHAN_ACCESS_NICKS_ONLY"
                  | Some (nick_id, ni) =>
                      if nick_id =? 0 then reply u "CHAN_ACCESS_NICKS_ONLY"
                      else if has (n_status ni) NS_VERBOTEN then reply u "NICK_X_FORBIDDEN"
                      else if has (n_flags ni) NI_NOOP then reply u "NICK_X_NOOP"
                      else set_access u channel_id nick_id reqlev ulev
                  end
            else reply u "CHAN_XOP_SYNTAX"
      end
  | _, _, _ => reply u "CHAN_XOP_SYNTAX"
  end.

Definition do_cs_vop : ptr -> string -> M (Net E) unit := do_cs_xop CA_AUTOVOICE "CHAN_VOP_DISABLED".
Definition do_cs_aop : ptr -> string -> M (Net E) unit := do_cs_xop CA_AUTOOP "CHAN_AOP_DISABLED".
Definition do_cs_sop : ptr -> string -> M (Net E) unit := do_cs_xop CA_AKICK "CHAN_SOP_DISABLED".
End Access.

(** ** Numbering the entries *)
(** Rows up to their numbers. *)
Definition unnumbered (r : ChanAccess) : ChanAccess := r{{ca_idx := 0}}.

(** What MySQL's keys say of the table: one row per id, and per channel and nick. *)
Record rows_ok (l : list ChanAccess) (next : Z) : Prop := {
  ro_ids : NoDup (map ca_id l);
  ro_next : Forall (fun r => 1 <= ca_id r < next) l;
  ro_nicks : NoDup (map (fun r => (ca_channel r, ca_nick r)) l)
}.

Lemma elem_rows_of i l r : r ∈ rows_of i l <-> r ∈ l /\ ca_channel r = i.
Proof. unfold rows_of. by rewrite list_elem_of_In, filter_In, <- list_elem_of_In, Z.eqb_eq. Qed.

Lemma renumber_unnumbered i l : NoDup (map ca_id l) -> map unnumbered (renumber i l) = map unnumbered l.
Proof. intros Hids. by apply renumber_same. Qed.

Lemma renumber_others i l j : NoDup (map ca_id l) -> j <> i -> rows_of j (renumber i l) = rows_of j l.
Proof.
  intros Hids Hj. apply renumber_other; [done..|]. intros r Hr%Z.eqb_eq. apply Z.eqb_neq. congruence.
Qed.

(** The entries of a channel are numbered from 1, the higher levels first. *)
Record numbered (i : Z) (l : list ChanAccess) : Prop := {
  nu_idx : map ca_idx (rows_of i l) ≡ₚ seqZ 1 (Z.of_nat (length (rows_of i l)));
  nu_level : forall r r', r ∈ rows_of i l -> r' ∈ rows_of i l -> ca_level r' < ca_level r -> ca_idx r < ca_idx r'
}.

Lemma map_unnumbered {B} (f : ChanAccess -> B) l l' : (forall r, f (unnumbered r) = f r) ->
  map unnumbered l = map unnumbered l' -> map f l = map f l'.
Proof.
  intros Hf Hl. assert (He : forall k, map f k = map f (map unnumbered k)).
  { intros k. rewrite map_map. apply map_ext. intros r. by rewrite Hf. }
  by rewrite (He l), (He l'), Hl.
Qed.

Lemma Forall_unnumbered (P : ChanAccess -> Prop) l : (forall r, P (unnumbered r) <-> P r) ->
  Forall P (map unnumbered l) <-> Forall P l.
Proof. intros HP. rewrite Forall_map. apply Forall_iff. intros r. apply HP. Qed.

Lemma rows_ok_unnumbered l l' next : map unnumbered l = map unnumbered l' -> rows_ok l next -> rows_ok l' next.
Proof.
  intros Hl [Hi Hn Hk]. split.
  - by rewrite <- (map_unnumbered ca_id l l').
  - apply (Forall_unnumbered (fun r => 1 <= ca_id r < next)); [done|]. rewrite <- Hl.
    by apply (Forall_unnumbered (fun r => 1 <= ca_id r < next)).
  - by rewrite <- (map_unnumbered (fun r => (ca_channel r, ca_nick r)) l l').
Qed.

Lemma renumber_numbered i l : NoDup (map ca_id l) -> numbered i (renumber i l).
Proof.
  intros Hids. split.
  - unfold rows_of, renumber. rewrite renumber_length by done. exact (renumber_idx (fun r => ca_channel r =? i) (fun r => - ca_level r) (fun _ _ => eq_refl) l Hids).
  - intros r r' Hr Hr' Hlt. refine (renumber_ordered (fun r => ca_channel r =? i) (fun r => - ca_level r) _ _ l Hids r r' Hr Hr' _); [done|done|lia].
Qed.

(** ** The steps of a command that changes tables *)
Section Steps.
Context `{Conf} {E : Type} `{!ChanDB E} `{!NickServ E} `{!NickView E}.
Implicit Types (n : Net E) (d : DB) (us : User).

(** Nothing changed but tables, caches and messages. *)
Record undisturbed n n' : Prop := {
  un_users : users_heap n' = users_heap n;
  un_graph : graph_of n' = graph_of n;
  un_now : now n' = now n
}.

#[export] Instance undisturbed_preorder : PreOrder undisturbed.
Proof. split; [by intros n|]. intros n1 n2 n3 [] []. split; congruence. Qed.

#[export] Instance tables_track : Track (Net E) DB := {tracked n := db (ext n); frame := undisturbed}.

Lemma does_pure {A} n (a : A) : does n (mret a) a (db (ext n)).
Proof. exact (does_ret n a). Qed.

Lemma does_query {A} n (m : M (Net E) A) a : query n m a -> does n m a (db (ext n)).
Proof.
  intros Hq. eapply wp_mono; [exact Hq|]. intros ? n' [-> (e & -> & He)]. split; [done|]. by split.
Qed.

Lemma does_select {A} n (f : DB -> A) : does n (select f) (f (db (ext n))) (db (ext n)).
Proof. by apply does_query, query_gets. Qed.

Lemma does_load n u us : users_heap n !! u = Some us -> does n (load_user u) us (db (ext n)).
Proof. intros Hu. by apply does_query, query_load. Qed.

Lemma does_emit n m : does n (emit m) tt (db (ext n)).
Proof. unfold emit, does. apply wp_modify. split; [done|]. by split. Qed.

End Steps.

(** The user is still there. *)
Ltac same_user :=
  solve [repeat match goal with
         | Hu : users_heap ?n !! _ = Some _ |- users_heap ?n !! _ = Some _ => exact Hu
         | Hf : frame ?n ?n' |- users_heap ?n' !! _ = Some _ => rewrite (un_users n n' Hf)
         end].
(** One step of a routine. *)
Ltac does_next lem :=
  let n' := fresh "n" in let Hf := fresh "Hf" in let Hd := fresh "Hd" in
  eapply does_bind; [eapply lem; try same_user|]; intros n' [Hf Hd]; simpl in Hd.
Ltac does_last lem :=
  eapply wp_mono; [eapply lem; try same_user|];
  let Hl := fresh "Hl" in
  intros ? ? [-> [? Hl]]; split; [done|]; split; [done|]; rewrite Hl; simpl;
  repeat match goal with Hd : db (ext ?x) = _ |- context [db (ext ?x)] => rewrite Hd; simpl end;
  reflexivity.

Section MoreSteps.
Context `{Conf} {E : Type} `{!ChanDB E} `{!NickServ E} `{!NickView E}.
Implicit Types (n : Net E) (d : DB) (us : User).

Lemma does_reply n u us text : users_heap n !! u = Some us -> does n (reply u text) tt (db (ext n)).
Proof. intros Hu. unfold reply. does_next does_load. does_last does_emit. Qed.

Lemma does_update n f : does n (update_db f) tt (f (db (ext n))).
Proof. unfold does, update_db. apply wp_modify. split; [done|]. split; [done|]. apply db_set. Qed.

Lemma does_column {A} n (f : ChanInfo -> A) dflt i :
  does n (column f dflt i) (col (db (ext n)) f dflt i) (db (ext n)).
Proof. apply does_query, query_column. Qed.

Lemma does_tell n i u us text : users_heap n !! u = Some us -> does n (tell_chan i u text) tt (db (ext n)).
Proof.
  intros Hu. unfold tell_chan. does_next @does_column. does_next @does_column. does_next does_load.
  destruct (has _ _); [does_last does_emit|does_last @does_ret].
Qed.

Lemma ends_reply {P : DB -> Prop} n n' u us text :
  users_heap n !! u = Some us -> frame n n' -> db (ext n') = db (ext n) -> P (db (ext n)) ->
  wp (reply u text) (ends n P) n'.
Proof.
  intros Hu Hf Hd HP. eapply ends_does; [done| |exact HP]. rewrite <- Hd. eapply does_reply. by rewrite (un_users _ _ Hf).
Qed.

Lemma does_get_access n u us i : users_heap n !! u = Some us ->
  does n (get_access u i) (access_level (db (ext n)) us i) (db (ext n)).
Proof. intros Hu. by apply does_query, query_get_access. Qed.

Lemma does_check_access n u us i what : users_heap n !! u = Some us ->
  does n (check_access u i what) (permits (db (ext n)) us i what) (db (ext n)).
Proof. intros Hu. by apply does_query, query_check_access. Qed.

Lemma does_identified n u us : users_heap n !! u = Some us ->
  does n (nick_identified u) (identified (db (ext n)) us) (db (ext n)).
Proof. intros Hu. by apply does_query, (query_nick_has n u us NS_IDENTIFIED). Qed.

Lemma does_allowed n n' u us (may : bool) : users_heap n !! u = Some us ->
  let d := db (ext n) in
  frame n n' -> db (ext n') = d ->
  does n' (if may then mret true else Interfaces.is_services_admin u) (may || services_admin d us) d.
Proof.
  intros Hu d Hf Hd. rewrite <- Hd. destruct may; [apply does_pure|]. apply does_query.
  pose proof (law_admin u us n' ltac:(same_user)) as Hq. exact Hq.
Qed.

End MoreSteps.

(** One query of a command that has changed nothing yet. *)
Ltac ask lem :=
  let n' := fresh "n" in let Hf := fresh "Hf" in let Hd := fresh "Hd" in
  eapply ends_step; [try eassumption; reflexivity|eapply lem; try same_user|]; intros n' Hf Hd; simpl in Hd;
  repeat match goal with
         | H1 : db (ext ?x) = _, H2 : db (ext n') = db (ext ?x) |- _ => rewrite H1 in H2
         end;
  try match goal with
      | H2 : db (ext n') = db (ext ?n), d := db (ext ?n) |- _ => change (db (ext n)) with d in *
      end;
  repeat match goal with Hd : db (ext ?x) = _ |- context [db (ext ?x)] => rewrite Hd end.
Ltac refuse := solve [eapply ends_reply; [same_user|first [eassumption|reflexivity]|first [eassumption|reflexivity]|by left]].

Lemma stricmp_hd s1 s2 : stricmp s1 s2 = 0 -> tolower (hd_char s1) = tolower (hd_char s2).
Proof.
  destruct s1 as [|a s1], s2 as [|b s2]; cbn [stricmp hd_char]; repeat case_match; try done;
    intros _; by apply Ascii.eqb_eq.
Qed.

(** ** What a command may do to the access list *)
Section AccessSpec.
Context `{Conf} `{AccessConf} {E : Type} `{!ChanDB E} `{!NickServ E} `{!NickView E}.
Context (last_used : E -> Z -> Z) (junk_last junk_perm : Z).
Implicit Types (n : Net E) (d : DB) (us : User).

(** A level that the user may give on the channel. *)
Definition grants d us (i level : Z) : Prop :=
  level <> 0 /\ ACCESS_INVALID < level < ACCESS_FOUNDER /\ level < access_level d us i /\
  (level < 0 -> permits d us i CA_AKICK = true).

(** A registered nick that may be put on lists. *)
Definition listable d (nick_id : Z) : Prop :=
  exists k, nicks d !! nick_id = Some k /\ has (n_status k) NS_VERBOTEN = false /\ has (n_flags k) NI_NOOP = false.

Inductive access_change d us (i : Z) : list ChanAccess -> Z -> Prop :=
  | change_added nick_id level t :
      grants d us i level -> listable d nick_id ->
      (forall r, r ∈ chanaccess d -> (ca_channel r, ca_nick r) <> (i, nick_id)) ->
      Z.of_nat (length (rows_of i (chanaccess d))) < CSAccessMax ->
      access_change d us i
        (chanaccess d ++ [mkChanAccess (chanaccess_next d) i nick_id level 0 0 t (nick us) t (nick us)])
        (chanaccess_next d + 1)
  | change_level l1 r l2 r' :
      chanaccess d = l1 ++ r :: l2 -> ca_channel r = i -> ca_level r < access_level d us i ->
      grants d us i (ca_level r') ->
      r{{ca_level := 0; ca_added := 0; ca_added_by := ""; ca_last_modified := 0; ca_modified_by := ""}} =
        r'{{ca_level := 0; ca_added := 0; ca_added_by := ""; ca_last_modified := 0; ca_modified_by := ""}} ->
      access_change d us i (l1 ++ r' :: l2) (chanaccess_next d)
  | change_removed (p : ChanAccess -> bool) :
      (forall r, r ∈ chanaccess d -> p r = false -> ca_channel r = i /\ ca_level r < access_level d us i) ->
      access_change d us i (List.filter p (chanaccess d)) (chanaccess_next d).

(** A change, and the entries numbered anew. *)
Definition changed_to d us i d' : Prop :=
  exists l k, access_change d us i l k /\ d' = d{{chanaccess := renumber i l; chanaccess_next := k}}.

Lemma does_insert_access n u us i nick_id level : users_heap n !! u = Some us ->
  let d := db (ext n) in
  does n (insert_access i nick_id level u) tt
    (d{{chanaccess := renumber i (chanaccess d ++
          [mkChanAccess (chanaccess_next d) i nick_id level 0 0 (now n) (nick us) (now n) (nick us)]);
        chanaccess_next := chanaccess_next d + 1}}).
Proof.
  intros Hu d. unfold insert_access, d. does_next @does_gets. does_next does_load. does_next @does_select.
  does_next does_update. does_next does_tell. does_next does_reply. does_last does_update.
Qed.

Definition modified (ca : ChanAccess) (i level t : Z) (who : string) (r : ChanAccess) : ChanAccess :=
  if (ca_id r =? ca_id ca) && (ca_channel r =? i) then
    if String.eqb (ca_added_by ca) EmptyString then
      r{{ca_level := level; ca_added := t; ca_last_modified := t; ca_added_by := who; ca_modified_by := who}}
    else r{{ca_level := level; ca_last_modified := t; ca_modified_by := who}}
  else r.

Lemma does_modify_access n u us ca i level : users_heap n !! u = Some us ->
  let d := db (ext n) in
  does n (modify_access ca i level u) tt
    (d{{chanaccess := renumber i (map (modified ca i level (now n) (nick us)) (chanaccess d))}}).
Proof.
  intros Hu d. unfold modify_access, d. does_next @does_gets. does_next does_load. does_next @does_select.
  does_next does_update. does_next does_tell. does_next does_reply. does_last does_update.
Qed.

Lemma map_one (f : ChanAccess -> ChanAccess) l ca : NoDup (map ca_id l) -> ca ∈ l ->
  (forall r, ca_id r <> ca_id ca -> f r = r) ->
  exists l1 l2, l = l1 ++ ca :: l2 /\ map f l = l1 ++ f ca :: l2.
Proof.
  intros Hn Hca Hf. apply list_elem_of_split in Hca as (l1 & l2 & ->). exists l1, l2. split; [done|].
  rewrite map_app in *. simpl in *.
  assert (Hsame : forall l', ca_id ca ∉ map ca_id l' -> map f l' = l').
  { induction l' as [|r l' IH]; [done|]. simpl. intros [Hr Hl]%not_elem_of_cons. by rewrite Hf, IH. }
  apply NoDup_app in Hn as (_ & H1 & [H2 _]%NoDup_cons). rewrite !Hsame; [done|done|].
  intros Hin. apply (H1 _ Hin). constructor.
Qed.

Lemma modified_change n us ca i level :
  let d := db (ext n) in
  rows_ok (chanaccess d) (chanaccess_next d) -> ca ∈ chanaccess d -> ca_channel ca = i ->
  ca_level ca < access_level d us i -> grants d us i level ->
  access_change d us i (map (modified ca i level (now n) (nick us)) (chanaccess d)) (chanaccess_next d).
Proof.
  intros d Hok Hca Hi Hlev Hg.
  destruct (map_one (modified ca i level (now n) (nick us)) (chanaccess d) ca) as (l1 & l2 & Hd & ->);
    [apply Hok|done| |].
  { intros r Hr. unfold modified. apply Z.eqb_neq in Hr. by rewrite Hr. }
  unfold modified. rewrite Hi, !Z.eqb_refl. simpl.
  apply (change_level d us i l1 ca l2); [done|done|done|destruct (String.eqb _ _); exact Hg|].
  by destruct (String.eqb _ _).
Qed.

Lemma does_set_access n u us i nick_id level : users_heap n !! u = Some us ->
  let d := db (ext n) in
  rows_ok (chanaccess d) (chanaccess_next d) -> grants d us i level -> listable d nick_id ->
  exists d', does n (set_access u i nick_id level (access_level d us i)) tt d' /\ (d' = d \/ changed_to d us i d').
Proof.
  intros Hu d Hok Hg Hl. unfold set_access, get_chanaccess_from_nickid.
  destruct (find_first (fun r => (ca_nick r =? nick_id) && (ca_channel r =? i)) (chanaccess d)) as [ca|] eqn:Ef.
  - apply find_first_Some in Ef as Hca. destruct Hca as [Hca [_ Hi]%andb_true_iff]. apply Z.eqb_eq in Hi.
    destruct (access_level d us i <=? ca_level ca) eqn:Elev; [|destruct (ca_level ca =? level) eqn:El].
    1,2: exists d; split; [|by left]; does_next @does_select; fold d in Hd; fold d; rewrite Ef, ?Elev, ?El; does_last does_reply.
    exists (d{{chanaccess := renumber i (map (modified ca i level (now n) (nick us)) (chanaccess d))}}). split.
    + does_next @does_select. fold d. rewrite Ef, Elev, El.
      assert (Hd' : d = db (ext n0)) by (by rewrite Hd). rewrite Hd', <- (un_now _ _ Hf).
      apply does_modify_access; same_user.
    + right. exists (map (modified ca i level (now n) (nick us)) (chanaccess d)), (chanaccess_next d). split.
      * apply modified_change; try done. by apply Z.leb_gt in Elev.
      * by destruct d.
  - destruct (CSAccessMax <=? Z.of_nat (length (rows_of i (chanaccess d)))) eqn:Ek.
    + exists d. split; [|by left]. does_next @does_select. fold d. rewrite Ef.
      unfold chanaccess_count. does_next @does_select. rewrite Hd. fold d. rewrite Ek. does_last does_reply.
    + eexists. split.
      * does_next @does_select. fold d. rewrite Ef. unfold chanaccess_count. does_next @does_select. rewrite Hd. fold d. rewrite Ek.
        assert (Hd' : d = db (ext n1)) by (by rewrite Hd0, Hd). assert (Hn : now n = now n1) by (by rewrite (un_now _ _ Hf0), (un_now _ _ Hf)).
        instantiate (1 := d{{chanaccess := renumber i (chanaccess d ++
          [mkChanAccess (chanaccess_next d) i nick_id level 0 0 (now n) (nick us) (now n) (nick us)]);
          chanaccess_next := chanaccess_next d + 1}}). rewrite Hn, Hd'. apply does_insert_access; same_user.
      * right. eexists _, _. split; [|reflexivity]. apply change_added; try done; [|lia].
        intros r Hr. rewrite find_first_None in Ef. specialize (Ef r Hr).
        intros [= E1 E2]. rewrite E1, E2, !Z.eqb_refl in Ef. done.
Qed.

(** The tables are as before, or changed once. *)
Definition may_change d us i d' : Prop := d' = d \/ changed_to d us i d'.

Lemma ends_set_access n n' u us i nick_id level : users_heap n !! u = Some us ->
  let d := db (ext n) in
  frame n n' -> db (ext n') = d ->
  rows_ok (chanaccess d) (chanaccess_next d) -> grants d us i level -> listable d nick_id ->
  wp (set_access u i nick_id level (access_level d us i)) (ends n (may_change d us i)) n'.
Proof.
  intros Hu d Hf Hd Hok Hg Hl. rewrite <- Hd in Hok, Hg, Hl. rewrite <- Hd.
  destruct (does_set_access n' u us i nick_id level) as (d' & Hdoes & Hd'); [by rewrite (un_users _ _ Hf)|done..|].
  by eapply ends_does.
Qed.

Lemma do_cs_access_add_spec n n' u us i nk s : users_heap n !! u = Some us ->
  let d := db (ext n) in
  frame n n' -> db (ext n') = d -> rows_ok (chanaccess d) (chanaccess_next d) ->
  wp (do_cs_access_add u i nk s) (ends n (may_change d us i)) n'.
Proof.
  intros Hu d Hf Hd Hok. unfold do_cs_access_add. set (level := atoi s). ask does_get_access.
  destruct (Z.eqb_spec level 0) as [|Hl0]; [refuse|].
  destruct ((level <=? ACCESS_INVALID) || (ACCESS_FOUNDER <=? level)) eqn:Hr; [refuse|].
  destruct (Z.leb_spec (access_level d us i) level) as [|Hlt]; [refuse|].
  eapply (ends_step _ _ _ _ _ (if level <? 0 then negb (permits d us i CA_AKICK) else false) d); [done| |].
  { rewrite <- Hd0. destruct (level <? 0); [|apply does_pure]. does_next does_check_access. does_last @does_ret. }
  intros n1 Hf1 Hd1. simpl in Hd1. destruct (if level <? 0 then _ else _) eqn:Hk; [refuse|].
  ask @does_select. set (nick_id := default 0 _).
  eapply (ends_step _ _ _ _ _ (if nick_id =? 0 then None else nicks d !! nick_id) d); [done| |].
  { rewrite <- Hd2. destruct (nick_id =? 0); [apply does_pure|exact (does_select n2 (fun d => nicks d !! nick_id))]. }
  intros n3 Hf3 Hd3. simpl in Hd3. destruct (if nick_id =? 0 then None else _) as [k|] eqn:Ek; [|refuse].
  destruct (has (n_status k) NS_VERBOTEN) eqn:Hv; [refuse|]. destruct (has (n_flags k) NI_NOOP) eqn:Hno; [refuse|].
  apply ends_set_access; try done.
  - split; [done|]. split; [lia|]. split; [done|]. intros Hneg. rewrite (proj2 (Z.ltb_lt _ _) Hneg) in Hk.
    by apply negb_false_iff.
  - exists k. split; [|done]. by destruct (nick_id =? 0).
Qed.

Definition without_entry (r : ChanAccess) d : DB := d{{chanaccess ::= List.filter (fun r' => negb (ca_id r' =? ca_id r))}}.

Lemma entry_Some d i num r k : entry d i num = Some (r, k) ->
  r ∈ chanaccess d /\ ca_channel r = i /\ ca_idx r = num.
Proof.
  unfold entry. destruct (find_first _ _) as [r'|] eqn:Ef; [|done]. simpl.
  destruct (nicks d !! ca_nick r') as [k'|]; [|done]. intros [= -> ->].
  apply find_first_Some in Ef as [Hr [[Hi Hn]%andb_true_iff _]%andb_true_iff].
  by rewrite Z.eqb_eq in Hi, Hn.
Qed.

(** One number: the entry that has it goes, if the user may remove it. *)
Lemma does_callback n u us i uacc akick_lev last perm num : users_heap n !! u = Some us ->
  let d := db (ext n) in
  exists res last' perm' d', does n (access_del_callback u i uacc akick_lev last perm num) (res, last', perm') d' /\
    (res = 0 /\ d' = d \/
     res = 1 /\ exists r, r ∈ chanaccess d /\ ca_channel r = i /\ ca_idx r = num /\ ca_level r < uacc /\
       (ca_level r < 0 -> akick_lev < uacc) /\ d' = without_entry r d).
Proof.
  intros Hu d. unfold access_del_callback. destruct (num <? 1).
  { do 4 eexists. split; [apply does_pure|]. by left. }
  destruct (entry d i num) as [[r k]|] eqn:Ee.
  2:{ exists 0, num, perm, d. split; [|by left]. does_next @does_select. fold d. rewrite Ee. does_last @does_pure. }
  apply entry_Some in Ee as He. destruct He as (Hr & Hi & Hn).
  destruct (ca_id r =? 0) eqn:Eid.
  { exists 0, num, perm, d. split; [|by left]. does_next @does_select. fold d. rewrite Ee, Eid. does_last @does_pure. }
  destruct ((uacc <=? ca_level r) || ((ca_level r <? 0) && (uacc <=? akick_lev))) eqn:Ep.
  { exists 0, num, (perm + 1), d. split; [|by left]. does_next @does_select. fold d. rewrite Ee, Eid, Ep. does_last @does_pure. }
  exists 1, num, perm, (without_entry r d). split.
  - does_next @does_select. fold d. rewrite Ee, Eid, Ep. does_next does_update. does_next does_tell.
    does_last @does_pure.
  - right. split; [done|]. exists r. apply orb_false_iff in Ep as [E1 E2]. split_and!; try done; [lia|].
    intros Hneg. rewrite (proj2 (Z.ltb_lt _ _) Hneg) in E2. simpl in E2. lia.
Qed.

(** Entries the user may remove. *)
Definition removable d us i (p : ChanAccess -> bool) : Prop :=
  forall r, r ∈ chanaccess d -> p r = false -> ca_channel r = i /\ ca_level r < access_level d us i.

Lemma filter_filter {A} (p q : A -> bool) l : List.filter q (List.filter p l) = List.filter (fun x => p x && q x) l.
Proof. induction l as [|x l IH]; simpl; [done|]. destruct (p x); simpl; [destruct (q x)|]; by rewrite IH. Qed.

Lemma removable_more d us i p r : NoDup (map ca_id (chanaccess d)) -> removable d us i p ->
  r ∈ chanaccess d -> ca_channel r = i -> ca_level r < access_level d us i ->
  removable d us i (fun r' => p r' && negb (ca_id r' =? ca_id r)).
Proof.
  intros Hids Hp Hr Hi Hl r' Hr' [Hf|Hf]%andb_false_iff; [by apply Hp|].
  apply negb_false_iff, Z.eqb_eq in Hf. by rewrite (map_inj_in ca_id _ r' r Hids).
Qed.

Lemma del_calls_spec n n' u us i akick_lev idxs flags retval count last perm p : users_heap n !! u = Some us ->
  let d := db (ext n) in
  NoDup (map ca_id (chanaccess d)) -> frame n n' -> removable d us i p ->
  db (ext n') = d{{chanaccess := List.filter p (chanaccess d)}} -> 0 <= retval -> (retval = 0 -> db (ext n') = d) ->
  wp (del_calls u i (access_level d us i) akick_lev idxs flags retval count last perm)
    (fun r n'' => frame n n'' /\ 0 <= r.1.1.1 /\ (r.1.1.1 = 0 -> db (ext n'') = d) /\
       exists q, removable d us i q /\ db (ext n'') = d{{chanaccess := List.filter q (chanaccess d)}}) n'.
Proof.
  intros Hu d Hids. revert n' retval count last perm p.
  induction idxs as [|k idxs IH]; intros n' retval count last perm p Hf Hp Hd Hpos Hz; cbn [del_calls].
  - apply wp_ret. split; [done|]. split; [done|]. split; [done|]. by exists p.
  - destruct (decide (k ∈ flags)); [|by eapply IH].
    destruct (does_callback n' u us i (access_level d us i) akick_lev last perm k) as (res & last' & perm' & d' & Hdoes & Hres);
      [same_user|].
    eapply wp_does; [exact Hdoes|]. intros n1 [Hf1 Hd1]. simpl in Hd1.
    assert (Hf' : frame n n1) by (by transitivity n').
    destruct Hres as [[-> ->]|[-> (r & Hr & Hi & _ & Hlt & _ & ->)]].
    + rewrite Z.add_0_r. eapply IH; try done; rewrite Hd1; done.
    + assert (Hr' : r ∈ chanaccess d /\ p r = true).
      { rewrite Hd in Hr. cbn in Hr. by rewrite list_elem_of_In, filter_In, <- list_elem_of_In in Hr. }
      eapply (IH n1 _ _ _ _ (fun r' => p r' && negb (ca_id r' =? ca_id r))); try done; [|rewrite Hd1, Hd; unfold without_entry; cbn|lia|lia].
      * apply removable_more; try done; apply Hr'.
      * by rewrite filter_filter.
Qed.

Lemma does_sort n i : does n (sort_chan_access i) tt ((db (ext n)){{chanaccess ::= renumber i}}).
Proof. apply does_update. Qed.

Lemma changed_removed d us i p : removable d us i p ->
  changed_to d us i (d{{chanaccess := renumber i (List.filter p (chanaccess d))}}).
Proof.
  intros Hp. exists (List.filter p (chanaccess d)), (chanaccess_next d). split; [by apply change_removed|].
  by destruct d.
Qed.

Lemma filter_all {A} (l : list A) : List.filter (fun _ => true) l = l.
Proof. induction l as [|x l IH]; simpl; [done|by rewrite IH]. Qed.

Lemma same_access d l : l = chanaccess d -> d = d{{chanaccess := l}}.
Proof. intros ->. by destruct d. Qed.

Lemma numlist_loop_total s min max : exists f a b, numlist_loop (String.length s) s min max 65536 0 ∅ = Some (f, a, b).
Proof.
  destruct (numlist_loop_spec (String.length s) s min max 65536 0 ∅) as (f & a & b & Ef & _); [done|set_solver|]. eauto.
Qed.

Lemma do_cs_access_del_spec n n' u us i nk : users_heap n !! u = Some us ->
  let d := db (ext n) in
  frame n n' -> db (ext n') = d -> rows_ok (chanaccess d) (chanaccess_next d) ->
  wp (do_cs_access_del junk_last junk_perm u i nk) (ends n (may_change d us i)) n'.
Proof.
  intros Hu d Hf Hd Hok. unfold do_cs_access_del. ask @does_gets. destruct (_ && is_numlist nk).
  - ask does_get_access. destruct (numlist_loop_total nk 1 (u32 (CSAccessMax - 1))) as (f & a & b & ->).
    apply wp_bind. eapply wp_mono.
    { eapply (del_calls_spec n _ u us i _ _ f 0 0 _ _ (fun _ => true)); [done|apply Hok|done|by intros ?|..]; [|done|done].
      rewrite Hd1. apply same_access, filter_all. }
    intros [[[deleted count] last] perm] n2 (Hf2 & _ & Hz & q & Hq & Hd2). cbn [fst snd] in *.
    destruct (Z.eqb_spec deleted 0) as [Hdel|Hdel].
    + specialize (Hz Hdel). destruct (negb _); [refuse|]. destruct (count =? 1); refuse.
    + eapply ends_step; [exact Hf2|apply does_sort|]. intros n3 Hf3 Hd3.
      eapply ends_does; [exact Hf3|eapply does_reply; same_user|]. right.
      simpl in Hd3. rewrite Hd3, Hd2. cbn. by apply changed_removed.
  - ask @does_select. destruct (nickinfo_named _ nk) as [[nick_id ni]|]; [|refuse].
    destruct (nick_id =? 0); [refuse|]. ask @does_select.
    destruct (find_first _ (chanaccess d)) as [ca|] eqn:Ef; [|refuse].
    destruct (ca_id ca =? 0); [refuse|]. ask does_get_access.
    destruct (Z.leb_spec (access_level d us i) (ca_level ca)) as [|Hlt]; [refuse|].
    apply find_first_Some in Ef as [Hca [_ Hi]%andb_true_iff]. apply Z.eqb_eq in Hi.
    eapply ends_step; [exact Hf3|apply does_update|]. intros n4 Hf4 Hd4. simpl in Hd4.
    eapply ends_step; [exact Hf4|apply does_sort|]. intros n5 Hf5 Hd5. simpl in Hd5.
    eapply ends_step; [exact Hf5|eapply does_tell; same_user|]. intros n6 Hf6 Hd6. simpl in Hd6.
    eapply ends_does; [exact Hf6|eapply does_reply; same_user|]. right.
    rewrite Hd6, Hd5, Hd4, Hd3. cbn. apply changed_removed.
    apply (removable_more d us i (fun _ => true) ca); [apply Hok|by intros ?|done..].
Qed.

Lemma does_list n u us lines header i nk : users_heap n !! u = Some us ->
  (forall s, nk = Some s -> is_numlist s = true -> mysql_build_query s CSAccessMax <> Some []) ->
  does n (do_cs_access_list lines header u i nk) tt (db (ext n)).
Proof.
  intros Hu Hnk. unfold do_cs_access_list, chanaccess_count. does_next @does_select.
  destruct (_ =? 0); [does_last does_reply|].
  assert (Hshow : forall p n1, frame n n1 -> db (ext n1) = db (ext n) -> does n1 (
    rows ← select (fun d => omap (fun r => k ← nicks d !! ca_nick r;
                                         if p r k : bool then Some (r, k) else None)
                               (by_idx (rows_of i (chanaccess d))));
    when (negb (bool_decide (rows = []))) (reply u header);;
    for_each rows (fun rk => n ← get; for_each (lines n (fst rk) (snd rk)) (reply u));;
    when (bool_decide (rows = [])) (reply u "CHAN_ACCESS_NO_MATCH")) tt (db (ext n))).
  { intros p n1 Hf1 Hd1. rewrite <- Hd1.
    assert (Hw : forall b text n', frame n1 n' -> does n' (when b (reply u text)) tt (db (ext n'))).
    { intros b text n' Hf'. destruct b; [eapply does_reply; same_user|apply does_pure]. }
    eapply does_bind; [apply does_select|]. intros n2 [Hf2 Hd2].
    eapply does_bind; [by apply Hw|]. intros n3 [Hf3 Hd3].
    assert (Hf13 : frame n1 n3) by (by transitivity n2). simpl in Hd2, Hd3.
    eapply does_bind.
    { apply (does_for_each (D := DB)). intros [r k] n' Hf'. eapply does_bind; [apply (does_gets n' id)|].
      intros n4 [Hf4 Hd4]. rewrite <- Hd4. apply (does_for_each (D := DB)). intros text n5 Hf5. eapply does_reply; same_user. }
    intros n4 [Hf4 Hd4]. simpl in Hd4. rewrite <- Hd2, <- Hd3, <- Hd4. apply Hw. by transitivity n3. }
  destruct nk as [s|]; [|by apply (Hshow (fun _ _ => true))]. specialize (Hnk s eq_refl). destruct (is_numlist s).
  - destruct (mysql_build_query_spec s CSAccessMax) as (l & Hl & _). rewrite Hl in *.
    destruct l as [|rg l]; [by destruct Hnk|]. by apply (Hshow (fun r _ => in_ranges (rg :: l) (ca_idx r))).
  - eapply does_bind; [apply does_select|]. intros n1 [Hf1 Hd1]. set (i' := nick_named _ s).
    apply (Hshow (fun r _ => bool_decide (i' = Some (ca_nick r)))); [by transitivity n0|]. simpl in Hd1. congruence.
Qed.

(** The third word of the arguments is no list of numbers that names none. *)
Definition names_some (args : string) : Prop :=
  let third := fst (strtok (snd (strtok (snd (strtok args " ")) " ")) " ") in
  match third with
  | Some s => is_numlist s = true -> mysql_build_query s CSAccessMax <> Some []
  | None => True
  end.

(** Who may change the access list of a channel. *)
Definition may_edit d us (chan : string) (i : Z) : Prop :=
  default 0 (channel_named d chan) = i /\ i <> 0 /\
  (exists ci, channel d !! i = Some ci /\ has (ci_flags ci) CI_VERBOTEN = false) /\
  (permits d us i CA_ACCESS_CHANGE = true \/ services_admin d us = true).

(** Nothing changes, or one access list does, by somebody who may. *)
Definition edited d us (P : Prop) d' : Prop :=
  d' = d \/ P /\ exists chan i, may_edit d us chan i /\ changed_to d us i d'.

Lemma ends_edit {A} n n' (m : M (Net E) A) d us chan i (P : Prop) :
  P -> may_edit d us chan i -> wp m (ends n (may_change d us i)) n' -> wp m (ends n (edited d us P)) n'.
Proof.
  intros HP Hm Hw. eapply wp_mono; [exact Hw|]. intros a n'' [Hf [Hd|Hd]]; split; [done|by left|done|].
  right. split; [done|]. by exists chan, i.
Qed.

Lemma ends_list n n' u us lines header i nk P : users_heap n !! u = Some us ->
  frame n n' -> db (ext n') = db (ext n) ->
  (forall s, nk = Some s -> is_numlist s = true -> mysql_build_query s CSAccessMax <> Some []) ->
  wp (do_cs_access_list lines header u i nk) (ends n (edited (db (ext n)) us P)) n'.
Proof.
  intros Hu Hf Hd Hnk. eapply ends_does; [exact Hf|eapply does_list; [same_user|done]|]. left. exact Hd.
Qed.

Lemma do_cs_access_spec n u us args : users_heap n !! u = Some us ->
  let d := db (ext n) in
  rows_ok (chanaccess d) (chanaccess_next d) -> names_some args ->
  wp (do_cs_access last_used junk_last junk_perm u args) (ends n (edited d us (identified d us = true))) n.
Proof.
  intros Hu d Hok Hnames. unfold do_cs_access, names_some in *.
  destruct (strtok args " ") as [chan rest]. cbn [snd] in Hnames. destruct (strtok rest " ") as [cmd rest1].
  cbn [snd] in Hnames. destruct (strtok rest1 " ") as [nk rest2]. cbn [fst] in Hnames.
  destruct (strtok rest2 " ") as [s rest3]. set (is_list := match cmd with Some _ => _ | None => _ end).
  eapply (ends_step _ _ _ _ _ (if is_list then false else negb (identified d us)) d); [reflexivity| |].
  { destruct is_list; [apply does_pure|]. does_next does_identified. does_last @does_pure. }
  intros n1 Hf1 Hd1. simpl in Hd1. destruct (if is_list then false else _) eqn:Hstop; [refuse|].
  destruct chan as [chan|]; [|refuse]. destruct cmd as [cmd|]; [|refuse].
  destruct (if is_list then false else _) eqn:Hbad in |- *; [refuse|].
  ask @does_gets. set (i := default 0 (channel_named d chan)). ask @does_select.
  destruct (if i =? 0 then None else channel d !! i) as [ci|] eqn:Ec; [|refuse].
  destruct (has (ci_flags ci) CI_VERBOTEN) eqn:Hv; [refuse|]. ask does_check_access.
  eapply ends_step; [eassumption|by eapply (does_allowed n)|]. intros n4 Hf4 Hd4. simpl in Hd4. change (db (ext n4) = d) in Hd4. fold d.
  destruct (negb (permits d us i _ || services_admin d us)) eqn:Hal; [refuse|]. apply negb_false_iff, orb_true_iff in Hal.
  assert (Hid : is_list = false -> identified d us = true) by (intros Hl; rewrite Hl in Hstop; by apply negb_false_iff).
  assert (Hedit : is_list = false -> may_edit d us chan i).
  { intros Hl. rewrite Hl in Hal. split; [done|]. destruct (Z.eqb_spec i 0); [done|]. split; [done|].
    split; [by exists ci|done]. }
  assert (Hnk : forall s, nk = Some s -> is_numlist s = true -> mysql_build_query s CSAccessMax <> Some [])
    by (by intros ? ->).
  assert (Hone : forall l w, one_of cmd l = false -> w ∈ l -> (stricmp cmd w =? 0) = false).
  { unfold one_of. intros l w Hl Hw. rewrite <- not_true_iff_false in *. intros Hs. apply Hl, existsb_exists.
    exists w. by rewrite <- list_elem_of_In. }
  assert (Hlist : is_list = true -> stricmp cmd "ADD" =? 0 = false /\ stricmp cmd "DEL" =? 0 = false).
  { intros Hl. subst is_list. unfold one_of in Hl. apply existsb_exists in Hl as (w & Hw & Hs).
    apply Z.eqb_eq, stricmp_hd in Hs.
    split; apply Z.eqb_neq; intros Ha%stricmp_hd; rewrite Hs in Ha; simpl in Hw; intuition (subst; discriminate). }
  destruct (stricmp cmd "ADD" =? 0) eqn:Eadd.
  { destruct is_list eqn:El; [by destruct (Hlist eq_refl)|].
    eapply ends_edit; [by apply Hid|by apply Hedit|]. by apply do_cs_access_add_spec. }
  destruct (stricmp cmd "DEL" =? 0) eqn:Edel.
  { destruct is_list eqn:El; [by destruct (Hlist eq_refl)|].
    eapply ends_edit; [by apply Hid|by apply Hedit|]. by apply do_cs_access_del_spec. }
  destruct (stricmp cmd "LIST" =? 0); [by eapply ends_list|].
  destruct (stricmp cmd "VIEW" =? 0); [by eapply ends_list|].
  destruct (stricmp cmd "COUNT" =? 0); [|refuse]. unfold chanaccess_count. ask @does_select. refuse.
Qed.

Lemma do_cs_xop_spec n u us what disabled args : users_heap n !! u = Some us ->
  let d := db (ext n) in
  rows_ok (chanaccess d) (chanaccess_next d) ->
  wp (do_cs_xop what disabled u args) (ends n (edited d us True)) n.
Proof.
  intros Hu d Hok. unfold do_cs_xop. destruct (strtok args " ") as [chan rest].
  destruct (strtok rest " ") as [cmd rest1]. destruct (strtok rest1 " ") as [nk rest2].
  destruct chan as [chan|]; [|refuse]. destruct cmd as [cmd|]; [|refuse]. destruct nk as [nk|]; [|refuse].
  ask @does_gets. fold d in Hd |- *. set (i := default 0 (channel_named d chan)). ask @does_select.
  destruct (if i =? 0 then None else channel d !! i) as [ci|] eqn:Ec; [|refuse].
  ask @does_column. destruct (has _ CI_VERBOTEN) eqn:Hv; [refuse|]. ask does_check_access.
  eapply ends_step; [eassumption|by eapply (does_allowed n)|]. intros n4 Hf4 Hd4. simpl in Hd4. change (db (ext n4) = d) in Hd4. fold d.
  destruct (negb (permits d us i _ || services_admin d us)) eqn:Hal; [refuse|].
  apply negb_false_iff, orb_true_iff in Hal. destruct (stricmp cmd "ADD" =? 0); [|refuse].
  ask @does_gets. set (lev := default _ _).
  destruct (Z.leb_spec lev 0) as [|Hpos]; [refuse|]. ask does_get_access.
  destruct (Z.leb_spec (access_level d us i) lev) as [|Hlt]; [refuse|].
  destruct ((lev <=? ACCESS_INVALID) || (ACCESS_FOUNDER <=? lev)) eqn:Hr; [refuse|].
  ask @does_select. destruct (nickinfo_named d nk) as [[nick_id k]|] eqn:Ek; [|refuse].
  destruct (nick_id =? 0); [refuse|]. destruct (has (n_status k) NS_VERBOTEN) eqn:Hs; [refuse|].
  destruct (has (n_flags k) NI_NOOP) eqn:Hno; [refuse|].
  apply (ends_edit n _ _ d us chan i); [done| |apply ends_set_access; try done].
  - split; [done|]. destruct (Z.eqb_spec i 0); [done|]. split; [done|]. split; [|done]. exists ci. split; [done|].
    unfold col in Hv. by rewrite Ec in Hv.
  - split; [lia|]. split; [lia|]. split; [done|]. lia.
  - exists k. split; [|done]. unfold nickinfo_named in Ek. destruct (nick_named d nk) as [j|]; [|done]. simpl in Ek.
    destruct (nicks d !! j) as [k'|] eqn:Ej; [|done]. simpl in Ek. by injection Ek as <- <-.
Qed.

(** *** The table stays sound *)
Lemma access_change_ok d us i l k : rows_ok (chanaccess d) (chanaccess_next d) -> 1 <= chanaccess_next d ->
  access_change d us i l k -> rows_ok l k /\ chanaccess_next d <= k.
Proof.
  intros [Hids Hnext Hnicks] Hpos Hc. destruct Hc as [nick_id level t Hg Hl Hnew Hlen|l1 r l2 r' Hd Hi Hlt Hg He|p Hp].
  - split; [|lia]. split.
    + rewrite map_app. apply NoDup_app. split; [done|]. split; [|apply NoDup_singleton].
      simpl. intros x Hx ->%list_elem_of_singleton. apply list_elem_of_In, in_map_iff in Hx as (r & Er & Hr).
      rewrite Forall_forall in Hnext. rewrite <- list_elem_of_In in Hr. specialize (Hnext r Hr). lia.
    + apply Forall_app. split; [|repeat constructor; simpl; lia]. eapply Forall_impl; [exact Hnext|]. simpl. lia.
    + rewrite map_app. apply NoDup_app. split; [done|]. split; [|apply NoDup_singleton].
      simpl. intros x Hx ->%list_elem_of_singleton. apply list_elem_of_In, in_map_iff in Hx as (r & Er & Hr).
      rewrite <- list_elem_of_In in Hr. by apply (Hnew r).
  - split; [|lia]. assert (Hid : ca_id r' = ca_id r /\ ca_channel r' = ca_channel r /\ ca_nick r' = ca_nick r)
      by (destruct r, r'; simpl in He; by injection He).
    destruct Hid as (H1 & H2 & H3). rewrite Hd in Hids, Hnext, Hnicks. split.
    + rewrite map_app in *. simpl in *. by rewrite H1.
    + apply Forall_app in Hnext as [? [? ?]%Forall_cons]. apply Forall_app. split; [done|].
      constructor; [by rewrite H1|done].
    + rewrite map_app in *. simpl in *. by rewrite H2, H3.
  - split; [|lia].
    assert (Hsub : forall {B} (f : ChanAccess -> B) l', NoDup (map f l') -> NoDup (map f (List.filter p l'))).
    { intros B f. induction l' as [|r l' IH]; simpl; [done|]. intros [Hr Hn]%NoDup_cons.
      destruct (p r); [|by apply IH]. simpl. apply NoDup_cons. split; [|by apply IH].
      intros Hin. apply Hr. apply list_elem_of_In, in_map_iff in Hin as (x & <- & [Hx _]%filter_In).
      by apply list_elem_of_In, in_map. }
    split; [by apply Hsub| |by apply Hsub]. rewrite Forall_forall in *. intros r Hr. apply Hnext.
    apply list_elem_of_In, filter_In in Hr as [Hr _]. by apply list_elem_of_In.
Qed.

Lemma changed_to_ok d us i d' : rows_ok (chanaccess d) (chanaccess_next d) -> 1 <= chanaccess_next d ->
  changed_to d us i d' -> rows_ok (chanaccess d') (chanaccess_next d') /\ numbered i (chanaccess d') /\
    (forall j, j <> i -> rows_of j (chanaccess d') = rows_of j (chanaccess d)).
Proof.
  intros Hok Hpos (l & k & Hc & ->).
  change (rows_ok (renumber i l) k /\ numbered i (renumber i l) /\
    (forall j, j <> i -> rows_of j (renumber i l) = rows_of j (chanaccess d))).
  destruct (access_change_ok _ _ _ _ _ Hok Hpos Hc) as [Hl Hk].
  split; [|split].
  - eapply rows_ok_unnumbered; [|exact Hl]. symmetry. apply renumber_unnumbered, Hl.
  - apply renumber_numbered, Hl.
  - intros j Hj. rewrite (renumber_others i l j (ro_ids _ _ Hl) Hj).
    destruct Hc as [nick_id level t _ _ _ _|l1 r l2 r' Hd Hi _ _ He|p Hp].
    + unfold rows_of. rewrite List.filter_app. simpl. destruct (Z.eqb_spec i j); [congruence|]. apply app_nil_r.
    + assert (ca_channel r' = i) by (destruct r, r'; simpl in *; by injection He as <- <- <- <- <-).
      rewrite Hd. unfold rows_of. rewrite !List.filter_app. simpl.
      destruct (Z.eqb_spec (ca_channel r) j); [congruence|]. by destruct (Z.eqb_spec (ca_channel r') j); [congruence|].
    + unfold rows_of. rewrite filter_filter. apply List.filter_ext_in. intros r Hr%list_elem_of_In.
      destruct (p r) eqn:Ep; [done|]. destruct (Hp r Hr Ep) as [Hi _]. simpl. symmetry. apply Z.eqb_neq. congruence.
Qed.
End AccessSpec.

(** ** Properties *)
Section Properties.
Context `{Conf} `{AccessConf} {E : Type} `{!ChanDB E} `{!NickServ E} `{!NickView E}.
Context (last_used : E -> Z -> Z) (junk_last junk_perm : Z).
Implicit Types (n : Net E).

(** What a command that edits access lists may leave. *)
Definition edits n us (P : Prop) n' : Prop :=
  undisturbed n n' /\
  (db (ext n') = db (ext n) \/
   P /\ exists chan i, may_edit (db (ext n)) us chan i /\ changed_to (db (ext n)) us i (db (ext n')) /\
     rows_ok (chanaccess (db (ext n'))) (chanaccess_next (db (ext n'))) /\
     numbered i (chanaccess (db (ext n'))) /\
     forall j, j <> i -> rows_of j (chanaccess (db (ext n'))) = rows_of j (chanaccess (db (ext n)))).

Lemma edits_edited {A} n us (P : Prop) (m : M (Net E) A) :
  rows_ok (chanaccess (db (ext n))) (chanaccess_next (db (ext n))) -> 1 <= chanaccess_next (db (ext n)) ->
  wp m (ends n (edited (db (ext n)) us P)) n -> wp m (fun _ => edits n us P) n.
Proof.
  intros Hok Hpos Hm. eapply wp_mono; [exact Hm|]. intros a n' [Hf [Hd|[HP (chan & i & Hm' & Hc)]]]; split; [done|by left|done|].
  right. split; [done|]. exists chan, i. split; [done|]. split; [done|]. by apply (changed_to_ok _ us i).
Qed.


Lemma does_none {A B} n (m : M (Net E) A) (k : A -> M (Net E) B) a d :
  does n m a d -> (forall n', leaves d n n' -> k a n' = None) -> mbind k m n = None.
Proof.
  unfold does, wp, mbind, M_bind. destruct (m n) as [[b n']|]; [|done]. intros [-> Hl] Hk. by apply Hk.
Qed.

(** Whoever may see the access list of a channel can end Services: ACCESS LIST
    (or VIEW) with numbers that form no range, such as [2-0], makes a query with
    an empty condition, and a query MySQL refuses is fatal. *)
Theorem access_list_empty_range_fatal n u us chan i ci
  (Hu : users_heap n !! u = Some us)
  (Hchan : strtok (chan +:+ " LIST 2-0") " " = (Some chan, "LIST 2-0"))
  (Hi : channel_named (db (ext n)) chan = Some i) (Hi0 : i <> 0)
  (Hci : channel (db (ext n)) !! i = Some ci) (Hv : has (ci_flags ci) CI_VERBOTEN = false)
  (Hmay : permits (db (ext n)) us i CA_ACCESS_LIST = true)
  (Hrows : rows_of i (chanaccess (db (ext n))) <> []) (Hmax : 1 <= CSAccessMax) :
  do_cs_access last_used junk_last junk_perm u (chan +:+ " LIST 2-0") n = None.
Proof.
  unfold do_cs_access. rewrite Hchan. cbv beta iota.
  change (strtok "LIST 2-0" " ") with (Some "LIST", "2-0"). cbv beta iota.
  change (strtok "2-0" " ") with (Some "2-0", EmptyString). cbv beta iota.
  change (strtok EmptyString " ") with (@None string, EmptyString). cbv beta iota. change (one_of "LIST" ["LIST"; "COUNT"; "VIEW"]) with true. cbv beta iota.
  eapply does_none; [apply does_pure|]. intros n1 [Hf1 Hd1]. simpl in Hd1.
  eapply does_none; [apply does_gets|]. intros n2 [Hf2 Hd2]. simpl in Hd2. rewrite Hd1, Hi.
  change (default 0 (Some i)) with i.
  eapply does_none; [apply does_select|]. intros n3 [Hf3 Hd3]. simpl in Hd3.
  rewrite Hd2, Hd1. destruct (Z.eqb_spec i 0); [done|]. rewrite Hci, Hv.
  eapply does_none; [eapply does_check_access; by rewrite (un_users _ _ Hf3), (un_users _ _ Hf2), (un_users _ _ Hf1)|]. intros n4 [Hf4 Hd4]. simpl in Hd4.
  rewrite Hd3, Hd2, Hd1, Hmay. eapply does_none; [apply does_pure|]. intros n5 [Hf5 Hd5]. simpl in Hd5.
  change (stricmp "LIST" "ADD" =? 0) with false. change (stricmp "LIST" "DEL" =? 0) with false.
  change (stricmp "LIST" "LIST" =? 0) with true. cbv beta iota. cbn [negb].
  unfold do_cs_access_list. eapply does_none; [apply does_select|]. intros n6 _.
  assert (Hlen : Z.of_nat (length (rows_of i (chanaccess (db (ext n5))))) =? 0 = false).
  { rewrite Hd5, Hd4, Hd3, Hd2, Hd1. destruct (rows_of i _); [done|]. apply Z.eqb_neq. simpl. lia. }
  rewrite Hlen. change (is_numlist "2-0") with true. cbv beta iota.
  by rewrite empty_range.
Qed.
End Properties.

(** ** Examples *)
Module Witness.
Import Demo Tables.

#[local] Instance access_conf : AccessConf := { CSAccessMax := 800 }.

Lemma tables_rows_ok : rows_ok (chanaccess (db (ext Tables.net))) (chanaccess_next (db (ext Tables.net))).
Proof. split; [apply NoDup_singleton|repeat constructor; simpl; lia|apply NoDup_singleton]. Qed.

(** alice founded #a. *)
Definition founder_alice : User := Demo.alice{{nick_id := 7; real_id := 7}}.


Lemma access_list_empty_range_fatal_witness :
  do_cs_access (fun _ _ => 0) 0 0 1 "#a LIST 2-0" Tables.net = None.
Proof.
  apply (access_list_empty_range_fatal (fun _ _ => 0) 0 0 Tables.net 1 founder_alice "#a" 1 row); by vm_compute.
Defined.

(** eve goes above carol. *)
Example eve_added :
  (fun r => map (fun c => (ca_nick c, ca_level c, ca_idx c)) (chanaccess (db (ext (snd r))))) <$>
    do_cs_access (fun _ _ => 0) 0 0 1 "#a ADD eve 7" Tables.net = Some [(9, 5, 2); (8, 7, 1)].
Proof. by vm_compute. Qed.
End Witness.
