(* ===== verification/CsLists.v ===== *)
(** ChanServ's lists of autokicks and of levels: the commands AKICK and LEVELS
    ([src/chanserv.c]). *)

From S2P Require Import Prelude CStr Wild NumTime Wp Track Graph Net Masks Interfaces Channels Users Table Query ChanDB ChanServ Mlock CsAccess.

Class AkickConf := { CSAutokickMax : Z }.

Definition QUOTE : string := String "034" EmptyString.

(** [levelinfo]: an ability and what LEVELS calls it. *)
Definition levelinfo : list (Z * string) :=
  [(CA_AUTOOP, "AUTOOP"); (CA_AUTOVOICE, "AUTOVOICE"); (CA_AUTODEOP, "AUTODEOP"); (CA_NOJOIN, "NOJOIN");
   (CA_INVITE, "INVITE"); (CA_AKICK, "AKICK"); (CA_SET, "SET"); (CA_CLEAR, "CLEAR"); (CA_UNBAN, "UNBAN");
   (CA_OPDEOP, "OPDEOP"); (CA_ACCESS_LIST, "ACC-LIST"); (CA_ACCESS_CHANGE, "ACC-CHANGE");
   (CA_MEMO_READ, "MEMO-READ"); (CA_LEVEL_LIST, "LEV-LIST"); (CA_LEVEL_CHANGE, "LEV-CHANGE"); (CA_SYNC, "SYNC");
   (CA_MEMO_SEND, "MEMO-SEND"); (CA_AKICK_LIST, "AKICK-LIST")].

(** The mask ADD puts on the list where the text is no nick. *)
Definition akick_mask (mask : string) : string := let '(nk, user, host) := split_usermask mask in nk +:+ "!" +:+ user +:+ "@" +:+ host.

Section Lists.
Context `{Conf} `{AkickConf} `{MySQL} {E : Type} `{!ChanDB E} `{!NickServ E}.
(** The columns [last_used] and [last_matched] of [akick] ([touch] writes them). *)
Context (last_used : E -> Z -> Z) (last_matched : E -> Z -> string).
Implicit Types (n : Net E) (d : DB).

(** *** AKICK *)
Definition akicks_of (channel_id : Z) (r : Akick) : bool := ak_channel r =? channel_id.

Definition chanakick_count (channel_id : Z) : M (Net E) Z :=
  select (fun d => Z.of_nat (length (select_where (akicks_of channel_id) (akick d)))).

Definition renumber_akicks (channel_id : Z) : M (Net E) unit :=
  update_db (fun d => d{{akick ::= fun t => mkTable (renumber_where (akicks_of channel_id) ak_added (rows t)) (auto_increment t)}}).

(** The text is a list of numbers. *)
Definition is_index_list (mask : string) : bool := isdigit (hd_char mask) && is_numlist mask.

Definition is_mask_akick (channel_id : Z) (mask : string) (r : Akick) : bool :=
  akicks_of channel_id r && (ak_nick r =? 0) && same_text (ak_mask r) mask.
Definition is_nick_akick (channel_id nick_id : Z) (r : Akick) : bool :=
  akicks_of channel_id r && (ak_nick r =? nick_id).

Definition reason_text (reason : option string) : string := QUOTE +:+ default "No reason supplied" reason +:+ QUOTE.

(** [mask varchar(255)], and [UNIQUE KEY (channel_id, mask)] where there is a mask. *)
Definition insert_akick (channel_id count nick_id : Z) (mask : string) (reason : option string) (who : string) : M (Net E) unit :=
  t ← gets now;
  let mask := trunc 256 mask in
  twice ← select (fun d => (nick_id =? 0) && existsb (is_mask_akick channel_id mask) (rows (akick d)));
  if twice : bool then fault
  else update_db (fun d => d{{akick ::= insert_into (fun i =>
         mkAkick i channel_id (if nick_id =? 0 then mask else EmptyString) nick_id reason (count + 1) who t)}}).

Definition akick_add (u : ptr) (channel_id : Z) (ci : ChanInfo) (chan mask : string) (reason : option string) : M (Net E) unit :=
  ni ← mysql_findnickinfo mask;
  let nick_id := match ni with Some (i, _) => i | None => 0 end in
  let add_mask := akick_mask mask in
  let shown := match ni with Some (i, r) => if i =? 0 then add_mask else n_nick r | None => add_mask end in
  let status := match ni with Some (i, r) => if i =? 0 then 0 else n_status r | None => 0 end in
  if has status NS_VERBOTEN then reply u ("NICK_X_FORBIDDEN " +:+ mask)
  else
    known ← select (fun d => existsb (if nick_id =? 0 then is_mask_akick channel_id add_mask else is_nick_akick channel_id nick_id)
                              (rows (akick d)));
    if known : bool then reply u ("CHAN_AKICK_ALREADY_EXISTS " +:+ shown +:+ " " +:+ chan)
    else
      count ← chanakick_count channel_id;
      if CSAutokickMax <=? count then reply u ("CHAN_AKICK_REACHED_LIMIT " +:+ show_int CSAutokickMax)
      else
        us ← load_user u;
        insert_akick channel_id count nick_id add_mask reason (nick us);;
        flags ← get_chan_flags channel_id;
        when (has flags CI_VERBOSE) (opnotice s_ChanServ (ci_name ci)
          (nick us +:+ " added an AutoKick for " +:+ BOLD +:+ shown +:+ BOLD +:+ " " +:+ reason_text reason));;
        reply u ("CHAN_AKICK_ADDED " +:+ shown +:+ " " +:+ chan).

(** The rows that [DEL] is about: a list of numbers without a range gives a query
    that MySQL refuses, and Services end. *)
Definition akick_target (channel_id : Z) (mask : string) : M (Net E) (Akick -> bool) :=
  if is_index_list mask then
    match mysql_build_query mask CSAutokickMax with
    | None | Some [] => fault
    | Some l => mret (fun r => akicks_of channel_id r && in_ranges l (ak_idx r))
    end
  else
    i ← mysql_findnick mask;
    mret (if i =? 0 then is_mask_akick channel_id mask else is_nick_akick channel_id i).

(** [nick.nick] of the [LEFT JOIN], or the mask. *)
Definition akick_subject d (r : Akick) : string :=
  match nicks d !! ak_nick r with
  | Some k => n_nick k
  | None => if ak_nick r =? 0 then ak_mask r else "(null)"
  end.

Definition akick_del (u : ptr) (channel_id : Z) (ci : ChanInfo) (mask : string) : M (Net E) unit :=
  us ← load_user u;
  when (has (ci_flags ci) CI_VERBOSE)
    (p ← akick_target channel_id mask;
     l ← select (fun d => map (fun r => (akick_subject d r, ak_reason r)) (order_by ak_idx (select_where p (akick d))));
     for_each l (fun r => opnotice s_ChanServ (ci_name ci)
       (nick us +:+ " removed AutoKick for " +:+ BOLD +:+ fst r +:+ BOLD +:+ " " +:+ reason_text (snd r))));;
  p ← akick_target channel_id mask;
  deleted ← select (fun d => Z.of_nat (length (select_where p (akick d))));
  update_db (fun d => d{{akick ::= delete_where p}});;
  reply u (if deleted =? 0 then "CHAN_AKICK_NO_MATCH " +:+ ci_name ci
           else if deleted =? 1 then "CHAN_AKICK_DELETED_ONE " +:+ ci_name ci
           else "CHAN_AKICK_DELETED_SEVERAL " +:+ show_int deleted +:+ " " +:+ ci_name ci);;
  when (negb (deleted =? 0)) (renumber_akicks channel_id).

(** What LIST and VIEW show of a row; the row of a nick that is gone has neither
    mask nor nick, and [strscpy] reads through [NULL]. *)
Definition akick_shown d (r : Akick) : option string :=
  match nicks d !! ak_nick r with
  | Some k => if ak_nick r =? 0 then Some (ak_mask r) else Some (n_nick k +:+ shown_mask k)
  | None => if ak_nick r =? 0 then Some (ak_mask r) else None
  end.

Definition reason_shown (r : Akick) : string := match ak_reason r with Some s => " (" +:+ s +:+ ")" | None => EmptyString end.

Definition akick_list_lines n (r : Akick) (shown : string) : list string :=
  ["CHAN_AKICK_LIST_FORMAT " +:+ show_int (ak_idx r) +:+ " " +:+ shown +:+ " " +:+ reason_shown r].

Definition akick_view_lines n (r : Akick) (shown : string) : list string :=
  ["CHAN_AKICK_VIEW_FORMAT1 " +:+ show_int (ak_idx r) +:+ " " +:+ shown +:+ " " +:+ ak_who r;
   "CHAN_AKICK_VIEW_FORMAT2 " +:+ reason_shown r;
   "CHAN_AKICK_VIEW_FORMAT3 " +:+ time_ago (now n) (ak_added r);
   (let t := last_used (ext n) (ak_id r) in
    if t =? 0 then "CHAN_AKICK_VIEW_FORMAT4_NEVER" else "CHAN_AKICK_VIEW_FORMAT4 " +:+ time_ago (now n) t)] ++
  (let s := last_matched (ext n) (ak_id r) in
   if String.eqb s EmptyString then [] else ["CHAN_AKICK_VIEW_FORMAT5 " +:+ s]) ++ [" "].

(** [IRC_MATCH] sees an empty text where there is no nick. *)
Definition akick_matches d (mask : string) (r : Akick) : bool :=
  negb (Udf.irc_match mask (if ak_nick r =? 0 then ak_mask r
                            else match nicks d !! ak_nick r with Some k => n_nick k | None => EmptyString end) None =? 0).

Definition akick_list (lines : Net E -> Akick -> string -> list string) (u : ptr) (channel_id : Z) (ci : ChanInfo) (chan : string)
    (mask : option string) : M (Net E) unit :=
  k ← chanakick_count channel_id;
  if k =? 0 then reply u ("CHAN_AKICK_LIST_EMPTY " +:+ chan)
  else
    d ← select id;
    p ← (match mask with
         | None => mret (fun _ => true)
         | Some mask => if is_index_list mask then
                          match mysql_build_query mask CSAutokickMax with
                          | None | Some [] => fault
                          | Some l => mret (fun r => in_ranges l (ak_idx r))
                          end
                        else mret (akick_matches d mask)
         end : M (Net E) (Akick -> bool));
    let l := order_by ak_idx (select_where (fun r => akicks_of channel_id r && p r) (akick d)) in
    when (negb (bool_decide (l = []))) (reply u ("CHAN_AKICK_LIST_HEADER " +:+ ci_name ci));;
    for_each l (fun r => match akick_shown d r with
                         | Some shown => n ← get; for_each (lines n r shown) (reply u)
                         | None => fault
                         end);;
    when (bool_decide (l = [])) (reply u ("CHAN_AKICK_NO_MATCH " +:+ chan)).

(** [next] is read before the user is kicked off the list. *)
Fixpoint enforce_loop (c : ptr) (l : list ptr) (count : Z) : M (Net E) Z :=
  match l with
  | [] => mret count
  | p :: l' =>
      ch ← load_chan c;
      kick ← check_kick p (name ch);
      if kick : bool then
        us ← load_user p;
        do_kick (ChanServ0 := chanserv) (name ch) (nick us);;
        enforce_loop c l' (count + 1)
      else enforce_loop c l' count
  end.

Definition akick_enforce (u : ptr) (channel_id : Z) (ci : ChanInfo) (chan : string) : M (Net E) unit :=
  c ← findchan (ci_name ci);
  if c =? NULL then reply u ("CHAN_X_NOT_IN_USE " +:+ ci_name ci)
  else
    ch ← load_chan c;
    count ← enforce_loop c (users ch) 0;
    flags ← get_chan_flags channel_id;
    us ← load_user u;
    when (has flags CI_VERBOSE) (opnotice s_ChanServ chan (nick us +:+ " requested AKICK ENFORCE"));;
    reply u ("CHAN_AKICK_ENFORCE_DONE " +:+ chan +:+ " " +:+ show_int count).

(** The founder, by his nick, who has not identified to the channel. *)
Definition denied (u : ptr) (ci : ChanInfo) (chan : string) : M (Net E) unit :=
  us ← load_user u;
  master ← mysql_getlink (ci_founder ci);
  reply u (if negb (ci_founder ci =? 0) && (master =? nick_id us) then "CHAN_IDENTIFY_REQUIRED " +:+ chan else "ACCESS_DENIED").

Definition do_akick (u : ptr) (args : string) : M (Net E) unit :=
  let '(chan, rest) := strtok args " " in
  let '(cmd, rest) := strtok rest " " in
  let '(mask, rest) := strtok rest " " in
  let reason := fst (strtok rest "") in
  match chan, cmd with
  | Some chan, Some cmd =>
      let asks s := stricmp cmd s =? 0 in
      identified ← nick_identified u;
      if negb identified && (asks "ADD" || asks "DEL" || asks "ENFORCE") then reply u "NICK_IDENTIFY_REQUIRED"
      else if bool_decide (mask = None) && (asks "ADD" || asks "DEL") then reply u "CHAN_AKICK_SYNTAX"
      else
        channel_id ← mysql_findchan chan;
        ci ← select (fun d => if channel_id =? 0 then None else channel d !! channel_id);
        match ci with
        | None => reply u ("CHAN_X_NOT_REGISTERED " +:+ chan)
        | Some ci =>
            if has (ci_flags ci) CI_VERBOTEN then reply u ("CHAN_X_FORBIDDEN " +:+ chan)
            else
              may ← check_access u channel_id (if asks "LIST" || asks "VIEW" then CA_AKICK_LIST else CA_AKICK);
              allowed ← (if may : bool then mret true else is_services_admin u);
              if negb allowed then denied u ci chan
              else if asks "ADD" then akick_add u channel_id ci chan (default EmptyString mask) reason
              else if asks "DEL" then akick_del u channel_id ci (default EmptyString mask)
              else if asks "LIST" then akick_list akick_list_lines u channel_id ci chan mask
              else if asks "VIEW" then akick_list akick_view_lines u channel_id ci chan mask
              else if asks "ENFORCE" then akick_enforce u channel_id ci chan
              else if asks "COUNT" then
                k ← chanakick_count channel_id; reply u ("CHAN_AKICK_COUNT " +:+ ci_name ci +:+ " " +:+ show_int k)
              else reply u "CHAN_AKICK_SYNTAX"
        end
  | _, _ => reply u "CHAN_AKICK_SYNTAX"
  end.

(** *** LEVELS *)
Definition set_chan_level (channel_id what level : Z) : M (Net E) unit :=
  update_db (fun d => d{{chanlevel ::= <[(channel_id, what) := level]>}}).
Definition reset_levels (channel_id : Z) : M (Net E) unit :=
  update_db (fun d => d{{chanlevel ::= filter (fun kv => fst (fst kv) <> channel_id)}}).

Definition find_level (what : string) : option (Z * string) := find_first (fun r => stricmp (snd r) what =? 0) levelinfo.

Definition shown_level (level : Z) : string := if level =? ACCESS_INVALID then "(Disabled)" else show_int level.

Definition change_level (u : ptr) (channel_id : Z) (ci : ChanInfo) (chan what : string) (level : Z) (done : string -> string)
    : M (Net E) unit :=
  match find_level what with
  | None => reply u ("CHAN_LEVELS_UNKNOWN " +:+ what)
  | Some (i, nm) =>
      old ← get_chan_level channel_id i;
      let oldlevel := wrap16 old in
      us ← load_user u;
      when (has (ci_flags ci) CI_VERBOSE && negb (oldlevel =? level)) (opnotice s_ChanServ chan
        (nick us +:+ " changed " +:+ BOLD +:+ nm +:+ BOLD +:+ " level from " +:+ BOLD +:+ shown_level oldlevel +:+ BOLD +:+
         " to " +:+ BOLD +:+ shown_level level +:+ BOLD));;
      set_chan_level channel_id i level;;
      reply u (done nm)
  end.

(** [levelset] holds what the channel has set for itself. *)
Definition levels_list (u : ptr) (channel_id : Z) (chan : string) : M (Net E) unit :=
  reply u ("CHAN_LEVELS_LIST_HEADER " +:+ chan);;
  own ← select (fun d => chanlevel d);
  for_each levelinfo (fun r =>
    let '(what, nm) := r in
    let j := default (lookup_def_level what) (own !! (channel_id, what)) in
    reply u (if j =? ACCESS_INVALID then "CHAN_LEVELS_LIST_DISABLED " +:+ nm
             else "CHAN_LEVELS_LIST_NORMAL " +:+ nm +:+ " " +:+ show_int j)).

(** SET has two more words, DIS and DISABLE one, the others none. *)
Definition levels_syntax (cmd : string) (what s : option string) : bool :=
  if stricmp cmd "SET" =? 0 then bool_decide (s = None)
  else if strnicmp cmd "DIS" 3 =? 0 then bool_decide (what = None) || negb (bool_decide (s = None))
  else negb (bool_decide (what = None)).

Definition do_levels (u : ptr) (args : string) : M (Net E) unit :=
  let '(chan, rest) := strtok args " " in
  let '(cmd, rest) := strtok rest " " in
  let '(what, rest) := strtok rest " " in
  let '(s, _) := strtok rest " " in
  match chan, cmd with
  | Some chan, Some cmd =>
      let asks w := stricmp cmd w =? 0 in
      let what_text := default EmptyString what in
      if levels_syntax cmd what s then reply u "CHAN_LEVELS_SYNTAX"
      else
        channel_id ← mysql_findchan chan;
        ci ← select (fun d => if channel_id =? 0 then None else channel d !! channel_id);
        match ci with
        | None => reply u ("CHAN_X_NOT_REGISTERED " +:+ chan)
        | Some ci =>
            let checked (what : Z) (m : M (Net E) unit) : M (Net E) unit :=
              may ← check_access u channel_id what;
              allowed ← (if may : bool then mret true else is_services_admin u);
              if allowed : bool then m else reply u "ACCESS_DENIED" in
            if has (ci_flags ci) CI_VERBOTEN then reply u ("CHAN_X_FORBIDDEN " +:+ chan)
            else if asks "SET" then
              checked CA_LEVEL_CHANGE
                (let level := wrap16 (atoi (default EmptyString s)) in
                 if (level <=? ACCESS_INVALID) || (ACCESS_FOUNDER <=? level) then reply u "CHAN_LEVELS_RANGE"
                 else change_level u channel_id ci chan what_text level
                        (fun nm => "CHAN_LEVELS_CHANGED " +:+ nm +:+ " " +:+ chan +:+ " " +:+ show_int level))
            else if asks "DIS" || asks "DISABLE" then
              checked CA_LEVEL_CHANGE
                (change_level u channel_id ci chan what_text ACCESS_INVALID
                   (fun nm => "CHAN_LEVELS_DISABLED " +:+ nm +:+ " " +:+ chan))
            else if asks "LIST" then checked CA_LEVEL_LIST (levels_list u channel_id chan)
            else if asks "RESET" then
              checked CA_LEVEL_CHANGE
                (reset_levels channel_id;;
                 us ← load_user u;
                 when (has (ci_flags ci) CI_VERBOSE) (opnotice s_ChanServ chan (nick us +:+ " used LEVELS RESET"));;
                 reply u ("CHAN_LEVELS_RESET " +:+ chan))
            else reply u "CHAN_LEVELS_SYNTAX"
        end
  | _, _ => reply u "CHAN_LEVELS_SYNTAX"
  end.
End Lists.

(** ** What AKICK does to the table *)
Section AkickSpec.
Context `{Conf} `{AkickConf} `{MySQL} {E : Type} `{!ChanDB E} `{!NickServ E} `{!NickView E}.
Context (last_used : E -> Z -> Z) (last_matched : E -> Z -> string).
Implicit Types (n : Net E) (d : DB) (us : User) (t : Table Akick).

Definition renumbered (i : Z) t : Table Akick :=
  mkTable (renumber_where (akicks_of i) ak_added (rows t)) (auto_increment t).

(** Rows have ids, and the nicks they name exist. *)
Record akicks_ok d t : Prop := {
  ao_ids : NoDup (map ak_id (rows t));
  ao_next : Forall (fun r => ak_id r < auto_increment t) (rows t);
  ao_nicks : Forall (fun r => ak_nick r = 0 \/ is_Some (nicks d !! ak_nick r)) (rows t)
}.

(** The autokicks of a channel are numbered from 1. *)
Definition in_order (i : Z) t : Prop :=
  map ak_idx (select_where (akicks_of i) t) ≡ₚ seqZ 1 (Z.of_nat (length (select_where (akicks_of i) t))).

(** What ADD looks up: the id of the nick, or 0, how the entry is shown, and the
    status of the nick. *)
Definition addee d (mask : string) : Z * string * Z :=
  match nickinfo_named d mask with
  | Some (i, r) => if i =? 0 then (0, akick_mask mask, 0) else (i, n_nick r, n_status r)
  | None => (0, akick_mask mask, 0)
  end.

(** The rows [DEL] names. *)
Definition target d (i : Z) (mask : string) (r : Akick) : bool :=
  akicks_of i r &&
  if is_index_list mask then in_ranges (default [] (mysql_build_query mask CSAutokickMax)) (ak_idx r)
  else let k := default 0 (nick_named d mask) in
       if k =? 0 then (ak_nick r =? 0) && same_text (ak_mask r) mask else ak_nick r =? k.

Inductive akick_change d us (i : Z) (mask : string) (reason : option string) : Table Akick -> Prop :=
  | akick_added nick_id (added : Z) : nick_id = fst (fst (addee d mask)) ->
      has (snd (addee d mask)) NS_VERBOTEN = false ->
      (forall r, r ∈ rows (akick d) -> ak_channel r = i -> ak_nick r = nick_id ->
         nick_id = 0 /\ same_text (ak_mask r) (akick_mask mask) = false) ->
      let l := select_where (akicks_of i) (akick d) in
      Z.of_nat (length l) < CSAutokickMax ->
      akick_change d us i mask reason (insert_into (fun id =>
        mkAkick id i (if nick_id =? 0 then akick_mask mask else EmptyString) nick_id reason (Z.of_nat (length l) + 1) (nick us) added)
        (akick d))
  | akick_removed : (exists r, r ∈ rows (akick d) /\ target d i mask r = true) ->
      akick_change d us i mask reason (renumbered i (delete_where (target d i mask) (akick d))).

Definition akicked d us i mask reason d' : Prop :=
  exists t, akick_change d us i mask reason t /\ d' = d{{akick := t}}.
Definition may_akick d us i mask reason d' : Prop := d' = d \/ akicked d us i mask reason d'.

Lemma does_insert_akick n i count k mask reason who : (String.length mask <= 255)%nat ->
  (k = 0 -> existsb (is_mask_akick i mask) (rows (akick (db (ext n)))) = false) ->
  does n (insert_akick i count k mask reason who) tt
    ((db (ext n)){{akick ::= insert_into (fun id =>
       mkAkick id i (if k =? 0 then mask else EmptyString) k reason (count + 1) who (now n))}}).
Proof.
  intros Hlen Hno. unfold insert_akick. eapply does_bind; [apply (does_gets n now)|]. intros n1 [Hf1 Hd1]. cbv zeta.
  rewrite trunc_fits by lia. eapply does_bind; [apply does_select|]. intros n2 [Hf2 Hd2]. simpl in Hd1, Hd2. rewrite Hd1 in Hd2 |- *.
  replace ((k =? 0) && _) with false by (destruct (Z.eqb_spec k 0) as [Hk|]; [by rewrite (Hno Hk)|done]).
  rewrite <- Hd2. apply (does_update n2).
Qed.

Lemma akick_add_spec n n' u us i ci chan mask reason : users_heap n !! u = Some us ->
  let d := db (ext n) in
  frame n n' -> db (ext n') = d -> (String.length (akick_mask mask) <= 255)%nat ->
  wp (akick_add u i ci chan mask reason) (ends n (may_akick d us i mask reason)) n'.
Proof.
  intros Hu d Hf Hd Hlen. unfold akick_add. ask @does_select.
  set (nick_id := match nickinfo_named d mask with Some (j, _) => j | None => 0 end).
  set (shown := match nickinfo_named d mask with Some _ => _ | None => akick_mask mask end).
  set (status := match nickinfo_named d mask with Some _ => _ | None => 0 end).
  assert (Hadd : addee d mask = (nick_id, shown, status)).
  { unfold addee, nick_id, shown, status. destruct (nickinfo_named d mask) as [[j k]|]; [|done]. by destruct (Z.eqb_spec j 0) as [->|]. }
  destruct (has status NS_VERBOTEN) eqn:Hv; [refuse|].
  ask @does_select. destruct (existsb _ (rows (akick d))) eqn:Hk; [refuse|].
  unfold chanakick_count. ask @does_select.
  destruct (Z.leb_spec CSAutokickMax (Z.of_nat (length (select_where (akicks_of i) (akick d))))) as [|Hmax]; [refuse|].
  ask does_load. eapply ends_step; [eassumption|apply does_insert_akick; [done|]|].
  { rewrite Hd3. intros H0k. by rewrite H0k in Hk. }
  intros n4 Hf4 Hd4. simpl in Hd4. eapply ends_step; [exact Hf4|apply does_column|]. intros n5 Hf5 Hd5. simpl in Hd5.
  eapply (ends_step _ _ _ _ _ tt (db (ext n5))); [exact Hf5| |].
  { destruct (has _ CI_VERBOSE); [unfold opnotice, send_cmd; apply does_emit|apply does_pure]. }
  intros n6 Hf6 Hd6. simpl in Hd6.
  eapply ends_does; [exact Hf6|eapply does_reply; same_user|]. right. rewrite Hd6, Hd5, Hd4, Hd3.
  eexists. split; [|reflexivity]. simpl. apply (akick_added d us i mask reason nick_id (now n3)).
  - by rewrite Hadd.
  - by rewrite Hadd.
  - intros r Hr Hi Hn. rewrite <- not_true_iff_false in Hk. destruct (Z.eqb_spec nick_id 0) as [H0k|H0k].
    + split; [done|]. apply not_true_iff_false. intros Hs. apply Hk, existsb_exists. exists r. rewrite <- list_elem_of_In.
      split; [done|]. unfold is_mask_akick, akicks_of. by rewrite Hi, Hn, H0k, Hs, !Z.eqb_refl.
    + destruct Hk. apply existsb_exists. exists r. rewrite <- list_elem_of_In. split; [done|].
      unfold is_nick_akick, akicks_of. by rewrite Hi, Hn, !Z.eqb_refl.
  - exact Hmax.
Qed.
Lemma does_to {A} n (m : M (Net E) A) a d d' : d = d' -> does n m a d -> does n m a d'.
Proof. by intros ->. Qed.

(** A list of numbers that names none makes an empty condition. *)
Definition forms_range (mask : string) : Prop := is_index_list mask = true -> mysql_build_query mask CSAutokickMax <> Some [].

Lemma build_query_total s max : exists l, mysql_build_query s max = Some l.
Proof. destruct (mysql_build_query_spec s max) as (l & Hl & _). by exists l. Qed.

Lemma does_target n i mask : forms_range mask -> exists p, does n (akick_target i mask) p (db (ext n)) /\ forall r, p r = target (db (ext n)) i mask r.
Proof.
  intros Hr. unfold akick_target, target. destruct (is_index_list mask) eqn:Hm.
  - destruct (build_query_total mask CSAutokickMax) as [l Hl]. specialize (Hr Hm). rewrite Hl in Hr |- *. destruct l; [done|].
    eexists. split; [apply does_pure|done].
  - set (k := default 0 (nick_named (db (ext n)) mask)).
    exists (if k =? 0 then is_mask_akick i mask else is_nick_akick i k).
    split; [eapply does_bind; [apply does_select|]; intros n1 [_ Hd1]; exact (does_to _ _ _ _ _ Hd1 (does_pure n1 _))|].
    intros r. cbv zeta. fold k. destruct (k =? 0); [|done].
    unfold is_mask_akick. by rewrite andb_assoc.
Qed.

Lemma delete_ext {A} (p q : A -> bool) (t : Table A) : (forall r, p r = q r) -> delete_where p t = delete_where q t.
Proof. intros Hpq. unfold delete_where. f_equal. apply filter_ext. intros r. by rewrite Hpq. Qed.

Lemma select_ext {A} (p q : A -> bool) (t : Table A) : (forall r, p r = q r) -> select_where p t = select_where q t.
Proof. intros Hpq. apply filter_ext, Hpq. Qed.

Lemma akick_del_spec n n' u us i ci mask : users_heap n !! u = Some us ->
  let d := db (ext n) in
  frame n n' -> db (ext n') = d -> forms_range mask ->
  forall reason, wp (akick_del u i ci mask) (ends n (may_akick d us i mask reason)) n'.
Proof.
  intros Hu d Hf Hd Hr reason. unfold akick_del. ask does_load.
  eapply (ends_step _ _ _ _ _ tt d); [eassumption| |].
  { destruct (has _ CI_VERBOSE); [|rewrite <- Hd0; apply does_pure].
    destruct (does_target n0 i mask Hr) as (p & Hp & _). eapply does_bind; [exact Hp|]. intros n1 [Hf1 Hd1]. simpl in Hd1.
    eapply does_bind; [apply does_select|]. intros n2 [Hf2 Hd2]. simpl in Hd2.
    replace d with (db (ext n2)) by congruence. apply (does_for_each (Track0 := tables_track)). intros x n3 _. apply does_emit. }
  intros n1 Hf1 Hd1. simpl in Hd1. destruct (does_target n1 i mask Hr) as (p & Hp & Hpt). rewrite Hd1 in Hpt.
  eapply ends_step; [exact Hf1|exact Hp|]. intros n2 Hf2 Hd2. simpl in Hd2.
  eapply ends_step; [exact Hf2|apply does_select|]. intros n3 Hf3 Hd3. simpl in Hd3.
  eapply ends_step; [exact Hf3|apply does_update|]. intros n4 Hf4 Hd4. simpl in Hd4.
  eapply ends_step; [exact Hf4|eapply does_reply; same_user|]. intros n5 Hf5 Hd5. simpl in Hd5.
  assert (Hd2' : db (ext n2) = d) by congruence. assert (Hd3' : db (ext n3) = d) by congruence. rewrite Hd2'.
  rewrite Hd3' in Hd4. rewrite (delete_ext p _ _ Hpt) in Hd4. rewrite (select_ext p _ _ Hpt).
  destruct (select_where (target d i mask) (akick d)) as [|r l] eqn:Hs.
  - eapply ends_does; [exact Hf5|apply does_pure|]. left. rewrite Hd5, Hd4.
    assert (Hno : delete_where (target d i mask) (akick d) = akick d).
    { unfold delete_where. destruct (akick d) as [l k]. simpl in *. f_equal. unfold select_where in Hs. simpl in Hs. clear -Hs.
      induction l as [|r l IH]; [done|]. simpl in *. destruct (target d i mask r); [done|]. simpl. by rewrite IH. }
    rewrite Hno. by destruct d.
  - replace (negb (Z.of_nat (length (r :: l)) =? 0)) with true by (simpl; by destruct (Z.eqb_spec (Z.of_nat (S (length l))) 0); [lia|]).
    eapply ends_does; [exact Hf5|apply does_update|]. right. eexists. split; [apply akick_removed|].
    + exists r. apply elem_select. rewrite Hs. constructor.
    + simpl. rewrite Hd5, Hd4. by destruct d.
Qed.

Lemma does_akick_list n u us lines i ci chan mask : users_heap n !! u = Some us -> akicks_ok (db (ext n)) (akick (db (ext n))) ->
  (forall s, mask = Some s -> forms_range s) -> does n (akick_list lines u i ci chan mask) tt (db (ext n)).
Proof.
  intros Hu Hok Hr. unfold akick_list, chanakick_count. does_next @does_select. destruct (_ =? 0); [does_last does_reply|].
  does_next @does_select. unfold id. set (d := db (ext n)) in *.
  assert (Hd1 : db (ext n1) = d) by congruence. assert (Hd0' : db (ext n0) = d) by congruence. rewrite Hd0'.
  assert (Hf01 : frame n n1) by (by transitivity n0).
  eapply (does_bind n1 _ _ (match mask with
    | None => fun _ => true
    | Some mask => if is_index_list mask then fun r => in_ranges (default [] (mysql_build_query mask CSAutokickMax)) (ak_idx r)
                   else akick_matches d mask end) _ d).
  { rewrite <- Hd1. destruct mask as [s|]; [|apply does_pure]. specialize (Hr s eq_refl). destruct (is_index_list s) eqn:Hs; [|apply does_pure].
    destruct (build_query_total s CSAutokickMax) as [l Hl]. specialize (Hr Hs). rewrite Hl in *. destruct l; [done|]. apply does_pure. }
  intros n2 [Hf2 Hd2]. simpl in Hd2. cbv beta zeta. set (p := match mask with None => _ | Some _ => _ end). clearbody p.
  assert (Hf02 : frame n n2) by (by transitivity n1).
  assert (Hw : forall b text n', frame n n' -> db (ext n') = d -> does n' (when b (reply u text)) tt d).
  { intros b text n' Hf' Hd'. rewrite <- Hd'. destruct b; [eapply does_reply; same_user|apply does_pure]. }
  eapply does_bind; [by apply Hw|]. intros n3 [Hf3 Hd3]. simpl in Hd3. assert (Hf03 : frame n n3) by (by transitivity n2).
  eapply does_bind; [|intros n4 [Hf4 Hd4]; apply Hw; [by transitivity n3|exact Hd4]].
  set (l := order_by _ _). assert (Hl : Forall (fun r => is_Some (akick_shown d r)) l).
  { apply Forall_forall. intros r Hr'. unfold l in Hr'. rewrite order_by_perm in Hr'. apply elem_select in Hr' as [Hr' _].
    pose proof (ao_nicks _ _ Hok) as Hn. rewrite Forall_forall in Hn. unfold akick_shown. destruct (Hn r Hr') as [H0k|[k ->]].
    - rewrite H0k. destruct (nicks d !! 0); by eexists.
    - destruct (_ =? 0); by eexists. }
  clearbody l. apply (does_to _ _ _ _ _ Hd3). clear Hf3 Hd3. revert n3 Hf03. induction Hl as [|r l [s Hs] Hl IH]; intros n3 Hf03; [apply does_pure|].
  simpl. rewrite Hs. eapply (does_bind _ _ _ tt _ (db (ext n3))).
  - eapply does_bind; [apply (does_gets n3 id)|]. intros n4 [Hf4 Hd4]. simpl in Hd4. rewrite <- Hd4. unfold id.
    apply (does_for_each (Track0 := tables_track)). intros x n5 Hf5. eapply does_reply; same_user.
  - intros n4 [Hf4 Hd4]. simpl in Hd4. rewrite <- Hd4. apply IH. by transitivity n3.
Qed.

(** Who may change the autokicks of a channel. *)
Definition may_change_akicks d us (chan : string) (i : Z) : Prop :=
  default 0 (channel_named d chan) = i /\ i <> 0 /\
  (exists ci, channel d !! i = Some ci /\ has (ci_flags ci) CI_VERBOTEN = false) /\
  (permits d us i CA_AKICK = true \/ services_admin d us = true).

Definition edited d us (mask : string) (reason : option string) d' : Prop :=
  d' = d \/ identified d us = true /\ exists chan i, may_change_akicks d us chan i /\ akicked d us i mask reason d'.

Definition akick_words (args : string) : option string * option string * option string * option string :=
  let '(chan, rest) := strtok args " " in
  let '(cmd, rest) := strtok rest " " in
  let '(mask, rest) := strtok rest " " in
  (chan, cmd, mask, fst (strtok rest "")).

(** What the text after the command must be for Services to live. *)
Definition proper (mask : option string) : Prop :=
  forall s, mask = Some s -> forms_range s /\ (String.length (akick_mask s) <= 255)%nat.

Lemma ends_denied {P : DB -> Prop} n n' u us ci chan : users_heap n !! u = Some us -> frame n n' -> db (ext n') = db (ext n) -> P (db (ext n)) ->
  wp (denied u ci chan) (ends n P) n'.
Proof.
  intros Hu Hf Hd HP. unfold denied. eapply ends_step; [exact Hf|eapply does_load; same_user|]. intros n1 Hf1 Hd1. simpl in Hd1.
  eapply ends_step; [exact Hf1|apply does_select|]. intros n2 Hf2 Hd2. simpl in Hd2.
  eapply ends_does; [exact Hf2|eapply does_reply; same_user|]. congruence.
Qed.

Lemma do_akick_spec n u us args chan cmd mask reason : users_heap n !! u = Some us ->
  let d := db (ext n) in
  akick_words args = (chan, cmd, mask, reason) -> akicks_ok d (akick d) -> proper mask ->
  (forall c, cmd = Some c -> stricmp c "ENFORCE" <> 0) ->
  wp (do_akick last_used last_matched u args) (ends n (edited d us (default EmptyString mask) reason)) n.
Proof.
  intros Hu d Hw Hok Hp He. unfold do_akick, akick_words in *. destruct (strtok args " ") as [chan' rest].
  destruct (strtok rest " ") as [cmd' rest1]. destruct (strtok rest1 " ") as [mask' rest2]. injection Hw as -> -> -> Hreason.
  rewrite Hreason. destruct chan as [chan|]; [|refuse]. destruct cmd as [cmd|]; [|refuse]. specialize (He cmd eq_refl).
  ask does_identified. fold d in Hd |- *. destruct (negb (identified d us) && (_ || _ || _)) eqn:Hid; [refuse|].
  destruct (bool_decide (mask = None) && (_ || _)) eqn:Hnone; [refuse|].
  ask @does_gets. set (i := default 0 (channel_named d chan)). ask @does_select.
  destruct (if i =? 0 then None else channel d !! i) as [ci|] eqn:Ec; [|refuse].
  destruct (has (ci_flags ci) CI_VERBOTEN) eqn:Hv; [refuse|]. ask does_check_access.
  eapply ends_step; [eassumption|by eapply (does_allowed n)|]. intros n4 Hf4 Hd4. simpl in Hd4. change (db (ext n4) = d) in Hd4. fold d.
  destruct (negb (permits d us i _ || services_admin d us)) eqn:Hal.
  { eapply ends_denied; [exact Hu|exact Hf4|exact Hd4|by left]. }
  apply negb_false_iff, orb_true_iff in Hal.
  assert (Hchange : (stricmp cmd "LIST" =? 0) || (stricmp cmd "VIEW" =? 0) = false -> identified d us = true ->
    forall m : M (Net E) unit, wp m (ends n (may_akick d us i (default EmptyString mask) reason)) n4 ->
    wp m (ends n (edited d us (default EmptyString mask) reason)) n4).
  { intros Hl Hi m Hm. eapply wp_mono; [exact Hm|]. intros a n5 [Hf5 [Hd5|Hd5]]; split; [done|by left|done|].
    right. split; [done|]. exists chan, i. split; [|done]. split; [done|]. destruct (Z.eqb_spec i 0); [done|].
    split; [done|]. split; [by exists ci|]. by rewrite Hl in Hal. }
  assert (Hother : forall w, stricmp cmd w = 0 -> tolower (hd_char w) <> "l"%char -> tolower (hd_char w) <> "v"%char ->
    (stricmp cmd "LIST" =? 0) || (stricmp cmd "VIEW" =? 0) = false).
  { intros w Hw%stricmp_hd Hl1 Hv1. apply orb_false_iff. split; apply Z.eqb_neq; intros Hs%stricmp_hd; rewrite Hs in Hw; by symmetry in Hw. }
  assert (Hid' : forall w, w ∈ ["ADD"; "DEL"]%string -> stricmp cmd w = 0 -> identified d us = true /\ is_Some mask).
  { intros w Hin Hs%Z.eqb_eq. rewrite !elem_of_cons, elem_of_nil in Hin. split.
    - destruct (identified d us); [done|]. destruct Hin as [->|[->|[]]]; rewrite Hs in Hid; [done|]. by destruct (stricmp cmd "ADD" =? 0).
    - destruct mask; [by eexists|]. destruct Hin as [->|[->|[]]]; rewrite Hs in Hnone; [done|]. by destruct (stricmp cmd "ADD" =? 0). }
  assert (Hlist : forall lines, wp (akick_list lines u i ci chan mask) (ends n (edited d us (default EmptyString mask) reason)) n4).
  { intros lines. eapply ends_does; [exact Hf4|eapply does_akick_list; [same_user|by rewrite Hd4|by intros s Hs; apply Hp]|by left]. }
  destruct (Z.eqb_spec (stricmp cmd "ADD") 0) as [Ha|_].
  { destruct (Hid' "ADD"%string) as [Hi [s ->]]; [set_solver|done|]. apply Hchange; [by apply (Hother "ADD"%string)|done|].
    destruct (Hp s eq_refl). by apply akick_add_spec. }
  destruct (Z.eqb_spec (stricmp cmd "DEL") 0) as [Ha|_].
  { destruct (Hid' "DEL"%string) as [Hi [s ->]]; [set_solver|done|]. apply Hchange; [by apply (Hother "DEL"%string)|done|].
    destruct (Hp s eq_refl). by apply akick_del_spec. }
  destruct (stricmp cmd "LIST" =? 0); [apply Hlist|]. destruct (stricmp cmd "VIEW" =? 0); [apply Hlist|].
  destruct (Z.eqb_spec (stricmp cmd "ENFORCE") 0) as [Ha|_]; [done|].
  destruct (stricmp cmd "COUNT" =? 0); [|refuse]. unfold chanakick_count. ask @does_select. refuse.
Qed.

(** *** The table stays sound *)
Lemma nickinfo_Some d nk i r : nickinfo_named d nk = Some (i, r) -> nicks d !! i = Some r.
Proof.
  unfold nickinfo_named. destruct (nick_named d nk) as [j|]; [|done]. simpl. destruct (nicks d !! j) eqn:Ej; [|done]. simpl. by intros [= <- <-].
Qed.

Lemma akicks_renumbered_map {A} (f : Akick -> A) i t : (forall k r, f (set_idx k r) = f r) -> NoDup (map ak_id (rows t)) ->
  map f (rows (renumbered i t)) = map f (rows t).
Proof. intros Hf Hn. by refine (renumber_same (akicks_of i) ak_added (rows t) Hn f Hf). Qed.

Lemma Forall_image {A B} (f : A -> B) (P : B -> Prop) l l' : map f l = map f l' -> Forall (fun x => P (f x)) l' -> Forall (fun x => P (f x)) l.
Proof. intros Hm. rewrite <- !(Forall_map f P), Hm. done. Qed.

Lemma akicks_renumbered_ok d i t : akicks_ok d t -> akicks_ok d (renumbered i t).
Proof.
  intros [Hn Hl Hk]. split.
  - by rewrite akicks_renumbered_map.
  - eapply (Forall_image ak_id (fun k => k < auto_increment t)); [|exact Hl]. by apply akicks_renumbered_map.
  - eapply (Forall_image ak_nick (fun k => k = 0 \/ is_Some (nicks d !! k))); [|exact Hk]. by apply akicks_renumbered_map.
Qed.

Lemma deleted_ok d p t : akicks_ok d t -> akicks_ok d (delete_where p t).
Proof.
  intros [Hn Hl Hk]. rewrite !Forall_forall in *. split; simpl; [by apply NoDup_map_filter|..]; apply Forall_forall;
    intros r [Hr _]%(elem_delete p t); auto.
Qed.

Lemma select_insert i (row : Z -> Akick) t : select_where (akicks_of i) (insert_into row t) =
  select_where (akicks_of i) t ++ if ak_channel (row (auto_increment t)) =? i then [row (auto_increment t)] else [].
Proof. unfold select_where, insert_into. simpl. rewrite List.filter_app. simpl. unfold akicks_of at 2. by destruct (_ =? i). Qed.

Lemma renumbered_in_order i t : NoDup (map ak_id (rows t)) -> in_order i (renumbered i t).
Proof.
  intros Hn. unfold in_order, select_where, renumbered. simpl.
  rewrite (renumber_length (akicks_of i) ak_added ltac:(done) (rows t) Hn).
  refine (renumber_idx (akicks_of i) ak_added _ (rows t) Hn). done.
Qed.

Lemma renumbered_other i j t : NoDup (map ak_id (rows t)) -> j <> i ->
  select_where (akicks_of j) (renumbered i t) = select_where (akicks_of j) t.
Proof.
  intros Hn Hj. refine (renumber_other (akicks_of i) ak_added (rows t) Hn (akicks_of j) _ _); [done|].
  unfold akicks_of. intros r Hr%Z.eqb_eq. apply Z.eqb_neq. congruence.
Qed.

(** The other channels keep their lists, and a list in order stays so. *)
Record akicks_kept d (i : Z) t : Prop := {
  ak_kept_ok : akicks_ok d t;
  ak_kept_order : in_order i (akick d) -> in_order i t;
  ak_kept_others : forall j, j <> i -> select_where (akicks_of j) t = select_where (akicks_of j) (akick d)
}.

Lemma akick_change_kept d us i mask reason t : akicks_ok d (akick d) -> akick_change d us i mask reason t -> akicks_kept d i t.
Proof.
  intros Hok Hc. destruct Hc as [nick_id added Hid Hv Hnew l Hmax|Hex].
  - split.
    + destruct Hok as [Hn Hl Hk]. split; simpl.
      * rewrite map_app. apply NoDup_app. split; [done|]. split; [|apply NoDup_singleton].
        simpl. intros x Hx ->%list_elem_of_singleton. apply list_elem_of_In, in_map_iff in Hx as (r & Er & Hr).
        rewrite Forall_forall in Hl. rewrite <- list_elem_of_In in Hr. specialize (Hl r Hr). lia.
      * apply Forall_app. split; [|repeat constructor; simpl; lia]. eapply Forall_impl; [exact Hl|]. simpl. lia.
      * apply Forall_app. split; [done|]. constructor; [|constructor]. simpl. rewrite Hid. unfold addee.
        destruct (nickinfo_named d mask) as [[k r]|] eqn:Ek; [|by left]. destruct (Z.eqb_spec k 0); [by left|].
        right. simpl. exists r. by apply nickinfo_Some in Ek.
    + unfold in_order. intros Ho. rewrite select_insert. simpl. rewrite Z.eqb_refl, map_app, length_app, Ho. simpl.
      rewrite Nat.add_1_r, seqZ_S. fold l. by replace (1 + Z.of_nat (length l)) with (Z.of_nat (length l) + 1) by lia.
    + intros j Hj. rewrite select_insert. simpl. rewrite (proj2 (Z.eqb_neq i j)) by done. apply app_nil_r.
  - assert (Hd := deleted_ok d (target d i mask) _ Hok). split.
    + by apply akicks_renumbered_ok.
    + intros _. apply renumbered_in_order, Hd.
    + intros j Hj. rewrite renumbered_other by (try done; apply Hd). rewrite select_delete.
      etransitivity; [|apply filter_all]. apply filter_ext_in. intros r Hr. apply list_elem_of_In, elem_select in Hr as [_ Hr%Z.eqb_eq]. unfold target, akicks_of. rewrite Hr, (proj2 (Z.eqb_neq j i)) by done. done.
Qed.

End AkickSpec.

(** ** What LEVELS does *)
Section LevelsSpec.
Context `{Conf} {E : Type} `{!ChanDB E} `{!NickServ E} `{!NickView E}.
Implicit Types (n : Net E) (d : DB) (us : User).

Definition levels_words (args : string) : option string * option string * option string * option string :=
  let '(chan, rest) := strtok args " " in
  let '(cmd, rest) := strtok rest " " in
  let '(what, rest) := strtok rest " " in
  (chan, cmd, what, fst (strtok rest " ")).

(** What a command asks for: an ability and its level, or all back to normal. *)
Definition level_setting (cmd : string) (what s : option string) : option (option (Z * Z)) :=
  let ability := find_level (default EmptyString what) in
  if stricmp cmd "SET" =? 0 then
    let level := wrap16 (atoi (default EmptyString s)) in
    if bool_decide (ACCESS_INVALID < level < ACCESS_FOUNDER) then r ← ability; Some (Some (fst r, level)) else None
  else if (stricmp cmd "DIS" =? 0) || (stricmp cmd "DISABLE" =? 0) then r ← ability; Some (Some (fst r, ACCESS_INVALID))
  else if stricmp cmd "LIST" =? 0 then None
  else if stricmp cmd "RESET" =? 0 then Some None
  else None.

Definition with_levels (i : Z) (setting : option (option (Z * Z))) d : DB :=
  match setting with
  | None => d
  | Some None => d{{chanlevel ::= filter (fun kv => fst (fst kv) <> i)}}
  | Some (Some (what, level)) => d{{chanlevel ::= <[(i, what) := level]>}}
  end.

(** The channel whose levels the user may change. *)
Definition levels_channel d us (chan : string) : option Z :=
  let i := default 0 (channel_named d chan) in
  match channel d !! i with
  | Some ci => if negb (i =? 0) && negb (has (ci_flags ci) CI_VERBOTEN) &&
                  (permits d us i CA_LEVEL_CHANGE || services_admin d us) then Some i else None
  | None => None
  end.

Definition levels_outcome d us (args : string) : DB :=
  match levels_words args with
  | (Some chan, Some cmd, what, s) =>
      if levels_syntax cmd what s then d
      else match levels_channel d us chan with Some i => with_levels i (level_setting cmd what s) d | None => d end
  | _ => d
  end.

Lemma change_level_spec n n' u us i ci chan what level done : users_heap n !! u = Some us -> frame n n' ->
  wp (change_level u i ci chan what level done)
    (ends n (eq (with_levels i (r ← find_level what; Some (Some (fst r, level))) (db (ext n'))))) n'.
Proof.
  intros Hu Hf. unfold change_level. destruct (find_level what) as [[w nm]|].
  - eapply ends_step; [exact Hf|apply (does_gets (Track0 := tables_track))|]. intros n1 Hf1 Hd1. simpl in Hd1.
    eapply ends_step; [exact Hf1|eapply does_load; same_user|]. intros n2 Hf2 Hd2. simpl in Hd2.
    eapply (ends_step _ _ _ _ _ tt (db (ext n2))); [exact Hf2| |].
    { destruct (_ && _); [unfold opnotice, send_cmd; apply does_emit|apply does_pure]. }
    intros n3 Hf3 Hd3. simpl in Hd3. eapply ends_step; [exact Hf3|apply does_update|]. intros n4 Hf4 Hd4. simpl in Hd4.
    eapply ends_does; [exact Hf4|eapply does_reply; same_user|]. simpl. congruence.
  - eapply ends_does; [exact Hf|eapply does_reply; same_user|]. done.
Qed.

Lemma does_levels_list n u us i chan : users_heap n !! u = Some us -> does n (levels_list u i chan) tt (db (ext n)).
Proof.
  intros Hu. unfold levels_list. does_next does_reply. does_next @does_select. rewrite <- Hd, <- Hd0.
  apply (does_for_each (Track0 := tables_track)). intros [what nm] n2 Hf2. eapply does_reply; same_user.
Qed.

Lemma do_levels_spec n u us args : users_heap n !! u = Some us ->
  wp (do_levels u args) (ends n (eq (levels_outcome (db (ext n)) us args))) n.
Proof.
  intros Hu. set (d := db (ext n)). unfold do_levels, levels_outcome, levels_words.
  assert (Hsame : forall n' text, frame n n' -> db (ext n') = d -> wp (reply u text) (ends n (eq d)) n').
  { intros n' text Hf Hd. eapply ends_does; [exact Hf|eapply does_reply; same_user|]. by rewrite Hd. }
  destruct (strtok args " ") as [chan rest]. destruct (strtok rest " ") as [cmd rest1]. destruct (strtok rest1 " ") as [what rest2].
  destruct (strtok rest2 " ") as [s rest3]. cbn [fst].
  destruct chan as [chan|]; [|by apply Hsame]. destruct cmd as [cmd|]; [|by apply Hsame].
  destruct (levels_syntax cmd what s); [by apply Hsame|]. unfold levels_channel.
  ask @does_gets. fold d in Hd |- *. set (i := default 0 (channel_named d chan)). ask @does_select.
  assert (Hi : (if i =? 0 then None else channel d !! i) = None -> (match channel d !! i with
    | Some ci => if negb (i =? 0) && negb (has (ci_flags ci) CI_VERBOTEN) && (permits d us i CA_LEVEL_CHANGE || services_admin d us) then Some i else None
    | None => None end) = None).
  { destruct (i =? 0); [|by intros ->]. intros _. simpl. by destruct (channel d !! i). }
  destruct (if i =? 0 then None else channel d !! i) as [ci|] eqn:Ec; [|rewrite Hi by done; by apply Hsame]. clear Hi.
  assert (Hi0 : (i =? 0) = false) by by destruct (i =? 0). rewrite Hi0 in Ec. rewrite Ec, Hi0. cbn [negb andb].
  destruct (has (ci_flags ci) CI_VERBOTEN); [by apply Hsame|]. cbn [negb andb].
  assert (Hchecked : forall w (m : M (Net E) unit) (d' : DB),
    (forall n', frame n n' -> db (ext n') = d -> wp m (ends n (eq d')) n') ->
    wp (may ← check_access u i w; allowed ← (if may : bool then mret true else Interfaces.is_services_admin u);
        if allowed : bool then m else reply u "ACCESS_DENIED")
      (ends n (eq (if permits d us i w || services_admin d us then d' else d))) n1).
  { intros w m d' Hm. ask does_check_access.
    eapply ends_step; [eassumption|by eapply (does_allowed n)|]. intros n3 Hf3 Hd3. simpl in Hd3. change (db (ext n3) = d) in Hd3. fold d.
    destruct (permits d us i w || services_admin d us); [by apply Hm|by apply Hsame]. }
  set (may := permits d us i CA_LEVEL_CHANGE || services_admin d us) in *.
  assert (Hrw : forall setting, (match (if may then Some i else None) with Some i => with_levels i setting d | None => d end) =
    if may then with_levels i setting d else d) by by destruct may.
  rewrite Hrw. clear Hrw. unfold level_setting. destruct (stricmp cmd "SET" =? 0).
  { apply Hchecked. intros n' Hf' Hd'. set (level := wrap16 _).
    destruct (Z.leb_spec level ACCESS_INVALID) as [Hl|Hl]; simpl; [rewrite bool_decide_false by lia; by apply Hsame|].
    destruct (Z.leb_spec ACCESS_FOUNDER level) as [Hl'|Hl']; [rewrite bool_decide_false by lia; by apply Hsame|].
    rewrite bool_decide_true by lia. rewrite <- Hd'. by eapply change_level_spec. }
  destruct ((stricmp cmd "DIS" =? 0) || (stricmp cmd "DISABLE" =? 0)).
  { apply Hchecked. intros n' Hf' Hd'. rewrite <- Hd'. by eapply change_level_spec. }
  destruct (stricmp cmd "LIST" =? 0).
  { eapply wp_mono; [apply (Hchecked CA_LEVEL_LIST _ d)|].
    - intros n' Hf' Hd'. eapply ends_does; [exact Hf'|eapply does_levels_list; same_user|]. by rewrite Hd'.
    - intros a n' [Hf' Hd']. split; [done|]. rewrite <- Hd'. destruct may; by destruct (_ || _). }
  destruct (stricmp cmd "RESET" =? 0).
  { apply Hchecked. intros n' Hf' Hd'. eapply ends_step; [exact Hf'|apply does_update|]. intros n3 Hf3 Hd3. simpl in Hd3.
    eapply ends_step; [exact Hf3|eapply does_load; same_user|]. intros n4 Hf4 Hd4. simpl in Hd4.
    eapply (ends_step _ _ _ _ _ tt (db (ext n4))); [exact Hf4| |].
    { destruct (has _ CI_VERBOSE); [unfold opnotice, send_cmd; apply does_emit|apply does_pure]. }
    intros n5 Hf5 Hd5. simpl in Hd5. eapply ends_does; [exact Hf5|eapply does_reply; same_user|]. rewrite Hd5, Hd4, Hd3, Hd'. done. }
  destruct may; by apply Hsame.
Qed.

(** C10: The LEVELS command, for every argument, leaves the tables as they should
    be: nothing changes unless the user may change levels on the registered channel
    that is not forbidden; then SET gives the ability named the level asked for
    (cut down to 16 bits, and strictly between the invalid and the founder's level),
    DISABLE the invalid one, RESET takes back what the channel has set; and
    every other ability, there and elsewhere, keeps its level. *)
Theorem do_levels_correct n u us args : users_heap n !! u = Some us ->
  let d := db (ext n) in
  wp (do_levels u args) (fun _ n' => undisturbed n n' /\ db (ext n') = levels_outcome d us args /\
    forall chan cmd what s i, levels_words args = (Some chan, Some cmd, what, s) -> levels_syntax cmd what s = false ->
      levels_channel d us chan = Some i ->
      forall j w, ability_level (db (ext n')) j w =
        match level_setting cmd what s with
        | Some (Some (w', level)) => if bool_decide (j = i /\ w = w') then level else ability_level d j w
        | Some None => if j =? i then lookup_def_level w else ability_level d j w
        | None => ability_level d j w
        end) n.
Proof.
  intros Hu. cbn zeta. eapply wp_mono; [by apply do_levels_spec|]. intros a n' [Hf Hd]. split; [done|]. change (tracked n') with (db (ext n')) in Hd.
  split; [done|]. intros chan cmd what s i Hw Hs Hc j w. rewrite <- Hd. unfold levels_outcome. rewrite Hw, Hs, Hc.
  destruct (level_setting cmd what s) as [[[w' level]|]|]; [| |done].
  - unfold ability_level. simpl. case_bool_decide as Hjw.
    + destruct Hjw as [-> ->]. by rewrite lookup_insert_eq.
    + rewrite lookup_insert_ne; [done|]. intros [= -> ->]. by apply Hjw.
  - unfold ability_level. simpl. destruct (Z.eqb_spec j i) as [->|Hj].
    + replace (filter _ _ !! (i, w)) with (@None Z); [done|]. symmetry. apply map_lookup_filter_None. right. intros x _ Hx. by apply Hx.
    + destruct (chanlevel (db (ext n)) !! (j, w)) eqn:Hl.
      * by rewrite (proj2 (map_lookup_filter_Some _ _ _ _) (conj Hl Hj)).
      * replace (filter _ _ !! (j, w)) with (@None Z); [done|]. symmetry. apply map_lookup_filter_None. by left.
Qed.
End LevelsSpec.

(** ** Examples *)
Module Witness.
Import Interfaces.Demo Tables.

#[local] Instance mysql : MySQL := { collate := strlower; smallint z := Z.max 0 (Z.min z 65535); smallint_id := clamp_id }.
#[local] Instance akick_conf : AkickConf := { CSAutokickMax := 32 }.

(** alice founded #a. *)
Definition founder_alice : User := Demo.alice{{nick_id := 7; real_id := 7}}.

Lemma tables_akicks_ok : akicks_ok (db (ext Tables.net)) (akick (db (ext Tables.net))).
Proof. split; simpl; [apply NoDup_singleton|repeat constructor; simpl; lia|]. constructor; [by left|constructor]. Qed.

Lemma forms_range_123 : forms_range "1-2".
Proof. intros _. vm_compute. discriminate. Qed.


Lemma do_levels_correct_witness :
  wp (do_levels 1 "#a SET AKICK 7") (fun _ n' => ability_level (db (ext n')) 1 CA_AKICK = 7) Tables.net.
Proof.
  eapply wp_mono; [apply (do_levels_correct Tables.net 1 founder_alice "#a SET AKICK 7" eq_refl)|].
  intros a n' (_ & _ & Hl). rewrite (Hl "#a"%string "SET"%string (Some "AKICK"%string) (Some "7"%string) 1) by (vm_compute; reflexivity).
  vm_compute. reflexivity.
Defined.

(** Added last, then numbered behind the first. *)
Example eve_akicked :
  (fun r => map (fun a => (ak_nick a, ak_mask a, ak_idx a)) (rows (akick (db (ext (snd r)))))) <$>
    do_akick (fun _ _ => 0) (fun _ _ => EmptyString) 1 "#a ADD joe@example.org spam" Tables.net =
    Some [(0, "*!*@*.example.org", 1); (0, "*!joe@example.org", 2)]%string.
Proof. by vm_compute. Qed.
End Witness.
