(* ===== verification/ChanCmds.v ===== *)
(** ChanServ's commands for the users of a channel: INVITE, OP, DEOP, VOICE,
    DEVOICE, UNBAN, CLEAR and STATUS ([src/chanserv.c]). *)

From S2P Require Import Prelude CStr Wild NumTime Wp Track Graph Net Masks Interfaces Channels Users Table Query ChanDB ChanServ Mlock CsAccess.

Section Cmds.
Context `{Conf} {E : Type} `{!ChanDB E} `{!NickServ E}.
Implicit Types (n : Net E).
#[local] Existing Instance modeserv.

Definition get_channelinfo_from_id (i : Z) : M (Net E) (option ChanInfo) :=
  select (fun d => if i =? 0 then None else channel d !! i).

(** The channel of a command is in use, registered and not forbidden, and the
    user has the ability. *)
Definition on_channel (u : ptr) (chan : string) (k : ptr -> Z -> ChanInfo -> M (Net E) unit) : M (Net E) unit :=
  c ← findchan chan;
  if c =? NULL then reply u ("CHAN_X_NOT_IN_USE " +:+ chan)
  else
    ch ← load_chan c;
    ci ← get_channelinfo_from_id (channel_id ch);
    match ci with
    | None => reply u ("CHAN_X_NOT_REGISTERED " +:+ chan)
    | Some ci => if has (ci_flags ci) CI_VERBOTEN then reply u ("CHAN_X_FORBIDDEN " +:+ chan) else k c (channel_id ch) ci
    end.

Definition permitted (u : ptr) (i what : Z) (m : M (Net E) unit) : M (Net E) unit :=
  may ← check_access u i what;
  if may : bool then m else reply u "PERMISSION_DENIED".

Definition verbose (ci : ChanInfo) (chan text : string) : M (Net E) unit :=
  when (has (ci_flags ci) CI_VERBOSE) (opnotice s_ChanServ chan text).

(** *** INVITE *)
Definition do_invite (u : ptr) (args : string) : M (Net E) unit :=
  match fst (strtok args " ") with
  | None => reply u "CHAN_INVITE_SYNTAX"
  | Some chan =>
      on_channel u chan (fun c i ci => permitted u i CA_INVITE
        (us ← load_user u;
         verbose ci chan (nick us +:+ " used INVITE");;
         send_cmd (Some s_ChanServ) ("INVITE " +:+ nick us +:+ " " +:+ chan)))
  end.

(** *** OP, DEOP, VOICE and DEVOICE *)

(** [for (uc = target_user->chans; uc; uc = uc->next)]: is there one of that name? *)
Fixpoint on_list (cmp : string -> string -> Z) (chan : string) (l : list ptr) : M (Net E) bool :=
  match l with
  | [] => mret false
  | c :: l' => ch ← load_chan c; if cmp chan (name ch) =? 0 then mret true else on_list cmp chan l'
  end.

(** The one named is online, and on the channel. *)
Definition with_target (cmp : string -> string -> Z) (u : ptr) (chan params : string) (ci : ChanInfo) (m : M (Net E) unit)
    : M (Net E) unit :=
  target_user ← finduser params;
  if target_user =? NULL then reply u ("CHAN_OP_NICK_NOT_PRESENT " +:+ params +:+ " " +:+ ci_name ci)
  else
    tu ← load_user target_user;
    there ← on_list cmp chan (chans tu);
    if there : bool then m else reply u ("CHAN_OP_NICK_NOT_PRESENT " +:+ params +:+ " " +:+ ci_name ci).

(** The network is told, then Services' own tables follow. *)
Definition set_mode (source sep chan md params : string) : M (Net E) unit :=
  send_cmd (Some source) ("MODE " +:+ chan +:+ " " +:+ md +:+ sep +:+ params);;
  do_cmode s_ChanServ 3 chan md [params].

(** How the four begin: the second word, or the user's own nick. *)
Definition status_command (syntax : string) (k : User -> string -> string -> Z -> ChanInfo -> M (Net E) unit) (u : ptr) (args : string)
    : M (Net E) unit :=
  let '(chan, rest) := strtok args " " in
  us ← load_user u;
  let params := default (nick us) (fst (strtok rest " ")) in
  match chan with
  | None => reply u syntax
  | Some chan => on_channel u chan (fun c i ci => k us chan params i ci)
  end.

Definition do_op (u : ptr) : string -> M (Net E) unit :=
  status_command "CHAN_OP_SYNTAX" (fun us chan op_params i ci =>
    recognized ← nick_recognized u;
    if recognized : bool then
      permitted u i CA_OPDEOP
        (with_target irc_stricmp u chan op_params ci
          (verbose ci chan ("OP command used for " +:+ op_params +:+ " by " +:+ nick us);;
           set_mode s_ChanServ " " chan "+o" op_params))
    else reply u "CHAN_MUST_IDENTIFY_NICK") u.

Definition do_deop (u : ptr) : string -> M (Net E) unit :=
  status_command "CHAN_DEOP_SYNTAX" (fun us chan deop_params i ci =>
    permitted u i CA_OPDEOP
      (with_target irc_stricmp u chan deop_params ci
        (verbose ci chan ("DEOP command used for " +:+ deop_params +:+ " by " +:+ nick us);;
         set_mode s_ChanServ " " chan "-o" deop_params))) u.

(** A voice of one's own takes less. *)
Definition required_access (us : User) (params : string) : Z :=
  if stricmp params (nick us) =? 0 then CA_AUTOVOICE else CA_OPDEOP.

Definition do_voice (u : ptr) : string -> M (Net E) unit :=
  status_command "CHAN_VOICE_SYNTAX" (fun us chan voice_params i ci =>
    permitted u i (required_access us voice_params)
      (with_target stricmp u chan voice_params ci
        (set_mode s_ChanServ " " chan "+v" voice_params;;
         verbose ci chan ("VOICE command used for " +:+ voice_params +:+ " by " +:+ nick us)))) u.

Definition do_devoice (u : ptr) : string -> M (Net E) unit :=
  status_command "CHAN_DEVOICE_SYNTAX" (fun us chan devoice_params i ci =>
    permitted u i (required_access us devoice_params)
      (with_target stricmp u chan devoice_params ci
        (set_mode s_ChanServ " " chan "-v" devoice_params;;
         verbose ci chan ("DEVOICE command used for " +:+ devoice_params +:+ " by " +:+ nick us)))) u.

(** *** UNBAN *)

(** [bans] is the list of bans as it was. *)
Fixpoint unban_loop (u : ptr) (chan : string) (bans : list Ban) : M (Net E) unit :=
  match bans with
  | [] => mret tt
  | b :: bans' =>
      us ← load_user u;
      match match_usermask (mask b) us with
      | None => fault
      | Some hit => when hit (set_mode ServerName " " chan "-b" (mask b));; unban_loop u chan bans'
      end
  end.

Definition do_unban (u : ptr) (args : string) : M (Net E) unit :=
  match fst (strtok args " ") with
  | None => reply u "CHAN_UNBAN_SYNTAX"
  | Some chan =>
      on_channel u chan (fun c i ci => permitted u i CA_UNBAN
        (ch ← load_chan c;
         unban_loop u chan (newbans ch);;
         us ← load_user u;
         verbose ci chan (nick us +:+ " used UNBAN");;
         reply u ("CHAN_UNBANNED " +:+ chan)))
  end.

(** *** CLEAR *)
Definition clear_bans (c : ptr) (chan : string) : M (Net E) unit :=
  ch ← load_chan c;
  for_each (newbans ch) (fun b => set_mode ServerName " :" chan "-b" (mask b)).

Definition clear_modes (c : ptr) (chan : string) : M (Net E) unit :=
  ch ← load_chan c;
  set_mode s_ChanServ " :" chan "-cimMnOpRstlk" (default EmptyString (key ch));;
  Interfaces.check_modes chan.

(** [next] is read before the entry goes; it is the entry that goes. *)
Definition clear_status (chan md : string) (l : list ptr) : M (Net E) unit :=
  for_each l (fun p => us ← load_user p; set_mode s_ChanServ " :" chan md (nick us)).

Definition kick_off (chan buf : string) (p : ptr) : M (Net E) unit :=
  us ← load_user p;
  send_cmd (Some s_ChanServ) ("KICK " +:+ chan +:+ " " +:+ nick us +:+ " :" +:+ buf);;
  do_kick (ChanServ0 := chanserv) chan (nick us).

Definition clear_users (u : ptr) (c : ptr) (chan : string) : M (Net E) unit :=
  us ← load_user u;
  let buf := trunc 256 ("CLEAR USERS command from " +:+ nick us) in
  ch ← load_chan c;
  for_each (users ch) (kick_off chan buf).

Definition do_clear (u : ptr) (args : string) : M (Net E) unit :=
  let '(chan, rest) := strtok args " " in
  match chan, fst (strtok rest " ") with
  | Some chan, Some what =>
      on_channel u chan (fun c i ci => permitted u i CA_CLEAR
        (us ← load_user u;
         if stricmp what "bans" =? 0 then
           clear_bans c chan;;
           verbose ci chan (nick us +:+ " cleared bans");;
           reply u ("CHAN_CLEARED_BANS " +:+ chan)
         else if stricmp what "modes" =? 0 then
           clear_modes c chan;;
           verbose ci chan (nick us +:+ " cleared modes");;
           reply u ("CHAN_CLEARED_MODES " +:+ chan)
         else if stricmp what "ops" =? 0 then
           verbose ci chan (nick us +:+ " cleared ops");;
           ch ← load_chan c;
           clear_status chan "-o" (chanops ch);;
           reply u ("CHAN_CLEARED_OPS " +:+ chan)
         else if stricmp what "voices" =? 0 then
           ch ← load_chan c;
           clear_status chan "-v" (voices ch);;
           verbose ci chan (nick us +:+ " cleared voices");;
           reply u ("CHAN_CLEARED_VOICES " +:+ chan)
         else if stricmp what "users" =? 0 then
           clear_users u c chan;;
           reply u ("CHAN_CLEARED_USERS " +:+ chan)
         else reply u "CHAN_CLEAR_SYNTAX"))
  | _, _ => reply u "CHAN_CLEAR_SYNTAX"
  end.

(** *** STATUS: the channel and the nick in either order *)
Definition do_status (u : ptr) (args : string) : M (Net E) unit :=
  let '(chan, rest) := strtok args " " in
  let '(nk, rest) := strtok rest " " in
  match chan, nk, fst (strtok rest " ") with
  | Some chan, Some nk, None =>
      i ← mysql_findchan chan;
      first ← get_channelinfo_from_id i;
      '(chan, nk, i, ci) ← (match first with
        | Some ci => mret (chan, nk, i, Some ci)
        | None => i ← mysql_findchan nk; ci ← get_channelinfo_from_id i; mret (nk, chan, i, ci)
        end : M (Net E) (string * string * Z * option ChanInfo));
      match ci with
      | None => reply u ("STATUS ERROR Channel " +:+ chan +:+ " not registered")
      | Some ci =>
          if has (ci_flags ci) CI_VERBOTEN then reply u ("STATUS ERROR Channel " +:+ chan +:+ " forbidden")
          else
            u2 ← finduser nk;
            if u2 =? NULL then reply u ("STATUS ERROR Nick " +:+ nk +:+ " not online")
            else l ← get_access u2 i; reply u ("STATUS " +:+ chan +:+ " " +:+ nk +:+ " " +:+ show_int l)
      end
  | _, _, _ => reply u "STATUS ERROR Syntax error"
  end.
End Cmds.

(** ** Who is let through *)
Section Guards.
Context `{Conf} {E : Type} `{!ChanDB E} `{!NickServ E} `{!NickView E}.
Implicit Types (n : Net E) (d : DB) (us : User).

(** The channel a command is about, if it may be used. *)
Definition command_channel n (chan : string) : option (ptr * Channel * ChanInfo) :=
  let c := g_findchan (graph_of n) chan in
  ch ← chans_heap n !! c;
  ci ← (if channel_id ch =? 0 then None else channel (db (ext n)) !! channel_id ch);
  if has (ci_flags ci) CI_VERBOTEN then None else Some (c, ch, ci).

(** All that happened is a notice to the user. *)
Definition told us n n' : Prop := exists text, sent [Notice s_ChanServ (nick us) text] n n'.

Lemma sent_trans o1 o2 n0 n1 n2 : sent o1 n0 n1 -> sent o2 n1 n2 -> sent (o2 ++ o1) n0 n2.
Proof.
  intros (e1 & -> & H1) (e2 & -> & H2). exists e2. split; [|simpl in *; congruence]. simpl. by rewrite app_assoc.
Qed.

Lemma sent_msg n n1 m : n1 = n{{out ::= cons m}} -> sent [m] n n1.
Proof. intros ->. exists (ext n). by destruct n. Qed.

Lemma quiet_sent n n' : quiet n n' -> sent [] n n'.
Proof. apply sent_nil. Qed.

Lemma sent_users o n n' : sent o n n' -> users_heap n' = users_heap n.
Proof. by intros (e & -> & _). Qed.
Lemma sent_chans o n n' : sent o n n' -> chans_heap n' = chans_heap n.
Proof. by intros (e & -> & _). Qed.
Lemma sent_graph o n n' : sent o n n' -> graph_of n' = graph_of n.
Proof. by intros (e & -> & _). Qed.
Lemma sent_db o n n' : sent o n n' -> db (ext n') = db (ext n).
Proof. by intros (e & -> & He). Qed.
Lemma sent_now o n n' : sent o n n' -> now n' = now n.
Proof. by intros (e & -> & He). Qed.

Lemma wp_cmd_reply o n n1 u us text (Q : unit -> Net E -> Prop) : users_heap n !! u = Some us -> sent o n n1 ->
  (forall n', sent (Notice s_ChanServ (nick us) text :: o) n n' -> Q tt n') -> wp (reply u text) Q n1.
Proof.
  intros Hu Hs HQ. unfold reply, emit. apply wp_bind. eapply wp_load_user; [by rewrite (sent_users _ _ _ Hs)|].
  apply wp_modify, HQ. eapply (sent_trans o [_]); [exact Hs|by apply sent_msg].
Qed.

Lemma wp_cmd_told n n1 u us text (Q : unit -> Net E -> Prop) : users_heap n !! u = Some us -> sent [] n n1 ->
  (forall n', told us n n' -> Q tt n') -> wp (reply u text) Q n1.
Proof. intros Hu Hs HQ. eapply wp_cmd_reply; [exact Hu|exact Hs|]. intros n' Hs'. apply HQ. by exists text. Qed.

Lemma wp_cmd_asks {A} o n n1 (m : M (Net E) A) a (Q : A -> Net E -> Prop) :
  sent o n n1 -> query n1 m a -> (forall n', sent o n n' -> Q a n') -> wp m Q n1.
Proof.
  intros Hs Hm HQ. eapply wp_mono; [apply Hm|]. intros b n2 [-> Hq2]. apply HQ. exact (sent_trans o [] _ _ _ Hs (quiet_sent _ _ Hq2)).
Qed.

Lemma g_findchan_some g nm : g_findchan g nm <> NULL -> is_Some (g_chans g !! g_findchan g nm).
Proof.
  unfold g_findchan. destruct (find_first _ _) as [q|] eqn:Ef; simpl; [|done]. intros _.
  apply find_first_Some in Ef as [_ Ef]. destruct (g_chans g !! q); [eauto|done].
Qed.

Lemma on_channel_spec n u us chan k (Q : unit -> Net E -> Prop) : users_heap n !! u = Some us -> heap_ok (graph_of n) ->
  (command_channel n chan = None -> forall n', told us n n' -> Q tt n') ->
  (forall c ch ci n1, command_channel n chan = Some (c, ch, ci) -> sent [] n n1 -> wp (k c (channel_id ch) ci) Q n1) ->
  wp (on_channel u chan k) Q n.
Proof.
  intros Hu Hg Hno Hyes. unfold on_channel, command_channel in *. apply wp_bind.
  eapply wp_intro; [by apply findchan_det|]. set (c := g_findchan (graph_of n) chan) in *.
  destruct (Z.eqb_spec c NULL) as [E0|Hne].
  - eapply wp_cmd_told; [exact Hu|by apply quiet_sent, quiet_refl|]. apply Hno.
    destruct (chans_heap n !! c) as [ch|] eqn:Hc; [|done]. by apply (chan_addr _ _ _ Hg) in Hc.
  - assert (Hc : is_Some (chans_heap n !! c)).
    { rewrite <- is_Some_graph_chan. by apply g_findchan_some. }
    destruct Hc as [ch Hc]. rewrite Hc in Hno, Hyes. simpl in Hno, Hyes. apply wp_bind. eapply wp_load_chan; [exact Hc|].
    apply wp_bind. eapply wp_cmd_asks; [by apply quiet_sent, quiet_refl|by apply query_gets|]. intros n1 H1. cbv beta.
    destruct (if channel_id ch =? 0 then None else _) as [ci|]; simpl in Hno, Hyes; [|by eapply wp_cmd_told; [exact Hu|exact H1|apply Hno]].
    destruct (has (ci_flags ci) CI_VERBOTEN); [by eapply wp_cmd_told; [exact Hu|exact H1|apply Hno]|]. by apply Hyes.
Qed.

Lemma permitted_spec n n1 u us i what m (Q : unit -> Net E -> Prop) : users_heap n !! u = Some us -> sent [] n n1 ->
  (permits (db (ext n)) us i what = false -> forall n', told us n n' -> Q tt n') ->
  (permits (db (ext n)) us i what = true -> forall n2, sent [] n n2 -> wp m Q n2) ->
  wp (permitted u i what m) Q n1.
Proof.
  intros Hu Hs Hno Hyes. unfold permitted. apply wp_bind.
  eapply wp_cmd_asks; [exact Hs|apply query_check_access; by rewrite (sent_users _ _ _ Hs)|]. rewrite (sent_db _ _ _ Hs). intros n2 H2.
  destruct (permits _ us i what); [by apply Hyes|]. eapply wp_cmd_told; [exact Hu|exact H2|by apply Hno].
Qed.
End Guards.

(** ** Modes that Services set themselves *)
Section OwnMode.
Context `{Conf} {E : Type} `{!ChanDB E} `{!NickServ E} `{!NickView E}.
Implicit Types (n : Net E) (d : DB) (us : User) (ch : Channel) (lk : ChanServ.Mlock).

(** Only channel [c] has changed since [n0], messages and caches apart. *)
Record on_chan (c : ptr) ch n0 n : Prop := {
  oc_chans : chans_heap n = <[c := ch]> (chans_heap n0);
  oc_users : users_heap n = users_heap n0;
  oc_ulist : userlist n = userlist n0;
  oc_clist : chanlist n = chanlist n0;
  oc_next : next_addr n = next_addr n0;
  oc_walk : u_current n = u_current n0;
  oc_now : now n = now n0;
  oc_db : db (ext n) = db (ext n0);
  oc_out : exists o, out n = o ++ out n0
}.

Lemma on_chan_at c ch o n0 n : at_chan c ch o n0 n -> on_chan c ch n0 n.
Proof. intros []. split; try done; [by rewrite at_ext|eauto]. Qed.

Lemma on_chan_sent c ch o n0 n : chans_heap n0 !! c = Some ch -> sent o n0 n -> on_chan c ch n0 n.
Proof. intros Hc (e & -> & He). split; try done; simpl; [by rewrite insert_id|eauto]. Qed.

Lemma on_chan_trans c ch1 ch2 n0 n1 n2 : on_chan c ch1 n0 n1 -> on_chan c ch2 n1 n2 -> on_chan c ch2 n0 n2.
Proof.
  intros [] []. split; try congruence.
  - rewrite oc_chans1, oc_chans0. by rewrite insert_insert_eq.
  - destruct oc_out0 as [o0 Ho0], oc_out1 as [o1 Ho1]. exists (o1 ++ o0). by rewrite Ho1, Ho0, app_assoc.
Qed.

Lemma on_chan_lookup c ch n0 n : on_chan c ch n0 n -> chans_heap n !! c = Some ch.
Proof. intros []. by rewrite oc_chans0, lookup_insert_eq. Qed.

Lemma on_chan_graph c ch n0 n : on_chan c ch n0 n ->
  graph_of n = (graph_of n0){{g_chans ::= insert c (chan_view ch)}}.
Proof.
  intros []. unfold graph_of. rewrite oc_users0, oc_ulist0, oc_clist0, oc_next0, oc_walk0, oc_chans0.
  unfold set. simpl. by rewrite fmap_insert.
Qed.

Lemma on_chan_findchan c ch0 ch n0 n s : chans_heap n0 !! c = Some ch0 -> name ch = name ch0 -> on_chan c ch n0 n ->
  g_findchan (graph_of n) s = g_findchan (graph_of n0) s.
Proof.
  intros Hc Hn Ho. rewrite (on_chan_graph _ _ _ _ Ho). apply g_findchan_names; [done|]. simpl. intros c'.
  destruct (decide (c' = c)) as [->|]; [|by rewrite lookup_insert_ne].
  rewrite lookup_insert_eq, lookup_fmap, Hc. simpl. by rewrite Hn.
Qed.

(** The lock may have been put in force on the way. *)
Definition settles lk ch ch' : Prop := book ch' ch \/ (bouncy_modes ch = 0 /\ book ch' (enforce lk ch)).

Lemma enforce_idem lk ch : enforce lk (enforce lk ch) = enforce lk ch.
Proof.
  unfold enforce. simpl. f_equal.
  - apply Z.bits_inj'. intros j Hj. repeat (rewrite Z.ldiff_spec || rewrite Z.lor_spec || rewrite Z.land_spec).
    destruct (Z.testbit (cmode ch) j), (Z.testbit (l_on lk) j), (Z.testbit (l_off lk) j), (Z.testbit LOCKABLE j); done.
  - destruct (has _ _); [done|]. by destruct (Z.eqb_spec (l_limit lk) 0).
  - destruct (has _ _); [done|]. by destruct (String.eqb _ _).
Qed.

Lemma book_bouncy a b : book a b -> bouncy_modes a = bouncy_modes b.
Proof. intros Hb. by destruct (book_fields _ _ Hb) as (_ & _ & _ & _ & _ & Hb' & _). Qed.

Lemma settles_trans lk a b c : settles lk a b -> settles lk b c -> settles lk a c.
Proof.
  intros [Hab|[Hz Hab]] [Hbc|[Hz' Hbc]].
  - left. by transitivity b.
  - right. split; [by rewrite <- (book_bouncy _ _ Hab)|]. rewrite Hbc. by apply book_enforce.
  - right. split; [done|]. by transitivity b.
  - right. split; [done|]. rewrite Hbc, <- (enforce_idem lk a). by apply book_enforce.
Qed.

(** What a command does to a channel beside the modes that a lock is about. *)
Definition apart (f : Channel -> Channel) : Prop :=
  (forall a, core (f (core a)) = core (f a)) /\ (forall lk a, f (enforce lk a) = enforce lk (f a)) /\
  forall a, bouncy_modes (f a) = bouncy_modes a.

Lemma book_apart f a b : apart f -> book a b -> book (f a) (f b).
Proof. intros (Hf & _) Hab. unfold book. by rewrite <- Hf, Hab, Hf. Qed.

Lemma settles_apart lk f a b : apart f -> settles lk a b -> settles lk (f a) (f b).
Proof.
  intros Hf [Hab|[Hz Hab]].
  - left. by apply book_apart.
  - right. destruct Hf as (Hf & He & Hb). split; [by rewrite Hb|]. rewrite <- He. by apply book_apart.
Qed.

Lemma settles_fields lk a b : settles lk a b ->
  chan_view b = chan_view a /\ newbans b = newbans a /\ channel_id b = channel_id a /\ bouncy_modes b = bouncy_modes a.
Proof.
  intros [Hb|[_ Hb]]; pose proof (book_view _ _ Hb); destruct (book_fields _ _ Hb) as (_ & _ & _ & _ & ? & ? & ?); split_and!; done.
Qed.

(** The check at the end of [do_cmode]. *)
Lemma own_check_modes c ch n chan : heap_ok (graph_of n) -> no_nul chan = true -> g_findchan (graph_of n) chan = c ->
  chans_heap n !! c = Some ch ->
  wp (Interfaces.check_modes (ModeServ := modeserv) chan) (fun _ n' => exists ch', on_chan c ch' n n' /\
    (if bouncy_modes ch =? 0 then book ch' (enforce (lock_of (db (ext n)) (channel_id ch)) ch) else ch' = ch)) n.
Proof.
  intros Hg Hnul Hf Hc. pose proof (findchan_det n chan Hg) as Hfd. rewrite Hf in Hfd.
  change (wp (check_modes 2 chan) (fun _ n' => exists ch', on_chan c ch' n n' /\
    (if bouncy_modes ch =? 0 then book ch' (enforce (lock_of (db (ext n)) (channel_id ch)) ch) else ch' = ch)) n).
  destruct (Z.eqb_spec (bouncy_modes ch) 0) as [Hb|Hb].
  - eapply wp_mono; [eapply (check_modes_run 0 n c ch chan); try done; by eapply chan_addr|].
    intros [] n' (ch' & o & Hat & Hbk & _). exists ch'. split; [by eapply on_chan_at|done].
  - eapply wp_intro; [eapply check_modes_other; [exact Hfd|right; eauto]|]. exists ch.
    split; [|done]. eapply on_chan_at, at_init. done.
Qed.

Lemma relock_settles lk ch ch' : (if bouncy_modes ch =? 0 then book ch' (enforce lk ch) else ch' = ch) -> settles lk ch ch'.
Proof. destruct (Z.eqb_spec (bouncy_modes ch) 0); [by right|]. intros ->. by left. Qed.
End OwnMode.

(** *** One letter with one argument *)
Section OneMode.
Context `{Conf} {E : Type} `{!ChanDB E} `{!NickServ E} `{!NickView E}.
Context (chan : string) (Hnul : no_nul chan = true).
Implicit Types (n : Net E) (us : User) (ch : Channel).

(** The channel named is [c], as [ch]. *)
Record at_own (c : ptr) ch n : Prop := {
  ow_heap : heap_ok (graph_of n);
  ow_chan : chans_heap n !! c = Some ch;
  ow_found : g_findchan (graph_of n) chan = c
}.

Lemma on_chan_own c ch0 ch n0 n : at_own c ch0 n0 -> on_chan c ch n0 n -> name ch = name ch0 -> heap_ok (graph_of n) -> at_own c ch n.
Proof.
  intros [Hg Hc Hf] Ho Hn Hg'. split; [done|by eapply on_chan_lookup|]. by rewrite (on_chan_findchan _ _ _ _ _ _ Hc Hn Ho).
Qed.

Lemma on_chan_heap c ch ch' n0 n : on_chan c ch n0 n -> chans_heap n0 !! c = Some ch' -> chan_view ch = chan_view ch' ->
  heap_ok (graph_of n0) -> heap_ok (graph_of n).
Proof.
  intros Ho Hc Hv Hg. rewrite (on_chan_graph _ _ _ _ Ho), Hv. unfold graph_of, set. simpl. rewrite insert_id by (by rewrite lookup_fmap, Hc). exact Hg.
Qed.

Lemma own_name c ch n : at_own c ch n -> no_nul (name ch) = true /\ g_findchan (graph_of n) (name ch) = c.
Proof.
  intros [Hg Hc Hf]. split; [eapply (ho_name _ Hg c (chan_view ch)), graph_chan; eauto|].
  assert (Hfd : findchan chan n = Some (c, n)) by (rewrite findchan_det by done; by rewrite Hf).
  assert (Ho : findchan (name ch) n = Some (c, n)) by (eapply findchan_own; try done; by eapply chan_addr).
  rewrite findchan_det in Ho by done. by injection Ho.
Qed.

Notation lock n ch := (lock_of (db (ext n)) (channel_id ch)).

Lemma own_do_cmode c ch n md av ch2 : at_own c ch n -> name ch2 = name ch -> channel_id ch2 = channel_id ch ->
  (forall n1 ch1, at_chan c ch1 [] n n1 -> book ch1 ch ->
     wp (cmode_loop (ModeServ0 := modeserv) s_ChanServ c md (mkMState true 1 av)) (fun _ n2 => exists ch', on_chan c ch' n n2 /\
       book ch' ch2 /\ heap_ok (graph_of n2)) n1) ->
  wp (do_cmode (ModeServ0 := modeserv) s_ChanServ 3 chan md av) (fun _ n' => exists ch', on_chan c ch' n n' /\
    settles (lock n ch) ch2 ch' /\ at_own c ch' n') n.
Proof.
  intros Hown Hname Hid Hloop. pose proof (own_name _ _ _ Hown) as [Hnn Hfn]. pose proof Hown as [Hg Hc Hf].
  unfold do_cmode. apply wp_bind. eapply wp_intro; [by apply findchan_det|]. rewrite Hf.
  rewrite (proj2 (Z.eqb_neq _ _)) by (by eapply chan_addr). apply wp_bind.
  eapply count_server_spec; [by apply at_init|]. intros n1 ch1 Hat1 Hb1. apply wp_bind.
  eapply wp_mono; [exact (Hloop n1 ch1 Hat1 Hb1)|]. intros [] n2 (ch' & Ho2 & Hb2 & Hg2). apply wp_bind.
  eapply wp_load_chan; [by eapply on_chan_lookup|].
  destruct (book_fields _ _ Hb2) as (Hn2 & _ & _ & _ & Hi2 & _).
  assert (Hnm : name ch' = name ch) by (by rewrite Hn2).
  eapply wp_mono; [apply (own_check_modes c ch' n2); [done|by rewrite Hnm| |by eapply on_chan_lookup]|].
  { rewrite Hnm, (on_chan_findchan _ _ _ _ _ _ Hc Hnm Ho2). done. }
  intros [] n3 (ch3 & Ho3 & Hs3). apply relock_settles in Hs3. rewrite (oc_db _ _ _ _ Ho2), Hi2, Hid in Hs3.
  assert (Ho : on_chan c ch3 n n3) by (by eapply on_chan_trans). exists ch3. split; [done|].
  destruct (settles_fields _ _ _ Hs3) as (Hv3 & _).
  split; [eapply settles_trans; [by left|exact Hs3]|]. eapply on_chan_own; [exact Hown|exact Ho| |].
  - rewrite <- Hnm. exact (f_equal w_name Hv3).
  - eapply on_chan_heap; [exact Ho3|by eapply on_chan_lookup|exact Hv3|exact Hg2].
Qed.

(** *** Bans *)
Definition drop_ban (m : string) ch : Channel := ch{{newbans ::= remove_first (fun b => String.eqb (mask b) m)}}.

Lemma own_del_ban c ch n m : at_own c ch n ->
  wp (do_cmode (ModeServ0 := modeserv) s_ChanServ 3 chan "-b" [m]) (fun _ n' => exists ch', on_chan c ch' n n' /\
    settles (lock n ch) (drop_ban m ch) ch' /\ at_own c ch' n') n.
Proof.
  intros Hown. apply own_do_cmode; [done..|]. intros n1 ch1 Hat1 Hb1.
  change (wp (st' ← cmode_ban (E := E) c (mkMState false 1 [m]); mret tt) (fun _ n2 => exists ch', on_chan c ch' n n2 /\
    book ch' (drop_ban m ch) /\ heap_ok (graph_of n2)) n1).
  unfold cmode_ban. apply wp_bind. simpl. apply wp_bind, wp_ret, wp_bind. unfold del_ban. eapply at_upd; [exact Hat1|].
  intros n2 Hat2. apply wp_ret, wp_ret. eexists. split; [by eapply on_chan_at|].
  assert (Hb2 : book (drop_ban m ch1) (drop_ban m ch)).
  { refine (book_apart (drop_ban m) _ _ _ Hb1). by split_and!. }
  split; [exact Hb2|]. rewrite (at_graph _ _ _ _ _ _ (ow_chan _ _ _ Hown) (book_view _ _ Hb2) Hat2). apply Hown.
Qed.

(** *** Status *)
Lemma on_chan_members c ch ch' n0 n : on_chan c ch' n0 n -> chans_heap n0 !! c = Some ch -> name ch' = name ch ->
  (forall p, p ∈ users ch' \/ p ∈ chanops ch' \/ p ∈ voices ch' -> is_Some (users_heap n0 !! p)) ->
  heap_ok (graph_of n0) -> heap_ok (graph_of n).
Proof.
  intros Ho Hc Hn Hm Hg. rewrite (on_chan_graph _ _ _ _ Ho).
  set (f := fun w : cview => mkCView (w_name w) (users ch') (chanops ch') (voices ch')).
  assert (Hf : heap_ok ((graph_of n0){{g_chans ::= alter f c}})).
  { apply heap_ok_alter_chan; [done| |exact Hg]. intros w p _ Hp. apply is_Some_graph_user, Hm, Hp. }
  revert Hf. unfold set. simpl. erewrite (alter_insert_eq' _ c (chan_view ch) f); [|by rewrite lookup_fmap, Hc].
  unfold f. simpl. by rewrite <- Hn.
Qed.

Lemma own_members c ch n p : at_own c ch n -> p ∈ users ch \/ p ∈ chanops ch \/ p ∈ voices ch -> is_Some (users_heap n !! p).
Proof.
  intros [Hg Hc _] Hp. rewrite <- is_Some_graph_user. apply (ho_users _ Hg c (chan_view ch)); [apply graph_chan; eauto|done].
Qed.

(** The first on a list with that nick. *)
Definition listed n (l : list ptr) (nk : string) : ptr :=
  default NULL (find_first (fun p => match users_heap n !! p with Some us => stricmp (nick us) nk =? 0 | None => false end) l).

Lemma list_find_nick_at n l nk : (forall p, p ∈ l -> is_Some (users_heap n !! p)) ->
  list_find_nick l nk n = Some (listed n l nk, n).
Proof.
  induction l as [|p l IH]; intros Hl; [done|]. destruct (Hl p ltac:(constructor)) as [us Hu].
  unfold listed. simpl. unfold mbind, M_bind, load_user. rewrite Hu. destruct (stricmp (nick us) nk =? 0); [done|].
  apply IH. intros q Hq. apply Hl. by constructor.
Qed.

Lemma listed_users n n' l nk : users_heap n' = users_heap n -> listed n' l nk = listed n l nk.
Proof. unfold listed. by intros ->. Qed.

Definition take_op n (nk : string) ch : Channel :=
  if listed n (chanops ch) nk =? NULL then ch else ch{{chanops ::= unlink (listed n (chanops ch) nk)}}.
Definition take_voice n (nk : string) ch : Channel :=
  if listed n (voices ch) nk =? NULL then ch else ch{{voices ::= unlink (listed n (voices ch) nk)}}.
Definition give_voice n (nk : string) ch : Channel :=
  let p := g_finduser (graph_of n) nk in
  if negb (listed n (voices ch) nk =? NULL) || (p =? NULL) then ch else ch{{voices ::= cons p}}.
(** [check_valid_op] has the last word. *)
Definition give_op n (nk : string) ch : Channel :=
  let p := g_finduser (graph_of n) nk in
  if negb (listed n (chanops ch) nk =? NULL) then ch
  else match users_heap n !! p with
       | Some pu => if valid_op n pu (name ch) (has_char s_ChanServ ".") then ch{{chanops ::= cons p}} else ch
       | None => ch
       end.

(** What [cmode_op] and [cmode_voice] see of the channel. *)
Lemma book_lists a b : book a b -> name a = name b /\ users a = users b /\ chanops a = chanops b /\ voices a = voices b.
Proof. intros Hb. pose proof (book_view _ _ Hb) as Hv. unfold chan_view in Hv. by injection Hv. Qed.

Lemma take_op_members n nk ch p : p ∈ chanops (take_op n nk ch) -> p ∈ chanops ch.
Proof. unfold take_op. destruct (_ =? _); simpl; [done|]. apply unlink_subseteq. Qed.
Lemma take_voice_members n nk ch p : p ∈ voices (take_voice n nk ch) -> p ∈ voices ch.
Proof. unfold take_voice. destruct (_ =? _); simpl; [done|]. apply unlink_subseteq. Qed.

(** The letter has done its work. *)
Lemma letter_done c ch n ch' ch2 n2 : at_own c ch n -> on_chan c ch2 n n2 -> book ch2 ch' -> name ch' = name ch -> users ch' = users ch ->
  (forall p, p ∈ chanops ch' \/ p ∈ voices ch' -> is_Some (users_heap n !! p)) ->
  exists ch2, on_chan c ch2 n n2 /\ book ch2 ch' /\ heap_ok (graph_of n2).
Proof.
  intros Hown Ho2 Hb2 Hn Hu Hm. exists ch2. split; [done|]. split; [done|].
  destruct (book_lists _ _ Hb2) as (Hn2 & Hu2 & Hp2 & Hv2). eapply on_chan_members; [exact Ho2|apply Hown|by rewrite Hn2| |apply Hown].
  intros p. rewrite Hu2, Hp2, Hv2, Hu. intros [Hp|Hp]; [eapply own_members; [exact Hown|by left]|by apply Hm].
Qed.

(** The one named, on a list of the channel. *)
Lemma find_listed c ch n n1 ch1 l nk : at_own c ch n -> at_chan c ch1 [] n n1 ->
  (forall p, p ∈ l -> p ∈ chanops ch \/ p ∈ voices ch) -> list_find_nick l nk n1 = Some (listed n l nk, n1).
Proof.
  intros Hown Hat Hl. pose proof (at_users _ _ _ _ _ Hat) as Hus. rewrite <- (listed_users _ _ _ _ Hus).
  apply list_find_nick_at. rewrite Hus. intros p Hp. eapply own_members; [exact Hown|]. right. auto.
Qed.

Lemma own_take_op c ch n nk : at_own c ch n ->
  wp (do_cmode (ModeServ0 := modeserv) s_ChanServ 3 chan "-o" [nk]) (fun _ n' => exists ch', on_chan c ch' n n' /\
    settles (lock n ch) (take_op n nk ch) ch' /\ at_own c ch' n') n.
Proof.
  intros Hown. apply own_do_cmode; [done|by unfold take_op; destruct (_ =? _)..|]. intros n1 ch1 Hat1 Hb1.
  change (wp (st' ← cmode_op (E := E) (ModeServ0 := modeserv) s_ChanServ c (mkMState false 1 [nk]); mret tt)
    (fun _ n2 => exists ch', on_chan c ch' n n2 /\ book ch' (take_op n nk ch) /\ heap_ok (graph_of n2)) n1).
  destruct (book_lists _ _ Hb1) as (_ & _ & Ho1 & _).
  unfold cmode_op. apply wp_bind. simpl. apply wp_bind, wp_ret, wp_bind. eapply at_load; [exact Hat1|]. apply wp_bind.
  rewrite Ho1. eapply wp_intro; [eapply find_listed; [exact Hown|exact Hat1|auto]|]. apply wp_bind.
  assert (Hdone : forall n2 ch2, at_chan c ch2 [] n n2 -> book ch2 (take_op n nk ch) ->
    exists ch', on_chan c ch' n n2 /\ book ch' (take_op n nk ch) /\ heap_ok (graph_of n2)).
  { intros n2 ch2 Hat2 Hb2. eapply letter_done; [exact Hown|by eapply on_chan_at|exact Hb2|by unfold take_op; destruct (_ =? _)..|].
    intros p [Hp%take_op_members|Hp]; eapply own_members; try exact Hown; [auto|]. unfold take_op in Hp. destruct (_ =? _) in Hp; auto. }
  unfold take_op in *. destruct (listed n (chanops ch) nk =? NULL); simpl.
  - apply wp_ret, wp_ret. by eapply Hdone.
  - eapply at_upd; [exact Hat1|]. intros n2 Hat2. apply wp_ret, wp_ret. eapply Hdone; [exact Hat2|].
    refine (book_apart (fun a => a{{chanops ::= unlink (listed n (chanops ch) nk)}}) _ _ _ Hb1). by split_and!.
Qed.

Lemma own_take_voice c ch n nk : at_own c ch n ->
  wp (do_cmode (ModeServ0 := modeserv) s_ChanServ 3 chan "-v" [nk]) (fun _ n' => exists ch', on_chan c ch' n n' /\
    settles (lock n ch) (take_voice n nk ch) ch' /\ at_own c ch' n') n.
Proof.
  intros Hown. apply own_do_cmode; [done|by unfold take_voice; destruct (_ =? _)..|]. intros n1 ch1 Hat1 Hb1.
  change (wp (st' ← cmode_voice (E := E) c (mkMState false 1 [nk]); mret tt)
    (fun _ n2 => exists ch', on_chan c ch' n n2 /\ book ch' (take_voice n nk ch) /\ heap_ok (graph_of n2)) n1).
  destruct (book_lists _ _ Hb1) as (_ & _ & _ & Hv1).
  unfold cmode_voice. apply wp_bind. simpl. apply wp_bind, wp_ret, wp_bind. eapply at_load; [exact Hat1|]. apply wp_bind.
  rewrite Hv1. eapply wp_intro; [eapply find_listed; [exact Hown|exact Hat1|auto]|]. apply wp_bind.
  assert (Hdone : forall n2 ch2, at_chan c ch2 [] n n2 -> book ch2 (take_voice n nk ch) ->
    exists ch', on_chan c ch' n n2 /\ book ch' (take_voice n nk ch) /\ heap_ok (graph_of n2)).
  { intros n2 ch2 Hat2 Hb2. eapply letter_done; [exact Hown|by eapply on_chan_at|exact Hb2|by unfold take_voice; destruct (_ =? _)..|].
    intros p [Hp|Hp%take_voice_members]; eapply own_members; try exact Hown; [|auto]. unfold take_voice in Hp. destruct (_ =? _) in Hp; auto. }
  unfold take_voice in *. destruct (listed n (voices ch) nk =? NULL); simpl.
  - apply wp_ret, wp_ret. by eapply Hdone.
  - eapply at_upd; [exact Hat1|]. intros n2 Hat2. apply wp_ret, wp_ret. eapply Hdone; [exact Hat2|].
    refine (book_apart (fun a => a{{voices ::= unlink (listed n (voices ch) nk)}}) _ _ _ Hb1). by split_and!.
Qed.

(** While only hidden fields of the channel have changed. *)
Lemma book_at c ch n n1 ch1 : at_own c ch n -> at_chan c ch1 [] n n1 -> book ch1 ch -> graph_of n1 = graph_of n.
Proof. intros [_ Hc _] Hat Hb. by eapply at_graph; [exact Hc|by apply book_view|exact Hat]. Qed.

Lemma finduser_cases n nk : heap_ok (graph_of n) ->
  g_finduser (graph_of n) nk = NULL /\ users_heap n !! NULL = None \/
  g_finduser (graph_of n) nk <> NULL /\ is_Some (users_heap n !! g_finduser (graph_of n) nk).
Proof.
  intros Hg. destruct (Z.eqb_spec (g_finduser (graph_of n) nk) NULL) as [E0|Hne].
  - left. split; [done|]. destruct (users_heap n !! NULL) as [us|] eqn:Hu; [|done]. by apply (user_addr _ _ _ Hg) in Hu.
  - right. split; [done|]. by apply is_Some_graph_user, g_finduser_some.
Qed.

Lemma own_give_voice c ch n nk : at_own c ch n ->
  wp (do_cmode (ModeServ0 := modeserv) s_ChanServ 3 chan "+v" [nk]) (fun _ n' => exists ch', on_chan c ch' n n' /\
    settles (lock n ch) (give_voice n nk ch) ch' /\ at_own c ch' n') n.
Proof.
  intros Hown. apply own_do_cmode; [done|by unfold give_voice; destruct (_ || _)..|]. intros n1 ch1 Hat1 Hb1.
  change (wp (st' ← cmode_voice (E := E) c (mkMState true 1 [nk]); mret tt)
    (fun _ n2 => exists ch', on_chan c ch' n n2 /\ book ch' (give_voice n nk ch) /\ heap_ok (graph_of n2)) n1).
  destruct (book_lists _ _ Hb1) as (_ & _ & _ & Hv1). pose proof (book_at _ _ _ _ _ Hown Hat1 Hb1) as Hgr.
  unfold cmode_voice. apply wp_bind. simpl. apply wp_bind, wp_ret, wp_bind. eapply at_load; [exact Hat1|]. apply wp_bind.
  rewrite Hv1. eapply wp_intro; [eapply find_listed; [exact Hown|exact Hat1|auto]|]. apply wp_bind.
  pose proof (finduser_cases n nk (ow_heap _ _ _ Hown)) as Hcase.
  assert (Hdone : forall n2 ch2, at_chan c ch2 [] n n2 -> book ch2 (give_voice n nk ch) ->
    exists ch', on_chan c ch' n n2 /\ book ch' (give_voice n nk ch) /\ heap_ok (graph_of n2)).
  { intros n2 ch2 Hat2 Hb2. eapply letter_done; [exact Hown|by eapply on_chan_at|exact Hb2|by unfold give_voice; destruct (_ || _)..|].
    unfold give_voice. intros p Hp. destruct (_ || _) eqn:E0 in Hp; simpl in Hp.
    - eapply own_members; [exact Hown|auto].
    - apply orb_false_iff in E0 as [_ E0%Z.eqb_neq]. rewrite elem_of_cons in Hp. destruct Hp as [Hp|[->|Hp]];
        [eapply own_members; [exact Hown|auto]|naive_solver|eapply own_members; [exact Hown|auto]]. }
  unfold give_voice in *. destruct (negb (listed n (voices ch) nk =? NULL)); simpl in *.
  - apply wp_ret, wp_ret. by eapply Hdone.
  - apply wp_bind. eapply wp_intro; [apply finduser_det; rewrite Hgr; apply Hown|]. rewrite Hgr.
    destruct (g_finduser (graph_of n) nk =? NULL); simpl; [by apply wp_ret, wp_ret; eapply Hdone|].
    eapply at_upd; [exact Hat1|]. intros n2 Hat2. apply wp_ret, wp_ret. eapply Hdone; [exact Hat2|].
    refine (book_apart (fun a => a{{voices ::= cons (g_finduser (graph_of n) nk)}}) _ _ _ Hb1). by split_and!.
Qed.

Lemma on_chan_upd c ch n0 n f (Q : unit -> Net E -> Prop) :
  on_chan c ch n0 n -> (forall n', on_chan c (f ch) n0 n' -> Q tt n') -> wp (upd_chan c f) Q n.
Proof.
  intros Ho HQ. eapply wp_upd_chan; [by eapply on_chan_lookup|]. apply HQ. destruct Ho. split; try done.
  simpl. by rewrite oc_chans0, insert_insert_eq.
Qed.

(** [check_valid_op] answers by what has not changed. *)
Lemma valid_op_same n n1 pu nm b : users_heap n1 = users_heap n -> graph_of n1 = graph_of n -> now n1 = now n ->
  db (ext n1) = db (ext n) -> valid_op n1 pu nm b = valid_op n pu nm b.
Proof. intros Hu Hg Ht Hd. unfold valid_op, privileged, oper_nick. by rewrite Hu, Hg, Ht, Hd. Qed.

Lemma own_give_op c ch n nk : at_own c ch n ->
  wp (do_cmode (ModeServ0 := modeserv) s_ChanServ 3 chan "+o" [nk]) (fun _ n' => exists ch', on_chan c ch' n n' /\
    settles (lock n ch) (give_op n nk ch) ch' /\ at_own c ch' n') n.
Proof.
  intros Hown. assert (Hsame : name (give_op n nk ch) = name ch /\ users (give_op n nk ch) = users ch /\ channel_id (give_op n nk ch) = channel_id ch).
  { unfold give_op. repeat case_match; done. }
  destruct Hsame as (Hnm & Hus & Hid). apply own_do_cmode; [done..|]. intros n1 ch1 Hat1 Hb1.
  change (wp (st' ← cmode_op (E := E) (ModeServ0 := modeserv) s_ChanServ c (mkMState true 1 [nk]); mret tt)
    (fun _ n2 => exists ch', on_chan c ch' n n2 /\ book ch' (give_op n nk ch) /\ heap_ok (graph_of n2)) n1).
  destruct (book_lists _ _ Hb1) as (Hn1 & _ & Ho1 & _). pose proof (book_at _ _ _ _ _ Hown Hat1 Hb1) as Hgr.
  unfold cmode_op. apply wp_bind. simpl. apply wp_bind, wp_ret, wp_bind. eapply at_load; [exact Hat1|]. apply wp_bind.
  rewrite Ho1. eapply wp_intro; [eapply find_listed; [exact Hown|exact Hat1|auto]|]. apply wp_bind.
  assert (Hdone : forall n2 ch2, on_chan c ch2 n n2 -> book ch2 (give_op n nk ch) ->
    exists ch', on_chan c ch' n n2 /\ book ch' (give_op n nk ch) /\ heap_ok (graph_of n2)).
  { intros n2 ch2 Hat2 Hb2. eapply letter_done; [exact Hown|exact Hat2|exact Hb2|done|done|].
    unfold give_op. intros p Hp. destruct (negb _); [eapply own_members; [exact Hown|auto]|].
    destruct (users_heap n !! g_finduser (graph_of n) nk) eqn:Ep; [|eapply own_members; [exact Hown|auto]].
    destruct (valid_op _ _ _ _); [|eapply own_members; [exact Hown|auto]]. simpl in Hp. rewrite elem_of_cons in Hp.
    destruct Hp as [[->|Hp]|Hp]; [by eexists|eapply own_members; [exact Hown|auto]..]. }
  clear Hnm Hus Hid. unfold give_op in *. destruct (negb (listed n (chanops ch) nk =? NULL)); simpl in *.
  - apply wp_ret, wp_ret. eapply Hdone; [by eapply on_chan_at|exact Hb1].
  - apply wp_bind. eapply wp_intro; [apply finduser_det; rewrite Hgr; apply Hown|]. rewrite Hgr.
    destruct (finduser_cases n nk (ow_heap _ _ _ Hown)) as [[E0 Hno]|[Hne [pu Hpu]]].
    + rewrite E0, Hno in *. apply wp_ret, wp_ret. eapply Hdone; [by eapply on_chan_at|exact Hb1].
    + rewrite (proj2 (Z.eqb_neq _ _)) by done. rewrite Hpu in Hdone |- *. rewrite Hn1. apply wp_bind.
      eapply wp_mono; [apply (check_valid_op_run n1 (g_finduser (graph_of n) nk) pu);
        [rewrite Hgr; apply Hown|by rewrite (at_users _ _ _ _ _ Hat1)]|].
      intros b n2 [-> Hs]. 
      assert (Hvo : valid_op n1 pu (name ch) (has_char s_ChanServ ".") = valid_op n pu (name ch) (has_char s_ChanServ ".")).
      { apply valid_op_same; [apply Hat1|exact Hgr|apply Hat1|by rewrite (at_ext _ _ _ _ _ Hat1)]. }
      rewrite Hvo in *. clear Hvo.
      assert (Ho2 : on_chan c ch1 n n2).
      { eapply on_chan_trans; [by eapply on_chan_at|]. destruct (valid_op n pu (name ch) _); [|destruct Hs as (o & Hs & _)];
          (eapply on_chan_sent; [by eapply at_lookup|exact Hs]). }
      destruct (valid_op n pu (name ch) _); simpl.
      * eapply on_chan_upd; [exact Ho2|]. intros n3 Ho3. apply wp_ret, wp_ret. eapply Hdone; [exact Ho3|].
        refine (book_apart (fun a => a{{chanops ::= cons (g_finduser (graph_of n) nk)}}) _ _ _ Hb1). by split_and!.
      * apply wp_ret, wp_ret. eapply Hdone; [exact Ho2|exact Hb1].
Qed.
End OneMode.

(** ** OP, DEOP, VOICE and DEVOICE *)
Section StatusCmds.
Context `{Conf} {E : Type} `{!ChanDB E} `{!NickServ E} `{!NickView E}.
Implicit Types (n : Net E) (d : DB) (us : User) (ch : Channel).

Inductive StatusCmd := Op | Deop | Voice | Devoice.

Definition run_status (cmd : StatusCmd) : ptr -> string -> M (Net E) unit :=
  match cmd with Op => do_op | Deop => do_deop | Voice => do_voice | Devoice => do_devoice end.
Definition mode_of (cmd : StatusCmd) : string := match cmd with Op => "+o" | Deop => "-o" | Voice => "+v" | Devoice => "-v" end.

(** Operators may set operators and others' voices; OP takes a nick that is known. *)
Definition may_set d us (cmd : StatusCmd) (i : Z) (nk : string) : bool :=
  match cmd with
  | Op => recognized d us && permits d us i CA_OPDEOP
  | Deop => permits d us i CA_OPDEOP
  | Voice | Devoice => permits d us i (required_access us nk)
  end.

Definition with_status (cmd : StatusCmd) n (nk : string) ch : Channel :=
  match cmd with Op => give_op n nk ch | Deop => take_op n nk ch | Voice => give_voice n nk ch | Devoice => take_voice n nk ch end.

(** The user named is online and on a channel of that name. *)
Definition present n (chan nk : string) : bool :=
  match users_heap n !! g_finduser (graph_of n) nk with
  | Some us => existsb (fun c => match chans_heap n !! c with Some ch => stricmp chan (name ch) =? 0 | None => false end) (chans us)
  | None => false
  end.

(** The channel, what it is like, and the nick, where the command goes through. *)
Definition status_goal (cmd : StatusCmd) n us (args : string) : option (string * ptr * Channel * string) :=
  let '(chan, rest) := strtok args " " in
  let nk := default (nick us) (fst (strtok rest " ")) in
  chan ← chan;
  match command_channel n chan with
  | Some (c, ch, _) => if may_set (db (ext n)) us cmd (channel_id ch) nk && present n chan nk then Some (chan, c, ch, nk) else None
  | None => None
  end.

Lemma on_list_at cmp chan l n : (forall c, c ∈ l -> is_Some (chans_heap n !! c)) -> (forall s, cmp chan s = stricmp chan s) ->
  on_list cmp chan l n =
    Some (existsb (fun c => match chans_heap n !! c with Some ch => stricmp chan (name ch) =? 0 | None => false end) l, n).
Proof.
  intros Hl Hcmp. induction l as [|c l IH]; [done|]. destruct (Hl c ltac:(constructor)) as [ch Hc].
  simpl. unfold mbind, M_bind, load_chan. rewrite Hc, Hcmp. destruct (stricmp chan (name ch) =? 0); [done|].
  apply IH. intros q Hq. apply Hl. by constructor.
Qed.

Lemma with_target_spec cmp n n1 u us chan nk ci m (Q : unit -> Net E -> Prop) : users_heap n !! u = Some us -> heap_ok (graph_of n) ->
  sent [] n n1 -> (forall s, cmp chan s = stricmp chan s) ->
  (present n chan nk = false -> forall n', told us n n' -> Q tt n') -> (present n chan nk = true -> wp m Q n1) ->
  wp (with_target cmp u chan nk ci m) Q n1.
Proof.
  intros Hu Hg Hs Hcmp Hno Hyes. pose proof (sent_graph _ _ _ Hs) as Hgr. pose proof (sent_users _ _ _ Hs) as Hus.
  unfold with_target, present in *. apply wp_bind. eapply wp_intro; [apply finduser_det; by rewrite Hgr|]. rewrite Hgr.
  destruct (finduser_cases n nk Hg) as [[E0 Hnull]|[Hne [pu Hp]]].
  - rewrite E0, Hnull in *. by eapply wp_cmd_told; [exact Hu|exact Hs|apply Hno].
  - rewrite (proj2 (Z.eqb_neq _ _)) by done. rewrite Hp in Hno, Hyes. apply wp_bind. eapply wp_load_user; [by rewrite Hus|].
    apply wp_bind. eapply wp_intro; [apply (on_list_at cmp chan (chans pu) n1); [|exact Hcmp]|].
    { intros c Hc. apply is_Some_graph_chan. rewrite Hgr. eapply (ho_chans _ Hg (g_finduser (graph_of n) nk) (user_view pu));
        [apply graph_user; eauto|exact Hc]. }
    rewrite (sent_chans _ _ _ Hs). destruct (existsb _ _); [by apply Hyes|]. by eapply wp_cmd_told; [exact Hu|exact Hs|apply Hno].
Qed.

Lemma sent_own c ch n o n1 chan : at_own chan c ch n -> sent o n n1 -> at_own chan c ch n1.
Proof. intros [Hg Hc Hf] Hs. split; rewrite ?(sent_graph _ _ _ Hs), ?(sent_chans _ _ _ Hs); done. Qed.

Lemma command_channel_own n chan c ch ci : heap_ok (graph_of n) -> command_channel n chan = Some (c, ch, ci) -> at_own chan c ch n.
Proof.
  intros Hg Hcc. unfold command_channel in Hcc.
  destruct (chans_heap n !! g_findchan (graph_of n) chan) as [ch'|] eqn:E1; [|done]. simpl in Hcc.
  destruct (if channel_id ch' =? 0 then None else _) as [ci'|]; [|done]. simpl in Hcc. destruct (has _ _); [done|]. by simplify_eq.
Qed.

Lemma with_status_sent cmd n o n1 nk ch : sent o n n1 -> with_status cmd n1 nk ch = with_status cmd n nk ch.
Proof.
  intros Hs. pose proof (sent_users _ _ _ Hs) as Hu. pose proof (sent_graph _ _ _ Hs) as Hg.
  assert (Hv : forall pu nm b, valid_op n1 pu nm b = valid_op n pu nm b).
  { intros. apply valid_op_same; [done..|by apply (sent_now _ _ _ Hs)|by apply (sent_db _ _ _ Hs)]. }
  destruct cmd; simpl; unfold give_op, take_op, give_voice, take_voice, listed; rewrite ?Hu, ?Hg; try done.
  repeat case_match; rewrite ?Hv in *; congruence.
Qed.

(** What a mode command sets, it sets for the network and for Services. *)
Definition done_by (cmd : StatusCmd) n (chan : string) (c : ptr) ch (nk : string) n' : Prop :=
  exists ch', on_chan c ch' n n' /\ settles (lock_of (db (ext n)) (channel_id ch)) (with_status cmd n nk ch) ch' /\
    Cmd (Some s_ChanServ) ("MODE " +:+ chan +:+ " " +:+ mode_of cmd +:+ " " +:+ nk) ∈ out n'.

Lemma set_mode_spec cmd n o n1 chan c ch nk (Q : unit -> Net E -> Prop) : no_nul chan = true -> at_own chan c ch n -> sent o n n1 ->
  (forall n', done_by cmd n chan c ch nk n' -> Q tt n') -> wp (set_mode s_ChanServ " " chan (mode_of cmd) nk) Q n1.
Proof.
  intros Hnul Hown Hs HQ. unfold set_mode, send_cmd, emit. apply wp_bind, wp_modify.
  set (m := Cmd (Some s_ChanServ) _). set (n2 := n1{{out ::= cons m}}). change (wp (do_cmode (ModeServ0 := modeserv) s_ChanServ 3 chan (mode_of cmd) [nk]) Q n2).
  assert (H2 : sent (m :: o) n n2) by (eapply (sent_trans o [m]); [exact Hs|by apply sent_msg]).
  assert (Hin : m ∈ out n2) by (simpl; constructor).
  assert (Hdo : wp (do_cmode (ModeServ0 := modeserv) s_ChanServ 3 chan (mode_of cmd) [nk]) (fun _ n' => exists ch', on_chan c ch' n2 n' /\
    settles (lock_of (db (ext n2)) (channel_id ch)) (with_status cmd n2 nk ch) ch' /\ at_own chan c ch' n') n2).
  { pose proof (sent_own _ _ _ _ _ _ Hown H2) as Hown2.
    destruct cmd; [by apply own_give_op|by apply own_take_op|by apply own_give_voice|by apply own_take_voice]. }
  eapply wp_mono; [exact Hdo|]. intros [] n' (ch' & Ho & Hset & _). apply HQ. exists ch'.
  rewrite (with_status_sent cmd _ _ _ nk ch H2), (sent_db _ _ _ H2) in Hset. split; [|split; [exact Hset|]].
  - eapply on_chan_trans; [eapply on_chan_sent; [apply Hown|exact H2]|exact Ho].
  - destruct (oc_out _ _ _ _ Ho) as [o2 ->]. apply elem_of_app. by right.
Qed.

Lemma no_nul_drop k s : no_nul s = true -> no_nul (str_drop k s) = true.
Proof.
  revert s. induction k as [|k IH]; intros [|a s]; try done. simpl. intros [_ Hs]%andb_true_iff. by apply IH.
Qed.

Lemma strtok_nul s sep : no_nul s = true -> (forall t, fst (strtok s sep) = Some t -> no_nul t = true) /\ no_nul (snd (strtok s sep)) = true.
Proof.
  intros Hs. unfold strtok. pose proof (no_nul_drop (strspn s sep) s Hs) as Hd. destruct (str_drop (strspn s sep) s) as [|a t]; [done|].
  cbn [fst snd]. split; [|by apply no_nul_drop]. intros t' [= <-]. by apply no_nul_take.
Qed.

Lemma done_by_sent cmd n chan c ch nk o n1 n2 : done_by cmd n chan c ch nk n1 -> sent o n1 n2 -> done_by cmd n chan c ch nk n2.
Proof.
  intros (ch' & Ho & Hset & Hin) Hs. exists ch'. split; [|split; [exact Hset|]].
  - eapply on_chan_trans; [exact Ho|]. eapply on_chan_sent; [by eapply on_chan_lookup|exact Hs].
  - destruct Hs as (e & -> & _). simpl. apply elem_of_app. by right.
Qed.

Lemma wp_announce o n n1 (m : M (Net E) unit) (Q : unit -> Net E -> Prop) : sent o n n1 ->
  (m = mret tt \/ exists x, m = emit x) -> (forall o' n', sent o' n n' -> Q tt n') -> wp m Q n1.
Proof.
  intros Hs Hm HQ. destruct Hm as [->|[x ->]]; [by eapply HQ|]. unfold emit. apply wp_modify. eapply HQ.
  eapply (sent_trans o [x]); [exact Hs|by apply sent_msg].
Qed.

Lemma verbose_quiet ci chan text : verbose (E := E) ci chan text = mret tt \/ exists x, verbose (E := E) ci chan text = emit x.
Proof. unfold verbose. destruct (has _ _); [right; by eexists|by left]. Qed.

(** The body of the four: the ability, then the target. *)
Lemma target_body cmd cmp n n1 u us c ch ci chan nk what m : users_heap n !! u = Some us -> heap_ok (graph_of n) -> sent [] n n1 ->
  (forall s, cmp chan s = stricmp chan s) ->
  (forall n2, sent [] n n2 -> wp m (fun _ n' => done_by cmd n chan c ch nk n') n2) ->
  wp (permitted u (channel_id ch) what (with_target cmp u chan nk ci m)) (fun _ n' =>
    if permits (db (ext n)) us (channel_id ch) what && present n chan nk then done_by cmd n chan c ch nk n' else told us n n') n1.
Proof.
  intros Hu Hg Hs Hcmp Hm. eapply permitted_spec; [exact Hu|exact Hs|by intros -> n' Ht|]. intros -> n2 H2. simpl.
  eapply with_target_spec; [exact Hu|exact Hg|exact H2|exact Hcmp|by intros -> n' Ht|]. intros ->. by apply Hm.
Qed.

(** C11: OP, DEOP, VOICE and DEVOICE, for every argument: unless the channel is
    in use, registered and not forbidden, the user has the ability (that to set
    operators; for one's own voice the lower one) and the one named is online and
    there, all that happens is a notice.  Otherwise the network gets the mode, and
    on that channel alone exactly what it says is done: the operator added, unless
    [check_valid_op] refuses him, or taken off the list, the same with voices; the
    mode lock may come into force on the way. *)
Theorem status_commands_correct cmd n u us args (Hu : users_heap n !! u = Some us) (Hg : heap_ok (graph_of n))
  (Hnul : no_nul args = true) :
  wp (run_status cmd u args) (fun _ n' =>
    match status_goal cmd n us args with
    | Some (chan, c, ch, nk) => done_by cmd n chan c ch nk n'
    | None => told us n n'
    end) n.
Proof.
  unfold status_goal. destruct (strtok_nul args " " Hnul) as [Hchan _].
  assert (Hgo : forall syntax k,
    (forall chan nk c ch ci n1, no_nul chan = true -> command_channel n chan = Some (c, ch, ci) -> sent [] n n1 ->
       wp (k us chan nk (channel_id ch) ci) (fun _ n' =>
         if may_set (db (ext n)) us cmd (channel_id ch) nk && present n chan nk then done_by cmd n chan c ch nk n' else told us n n') n1) ->
    wp (status_command syntax k u args) (fun _ n' =>
      match status_goal cmd n us args with Some (chan, c, ch, nk) => done_by cmd n chan c ch nk n' | None => told us n n' end) n).
  { intros syntax k Hk. unfold status_command, status_goal. destruct (strtok args " ") as [chan rest]. apply wp_bind.
    eapply wp_load_user; [exact Hu|]. cbv zeta. set (nk := default (nick us) _).
    destruct chan as [chan|]; simpl; [|eapply wp_cmd_told; [exact Hu|by apply quiet_sent, quiet_refl|done]].
    eapply on_channel_spec; [exact Hu|exact Hg|by intros -> n' Ht|]. intros c ch ci n1 Hcc H1. rewrite Hcc.
    eapply wp_mono; [by apply (Hk chan nk c); [apply Hchan|..]|]. intros [] n' Hn'. by destruct (_ && _). }
  destruct cmd; apply Hgo; clear Hgo; intros chan nk c ch ci n1 Hcn Hcc H1;
    pose proof (command_channel_own _ _ _ _ _ Hg Hcc) as Hown; cbn [may_set].
  - apply wp_bind. eapply wp_cmd_asks; [exact H1|apply (query_nick_has n1 u us); by rewrite (sent_users _ _ _ H1)|]. intros n2 H2.
    rewrite (sent_db _ _ _ H1). fold (recognized (db (ext n)) us). destruct (recognized (db (ext n)) us); simpl.
    + eapply target_body; [exact Hu|exact Hg|exact H2|by intros s; symmetry; apply stricmp_irc|]. intros n3 H3. apply wp_bind.
      eapply wp_announce; [exact H3|apply verbose_quiet|]. intros o n4 H4. by apply (set_mode_spec Op n o n4 chan c ch nk).
    + eapply wp_cmd_told; [exact Hu|exact H2|done].
  - eapply target_body; [exact Hu|exact Hg|exact H1|by intros s; symmetry; apply stricmp_irc|]. intros n3 H3. apply wp_bind.
    eapply wp_announce; [exact H3|apply verbose_quiet|]. intros o n4 H4. by apply (set_mode_spec Deop n o n4 chan c ch nk).
  - eapply target_body; [exact Hu|exact Hg|exact H1|done|]. intros n3 H3. apply wp_bind.
    apply (set_mode_spec Voice n [] n3 chan c ch nk); [done..|]. intros n4 H4.
    eapply wp_announce; [apply quiet_sent, quiet_refl|apply verbose_quiet|]. intros o n5 H5. by eapply done_by_sent.
  - eapply target_body; [exact Hu|exact Hg|exact H1|done|]. intros n3 H3. apply wp_bind.
    apply (set_mode_spec Devoice n [] n3 chan c ch nk); [done..|]. intros n4 H4.
    eapply wp_announce; [apply quiet_sent, quiet_refl|apply verbose_quiet|]. intros o n5 H5. by eapply done_by_sent.
Qed.
End StatusCmds.

(** ** CLEAR and UNBAN *)
Section Clearing.
Context `{Conf} {E : Type} `{!ChanDB E} `{!NickServ E} `{!NickView E}.
Context (chan : string) (Hnul : no_nul chan = true).
Implicit Types (n : Net E) (us : User) (ch : Channel).

(** On channel [c] alone [ch] has become [ch2], up to its lock. *)
Definition becomes (c : ptr) ch ch2 n n' : Prop :=
  exists ch', on_chan c ch' n n' /\ settles (lock_of (db (ext n)) (channel_id ch)) ch2 ch' /\ at_own chan c ch' n'.

Lemma becomes_refl c ch n : at_own chan c ch n -> becomes c ch ch n n.
Proof.
  intros Hown. exists ch. split; [eapply on_chan_at, at_init, Hown|]. by split; [left|].
Qed.

(** A change apart from the modes, after another. *)
Lemma becomes_then c ch ch2 f n n1 n2 : apart f -> channel_id ch2 = channel_id ch -> becomes c ch ch2 n n1 ->
  (forall ch1, at_own chan c ch1 n1 -> settles (lock_of (db (ext n)) (channel_id ch)) ch2 ch1 -> becomes c ch1 (f ch1) n1 n2) ->
  becomes c ch (f ch2) n n2.
Proof.
  intros Hf Hid (ch1 & Ho1 & Hs1 & Hown1) Hthen. destruct (Hthen ch1 Hown1 Hs1) as (ch3 & Ho3 & Hs3 & Hown3).
  exists ch3. split; [by eapply on_chan_trans|]. split; [|done].
  destruct (settles_fields _ _ _ Hs1) as (_ & _ & Hid1 & _). rewrite (oc_db _ _ _ _ Ho1), Hid1, Hid in Hs3.
  eapply settles_trans; [by apply settles_apart|exact Hs3].
Qed.

Lemma becomes_sent c ch ch2 n n1 o n2 : becomes c ch ch2 n n1 -> sent o n1 n2 -> becomes c ch ch2 n n2.
Proof.
  intros (ch1 & Ho1 & Hs1 & Hown1) Hs. exists ch1.
  split; [eapply on_chan_trans; [exact Ho1|eapply on_chan_sent; [apply Hown1|exact Hs]]|]. split; [done|by eapply sent_own].
Qed.

Lemma becomes_from c ch ch2 n o n1 n2 : at_own chan c ch n -> sent o n n1 -> becomes c ch ch2 n1 n2 -> becomes c ch ch2 n n2.
Proof.
  intros Hown Hs (ch1 & Ho1 & Hs1 & Hown1). exists ch1. rewrite (sent_db _ _ _ Hs) in Hs1.
  split; [eapply on_chan_trans; [eapply on_chan_sent; [apply Hown|exact Hs]|exact Ho1]|]. by split.
Qed.

Lemma set_mode_own source sep md a c ch ch2 n : at_own chan c ch n ->
  (forall n1, at_own chan c ch n1 -> users_heap n1 = users_heap n ->
     wp (do_cmode (ModeServ0 := modeserv) s_ChanServ 3 chan md [a]) (fun _ n' => becomes c ch ch2 n1 n') n1) ->
  wp (set_mode source sep chan md a) (fun _ n' => becomes c ch ch2 n n') n.
Proof.
  intros Hown Hdo. unfold set_mode, send_cmd, emit. apply wp_bind, wp_modify. set (m := Cmd (Some source) _).
  change (wp (do_cmode (ModeServ0 := modeserv) s_ChanServ 3 chan md [a]) (fun _ n' => becomes c ch ch2 n n') (n{{out ::= cons m}})).
  assert (Hs : sent [m] n (n{{out ::= cons m}})) by by apply sent_msg.
  eapply wp_mono; [apply Hdo; [by eapply sent_own|done]|]. intros [] n' Hb. by eapply becomes_from.
Qed.

Lemma drop_ban_apart m : apart (drop_ban m).
Proof. by split_and!. Qed.

Lemma set_mode_ban source sep m c ch n : at_own chan c ch n ->
  wp (set_mode source sep chan "-b" m) (fun _ n' => becomes c ch (drop_ban m ch) n n') n.
Proof. intros Hown. apply set_mode_own; [done|]. intros n1 Hown1 _. by apply own_del_ban. Qed.

(** *** CLEAR bans *)
Lemma clear_bans_loop source sep c ch n bans n1 : becomes c ch (ch{{newbans := bans}}) n n1 ->
  wp (for_each bans (fun b => set_mode source sep chan "-b" (mask b))) (fun _ n' => becomes c ch (ch{{newbans := [] }}) n n') n1.
Proof.
  revert n1. induction bans as [|b bans IH]; intros n1 Hb; [by apply wp_ret|]. simpl. apply wp_bind.
  destruct Hb as (ch1 & Ho1 & Hs1 & Hown1). eapply wp_mono; [by apply (set_mode_ban source sep (mask b) c ch1 n1)|].
  intros [] n2 Hb2. apply IH.
  replace (ch{{newbans := bans}}) with (drop_ban (mask b) (ch{{newbans := b :: bans}})).
  - eapply (becomes_then c ch (ch{{newbans := b :: bans}})); [apply drop_ban_apart|done|by exists ch1|].
    intros ch1' Hown1' _. by rewrite (inj Some ch1' ch1) by (rewrite <- (ow_chan _ _ _ _ Hown1), <- (ow_chan _ _ _ _ Hown1'); done).
  - unfold drop_ban, set. simpl. by rewrite String.eqb_refl.
Qed.

(** *** CLEAR ops and voices *)
Lemma listed_head n p l us : users_heap n !! p = Some us -> listed n (p :: l) (nick us) = p.
Proof. intros Hu. unfold listed. simpl. rewrite Hu, stricmp_irc, irc_stricmp_refl. done. Qed.

Lemma clear_ops_loop c ch n l n1 : becomes c ch (ch{{chanops := l}}) n n1 ->
  wp (clear_status chan "-o" l) (fun _ n' => becomes c ch (ch{{chanops := [] }}) n n') n1.
Proof.
  revert n1. induction l as [|p l IH]; intros n1 Hb; [by apply wp_ret|]. unfold clear_status in *. simpl. apply wp_bind.
  destruct Hb as (ch1 & Ho1 & Hs1 & Hown1). destruct (settles_fields _ _ _ Hs1) as (Hv1 & _).
  assert (Hops : chanops ch1 = p :: l) by exact (f_equal w_ops Hv1).
  destruct (own_members _ _ _ _ p Hown1) as [us Hu]; [right; left; rewrite Hops; constructor|].
  apply wp_bind. eapply wp_load_user; [exact Hu|].
  assert (Htake : forall n, users_heap n = users_heap n1 -> take_op n (nick us) ch1 = ch1{{chanops ::= unlink p}}).
  { intros n2 Hn2. unfold take_op. rewrite Hops, listed_head by by rewrite Hn2.
    rewrite (proj2 (Z.eqb_neq _ _)); [done|]. eapply user_addr; [apply Hown1|exact Hu]. }
  eapply wp_mono.
  { apply (set_mode_own s_ChanServ " :" "-o" (nick us) c ch1 (ch1{{chanops ::= unlink p}}) n1 Hown1).
    intros n2 Hown2 Hus2. rewrite <- (Htake n2 Hus2). by apply own_take_op. }
  intros [] n2 Hb2. apply IH.
  replace (ch{{chanops := l}}) with ((ch{{chanops := p :: l}}){{chanops ::= unlink p}}) by (unfold set; simpl; by rewrite unlink_head).
  eapply (becomes_then c ch (ch{{chanops := p :: l}}) (fun a => a{{chanops ::= unlink p}})); [by split_and!|done|by exists ch1|].
  intros ch1' Hown1' _. by rewrite (inj Some ch1' ch1) by (rewrite <- (ow_chan _ _ _ _ Hown1), <- (ow_chan _ _ _ _ Hown1'); done).
Qed.

Lemma clear_voices_loop c ch n l n1 : becomes c ch (ch{{voices := l}}) n n1 ->
  wp (clear_status chan "-v" l) (fun _ n' => becomes c ch (ch{{voices := [] }}) n n') n1.
Proof.
  revert n1. induction l as [|p l IH]; intros n1 Hb; [by apply wp_ret|]. unfold clear_status in *. simpl. apply wp_bind.
  destruct Hb as (ch1 & Ho1 & Hs1 & Hown1). destruct (settles_fields _ _ _ Hs1) as (Hv1 & _).
  assert (Hops : voices ch1 = p :: l) by exact (f_equal w_voices Hv1).
  destruct (own_members _ _ _ _ p Hown1) as [us Hu]; [right; right; rewrite Hops; constructor|].
  apply wp_bind. eapply wp_load_user; [exact Hu|].
  assert (Htake : forall n, users_heap n = users_heap n1 -> take_voice n (nick us) ch1 = ch1{{voices ::= unlink p}}).
  { intros n2 Hn2. unfold take_voice. rewrite Hops, listed_head by by rewrite Hn2.
    rewrite (proj2 (Z.eqb_neq _ _)); [done|]. eapply user_addr; [apply Hown1|exact Hu]. }
  eapply wp_mono.
  { apply (set_mode_own s_ChanServ " :" "-v" (nick us) c ch1 (ch1{{voices ::= unlink p}}) n1 Hown1).
    intros n2 Hown2 Hus2. rewrite <- (Htake n2 Hus2). by apply own_take_voice. }
  intros [] n2 Hb2. apply IH.
  replace (ch{{voices := l}}) with ((ch{{voices := p :: l}}){{voices ::= unlink p}}) by (unfold set; simpl; by rewrite unlink_head).
  eapply (becomes_then c ch (ch{{voices := p :: l}}) (fun a => a{{voices ::= unlink p}})); [by split_and!|done|by exists ch1|].
  intros ch1' Hown1' _. by rewrite (inj Some ch1' ch1) by (rewrite <- (ow_chan _ _ _ _ Hown1), <- (ow_chan _ _ _ _ Hown1'); done).
Qed.

(** *** UNBAN *)
Definition matches us (b : Ban) : bool := bool_decide (match_usermask (mask b) us = Some true).

Lemma remove_first_past {A} (p : A -> bool) l x l' : (forall y, y ∈ l -> p y = false) -> p x = true ->
  remove_first p (l ++ x :: l') = l ++ l'.
Proof.
  intros Hl Hx. induction l as [|y l IH]; simpl; [by rewrite Hx|]. rewrite Hl by constructor.
  f_equal. apply IH. intros z Hz. apply Hl. by constructor.
Qed.

Lemma unban_loop_spec c ch n u us bans kept_bans n1 : users_heap n !! u = Some us ->
  Forall (fun b => match_usermask (mask b) us <> None) bans -> Forall (fun b => matches us b = false) kept_bans ->
  becomes c ch (ch{{newbans := kept_bans ++ bans}}) n n1 ->
  wp (unban_loop u chan bans) (fun _ n' => becomes c ch (ch{{newbans := kept_bans ++ List.filter (fun b => negb (matches us b)) bans}}) n n') n1.
Proof.
  intros Hu Hread. revert kept_bans n1. induction Hread as [|b bans Hb Hread IH]; intros kp n1 Hkp Hbec; simpl; [by apply wp_ret|].
  destruct Hbec as (ch1 & Ho1 & Hs1 & Hown1). apply wp_bind. eapply wp_load_user; [by rewrite (oc_users _ _ _ _ Ho1)|].
  destruct (match_usermask (mask b) us) as [hit|] eqn:Hm; [|done]. unfold matches at 1. rewrite Hm. apply wp_bind.
  destruct hit; simpl.
  - eapply wp_mono; [by apply (set_mode_ban ServerName " " (mask b) c ch1 n1)|]. intros [] n2 Hb2. apply IH; [done|].
    replace (ch{{newbans := kp ++ bans}}) with (drop_ban (mask b) (ch{{newbans := kp ++ b :: bans}})).
    + eapply (becomes_then c ch (ch{{newbans := kp ++ b :: bans}})); [apply drop_ban_apart|done|by exists ch1|].
      intros ch1' Hown1' _. by rewrite (inj Some ch1' ch1) by (rewrite <- (ow_chan _ _ _ _ Hown1), <- (ow_chan _ _ _ _ Hown1'); done).
    + unfold drop_ban, set. simpl. rewrite remove_first_past; [done| |apply String.eqb_refl].
      intros y Hy. rewrite Forall_forall in Hkp. specialize (Hkp y Hy). apply String.eqb_neq. intros Heq. unfold matches in Hkp.
      by rewrite Heq, Hm in Hkp.
  - apply wp_ret. replace (kp ++ b :: _) with ((kp ++ [b]) ++ List.filter (fun b => negb (matches us b)) bans) by by rewrite <- app_assoc.
    apply IH.
    + apply Forall_app. split; [done|]. constructor; [|constructor]. unfold matches. by rewrite Hm.
    + rewrite <- app_assoc. by exists ch1.
Qed.

(** *** CLEAR modes *)

(** Letters that take no argument, each switched off. *)
Fixpoint flags_off (s : string) (m : Z) : Z :=
  match s with
  | EmptyString => m
  | String a s' => flags_off s' (m .&~ default 0 (cmode_flag a))
  end.
Fixpoint all_flags (s : string) : bool :=
  match s with
  | EmptyString => true
  | String a s' => bool_decide (is_Some (cmode_flag a)) && negb (Ascii.eqb a "+" || Ascii.eqb a "-") && all_flags s'
  end.

Definition without_modes ch : Channel := ch{{cmode ::= flags_off "cimMnOpRst"; limit := 0; key := None}}.

Lemma loop_flags_off source c ch o n n1 s s' st (Q : unit -> Net E -> Prop) : all_flags s = true -> m_add st = false ->
  at_chan c ch o n n1 ->
  (forall n2, at_chan c (ch{{cmode ::= flags_off s}}) o n n2 -> wp (cmode_loop (ModeServ0 := modeserv) source c s' st) Q n2) ->
  wp (cmode_loop (ModeServ0 := modeserv) source c (s +:+ s') st) Q n1.
Proof.
  revert ch n1. induction s as [|a s IH]; intros ch n1 Hs Hst Hat HQ.
  - simpl. apply HQ. by destruct ch.
  - simpl in Hs. apply andb_true_iff in Hs as [[Hf Hsign]%andb_true_iff Hs]. apply bool_decide_eq_true in Hf as [f Hf].
    apply negb_true_iff, orb_false_iff in Hsign as [Hp Hm]. simpl. unfold cmode_step. rewrite Hp, Hm, Hf. unfold set_flag. rewrite Hst.
    apply wp_bind, wp_bind. eapply at_upd; [exact Hat|]. intros n2 Hat2. apply wp_ret. eapply IH; [exact Hs|exact Hst|exact Hat2|].
    intros n3 Hat3. apply HQ. unfold set in *. simpl in *. by rewrite Hf.
Qed.

Lemma own_without_modes c ch n k : at_own chan c ch n ->
  wp (do_cmode (ModeServ0 := modeserv) s_ChanServ 3 chan "-cimMnOpRstlk" [k]) (fun _ n' => becomes c ch (without_modes ch) n n') n.
Proof.
  intros Hown. refine (own_do_cmode chan Hnul c ch n _ [k] (without_modes ch) Hown eq_refl eq_refl _). intros n1 ch1 Hat1 Hb1.
  change (wp (cmode_loop (ModeServ0 := modeserv) s_ChanServ c ("cimMnOpRst" +:+ "lk") (mkMState false 1 [k])) (fun _ n2 => exists ch', on_chan c ch' n n2 /\
    book ch' (without_modes ch) /\ heap_ok (graph_of n2)) n1).
  eapply loop_flags_off; [by vm_compute|done|exact Hat1|]. intros n2 Hat2.
  change (wp (st ← (upd_chan c (fun ch => ch{{limit := 0}});; mret (mkMState false 1 [k]));
    st ← cmode_key (E := E) c st; mret tt) (fun _ n2 => exists ch', on_chan c ch' n n2 /\
    book ch' (without_modes ch) /\ heap_ok (graph_of n2)) n2).
  apply wp_bind, wp_bind. eapply at_upd; [exact Hat2|]. intros n3 Hat3. apply wp_ret, wp_bind. unfold cmode_key. simpl.
  apply wp_bind. eapply at_upd; [exact Hat3|]. intros n4 Hat4. apply wp_ret, wp_ret. eexists. split; [by eapply on_chan_at|].
  assert (Hb4 : book (without_modes ch1) (without_modes ch)).
  { pose proof (f_equal without_modes Hb1) as Hb. unfold book. etransitivity; [|etransitivity; [exact (f_equal core Hb)|]]; reflexivity. }
  split; [exact Hb4|]. rewrite (at_graph _ _ _ _ _ _ (ow_chan _ _ _ _ Hown) (book_view _ _ Hb4) Hat4). apply Hown.
Qed.

(** The lock is what remains, exactly. *)
Definition relocked c ch ch2 n n' : Prop :=
  exists ch', on_chan c ch' n n' /\ at_own chan c ch' n' /\
    book ch' (if bouncy_modes ch =? 0 then enforce (lock_of (db (ext n)) (channel_id ch)) ch2 else ch2).

Lemma clear_modes_spec c ch n : at_own chan c ch n ->
  wp (clear_modes c chan) (fun _ n' => relocked c ch (without_modes ch) n n') n.
Proof.
  intros Hown. unfold clear_modes. apply wp_bind. eapply wp_load_chan; [apply Hown|]. apply wp_bind.
  eapply wp_mono; [apply (set_mode_own s_ChanServ " :" "-cimMnOpRstlk" (default EmptyString (key ch)) c ch (without_modes ch) n Hown)|].
  { intros n1 Hown1 _. by apply own_without_modes. }
  intros [] n1 (ch1 & Ho1 & Hs1 & Hown1). destruct (settles_fields _ _ _ Hs1) as (Hv1 & _ & Hi1 & Hb1).
  pose proof Hown1 as [Hg1 Hc1 Hf1].
  eapply wp_mono; [by apply (own_check_modes c ch1 n1 chan)|]. intros [] n2 (ch2 & Ho2 & Hr2).
  rewrite Hb1, (oc_db _ _ _ _ Ho1), Hi1 in Hr2. change (bouncy_modes (without_modes ch)) with (bouncy_modes ch) in *.
  change (channel_id (without_modes ch)) with (channel_id ch) in *. set (lk := lock_of _ _) in *.
  assert (Hset : settles lk ch1 ch2) by (apply relock_settles; rewrite Hb1; exact Hr2).
  destruct (settles_fields _ _ _ Hset) as (Hv2 & _).
  exists ch2. split; [by eapply on_chan_trans|]. split.
  - eapply on_chan_own; [exact Hown1|exact Ho2|exact (f_equal w_name Hv2)|by eapply on_chan_heap].
  - destruct (bouncy_modes ch =? 0) eqn:Hb.
    + rewrite Hr2. fold lk. destruct Hs1 as [Hs1|[_ Hs1]]; [by apply book_enforce|]. rewrite <- (enforce_idem lk (without_modes ch)). by apply book_enforce.
    + subst ch2. destruct Hs1 as [Hs1|[Hz _]]; [done|]. apply Z.eqb_neq in Hb. by destruct Hb.
Qed.
End Clearing.

(** *** CLEAR users *)
Section ClearUsers.
Context `{Conf} {E : Type} `{!ChanDB E} `{!NickServ E} `{!NickServLaws E} `{!NickView E}.
Context (chan : string) (c : ptr).
Implicit Types (n : Net E) (g : graph) (us : User).

(** Nicks and the channel are known by their names, and no nick has a comma. *)
Record kickable (l : list ptr) g : Prop := {
  ki_nick : forall p v, p ∈ l -> g_users g !! p = Some v -> tokens (v_nick v) "," = [v_nick v] /\ g_finduser g (v_nick v) = p;
  ki_chan : forall c' w, g_chans g !! c' = Some w -> stricmp chan (w_name w) = 0 -> c' = c
}.

Definition all_leave (l : list ptr) g : graph := fold_left (fun g p => g_leave p c g) l g.

Lemma leave_users g p q : g_users (g_leave p c g) !! q = (fun v => if bool_decide (p = q) then v{{v_chans ::= unlink c}} else v) <$> g_users g !! q.
Proof.
  unfold g_leave. rewrite g_users_deluser. simpl. case_bool_decide as Hpq.
  - subst q. rewrite lookup_alter_eq. by destruct (g_users g !! p).
  - rewrite lookup_alter_ne by done. by destruct (g_users g !! q).
Qed.

Lemma leave_finduser g p nk : g_finduser (g_leave p c g) nk = g_finduser g nk.
Proof.
  apply g_finduser_nicks.
  - unfold g_leave, g_deluser. simpl. by repeat case_match.
  - intros q. rewrite leave_users. destruct (g_users g !! q); simpl; [|done]. by case_bool_decide.
Qed.

Lemma leave_chan g p l w : g_chans g !! c = Some w -> w_users w = p :: l ->
  g_chans (g_leave p c g) !! c = match l with [] => None | _ => Some (part_view p w) end.
Proof.
  intros Hw Hu. unfold g_leave, g_deluser. simpl. rewrite Hw, Hu, unlink_head. destruct l; simpl; [apply lookup_delete_eq|apply lookup_insert_eq].
Qed.

Lemma leave_chans_sub g p c' w : g_chans (g_leave p c g) !! c' = Some w -> exists w', g_chans g !! c' = Some w' /\ w_name w = w_name w'.
Proof.
  unfold g_leave, g_deluser. simpl. destruct (g_chans g !! c) as [w0|] eqn:E0; [|simpl; eauto]. simpl. destruct (unlink p (w_users w0)).
  - simpl. intros [_ Hw]%lookup_delete_Some. eauto.
  - simpl. destruct (decide (c' = c)) as [->|]; [rewrite lookup_insert_eq|rewrite lookup_insert_ne by done; eauto].
    intros [= <-]. exists w0. by rewrite E0.
Qed.

Lemma kickable_leave p l g : kickable (p :: l) g -> kickable l (g_leave p c g).
Proof.
  intros [Hn Hc]. split.
  - intros q v Hq. rewrite leave_users. destruct (g_users g !! q) as [v0|] eqn:E0; [|done]. simpl. intros [= <-].
    destruct (Hn q v0 ltac:(by constructor) E0) as [Ht Hf]. rewrite leave_finduser. by case_bool_decide.
  - intros c' w Hw Hs. apply leave_chans_sub in Hw as (w' & Hw & Hname). rewrite Hname in Hs. eauto.
Qed.

Lemma kick_spec n p us w : graph_ok (graph_of n) -> kickable [p] (graph_of n) -> users_heap n !! p = Some us ->
  g_chans (graph_of n) !! c = Some w -> stricmp chan (w_name w) = 0 -> p ∈ w_users w ->
  wp (do_kick (ChanServ0 := chanserv) chan (nick us)) (fun _ n' => graph_of n' = g_leave p c (graph_of n)) n.
Proof.
  intros Hg [Hn Hc] Hu Hw Hs Hp. assert (Hv : g_users (graph_of n) !! p = Some (user_view us)) by (apply graph_user; eauto).
  destruct (Hn p _ ltac:(constructor) Hv) as [Ht Hf]. simpl in Ht, Hf. unfold do_kick. rewrite Ht. simpl. apply wp_bind.
  unfold kick_one. apply wp_bind. eapply wp_intro; [apply finduser_det, Hg|]. rewrite Hf.
  rewrite (proj2 (Z.eqb_neq _ _)) by (eapply user_addr; [apply Hg|exact Hu]).
  eapply wp_mono; [by apply part_one_spec|]. intros [] n' Hpart. apply wp_ret.
  assert (Hin : c ∈ chans us).
  { apply cnt_pos. destruct Hg as (_ & Hm & _). pose proof (mo_count _ Hm p _ c w Hv Hw) as Hcnt. simpl in Hcnt.
    rewrite <- Hcnt. by apply cnt_pos. }
  destruct Hpart as [[_ Hno]|(c' & ch' & _ & Hc' & Hs' & ->)].
  - destruct (graph_chan n c w) as [Hgc _]. destruct (Hgc Hw) as (ch & Hch & Hv'). subst w. by destruct (Hno c ch Hin Hch).
  - rewrite (Hc c' (chan_view ch')); [done|apply graph_chan; eauto|exact Hs'].
Qed.

Lemma kick_off_spec buf n p w : graph_ok (graph_of n) -> kickable [p] (graph_of n) ->
  g_chans (graph_of n) !! c = Some w -> stricmp chan (w_name w) = 0 -> p ∈ w_users w ->
  wp (kick_off chan buf p) (fun _ n' => graph_of n' = g_leave p c (graph_of n) /\ graph_ok (graph_of n')) n.
Proof.
  intros Hg Hk Hw Hs Hp. assert (Hv : is_Some (users_heap n !! p)).
  { apply is_Some_graph_user, (ho_users _ (proj1 Hg) c w p Hw). by left. }
  destruct Hv as [us Hus]. unfold kick_off. apply wp_bind. eapply wp_load_user; [exact Hus|].
  apply wp_bind. unfold send_cmd, emit. apply wp_modify. set (m := Cmd _ _).
  eapply wp_mono; [apply (kick_spec (n{{out ::= cons m}}) p us w); [exact Hg|exact Hk|exact Hus|exact Hw|exact Hs|exact Hp]|].
  intros [] n1 Hn1. change (graph_of n1 = g_leave p c (graph_of n)) in Hn1. split; [done|]. rewrite Hn1.
  assert (Hgu : g_users (graph_of n) !! p = Some (user_view us)) by (apply graph_user; eauto).
  eapply graph_ok_leave; [exact Hg|exact Hgu|]. simpl. apply cnt_pos. destruct Hg as (_ & Hm & _).
  pose proof (mo_count _ Hm p _ c w Hgu Hw) as Hcnt. simpl in Hcnt. rewrite <- Hcnt. by apply cnt_pos.
Qed.

Lemma clear_users_loop buf p l n w : graph_ok (graph_of n) -> kickable (p :: l) (graph_of n) ->
  g_chans (graph_of n) !! c = Some w -> stricmp chan (w_name w) = 0 -> w_users w = p :: l ->
  wp (for_each (p :: l) (kick_off chan buf))
    (fun _ n' => graph_of n' = all_leave (p :: l) (graph_of n) /\ graph_ok (graph_of n') /\ g_chans (graph_of n') !! c = None) n.
Proof.
  revert p w n. induction l as [|q l IH]; intros p w n Hg Hk Hw Hs Hu; cbn [for_each]; apply wp_bind.
  - eapply wp_mono; [apply (kick_off_spec buf n p w); try done; rewrite Hu; constructor|].
    intros [] n1 [Hn1 Hg1]. apply wp_ret. split; [exact Hn1|]. split; [done|]. rewrite Hn1. by apply (leave_chan _ p [] w).
  - assert (Hk1 : kickable [p] (graph_of n)).
    { destruct Hk as [Hn Hc]. split; [|exact Hc]. intros q' v' ->%list_elem_of_singleton. apply Hn. constructor. }
    eapply wp_mono; [apply (kick_off_spec buf n p w); try done; rewrite Hu; constructor|].
    intros [] n1 [Hn1 Hg1]. pose proof (leave_chan _ p (q :: l) w Hw Hu) as Hw1. rewrite <- Hn1 in Hw1.
    eapply wp_mono; [apply (IH q (part_view p w) n1); [done| |done|done|]|].
    + rewrite Hn1. by apply kickable_leave.
    + simpl. by rewrite Hu, unlink_head.
    + intros [] n2 (Hn2 & Hg2 & Hc2). split; [|done]. by rewrite Hn2, Hn1.
Qed.
End ClearUsers.

Section ClearSpec.
Context `{Conf} {E : Type} `{!ChanDB E} `{!NickServ E} `{!NickServLaws E} `{!NickView E}.
Implicit Types (n : Net E) (us : User) (ch : Channel).

Definition clear_words (args : string) : option string * option string :=
  let '(chan, rest) := strtok args " " in (chan, fst (strtok rest " ")).

(** What CLEAR does to the channel, by its last word. *)
Definition cleared n us (chan what : string) (c : ptr) ch n' : Prop :=
  if stricmp what "bans" =? 0 then becomes chan c ch (ch{{newbans := [] }}) n n'
  else if stricmp what "modes" =? 0 then relocked chan c ch (without_modes ch) n n'
  else if stricmp what "ops" =? 0 then becomes chan c ch (ch{{chanops := [] }}) n n'
  else if stricmp what "voices" =? 0 then becomes chan c ch (ch{{voices := [] }}) n n'
  else if stricmp what "users" =? 0 then
    graph_of n' = all_leave c (users ch) (graph_of n) /\ graph_ok (graph_of n') /\ g_chans (graph_of n') !! c = None
  else told us n n'.

Lemma becomes_announce chan c ch ch2 n n1 (m : M (Net E) unit) (k : M (Net E) unit) : becomes chan c ch ch2 n n1 ->
  (m = mret tt \/ exists x, m = emit x) -> (forall n2, becomes chan c ch ch2 n n2 -> wp k (fun _ n' => becomes chan c ch ch2 n n') n2) ->
  wp (m;; k) (fun _ n' => becomes chan c ch ch2 n n') n1.
Proof.
  intros Hb Hm Hk. apply wp_bind. eapply (wp_announce [] n1); [apply quiet_sent, quiet_refl|exact Hm|].
  intros o n2 Hs. apply Hk. by eapply becomes_sent.
Qed.

Lemma becomes_reply chan c ch ch2 n n1 u us text : users_heap n !! u = Some us -> becomes chan c ch ch2 n n1 ->
  wp (reply u text) (fun _ n' => becomes chan c ch ch2 n n') n1.
Proof.
  intros Hu Hb. assert (Hu1 : users_heap n1 !! u = Some us) by (destruct Hb as (ch1 & Ho & _); by rewrite (oc_users _ _ _ _ Ho)).
  eapply (wp_cmd_reply [] n1); [exact Hu1|apply quiet_sent, quiet_refl|]. intros n2 Hs. by eapply becomes_sent.
Qed.

Lemma relocked_sent chan c ch ch2 n n1 o n2 : relocked chan c ch ch2 n n1 -> sent o n1 n2 -> relocked chan c ch ch2 n n2.
Proof.
  intros (ch1 & Ho1 & Hown1 & Hb1) Hs. exists ch1.
  split; [eapply on_chan_trans; [exact Ho1|eapply on_chan_sent; [apply Hown1|exact Hs]]|]. split; [by eapply sent_own|done].
Qed.

Lemma relocked_from chan c ch ch2 n o n1 n2 : at_own chan c ch n -> sent o n n1 -> relocked chan c ch ch2 n1 n2 -> relocked chan c ch ch2 n n2.
Proof.
  intros Hown Hs (ch1 & Ho1 & Hown1 & Hb1). exists ch1. rewrite (sent_db _ _ _ Hs) in Hb1.
  split; [eapply on_chan_trans; [eapply on_chan_sent; [apply Hown|exact Hs]|exact Ho1]|]. by split.
Qed.

Lemma all_leave_users c l g q : is_Some (g_users (all_leave c l g) !! q) <-> is_Some (g_users g !! q).
Proof.
  revert g. induction l as [|p l IH]; intros g; [done|]. simpl. unfold all_leave in *. simpl. rewrite IH, leave_users.
  by rewrite fmap_is_Some.
Qed.

Lemma clear_users_spec n n2 u us chan c ch : users_heap n2 !! u = Some us -> graph_ok (graph_of n) -> graph_of n2 = graph_of n ->
  at_own chan c ch n2 -> no_nul chan = true -> kickable chan c (users ch) (graph_of n) ->
  wp (clear_users u c chan;; reply u ("CHAN_CLEARED_USERS " +:+ chan)) (fun _ n' =>
    graph_of n' = all_leave c (users ch) (graph_of n) /\ graph_ok (graph_of n') /\ g_chans (graph_of n') !! c = None) n2.
Proof.
  intros Hu Hg Hgr [_ Hc Hf] Hnul Hk. apply wp_bind. unfold clear_users. apply wp_bind. eapply wp_load_user; [exact Hu|].
  apply wp_bind. eapply wp_load_chan; [exact Hc|].
  assert (Hw : g_chans (graph_of n2) !! c = Some (chan_view ch)) by (apply graph_chan; eauto).
  assert (Hs : stricmp chan (name ch) = 0).
  { pose proof (g_findchan_found n2 chan ltac:(rewrite Hgr; apply Hg) Hnul) as Hfd. rewrite Hf in Hfd.
    destruct (chan_found_chan _ _ _ Hfd) as (ch' & Hc' & Hcmp); [eapply chan_addr; [rewrite Hgr; apply Hg|exact Hc]|].
    rewrite Hc in Hc'. injection Hc' as <-. rewrite stricmp_irc, irc_stricmp_anti, Hcmp. done. }
  destruct (users ch) as [|p l] eqn:Eu.
  { destruct Hg as (_ & _ & Hne). rewrite Hgr in Hw. by destruct (Hne c _ Hw). }
  eapply wp_mono; [apply (clear_users_loop chan c _ p l n2 (chan_view ch)); try done; by rewrite Hgr|].
  intros [] n3 (Hn3 & Hg3 & Hc3). rewrite Hgr in Hn3. unfold reply. apply wp_bind.
  assert (Hu3 : is_Some (users_heap n3 !! u)).
  { apply is_Some_graph_user. rewrite Hn3, all_leave_users. rewrite <- Hgr. apply is_Some_graph_user. eauto. }
  destruct Hu3 as [us3 Hu3]. eapply wp_load_user; [exact Hu3|]. unfold emit. by apply wp_modify.
Qed.

(** C12: CLEAR, where the channel may be used and the user has the ability:
    [bans], [ops] and [voices] leave none, and change nothing else but that the
    mode lock may come into force; [modes] leaves exactly the modes the lock asks
    for; [users] makes every member leave, so that the channel is gone and all
    lists stay sound.  Anything else is a notice. *)
Theorem do_clear_correct n u us args chan what (Hu : users_heap n !! u = Some us) (Hg : graph_ok (graph_of n))
  (Hnul : no_nul args = true) (Hw : clear_words args = (Some chan, Some what))
  (Hk : forall c ch ci, stricmp what "users" = 0 -> command_channel n chan = Some (c, ch, ci) -> kickable chan c (users ch) (graph_of n)) :
  wp (do_clear u args) (fun _ n' =>
    match command_channel n chan with
    | Some (c, ch, _) => if permits (db (ext n)) us (channel_id ch) CA_CLEAR then cleared n us chan what c ch n' else told us n n'
    | None => told us n n'
    end) n.
Proof.
  unfold do_clear, clear_words in *. destruct (strtok_nul args " " Hnul) as [Hchan _]. destruct (strtok args " ") as [chan' rest].
  injection Hw as -> ->. specialize (Hchan chan eq_refl).
  eapply on_channel_spec; [exact Hu|apply Hg|by intros -> n' Ht|]. intros c ch ci n1 Hcc H1. specialize (Hk c ch ci). rewrite Hcc.
  pose proof (command_channel_own _ _ _ _ _ (proj1 Hg) Hcc) as Hown.
  eapply permitted_spec; [exact Hu|exact H1|by intros -> n' Ht|]. intros -> n2 H2. unfold cleared.
  pose proof (sent_own _ _ _ _ _ _ Hown H2) as Hown2. pose proof (sent_users _ _ _ H2) as Hus.
  assert (Hu2 : users_heap n2 !! u = Some us) by by rewrite Hus.
  apply wp_bind. eapply wp_load_user; [exact Hu2|].
  assert (Hback : forall ch2 (m : M (Net E) unit), wp m (fun _ n' => becomes chan c ch ch2 n2 n') n2 ->
    wp m (fun _ n' => becomes chan c ch ch2 n n') n2).
  { intros ch2 m Hm. eapply wp_mono; [exact Hm|]. intros a n' Hb. by eapply becomes_from. }
  destruct (stricmp what "bans" =? 0); [|destruct (stricmp what "modes" =? 0); [|destruct (stricmp what "ops" =? 0);
    [|destruct (stricmp what "voices" =? 0); [|destruct (Z.eqb_spec (stricmp what "users") 0) as [Hwh|]]]]].
  - apply Hback. apply wp_bind. unfold clear_bans. apply wp_bind. eapply wp_load_chan; [apply Hown2|].
    eapply wp_mono; [apply (clear_bans_loop chan Hchan ServerName " :" c ch n2)|].
    { replace (ch{{newbans := newbans ch}}) with ch by by destruct ch. by apply becomes_refl. }
    intros [] n3 Hb3. eapply becomes_announce; [exact Hb3|apply verbose_quiet|]. intros n4 Hb4. by eapply becomes_reply.
  - apply wp_bind. eapply wp_mono; [by apply clear_modes_spec|]. intros [] n3 Hb3.
    assert (Hb : relocked chan c ch (without_modes ch) n n3) by (by eapply relocked_from). clear Hb3.
    apply wp_bind. eapply (wp_announce [] n3); [apply quiet_sent, quiet_refl|apply verbose_quiet|]. intros o n4 H4.
    assert (Hu4 : users_heap n4 !! u = Some us).
    { rewrite (sent_users _ _ _ H4). destruct Hb as (ch1 & Ho & _). by rewrite (oc_users _ _ _ _ Ho). }
    eapply (wp_cmd_reply [] n4); [exact Hu4|apply quiet_sent, quiet_refl|]. intros n5 H5.
    eapply relocked_sent; [by eapply relocked_sent|exact H5].
  - apply Hback. apply wp_bind. eapply (wp_announce [] n2); [apply quiet_sent, quiet_refl|apply verbose_quiet|]. intros o n3 H3.
    apply wp_bind. eapply wp_load_chan; [rewrite (sent_chans _ _ _ H3); apply Hown2|]. apply wp_bind.
    eapply wp_mono; [apply (clear_ops_loop chan Hchan c ch n2)|intros [] n4 Hb4; by eapply becomes_reply].
    replace (ch{{chanops := chanops ch}}) with ch by by destruct ch. eapply becomes_sent; [by apply becomes_refl|exact H3].
  - apply Hback. apply wp_bind. eapply wp_load_chan; [apply Hown2|]. apply wp_bind.
    eapply wp_mono; [apply (clear_voices_loop chan Hchan c ch n2)|].
    { replace (ch{{voices := voices ch}}) with ch by by destruct ch. by apply becomes_refl. }
    intros [] n3 Hb3. eapply becomes_announce; [exact Hb3|apply verbose_quiet|]. intros n4 Hb4. by eapply becomes_reply.
  - by eapply (clear_users_spec n n2 u us); [exact Hu2|exact Hg|apply (sent_graph _ _ _ H2)|exact Hown2|exact Hchan|apply Hk].
  - eapply wp_cmd_told; [exact Hu|exact H2|done].
Qed.

(** UNBAN by a user with the ability takes off exactly the bans that match
    him; the others stay in their order, and nothing else changes but that the
    mode lock may come into force.  Otherwise there is only a notice. *)
Theorem do_unban_correct n u us args chan (Hu : users_heap n !! u = Some us) (Hg : heap_ok (graph_of n))
  (Hnul : no_nul args = true) (Hw : fst (strtok args " ") = Some chan)
  (Hb : forall c ch ci, command_channel n chan = Some (c, ch, ci) -> Forall (fun b => match_usermask (mask b) us <> None) (newbans ch)) :
  wp (do_unban u args) (fun _ n' =>
    match command_channel n chan with
    | Some (c, ch, _) =>
        if permits (db (ext n)) us (channel_id ch) CA_UNBAN then
          becomes chan c ch (ch{{newbans ::= List.filter (fun b => negb (matches us b))}}) n n'
        else told us n n'
    | None => told us n n'
    end) n.
Proof.
  unfold do_unban. destruct (strtok_nul args " " Hnul) as [Hchan _]. rewrite Hw. specialize (Hchan chan Hw).
  eapply on_channel_spec; [exact Hu|exact Hg|by intros -> n' Ht|]. intros c ch ci n1 Hcc H1. specialize (Hb c ch ci Hcc). rewrite Hcc.
  pose proof (command_channel_own _ _ _ _ _ Hg Hcc) as Hown.
  eapply permitted_spec; [exact Hu|exact H1|by intros -> n' Ht|]. intros -> n2 H2.
  pose proof (sent_own _ _ _ _ _ _ Hown H2) as Hown2.
  assert (Hu2 : users_heap n2 !! u = Some us) by by rewrite (sent_users _ _ _ H2).
  eapply (wp_mono _ (fun _ n' => becomes chan c ch (ch{{newbans ::= List.filter (fun b => negb (matches us b))}}) n2 n'));
    [|intros a n' Hb2; by eapply becomes_from].
  apply wp_bind. eapply wp_load_chan; [apply Hown2|]. apply wp_bind.
  eapply wp_mono; [apply (unban_loop_spec chan Hchan c ch n2 u us (newbans ch) []); [exact Hu2|exact Hb|constructor|]|].
  { replace (ch{{newbans := [] ++ newbans ch}}) with ch by by destruct ch. by apply becomes_refl. }
  intros [] n3 Hb3. apply wp_bind.
  assert (Hu3 : users_heap n3 !! u = Some us) by (destruct Hb3 as (ch1 & Ho & _); by rewrite (oc_users _ _ _ _ Ho)).
  eapply wp_load_user; [exact Hu3|]. eapply becomes_announce; [exact Hb3|apply verbose_quiet|].
  intros n4 Hb4. by eapply becomes_reply.
Qed.
End ClearSpec.

(** ** Examples *)
Module Witness.
Import Interfaces.Demo Tables.

(** alice founded #a and is an operator there. *)
Definition alice : User := Demo.alice{{nick_id := 7; real_id := 7}}.
Definition chan_a : Channel := Demo.chan_a{{channel_id := 1}}.
Definition status_of (n : Net DB) (c : ptr) : option (list ptr * list ptr) :=
  (fun ch => (chanops ch, voices ch)) <$> chans_heap n !! c.

Lemma alice_there : users_heap Tables.net !! 1 = Some alice.
Proof. vm_compute. reflexivity. Qed.
Lemma net_heap : heap_ok (graph_of Tables.net).
Proof. exact (proj1 Demo.net_ok). Qed.
Lemma found_a : command_channel Tables.net "#a" = Some (2, chan_a, row).
Proof. vm_compute. reflexivity. Qed.

Lemma deop_goal : status_goal Deop Tables.net alice "#a alice" = Some ("#a"%string, 2, chan_a, "alice"%string).
Proof. vm_compute. reflexivity. Qed.

(** She takes it from herself. *)
Lemma status_commands_correct_witness :
  wp (run_status Deop 1 "#a alice") (fun _ n' => status_of n' 2 = Some ([], [])) Tables.net.
Proof.
  eapply wp_mono; [apply (status_commands_correct Deop Tables.net 1 alice "#a alice" alice_there net_heap eq_refl)|].
  intros a n'. rewrite deop_goal. intros (ch' & Ho & Hs & _). unfold status_of.
  rewrite (on_chan_lookup _ _ _ _ Ho). destruct (settles_fields _ _ _ Hs) as (Hv & _).
  simpl. f_equal. exact (f_equal (fun w => (w_ops w, w_voices w)) Hv).
Defined.

Lemma do_unban_correct_witness :
  wp (do_unban 1 "#a") (fun _ n' => exists ch, chans_heap n' !! 2 = Some ch /\ newbans ch = [mkBan "*!*@*.example.com" 0])
    (Tables.net{{chans_heap ::= alter (fun ch => ch{{newbans := [mkBan "*!*@*.example.org" 0; mkBan "*!*@*.example.com" 0] }}) 2}}).
Proof.
  set (n := Tables.net{{chans_heap ::= _}}). set (ch0 := chan_a{{newbans := [mkBan "*!*@*.example.org" 0; mkBan "*!*@*.example.com" 0] }}).
  assert (Hc : command_channel n "#a" = Some (2, ch0, row)) by (vm_compute; reflexivity).
  eapply wp_mono; [apply (do_unban_correct n 1 alice "#a" "#a" alice_there net_heap eq_refl eq_refl)|].
  - rewrite Hc. intros c ch ci [= <- <- <-]. repeat constructor; vm_compute; discriminate.
  - intros a n'. rewrite Hc. assert (Hp : permits (db (ext n)) alice (channel_id ch0) CA_UNBAN = true) by (vm_compute; reflexivity).
    rewrite Hp. intros (ch' & Ho & Hs & _). exists ch'. split; [by eapply on_chan_lookup|].
    destruct (settles_fields _ _ _ Hs) as (_ & -> & _). vm_compute. reflexivity.
Defined.

Lemma do_clear_correct_witness :
  wp (do_clear 1 "#a users") (fun _ n' => g_chans (graph_of n') !! 2 = None) Tables.net.
Proof.
  eapply wp_mono; [apply (do_clear_correct Tables.net 1 alice "#a users" "#a" "users" alice_there Demo.net_ok eq_refl eq_refl)|].
  - rewrite found_a. intros c ch ci _ [= <- <- <-]. split.
    + intros p v ->%list_elem_of_singleton. intros [= <-]. split; vm_compute; reflexivity.
    + intros c' w Hw _. apply graph_chan in Hw as (ch & Hch & _). revert Hch. simpl. intros [[Hc _]|[_ Hch]]%lookup_alter_Some.
      * done.
      * by apply lookup_singleton_Some in Hch as [<- _].
  - intros a n'. rewrite found_a. assert (Hp : permits (db (ext Tables.net)) alice (channel_id chan_a) CA_CLEAR = true) by (vm_compute; reflexivity).
    rewrite Hp. intros (_ & _ & Hc). exact Hc.
Defined.
End Witness.
