(* ===== verification/SyncCmd.v ===== *)
(** ChanServ's SYNC ([src/chanserv.c]): the modes, bans and statuses of a channel
    sent again, in lines built in buffers of fixed size. *)

From S2P Require Import Prelude CStr Wild NumTime Wp Track Graph Net Masks Interfaces Channels Users Table Query ChanDB ChanServ Mlock CsAccess ChanCmds.

(** What SYNC collects before it sends: how many, the letters, the words. *)
Record Batch := mkBatch { b_count : Z; b_modes : string; b_args : string }.

(** ** The command *)
Section Sync.
Context `{Conf} {E : Type} `{!ChanDB E} `{!NickServ E}.
Implicit Types (n : Net E) (b : Batch).

(** [strcat] into a buffer of [size] bytes, which is a fault where the result does not fit. *)
Definition strcat (size : nat) (buf s : string) : M (Net E) string :=
  let r := (buf +:+ s)%string in if (String.length r <? size)%nat then mret r else fault.

Definition sender (text : string) : M (Net E) unit := send_cmd (Some s_ChanServ) text.

Definition empty_batch : Batch := mkBatch 0 EmptyString EmptyString.

(** Six, or no room for another word. *)
Definition batch_full b (w : string) : bool :=
  (b_count b =? 6) || (256 <? Z.of_nat (String.length (b_args b)) + Z.of_nat (String.length w) + 1).

Definition send_batch (both : bool) (chan : string) b : M (Net E) unit :=
  sender ("MODE " +:+ chan +:+ " -" +:+ b_modes b +:+ " " +:+ b_args b);;
  when both (sender ("MODE " +:+ chan +:+ " +" +:+ b_modes b +:+ " " +:+ b_args b)).

Definition batch_word (letter w : string) b : M (Net E) Batch :=
  modes ← strcat 7 (b_modes b) letter;
  args ← (if String.eqb (b_args b) EmptyString then mret (b_args b) else strcat 256 (b_args b) " ");
  args ← strcat 256 args w;
  mret (mkBatch (b_count b) modes args).

(** [for (i = 0; i < c->bancount; i++, bcount++)] *)
Fixpoint sync_bans (chan : string) (bans : list Ban) b : M (Net E) Batch :=
  match bans with
  | [] => mret b
  | ban :: bans' =>
      b ← (if batch_full b (mask ban) then send_batch true chan b;; mret empty_batch else mret b);
      b ← batch_word "b" (mask ban) b;
      sync_bans chan bans' (b{{b_count ::= Z.succ}})
  end.

(** The users count before they are added. *)
Definition sync_nick (both : bool) (letter chan nk : string) b : M (Net E) Batch :=
  let b := b{{b_count ::= Z.succ}} in
  b ← (if batch_full b nk then send_batch both chan b;; mret empty_batch else mret b);
  batch_word letter nk b.

Fixpoint sync_users (chan : string) (l : list ptr) (o no v nv : Batch) : M (Net E) (Batch * Batch * Batch * Batch) :=
  match l with
  | [] => mret (o, no, v, nv)
  | p :: l' =>
      us ← load_user p;
      is_op ← is_chanop (nick us) chan;
      '(o, no) ← ((if is_op : bool then o ← sync_nick true "o" chan (nick us) o; mret (o, no)
                   else no ← sync_nick false "o" chan (nick us) no; mret (o, no)) : M (Net E) (Batch * Batch));
      is_voice ← is_voiced (nick us) chan;
      '(v, nv) ← ((if is_voice : bool then v ← sync_nick true "v" chan (nick us) v; mret (v, nv)
                   else nv ← sync_nick false "v" chan (nick us) nv; mret (v, nv)) : M (Net E) (Batch * Batch));
      sync_users chan l' o no v nv
  end.

Definition send_left (both : bool) (chan : string) b : M (Net E) unit :=
  when (negb (b_count b =? 0)) (send_batch both chan b).

(** The modes without parameters that are put back. *)
Definition sync_letters : list (ascii * Z) :=
  [("c", CMODE_c); ("i", CMODE_i); ("m", CMODE_m); ("M", CMODE_M); ("n", CMODE_n);
   ("O", CMODE_O); ("p", CMODE_p); ("R", CMODE_R); ("s", CMODE_s); ("t", CMODE_t)]%char.

Definition mode_text (m : Z) : string :=
  fold_right (fun r s => if has m (snd r) then String (fst r) s else s) EmptyString sync_letters.

Definition sync_modes (chan : string) (ch : Channel) : M (Net E) unit :=
  sender ("MODE " +:+ chan +:+ " -cimMnOpRstlk :" +:+ default EmptyString (key ch));;
  sender ("MODE " +:+ chan +:+ " +" +:+ mode_text (cmode ch));;
  match key ch with Some k => sender ("MODE " +:+ chan +:+ " +k :" +:+ k) | None => mret tt end;;
  when (negb (limit ch =? 0)) (sender ("MODE " +:+ chan +:+ " +l :" +:+ show_int (wrap32 (limit ch)))).

Definition do_sync (u : ptr) (args : string) : M (Net E) unit :=
  match fst (strtok args " ") with
  | None => reply u "CHAN_SYNC_SYNTAX"
  | Some chan =>
      on_channel u chan (fun c i ci => permitted u i CA_SYNC
        (us ← load_user u;
         verbose ci chan ("SYNC used by " +:+ nick us);;
         ch ← load_chan c;
         sync_modes chan ch;;
         (b ← sync_bans chan (newbans ch) empty_batch; send_left true chan b);;
         '(o, no, v, nv) ← sync_users chan (users ch) empty_batch empty_batch empty_batch empty_batch;
         send_left true chan o;;
         send_left false chan no;;
         send_left true chan v;;
         send_left false chan nv))
  end.
End Sync.

(** ** What SYNC sends *)
Section SyncSpec.
Context `{Conf} {E : Type} `{!ChanDB E} `{!NickServ E} `{!NickView E}.
Implicit Types (n : Net E) (d : DB) (ws : list string).

(** What a batch is about, and whether it is taken off and given again. *)
Inductive Kind := KBan | KOp | KNoOp | KVoice | KNoVoice.
#[global] Instance Kind_eq_dec : EqDecision Kind.
Proof. solve_decision. Defined.

Definition letter (k : Kind) : string := match k with KBan => "b" | KOp | KNoOp => "o" | KVoice | KNoVoice => "v" end.
Definition both (k : Kind) : bool := match k with KBan | KOp | KVoice => true | KNoOp | KNoVoice => false end.

Definition letters (k : Kind) ws : string := fold_right (fun _ s => letter k +:+ s) EmptyString ws.
Definition joined ws : string := match ws with [] => EmptyString | w :: ws => fold_left (fun s w => s +:+ " " +:+ w) ws w end.
Definition batch_of (k : Kind) (count : Z) ws : Batch := mkBatch count (letters k ws) (joined ws).

(** The lines of a batch, the last one first. *)
Definition batch_lines (chan : string) (k : Kind) ws : list Msg :=
  let line sign := Cmd (Some s_ChanServ) ("MODE " +:+ chan +:+ " " +:+ sign +:+ letters k ws +:+ " " +:+ joined ws) in
  if both k then [line "+"; line "-"] else [line "-"].

Definition Block : Type := Kind * list string.
Definition blocks_out (chan : string) (bl : list Block) : list Msg :=
  fold_left (fun o b => batch_lines chan (fst b) (snd b) ++ o) bl [].
Definition words_of (k : Kind) (bl : list Block) : list string :=
  concat (map snd (List.filter (fun b => bool_decide (fst b = k)) bl)).
Definition six_at_most (bl : list Block) : Prop := Forall (fun b => (1 <= length (snd b) <= 6)%nat) bl.

Lemma letters_snoc k ws w : letters k (ws ++ [w]) = letters k ws +:+ letter k.
Proof. unfold letters. induction ws as [|x ws IH]; simpl; [by destruct k|]. rewrite IH. by destruct k. Qed.

Lemma letters_length k ws : String.length (letters k ws) = length ws.
Proof. unfold letters. induction ws as [|x ws IH]; [done|]. by destruct k; simpl; f_equal. Qed.

Lemma joined_snoc ws w : joined (ws ++ [w]) = match ws with [] => w | _ => joined ws +:+ " " +:+ w end.
Proof. destruct ws as [|x ws]; [done|]. simpl. by rewrite fold_left_app. Qed.

Lemma joined_length ws m : Forall (fun w => (String.length w <= m)%nat) ws ->
  (String.length (joined ws) <= length ws * S m)%nat.
Proof.
  induction ws as [|w ws IH] using rev_ind; [simpl; lia|]. intros [Hws Hw%Forall_inv]%Forall_app.
  rewrite joined_snoc, length_app. specialize (IH Hws). destruct ws as [|x ws]; [simpl; lia|].
  rewrite !str_length_app. simpl in *. lia.
Qed.

Lemma joined_nonempty ws : ws <> [] -> Forall (fun w => w <> EmptyString) ws -> joined ws <> EmptyString.
Proof.
  induction ws as [|w ws _] using rev_ind; [done|]. intros _ [Hws Hw%Forall_inv]%Forall_app. rewrite joined_snoc.
  destruct ws as [|x ws]; [done|]. destruct (joined (x :: ws)); [done|discriminate].
Qed.

(** A word that fits, six times over. *)
Definition short (m : nat) (w : string) : Prop := w <> EmptyString /\ (String.length w <= m)%nat.

Lemma wp_send text n0 n o (Q : unit -> Net E -> Prop) : sent o n0 n ->
  (forall n', sent (Cmd (Some s_ChanServ) text :: o) n0 n' -> Q tt n') -> wp (sender text) Q n.
Proof.
  intros Hs HQ. unfold sender, send_cmd, emit. apply wp_modify, HQ. apply (sent_trans o [_] n0 n _ Hs).
  exists (ext n). by destruct n.
Qed.

Lemma wp_send_batch k chan count ws n0 n o (Q : unit -> Net E -> Prop) : sent o n0 n ->
  (forall n', sent (batch_lines chan k ws ++ o) n0 n' -> Q tt n') -> wp (send_batch (both k) chan (batch_of k count ws)) Q n.
Proof.
  intros Hs HQ. unfold send_batch. apply wp_bind. eapply wp_send; [exact Hs|]. intros n1 H1.
  unfold batch_lines in HQ. destruct (both k).
  - eapply wp_send; [exact H1|]. intros n2 H2. by apply HQ.
  - apply wp_ret. by apply HQ.
Qed.

Lemma wp_batch_word m k count ws w n (Q : Batch -> Net E -> Prop) : (m <= 41)%nat ->
  (length ws <= 5)%nat -> Forall (short m) ws -> short m w ->
  Q (batch_of k count (ws ++ [w])) n -> wp (batch_word (letter k) w (batch_of k count ws)) Q n.
Proof.
  intros Hm Hl Hws [Hne Hw] HQ. unfold batch_word, batch_of in *. rewrite letters_snoc, joined_snoc in HQ. simpl.
  assert (Hlen := joined_length ws m ltac:(eapply Forall_impl; [exact Hws|by intros ? []])).
  assert (Hj : (String.length (joined ws) <= 210)%nat) by nia.
  unfold strcat. rewrite !str_length_app, letters_length.
  assert (H1 : String.length (letter k) = 1%nat) by by destruct k. rewrite H1.
  apply wp_bind. rewrite (proj2 (Nat.ltb_lt _ 7)) by lia. apply wp_ret, wp_bind.
  destruct ws as [|x ws].
  - simpl. apply wp_ret, wp_bind. change (EmptyString +:+ w) with w. rewrite (proj2 (Nat.ltb_lt (String.length w) 256)) by lia. by apply wp_ret, wp_ret.
  - pose proof (joined_nonempty (x :: ws) ltac:(done) ltac:(eapply Forall_impl; [exact Hws|by intros ? []])) as Hnn.
    rewrite (proj2 (String.eqb_neq _ _)) by done. rewrite (proj2 (Nat.ltb_lt _ 256)) by (simpl String.length in *; lia).
    apply wp_ret, wp_bind. rewrite !str_length_app. change (String.length " ") with 1%nat.
    assert (Hfit : (String.length (joined (x :: ws)) + 1 + String.length w < 256)%nat) by nia.
    rewrite (proj2 (Nat.ltb_lt _ 256)) by lia. apply wp_ret, wp_ret. by rewrite str_app_assoc.
Qed.

Lemma words_of_snoc k bl b : words_of k (bl ++ [b]) = words_of k bl ++ (if bool_decide (fst b = k) then snd b else []).
Proof.
  unfold words_of. rewrite List.filter_app, map_app, concat_app. simpl. case_bool_decide; simpl; by rewrite ?app_nil_r.
Qed.

Lemma blocks_out_snoc chan bl b : blocks_out chan (bl ++ [b]) = batch_lines chan (fst b) (snd b) ++ blocks_out chan bl.
Proof. unfold blocks_out. by rewrite fold_left_app. Qed.

(** Of the users' words, those in [bl] are sent and those in [b] wait. *)
Definition waiting (k : Kind) (bl : list Block) ws b : Prop :=
  exists cur, b = batch_of k (Z.of_nat (length ws mod 6)) cur /\ words_of k bl ++ cur = ws /\
    length cur = (length ws mod 6 + match words_of k bl with [] => 0 | _ => 1 end)%nat.

Lemma waiting_nil k bl : words_of k bl = [] -> waiting k bl [] empty_batch.
Proof. intros Hk. exists []. by rewrite Hk. Qed.

Definition one_block (k : Kind) (bl bl' : list Block) : Prop :=
  (forall k', k' <> k -> words_of k' bl' = words_of k' bl) /\ (six_at_most bl -> six_at_most bl').

Lemma one_block_refl k bl : one_block k bl bl.
Proof. by split. Qed.

Lemma one_block_snoc k bl ws : (1 <= length ws <= 6)%nat -> one_block k bl (bl ++ [(k, ws)]).
Proof.
  intros Hl. split.
  - intros k' Hk. rewrite words_of_snoc. simpl. rewrite bool_decide_false by congruence. apply app_nil_r.
  - intros Hs. apply Forall_app. split; [done|]. by constructor.
Qed.

Lemma batch_full_count m k count ws w : (m <= 41)%nat -> (length ws <= 5)%nat -> Forall (short m) ws -> short m w ->
  batch_full (batch_of k count ws) w = (count =? 6).
Proof.
  intros Hm Hl Hws [_ Hw]. unfold batch_full, batch_of. simpl.
  assert (Hlen := joined_length ws m ltac:(eapply Forall_impl; [exact Hws|by intros ? []])).
  assert (Hj : (String.length (joined ws) <= 210)%nat) by nia.
  rewrite (proj2 (Z.ltb_ge _ _)) by lia. apply orb_false_r.
Qed.

Lemma mod6_succ (j : nat) : (S j mod 6 = if j mod 6 =? 5 then 0 else S (j mod 6))%nat.
Proof.
  pose proof (Nat.div_mod_eq j 6). pose proof (Nat.mod_upper_bound j 6 ltac:(lia)).
  destruct (Nat.eqb_spec (j mod 6) 5).
  - symmetry. apply (Nat.mod_unique _ _ (S (j / 6))); lia.
  - symmetry. apply (Nat.mod_unique _ _ (j / 6)); lia.
Qed.

Lemma sync_nick_spec k chan bl h ws nk b n0 n (Q : Batch -> Net E -> Prop) :
  waiting k bl ws b -> Forall (short 31) ws -> short 31 nk -> sent (blocks_out chan bl ++ h) n0 n ->
  (forall bl' b' n', one_block k bl bl' -> waiting k bl' (ws ++ [nk]) b' -> sent (blocks_out chan bl' ++ h) n0 n' -> Q b' n') ->
  wp (sync_nick (both k) (letter k) chan nk b) Q n.
Proof.
  intros (cur & -> & Hws & Hlen) Hs Hnk Hsent HQ. unfold sync_nick.
  pose proof (mod6_succ (length ws)) as Hmod. pose proof (Nat.mod_upper_bound (length ws) 6 ltac:(lia)) as Hub.
  set (j := (length ws mod 6)%nat) in *.
  change ((batch_of k (Z.of_nat j) cur){{b_count ::= Z.succ}}) with (batch_of k (Z.succ (Z.of_nat j)) cur).
  assert (Hcur : Forall (short 31) cur) by (rewrite <- Hws, Forall_app in Hs; by apply Hs).
  assert (Hj : (S (length ws) mod 6 = if (j =? 5)%nat then 0 else S j)%nat) by exact Hmod.
  assert (Hl' : length (ws ++ [nk]) = S (length ws)) by (rewrite length_app; simpl; lia).
  apply wp_bind. destruct (Nat.eqb_spec j 5) as [H5|H5].
  - assert (Hfull : batch_full (batch_of k (Z.succ (Z.of_nat j)) cur) nk = true).
    { unfold batch_full. simpl. by rewrite H5. }
    rewrite Hfull. apply wp_bind. eapply wp_send_batch; [exact Hsent|]. intros n1 H1. apply wp_ret.
    eapply (wp_batch_word 31 k 0 []); [lia|simpl; lia|constructor|exact Hnk|].
    assert (Hc : (1 <= length cur <= 6)%nat) by (rewrite Hlen; destruct (words_of k bl); lia).
    apply (HQ (bl ++ [(k, cur)])); [by apply one_block_snoc| |].
    + exists [nk]. split; [by rewrite Hl', Hj|]. rewrite words_of_snoc. cbn [fst snd]. rewrite bool_decide_true by done. split; [by rewrite Hws|].
      rewrite Hl', Hj. destruct (words_of k bl ++ cur) eqn:E0; [|done]. apply app_eq_nil in E0 as [_ ->]. simpl in Hc. lia.
    + rewrite blocks_out_snoc, <- app_assoc. exact H1.
  - assert (Hc : (length cur <= 5)%nat) by (rewrite Hlen; destruct (words_of k bl); lia).
    rewrite (batch_full_count 31) by (lia || done). rewrite (proj2 (Z.eqb_neq _ _)) by lia. apply wp_ret.
    eapply (wp_batch_word 31); [lia|exact Hc|exact Hcur|exact Hnk|].
    apply (HQ bl); [apply one_block_refl| |exact Hsent]. exists (cur ++ [nk]). split; [rewrite Hl', Hj; f_equal; lia|].
    split; [by rewrite app_assoc, Hws|]. rewrite Hl', Hj, length_app, Hlen. simpl. lia.
Qed.

(** Of the bans those in [bl] are sent. *)
Lemma sync_bans_spec chan h ws bans cur bl n0 n (Q : Batch -> Net E -> Prop) :
  words_of KBan bl ++ cur = ws -> (length cur <= 6)%nat -> (ws <> [] -> cur <> []) -> six_at_most bl ->
  Forall (short 41) cur -> Forall (fun ban => short 41 (mask ban)) bans -> sent (blocks_out chan bl ++ h) n0 n ->
  (forall bl' cur' n', words_of KBan bl' ++ cur' = ws ++ map mask bans -> (length cur' <= 6)%nat ->
     (ws ++ map mask bans <> [] -> cur' <> []) -> one_block KBan bl bl' ->
     sent (blocks_out chan bl' ++ h) n0 n' -> Q (batch_of KBan (Z.of_nat (length cur')) cur') n') ->
  wp (sync_bans chan bans (batch_of KBan (Z.of_nat (length cur)) cur)) Q n.
Proof.
  intros Hws Hl Hne H6 Hcur Hbans Hsent HQ. revert ws cur bl n Hws Hl Hne H6 Hcur Hsent HQ.
  induction Hbans as [|ban bans Hb Hbans IH]; intros ws cur bl n Hws Hl Hne H6 Hcur Hsent HQ; simpl.
  { apply wp_ret. apply (HQ bl cur); simpl; rewrite ?app_nil_r; auto using one_block_refl. }
  assert (Hgo : forall cur1 bl1 n1, words_of KBan bl1 ++ cur1 = ws -> (length cur1 <= 5)%nat -> six_at_most bl1 ->
    Forall (short 41) cur1 -> one_block KBan bl bl1 -> sent (blocks_out chan bl1 ++ h) n0 n1 ->
    wp (b ← batch_word "b" (mask ban) (batch_of KBan (Z.of_nat (length cur1)) cur1);
        sync_bans chan bans (b{{b_count ::= Z.succ}})) Q n1).
  { intros cur1 bl1 n1 Hw1 Hl1 H61 Hc1 [Ho1 Ho2] Hs1. apply wp_bind. eapply (wp_batch_word 41 KBan); [lia|exact Hl1|exact Hc1|exact Hb|].
    change ((batch_of KBan (Z.of_nat (length cur1)) (cur1 ++ [mask ban])){{b_count ::= Z.succ}})
      with (batch_of KBan (Z.succ (Z.of_nat (length cur1))) (cur1 ++ [mask ban])).
    replace (Z.succ (Z.of_nat (length cur1))) with (Z.of_nat (length (cur1 ++ [mask ban]))) by (rewrite length_app; simpl; lia).
    apply (IH (ws ++ [mask ban]) (cur1 ++ [mask ban]) bl1); [by rewrite app_assoc, Hw1|rewrite length_app; simpl; lia| |done| |done|].
    - intros _ [_ [=]]%app_eq_nil.
    - apply Forall_app; split; [exact Hc1|constructor; [exact Hb|constructor]].
    - intros bl' cur' n' Hw' Hl' Hne' [Ho1' Ho2'] Hs'. apply (HQ bl' cur'); [by rewrite Hw', <- app_assoc|done| | |done].
      + intros _. apply Hne'. intros [[_ [=]]%app_eq_nil _]%app_eq_nil.
      + split; [intros k' Hk'; by rewrite Ho1', Ho1|auto]. }
  apply wp_bind. destruct (decide (length cur = 6)%nat) as [E6|E6].
  - assert (Hfull : batch_full (batch_of KBan (Z.of_nat (length cur)) cur) (mask ban) = true).
    { unfold batch_full. simpl. by rewrite E6. }
    rewrite Hfull. apply wp_bind. eapply (wp_send_batch KBan); [exact Hsent|]. intros n1 H1. apply wp_ret.
    apply (Hgo [] (bl ++ [(KBan, cur)])); simpl; [|lia| |constructor| |].
    + rewrite words_of_snoc. cbn [fst snd]. by rewrite bool_decide_true, app_nil_r.
    + apply Forall_app. split; [done|]. constructor; [simpl; lia|constructor].
    + apply one_block_snoc. lia.
    + rewrite blocks_out_snoc, <- app_assoc. exact H1.
  - rewrite (batch_full_count 41) by (lia || done). rewrite (proj2 (Z.eqb_neq _ _)) by lia. apply wp_ret.
    apply (Hgo cur bl); auto using one_block_refl. lia.
Qed.

(** The last of every six waits for a seventh. *)
Definition kept ws : list string := if (length ws mod 6 =? 0)%nat then removelast ws else ws.

Lemma send_left_spec k chan bl h ws b n0 n (Q : unit -> Net E -> Prop) :
  waiting k bl ws b -> sent (blocks_out chan bl ++ h) n0 n ->
  (forall bl' n', one_block k bl bl' -> words_of k bl' = kept ws -> sent (blocks_out chan bl' ++ h) n0 n' -> Q tt n') ->
  wp (send_left (both k) chan b) Q n.
Proof.
  intros (cur & -> & Hws & Hlen) Hsent HQ. unfold send_left. cbn [b_count batch_of]. pose proof (Nat.mod_upper_bound (length ws) 6 ltac:(lia)) as Hub.
  unfold kept in HQ. destruct (Nat.eqb_spec (length ws mod 6) 0) as [H0|H0].
  - rewrite (proj2 (Z.eqb_eq _ _)) by lia. apply wp_ret. apply (HQ bl); [apply one_block_refl| |exact Hsent].
    rewrite H0 in Hlen. rewrite <- Hws. destruct (words_of k bl) as [|w l].
    + by rewrite (nil_length_inv cur Hlen).
    + destruct cur as [|x [|y cur]]; try done. by rewrite removelast_last.
  - rewrite (proj2 (Z.eqb_neq _ _)) by lia. eapply wp_send_batch; [exact Hsent|]. intros n1 H1.
    apply (HQ (bl ++ [(k, cur)])).
    + apply one_block_snoc. rewrite Hlen. destruct (words_of k bl); lia.
    + rewrite words_of_snoc. cbn [fst snd]. by rewrite bool_decide_true, Hws.
    + rewrite blocks_out_snoc, <- app_assoc. exact H1.
Qed.

(** The nicks on a list that pass a test. *)
Definition names n (q : string -> bool) (l : list ptr) : list string :=
  List.filter q (omap (fun p => nick <$> users_heap n !! p) l).
Definition named_in n (l : list ptr) (nk : string) : bool :=
  existsb (fun p => match users_heap n !! p with Some us => irc_stricmp (nick us) nk =? 0 | None => false end) l.

Lemma nick_in_spec n l nk : (forall p, p ∈ l -> is_Some (users_heap n !! p)) ->
  nick_in l nk n = Some (named_in n l nk, n).
Proof.
  induction l as [|p l IH]; intros Hl; [done|]. destruct (Hl p ltac:(constructor)) as [us Hu].
  simpl. unfold mbind, M_bind, load_user. rewrite Hu. destruct (irc_stricmp (nick us) nk =? 0); [done|].
  apply IH. intros q Hq. apply Hl. by constructor.
Qed.

Lemma named_in_sent o n n' l nk : sent o n n' -> named_in n' l nk = named_in n l nk.
Proof. intros Hs. unfold named_in. by rewrite (sent_users _ _ _ Hs). Qed.

Lemma names_cons n q p us l : users_heap n !! p = Some us ->
  names n q (p :: l) = (if q (nick us) then [nick us] else []) ++ names n q l.
Proof. intros Hu. unfold names. simpl. rewrite Hu. simpl. by destruct (q (nick us)). Qed.

(** *** All users *)
Section Users.
Context n0 (chan : string) (c : ptr) (ch : Channel) (h : list Msg).
Hypothesis (Hg : heap_ok (graph_of n0)) (Hc : chans_heap n0 !! c = Some ch).
Hypothesis (Hf : g_findchan (graph_of n0) chan = c).

Lemma listed_valid n o (l : list ptr) : sent o n0 n -> (forall p, p ∈ l -> p ∈ users ch \/ p ∈ chanops ch \/ p ∈ voices ch) ->
  forall p, p ∈ l -> is_Some (users_heap n !! p).
Proof.
  intros Hs Hl p Hp. rewrite (sent_users _ _ _ Hs), <- is_Some_graph_user.
  apply (ho_users _ Hg c (chan_view ch)); [apply graph_chan; eauto|by apply Hl].
Qed.

Lemma found_at n o : sent o n0 n -> findchan chan n = Some (c, n).
Proof.
  intros Hs. rewrite findchan_det by (by rewrite (sent_graph _ _ _ Hs)). by rewrite (sent_graph _ _ _ Hs), Hf.
Qed.

Lemma c_there : c <> NULL.
Proof. by eapply chan_addr. Qed.

Lemma is_chanop_at n o nk : sent o n0 n -> is_chanop nk chan n = Some (named_in n0 (chanops ch) nk, n).
Proof.
  intros Hs. unfold is_chanop, mbind, M_bind. rewrite (found_at n o Hs). rewrite (proj2 (Z.eqb_neq _ _) c_there).
  unfold load_chan. rewrite (sent_chans _ _ _ Hs), Hc. rewrite nick_in_spec.
  - by rewrite (named_in_sent _ _ _ _ _ Hs).
  - eapply listed_valid; [exact Hs|auto].
Qed.

Lemma is_voiced_at n o nk : sent o n0 n -> is_voiced nk chan n = Some (named_in n0 (voices ch) nk, n).
Proof.
  intros Hs. unfold is_voiced, mbind, M_bind. rewrite (found_at n o Hs). rewrite (proj2 (Z.eqb_neq _ _) c_there).
  unfold load_chan. rewrite (sent_chans _ _ _ Hs), Hc. rewrite nick_in_spec.
  - by rewrite (named_in_sent _ _ _ _ _ Hs).
  - eapply listed_valid; [exact Hs|auto].
Qed.

(** What the loop has read so far, by kind. *)
Definition read (k : Kind) (l : list ptr) : list string :=
  match k with
  | KBan => []
  | KOp => names n0 (named_in n0 (chanops ch)) l
  | KNoOp => names n0 (fun nk => negb (named_in n0 (chanops ch) nk)) l
  | KVoice => names n0 (named_in n0 (voices ch)) l
  | KNoVoice => names n0 (fun nk => negb (named_in n0 (voices ch) nk)) l
  end.

Record syncing (w : Kind -> list string) (bl : list Block) (o no v nv : Batch) n : Prop := {
  sy_sent : sent (blocks_out chan bl ++ h) n0 n;
  sy_six : six_at_most bl;
  sy_ban : words_of KBan bl = w KBan;
  sy_o : waiting KOp bl (w KOp) o;
  sy_no : waiting KNoOp bl (w KNoOp) no;
  sy_v : waiting KVoice bl (w KVoice) v;
  sy_nv : waiting KNoVoice bl (w KNoVoice) nv;
  sy_short : forall k, k <> KBan -> Forall (short 31) (w k)
}.

Lemma waiting_other k k' bl bl' ws b : one_block k bl bl' -> k' <> k -> waiting k' bl ws b -> waiting k' bl' ws b.
Proof. intros [Ho _] Hk (cur & Hb & Hw & Hl). exists cur. by rewrite Ho. Qed.

Definition plus (k : Kind) (nk : string) (w : Kind -> list string) : Kind -> list string :=
  fun k' => if bool_decide (k' = k) then w k' ++ [nk] else w k'.

Lemma plus_short k nk w : (forall k, k <> KBan -> Forall (short 31) (w k)) -> short 31 nk ->
  forall k', k' <> KBan -> Forall (short 31) (plus k nk w k').
Proof.
  intros Hs Hnk k' Hk'. unfold plus. specialize (Hs k' Hk'). case_bool_decide; [|done].
  apply Forall_app. split; [done|]. constructor; [exact Hnk|constructor].
Qed.

(** One more user in one of the four batches. *)
Ltac one_more k :=
  let Hsy := fresh "Hsy" in intros Hsy Hnk HQ; destruct Hsy;
  eapply (sync_nick_spec k); [eassumption|by auto|exact Hnk|eassumption|];
  let Hob := fresh "Hob" in intros bl' b' n' Hob Hw Hs; apply (HQ bl' b'); destruct Hob as [Hoth Hsix];
  assert (Hob : one_block k _ bl') by (by split);
  split; try done; try (by auto); try (by rewrite Hoth); try (by apply (waiting_other k _ _ _ _ _ Hob));
  by apply plus_short.

Lemma push_op w bl o no v nv nk n (Q : Batch -> Net E -> Prop) : syncing w bl o no v nv n -> short 31 nk ->
  (forall bl' b' n', syncing (plus KOp nk w) bl' b' no v nv n' -> Q b' n') -> wp (sync_nick true "o" chan nk o) Q n.
Proof. one_more KOp. Qed.
Lemma push_no w bl o no v nv nk n (Q : Batch -> Net E -> Prop) : syncing w bl o no v nv n -> short 31 nk ->
  (forall bl' b' n', syncing (plus KNoOp nk w) bl' o b' v nv n' -> Q b' n') -> wp (sync_nick false "o" chan nk no) Q n.
Proof. one_more KNoOp. Qed.
Lemma push_v w bl o no v nv nk n (Q : Batch -> Net E -> Prop) : syncing w bl o no v nv n -> short 31 nk ->
  (forall bl' b' n', syncing (plus KVoice nk w) bl' o no b' nv n' -> Q b' n') -> wp (sync_nick true "v" chan nk v) Q n.
Proof. one_more KVoice. Qed.
Lemma push_nv w bl o no v nv nk n (Q : Batch -> Net E -> Prop) : syncing w bl o no v nv n -> short 31 nk ->
  (forall bl' b' n', syncing (plus KNoVoice nk w) bl' o no v b' n' -> Q b' n') -> wp (sync_nick false "v" chan nk nv) Q n.
Proof. one_more KNoVoice. Qed.

Lemma syncing_ext w w' bl o no v nv n : (forall k, w k = w' k) -> syncing w bl o no v nv n -> syncing w' bl o no v nv n.
Proof.
  intros Hw []. split; try done; rewrite <- ?Hw; try done. intros k Hk. rewrite <- Hw. auto.
Qed.

Lemma sync_users_spec w bl o no v nv l n (Q : Batch * Batch * Batch * Batch -> Net E -> Prop) :
  (forall p, p ∈ l -> exists us, users_heap n0 !! p = Some us /\ short 31 (nick us)) -> syncing w bl o no v nv n ->
  (forall bl' o' no' v' nv' n', syncing (fun k => w k ++ read k l) bl' o' no' v' nv' n' -> Q (o', no', v', nv') n') ->
  wp (sync_users chan l o no v nv) Q n.
Proof.
  revert w bl o no v nv n. induction l as [|p l IH]; intros w bl o no v nv n Hl Hsy HQ; simpl.
  - apply wp_ret. apply (HQ bl). eapply syncing_ext; [|exact Hsy]. intros []; by rewrite app_nil_r.
  - destruct (Hl p ltac:(constructor)) as (us & Hu & Hnk). apply wp_bind.
    eapply wp_load_user; [by rewrite (sent_users _ _ _ (sy_sent _ _ _ _ _ _ _ Hsy))|].
    apply wp_bind. eapply wp_intro; [eapply is_chanop_at, sy_sent; exact Hsy|].
    set (op := named_in n0 (chanops ch) (nick us)). set (voice := named_in n0 (voices ch) (nick us)).
    assert (Hread : forall k, read k (p :: l) =
      (match k with KBan => [] | KOp => if op then [nick us] else [] | KNoOp => if negb op then [nick us] else []
       | KVoice => if voice then [nick us] else [] | KNoVoice => if negb voice then [nick us] else [] end) ++ read k l).
    { intros []; simpl; [done|..]; by rewrite (names_cons n0 _ p us l Hu). }
    assert (Hlast : forall w' bl' o' no' v' nv' n', (forall k, w' k ++ read k l = w k ++ read k (p :: l)) ->
      syncing w' bl' o' no' v' nv' n' -> wp (sync_users chan l o' no' v' nv') Q n').
    { intros w' bl' o' no' v' nv' n' Hw' Hsy'. apply (IH w' bl'); [intros q Hq; apply Hl; by constructor|done|].
      intros bl2 o2 no2 v2 nv2 n2 Hsy2. apply (HQ bl2). eapply syncing_ext; [|exact Hsy2]. exact Hw'. }
    assert (Hvoice : forall w' bl' o' no' n', (forall k, w' k = w k ++ match k with KOp => if op then [nick us] else []
        | KNoOp => if negb op then [nick us] else [] | _ => [] end) -> syncing w' bl' o' no' v nv n' ->
      wp (is_voice ← is_voiced (nick us) chan;
          '(v, nv) ← ((if is_voice : bool then v ← sync_nick true "v" chan (nick us) v; mret (v, nv)
                       else nv ← sync_nick false "v" chan (nick us) nv; mret (v, nv)) : M (Net E) (Batch * Batch));
          sync_users chan l o' no' v nv) Q n').
    { intros w' bl' o' no' n' Hw' Hsy'. apply wp_bind.
      eapply wp_intro; [eapply is_voiced_at, sy_sent; exact Hsy'|]. fold voice.
      apply wp_bind. destruct voice.
      - apply wp_bind. eapply push_v; [exact Hsy'|exact Hnk|]. intros bl2 b2 n2 Hsy2. apply wp_ret. eapply Hlast; [|exact Hsy2].
        intros k. rewrite Hread. unfold plus. destruct k; simpl; rewrite ?Hw', ?app_nil_r, <- ?app_assoc; done.
      - apply wp_bind. eapply push_nv; [exact Hsy'|exact Hnk|]. intros bl2 b2 n2 Hsy2. apply wp_ret. eapply Hlast; [|exact Hsy2].
        intros k. rewrite Hread. unfold plus. destruct k; simpl; rewrite ?Hw', ?app_nil_r, <- ?app_assoc; done. }
    apply wp_bind. fold op. destruct op.
    + apply wp_bind. eapply push_op; [exact Hsy|exact Hnk|]. intros bl2 b2 n2 Hsy2. apply wp_ret. eapply Hvoice; [|exact Hsy2].
      intros []; unfold plus; simpl; by rewrite ?app_nil_r.
    + apply wp_bind. eapply push_no; [exact Hsy|exact Hnk|]. intros bl2 b2 n2 Hsy2. apply wp_ret. eapply Hvoice; [|exact Hsy2].
      intros []; unfold plus; simpl; by rewrite ?app_nil_r.
Qed.
End Users.

(** The lines before the batches, the last one first. *)
Definition line (text : string) : Msg := Cmd (Some s_ChanServ) text.
Definition verbose_lines (ci : ChanInfo) (chan text : string) : list Msg :=
  if has (ci_flags ci) CI_VERBOSE then [line ("NOTICE @" +:+ chan +:+ " :" +:+ text)] else [].
Definition mode_lines (chan : string) (ch : Channel) : list Msg :=
  (if limit ch =? 0 then [] else [line ("MODE " +:+ chan +:+ " +l :" +:+ show_int (wrap32 (limit ch)))]) ++
  match key ch with Some k => [line ("MODE " +:+ chan +:+ " +k :" +:+ k)] | None => [] end ++
  [line ("MODE " +:+ chan +:+ " +" +:+ mode_text (cmode ch));
   line ("MODE " +:+ chan +:+ " -cimMnOpRstlk :" +:+ default EmptyString (key ch))].

Lemma wp_verbose ci chan text n0 n o (Q : unit -> Net E -> Prop) : sent o n0 n ->
  (forall n', sent (verbose_lines ci chan text ++ o) n0 n' -> Q tt n') -> wp (verbose ci chan text) Q n.
Proof.
  intros Hs HQ. unfold verbose, verbose_lines in *. destruct (has _ CI_VERBOSE); [|by apply wp_ret, HQ].
  unfold opnotice. by eapply wp_send.
Qed.

Lemma sync_modes_spec chan ch n0 n o (Q : unit -> Net E -> Prop) : sent o n0 n ->
  (forall n', sent (mode_lines chan ch ++ o) n0 n' -> Q tt n') -> wp (sync_modes chan ch) Q n.
Proof.
  intros Hs HQ. unfold sync_modes. apply wp_bind. eapply wp_send; [exact Hs|]. intros n1 H1.
  apply wp_bind. eapply wp_send; [exact H1|]. intros n2 H2. apply wp_bind. unfold mode_lines in HQ.
  destruct (key ch) as [k|].
  - eapply wp_send; [exact H2|]. intros n3 H3. destruct (limit ch =? 0); simpl; [by apply wp_ret, HQ|].
    eapply wp_send; [exact H3|]. intros n4 H4. by apply HQ.
  - apply wp_ret. destruct (limit ch =? 0); simpl; [by apply wp_ret, HQ|].
    eapply wp_send; [exact H2|]. intros n4 H4. by apply HQ.
Qed.

(** The nicks and masks are as short as the servers keep them. *)
Definition sync_ready n (ch : Channel) : Prop :=
  (forall p us, p ∈ users ch -> users_heap n !! p = Some us -> short 31 (nick us)) /\
  Forall (fun ban => short 41 (mask ban)) (newbans ch).

(** The bans, with what is left of them at the end. *)
Lemma all_bans_spec chan h n n4 bans (Q : unit -> Net E -> Prop) : Forall (fun ban => short 41 (mask ban)) bans -> sent h n n4 ->
  (forall bl n6, (forall k, k <> KBan -> words_of k bl = []) -> six_at_most bl -> words_of KBan bl = map mask bans ->
     sent (blocks_out chan bl ++ h) n n6 -> Q tt n6) ->
  wp (b ← sync_bans chan bans empty_batch; send_left true chan b) Q n4.
Proof.
  intros Hbans H4 HQ. apply wp_bind. change empty_batch with (batch_of KBan (Z.of_nat (length (@nil string))) []).
  apply (sync_bans_spec chan h [] bans [] [] n); [done|simpl; lia|done|constructor|constructor|exact Hbans|exact H4|].
  intros bl1 cur n5 Hw Hl Hne [Ho1 Hs1] H5. simpl in Hw, Hne. unfold send_left. cbn [b_count batch_of]. destruct cur as [|w cur].
  - apply wp_ret. apply (HQ bl1); [by intros k Hk; rewrite Ho1|apply Hs1; constructor|by rewrite <- Hw, app_nil_r|exact H5].
  - rewrite (proj2 (Z.eqb_neq _ _)) by (simpl; lia). eapply (wp_send_batch KBan); [exact H5|]. intros n6 H6.
    destruct (one_block_snoc KBan bl1 (w :: cur)) as [Ho2 Hs2]; [simpl in *; lia|].
    apply (HQ (bl1 ++ [(KBan, w :: cur)])).
    + intros k Hk. by rewrite Ho2, Ho1.
    + apply Hs2, Hs1. constructor.
    + rewrite words_of_snoc. cbn [fst snd]. by rewrite bool_decide_true.
    + rewrite blocks_out_snoc, <- app_assoc. exact H6.
Qed.

(** The users, with what is left in the four batches. *)
Lemma all_users_spec chan c ch h n n6 bl (Q : unit -> Net E -> Prop) : heap_ok (graph_of n) -> chans_heap n !! c = Some ch ->
  g_findchan (graph_of n) chan = c -> (forall p us, p ∈ users ch -> users_heap n !! p = Some us -> short 31 (nick us)) ->
  (forall k, k <> KBan -> words_of k bl = []) -> six_at_most bl -> sent (blocks_out chan bl ++ h) n n6 ->
  (forall bl' n', words_of KBan bl' = words_of KBan bl -> (forall k, k <> KBan -> words_of k bl' = kept (read n ch k (users ch))) ->
     six_at_most bl' -> sent (blocks_out chan bl' ++ h) n n' -> Q tt n') ->
  wp ('(o, no, v, nv) ← sync_users chan (users ch) empty_batch empty_batch empty_batch empty_batch;
      send_left true chan o;; send_left false chan no;; send_left true chan v;; send_left false chan nv) Q n6.
Proof.
  intros Hg Hc Hf Hnicks Hno H6s H6 HQ.
  assert (Hsy : syncing n chan h (fun k => if bool_decide (k = KBan) then words_of KBan bl else []) bl
    empty_batch empty_batch empty_batch empty_batch n6).
  { split; try done; try (apply waiting_nil; by apply Hno). intros k Hk. by rewrite bool_decide_false. }
  apply wp_bind. eapply (sync_users_spec n chan c ch h Hg Hc Hf); [|exact Hsy|].
  { intros p Hp. assert (Hv : is_Some (users_heap n !! p)).
    { eapply (listed_valid n c ch Hg Hc n [] (users ch)); [by apply quiet_sent, quiet_refl|auto|done]. }
    destruct Hv as [pu Hpu]. exists pu. eauto. }
  clear Hsy. intros bl2 o no v2 nv n7 [Hs2 H62 Hb2 Hwo Hwno Hwv Hwnv _]. simpl in Hb2, Hwo, Hwno, Hwv, Hwnv. rewrite app_nil_r in Hb2.
  apply wp_bind. eapply (send_left_spec KOp); [exact Hwo|exact Hs2|]. intros bl3 n8 Hob3 Hk3 Hs3.
  apply wp_bind. eapply (send_left_spec KNoOp); [by eapply (waiting_other KOp)|exact Hs3|]. intros bl4 n9 Hob4 Hk4 Hs4.
  apply wp_bind. eapply (send_left_spec KVoice); [|exact Hs4|].
  { eapply (waiting_other KNoOp); [exact Hob4|done|]. by eapply (waiting_other KOp). }
  intros bl5 n10 Hob5 Hk5 Hs5. eapply (send_left_spec KNoVoice); [|exact Hs5|].
  { eapply (waiting_other KVoice); [exact Hob5|done|]. eapply (waiting_other KNoOp); [exact Hob4|done|]. by eapply (waiting_other KOp). }
  intros bl6 n11 Hob6 Hk6 Hs6.
  destruct Hob3 as [Ho3 H63], Hob4 as [Ho4 H64], Hob5 as [Ho5 H65], Hob6 as [Ho6 H66].
  apply (HQ bl6); [by rewrite Ho6, Ho5, Ho4, Ho3| |by auto|exact Hs6]. intros [] Hk; [done|..].
  - by rewrite Ho6, Ho5, Ho4.
  - by rewrite Ho6, Ho5.
  - by rewrite Ho6.
  - done.
Qed.

(** The check of a ban's length is one short: where the words and the blank come
    to 256 characters, the closing NUL is written behind the buffer. *)
Lemma sync_bans_overflow chan b1 b2 n : (1 <= String.length (mask b1))%nat -> (1 <= String.length (mask b2))%nat ->
  (String.length (mask b1) + String.length (mask b2) = 255)%nat -> sync_bans (E := E) chan [b1; b2] empty_batch n = None.
Proof.
  intros H1 H1' H2.
  assert (Hroom : forall count modes args w, (Z.of_nat (String.length args) + Z.of_nat (String.length w) + 1 <= 256) -> count <> 6 ->
    batch_full (mkBatch count modes args) w = false).
  { intros. unfold batch_full. simpl. rewrite (proj2 (Z.ltb_ge _ _)) by lia. by rewrite (proj2 (Z.eqb_neq _ _)). }
  assert (Hfirst : batch_word (E := E) "b" (mask b1) empty_batch n = Some (mkBatch 0 "b" (mask b1), n)).
  { unfold batch_word, strcat, empty_batch, mbind, M_bind, mret, M_ret. cbn [b_modes b_args b_count].
    change (String.length (EmptyString +:+ "b") <? 7)%nat with true. change (String.eqb EmptyString EmptyString) with true. cbn beta iota.
    change (EmptyString +:+ mask b1) with (mask b1). by rewrite (proj2 (Nat.ltb_lt (String.length (mask b1)) 256)) by lia. }
  assert (Hsecond : batch_word (E := E) "b" (mask b2) (mkBatch 1 "b" (mask b1)) n = None).
  { unfold batch_word, strcat, mbind, M_bind, mret, M_ret. cbn [b_modes b_args b_count]. destruct (String.eqb_spec (mask b1) EmptyString) as [E0|_];
      [by rewrite E0 in H1; simpl in H1; lia|].
    change (String.length ("b" +:+ "b") <? 7)%nat with true. cbn beta iota. rewrite !str_length_app. change (String.length " ") with 1%nat.
    rewrite (proj2 (Nat.ltb_lt (String.length (mask b1) + 1) 256)) by lia. rewrite !str_length_app. change (String.length " ") with 1%nat.
    by rewrite (proj2 (Nat.ltb_ge (String.length (mask b1) + 1 + String.length (mask b2)) 256)) by lia. }
  cbn [sync_bans]. unfold mbind, M_bind. rewrite (Hroom 0 EmptyString EmptyString) by (change (String.length EmptyString) with 0%nat; lia). unfold mret, M_ret. rewrite Hfirst.
  cbn [sync_bans]. change ((mkBatch 0 "b" (mask b1)){{b_count ::= Z.succ}}) with (mkBatch 1 "b" (mask b1)).
  unfold mbind, M_bind. rewrite (Hroom 1) by lia. unfold mret, M_ret. by rewrite Hsecond.
Qed.

End SyncSpec.

(** ** Examples *)
Module Witness.
Import Interfaces.Demo Tables ChanCmds.Witness.

End Witness.
