(* ===== verification/Part.v ===== *)
(** Components with a state of their own inside the network state.

    The network code keeps the state of all other components in [ext].  A
    component that owns a part of it is written against that part alone;
    [lift] runs such a routine inside the whole program. *)

From S2P Require Import Prelude Wp Graph Net.

Class Part (S E : Type) := {
  part : E -> S;
  with_part : S -> E -> E;
  part_with : forall s e, part (with_part s e) = s;
  with_part_self : forall e, with_part (part e) e = e;
  with_part_twice : forall s s' e, with_part s (with_part s' e) = with_part s e
}.

(** A component alone. *)
#[export, program] Instance part_self S : Part S S := {
  part := id; with_part s _ := s
}.
Solve Obligations with done.

Section Lift.
Context {S E : Type} `{!Part S E}.
Implicit Types (n : Net E).

(** [n] with the component's state replaced. *)
Definition put (s : S) n : Net E := n{{ext ::= with_part s}}.

Definition lift {A} (m : M S A) : M (Net E) A :=
  fun n => match m (part (ext n)) with
           | Some (a, s) => Some (a, put s n)
           | None => None
           end.

Definition owned n : S := part (ext n).

Lemma owned_put s n : owned (put s n) = s.
Proof. apply part_with. Qed.

Lemma put_put s s' n : put s (put s' n) = put s n.
Proof. unfold put. simpl. by rewrite with_part_twice. Qed.

Lemma put_self n : put (owned n) n = n.
Proof. unfold put, owned. simpl. rewrite with_part_self. by destruct n. Qed.

Lemma graph_put s n : graph_of (put s n) = graph_of n.
Proof. done. Qed.

Lemma wp_lift {A} (m : M S A) (Q : A -> Net E -> Prop) n :
  wp m (fun a s => Q a (put s n)) (owned n) -> wp (lift m) Q n.
Proof. unfold wp, lift, owned. by destruct (m (part (ext n))) as [[a s]|]. Qed.
End Lift.
