(* ===== verification/Servers.v ===== *)
(** The servers of the network: [src/servers.c].

    The structures of all servers form one doubly linked list; [hub], [child]
    and [sibling] make a forest of them, with a tree under each server that was
    introduced without a known hub.  [Servers] is the state of the file's
    static variables, the operations follow the code, and the second half
    proves that they are the insertion of a leaf and the removal of a subtree. *)

From S2P Require Import Prelude CStr DList Wp Graph Net Interfaces Part.

(** ** Data *)
Record Server := mkServer {
  sname : string;
  t_join : Z;
  hub : option loc;
  child : option loc;
  sibling : option loc;
  sprev : option loc;
  snext : option loc
}.

#[global, program] Instance Server_linked : Linked Server := {
  lprev := sprev; lnext := snext;
  with_prev p s := s{{sprev := p}};
  with_next p s := s{{snext := p}}
}.
Solve Obligations with done.

Record Servers := mkServers {
  sheap : gmap loc Server;
  serverlist : option loc;
  servercnt : Z;
  lastserver : option loc
}.

(** ** Operations on the list and the tree *)
Definition load (x : loc) : M Servers Server :=
  fun s => match sheap s !! x with Some sv => Some (sv, s) | None => None end.

Definition upd (x : loc) (f : Server -> Server) : M Servers unit :=
  sv ← load x; modify (fun s => s{{sheap ::= insert x (f sv)}}).

(** Relink the list of all servers. *)
Definition on_list (f : gmap loc Server -> option loc -> option (gmap loc Server * option loc))
    : M Servers unit :=
  fun s => match f (sheap s) (serverlist s) with
           | Some (h, hd) => Some (tt, s{{sheap := h; serverlist := hd}})
           | None => None
           end.

(** The routines that follow a pointer do so at most once per structure. *)
Definition steps : M Servers nat := gets (fun s => size (sheap s)).

(** [x] is the address [scalloc] returns. *)
Definition new_server (x : loc) (servername : string) : M Servers unit :=
  modify (fun s => s{{servercnt ::= fun k => wrap16 (k + 1);
                      sheap ::= insert x (mkServer servername 0 None None None None None)}});;
  on_list (fun h hd => link_head h hd x).

Definition delete_server (x : loc) : M Servers unit :=
  last ← gets lastserver;
  when (bool_decide (last = Some x)) (modify (fun s => s{{lastserver := None}}));;
  modify (fun s => s{{servercnt ::= fun k => wrap16 (k - 1)}});;
  on_list (fun h hd => unlink_node h hd x);;
  modify (fun s => s{{sheap ::= delete x}}).

Fixpoint findserver_loop (fuel : nat) (p : option loc) (servername : string)
    : M Servers (option loc) :=
  match p with
  | None => mret None
  | Some x =>
      match fuel with
      | O => fault
      | S fuel' =>
          sv ← load x;
          if stricmp servername (sname sv) =? 0 then
            modify (fun s => s{{lastserver := Some x}});; mret (Some x)
          else findserver_loop fuel' (snext sv) servername
      end
  end.

Definition findserver (servername : string) : M Servers (option loc) :=
  last ← gets lastserver;
  hit ← (match last with
         | Some l => sv ← load l; mret (stricmp servername (sname sv) =? 0)
         | None => mret false
         end);
  if hit : bool then mret last
  else hd ← gets serverlist; k ← steps; findserver_loop k hd servername.

Fixpoint last_sibling (fuel : nat) (tmp : loc) : M Servers loc :=
  sv ← load tmp;
  match sibling sv with
  | None => mret tmp
  | Some y => match fuel with O => fault | S fuel' => last_sibling fuel' y end
  end.

(** [x] becomes the last child of [y]. *)
Definition link_child (y x : loc) : M Servers unit :=
  p ← load y;
  match child p with
  | None => upd y (fun p => p{{child := Some x}})
  | Some c => k ← steps; l ← last_sibling k c; upd l (fun sv => sv{{sibling := Some x}})
  end.

(** The loop of [recursive_squit] from [server] on. *)
Fixpoint squit_loop (fuel : nat) (server : option loc) : M Servers unit :=
  match server with
  | None => mret tt
  | Some x =>
      match fuel with
      | O => fault
      | S fuel' =>
          sv ← load x;
          squit_loop fuel' (child sv);;
          sv ← load x;
          let nextserver := sibling sv in
          delete_server x;;
          squit_loop fuel' nextserver
      end
  end.

Definition recursive_squit (parent : loc) : M Servers unit :=
  p ← load parent; k ← steps; squit_loop k (child p).

Fixpoint unlink_sibling (fuel : nat) (tmp x : loc) : M Servers unit :=
  sv ← load tmp;
  match sibling sv with
  | None => mret tt
  | Some z =>
      if decide (z = x) then
        server ← load x; upd tmp (fun sv => sv{{sibling := sibling server}})
      else match fuel with O => fault | S fuel' => unlink_sibling fuel' z x end
  end.

(** Take [x] out of the children of its hub [y]. *)
Definition unlink_child (y x : loc) : M Servers unit :=
  p ← load y;
  if decide (child p = Some x) then
    server ← load x; upd y (fun p => p{{child := sibling server}})
  else
    match child p with
    | None => fault
    | Some c => k ← steps; unlink_sibling k c x
    end.

(** What [do_squit] does with the server it found. *)
Definition squit (x : loc) : M Servers unit :=
  recursive_squit x;;
  server ← load x;
  match hub server with
  | None => mret tt
  | Some y => unlink_child y x;; delete_server x
  end.

(** ** The SERVER and SQUIT messages *)
Section Handlers.
Context `{Conf} {E : Type} `{!Part Servers E}.
(** Table [quarantine]: regular expressions and reasons ([src/quarantine.c]). *)
Context (quarantine : E -> list (string * string)).
Implicit Types (n : Net E).

Definition send_sqlines : M (Net E) unit :=
  rows ← gets (fun n => quarantine (ext n));
  for_each rows (fun row =>
    send_cmd (Some s_OperServ) ("SQLINE " +:+ fst row +:+ " :" +:+ snd row)).

Definition do_server (x : loc) (source nm : string) : M (Net E) unit :=
  lift (new_server x nm);;
  t ← gets now;
  lift (upd x (fun sv => sv{{t_join := t; child := None; sibling := None}}));;
  if String.eqb source EmptyString then send_sqlines
  else
    h ← lift (findserver source);
    lift (upd x (fun sv => sv{{hub := h}}));;
    match h with
    | None =>
        emit (Wallops (Some s_OperServ)
          ("WARNING: Could not find server " +:+ BOLD +:+ source +:+ BOLD +:+
             " which is supposed to be the hub for " +:+ BOLD +:+ nm +:+ BOLD))
    | Some y => lift (link_child y x)
    end.

Definition do_squit (nm : string) : M (Net E) unit :=
  server ← lift (findserver nm);
  match server with
  | Some x => lift (squit x)
  | None => emit (Wallops (Some s_OperServ)
              ("WARNING: Tried to quit non-existent server: " +:+ BOLD +:+ nm))
  end.
End Handlers.

(** ** The list of all servers *)

(** A structure without the links of the list. *)
Definition body (sv : Server) : Server := sv{{sprev := None; snext := None}}.
Definition view (s : Servers) : gmap loc Server := body <$> sheap s.

Record listed (s : Servers) (xs : list loc) : Prop := {
  li_chain : chain (sheap s) (serverlist s) xs;
  li_nodup : NoDup xs;
  li_dom : forall x, is_Some (sheap s !! x) <-> x ∈ xs;
  li_cnt : servercnt s = wrap16 (Z.of_nat (length xs));
  li_last : forall x, lastserver s = Some x -> x ∈ xs
}.

Lemma body_unlinked : unlinked body.
Proof. done. Qed.

Lemma view_lookup s x sv : sheap s !! x = Some sv -> view s !! x = Some (body sv).
Proof. intros H. unfold view. by rewrite lookup_fmap, H. Qed.

Lemma view_inv s x b : view s !! x = Some b -> exists sv, sheap s !! x = Some sv /\ b = body sv.
Proof.
  unfold view. rewrite lookup_fmap. destruct (sheap s !! x) as [sv|]; [|done].
  intros [= <-]. by exists sv.
Qed.

Lemma wrap16_step k d : wrap16 (wrap16 k + d) = wrap16 (k + d).
Proof.
  unfold wrap16. f_equal.
  replace ((k + 2 ^ 15) mod 2 ^ 16 - 2 ^ 15 + d + 2 ^ 15) with ((k + 2 ^ 15) mod 2 ^ 16 + d) by lia.
  rewrite Z.add_mod_idemp_l by lia. f_equal. lia.
Qed.

Lemma wp_load s x sv (Q : Server -> Servers -> Prop) :
  sheap s !! x = Some sv -> Q sv s -> wp (load x) Q s.
Proof. intros Hx HQ. unfold wp, load. by rewrite Hx. Qed.

Lemma wp_load_view s x b (Q : Server -> Servers -> Prop) :
  view s !! x = Some b ->
  (forall sv, sheap s !! x = Some sv -> b = body sv -> Q sv s) -> wp (load x) Q s.
Proof. intros (sv & Hx & ->)%view_inv HQ. eapply wp_load; [done|]. by apply HQ. Qed.

(** Changing the other members of one structure. *)
Lemma upd_listed s xs x sv f :
  listed s xs -> sheap s !! x = Some sv ->
  (forall sv, sprev (f sv) = sprev sv /\ snext (f sv) = snext sv) ->
  wp (upd x f) (fun _ s' => listed s' xs /\ view s' = <[x := body (f sv)]> (view s) /\
    size (sheap s') = size (sheap s)) s.
Proof.
  intros HL Hx Hf. unfold upd. wps. eapply wp_load; [done|]. wps. simpl.
  assert (Hd : forall y, is_Some (<[x := f sv]> (sheap s) !! y) <-> y ∈ xs).
  { intros y. rewrite lookup_insert_is_Some', <- (li_dom _ _ HL).
    split; [|by right]. intros [<-|?]; [by eexists|done]. }
  split_and!.
  - split; simpl; [|apply HL|exact Hd|apply HL|apply HL].
    destruct (li_chain _ _ HL) as [last Hs]. exists last.
    eapply seg_ext; [|exact Hs]. intros y n _ Hn. destruct (decide (y = x)) as [->|Hne].
    + exists (f sv). rewrite lookup_insert_eq. rewrite Hx in Hn. injection Hn as <-.
      split; [done|]. apply Hf.
    + exists n. by rewrite lookup_insert_ne.
  - unfold view. simpl. by rewrite fmap_insert.
  - by rewrite map_size_insert_Some.
Qed.

Lemma wp_on_list s g h hd Q :
  g (sheap s) (serverlist s) = Some (h, hd) -> Q tt (s{{sheap := h; serverlist := hd}}) ->
  wp (on_list g) Q s.
Proof. intros Hg HQ. unfold wp, on_list. by rewrite Hg. Qed.

Lemma new_server_listed s xs x nm :
  listed s xs -> sheap s !! x = None ->
  wp (new_server x nm) (fun _ s' => listed s' (x :: xs) /\
    view s' = <[x := mkServer nm 0 None None None None None]> (view s)) s.
Proof.
  intros HL Hx. assert (Hnx : x ∉ xs).
  { rewrite <- (li_dom _ _ HL), Hx. by intros [? ?]. }
  unfold new_server. wps. simpl. set (b := mkServer nm 0 None None None None None).
  assert (Hc : chain (<[x := b]> (sheap s)) (serverlist s) xs).
  { destruct (li_chain _ _ HL) as [last Hs]. exists last. eapply seg_frame; [|exact Hs].
    intros y Hy. apply lookup_insert_ne. by intros ->. }
  destruct (link_head_chain _ _ _ x b Hc (li_nodup _ _ HL) Hnx) as (h' & E & Hc' & Hf);
    [by rewrite lookup_insert_eq|].
  eapply wp_on_list; [exact E|]. simpl.
  pose proof (link_head_body body _ _ _ _ _ body_unlinked E) as Hb.
  assert (Hv : body <$> h' = <[x := b]> (view s)) by (by rewrite Hb, fmap_insert).
  split; [|done]. split; simpl.
  - done.
  - constructor; [done|apply HL].
  - intros y. rewrite <- (fmap_is_Some body), <- lookup_fmap, Hv, lookup_insert_is_Some'.
    rewrite elem_of_cons, <- (li_dom _ _ HL). unfold view. rewrite lookup_fmap, fmap_is_Some.
    naive_solver.
  - rewrite (li_cnt _ _ HL), wrap16_step. f_equal. lia.
  - intros y Hy. apply elem_of_cons. right. by apply (li_last _ _ HL).
Qed.

Lemma delete_server_listed s xs x :
  listed s xs -> x ∈ xs ->
  wp (delete_server x) (fun _ s' => listed s' (unlink x xs) /\ view s' = delete x (view s)) s.
Proof.
  intros HL Hx. unfold delete_server. apply wp_bind, wp_gets, wp_bind.
  set (Q := fun s1 : Servers => sheap s1 = sheap s /\ serverlist s1 = serverlist s /\
    servercnt s1 = servercnt s /\ (forall y, lastserver s1 = Some y -> y ∈ xs /\ y <> x)).
  assert (HQ : forall s1, Q s1 -> wp (modify (fun s => s{{servercnt ::= fun k => wrap16 (k - 1)}});;
    on_list (fun h hd => unlink_node h hd x);; modify (fun s => s{{sheap ::= delete x}}))
    (fun _ s' => listed s' (unlink x xs) /\ view s' = delete x (view s)) s1).
  { intros s1 (H1 & H2 & H3 & H4). wps. destruct (list_elem_of_split _ _ Hx) as (l1 & l2 & ->).
    pose proof (li_nodup _ _ HL) as Hnd. pose proof (NoDup_middle _ _ _ Hnd) as (_ & _ & Hm1 & Hm2 & _).
    destruct (unlink_node_chain _ _ _ _ _ (li_chain _ _ HL) Hnd) as (h' & hd' & E & Hc & Hf).
    pose proof (unlink_node_body body _ _ _ _ _ body_unlinked E) as Hb.
    assert (Hu : unlink x (l1 ++ x :: l2) = l1 ++ l2).
    { clear - Hm1. induction l1 as [|y l1 IH]; simpl; [apply unlink_head|].
      apply not_elem_of_cons in Hm1 as [Hy Hm1]. unfold unlink in *. simpl.
      rewrite bool_decide_eq_false_2 by congruence. by rewrite IH. }
    rewrite Hu. eapply wp_on_list; [simpl; rewrite H1, H2; exact E|]. wps. simpl.
    split; [|unfold view; simpl; by rewrite fmap_delete, Hb]. split; simpl.
    - destruct Hc as [last Hs]. exists last. eapply seg_frame; [|exact Hs].
      intros y Hy. apply lookup_delete_ne. intros ->. by apply not_elem_of_app in Hy.
    - rewrite <- Hu. by apply unlink_NoDup.
    - intros y. rewrite lookup_delete_is_Some, <- (fmap_is_Some body), <- lookup_fmap, Hb.
      rewrite lookup_fmap, fmap_is_Some, (li_dom _ _ HL), <- Hu, elem_of_unlink by done. naive_solver.
    - rewrite H3, (li_cnt _ _ HL), <- Z.add_opp_r, wrap16_step. f_equal. rewrite !length_app. simpl. lia.
    - intros y Hy. rewrite <- Hu. apply elem_of_unlink; [done|]. by apply H4. }
  assert (HQ' : bool_decide (lastserver s = Some x) = false -> Q s).
  { intros Hb%bool_decide_eq_false. unfold Q. split_and!; try done. intros y Hy.
    split; [by apply (li_last _ _ HL)|]. intros ->. congruence. }
  apply wp_when; intros Hb; [apply wp_modify|]; apply HQ; [|by apply HQ'].
  unfold Q. simpl. by split_and!.
Qed.

(** ** The forest of servers

    The forest below a pointer: the server it points to, the servers linked
    through it, and its siblings. *)
Inductive forest := Leaf | Tree (x : loc) (kids sibs : forest).

Fixpoint nodes (f : forest) : list loc :=
  match f with Leaf => [] | Tree x k s => x :: nodes k ++ nodes s end.

(** [p] points to [f], and the servers at its top have the hub [hb]. *)
Fixpoint shape (v : gmap loc Server) (hb p : option loc) (f : forest) : Prop :=
  match f with
  | Leaf => p = None
  | Tree x k s => p = Some x /\ exists b, v !! x = Some b /\ hub b = hb /\
      shape v (Some x) (child b) k /\ shape v hb (sibling b) s
  end.

(** The servers at the top, and those behind the server [x]. *)
Fixpoint tops (f : forest) : list loc :=
  match f with Leaf => [] | Tree x _ s => x :: tops s end.
Fixpoint under (x : loc) (f : forest) : list loc :=
  match f with
  | Leaf => []
  | Tree y k s => if decide (y = x) then nodes k else under x k ++ under x s
  end.

(** [f] without [x] and what is behind it. *)
Fixpoint prune (x : loc) (f : forest) : forest :=
  match f with
  | Leaf => Leaf
  | Tree y k s => if decide (y = x) then s else Tree y (prune x k) (prune x s)
  end.

(** [f] with [g] after its last tree; with [x] as the last child of [y]. *)
Fixpoint snoc (f g : forest) : forest :=
  match f with Leaf => g | Tree x k s => Tree x k (snoc s g) end.
Fixpoint graft (y x : loc) (f : forest) : forest :=
  match f with
  | Leaf => Leaf
  | Tree z k s => if decide (z = y) then Tree z (snoc k (Tree x Leaf Leaf)) s
                  else Tree z (graft y x k) (graft y x s)
  end.

Lemma shape_frame v v' hb p f :
  (forall y, y ∈ nodes f -> v' !! y = v !! y) -> shape v hb p f -> shape v' hb p f.
Proof.
  revert hb p. induction f as [|x k IHk s IHs]; intros hb p Hf; simpl; [done|].
  intros (-> & b & Hb & Hh & Hk & Hs). split; [done|]. exists b. simpl in Hf.
  rewrite Hf by constructor. split_and!; [done|done| |].
  - apply IHk; [|done]. intros y Hy. apply Hf. set_solver.
  - apply IHs; [|done]. intros y Hy. apply Hf. set_solver.
Qed.

Lemma shape_lookup v hb p f x : shape v hb p f -> x ∈ nodes f -> is_Some (v !! x).
Proof.
  revert hb p. induction f as [|y k IHk s IHs]; intros hb p; simpl; [set_solver|].
  intros (-> & b & Hb & _ & Hk & Hs) [->|[Hx|Hx]%elem_of_app]%elem_of_cons; eauto.
Qed.

Lemma shape_head v hb p f x : shape v hb p f -> p = Some x -> x ∈ nodes f.
Proof. destruct f; simpl; [by intros -> ?|]. intros [-> _] [= ->]. constructor. Qed.

Lemma nodes_NoDup x k s :
  NoDup (nodes (Tree x k s)) <->
  x ∉ nodes k /\ x ∉ nodes s /\ NoDup (nodes k) /\ NoDup (nodes s) /\
  forall y, y ∈ nodes k -> y ∉ nodes s.
Proof. simpl. rewrite NoDup_cons, NoDup_app. set_solver. Qed.

Lemma under_subseteq x f y : y ∈ under x f -> y ∈ nodes f.
Proof.
  induction f as [|z k IHk s IHs]; simpl; [done|]. case_decide; set_solver.
Qed.

Lemma under_not_in x f : x ∉ nodes f -> under x f = [].
Proof.
  induction f as [|z k IHk s IHs]; simpl; [done|]. intros Hx.
  rewrite decide_False by set_solver. rewrite IHk, IHs by set_solver. done.
Qed.

Lemma prune_not_in x f : x ∉ nodes f -> prune x f = f.
Proof.
  induction f as [|z k IHk s IHs]; simpl; [done|]. intros Hx.
  rewrite decide_False by set_solver. by rewrite IHk, IHs by set_solver.
Qed.

Lemma tops_nodes f x : x ∈ tops f -> x ∈ nodes f.
Proof. induction f; simpl; set_solver. Qed.

Lemma tops_under f x w : NoDup (nodes f) -> x ∈ tops f -> w ∈ tops f -> w ∉ under x f.
Proof.
  induction f as [|z k _ s IHs]; [by intros _ ?%elem_of_nil|].
  intros (Hzk & Hzs & Hk & Hs & Hd)%nodes_NoDup. simpl. pose proof (tops_nodes s) as Ht.
  case_decide as Hz; [set_solver|]. intros [->|Hx]%elem_of_cons; [done|].
  rewrite (under_not_in x k) by set_solver. simpl.
  intros [->|Hw]%elem_of_cons; [|by apply IHs]. intros ?%under_subseteq. done.
Qed.

(** The nodes behind [x] form a forest of their own. *)
Lemma shape_under v hb p f x :
  shape v hb p f -> NoDup (nodes f) -> x ∈ nodes f ->
  exists k b, v !! x = Some b /\ shape v (Some x) (child b) k /\ nodes k = under x f /\
    NoDup (nodes k).
Proof.
  revert hb p. induction f as [|z k IHk s IHs]; intros hb p; [by intros _ _ ?%elem_of_nil|].
  intros (-> & b & Hb & _ & Hk & Hs) (Hzk & Hzs & Hnk & Hns & Hd)%nodes_NoDup. simpl.
  intros Hx. case_decide as Hz; [subst; by exists k, b|].
  apply elem_of_cons in Hx as [?|[Hx|Hx]%elem_of_app]; [congruence| |].
  - rewrite (under_not_in x s), app_nil_r by auto. eauto.
  - rewrite (under_not_in x k) by (intros ?; by apply (Hd x)). eauto.
Qed.

(** A server is at the top, or one of the children of its hub. *)
Lemma shape_hub v hb p f x b :
  shape v hb p f -> NoDup (nodes f) -> x ∈ nodes f -> v !! x = Some b ->
  (hub b = hb /\ x ∈ tops f) \/
  exists y by' k, hub b = Some y /\ y ∈ nodes f /\ y <> x /\ (y ∉ under x f) /\
    v !! y = Some by' /\ shape v (Some y) (child by') k /\ x ∈ tops k /\ NoDup (nodes k) /\
    forall w, w ∈ tops k -> w ∈ nodes f /\ w ∉ under x f.
Proof.
  intros Hf Hnd Hx Hb. revert hb p Hf Hnd Hx.
  induction f as [|z k IHk s IHs]; intros hb p; [by intros _ _ ?%elem_of_nil|].
  intros (-> & bz & Hbz & <- & Hk & Hs) (Hzk & Hzs & Hnk & Hns & Hd)%nodes_NoDup. simpl.
  intros [->|[Hx|Hx]%elem_of_app]%elem_of_cons.
  - left. rewrite Hb in Hbz. injection Hbz as ->. split; [done|constructor].
  - right. rewrite decide_False by set_solver. rewrite (under_not_in x s), app_nil_r by auto.
    destruct (IHk _ _ Hk Hnk Hx) as [[-> Ht]|(y & by' & k' & H)].
    + exists z, bz, k. split_and!; try done; [constructor|set_solver| |].
      * intros ?%under_subseteq. done.
      * intros w Hw. pose proof (tops_nodes _ _ Hw). split; [set_solver|by apply tops_under].
    + exists y, by', k'. destruct_and! H. split_and!; try done; [set_solver|].
      intros w Hw. set_solver.
  - rewrite decide_False by set_solver. rewrite (under_not_in x k) by set_solver. simpl.
    destruct (IHs _ _ Hs Hns Hx) as [[-> Ht]|(y & by' & k' & H)]; [left; split; [done|by constructor]|].
    right. exists y, by', k'. destruct_and! H. split_and!; try done; [set_solver|].
    intros w Hw. set_solver.
Qed.

(** A structure points to [x]; redirecting such a pointer to [q]. *)
Definition points (x : loc) (b : Server) : Prop := child b = Some x \/ sibling b = Some x.
Definition to (x : loc) (q p : option loc) : option loc := if decide (p = Some x) then q else p.
Definition redirect (x : loc) (q : option loc) (b : Server) : Server :=
  b{{child := to x q (child b); sibling := to x q (sibling b)}}.

Lemma to_other x q p : p <> Some x -> to x q p = p.
Proof. intros. unfold to. by rewrite decide_False. Qed.

Lemma redirect_other x q b : ~ points x b -> redirect x q b = b.
Proof.
  intros H. unfold redirect, points in *. rewrite !to_other by tauto. by destruct b.
Qed.

Lemma points_target v hb p f w b x :
  shape v hb p f -> w ∈ nodes f -> v !! w = Some b -> points x b -> x ∈ nodes f.
Proof.
  revert hb p. induction f as [|z k IHk s IHs]; intros hb p; [by intros _ ?%elem_of_nil|].
  intros (-> & bz & Hbz & _ & Hk & Hs). simpl. intros [->|[Hw|Hw]%elem_of_app]%elem_of_cons Hb Hp.
  - rewrite Hb in Hbz. injection Hbz as ->. destruct Hp as [Hp|Hp].
    + pose proof (shape_head _ _ _ _ _ Hk Hp). set_solver.
    + pose proof (shape_head _ _ _ _ _ Hs Hp). set_solver.
  - pose proof (IHk _ _ Hk Hw Hb Hp). set_solver.
  - pose proof (IHs _ _ Hs Hw Hb Hp). set_solver.
Qed.

(** The pointer from outside is the only one to the first server. *)
Lemma points_head v hb f w b x :
  shape v hb (Some x) f -> NoDup (nodes f) -> w ∈ nodes f -> v !! w = Some b -> ~ points x b.
Proof.
  destruct f as [|z k s]; [done|].
  intros ([= <-] & bz & Hbz & _ & Hk & Hs) (Hzk & Hzs & _)%nodes_NoDup. simpl.
  intros [->|[Hw|Hw]%elem_of_app]%elem_of_cons Hb Hp.
  - rewrite Hb in Hbz. injection Hbz as ->.
    destruct Hp as [Hp|Hp]; [by apply Hzk, (shape_head _ _ _ _ _ Hk)|by apply Hzs, (shape_head _ _ _ _ _ Hs)].
  - by pose proof (points_target _ _ _ _ _ _ _ Hk Hw Hb Hp).
  - by pose proof (points_target _ _ _ _ _ _ _ Hs Hw Hb Hp).
Qed.

Lemma points_unique v hb p f x w w' b b' :
  shape v hb p f -> NoDup (nodes f) -> w ∈ nodes f -> w' ∈ nodes f ->
  v !! w = Some b -> v !! w' = Some b' -> points x b -> points x b' -> w = w'.
Proof.
  intros Hf Hnd Hw Hw' Hb Hb' Hp Hp'. revert hb p Hf Hnd Hw Hw'.
  induction f as [|z k IHk s IHs]; intros hb p; [by intros _ _ ?%elem_of_nil|].
  intros (-> & bz & Hbz & _ & Hk & Hs) (Hzk & Hzs & Hnk & Hns & Hd)%nodes_NoDup. simpl.
  assert (Hz : forall u c, v !! u = Some c -> v !! z = Some bz -> points x bz -> points x c ->
    u ∈ nodes k \/ u ∈ nodes s -> False).
  { intros u c Hc _ [Hx|Hx] Hpc [Hu|Hu].
    - rewrite Hx in Hk. by apply (points_head _ _ _ _ _ _ Hk Hnk Hu Hc).
    - pose proof (points_target _ _ _ _ _ _ _ Hs Hu Hc Hpc). pose proof (shape_head _ _ _ _ _ Hk Hx). by apply (Hd x).
    - pose proof (points_target _ _ _ _ _ _ _ Hk Hu Hc Hpc). pose proof (shape_head _ _ _ _ _ Hs Hx). by apply (Hd x).
    - rewrite Hx in Hs. by apply (points_head _ _ _ _ _ _ Hs Hns Hu Hc). }
  intros [->|[Hw|Hw]%elem_of_app]%elem_of_cons [->|[Hw'|Hw']%elem_of_app]%elem_of_cons; eauto; try done;
    try (exfalso; rewrite ?Hb, ?Hb' in Hbz; injection Hbz as <-; eauto; fail).
  - exfalso. pose proof (points_target _ _ _ _ _ _ _ Hk Hw Hb Hp).
    pose proof (points_target _ _ _ _ _ _ _ Hs Hw' Hb' Hp'). by apply (Hd x).
  - exfalso. pose proof (points_target _ _ _ _ _ _ _ Hs Hw Hb Hp).
    pose proof (points_target _ _ _ _ _ _ _ Hk Hw' Hb' Hp'). by apply (Hd x).
Qed.

Lemma points_once v hb p f x w b :
  shape v hb p f -> NoDup (nodes f) -> w ∈ nodes f -> v !! w = Some b ->
  child b = Some x -> sibling b = Some x -> False.
Proof.
  intros Hf Hnd Hw Hb Hc Hs. revert hb p Hf Hnd Hw.
  induction f as [|z k IHk s IHs]; intros hb p; [by intros _ _ ?%elem_of_nil|].
  intros (-> & bz & Hbz & _ & Hk & Hss) (Hzk & Hzs & Hnk & Hns & Hd)%nodes_NoDup. simpl.
  intros [->|[Hw|Hw]%elem_of_app]%elem_of_cons; eauto.
  rewrite Hb in Hbz. injection Hbz as <-.
  apply (Hd x); [by eapply shape_head|by eapply shape_head].
Qed.

(** Redirecting the pointer to [x] to its sibling takes its tree out. *)
Lemma shape_prune v v' hb p f x q :
  shape v hb p f -> NoDup (nodes f) ->
  (x ∈ nodes f -> exists b, v !! x = Some b /\ q = sibling b) ->
  (forall z, z ∈ nodes f -> z <> x -> z ∉ under x f -> v' !! z = redirect x q <$> v !! z) ->
  shape v' hb (to x q p) (prune x f).
Proof.
  revert hb p. induction f as [|z k IHk s IHs]; intros hb p Hf Hnd Hq Hv; [by rewrite Hf|].
  destruct Hf as (-> & b & Hb & Hh & Hk & Hs).
  pose proof (proj1 (nodes_NoDup _ _ _) Hnd) as (Hzk & Hzs & Hnk & Hns & Hd). simpl in *.
  destruct (decide (z = x)) as [->|Hz].
  - unfold to. rewrite decide_True by done. destruct Hq as (b' & Hb' & ->); [constructor|].
    rewrite Hb in Hb'. injection Hb' as <-.
    assert (Hx : to x (sibling b) (sibling b) = sibling b).
    { apply to_other. intros ?. by apply Hzs, (shape_head _ _ _ _ _ Hs). }
    rewrite <- Hx, <- (prune_not_in x s) by done. apply IHs; [done|done|done|].
    intros y Hy Hne _. apply Hv; [set_solver|done|]. intros ?. by apply (Hd y).
  - rewrite to_other by congruence. split; [done|]. exists (redirect x q b).
    assert (Hzu : z ∉ under x k ++ under x s).
    { intros [H%under_subseteq|H%under_subseteq]%elem_of_app; done. }
    rewrite (Hv z), Hb by (done || constructor). split_and!; [done|done| |].
    + apply IHk; [done|done|intros; apply Hq; set_solver|].
      intros y Hy Hne Hu. apply Hv; [set_solver|done|].
      intros [?|H%under_subseteq]%elem_of_app; [done|]. by apply (Hd y).
    + apply IHs; [done|done|intros; apply Hq; set_solver|].
      intros y Hy Hne Hu. apply Hv; [set_solver|done|].
      intros [H%under_subseteq|?]%elem_of_app; [|done]. by apply (Hd y).
Qed.

(** ** Finding a server *)
Definition named (v : gmap loc Server) (nm : string) (x : loc) : Prop :=
  exists b, v !! x = Some b /\ stricmp nm (sname b) = 0.

Lemma listed_size s xs : listed s xs -> size (sheap s) = length xs.
Proof.
  intros HL. rewrite <- size_dom, <- (size_list_to_set (C := gset loc) xs) by apply HL.
  f_equal. apply set_eq. intros x. rewrite elem_of_dom, elem_of_list_to_set. apply HL.
Qed.

Lemma listed_fuel s xs (l : list loc) :
  listed s xs -> NoDup l -> (forall x, x ∈ l -> is_Some (view s !! x)) ->
  (length l <= size (sheap s))%nat.
Proof.
  intros HL Hnd Hl. rewrite (listed_size _ _ HL). apply submseteq_length, NoDup_submseteq; [done|].
  intros x (b & Hb)%Hl. apply (li_dom _ _ HL). apply view_inv in Hb as (sv & -> & _). by eexists.
Qed.

Lemma listed_last s xs x : listed s xs -> x ∈ xs -> listed (s{{lastserver := Some x}}) xs.
Proof. intros HL Hx. split; try apply HL. simpl. by intros y [= <-]. Qed.

(** [r] answers the search for [nm] among the servers [l]. *)
Definition found s (nm : string) (l : list loc) (r : option loc) : Prop :=
  match r with
  | Some x => x ∈ l /\ named (view s) nm x
  | None => forall x, x ∈ l -> ~ named (view s) nm x
  end.

Lemma named_iff s nm x sv : sheap s !! x = Some sv -> named (view s) nm x <-> stricmp nm (sname sv) = 0.
Proof.
  intros H. apply view_lookup in H. split; [|intros; by exists (body sv)].
  intros (b & Hb & Hn). rewrite H in Hb. by injection Hb as <-.
Qed.

Lemma findserver_loop_spec nm s last l : forall fuel pp p,
  seg (sheap s) pp p l last None -> (length l <= fuel)%nat ->
  wp (findserver_loop fuel p nm) (fun r s' => found s nm l r /\
    s' = match r with Some x => s{{lastserver := Some x}} | None => s end) s.
Proof.
  induction l as [|x l IH]; intros fuel pp p Hs Hf.
  - destruct Hs as [-> _]. destruct fuel; (apply wp_ret; split; [|done]; by intros x ?%elem_of_nil).
  - destruct Hs as (-> & sv & Hx & _ & Hs). destruct fuel as [|fuel]; [simpl in Hf; lia|].
    simpl. wps. eapply wp_load; [done|]. destruct (Z.eqb_spec (stricmp nm (sname sv)) 0) as [Hn|Hn].
    + wps. split; [|done]. split; [constructor|by apply (named_iff _ _ _ sv)].
    + eapply wp_mono; [eapply (IH fuel); [done|simpl in Hf; lia]|]. intros [y|] s' [Hr ->]; split; try done.
      * destruct Hr. split; [by constructor|done].
      * intros y [->|Hy]%elem_of_cons; [by rewrite (named_iff _ _ _ sv)|by apply Hr].
Qed.

Lemma findserver_spec s xs nm :
  listed s xs ->
  wp (findserver nm) (fun r s' => found s nm xs r /\ listed s' xs /\ view s' = view s) s.
Proof.
  intros HL. unfold findserver. wps.
  assert (Hloop : wp (hd ← gets serverlist; k ← steps; findserver_loop k hd nm)
    (fun r s' => found s nm xs r /\ listed s' xs /\ view s' = view s) s).
  { unfold steps. wps. destruct (li_chain _ _ HL) as [last Hs]. eapply wp_mono.
    - eapply findserver_loop_spec; [done|]. by rewrite (listed_size _ _ HL).
    - intros [x|] s' [Hr ->]; [|done]. split; [done|]. split; [by apply listed_last, Hr|done]. }
  destruct (lastserver s) as [l|] eqn:El; wps; [|done].
  pose proof (li_last _ _ HL _ El) as Hl. destruct (proj2 (li_dom _ _ HL _) Hl) as [sv Hsv].
  eapply wp_load; [done|]. wps. destruct (Z.eqb_spec (stricmp nm (sname sv)) 0) as [Hn|Hn]; [|done].
  wps. split; [|done]. split; [done|by apply (named_iff _ _ _ sv)].
Qed.

(** ** Quitting servers *)
Definition without (ys xs : list loc) : list loc := filter (fun x => x ∉ ys) xs.

Lemma without_nil xs : without [] xs = xs.
Proof.
  unfold without. induction xs as [|x xs IH]; [done|]. rewrite filter_cons_True; [by rewrite IH|].
  apply not_elem_of_nil.
Qed.

Lemma elem_of_without ys xs x : x ∈ without ys xs <-> x ∈ xs /\ x ∉ ys.
Proof. unfold without. rewrite list_elem_of_filter. tauto. Qed.

Lemma without_app ys zs xs : without ys (without zs xs) = without (zs ++ ys) xs.
Proof.
  unfold without. rewrite list_filter_filter. apply list_filter_iff. intros x.
  rewrite elem_of_app. tauto.
Qed.

Lemma unlink_without x xs : NoDup xs -> unlink x xs = without [x] xs.
Proof.
  induction 1 as [|y xs Hy Hnd IH]; [done|]. unfold unlink, without in *. simpl remove_first.
  case_bool_decide as H.
  - subst. rewrite filter_cons_False by (intros Hn; apply Hn; constructor).
    rewrite <- IH. symmetry. by apply unlink_not_in.
  - rewrite filter_cons_True by (intros ?%list_elem_of_singleton; done). by rewrite IH.
Qed.

Lemma squit_loop_spec f : forall fuel s xs hb p,
  listed s xs -> shape (view s) hb p f -> NoDup (nodes f) -> (length (nodes f) <= fuel)%nat ->
  wp (squit_loop fuel p) (fun _ s' => listed s' (without (nodes f) xs) /\
    forall y, view s' !! y = if decide (y ∈ nodes f) then None else view s !! y) s.
Proof.
  induction f as [|x k IHk sb IHs]; intros fuel s xs hb p HL.
  - intros -> _ _. destruct fuel; (apply wp_ret; split; [by rewrite without_nil|]);
      intros y; by rewrite decide_False by apply not_elem_of_nil.
  - intros (-> & b & Hb & _ & Hk & Hs) (Hxk & Hxs & Hnk & Hns & Hd)%nodes_NoDup Hf.
    simpl in Hf. rewrite length_app in Hf. destruct fuel as [|fuel]; [lia|]. simpl. wps.
    eapply wp_load_view; [done|]. intros sv Hx ->. wps.
    eapply wp_mono; [by eapply IHk; [done|exact Hk|done|lia]|]. intros _ s1 [HL1 Hv1]. wps.
    assert (Hx1 : view s1 !! x = Some (body sv)) by (rewrite Hv1, decide_False by done; done).
    eapply wp_load_view; [done|]. intros sv1 Hx1' Hb1. wps.
    assert (Hin : x ∈ without (nodes k) xs) by (rewrite <- (li_dom _ _ HL1), Hx1'; by eexists).
    eapply wp_mono; [by apply (delete_server_listed _ _ _ HL1)|]. intros _ s2 [HL2 Hv2].
    rewrite unlink_without, without_app in HL2 by apply HL1.
    replace (sibling sv1) with (sibling (body sv)) by (rewrite Hb1; done).
    eapply wp_mono; [eapply IHs; [done| |done|lia]|].
    + eapply shape_frame; [|exact Hs]. intros y Hy. rewrite Hv2.
      rewrite lookup_delete_ne by congruence. rewrite Hv1, decide_False; [done|]. intros ?. by apply (Hd y).
    + intros _ s3 [HL3 Hv3]. rewrite without_app in HL3. split.
      * assert (E : without (x :: nodes k ++ nodes sb) xs = without ((nodes k ++ [x]) ++ nodes sb) xs)
          by (apply list_filter_iff; intros y; rewrite !elem_of_app, elem_of_cons, list_elem_of_singleton, elem_of_app; tauto).
        simpl. by rewrite E.
      * intros y. rewrite Hv3, Hv2. simpl nodes. destruct (decide (y = x)) as [->|Hne].
        -- rewrite lookup_delete_eq, (decide_True _ _ (list_elem_of_here _ _)). by case_decide.
        -- rewrite lookup_delete_ne, Hv1 by done. assert (Hm : y ∈ x :: nodes k ++ nodes sb <->
             y ∈ nodes sb \/ y ∈ nodes k) by (rewrite elem_of_cons, elem_of_app; tauto).
           destruct (decide (y ∈ nodes sb)), (decide (y ∈ nodes k)),
             (decide (y ∈ x :: nodes k ++ nodes sb)); tauto.
Qed.

(** The structures that [sibling] links from [p] on. *)
Fixpoint row (v : gmap loc Server) (p : option loc) (l : list loc) : Prop :=
  match l with
  | [] => p = None
  | x :: l' => p = Some x /\ exists b, v !! x = Some b /\ row v (sibling b) l'
  end.

Lemma shape_row v hb p f : shape v hb p f -> row v p (tops f).
Proof.
  revert hb p. induction f as [|x k _ s IHs]; intros hb p; [done|].
  intros (-> & b & Hb & _ & _ & Hs). split; [done|]. exists b. eauto.
Qed.

Lemma row_lookup v p l : row v p l -> forall x, x ∈ l -> is_Some (v !! x).
Proof.
  revert p. induction l as [|x l IH]; intros p; [by intros _ ? ?%elem_of_nil|].
  intros (_ & b & Hb & Hl) y [->|Hy]%elem_of_cons; eauto.
Qed.

Lemma row_frame v v' p l : (forall x, x ∈ l -> v' !! x = v !! x) -> row v p l -> row v' p l.
Proof.
  revert p. induction l as [|x l IH]; intros p Hv; [done|]. intros (-> & b & Hb & Hl).
  split; [done|]. exists b. rewrite Hv by constructor. split; [done|]. apply IH; [|done].
  intros y Hy. apply Hv. by constructor.
Qed.

Lemma tops_NoDup f : NoDup (nodes f) -> NoDup (tops f).
Proof.
  induction f as [|x k _ s IHs]; [constructor|].
  intros (_ & Hx & _ & Hs & _)%nodes_NoDup. simpl. constructor; [|by apply IHs].
  intros ?%tops_nodes. done.
Qed.

(** A pointer to [x] in [w] now points to the sibling of [x], in the view [v']. *)
Definition skipped (v v' : gmap loc Server) (x w : loc) : Prop :=
  exists bw bx, v !! w = Some bw /\ v !! x = Some bx /\ w <> x /\
    (child bw = Some x /\ v' = <[w := bw{{child := sibling bx}}]> v \/
     sibling bw = Some x /\ v' = <[w := bw{{sibling := sibling bx}}]> v).

(** [upd] without the links of the list. *)
Lemma upd_view s xs x b g f :
  listed s xs -> view s !! x = Some b ->
  (forall sv, sprev (f sv) = sprev sv /\ snext (f sv) = snext sv) ->
  (forall sv, body (f sv) = g (body sv)) ->
  wp (upd x f) (fun _ s' => listed s' xs /\ view s' = <[x := g b]> (view s)) s.
Proof.
  intros HL (sv & Hx & ->)%view_inv Hf Hg. eapply wp_mono; [by apply (upd_listed s xs x sv f)|].
  intros _ s' (HL' & Hv & _). split; [done|]. by rewrite Hv, Hg.
Qed.

Lemma unlink_sibling_spec s xs x : listed s xs -> forall l fuel tmp,
  row (view s) (Some tmp) (tmp :: l) -> x ∈ l -> NoDup (tmp :: l) -> (length l <= fuel)%nat ->
  wp (unlink_sibling fuel tmp x) (fun _ s' => listed s' xs /\
    exists w, w ∈ tmp :: l /\ skipped (view s) (view s') x w) s.
Proof.
  intros HL l. induction l as [|z l IH]; intros fuel tmp; [by intros _ ?%elem_of_nil|].
  intros (_ & b & Hb & E & bz & Hbz & Hl) Hx [Htmp Hnd]%NoDup_cons Hf.
  destruct fuel as [|fuel]; simpl in Hf; [lia|]. simpl. wps.
  eapply wp_load_view; [done|]. intros sv Htv ->. simpl in E. rewrite E.
  destruct (decide (z = x)) as [->|Hz].
  - wps. eapply wp_load_view; [done|]. intros svx Hxv ->.
    eapply wp_mono; [apply (upd_view _ _ _ _ (fun sv => sv{{sibling := sibling svx}}) _ HL Hb); done|].
    intros _ s' [HL' Hv']. split; [done|]. exists tmp. split; [constructor|].
    exists (body sv), (body svx). split_and!; [done|done| |by right]. set_solver.
  - apply elem_of_cons in Hx as [?|Hx]; [congruence|].
    eapply wp_mono; [apply (IH fuel z)|]; [|done|done|lia|].
    + split; [done|]. by exists bz.
    + intros _ s' (HL' & w & Hw & Hs). split; [done|]. exists w. split; [by constructor|done].
Qed.

Lemma unlink_child_spec s xs y b l x :
  listed s xs -> view s !! y = Some b -> row (view s) (child b) l -> x ∈ l -> NoDup l -> y <> x ->
  wp (unlink_child y x) (fun _ s' => listed s' xs /\
    exists w, (w = y \/ w ∈ l) /\ skipped (view s) (view s') x w) s.
Proof.
  intros HL Hb Hl Hx Hnd Hyx. unfold unlink_child. wps.
  eapply wp_load_view; [done|]. intros sv Hsv ->. simpl in Hl.
  destruct l as [|c l]; [by apply elem_of_nil in Hx|].
  pose proof Hl as (Hc & bc & Hbc & Hl'). rewrite Hc. rewrite Hc in Hl.
  destruct (decide (Some c = Some x)) as [[= ->]|Hne].
  - wps. eapply wp_load_view; [done|]. intros svx Hxv ->.
    eapply wp_mono; [apply (upd_view _ _ _ _ (fun sv => sv{{child := sibling svx}}) _ HL Hb); done|].
    intros _ s' [HL' Hv']. split; [done|]. exists y. split; [by left|].
    exists (body sv), (body svx). split_and!; [done|done|done|by left].
  - unfold steps. wps. apply elem_of_cons in Hx as [?|Hx]; [congruence|].
    eapply wp_mono; [apply (unlink_sibling_spec _ _ _ HL l); [done|done|done|]|].
    + apply (listed_fuel _ _ _ HL); [by apply NoDup_cons in Hnd as [_ ?]|].
      intros z Hz. apply (row_lookup _ _ _ Hl). by constructor.
    + intros _ s' (HL' & w & Hw & Hs). split; [done|]. exists w. split; [by right|done].
Qed.

Lemma without_disjoint ys xs : (forall x, x ∈ xs -> x ∉ ys) -> without ys xs = xs.
Proof.
  unfold without. induction xs as [|x xs IH]; intros H; [done|].
  rewrite filter_cons_True by (apply H; constructor). f_equal. apply IH. intros y Hy.
  apply H. by constructor.
Qed.

Lemma without_all ys xs : (forall x, x ∈ xs -> x ∈ ys) -> without ys xs = [].
Proof.
  unfold without. induction xs as [|x xs IH]; intros H; [done|].
  rewrite filter_cons_False by (intros Hn; apply Hn, H; constructor). apply IH. intros y Hy.
  apply H. by constructor.
Qed.

#[global] Instance without_perm ys : Proper (Permutation ==> Permutation) (without ys).
Proof. intros l l' H. unfold without. by rewrite H. Qed.

Lemma without_distr ys xs zs : without ys (xs ++ zs) = without ys xs ++ without ys zs.
Proof. apply filter_app. Qed.

Lemma under_self x f : NoDup (nodes f) -> x ∉ under x f.
Proof.
  induction f as [|z k IHk s IHs]; [by intros _ ?%elem_of_nil|].
  intros (Hzk & Hzs & Hnk & Hns & Hd)%nodes_NoDup. simpl. case_decide as Hz; [by subst|].
  intros [?|?]%elem_of_app; [by apply IHk|by apply IHs].
Qed.

Lemma nodes_prune x f : NoDup (nodes f) -> nodes (prune x f) = without (x :: under x f) (nodes f).
Proof.
  intros Hnd. destruct (decide (x ∈ nodes f)) as [Hx|Hx].
  2:{ rewrite prune_not_in, without_disjoint; [done| |done]. intros y Hy.
      rewrite (under_not_in x f), list_elem_of_singleton by done. by intros ->. }
  revert Hnd Hx. induction f as [|z k IHk s IHs]; [by intros _ ?%elem_of_nil|].
  intros (Hzk & Hzs & Hnk & Hns & Hd)%nodes_NoDup. simpl. case_decide as Hz.
  - subst. intros _. change (x :: nodes k ++ nodes s) with ([x] ++ nodes k ++ nodes s).
    rewrite !without_distr, without_all, without_all, without_disjoint; [done| | |].
    + intros y Hy [->|Hyk]%elem_of_cons; [done|]. by apply (Hd y).
    + intros y Hy. by constructor.
    + intros y ->%list_elem_of_singleton. constructor.
  - intros [?|Hx]%elem_of_cons; [congruence|]. simpl.
    change (z :: nodes k ++ nodes s) with ([z] ++ nodes k ++ nodes s).
    rewrite !without_distr, (without_disjoint _ [z]).
    2:{ intros y ->%list_elem_of_singleton [->|[H%under_subseteq|H%under_subseteq]%elem_of_app]%elem_of_cons; done. }
    simpl. f_equal. apply elem_of_app in Hx as [Hx|Hx].
    + rewrite (under_not_in x s), app_nil_r, IHk, (prune_not_in x s) by auto. f_equal.
      symmetry. apply without_disjoint. intros y Hy [->|H%under_subseteq]%elem_of_cons; eapply Hd; eauto.
    + rewrite (under_not_in x k), IHs, (prune_not_in x k) by (auto; intros ?; by apply (Hd x)). simpl. f_equal.
      symmetry. apply without_disjoint. intros y Hy [->|H%under_subseteq]%elem_of_cons; eapply Hd; eauto.
Qed.

(** ** A sound list of servers

    The servers [xs] of the list, in order, are those of the forest [F], whose
    trees are rooted at the servers without a hub. *)
Record sound (s : Servers) (xs : list loc) (F : list forest) : Prop := {
  so_list : listed s xs;
  so_tree : forall f, f ∈ F ->
    exists r k, f = Tree r k Leaf /\ shape (view s) None (Some r) f;
  so_nodes : concat (map nodes F) ≡ₚ xs
}.

Definition behind (x : loc) (F : list forest) : list loc := concat (map (under x) F).

Lemma elem_of_forest (F : list forest) x :
  x ∈ concat (map nodes F) <-> exists f, f ∈ F /\ x ∈ nodes f.
Proof.
  induction F as [|f F IH]; simpl.
  - split; [by intros ?%elem_of_nil|]. by intros (f & ?%elem_of_nil & _).
  - rewrite elem_of_app, IH. setoid_rewrite elem_of_cons. naive_solver.
Qed.

(** The tree that holds a server, and the others, which do not. *)
Lemma sound_split s xs F x :
  sound s xs F -> x ∈ xs ->
  exists F1 f F2, F = F1 ++ f :: F2 /\ x ∈ nodes f /\ NoDup (nodes f) /\
    forall g y, g ∈ F1 ++ F2 -> y ∈ nodes f -> y ∉ nodes g.
Proof.
  intros HS Hx. rewrite <- (so_nodes _ _ _ HS) in Hx.
  apply elem_of_forest in Hx as (f & Hf & Hx). apply list_elem_of_split in Hf as (F1 & F2 & ->).
  exists F1, f, F2. split; [done|]. split; [done|].
  pose proof (li_nodup _ _ (so_list _ _ _ HS)) as Hnd. rewrite <- (so_nodes _ _ _ HS) in Hnd.
  rewrite map_app, concat_app in Hnd. simpl in Hnd.
  apply NoDup_app in Hnd as (_ & Hd & (Hnf & Hd2 & _)%NoDup_app). split; [done|].
  intros g y [Hg|Hg]%elem_of_app Hy Hyg.
  - apply (Hd y); [apply elem_of_forest; eauto|]. apply elem_of_app. by left.
  - apply (Hd2 y); [done|]. apply elem_of_forest; eauto.
Qed.

Lemma forest_away x F :
  (forall g, g ∈ F -> x ∉ nodes g) -> map (prune x) F = F /\ behind x F = [].
Proof.
  induction F as [|g F IH]; intros H; [done|]. destruct IH as [IH1 IH2].
  { intros h Hh. apply H. by constructor. }
  unfold behind in *. simpl. rewrite IH1, IH2, prune_not_in, under_not_in; [done| |]; apply H; constructor.
Qed.

Lemma behind_split F1 f F2 x :
  (forall g, g ∈ F1 ++ F2 -> x ∉ nodes g) ->
  map (prune x) (F1 ++ f :: F2) = F1 ++ prune x f :: F2 /\ behind x (F1 ++ f :: F2) = under x f.
Proof.
  intros H. unfold behind. rewrite !map_app, concat_app. simpl.
  destruct (forest_away x F1) as [-> E1]; [intros g Hg; apply H, elem_of_app; by left|].
  destruct (forest_away x F2) as [-> E2]; [intros g Hg; apply H, elem_of_app; by right|].
  unfold behind in *. by rewrite E1, E2, app_nil_r.
Qed.

(** What skipping does to the structures of the tree. *)
Lemma skipped_redirect v v0 v1 hb p f x b w :
  shape v hb p f -> NoDup (nodes f) -> v !! x = Some b -> x ∈ nodes f -> w ∈ nodes f ->
  w ∉ under x f ->
  (forall y, v0 !! y = if decide (y ∈ under x f) then None else v !! y) ->
  skipped v0 v1 x w ->
  forall z, z ∈ nodes f -> z <> x -> z ∉ under x f -> v1 !! z = redirect x (sibling b) <$> v !! z.
Proof.
  intros Hf Hnd Hb Hx Hw Hwu Hv0 (bw & bx & Hbw & Hbx & Hne & Hc) z Hz Hzx Hzu.
  rewrite Hv0, decide_False in Hbx by (by apply under_self). rewrite Hb in Hbx. injection Hbx as <-.
  rewrite Hv0, decide_False in Hbw by done.
  assert (Hpw : points x bw) by (destruct Hc as [[? _]|[? _]]; [by left|by right]).
  destruct (decide (z = w)) as [->|Hzw].
  - rewrite Hbw. simpl. pose proof (points_once _ _ _ _ x w bw Hf Hnd Hw Hbw) as Ho.
    destruct Hc as [[Hcw ->]|[Hcw ->]]; rewrite lookup_insert_eq; f_equal; unfold redirect.
    + rewrite Hcw, (to_other _ _ (sibling bw)) by auto. unfold to. rewrite decide_True by done.
      by destruct bw.
    + rewrite Hcw, (to_other _ _ (child bw)) by auto. unfold to. rewrite decide_True by done.
      by destruct bw.
  - assert (E : v1 !! z = v !! z).
    { destruct Hc as [[_ ->]|[_ ->]]; rewrite lookup_insert_ne, Hv0, decide_False by done; done. }
    rewrite E. destruct (shape_lookup _ _ _ _ _ Hf Hz) as [bz Hbz]. rewrite Hbz. simpl. f_equal.
    symmetry. apply redirect_other. intros Hp. apply Hzw. by eapply points_unique.
Qed.

(** The structures behind a server, deleted. *)
Lemma recursive_squit_spec s xs F F1 f F2 x :
  sound s xs F -> F = F1 ++ f :: F2 -> x ∈ nodes f -> NoDup (nodes f) ->
  wp (recursive_squit x) (fun _ s' => listed s' (without (under x f) xs) /\
    forall y, view s' !! y = if decide (y ∈ under x f) then None else view s !! y) s.
Proof.
  intros HS -> Hx Hnd. destruct (so_tree _ _ _ HS f) as (r & k0 & -> & Hf); [set_solver|].
  destruct (shape_under _ _ _ _ _ Hf Hnd Hx) as (k & b & Hb & Hk & <- & Hnk).
  unfold recursive_squit, steps. wps. eapply wp_load_view; [done|]. intros sv Hsv ->. wps.
  eapply squit_loop_spec; [apply HS|exact Hk|done|].
  apply (listed_fuel _ _ _ (so_list _ _ _ HS)); [done|].
  intros y Hy. by eapply shape_lookup.
Qed.

(** A state in which the subtree is gone and nothing else has changed. *)
Lemma pruned_sound s s' xs F F1 f F2 x b :
  sound s xs F -> F = F1 ++ f :: F2 -> x ∈ nodes f -> NoDup (nodes f) ->
  (forall g y, g ∈ F1 ++ F2 -> y ∈ nodes f -> y ∉ nodes g) ->
  view s !! x = Some b -> hub b <> None ->
  listed s' (without (x :: under x f) xs) ->
  (forall z, z ∉ nodes f -> view s' !! z = view s !! z) ->
  (forall z, z ∈ nodes f -> z <> x -> z ∉ under x f ->
     view s' !! z = redirect x (sibling b) <$> view s !! z) ->
  sound s' (without (x :: under x f) xs) (F1 ++ prune x f :: F2).
Proof.
  intros HS HF Hxf Hnd Hd Hb Hh HL Hout Hin.
  destruct (so_tree _ _ _ HS f) as (r & k & Ef & Hf); [rewrite HF; set_solver|].
  split; [done| |].
  - assert (Hg : forall g, g ∈ F1 ++ F2 -> exists r k, g = Tree r k Leaf /\ shape (view s') None (Some r) g).
    { intros g Hg. destruct (so_tree _ _ _ HS g) as (rg & kg & -> & Hg'); [rewrite HF; set_solver|].
      exists rg, kg. split; [done|]. eapply shape_frame; [|exact Hg']. intros z Hz. apply Hout.
      intros Hzf. by eapply Hd. }
    intros g [?|[->|?]%elem_of_cons]%elem_of_app; [apply Hg, elem_of_app; by left| |apply Hg, elem_of_app; by right].
    assert (Hs' : shape (view s') None (to x (sibling b) (Some r)) (prune x f)).
    { eapply shape_prune; [exact Hf|done|by exists b|done]. }
    rewrite Ef in Hf, Hs' |- *. destruct Hf as (_ & b' & Hb' & E & _). simpl in Hs' |- *.
    rewrite decide_False in Hs' |- * by (intros ->; rewrite Hb in Hb'; congruence).
    rewrite to_other in Hs' by (intros [= ->]; rewrite Hb in Hb'; congruence). eauto.
  - rewrite <- (so_nodes _ _ _ HS), HF, !map_app, !concat_app. simpl.
    rewrite !without_distr, nodes_prune by done.
    assert (Hdis : forall G, (forall g, g ∈ G -> g ∈ F1 ++ F2) ->
      without (x :: under x f) (concat (map nodes G)) = concat (map nodes G)).
    { intros G HG. apply without_disjoint. intros z (g & Hg & Hz)%elem_of_forest.
      intros [->|Hu%under_subseteq]%elem_of_cons; eapply Hd; eauto. }
    rewrite (Hdis F1), (Hdis F2) by (intros g Hg; apply elem_of_app; auto). done.
Qed.

Lemma squit_spec s xs F x b :
  sound s xs F -> x ∈ xs -> view s !! x = Some b -> hub b <> None ->
  wp (squit x) (fun _ s' => sound s' (without (x :: behind x F) xs) (map (prune x) F) /\
    forall z, z ∈ without (x :: behind x F) xs -> sname <$> view s' !! z = sname <$> view s !! z) s.
Proof.
  intros HS Hx Hb Hh. destruct (sound_split _ _ _ _ HS Hx) as (F1 & f & F2 & HF & Hxf & Hnd & Hd).
  destruct (behind_split F1 f F2 x) as [Hp Hbh]; [intros g Hg; by apply (Hd g)|].
  rewrite <- HF in Hp, Hbh. rewrite Hp, Hbh.
  unfold squit. wps. eapply wp_mono; [by eapply recursive_squit_spec|]. intros _ s1 [HL1 Hv1]. wps.
  destruct (so_tree _ _ _ HS f) as (r & k & _ & Hf); [rewrite HF; set_solver|].
  assert (Hxu : x ∉ under x f) by (by apply under_self).
  assert (Hb1 : view s1 !! x = Some b) by (rewrite Hv1, decide_False; done).
  eapply wp_load_view; [done|]. intros sv Hsv Esv.
  destruct (hub sv) as [y|] eqn:Ey; [|by rewrite Esv in Hh]. wps.
  destruct (shape_hub _ _ _ _ _ _ Hf Hnd Hxf Hb) as [[E _]|(y' & by' & ky & E & Hy & Hyx & Hyu & Hby & Hky & Ht & Hnt & Htu)];
    [congruence|].
  assert (y' = y) as -> by (rewrite Esv in E; simpl in E; congruence).
  assert (Hrow : row (view s1) (child by') (tops ky)).
  { eapply row_frame; [|by eapply shape_row]. intros z Hz. rewrite Hv1, decide_False; [done|]. by apply Htu. }
  eapply wp_mono; [eapply unlink_child_spec; [done| |exact Hrow|done|by apply tops_NoDup|done]|].
  { by rewrite Hv1, decide_False. }
  intros _ s2 (HL2 & w & Hw & Hsk).
  assert (Hwf : w ∈ nodes f /\ w ∉ under x f) by (destruct Hw as [->|Hw]; auto).
  assert (Hx2 : x ∈ without (under x f) xs) by (by apply elem_of_without).
  eapply wp_mono; [by apply delete_server_listed|]. intros _ s3 [HL3 Hv3].
  rewrite unlink_without, without_app in HL3 by apply HL2.
  assert (Hout : forall z, z ∉ nodes f -> view s3 !! z = view s !! z).
  { intros z Hz. rewrite Hv3, lookup_delete_ne by congruence.
    assert (Hzu : z ∉ under x f) by (by intros ?%under_subseteq).
    destruct Hsk as (bw & bx & _ & _ & _ & [[_ ->]|[_ ->]]);
      rewrite lookup_insert_ne, Hv1, decide_False by (done || (intros ->; tauto)); done. }
  assert (Hin : forall z, z ∈ nodes f -> z <> x -> z ∉ under x f ->
    view s3 !! z = redirect x (sibling b) <$> view s !! z).
  { intros z Hz Hzx Hzu. rewrite Hv3, lookup_delete_ne by done.
    eapply skipped_redirect; [exact Hf|done|done|done|apply Hwf|apply Hwf|done|done|done|done|done]. }
  split; [eapply pruned_sound; try done|].
  - assert (E3 : without (x :: under x f) xs = without (under x f ++ [x]) xs); [|by rewrite E3].
    apply list_filter_iff. intros z. rewrite elem_of_cons, elem_of_app, list_elem_of_singleton. tauto.
  - intros z [_ [Hzx Hzu]%not_elem_of_cons]%elem_of_without.
    destruct (decide (z ∈ nodes f)) as [Hz|Hz]; [|by rewrite Hout]. rewrite Hin by done.
    by destruct (view s !! z).
Qed.

(** ** A new server *)

(** The forest of the servers linked through [y]. *)
Fixpoint kids (y : loc) (f : forest) : forest :=
  match f with
  | Leaf => Leaf
  | Tree z k s => if decide (z = y) then k else if decide (y ∈ nodes k) then kids y k else kids y s
  end.

(** [x] is behind the last child of [y], whose children are [k]. *)
Definition attached (v v' : gmap loc Server) (y x : loc) (k : forest) : Prop :=
  match last (tops k) with
  | None => exists b, v !! y = Some b /\ v' = <[y := b{{child := Some x}}]> v
  | Some l => exists b, v !! l = Some b /\ v' = <[l := b{{sibling := Some x}}]> v
  end.

Lemma attached_other v v' y x k z :
  attached v v' y x k -> z <> y -> z ∉ nodes k -> v' !! z = v !! z.
Proof.
  unfold attached. destruct (last (tops k)) as [l|] eqn:E; intros (b & _ & ->) Hz Hk.
  - apply lookup_insert_ne. intros ->. apply Hk, tops_nodes. by apply last_Some_elem_of.
  - by apply lookup_insert_ne.
Qed.

Lemma kids_nodes y f z : z ∈ nodes (kids y f) -> z ∈ nodes f.
Proof.
  induction f as [|u k IHk s IHs]; simpl; [done|]. rewrite elem_of_cons, elem_of_app.
  repeat case_decide; auto.
Qed.

Lemma shape_kids v hb p f y :
  shape v hb p f -> NoDup (nodes f) -> y ∈ nodes f ->
  exists b, v !! y = Some b /\ shape v (Some y) (child b) (kids y f) /\ NoDup (nodes (kids y f)) /\
    y ∉ nodes (kids y f).
Proof.
  revert hb p. induction f as [|z k IHk s IHs]; intros hb p; [by intros _ _ ?%elem_of_nil|].
  intros (-> & b & Hb & _ & Hk & Hs) (Hzk & Hzs & Hnk & Hns & Hd)%nodes_NoDup. simpl.
  intros Hy. destruct (decide (z = y)) as [->|Hzy]; [eauto 6|].
  apply elem_of_cons in Hy as [?|Hy]; [congruence|]. apply elem_of_app in Hy.
  case_decide as Hyk; [eauto|]. destruct Hy as [?|Hy]; [done|eauto].
Qed.

Lemma graft_not_in y x f : y ∉ nodes f -> graft y x f = f.
Proof.
  induction f as [|z k IHk s IHs]; simpl; [done|].
  intros [Hz [Hk Hs]%not_elem_of_app]%not_elem_of_cons.
  rewrite decide_False by congruence. by rewrite IHk, IHs.
Qed.

Lemma shape_snoc v hb p k g l b x :
  shape v hb p k -> NoDup (nodes k) -> last (tops k) = Some l -> v !! l = Some b ->
  shape (<[l := b{{sibling := Some x}}]> v) hb (Some x) g ->
  shape (<[l := b{{sibling := Some x}}]> v) hb p (snoc k g).
Proof.
  intros Hk Hnd Hl Hb Hg. revert hb p Hk Hnd Hl Hg.
  induction k as [|z kk _ s IHs]; intros hb p; [done|].
  intros (-> & bz & Hbz & Hh & Hk & Hs) (Hzk & Hzs & Hnk & Hns & Hd)%nodes_NoDup Hl Hg.
  simpl. split; [done|]. destruct s as [|z' k' s'].
  - simpl in Hl. injection Hl as <-. rewrite Hbz in Hb. injection Hb as ->.
    exists (b{{sibling := Some x}}). rewrite lookup_insert_eq. split_and!; [done|done| |done].
    eapply shape_frame; [|exact Hk]. intros y Hy. apply lookup_insert_ne. by intros ->.
  - change (last (tops (Tree z' k' s')) = Some l) in Hl.
    assert (Hls : l ∈ nodes (Tree z' k' s')) by (by apply tops_nodes, last_Some_elem_of).
    exists bz. rewrite lookup_insert_ne by (intros ->; done). split_and!; [done|done| |by apply IHs].
    eapply shape_frame; [|exact Hk]. intros y Hy. apply lookup_insert_ne. intros ->. by apply (Hd y).
Qed.

Lemma shape_graft v v' hb p f y x bx :
  shape v hb p f -> NoDup (nodes f) -> y ∈ nodes f -> x ∉ nodes f ->
  v !! x = Some bx -> hub bx = Some y -> child bx = None -> sibling bx = None ->
  attached v v' y x (kids y f) -> shape v' hb p (graft y x f).
Proof.
  intros Hf Hnd Hy Hx Hbx Hh Hc Hsb. revert hb p Hf Hnd Hy Hx.
  induction f as [|z k IHk s IHs]; intros hb p; [by intros _ _ ?%elem_of_nil|].
  intros (-> & b & Hb & Hhb & Hk & Hs) (Hzk & Hzs & Hnk & Hns & Hd)%nodes_NoDup Hy
    [Hxz [Hxk Hxs]%not_elem_of_app]%not_elem_of_cons. simpl.
  destruct (decide (z = y)) as [->|Hzy]; intros Ha.
  - assert (Hs' : shape v' hb (sibling b) s).
    { eapply shape_frame; [|exact Hs]. intros u Hu. eapply attached_other; [done|congruence|].
      intros ?. by apply (Hd u). }
    assert (Hg : shape v' (Some y) (Some x) (Tree x Leaf Leaf)).
    { split; [done|]. exists bx. erewrite attached_other by done. done. }
    unfold attached in Ha. destruct (last (tops k)) as [l|] eqn:El; destruct Ha as (b' & Hb' & ->); simpl.
    + split; [done|]. exists b. assert (l <> y) by (intros ->; by apply Hzk, tops_nodes, last_Some_elem_of).
      rewrite lookup_insert_ne by done. split_and!; [done|done|by apply shape_snoc|done].
    + rewrite Hb in Hb'. injection Hb' as <-. split; [done|]. exists (b{{child := Some x}}).
      rewrite lookup_insert_eq. split_and!; [done|done| |done].
      destruct k as [|u ku su]; [done|]. by apply last_None in El.
  - apply elem_of_cons in Hy as [?|Hy]; [congruence|]. split; [done|]. exists b.
    case_decide as Hyk.
    + pose proof (kids_nodes y k) as Hkn.
      assert (Hoth : forall u, u ∉ nodes k -> v' !! u = v !! u).
      { intros u Hu. eapply attached_other; [done|by intros ->|auto]. }
      rewrite Hoth by done. split_and!; [done|done|by apply IHk|].
      rewrite graft_not_in by auto. eapply shape_frame; [|exact Hs]. intros u Hu. apply Hoth. intros ?. by apply (Hd u).
    + apply elem_of_app in Hy as [?|Hy]; [done|]. pose proof (kids_nodes y s) as Hkn.
      assert (Hoth : forall u, u ∉ nodes s -> v' !! u = v !! u).
      { intros u Hu. eapply attached_other; [done|by intros ->|auto]. }
      rewrite Hoth by done. split_and!; [done|done| |by apply IHs].
      rewrite graft_not_in by auto. eapply shape_frame; [|exact Hk]. intros u Hu. apply Hoth. by apply Hd.
Qed.

Lemma last_sibling_spec s : forall l fuel c,
  row (view s) (Some c) (c :: l) -> (length l <= fuel)%nat ->
  wp (last_sibling fuel c) (fun r s' => s' = s /\ last (c :: l) = Some r) s.
Proof.
  induction l as [|z l IH]; intros fuel c (_ & b & Hb & Hl) Hf.
  - destruct fuel; simpl; wps; (eapply wp_load_view; [done|]); intros sv _ ->;
      simpl in Hl; rewrite Hl; done.
  - pose proof Hl as (E & _). destruct fuel as [|fuel]; simpl in Hf; [lia|]. simpl. wps.
    eapply wp_load_view; [done|]. intros sv _ ->. simpl in E. rewrite E. simpl in Hl. rewrite E in Hl.
    eapply wp_mono; [apply (IH fuel z Hl); lia|]. intros r s' [-> Hr]. done.
Qed.

Lemma link_child_spec s xs y x b k :
  listed s xs -> view s !! y = Some b -> shape (view s) (Some y) (child b) k -> NoDup (nodes k) ->
  wp (link_child y x) (fun _ s' => listed s' xs /\ attached (view s) (view s') y x k) s.
Proof.
  intros HL Hb Hk Hnd. unfold link_child, attached. wps.
  eapply wp_load_view; [done|]. intros sv Hsv ->. simpl in Hk.
  pose proof (shape_row _ _ _ _ Hk) as Hrow. pose proof (tops_NoDup _ Hnd) as Hnt.
  destruct (tops k) as [|c l] eqn:Et.
  - simpl in Hrow. rewrite Hrow.
    eapply wp_mono; [apply (upd_view _ _ _ _ (fun p => p{{child := Some x}}) _ HL Hb); done|].
    intros _ s' [HL' Hv']. split; [done|]. by exists (body sv).
  - pose proof Hrow as (Hc & _). rewrite Hc in Hrow |- *. unfold steps. wps.
    pose proof (row_lookup _ _ _ Hrow) as Hrl.
    eapply wp_mono; [eapply last_sibling_spec; [exact Hrow|]|].
    { apply (listed_fuel _ _ _ HL); [by apply NoDup_cons in Hnt as [_ ?]|].
      intros z Hz. apply Hrl. by constructor. }
    intros w s' [-> Hw]. rewrite Hw. assert (Hin : w ∈ c :: l) by (by apply last_Some_elem_of).
    destruct (Hrl _ Hin) as [bw Hbw].
    eapply wp_mono; [apply (upd_view _ _ _ _ (fun p => p{{sibling := Some x}}) _ HL Hbw); done|].
    intros _ s' [HL' Hv']. split; [done|]. by exists bw.
Qed.

Lemma nodes_snoc k g : nodes (snoc k g) ≡ₚ nodes k ++ nodes g.
Proof.
  induction k as [|z kk _ s IHs]; [done|]. simpl. by rewrite IHs, (assoc_L (++)).
Qed.

Lemma nodes_graft y x f : NoDup (nodes f) -> y ∈ nodes f -> nodes (graft y x f) ≡ₚ x :: nodes f.
Proof.
  induction f as [|z k IHk s IHs]; [by intros _ ?%elem_of_nil|].
  intros (Hzk & Hzs & Hnk & Hns & Hd)%nodes_NoDup Hy. simpl.
  destruct (decide (z = y)) as [->|Hz]; simpl.
  - rewrite nodes_snoc. simpl. rewrite <- (assoc_L (++)). simpl.
    rewrite (Permutation_app_comm (nodes k) (x :: nodes s)). simpl.
    rewrite (Permutation_app_comm (nodes s) (nodes k)). constructor.
  - apply elem_of_cons in Hy as [?|[Hy|Hy]%elem_of_app]; [congruence| |].
    + rewrite IHk, (graft_not_in y x s) by (auto; intros ?; by apply (Hd y)). simpl. constructor.
    + rewrite IHs, (graft_not_in y x k) by (auto; intros ?; by apply (Hd y)).
      rewrite <- Permutation_middle. constructor.
Qed.

Lemma sound_lookup s xs F x : sound s xs F -> x ∉ xs -> view s !! x = None.
Proof.
  intros HS Hx. unfold view. rewrite lookup_fmap. destruct (sheap s !! x) as [sv|] eqn:E; [|done].
  exfalso. apply Hx, (li_dom _ _ (so_list _ _ _ HS)). by eexists.
Qed.

Lemma sound_fresh s xs F f x : sound s xs F -> x ∉ xs -> f ∈ F -> x ∉ nodes f.
Proof.
  intros HS Hx Hf Hn. apply Hx. rewrite <- (so_nodes _ _ _ HS). apply elem_of_forest. eauto.
Qed.

(** A server without a hub is the root of a new tree. *)
Lemma sound_root s s' xs F x b :
  sound s xs F -> x ∉ xs -> listed s' (x :: xs) -> view s' = <[x := b]> (view s) ->
  hub b = None -> child b = None -> sibling b = None -> sound s' (x :: xs) (Tree x Leaf Leaf :: F).
Proof.
  intros HS Hx HL Hv Hh Hc Hs. split; [done| |simpl; by rewrite (so_nodes _ _ _ HS)].
  intros f [->|Hf]%elem_of_cons.
  - exists x, Leaf. split; [done|]. split; [done|]. exists b. by rewrite Hv, lookup_insert_eq.
  - destruct (so_tree _ _ _ HS f Hf) as (r & k & -> & Hsh). exists r, k. split; [done|].
    eapply shape_frame; [|exact Hsh]. intros z Hz. rewrite Hv. apply lookup_insert_ne.
    intros ->. by apply (sound_fresh _ _ _ _ _ HS Hx Hf).
Qed.

(** A server linked behind the last child of its hub. *)
Lemma sound_graft s v s' xs F F1 f F2 x y b :
  sound s xs F -> x ∉ xs -> F = F1 ++ f :: F2 -> y ∈ nodes f -> NoDup (nodes f) ->
  (forall g z, g ∈ F1 ++ F2 -> z ∈ nodes f -> z ∉ nodes g) ->
  v = <[x := b]> (view s) -> hub b = Some y -> child b = None -> sibling b = None ->
  listed s' (x :: xs) -> attached v (view s') y x (kids y f) ->
  sound s' (x :: xs) (map (graft y x) F).
Proof.
  intros HS Hx HF Hy Hnd Hd Hv Hh Hc Hs HL Ha.
  assert (HfF : f ∈ F) by (rewrite HF; set_solver).
  assert (Hg : forall g, g ∈ F1 ++ F2 -> graft y x g = g).
  { intros g Hg. apply graft_not_in. by apply (Hd g y). }
  assert (HFr : forall g z, g ∈ F -> z ∈ nodes g -> v !! z = view s !! z).
  { intros g z HgF Hz. rewrite Hv. apply lookup_insert_ne. intros ->. by apply (sound_fresh _ _ _ _ _ HS Hx HgF). }
  assert (EF : map (graft y x) F = F1 ++ graft y x f :: F2).
  { rewrite HF, map_app. simpl. f_equal; [|f_equal]; rewrite <- map_id; apply map_ext_in;
      intros g Hgi%list_elem_of_In; apply Hg, elem_of_app; auto. }
  rewrite EF. split; [done| |].
  - intros g Hgf. assert (Hc' : g = graft y x f \/ g ∈ F1 ++ F2) by set_solver. clear Hgf.
    destruct Hc' as [->|HgF].
    + destruct (so_tree _ _ _ HS f HfF) as (r & k & Ef & Hsh).
      assert (Hsh' : shape (view s') None (Some r) (graft y x f)).
      { eapply shape_graft; [|done|done|by eapply sound_fresh| |exact Hh|done|done|exact Ha].
        - eapply shape_frame; [|exact Hsh]. eauto.
        - by rewrite Hv, lookup_insert_eq. }
      rewrite Ef in Hsh' |- *. simpl in Hsh' |- *. case_decide; eauto.
    + destruct (so_tree _ _ _ HS g) as (r & k & -> & Hsh); [rewrite HF; set_solver|].
      exists r, k. split; [done|]. eapply shape_frame; [|exact Hsh]. intros z Hz.
      rewrite (attached_other _ _ _ _ _ z Ha); [apply (HFr (Tree r k Leaf)); [rewrite HF; set_solver|done]| |].
      * intros ->. by eapply Hd.
      * intros Hzk%kids_nodes. by eapply Hd.
  - rewrite <- (so_nodes _ _ _ HS), HF, !map_app, !concat_app. simpl.
    rewrite nodes_graft by done. simpl. by rewrite <- Permutation_middle.
Qed.

(** The names of the servers. *)
Definition names (s : Servers) : gmap loc string := sname <$> sheap s.

Lemma names_view s : names s = sname <$> view s.
Proof. unfold names, view. rewrite <- map_fmap_compose. apply map_fmap_ext. done. Qed.

Lemma names_insert s s' x b : view s' = <[x := b]> (view s) -> names s' = <[x := sname b]> (names s).
Proof. intros Hv. by rewrite !names_view, Hv, fmap_insert. Qed.

Lemma attached_names v v' y x k : attached v v' y x k -> sname <$> v' = sname <$> v.
Proof.
  unfold attached. destruct (last (tops k)) as [l|]; intros (b & Hb & ->);
    rewrite fmap_insert; apply insert_id; by rewrite lookup_fmap, Hb.
Qed.

(** ** The messages *)
Section Messages.
Context `{Conf} {E : Type} `{!Part Servers E} (quarantine : E -> list (string * string)).
Implicit Types (n : Net E).

(** Where the new server [x] belongs: a root when no server known is called
    [source], otherwise the last child of one that is. *)
Definition joined (s : Servers) (xs : list loc) (source : string) (x : loc) (F F' : list forest) : Prop :=
  (source = EmptyString \/ forall y, y ∈ xs -> ~ named (view s) source y) /\ F' = Tree x Leaf Leaf :: F \/
  source <> EmptyString /\ exists y, y ∈ xs /\ named (view s) source y /\ F' = map (graft y x) F.

Lemma send_sqlines_owned n :
  wp (send_sqlines quarantine) (fun _ n' => ext n' = ext n /\ graph_of n' = graph_of n) n.
Proof.
  unfold send_sqlines. wps. apply wp_for_each; [done|]. intros row n' _ Hn'.
  unfold send_cmd, emit. wps. done.
Qed.

(** Introducing the structure, up to the search for the hub. *)
Lemma introduced (s : Servers) xs F x nm t :
  sound s xs F -> sheap s !! x = None -> x ∉ xs ->
  wp (new_server x nm;; upd x (fun sv => sv{{t_join := t; child := None; sibling := None}}))
    (fun _ s' => listed s' (x :: xs) /\
       view s' = <[x := mkServer nm t None None None None None]> (view s)) s.
Proof.
  intros HS Hx Hnx. wps. eapply wp_mono; [by apply new_server_listed; [apply HS|]|]. intros _ s1 [HL1 Hv1].
  eapply wp_mono; [apply (upd_view _ _ _ (mkServer nm 0 None None None None None)
    (fun sv => sv{{t_join := t; child := None; sibling := None}}) _ HL1)|]; try done.
  { by rewrite Hv1, lookup_insert_eq. }
  intros _ s2 [HL2 Hv2]. split; [done|]. by rewrite Hv2, Hv1, insert_insert_eq.
Qed.

(** The new structure is linked to a hub that is known. *)
Lemma linked_sound s s' xs F x y b :
  sound s xs F -> x ∉ xs -> y ∈ xs -> listed s' (x :: xs) -> view s' = <[x := b]> (view s) ->
  hub b = Some y -> child b = None -> sibling b = None ->
  wp (link_child y x) (fun _ s'' => sound s'' (x :: xs) (map (graft y x) F) /\
    names s'' = <[x := sname b]> (names s)) s'.
Proof.
  intros HS Hnx Hy HL Hv Hh Hc Hs.
  destruct (sound_split _ _ _ _ HS Hy) as (F1 & f & F2 & HF & Hyf & Hnd & Hd).
  destruct (so_tree _ _ _ HS f) as (rt & k & _ & Hf); [rewrite HF; set_solver|].
  assert (Hfr : forall z, z ∈ nodes f -> view s' !! z = view s !! z).
  { intros z Hz. rewrite Hv. apply lookup_insert_ne. intros ->.
    eapply (sound_fresh _ _ _ f); [exact HS|done|rewrite HF; set_solver|done]. }
  destruct (shape_kids (view s') None (Some rt) f y) as (b' & Hb & Hk & Hnk & _);
    [by eapply shape_frame|done|done|].
  eapply wp_mono; [by eapply link_child_spec|]. intros _ s'' [HL'' Ha]. split.
  - eapply (sound_graft s (view s') s''); try done; exact Hv || done.
  - rewrite names_view, (attached_names _ _ _ _ _ Ha), <- names_view. by apply names_insert.
Qed.

(** SERVER puts the new server where it belongs: every server keeps its name
    and its place, the list and the forest stay sound, and no user or channel
    is touched; the search for a hub finds nothing or a server of that name. *)
Theorem do_server_correct n x source nm xs F
    (HS : sound (owned n) xs F) (Hx : sheap (owned n) !! x = None)
    (Hne : stricmp source nm <> 0) :
  wp (do_server quarantine x source nm) (fun _ n' => exists F',
    sound (owned n') (x :: xs) F' /\ joined (owned n) xs source x F F' /\
    names (owned n') = <[x := nm]> (names (owned n)) /\ graph_of n' = graph_of n) n.
Proof.
  assert (Hnx : x ∉ xs).
  { rewrite <- (li_dom _ _ (so_list _ _ _ HS)), Hx. by intros [? ?]. }
  unfold do_server.
  pose proof (introduced _ _ _ _ nm (now n) HS Hx Hnx) as Hi.
  apply wp_bind in Hi. apply wp_bind, wp_lift. eapply wp_mono; [exact Hi|]. clear Hi.
  intros [] s1 Hi. wps. apply wp_lift. rewrite owned_put.
  eapply wp_mono; [exact Hi|]. clear Hi. intros _ s2 [HL Hv]. rewrite put_put.
  set (b0 := mkServer nm (now n) None None None None None) in *.
  assert (Hnames : names s2 = <[x := nm]> (names (owned n))) by (by rewrite (names_insert (owned n) s2 x b0)).
  destruct (String.eqb_spec source EmptyString) as [Hs|Hs].
  { eapply wp_mono; [apply send_sqlines_owned|]. intros _ n' [He Hg]. exists (Tree x Leaf Leaf :: F).
    unfold owned at 1 3. rewrite He. change (part (ext (put s2 n))) with (owned (S := Servers) (put s2 n)).
    rewrite owned_put. split_and!; [by eapply sound_root|left; auto|done|done]. }
  wps. apply wp_lift. rewrite owned_put. eapply wp_mono; [by apply findserver_spec|].
  intros r s3 (Hr & HL3 & Hv3). rewrite put_put. wps. apply wp_lift. rewrite owned_put.
  assert (Hx3 : view s3 !! x = Some b0) by (by rewrite Hv3, Hv, lookup_insert_eq).
  eapply wp_mono; [apply (upd_view _ _ _ _ (fun sv => sv{{hub := r}}) _ HL3 Hx3); done|].
  intros _ s4 [HL4 Hv4]. rewrite put_put. rewrite Hv3, Hv, insert_insert_eq in Hv4.
  assert (Hnm : forall y, y <> x -> named (view s2) source y <-> named (view (owned n)) source y).
  { intros y Hy. unfold named. by rewrite Hv, lookup_insert_ne. }
  destruct r as [y|]; simpl in Hr.
  - destruct Hr as [Hy Hn]. assert (Hyx : y <> x).
    { intros ->. destruct Hn as (b & Hb & Hn). rewrite Hv, lookup_insert_eq in Hb. by injection Hb as <-. }
    apply elem_of_cons in Hy as [?|Hy]; [done|].
    apply wp_lift. rewrite owned_put. eapply wp_mono; [by eapply linked_sound|].
    intros _ s5 [HS5 Hn5]. rewrite put_put, owned_put. exists (map (graft y x) F).
    split_and!; [done| |done|done]. right. split; [done|]. exists y. split_and!; [done|by apply Hnm|done].
  - unfold emit. wps. exists (Tree x Leaf Leaf :: F).
    change (owned (S := Servers) _) with (owned (S := Servers) (put s4 n)) at 1.
    change (owned (S := Servers) ((put s4 n){{out ::= _}})) with (owned (S := Servers) (put s4 n)).
    rewrite owned_put. split_and!; [by eapply sound_root| |by rewrite (names_insert (owned n) s4 x _ Hv4)|done].
    left. split; [|done]. right. intros z Hz Hn. apply (Hr z); [by constructor|]. apply Hnm; [|done].
    by intros ->.
Qed.

(** C30: SQUIT of a server with a hub takes exactly that server and everything
    behind it off the network: the other servers stay in the list in their
    order, with their names and their places in the forest; users and channels
    are not touched.  For a name nobody bears there is a warning and no change. *)
Theorem do_squit_correct n nm xs F
    (HS : sound (owned n) xs F)
    (Hhub : forall x b, view (owned n) !! x = Some b -> stricmp nm (sname b) = 0 -> hub b <> None) :
  wp (do_squit nm) (fun _ n' => graph_of n' = graph_of n /\
    ((forall x, x ∈ xs -> ~ named (view (owned n)) nm x) /\ sound (owned n') xs F /\
       names (owned n') = names (owned n) /\ (exists w, out n' = Wallops (Some s_OperServ) w :: out n) \/
     exists x, let xs' := without (x :: behind x F) xs in
       x ∈ xs /\ named (view (owned n)) nm x /\ sound (owned n') xs' (map (prune x) F) /\
       (forall z, names (owned n') !! z = if decide (z ∈ xs') then names (owned n) !! z else None) /\
       out n' = out n)) n.
Proof.
  unfold do_squit. wps. apply wp_lift. eapply wp_mono; [apply findserver_spec, HS|].
  intros r s1 (Hr & HL1 & Hv1).
  assert (HS1 : sound s1 xs F) by (split; [done|rewrite Hv1; apply HS|apply HS]).
  destruct r as [x|]; simpl in Hr.
  - destruct Hr as [Hx (b & Hb & Hn)]. rewrite <- Hv1 in Hb. apply wp_lift. rewrite owned_put.
    eapply wp_mono; [eapply squit_spec; [done|done|done|]|].
    { rewrite Hv1 in Hb. by eapply Hhub. }
    intros _ s2 [HS2 Hn2]. rewrite put_put, owned_put. split; [done|]. right. exists x.
    split_and!; [done|by exists b; rewrite <- Hv1|done| |done].
    intros z. rewrite !names_view, !lookup_fmap. case_decide as Hz.
    + rewrite Hn2, Hv1; done.
    + by rewrite (sound_lookup _ _ _ _ HS2 Hz).
  - unfold emit. wps. split; [done|]. left.
    change (owned (S := Servers) ((put s1 n){{out ::= _}})) with (owned (S := Servers) (put s1 n)).
    rewrite owned_put. split_and!; [done|done|by rewrite !names_view, Hv1|by eexists].
Qed.
End Messages.

(** ** Examples *)
Module Witness.
#[local] Existing Instance Demo.conf.

Definition empty : Servers := mkServers ∅ None 0 None.
Definition net0 : Net Servers :=
  mkNet _ ∅ ∅ ∅ ∅ 1 0 0 0 0 NULL 0 NULL 0 EmptyString 1000 [] empty.
Definition sqlines (_ : Servers) : list (string * string) := [("^Nick[0-9]$", "clone")].

(** An uplink [a] with the leaves [b] and [c], and [d] behind [b]. *)
Definition burst : M (Net Servers) unit :=
  do_server sqlines 1 "" "a";; do_server sqlines 2 "a" "b";;
  do_server sqlines 3 "a" "c";; do_server sqlines 4 "b" "d".
Definition net4 : Net Servers := default net0 (snd <$> burst net0).
Definition trees : list forest := [Tree 1 (Tree 2 (Tree 4 Leaf Leaf) (Tree 3 Leaf Leaf)) Leaf].

Lemma empty_sound : sound (owned net0) [] [].
Proof.
  split; [|by intros ? ?%elem_of_nil|done]. split; try done; [by exists None|constructor|].
  intros x. rewrite elem_of_nil. split; [|done]. by intros [? ?].
Qed.

Lemma net4_sound : sound (owned net4) [4; 3; 2; 1]%positive trees.
Proof.
  split.
  - split; [|by apply (bool_decide_unpack _); vm_compute| |by vm_compute|].
    + exists (Some 1%positive). vm_compute. repeat first [done | split; [done|] | eexists].
    + assert (Hd : dom (sheap (owned net4)) = list_to_set (C := gset loc) [4; 3; 2; 1]%positive)
        by (apply (bool_decide_unpack _); by vm_compute).
      intros x. by rewrite <- elem_of_dom, Hd, elem_of_list_to_set.
    + vm_compute. intros x [= <-]. repeat constructor.
  - intros f ->%list_elem_of_singleton. eexists _, _. split; [done|]. vm_compute.
    repeat first [done | split; [done|] | eexists].
  - vm_compute. apply (bool_decide_unpack _). by vm_compute.
Qed.

Lemma do_server_correct_witness :
  wp (do_server sqlines 5 "C" "e") (fun _ n' => exists F',
    sound (owned n') [5; 4; 3; 2; 1]%positive F' /\ joined (owned net4) [4; 3; 2; 1]%positive "C" 5 trees F' /\
    names (owned n') = <[5%positive := "e"]> (names (owned net4)) /\ graph_of n' = graph_of net4) net4.
Proof. apply do_server_correct; [apply net4_sound|by vm_compute|by vm_compute]. Defined.

Lemma do_squit_correct_witness :
  wp (do_squit "B") (fun _ n' => graph_of n' = graph_of net4 /\
    ((forall x, x ∈ [4; 3; 2; 1]%positive -> ~ named (view (owned net4)) "B" x) /\
       sound (owned n') [4; 3; 2; 1]%positive trees /\
       names (owned n') = names (owned net4) /\
       (exists w, out n' = Wallops (Some s_OperServ) w :: out net4) \/
     exists x, let xs' := without (x :: behind x trees) [4; 3; 2; 1]%positive in
       x ∈ [4; 3; 2; 1]%positive /\ named (view (owned net4)) "B" x /\
       sound (owned n') xs' (map (prune x) trees) /\
       (forall z, names (owned n') !! z = if decide (z ∈ xs') then names (owned net4) !! z else None) /\
       out n' = out net4)) net4.
Proof.
  apply do_squit_correct; [apply net4_sound|]. intros x b Hb Hn.
  assert (H : map_Forall (fun _ b => stricmp "B" (sname b) <> 0 \/ hub b <> None) (view (owned net4)))
    by (apply (bool_decide_unpack _); by vm_compute).
  destruct (H x b Hb) as [H1|H1]; [destruct (H1 Hn)|exact H1].
Defined.

(** What is left after [b] quits, and that [recursive_squit] spares a root:
    after SQUIT of [a] the structure of [a] is still there, its [child] points
    to a freed one, and the next SQUIT of [a] follows it. *)
Example squit_b : (fun r => names (owned (snd r))) <$> (do_squit "b") net4 =
  Some (<[1 := "a"]> (<[3 := "c"]> ∅))%positive.
Proof. apply (bool_decide_unpack _). by vm_compute. Qed.

(** SQUIT of a server without a hub deletes what is behind it but not the
    server itself, whose [child] is left pointing to freed memory; when the
    server is introduced and quits again, that pointer is followed. *)
Theorem do_squit_root_dangles :
  (fun r => (names (owned (snd r)), child <$> sheap (owned (snd r)) !! 1%positive)) <$>
    (do_squit "a") net4 = Some ({[1%positive := "a"]}, Some (Some 2%positive)) /\
  (do_squit "a";; do_squit "a") net4 = None.
Proof. split; [apply (bool_decide_unpack _)|]; by vm_compute. Qed.
End Witness.
