(* ===== verification/Walk.v ===== *)
(** Walks over all users: [for (u = firstuser (); u; u = nextuser ())].

    The walk visits every user exactly once, as long as its body leaves the
    users alone, and ends with [current] null, so the next one starts afresh.
    [count_mask_matches] ([src/users.c]) is such a walk. *)

From S2P Require Import Prelude CStr Wp Graph Net Masks Interfaces.

Section Walk.
Context {E A : Type}.
Implicit Types (n : Net E).

Fixpoint walk_loop (fuel : nat) (body : ptr -> A -> M (Net E) A) (u : ptr) (acc : A) : M (Net E) A :=
  if u =? NULL then mret acc
  else match fuel with
       | O => fault
       | S fuel' => acc' ← body u acc; u' ← nextuser; walk_loop fuel' body u' acc'
       end.

(** Each user is visited once, so the number of users is fuel enough. *)
Definition walk (body : ptr -> A -> M (Net E) A) (acc : A) : M (Net E) A :=
  u ← firstuser; k ← gets (fun n => size (users_heap n)); walk_loop k body u acc.
End Walk.

Definition count_mask_matches {E} (msk : string) : M (Net E) Z :=
  walk (fun u i =>
    us ← load_user u;
    match match_usermask msk us with
    | Some b => mret (if b then i + 1 else i)
    | None => fault
    end) 0.

(** ** The order of the walk *)
Definition buckets_from (t : gmap Z (list ptr)) (i : Z) : list ptr :=
  concat (map (bucket t) (seqZ i (1024 - i))).

Lemma buckets_from_end t : buckets_from t 1024 = [].
Proof. done. Qed.

Lemma buckets_from_step t i : i < 1024 -> buckets_from t i = bucket t i ++ buckets_from t (i + 1).
Proof.
  intros Hi. unfold buckets_from. rewrite (seqZ_cons i) by lia. simpl.
  by replace (Z.pred (1024 - i)) with (1024 - (i + 1)) by lia.
Qed.

Lemma elem_of_buckets t i p :
  0 <= i <= 1024 -> p ∈ buckets_from t i <-> exists j, i <= j < 1024 /\ p ∈ bucket t j.
Proof.
  intros Hi. unfold buckets_from. rewrite list_elem_of_In, in_concat. split.
  - intros (l & (j & <- & Hj%list_elem_of_In%elem_of_seqZ)%in_map_iff & Hp). exists j.
    split; [lia|by apply list_elem_of_In].
  - intros (j & Hj & Hp). exists (bucket t j). split; [|by apply list_elem_of_In].
    apply in_map_iff. exists j. split; [done|]. apply list_elem_of_In, elem_of_seqZ. lia.
Qed.

(** The walk stands at [p], with [next_index] [i]; [l] is still to come. *)
Definition stands (t : gmap Z (list ptr)) (p : ptr) (i : Z) (l : list ptr) : Prop :=
  p = NULL /\ i = 1024 /\ l = [] \/
  p <> NULL /\ 0 < i <= 1024 /\ exists b1 b2, bucket t (i - 1) = b1 ++ p :: b2 /\
    l = p :: b2 ++ buckets_from t i.

Lemma seek_here fuel t p i : p <> NULL -> seek fuel t p i = (p, i).
Proof. intros Hp. destruct fuel; simpl; [done|]. by rewrite (proj2 (Z.eqb_neq p NULL)), andb_false_r. Qed.

Lemma seek_stands t : (forall j p, p ∈ bucket t j -> p <> NULL) -> forall fuel i,
  0 <= i <= 1024 -> (Z.to_nat (1024 - i) < fuel)%nat ->
  forall p i', seek fuel t NULL i = (p, i') -> stands t p i' (buckets_from t i).
Proof.
  intros Ht fuel. induction fuel as [|fuel IH]; intros i Hi Hf p i'; [lia|]. simpl.
  destruct (Z.ltb_spec i 1024) as [Hlt|Hge]; simpl.
  - rewrite buckets_from_step by done. destruct (bucket t i) as [|q b] eqn:Eb; simpl.
    + apply IH; lia.
    + assert (Hq : q <> NULL) by (apply (Ht i); rewrite Eb; constructor).
      rewrite seek_here by done. intros [= <- <-]. right. split_and!; [done|lia|lia|].
      exists [], b. by rewrite Z.add_simpl_r.
  - intros [= <- <-]. left. assert (i = 1024) as -> by lia. done.
Qed.

Lemma after_split p b1 b2 : p ∉ b1 -> after p (b1 ++ p :: b2) = hd NULL b2.
Proof.
  induction b1 as [|q b1 IH]; simpl; intros Hp; [by rewrite Z.eqb_refl|].
  apply not_elem_of_cons in Hp as [Hq Hp]. rewrite (proj2 (Z.eqb_neq q p)) by congruence. by apply IH.
Qed.

Lemma nick_HASH_range nk : 0 <= nick_HASH nk < 1024.
Proof.
  assert (H31 : forall c, 0 <= code c .& 31 < 2 ^ 5).
  { intros c. change 31 with (Z.ones 5). rewrite Z.land_ones by lia. apply Z.mod_pos_bound. lia. }
  pose proof (H31 (char_at nk 0)) as H0. pose proof (H31 (char_at nk 1)) as H1.
  unfold nick_HASH. rewrite Z.shiftl_mul_pow2 by lia.
  revert H0 H1. generalize (code (char_at nk 0) .& 31), (code (char_at nk 1) .& 31). intros a b Ha Hb.
  assert (E : a * 2 ^ 5 .| b = a * 2 ^ 5 + b); [|rewrite E; lia].
  assert (Hl : a * 2 ^ 5 .& b = 0); [|rewrite <- Z.lxor_lor by done; symmetry; by apply Z.add_nocarry_lxor].
  apply Z.bits_inj'. intros i Hi. rewrite Z.land_spec, Z.bits_0.
  destruct (Z.lt_ge_cases i 5) as [Hlt|Hge]; [by rewrite Z.mul_pow2_bits_low|].
  assert (Hb5 : Z.testbit b i = false); [|by rewrite Hb5, andb_false_r].
  destruct (decide (b = 0)) as [->|Hb0]; [apply Z.bits_0|]. apply Z.bits_above_log2; [lia|].
  apply Z.log2_lt_pow2; [lia|]. apply Z.lt_le_trans with (2 ^ 5); [lia|].
  apply Z.pow_le_mono_r; lia.
Qed.

Section Order.
Context {E : Type}.
Implicit Types (n : Net E).

(** What the body of a walk leaves alone. *)
Record kept n n' : Prop := {
  ke_graph : graph_of n' = graph_of n;
  ke_index : u_next_index n' = u_next_index n
}.

(** A graph that is sound except that a walk may be under way. *)
Definition at_rest n : graph := (graph_of n){{g_walk := NULL}}.

Definition order n : list ptr := buckets_from (userlist n) 0.

Lemma bucket_nonnull n j p :
  heap_ok (at_rest n) -> p ∈ bucket (userlist n) j -> p <> NULL /\ is_Some (users_heap n !! p) /\
    0 <= j < 1024.
Proof.
  intros Hg Hp. apply (lo_elem _ _ _ _ (ho_ulist _ Hg)) in Hp as (v & Hv & <-).
  pose proof (nick_HASH_range (v_nick v)). simpl in Hv.
  assert (0 < p < g_next (graph_of n)) by (apply (ho_addr _ Hg); left; by eexists).
  split_and!; [unfold NULL; lia| |lia|lia]. apply is_Some_graph_user. by eexists.
Qed.

Lemma NoDup_buckets_from n : heap_ok (at_rest n) -> forall k i,
  0 <= i -> (Z.to_nat (1024 - i) <= k)%nat -> NoDup (buckets_from (userlist n) i).
Proof.
  intros Hg k. induction k as [|k IH]; intros i Hi Hk.
  - unfold buckets_from. rewrite seqZ_nil by lia. constructor.
  - destruct (Z.lt_ge_cases i 1024) as [Hlt|Hge].
    2:{ unfold buckets_from. rewrite seqZ_nil by lia. constructor. }
    rewrite buckets_from_step by done. apply NoDup_app. split_and!.
    + apply (lo_nodup _ _ _ _ (ho_ulist _ Hg)).
    + intros p Hp (j & Hj & Hp')%elem_of_buckets; [|lia].
      apply (lo_elem _ _ _ _ (ho_ulist _ Hg)) in Hp as (v & Hv & <-).
      apply (lo_elem _ _ _ _ (ho_ulist _ Hg)) in Hp' as (v' & Hv' & <-).
      rewrite Hv in Hv'. injection Hv' as <-. lia.
    + apply IH; lia.
Qed.

(** The walk goes over all users, each once. *)
Lemma order_users n : heap_ok (at_rest n) ->
  NoDup (order n) /\ forall p, p ∈ order n <-> is_Some (users_heap n !! p).
Proof.
  intros Hg. split; [apply (NoDup_buckets_from n Hg (Z.to_nat 1024)); lia|].
  intros p. unfold order. rewrite elem_of_buckets by lia. split.
  - intros (j & _ & Hp). by apply (bucket_nonnull _ _ _ Hg) in Hp as (_ & ? & _).
  - intros [u Hu]. exists (nick_HASH (nick u)). split; [apply nick_HASH_range|].
    apply (lo_elem _ _ _ _ (ho_ulist _ Hg)). exists (user_view u). split; [|done].
    simpl. by rewrite lookup_fmap, Hu.
Qed.

Lemma order_length n : heap_ok (at_rest n) -> length (order n) = size (users_heap n).
Proof.
  intros Hg. destruct (order_users n Hg) as [Hnd Ho].
  rewrite <- size_dom, <- (size_list_to_set (C := gset ptr) (order n)) by done. f_equal.
  apply set_eq. intros p. by rewrite elem_of_list_to_set, elem_of_dom, Ho.
Qed.

Lemma firstuser_spec n : heap_ok (graph_of n) ->
  wp firstuser (fun p n' => exists i, stands (userlist n) p i (order n) /\
    n' = n{{u_current := p; u_next_index := i}}) n.
Proof.
  intros Hg. assert (Hc : u_current n = NULL) by apply (ho_walk _ Hg).
  assert (Hr : heap_ok (at_rest n)) by (destruct Hg; by split).
  unfold firstuser. wps. rewrite Hc. destruct (seek 1025 (userlist n) NULL 0) as [p i] eqn:Es. wps.
  exists i. split; [|done]. eapply seek_stands; [| | |exact Es]; [|lia|lia].
  intros j q Hq. by apply (bucket_nonnull _ _ _ Hr) in Hq as (? & _).
Qed.

Lemma nextuser_spec n i p l : heap_ok (at_rest n) -> stands (userlist n) p i (p :: l) ->
  u_current n = p -> u_next_index n = i ->
  wp nextuser (fun p' n' => exists i', stands (userlist n) p' i' l /\
    n' = n{{u_current := p'; u_next_index := i'}}) n.
Proof.
  intros Hg [(_ & _ & ?)|(Hp & Hi & b1 & b2 & Hb & [= ->])] Hcur Hidx; [done|].
  assert (Hin : p ∈ bucket (userlist n) (i - 1)) by (rewrite Hb; set_solver).
  pose proof (bucket_nonnull _ _ _ Hg Hin) as (_ & [u Hu] & _).
  pose proof (lo_nodup _ _ _ _ (ho_ulist _ Hg) (i - 1)) as Hnd. simpl in Hnd. rewrite Hb in Hnd.
  apply (lo_elem _ _ _ _ (ho_ulist _ Hg)) in Hin as (v & Hv & Hh). simpl in Hv.
  rewrite lookup_fmap, Hu in Hv. injection Hv as <-. simpl in Hh.
  unfold nextuser. wps. rewrite Hcur, (proj2 (Z.eqb_neq p NULL)) by done. wps.
  eapply wp_load_user; [done|]. wps. rewrite Hidx, Hh, Hb, after_split.
  2:{ intros Hx. apply NoDup_app in Hnd as (_ & Hd & _). apply (Hd p Hx). constructor. }
  destruct b2 as [|q b2]; cbn [hd].
  - destruct (seek 1025 (userlist n) NULL i) as [p' i'] eqn:Es. wps. exists i'. split; [|done].
    eapply seek_stands; [| | |exact Es]; [|lia|lia]. intros j q Hq. by apply (bucket_nonnull _ _ _ Hg) in Hq as (? & _).
  - assert (Hq : q <> NULL).
    { apply (bucket_nonnull _ (i - 1) q Hg). rewrite Hb. set_solver. }
    rewrite (seek_here 1025 _ q i Hq). wps. exists i. split; [|done]. right.
    split_and!; [done|lia|lia|]. exists (b1 ++ [p]), b2. by rewrite Hb, <- (assoc_L (++)).
Qed.

(** Every user is visited, in the order of the table, by a body that keeps the
    graph; [I] may speak of the users visited so far. *)
Lemma wp_walk_loop {A} (body : ptr -> A -> M (Net E) A) (I : list ptr -> A -> Net E -> Prop) n0 :
  heap_ok (at_rest n0) ->
  (forall vis p acc n, p ∈ order n0 -> I vis acc n -> at_rest n = at_rest n0 ->
     wp (body p acc) (fun acc' n' => I (vis ++ [p]) acc' n' /\ kept n n') n) ->
  (forall vis acc n c i, I vis acc n -> I vis acc (n{{u_current := c; u_next_index := i}})) ->
  forall l vis fuel p i acc n, stands (userlist n) p i l -> u_current n = p -> u_next_index n = i ->
    vis ++ l = order n0 -> (length l <= fuel)%nat -> at_rest n = at_rest n0 -> I vis acc n ->
    wp (walk_loop fuel body p acc) (fun acc' n' => I (order n0) acc' n' /\ graph_of n' = at_rest n0) n.
Proof.
  intros Hg Hbody Hmove l. induction l as [|q l IH]; intros vis fuel p i acc n Hs Hcur Hidx Hl Hf Hrest HI.
  - destruct Hs as [(-> & _)|(_ & _ & b1 & b2 & _ & ?)]; [|done].
    assert (Hgr : graph_of n = at_rest n0).
    { rewrite <- Hrest. unfold at_rest, graph_of. simpl. by rewrite Hcur. }
    rewrite app_nil_r in Hl. subst vis. destruct fuel; by apply wp_ret.
  - assert (Hp : p <> NULL /\ p = q).
    { destruct Hs as [(_ & _ & ?)|(Hp & _ & b1 & b2 & _ & [= -> _])]; [done|by split]. }
    destruct Hp as [Hp <-]. destruct fuel as [|fuel]; [simpl in Hf; lia|].
    simpl. rewrite (proj2 (Z.eqb_neq p NULL)) by done. wps.
    eapply wp_mono; [apply Hbody; [|done|done]|].
    { rewrite <- Hl. apply elem_of_app. right. constructor. }
    intros acc1 n1 [HI1 [Hgr1 Hidx1]]. wps.
    assert (Hul : userlist n1 = userlist n) by (change (g_ulist (graph_of n1) = g_ulist (graph_of n)); by rewrite Hgr1).
    assert (Hr1 : at_rest n1 = at_rest n0) by (unfold at_rest; by rewrite Hgr1).
    assert (Hc1 : u_current n1 = p) by (change (g_walk (graph_of n1) = p); by rewrite Hgr1).
    eapply wp_mono; [eapply (nextuser_spec n1 i p l)|].
    + by rewrite Hr1.
    + by rewrite Hul.
    + done.
    + by rewrite Hidx1.
    + intros p' n2 (i' & Hs' & ->). apply (IH (vis ++ [p]) fuel p' i'); try done.
      * by rewrite <- (assoc_L (++)).
      * simpl in Hf. lia.
      * by apply Hmove.
Qed.

Lemma wp_walk {A} (body : ptr -> A -> M (Net E) A) (I : list ptr -> A -> Net E -> Prop) acc n0 :
  heap_ok (graph_of n0) -> I [] acc n0 ->
  (forall vis p acc n, p ∈ order n0 -> I vis acc n -> at_rest n = graph_of n0 ->
     wp (body p acc) (fun acc' n' => I (vis ++ [p]) acc' n' /\ kept n n') n) ->
  (forall vis acc n c i, I vis acc n -> I vis acc (n{{u_current := c; u_next_index := i}})) ->
  wp (walk body acc) (fun acc' n' => I (order n0) acc' n' /\ graph_of n' = graph_of n0) n0.
Proof.
  intros Hg HI Hbody Hmove.
  assert (Hrest : at_rest n0 = graph_of n0).
  { pose proof (ho_walk _ Hg) as Hw. unfold at_rest, graph_of in *. simpl in *. by rewrite Hw. }
  rewrite <- Hrest in *. unfold walk. wps. eapply wp_mono; [apply firstuser_spec; by rewrite <- Hrest|].
  intros p n (i & Hs & ->). wps.
  eapply wp_mono; [eapply (wp_walk_loop body I n0 Hg Hbody Hmove (order n0) []); try done|].
  - by rewrite order_length.
  - by apply Hmove.
  - intros acc' n' [HI' Hg']. by rewrite Hg'.
Qed.
End Order.

(** ** count_mask_matches *)
Section Count.
Context {E : Type}.
Implicit Types (n : Net E).

(** The users a mask covers. *)
Definition matched (msk : string) n : gmap ptr User :=
  filter (fun pu => match_usermask msk pu.2 = Some true) (users_heap n).

Definition hit (msk : string) n (p : ptr) : bool := bool_decide (is_Some (matched msk n !! p)).
Definition hits (msk : string) n (l : list ptr) : Z := Z.of_nat (length (List.filter (hit msk n) l)).

Lemma hit_user msk n p u : users_heap n !! p = Some u ->
  hit msk n p = bool_decide (match_usermask msk u = Some true).
Proof.
  intros Hu. unfold hit, matched. apply bool_decide_ext. split.
  - intros [v Hv]. apply map_lookup_filter_Some in Hv as [Hv Hm]. rewrite Hu in Hv. by injection Hv as <-.
  - intros Hm. exists u. by apply map_lookup_filter_Some.
Qed.

Lemma hits_matched msk n : heap_ok (at_rest n) -> hits msk n (order n) = Z.of_nat (size (matched msk n)).
Proof.
  intros Hg. destruct (order_users n Hg) as [Hnd Ho]. unfold hits. f_equal.
  rewrite <- size_dom, <- (size_list_to_set (C := gset ptr) (List.filter (hit msk n) (order n))).
  2:{ apply NoDup_ListNoDup, List.NoDup_filter. by apply NoDup_ListNoDup. }
  f_equal. apply set_eq. intros p.
  rewrite elem_of_list_to_set, elem_of_dom, list_elem_of_In, filter_In, <- list_elem_of_In, Ho.
  unfold hit. rewrite bool_decide_eq_true. split; [tauto|]. intros [u Hu]. split; [|by eexists].
  apply map_lookup_filter_Some in Hu as [Hu _]. by eexists.
Qed.

(** The count is that of the users who match, and nothing but the place of the
    walk is touched. *)
Lemma count_mask_matches_spec n msk
    (Hg : heap_ok (graph_of n)) (Hm : forall u, match_usermask msk u <> None) :
  wp (count_mask_matches msk) (fun k n' => k = Z.of_nat (size (matched msk n)) /\
    graph_of n' = graph_of n /\ exists c i, n' = n{{u_current := c; u_next_index := i}}) n.
Proof.
  assert (Hr : heap_ok (at_rest n)) by (destruct Hg; by split).
  unfold count_mask_matches. eapply wp_mono.
  - apply (wp_walk _ (fun vis k n' => k = hits msk n vis /\
      exists c i, n' = n{{u_current := c; u_next_index := i}})); [done| | |].
    + split; [done|]. exists (u_current n), (u_next_index n). by destruct n.
    + intros vis p k n' Hp (-> & c & i & ->) _. wps.
      apply (order_users n Hr) in Hp as [u Hu]. eapply wp_load_user; [exact Hu|].
      assert (Hk : hits msk n (vis ++ [p]) =
        if bool_decide (match_usermask msk u = Some true) then hits msk n vis + 1 else hits msk n vis).
      { unfold hits. rewrite List.filter_app, length_app. cbn [List.filter]. rewrite (hit_user _ _ _ _ Hu).
        case_bool_decide; simpl; lia. }
      destruct (match_usermask msk u) as [b|] eqn:Em; [|by destruct (Hm u)]. wps.
      split; [|done]. split; [|by exists c, i]. rewrite Hk. destruct b; case_bool_decide; congruence || lia.
    + intros vis k n' c i (-> & c' & i' & ->). split; [done|]. by exists c, i.
  - intros k n' [(-> & He) Hgr]. split; [by apply hits_matched|done].
Qed.
End Count.

(** ** Properties *)

(** The walk over the user table ([firstuser] .. [nextuser]) ends and visits
    every user once: [count_mask_matches] counts the users the mask covers, and
    changes nothing but the place of the walk. *)
Theorem count_mask_matches_correct {E} (n : Net E) msk
    (Hg : heap_ok (graph_of n)) (Hm : forall u, match_usermask msk u <> None) :
  wp (count_mask_matches msk) (fun k n' => k = Z.of_nat (size (matched msk n)) /\
    graph_of n' = graph_of n /\ exists c i, n' = n{{u_current := c; u_next_index := i}}) n.
Proof. by apply count_mask_matches_spec. Qed.

Module Witness.
Import Demo.

Lemma count_mask_matches_correct_witness :
  wp (count_mask_matches "*@*.example.org") (fun k n' => k = Z.of_nat (size (matched "*@*.example.org" net)) /\
    graph_of n' = graph_of net /\ exists c i, n' = net{{u_current := c; u_next_index := i}}) net.
Proof.
  apply (count_mask_matches_correct net "*@*.example.org"); [exact (proj1 net_ok)|].
  intros u. by vm_compute.
Defined.

Example count_two : fst <$> count_mask_matches "*@*.example.org" net = Some 2.
Proof. by vm_compute. Qed.
End Witness.
