(* ===== verification/Cache.v ===== *)
(** The cache of nick statuses and languages: [src/cache.c].

    151 circular, singly linked lists on a heap, each with a head of its own and
    sorted by nick id.  The [SELECT] of a nick's row and the time are arguments
    ([sql], [now]): neither changes during a call. *)

From Stdlib Require Import Sorting.Sorted.
From S2P Require Import Prelude Wp Graph.

Definition u16 (z : Z) : Z := z mod 2 ^ 16.     (* unsigned short *)
Definition HASH_M : Z := 151.
Definition HASH (id : Z) : Z := id mod HASH_M.

(** [struct nickcache] *)
Record nickcache := mkNickcache {
  nc_next : ptr;
  nc_nick_id : Z;
  nc_status : Z;
  nc_status_timestamp : Z;
  nc_language : Z;
  nc_language_timestamp : Z
}.

Record Cache := mkCache {
  nc_heap : gmap ptr nickcache;
  nickcacheheads : list ptr;
  nc_fresh : ptr                   (* the allocator: every address in use is below *)
}.

Section Cache.
(** [SELECT status, language FROM nick WHERE nick_id=..], the time, and what
    the memory [smalloc] returns holds. *)
Context (sql : Z -> option (Z * Z)) (now : Z) (junk : nickcache).
Implicit Types (c : Cache).

Definition nc_load (p : ptr) : M Cache nickcache :=
  fun c => match nc_heap c !! p with Some x => Some (x, c) | None => None end.
Definition nc_upd (p : ptr) (f : nickcache -> nickcache) : M Cache unit :=
  x ← nc_load p; modify (fun c => c{{nc_heap ::= insert p (f x)}}).
Definition nc_free (p : ptr) : M Cache unit :=
  _ ← nc_load p; modify (fun c => c{{nc_heap ::= delete p}}).
Definition nc_alloc : M Cache ptr :=
  p ← gets nc_fresh;
  modify (fun c => c{{nc_heap ::= insert p junk; nc_fresh := p + 1}});;
  mret p.
Definition nc_head (k : Z) : M Cache ptr :=
  fun c => match nickcacheheads c !! Z.to_nat k with Some p => Some (p, c) | None => None end.
Definition nc_assert (b : bool) : M Cache unit := if b then mret tt else fault.
Definition nc_fuel : M Cache nat := gets (fun c => S (size (nc_heap c))).

(** The heads from 0 to [n - 1]. *)
Fixpoint init_loop (n : nat) : M Cache unit :=
  match n with
  | O => mret tt
  | S n' =>
      init_loop n';;
      p ← nc_alloc;
      nc_upd p (fun x => x{{nc_next := p; nc_nick_id := 0}});;
      modify (fun c => c{{nickcacheheads := nickcacheheads c ++ [p] }})
  end.

Definition nickcache_init : M Cache unit :=
  modify (fun c => c{{nickcacheheads := [] }});; init_loop (Z.to_nat HASH_M).

(** [while (nc->next != head) { x = nc; nc = nc->next; free (x); }], yields [nc]. *)
Fixpoint delall_loop (fuel : nat) (head nc : ptr) : M Cache ptr :=
  match fuel with
  | O => fault
  | S fuel' =>
      x ← nc_load nc;
      if nc_next x =? head then mret nc
      else nc_free nc;; delall_loop fuel' head (nc_next x)
  end.

Definition nickcache_delall : M Cache unit :=
  for_each (seqZ 0 HASH_M) (fun i =>
    head ← nc_head i;
    fuel ← nc_fuel;
    nc ← delall_loop fuel head head;
    nc_free nc).

(** [while (nc != head && nc->nick_id < id) { prev = nc; nc = nc->next; }], yields [prev]. *)
Fixpoint insert_loop (fuel : nat) (head prev nc : ptr) (id : Z) : M Cache ptr :=
  match fuel with
  | O => fault
  | S fuel' =>
      if nc =? head then mret prev
      else
        x ← nc_load nc;
        if nc_nick_id x <? id then insert_loop fuel' head nc (nc_next x) id else mret prev
  end.

Definition nickcache_insert (nick_id : Z) : M Cache ptr :=
  nc_assert (negb (nick_id =? 0));;
  new ← nc_alloc;
  match sql nick_id with
  | Some (status, language) =>
      nc_upd new (fun x => x{{nc_nick_id := nick_id; nc_status_timestamp := now; nc_language_timestamp := now;
                              nc_status := status; nc_language := u16 language}});;
      head ← nc_head (HASH nick_id);
      hd ← nc_load head;
      fuel ← nc_fuel;
      prev ← insert_loop fuel head head (nc_next hd) nick_id;
      pv ← nc_load prev;
      nc_upd new (fun x => x{{nc_next := nc_next pv}});;
      nc_upd prev (fun x => x{{nc_next := new}});;
      mret new
  | None => mret NULL
  end.

Fixpoint find_loop (fuel : nat) (head nc : ptr) (id : Z) : M Cache ptr :=
  match fuel with
  | O => fault
  | S fuel' =>
      if nc =? head then mret NULL
      else
        x ← nc_load nc;
        if id <? nc_nick_id x then mret NULL
        else if nc_nick_id x =? id then mret nc
        else find_loop fuel' head (nc_next x) id
  end.

Definition nickcache_find (nick_id : Z) : M Cache ptr :=
  nc_assert (negb (nick_id =? 0));;
  head ← nc_head (HASH nick_id);
  hd ← nc_load head;
  fuel ← nc_fuel;
  find_loop fuel head (nc_next hd) nick_id.

(** [while (nc->nick_id != id) ..]: the node with that id and the one before it.
    The loop has no other end when it comes around, so its fuel is explicit. *)
Fixpoint del_loop (fuel : nat) (z nc : ptr) (id : Z) : M Cache (option (ptr * ptr)) :=
  match fuel with
  | O => fault
  | S fuel' =>
      x ← nc_load nc;
      if nc_nick_id x =? id then mret (Some (z, nc))
      else if (nc =? nc_next x) || (id <? nc_nick_id x) then mret None
      else del_loop fuel' nc (nc_next x) id
  end.

Definition nickcache_del (fuel : nat) (nick_id : Z) : M Cache unit :=
  nc_assert (negb (nick_id =? 0));;
  head ← nc_head (HASH nick_id);
  found ← del_loop fuel head head nick_id;
  match found with
  | Some (z, nc) =>
      x ← nc_load nc;
      y ← nc_load (nc_next x);
      nc_upd nc (fun x => x{{nc_next := nc_next y}});;
      nc_free z
  | None => mret tt
  end.

Definition nickcache_update (fuel : nat) (nick_id : Z) : M Cache ptr :=
  nc_assert (negb (nick_id =? 0));;
  nc ← nickcache_find nick_id;
  nc ← (if nc =? NULL then nickcache_insert nick_id else mret nc);
  match sql nick_id with
  | Some (status, language) =>
      nc_upd nc (fun x => x{{nc_status := status; nc_language := u16 language;
                             nc_status_timestamp := now; nc_language_timestamp := now}});;
      mret nc
  | None => nickcache_del fuel nick_id;; mret NULL
  end.

Definition CACHE_TIME : Z := 60 * 60.

(** The getters differ in the fields only ([nickcache_get_status] returns early
    where this one does at the end). *)
Definition nickcache_get (stamp value : nickcache -> Z) (fuel : nat) (nick_id : Z) : M Cache Z :=
  nc_assert (negb (nick_id =? 0));;
  nc ← nickcache_find nick_id;
  nc ← (if nc =? NULL then nickcache_insert nick_id
        else x ← nc_load nc;
             if CACHE_TIME <=? now - stamp x then nickcache_update fuel nick_id else mret nc);
  if nc =? NULL then mret 0 else x ← nc_load nc; mret (value x).

Definition nickcache_get_language : nat -> Z -> M Cache Z := nickcache_get nc_language_timestamp nc_language.
Definition nickcache_get_status : nat -> Z -> M Cache Z := nickcache_get nc_status_timestamp nc_status.

(** The setters: find or insert, and change what was found. *)
Definition nickcache_change (nick_id : Z) (f : nickcache -> nickcache) : M Cache unit :=
  nc_assert (negb (nick_id =? 0));;
  nc ← nickcache_find nick_id;
  nc ← (if nc =? NULL then nickcache_insert nick_id else mret nc);
  when (negb (nc =? NULL)) (nc_upd nc f).

Definition nickcache_set_language (nick_id language : Z) : M Cache unit :=
  nickcache_change nick_id (fun x => x{{nc_language := u16 language; nc_language_timestamp := now}}).
Definition nickcache_set_status (nick_id status : Z) : M Cache unit :=
  nickcache_change nick_id (fun x => x{{nc_status := status; nc_status_timestamp := now}}).
Definition nickcache_add_status (nick_id new_status : Z) : M Cache unit :=
  nickcache_change nick_id (fun x => x{{nc_status ::= Z.lor new_status; nc_status_timestamp := now}}).
Definition nickcache_remove_status (nick_id remove_status : Z) : M Cache unit :=
  nickcache_change nick_id (fun x => x{{nc_status ::= Z.land (Z.lnot remove_status); nc_status_timestamp := now}}).
End Cache.

(** ** The lists *)

(** The nodes [l], with their addresses, lead from [p] to [q]. *)
Fixpoint path (h : gmap ptr nickcache) (p : ptr) (l : list (ptr * nickcache)) (q : ptr) : Prop :=
  match l with
  | [] => p = q
  | (a, x) :: l' => p = a /\ h !! a = Some x /\ path h (nc_next x) l' q
  end.

Lemma path_app h p l1 l2 q : path h p (l1 ++ l2) q <-> exists r, path h p l1 r /\ path h r l2 q.
Proof.
  revert p. induction l1 as [|[a x] l1 IH]; intros p; simpl.
  - split; [by exists p|by intros (? & -> & ?)].
  - rewrite IH. naive_solver.
Qed.

Lemma path_frame h h' p l q : (forall a, a ∈ l.*1 -> h' !! a = h !! a) -> path h p l q -> path h' p l q.
Proof.
  revert p. induction l as [|[a x] l IH]; intros p Hf; [done|]. intros (-> & Ha & Hp). split; [done|].
  rewrite Hf by constructor. split; [done|]. apply IH; [|done]. intros b Hb. apply Hf. by constructor.
Qed.

Lemma path_alloc h p l q a : path h p l q -> a ∈ l.*1 -> is_Some (h !! a).
Proof.
  revert p. induction l as [|[b x] l IH]; intros p; [by intros _ ?%elem_of_nil|].
  intros (-> & Hb & Hp) [->|Ha]%elem_of_cons; [by exists x|by eapply IH].
Qed.

Lemma path_in h p l q a x : path h p l q -> (a, x) ∈ l -> h !! a = Some x.
Proof.
  revert p. induction l as [|[b y] l IH]; intros p; [by intros _ ?%elem_of_nil|].
  intros (-> & Hb & Hp) [[= -> ->]|Ha]%elem_of_cons; [done|by eapply IH].
Qed.

(** A list never has more nodes than the heap. *)
Lemma path_length h p l q : path h p l q -> NoDup l.*1 -> (length l <= size h)%nat.
Proof.
  intros Hp Hn. rewrite <- (size_dom (D := gset ptr)), <- (length_fmap fst), <- (size_list_to_set (C := gset ptr)) by done.
  apply subseteq_size. intros a. rewrite elem_of_list_to_set, elem_of_dom. by eapply path_alloc.
Qed.

Definition id_of (ax : ptr * nickcache) : Z := nc_nick_id ax.2.
Definition sorted : list (ptr * nickcache) -> Prop := StronglySorted (fun x y => id_of x < id_of y).
Definition node_of (l : list (ptr * nickcache)) (id : Z) : option (ptr * nickcache) :=
  find_first (fun ax => id_of ax =? id) l.
Definition slot (id : Z) : nat := Z.to_nat (HASH id).

(** [ch] are the lists without their heads. *)
Record lists_ok (c : Cache) (ch : nat -> list (ptr * nickcache)) : Prop := {
  ok_path k p : nickcacheheads c !! k = Some p ->
    exists x, path (nc_heap c) p ((p, x) :: ch k) p /\ nc_nick_id x = 0;
  ok_nodup k p : nickcacheheads c !! k = Some p -> NoDup (p :: (ch k).*1);
  ok_disjoint j k p q a : nickcacheheads c !! j = Some p -> nickcacheheads c !! k = Some q -> j <> k ->
    a ∈ p :: (ch j).*1 -> a ∉ q :: (ch k).*1;
  ok_ids k ax : ax ∈ ch k -> 0 < id_of ax /\ slot (id_of ax) = k;
  ok_sorted k : sorted (ch k);
  ok_fresh a : is_Some (nc_heap c !! a) -> 0 < a < nc_fresh c;
  ok_next : 0 < nc_fresh c
}.

(** What the cache keeps about a nick. *)
Record Entry := mkEntry { e_status : Z; e_status_time : Z; e_language : Z; e_language_time : Z }.
Definition entry (x : nickcache) : Entry :=
  mkEntry (nc_status x) (nc_status_timestamp x) (nc_language x) (nc_language_timestamp x).

(** The lists hold the map [m]. *)
Definition holds (c : Cache) (ch : nat -> list (ptr * nickcache)) (m : gmap Z Entry) : Prop :=
  length (nickcacheheads c) = Z.to_nat HASH_M /\ lists_ok c ch /\
  forall id, m !! id = (fun ax => entry ax.2) <$> node_of (ch (slot id)) id.

Definition caches (c : Cache) (m : gmap Z Entry) : Prop := exists ch, holds c ch m.

Lemma slot_head c id : length (nickcacheheads c) = Z.to_nat HASH_M ->
  exists p, nickcacheheads c !! slot id = Some p.
Proof.
  intros Hl. apply lookup_lt_is_Some_2. rewrite Hl. unfold slot, HASH, HASH_M.
  pose proof (Z.mod_pos_bound id 151). lia.
Qed.

(** *** Searching a sorted list *)
Lemma sorted_split l id : sorted l -> exists l1 l2, l = l1 ++ l2 /\
  Forall (fun ax => id_of ax < id) l1 /\ Forall (fun ax => id <= id_of ax) l2.
Proof.
  induction 1 as [|ax l Hl (l1 & l2 & -> & H1 & H2) Ha]; [by exists [], []|].
  destruct (Z.ltb_spec (id_of ax) id).
  - exists (ax :: l1), l2. by repeat constructor.
  - exists [], (ax :: l1 ++ l2). repeat constructor; [done|]. eapply Forall_impl; [exact Ha|].
    intros bx Hb. cbv beta in *. lia.
Qed.

Lemma node_of_app l1 l2 id : Forall (fun ax => id_of ax < id) l1 -> node_of (l1 ++ l2) id = node_of l2 id.
Proof.
  unfold node_of. induction 1 as [|ax l1 Ha _ IH]; [done|]. simpl. by rewrite (proj2 (Z.eqb_neq _ _)) by lia.
Qed.

Lemma node_of_in l id ax : node_of l id = Some ax -> ax ∈ l /\ id_of ax = id.
Proof.
  unfold node_of. induction l as [|bx l IH]; [done|]. simpl. destruct (Z.eqb_spec (id_of bx) id).
  - intros [= <-]. split; [constructor|done].
  - intros H. apply IH in H as [H1 H2]. split; [by constructor|done].
Qed.

Lemma find_loop_spec fuel head p l id c : path (nc_heap c) p l head -> head ∉ l.*1 -> sorted l ->
  (length l < fuel)%nat ->
  find_loop fuel head p id c = Some (default NULL (fst <$> node_of l id), c).
Proof.
  revert p l. induction fuel as [|fuel IH]; intros p l Hp Hh Hs Hf; [lia|].
  destruct l as [|[a x] l]; simpl in Hp; simpl.
  { subst p. by rewrite Z.eqb_refl. }
  destruct Hp as (-> & Ha & Hp). apply not_elem_of_cons in Hh as [Hne Hh]. simpl in Hne.
  rewrite (proj2 (Z.eqb_neq a head)) by done. unfold nc_load, mbind, M_bind. rewrite Ha.
  inversion_clear Hs as [|? ? Hs' Hall]. unfold node_of. cbn [find_first].
  change (id_of (a, x)) with (nc_nick_id x). destruct (Z.ltb_spec id (nc_nick_id x)).
  - rewrite (proj2 (Z.eqb_neq _ _)) by lia. fold (node_of l id).
    destruct (node_of l id) as [bx|] eqn:En; [|done]. apply node_of_in in En as [Hin Hid].
    rewrite Forall_forall in Hall. specialize (Hall _ Hin). unfold id_of in *. simpl in *. lia.
  - destruct (Z.eqb_spec (nc_nick_id x) id); [done|]. apply IH; [done|done|done|]. simpl in Hf. lia.
Qed.

(** *** Replacing one list *)
Definition set_list (k : nat) (l : list (ptr * nickcache)) (ch : nat -> list (ptr * nickcache)) :
    nat -> list (ptr * nickcache) := fun j => if decide (j = k) then l else ch j.

Lemma set_list_ok c ch k p x h f l :
  lists_ok c ch -> nickcacheheads c !! k = Some p ->
  path h p ((p, x) :: l) p -> nc_nick_id x = 0 -> NoDup (p :: l.*1) ->
  (forall a, a ∈ l.*1 -> a ∈ (ch k).*1 \/ nc_heap c !! a = None) ->
  (forall a, a ∉ p :: (ch k).*1 -> is_Some (nc_heap c !! a) -> h !! a = nc_heap c !! a) ->
  (forall ax, ax ∈ l -> 0 < id_of ax /\ slot (id_of ax) = k) -> sorted l ->
  (forall a, is_Some (h !! a) -> 0 < a < f) -> 0 < f ->
  lists_ok (mkCache h (nickcacheheads c) f) (set_list k l ch).
Proof.
  intros Hok Hk Hp Hx Hn Hnew Hframe Hids Hs Hfr Hf0.
  assert (Hother : forall j q a, nickcacheheads c !! j = Some q -> j <> k -> a ∈ q :: (ch j).*1 ->
            a ∉ p :: (ch k).*1 /\ is_Some (nc_heap c !! a)).
  { intros j q a Hj Hne Ha. split; [by eapply (ok_disjoint _ _ Hok j k)|].
    destruct (ok_path _ _ Hok j q Hj) as (y & Hy & _). by eapply (path_alloc _ _ ((q, y) :: ch j)). }
  assert (Hapart : forall j q a, nickcacheheads c !! j = Some q -> j <> k -> a ∈ q :: (ch j).*1 -> a ∉ p :: l.*1).
  { intros j q a Hj Hne Ha. destruct (Hother j q a Hj Hne Ha) as [H1 [y Hy]].
    intros [->|Hin]%elem_of_cons; [apply H1; constructor|]. destruct (Hnew a Hin) as [?|Hnone]; [|congruence].
    apply H1. by constructor. }
  unfold set_list. split; simpl.
  - intros j q Hj. destruct (decide (j = k)) as [->|Hne]; [replace q with p by congruence; eauto|].
    destruct (ok_path _ _ Hok j q Hj) as (y & Hy & Hid). exists y. split; [|done].
    eapply (path_frame (nc_heap c) _ _ ((q, y) :: ch j)); [|done]. intros a Ha.
    destruct (Hother j q a Hj Hne Ha). by apply Hframe.
  - intros j q Hj. destruct (decide (j = k)) as [->|Hne]; [replace q with p by congruence; done|].
    by eapply ok_nodup.
  - intros i j q r a Hi Hj Hne Ha.
    destruct (decide (i = k)) as [->|Hik], (decide (j = k)) as [->|Hjk]; [done|..].
    + replace q with p in * by congruence. intros Ha'. by eapply (Hapart j r a).
    + replace r with p in * by congruence. by eapply (Hapart i q a).
    + by eapply (ok_disjoint _ _ Hok i j).
  - intros j ax Hax. destruct (decide (j = k)) as [->|]; [by apply Hids|by eapply ok_ids].
  - intros j. destruct (decide (j = k)); [done|by eapply ok_sorted].
  - done.
  - done.
Qed.

Section Operations.
Context (sql : Z -> option (Z * Z)) (now : Z) (junk : nickcache).
Implicit Types (c : Cache) (m : gmap Z Entry).
Local Notation find := nickcache_find.

Definition found (ch : nat -> list (ptr * nickcache)) (id : Z) : ptr := default NULL (fst <$> node_of (ch (slot id)) id).

Lemma find_spec c ch m id : holds c ch m -> 0 < id -> find id c = Some (found ch id, c).
Proof.
  intros (Hlen & Hok & _) Hid. unfold find, nc_assert. rewrite (proj2 (Z.eqb_neq id 0)) by lia.
  destruct (slot_head c id Hlen) as [p Hp]. destruct (ok_path _ _ Hok _ _ Hp) as (x & Hpath & _).
  pose proof (ok_nodup _ _ Hok _ _ Hp) as Hnd. pose proof (path_length _ _ _ _ Hpath Hnd) as Hlen'.
  destruct Hpath as (_ & Hx & Hpath). unfold mbind, M_bind, mret, M_ret, nc_head, nc_load. cbn [negb].
  fold (slot id). rewrite Hp, Hx. unfold nc_fuel, gets.
  apply NoDup_cons in Hnd as [Hnd _]. apply find_loop_spec; [done|done|by eapply ok_sorted|]. simpl in Hlen'. lia.
Qed.

(** The node [x] of nick [id] is at [r]. *)
Definition here c m (id : Z) (r : ptr) (x : nickcache) : Prop :=
  exists ch, holds c ch m /\ node_of (ch (slot id)) id = Some (r, x).

Lemma here_load c m id r x : here c m id r x -> nc_load r c = Some (x, c) /\ r <> NULL.
Proof.
  intros (ch & (Hlen & Hok & _) & Hn). apply node_of_in in Hn as [Hin _].
  destruct (slot_head c id Hlen) as [p Hp]. destruct (ok_path _ _ Hok _ _ Hp) as (y & Hpath & _).
  assert (Hx : nc_heap c !! r = Some x) by (eapply path_in; [exact Hpath|]; by constructor).
  unfold nc_load. rewrite Hx. split; [done|]. pose proof (ok_fresh _ _ Hok r (ex_intro _ x Hx)). unfold NULL. lia.
Qed.

Lemma here_lookup c m id r x : here c m id r x -> m !! id = Some (entry x).
Proof. intros (ch & (_ & _ & Hm) & Hn). by rewrite Hm, Hn. Qed.

(** A list with the payload of one node changed. *)
Definition repl (r : ptr) (f : nickcache -> nickcache) (ax : ptr * nickcache) : ptr * nickcache :=
  if ax.1 =? r then (ax.1, f ax.2) else ax.

Lemma repl_fst r f l : (map (repl r f) l).*1 = l.*1.
Proof. induction l as [|[a x] l IH]; [done|]. cbn [map]. rewrite !fmap_cons, IH. unfold repl. by destruct (_ =? _). Qed.

Lemma repl_id r f ax : (forall x, nc_nick_id (f x) = nc_nick_id x) -> id_of (repl r f ax) = id_of ax.
Proof. intros Hf. unfold repl, id_of. destruct (_ =? _); simpl; [apply Hf|done]. Qed.

Lemma path_repl h r x f p l q : h !! r = Some x -> (forall x, nc_next (f x) = nc_next x) ->
  path h p l q -> path (<[r := f x]> h) p (map (repl r f) l) q.
Proof.
  intros Hr Hf. revert p. induction l as [|[a y] l IH]; intros p; [done|]. intros (-> & Ha & Hp).
  simpl. unfold repl at 1. simpl. destruct (Z.eqb_spec a r) as [->|Hne].
  - assert (y = x) by congruence. subst y. rewrite lookup_insert_eq, Hf. auto.
  - rewrite lookup_insert_ne by done. auto.
Qed.

Lemma node_of_repl r f l id : (forall x, nc_nick_id (f x) = nc_nick_id x) ->
  node_of (map (repl r f) l) id = repl r f <$> node_of l id.
Proof.
  intros Hf. unfold node_of. induction l as [|ax l IH]; [done|]. simpl. rewrite repl_id by done.
  destruct (_ =? id); [done|apply IH].
Qed.

Lemma sorted_map r f l : (forall x, nc_nick_id (f x) = nc_nick_id x) -> sorted l -> sorted (map (repl r f) l).
Proof.
  intros Hf. induction 1 as [|ax l _ IH Ha]; [constructor|]. simpl. constructor; [done|].
  apply Forall_map. eapply Forall_impl; [exact Ha|]. intros bx Hb. simpl. by rewrite !repl_id.
Qed.

Lemma upd_here c m id r x f : here c m id r x -> 0 < id ->
  (forall x, nc_next (f x) = nc_next x) -> (forall x, nc_nick_id (f x) = nc_nick_id x) ->
  exists c', nc_upd r f c = Some (tt, c') /\ here c' (<[id := entry (f x)]> m) id r (f x).
Proof.
  intros Hh Hid0 Hnx Hid. destruct (here_load _ _ _ _ _ Hh) as [Hl Hr]. destruct Hh as (ch & (Hlen & Hok & Hm) & Hn).
  unfold nc_upd, mbind, M_bind. rewrite Hl. eexists. split; [done|].
  destruct (slot_head c id Hlen) as [p Hp]. destruct (ok_path _ _ Hok _ _ Hp) as (y & Hpath & Hy).
  assert (Hx : nc_heap c !! r = Some x) by (unfold nc_load in Hl; by destruct (nc_heap c !! r); simplify_eq).
  pose proof (node_of_in _ _ _ Hn) as [Hin Hid'].
  assert (Hall : forall a z, (a, z) ∈ ch (slot id) -> nc_heap c !! a = Some z)
    by (intros a z Ha; eapply path_in; [exact Hpath|]; by constructor).
  assert (Hrp : p <> r).
  { intros ->. pose proof (ok_nodup _ _ Hok _ _ Hp) as [Hnd _]%NoDup_cons. apply Hnd.
    apply list_elem_of_fmap. by exists (r, x). }
  exists (set_list (slot id) (map (repl r f) (ch (slot id))) ch). split; [split; [done|split]|].
  - destruct c as [h hd fr].
    change (lists_ok (mkCache (<[r := f x]> h) hd fr) (set_list (slot id) (map (repl r f) (ch (slot id))) ch)).
    apply (set_list_ok (mkCache h hd fr) _ _ p y); [done|done|..].
    + apply (path_repl h r x f) in Hpath; [|done..]. cbn [map] in Hpath. unfold repl in Hpath at 1.
      cbn [fst] in Hpath. by rewrite (proj2 (Z.eqb_neq p r)) in Hpath.
    + done.
    + rewrite repl_fst. by eapply ok_nodup.
    + intros a. rewrite repl_fst. by left.
    + intros a Ha _. apply lookup_insert_ne. intros <-. apply Ha. constructor.
      apply list_elem_of_fmap. by exists (r, x).
    + intros ax (bx & -> & Hbx)%list_elem_of_fmap. rewrite repl_id by done. by eapply ok_ids.
    + apply sorted_map; [done|]. by eapply ok_sorted.
    + intros a [z Hz]. apply (ok_fresh _ _ Hok). simpl. destruct (decide (r = a)) as [<-|]; [eauto|].
      rewrite lookup_insert_ne in Hz by done. eauto.
    + apply (ok_next _ _ Hok).
  - intros j. unfold set_list. destruct (decide (j = id)) as [->|Hne].
    + rewrite lookup_insert_eq. destruct (decide _); [|done]. rewrite node_of_repl, Hn by done.
      simpl. unfold repl. simpl. by rewrite Z.eqb_refl.
    + rewrite lookup_insert_ne by done. rewrite Hm. destruct (decide _) as [Es|]; [|done].
      rewrite node_of_repl by done. rewrite Es. destruct (node_of (ch (slot id)) j) as [[a z]|] eqn:En; [|done].
      simpl. unfold repl. simpl. destruct (Z.eqb_spec a r) as [->|]; [|done].
      exfalso. apply Hne. apply node_of_in in En as [Hin' <-]. unfold id_of in *. simpl in *.
      pose proof (Hall _ _ Hin'). by simplify_eq.
  - unfold set_list. destruct (decide _); [|done]. rewrite node_of_repl, Hn by done. simpl. unfold repl.
    simpl. by rewrite Z.eqb_refl.
Qed.

(** *** Insertion *)
Lemma alloc_holds c ch m x : holds c ch m ->
  holds (mkCache (<[nc_fresh c := x]> (nc_heap c)) (nickcacheheads c) (nc_fresh c + 1)) ch m.
Proof.
  intros (Hlen & Hok & Hm). split; [done|split; [|done]].
  assert (Hnew : nc_heap c !! nc_fresh c = None).
  { apply eq_None_not_Some. intros Hs. pose proof (ok_fresh _ _ Hok _ Hs). lia. }
  split; simpl; [|by eapply ok_nodup|by eapply ok_disjoint|by eapply ok_ids|by eapply ok_sorted|..].
  - intros k p Hp. destruct (ok_path _ _ Hok k p Hp) as (y & Hy & Hid). exists y. split; [|done].
    eapply (path_frame (nc_heap c) _ _ ((p, y) :: ch k)); [|done]. intros a Ha. apply lookup_insert_ne. intros <-.
    eapply (path_alloc _ _ ((p, y) :: ch k)) in Ha; [|done]. rewrite Hnew in Ha. by destruct Ha.
  - intros a [z Hz]. destruct (decide (nc_fresh c = a)) as [<-|]; [pose proof (ok_next _ _ Hok); lia|].
    rewrite lookup_insert_ne in Hz by done. pose proof (ok_fresh _ _ Hok a ltac:(eauto)). lia.
  - pose proof (ok_next _ _ Hok). lia.
Qed.

Lemma last_default {A} (b d d' : A) l : List.last (b :: l) d = List.last (b :: l) d'.
Proof. revert b. induction l as [|e l IH]; intros b; [done|]. apply IH. Qed.

(** The address after which a node with the given id goes. *)
Lemma insert_loop_spec fuel head prev p l1 l2 id c :
  path (nc_heap c) p (l1 ++ l2) head -> head ∉ (l1 ++ l2).*1 ->
  Forall (fun ax => id_of ax < id) l1 -> Forall (fun ax => id <= id_of ax) l2 -> (length (l1 ++ l2) < fuel)%nat ->
  insert_loop fuel head prev p id c = Some (List.last l1.*1 prev, c).
Proof.
  revert prev p l1. induction fuel as [|fuel IH]; intros prev p l1 Hp Hh H1 H2 Hf; [lia|].
  destruct l1 as [|[a x] l1]; cbn [app] in *.
  - destruct l2 as [|[a x] l2]; simpl in Hp; simpl; [subst p; by rewrite Z.eqb_refl|].
    destruct Hp as (-> & Ha & Hp). apply not_elem_of_cons in Hh as [Hne Hh]. simpl in Hne.
    rewrite (proj2 (Z.eqb_neq a head)) by done. unfold nc_load, mbind, M_bind. rewrite Ha.
    apply Forall_cons in H2 as [H2 _]. unfold id_of in H2. simpl in H2. by rewrite (proj2 (Z.ltb_ge _ _)).
  - destruct Hp as (-> & Ha & Hp). apply not_elem_of_cons in Hh as [Hne Hh]. simpl in Hne. simpl.
    rewrite (proj2 (Z.eqb_neq a head)) by done. unfold nc_load, mbind, M_bind. rewrite Ha.
    apply Forall_cons in H1 as [H1 H1']. unfold id_of in H1. simpl in H1. rewrite (proj2 (Z.ltb_lt _ _)) by done.
    rewrite (IH a _ l1) by (done || (simpl in Hf; lia)). do 2 f_equal.
    destruct l1 as [|[b y] l1]; [done|]. rewrite !fmap_cons. cbn [fst]. apply last_default.
Qed.

Lemma node_of_app' l1 l2 id :
  node_of (l1 ++ l2) id = match node_of l1 id with Some ax => Some ax | None => node_of l2 id end.
Proof. unfold node_of. induction l1 as [|ax l1 IH]; [done|]. simpl. by destruct (_ =? _). Qed.

Lemma repl_other r f l : r ∉ l.*1 -> map (repl r f) l = l.
Proof.
  induction l as [|[a x] l IH]; [done|]. intros [Hne Hl]%not_elem_of_cons. simpl in *. rewrite IH by done.
  unfold repl. simpl. by rewrite (proj2 (Z.eqb_neq a r)).
Qed.

(** [new] is linked in after [pv], the last of [l0 ++ [(pv, y)]]. *)
Lemma link_path h p l0 l2 pv y new z f : path h p (l0 ++ (pv, y) :: l2) p -> NoDup (l0 ++ (pv, y) :: l2).*1 ->
  new ∉ (l0 ++ (pv, y) :: l2).*1 -> nc_next z = nc_next y -> nc_next (f y) = new ->
  path (<[pv := f y]> (<[new := z]> h)) p (map (repl pv f) (l0 ++ [(pv, y)]) ++ (new, z) :: l2) p.
Proof.
  intros (r & H0 & -> & Hy & H2)%path_app Hn Hnew Hz Hf.
  rewrite fmap_app, fmap_cons in Hn, Hnew. cbn [fst] in Hn, Hnew.
  apply NoDup_app in Hn as (Hn0 & Hd & [Hn1 Hn2]%NoDup_cons).
  rewrite elem_of_app, elem_of_cons in Hnew.
  assert (Hpv : pv ∉ l0.*1) by (intros Hin; eapply Hd; [exact Hin|constructor]).
  rewrite map_app, (repl_other pv f l0) by done. cbn [map]. unfold repl. cbn [fst snd]. rewrite Z.eqb_refl.
  rewrite <- app_assoc. apply path_app. exists pv. split.
  { eapply path_frame; [|exact H0]. intros a Ha. rewrite !lookup_insert_ne; [done|..]; intros <-; tauto. }
  cbn [app path]. rewrite lookup_insert_eq, Hf. split; [done|split; [done|]].
  rewrite lookup_insert_ne, lookup_insert_eq by (intros <-; tauto). split; [done|split; [done|]].
  rewrite Hz. eapply path_frame; [|exact H2]. intros a Ha. rewrite !lookup_insert_ne; [done|..]; intros <-; tauto.
Qed.

Lemma insert_none c ch m id : holds c ch m -> 0 < id -> sql id = None ->
  exists c', nickcache_insert sql now junk id c = Some (NULL, c') /\ holds c' ch m.
Proof.
  intros Hh Hid Hs. unfold nickcache_insert, nc_assert. rewrite (proj2 (Z.eqb_neq id 0)) by lia. rewrite Hs.
  eexists. split; [done|]. destruct c as [h hd fr]. by apply (alloc_holds _ _ _ junk) in Hh.
Qed.

Definition fetched (row : Z * Z) : Entry := mkEntry row.1 now (u16 row.2) now.

Lemma wp_run_eq {A} (f : M Cache A) (Q : A -> Cache -> Prop) c a c' : f c = Some (a, c') -> Q a c' -> wp f Q c.
Proof. apply wp_intro. Qed.

Lemma wp_nc_assert c id (Q : unit -> Cache -> Prop) : 0 < id -> Q tt c -> wp (nc_assert (negb (id =? 0))) Q c.
Proof. intros Hid HQ. by rewrite (proj2 (Z.eqb_neq id 0)) by lia. Qed.

Lemma wp_nc_load c p x (Q : nickcache -> Cache -> Prop) : nc_heap c !! p = Some x -> Q x c -> wp (nc_load p) Q c.
Proof. intros Hp. apply wp_intro. unfold nc_load. by rewrite Hp. Qed.

Lemma wp_nc_upd c p x f (Q : unit -> Cache -> Prop) : nc_heap c !! p = Some x ->
  Q tt (mkCache (<[p := f x]> (nc_heap c)) (nickcacheheads c) (nc_fresh c)) -> wp (nc_upd p f) Q c.
Proof. intros Hp HQ. unfold nc_upd. wps. eapply wp_nc_load; [done|]. wps. by destruct c. Qed.

Lemma wp_nc_alloc c (Q : ptr -> Cache -> Prop) :
  Q (nc_fresh c) (mkCache (<[nc_fresh c := junk]> (nc_heap c)) (nickcacheheads c) (nc_fresh c + 1)) ->
  wp (nc_alloc junk) Q c.
Proof. intros HQ. unfold nc_alloc. wps. by destruct c. Qed.

Lemma wp_nc_head c k p (Q : ptr -> Cache -> Prop) : nickcacheheads c !! Z.to_nat k = Some p ->
  Q p c -> wp (nc_head k) Q c.
Proof. intros Hk. apply wp_intro. unfold nc_head. by rewrite Hk. Qed.

Lemma fresh_not_in c ch m k p : holds c ch m -> nickcacheheads c !! k = Some p -> nc_fresh c ∉ p :: (ch k).*1.
Proof.
  intros (_ & Hok & _) Hp Hin. destruct (ok_path _ _ Hok k p Hp) as (x & Hpath & _).
  eapply (path_alloc _ _ ((p, x) :: ch k)) in Hin; [|done]. pose proof (ok_fresh _ _ Hok _ Hin). lia.
Qed.

Lemma sorted_app l1 l2 id z : sorted l1 -> sorted l2 ->
  Forall (fun ax => id_of ax < id) l1 -> Forall (fun ax => id < id_of ax) l2 -> id_of z = id ->
  sorted (l1 ++ z :: l2).
Proof.
  intros Hs1 Hs2 H1 H2 Hz. induction Hs1 as [|ax l1 Hs1 IH Ha]; simpl.
  - constructor; [done|]. eapply Forall_impl; [exact H2|]. intros bx Hb. cbv beta in *. lia.
  - apply Forall_cons in H1 as [H0 H1]. constructor; [by apply IH|]. apply Forall_app. split; [done|].
    constructor; [lia|]. eapply Forall_impl; [exact H2|]. intros bx Hb. cbv beta in *. lia.
Qed.

Lemma sorted_app_inv l1 l2 : sorted (l1 ++ l2) -> sorted l1 /\ sorted l2.
Proof.
  induction l1 as [|ax l1 IH]; simpl; [split; [constructor|done]|]. inversion_clear 1 as [|? ? Hs Ha].
  apply IH in Hs as [H1 H2]. split; [|done]. constructor; [done|]. by apply Forall_app in Ha as [? _].
Qed.

(** The list with the new node is a list of the cache, which holds it too. *)
Lemma link_here c ch m id p hd l1 l2 l0 pv y z :
  holds c ch m -> 0 < id -> nickcacheheads c !! slot id = Some p ->
  ch (slot id) = l1 ++ l2 -> Forall (fun ax => id_of ax < id) l1 -> Forall (fun ax => id < id_of ax) l2 ->
  path (nc_heap c) p ((p, hd) :: l1 ++ l2) p -> nc_nick_id hd = 0 -> (p, hd) :: l1 = l0 ++ [(pv, y)] ->
  nc_nick_id z = id -> nc_next z = nc_next y ->
  here (mkCache (<[pv := y{{nc_next := nc_fresh c}}]> (<[nc_fresh c := z]> (nc_heap c)))
          (nickcacheheads c) (nc_fresh c + 1)) (<[id := entry z]> m) id (nc_fresh c) z.
Proof.
  intros Hh Hid Hp Hch H1 H2 Hpath Hhd Hl0 Hz Hzn. set (fr := nc_fresh c). set (f := fun x => x{{nc_next := fr}}).
  pose proof (fresh_not_in _ _ _ _ _ Hh Hp) as Hfr. destruct Hh as (Hlen & Hok & Hm).
  pose proof (ok_nodup _ _ Hok _ _ Hp) as Hnd. pose proof (ok_sorted _ _ Hok (slot id)) as Hs.
  rewrite Hch in Hfr, Hnd, Hs. apply sorted_app_inv in Hs as [Hs1 Hs2].
  assert (Hf : forall x, nc_nick_id (f x) = nc_nick_id x) by done.
  assert (Hfull : (p, hd) :: l1 ++ l2 = l0 ++ (pv, y) :: l2).
  { change ((p, hd) :: l1 ++ l2) with (((p, hd) :: l1) ++ l2). by rewrite Hl0, <- app_assoc. }
  assert (Hpv : pv ∈ p :: (l1 ++ l2).*1).
  { change (pv ∈ ((p, hd) :: l1 ++ l2).*1). rewrite Hfull, fmap_app. apply elem_of_app. right. constructor. }
  assert (Hids : forall ax, ax ∈ map (repl pv f) l1 -> exists bx, bx ∈ l1 /\ id_of ax = id_of bx).
  { intros ax (bx & -> & Hbx)%list_elem_of_fmap. exists bx. by rewrite repl_id. }
  assert (H1' : Forall (fun ax => id_of ax < id) (map (repl pv f) l1)).
  { apply Forall_forall. intros ax (bx & Hbx & ->)%Hids. rewrite Forall_forall in H1. by apply H1. }
  set (l' := map (repl pv f) l1 ++ (fr, z) :: l2).
  assert (Hl' : l'.*1 ≡ₚ fr :: (l1 ++ l2).*1).
  { unfold l'. rewrite !fmap_app, fmap_cons, repl_fst. cbn [fst]. by rewrite Permutation_middle. }
  exists (set_list (slot id) l' ch). split; [split; [done|split]|].
  - apply (set_list_ok c ch _ p (repl pv f (p, hd)).2); [done|done|..].
    + assert (Hlp : path (<[pv := f y]> (<[fr := z]> (nc_heap c))) p
               (map (repl pv f) (l0 ++ [(pv, y)]) ++ (fr, z) :: l2) p).
      { apply link_path; [by rewrite <- Hfull| | |done|done]; rewrite <- Hfull; done. }
      rewrite <- Hl0 in Hlp. cbn [map] in Hlp.
      assert (Hr : repl pv f (p, hd) = (p, (repl pv f (p, hd)).2)) by (unfold repl; cbn [fst]; by destruct (_ =? _)).
      by rewrite Hr in Hlp.
    + unfold repl. cbn [fst]. by destruct (_ =? _).
    + apply NoDup_cons in Hnd as [Hnd1 Hnd2]. apply not_elem_of_cons in Hfr as [Hf1 Hf2]. constructor.
      * rewrite Hl'. apply not_elem_of_cons. split; [by intros ->|done].
      * rewrite Hl'. by constructor.
    + intros a. rewrite Hl', Hch. intros [->|Ha]%elem_of_cons; [right|by left].
      apply eq_None_not_Some. intros Hs. pose proof (ok_fresh _ _ Hok _ Hs). unfold fr in *. lia.
    + intros a Ha Hs. rewrite Hch in Ha. rewrite !lookup_insert_ne; [done|..]; intros <-; [|by apply Ha].
      pose proof (ok_fresh _ _ Hok _ Hs). unfold fr in *. lia.
    + intros ax [(bx & Hbx & ->)%Hids|[->|Hax]%elem_of_cons]%elem_of_app.
      * apply (ok_ids _ _ Hok). rewrite Hch. apply elem_of_app. by left.
      * unfold id_of. cbn [snd]. by rewrite Hz.
      * apply (ok_ids _ _ Hok). rewrite Hch. apply elem_of_app. by right.
    + apply (sorted_app _ _ id); [by apply sorted_map|done|done|done|]. done.
    + pose proof (ok_next _ _ Hok). intros a [x Hx]. unfold fr in *. destruct (decide (nc_fresh c = a)) as [<-|Hne1]; [lia|].
      cut (0 < a < nc_fresh c); [lia|]. apply (ok_fresh _ _ Hok). destruct (decide (pv = a)) as [<-|Hne].
      * change (p :: (l1 ++ l2).*1) with (((p, hd) :: l1 ++ l2).*1) in Hpv. by eapply path_alloc.
      * rewrite !lookup_insert_ne in Hx by done. eauto.
    + pose proof (ok_next _ _ Hok). lia.
  - intros j. unfold set_list. destruct (decide (j = id)) as [->|Hne].
    + rewrite lookup_insert_eq. destruct (decide _); [|done]. unfold l'. rewrite node_of_app by done.
      unfold node_of. simpl. unfold id_of at 1. cbn [snd]. by rewrite Hz, Z.eqb_refl.
    + rewrite lookup_insert_ne, Hm by done. destruct (decide _) as [Es|]; [|done]. rewrite Es, Hch. unfold l'.
      rewrite !node_of_app', node_of_repl by done. destruct (node_of l1 j) as [[a x]|]; simpl.
      * unfold repl. simpl. by destruct (_ =? _).
      * unfold node_of at 2. cbn [find_first]. unfold id_of at 1. cbn [snd]. by rewrite Hz, (proj2 (Z.eqb_neq id j)).
  - unfold set_list. destruct (decide _); [|done]. unfold l'. rewrite node_of_app by done.
    unfold node_of. simpl. unfold id_of at 1. cbn [snd]. by rewrite Hz, Z.eqb_refl.
Qed.

Lemma last_fst (l : list (ptr * nickcache)) p x : List.last l.*1 p = (List.last l (p, x)).1.
Proof. induction l as [|[a y] l IH]; [done|]. rewrite fmap_cons. simpl. destruct l; [done|apply IH]. Qed.

Lemma last_snoc {A} (b : A) l : exists l0, b :: l = l0 ++ [List.last l b].
Proof.
  revert b. induction l as [|e l IH]; intros b; [by exists []|]. destruct (IH e) as [l0 Hl0].
  exists (b :: l0). cbn [app]. f_equal. rewrite Hl0 at 1. do 2 f_equal. destruct l as [|a l]; [done|]. change (List.last (a :: l) e = List.last (a :: l) b). apply last_default.
Qed.

Lemma insert_spec c ch m id row : holds c ch m -> 0 < id -> m !! id = None -> sql id = Some row ->
  wp (nickcache_insert sql now junk id) (fun r c' => exists x, here c' (<[id := entry x]> m) id r x /\
    entry x = fetched row) c.
Proof.
  intros Hh Hid Hnone Hs. pose proof Hh as (Hlen & Hok & Hm).
  destruct (slot_head c id Hlen) as [p Hp]. destruct (ok_path _ _ Hok _ _ Hp) as (hd & Hpath & Hhd).
  destruct (sorted_split _ id (ok_sorted _ _ Hok (slot id))) as (l1 & l2 & Hch & H1 & H2).
  pose proof (ok_nodup _ _ Hok _ _ Hp) as Hnd. pose proof (fresh_not_in _ _ _ _ _ Hh Hp) as Hfr.
  assert (H2' : Forall (fun ax => id < id_of ax) l2).
  { rewrite Hm, Hch, node_of_app in Hnone by done. apply Forall_forall. intros ax Hax.
    rewrite Forall_forall in H2. specialize (H2 _ Hax). cbv beta in *.
    cut (id_of ax <> id); [lia|]. intros Heq. apply fmap_None in Hnone.
    clear -Hax Heq Hnone. unfold node_of in Hnone. induction Hax as [ax l2|ax bx l2 _ IH]; simpl in Hnone.
    - by rewrite Heq, Z.eqb_refl in Hnone.
    - destruct (_ =? _); [done|auto]. }
  destruct (last_snoc (p, hd) l1) as [l0 Hl0]. destruct (List.last l1 (p, hd)) as [pv y] eqn:Elast.
  rewrite Hch in Hpath, Hnd, Hfr.
  assert (Hpv : (pv, y) ∈ (p, hd) :: l1) by (rewrite Hl0; apply elem_of_app; right; constructor).
  assert (Hpv' : (pv, y) ∈ (p, hd) :: l1 ++ l2).
  { rewrite app_comm_cons. apply elem_of_app. by left. }
  pose proof (path_in _ _ _ _ _ _ Hpath Hpv') as Hy.
  assert (Hpvf : pv <> nc_fresh c).
  { intros ->. apply Hfr. change (p :: (l1 ++ l2).*1) with (((p, hd) :: l1 ++ l2).*1).
    apply list_elem_of_fmap. by exists (nc_fresh c, y). }
  assert (Hpf : p <> nc_fresh c) by (intros ->; apply Hfr; constructor).
  unfold nickcache_insert. rewrite Hs. destruct row as [st la].
  wps. apply wp_nc_assert; [done|]. wps. apply wp_nc_alloc. wps. eapply wp_nc_upd; [simpl; apply lookup_insert_eq|]. wps.
  eapply wp_nc_head; [exact Hp|]. wps. simpl. rewrite insert_insert_eq.
  set (x := junk{{nc_nick_id := id; nc_status_timestamp := now; nc_language_timestamp := now; nc_status := st;
                  nc_language := u16 la}}).
  eapply wp_nc_load; [simpl; rewrite lookup_insert_ne by done; apply Hpath|]. wps. unfold nc_fuel. wps.
  eapply wp_run_eq.
  { eapply insert_loop_spec; [|apply NoDup_cons in Hnd; apply Hnd|done|done|].
    - simpl. eapply path_frame; [|apply Hpath]. intros a Ha. apply lookup_insert_ne. intros <-. apply Hfr. by constructor.
    - pose proof (path_length _ _ _ _ Hpath Hnd). simpl in *. rewrite map_size_insert. destruct (nc_heap c !! nc_fresh c); [unfold Datatypes.id|]; lia. }
  wps. simpl. rewrite (last_fst l1 p hd), Elast. simpl.
  eapply wp_nc_load; [simpl; by rewrite lookup_insert_ne|]. wps.
  eapply wp_nc_upd; [simpl; apply lookup_insert_eq|]. wps. simpl. rewrite insert_insert_eq.
  eapply wp_nc_upd; [simpl; by rewrite lookup_insert_ne|]. wps. simpl.
  exists (x{{nc_next := nc_next y}}). split; [|done].
  by eapply (link_here c ch m id p hd l1 l2 l0 pv y).
Qed.

(** ** What the routines do to the map *)
Definition m_insert (id : Z) m : gmap Z Entry :=
  match sql id with Some row => <[id := fetched row]> m | None => m end.

(** [None]: the nick's row is gone while the cache still has the nick. *)
Definition m_get (stamp value : Entry -> Z) (id : Z) m : option (Z * gmap Z Entry) :=
  match m !! id, sql id with
  | Some e, row =>
      if now - stamp e <? CACHE_TIME then Some (value e, m)
      else match row with Some row => Some (value (fetched row), <[id := fetched row]> m) | None => None end
  | None, Some row => Some (value (fetched row), <[id := fetched row]> m)
  | None, None => Some (0, m)
  end.

Definition m_change (f : Entry -> Entry) (id : Z) m : gmap Z Entry := alter f id (match m !! id with Some _ => m | None => m_insert id m end).

Lemma find_miss c m id : caches c m -> 0 < id -> m !! id = None -> find id c = Some (NULL, c).
Proof.
  intros (ch & Hh) Hid Hm. rewrite (find_spec _ _ _ _ Hh Hid). destruct Hh as (_ & _ & Hh). rewrite Hh in Hm.
  unfold found. by destruct (node_of _ _).
Qed.

Lemma find_hit c m id e : caches c m -> 0 < id -> m !! id = Some e ->
  exists r x, find id c = Some (r, c) /\ here c m id r x /\ entry x = e.
Proof.
  intros (ch & Hh) Hid Hm. rewrite (find_spec _ _ _ _ Hh Hid). pose proof Hh as (_ & _ & He). rewrite He in Hm.
  unfold found. destruct (node_of (ch (slot id)) id) as [[r x]|] eqn:En; [|done]. injection Hm as <-.
  exists r, x. split; [done|]. split; [|done]. by exists ch.
Qed.

Lemma here_caches c m id r x : here c m id r x -> caches c m.
Proof. intros (ch & Hh & _). by exists ch. Qed.

(** Insertion of a nick that is not there. *)
Lemma insert_caches c m id : caches c m -> 0 < id -> m !! id = None ->
  wp (nickcache_insert sql now junk id) (fun r c' =>
    match sql id with
    | Some row => exists x, here c' (<[id := fetched row]> m) id r x /\ entry x = fetched row
    | None => r = NULL /\ caches c' m
    end) c.
Proof.
  intros (ch & Hh) Hid Hm. destruct (sql id) as [row|] eqn:Es.
  - eapply wp_mono; [by eapply insert_spec|]. intros r c' (x & Hx & He). exists x. by rewrite <- He.
  - destruct (insert_none _ _ _ _ Hh Hid Es) as (c' & Hr & Hc). eapply wp_run_eq; [exact Hr|]. split; [done|by exists ch].
Qed.

Lemma update_caches fuel c m id row : caches c m -> 0 < id -> sql id = Some row ->
  wp (nickcache_update sql now junk fuel id) (fun r c' =>
    exists x, here c' (<[id := fetched row]> m) id r x /\ entry x = fetched row) c.
Proof.
  intros Hc Hid Hs. unfold nickcache_update. wps. apply wp_nc_assert; [done|]. wps.
  assert (Hlast : forall r c' m1 x, here c' m1 id r x -> <[id := fetched row]> m1 = <[id := fetched row]> m ->
    wp (let (status, language) := row in
        nc_upd r (fun x => x{{nc_status := status; nc_language := u16 language;
                              nc_status_timestamp := now; nc_language_timestamp := now}});; mret r)
      (fun r c' => exists x, here c' (<[id := fetched row]> m) id r x /\ entry x = fetched row) c').
  { intros r c' m1 x Hh Hm. destruct row as [st la]. wps.
    edestruct (upd_here c' m1 id r x) as (c'' & Hrun & Hh'); [exact Hh|exact Hid| | |eapply wp_run_eq; [exact Hrun|]]; [done..|].
    wps. eexists. split; [rewrite <- Hm; exact Hh'|done]. }
  rewrite Hs. destruct (m !! id) as [e|] eqn:Em.
  - destruct (find_hit _ _ _ _ Hc Hid Em) as (r & x & Hf & Hh & He). eapply wp_run_eq; [exact Hf|]. wps.
    destruct (here_load _ _ _ _ _ Hh) as [_ Hr]. rewrite (proj2 (Z.eqb_neq r NULL)) by done. apply wp_ret. by eapply Hlast.
  - eapply wp_run_eq; [by eapply find_miss|]. wps. eapply wp_mono; [by eapply insert_caches|].
    intros r c' Hr. cbv beta in Hr. rewrite Hs in Hr. destruct Hr as (x & Hx & He).
    eapply Hlast; [exact Hx|]. apply insert_insert_eq.
Qed.

Lemma nickcache_get_spec (stamp value : nickcache -> Z) estamp evalue fuel c m id a m' :
  (forall x, estamp (entry x) = stamp x) -> (forall x, evalue (entry x) = value x) ->
  caches c m -> 0 < id -> m_get estamp evalue id m = Some (a, m') ->
  wp (nickcache_get sql now junk stamp value fuel id) (fun b c' => b = a /\ caches c' m') c.
Proof.
  intros Hst Hva Hc Hid Hg. unfold nickcache_get. wps. apply wp_nc_assert; [done|]. wps. unfold m_get in Hg.
  assert (Hlast : forall r c' m1 x, here c' m1 id r x -> evalue (entry x) = a -> m1 = m' ->
    wp (if r =? NULL then mret 0 else x ← nc_load r; mret (value x)) (fun b c' => b = a /\ caches c' m') c').
  { intros r c' m1 x Hh <- <-. destruct (here_load _ _ _ _ _ Hh) as [Hl Hr].
    rewrite (proj2 (Z.eqb_neq r NULL)) by done. wps. eapply wp_run_eq; [exact Hl|]. wps.
    split; [by rewrite Hva|by eapply here_caches]. }
  destruct (m !! id) as [e|] eqn:Em.
  - destruct (find_hit _ _ _ _ Hc Hid Em) as (r & x & Hf & Hh & <-). eapply wp_run_eq; [exact Hf|]. wps.
    destruct (here_load _ _ _ _ _ Hh) as [Hl Hr]. rewrite (proj2 (Z.eqb_neq r NULL)) by done. wps.
    eapply wp_run_eq; [exact Hl|]. rewrite <- Hst, Z.leb_antisym.
    destruct (now - estamp (entry x) <? CACHE_TIME); cbn [negb].
    + injection Hg as <- <-. wps. by eapply Hlast.
    + destruct (sql id) as [row|] eqn:Es; [|done]. injection Hg as Ha Hm'.
      eapply wp_mono; [by eapply update_caches|]. intros r' c' (y & Hy & Hye). eapply Hlast; [exact Hy| |done].
      by rewrite Hye.
  - eapply wp_run_eq; [by eapply find_miss|]. wps. eapply wp_mono; [by eapply insert_caches|].
    intros r c' Hr. cbv beta in Hr. destruct (sql id) as [row|].
    + injection Hg as Ha Hm'. destruct Hr as (x & Hx & He). eapply Hlast; [exact Hx|by rewrite He|done].
    + destruct Hr as [-> Hc']. injection Hg as <- <-. by wps.
Qed.

Lemma nickcache_change_spec f ef c m id : caches c m -> 0 < id ->
  (forall x, nc_next (f x) = nc_next x) -> (forall x, nc_nick_id (f x) = nc_nick_id x) ->
  (forall x, entry (f x) = ef (entry x)) ->
  wp (nickcache_change sql now junk id f) (fun _ c' => caches c' (m_change ef id m)) c.
Proof.
  intros Hc Hid Hnx Hni Hef. unfold nickcache_change. wps. apply wp_nc_assert; [done|]. wps.
  assert (Hlast : forall r c' m1 x, here c' m1 id r x -> 
    wp (when (negb (r =? NULL)) (nc_upd r f)) (fun _ c' => caches c' (alter ef id m1)) c').
  { intros r c' m1 x Hh. destruct (here_load _ _ _ _ _ Hh) as [Hl Hr].
    rewrite (proj2 (Z.eqb_neq r NULL)) by done. cbn [negb when].
    destruct (upd_here c' m1 id r x f Hh Hid Hnx Hni) as (c'' & Hrun & Hh'). eapply wp_run_eq; [exact Hrun|].
    apply here_caches in Hh'. erewrite alter_insert_eq'; [rewrite <- Hef; exact Hh'|]. by eapply here_lookup. }
  unfold m_change, m_insert. destruct (m !! id) as [e|] eqn:Em.
  - destruct (find_hit _ _ _ _ Hc Hid Em) as (r & x & Hf & Hh & He). eapply wp_run_eq; [exact Hf|]. wps.
    destruct (here_load _ _ _ _ _ Hh) as [_ Hr]. rewrite (proj2 (Z.eqb_neq r NULL)) by done. apply wp_bind, wp_ret. by eapply Hlast.
  - eapply wp_run_eq; [by eapply find_miss|]. wps. eapply wp_mono; [by eapply insert_caches|].
    intros r c' Hr. cbv beta in Hr. destruct (sql id) as [row|].
    + destruct Hr as (x & Hx & He). by eapply Hlast.
    + destruct Hr as [-> Hc']. wps; [done|]. by rewrite alter_id'.
Qed.

(** ** The start *)
Lemma init_loop_spec n c : 0 < nc_fresh c -> nickcacheheads c = [] ->
  (forall a, is_Some (nc_heap c !! a) -> 0 < a < nc_fresh c) ->
  wp (init_loop junk n) (fun _ c' => length (nickcacheheads c') = n /\ lists_ok c' (fun _ => [])) c.
Proof.
  intros Hf Hh Hb. induction n as [|n IH]; simpl.
  { wps. rewrite Hh. split; [done|]. split; simpl; rewrite ?Hh; [done|done|done| |constructor|done|done].
    intros k ax Hax. by apply elem_of_nil in Hax. }
  wps. eapply wp_mono; [exact IH|]. intros _ c1 [Hlen Hok]. apply wp_bind, wp_nc_alloc. wps.
  eapply wp_nc_upd; [simpl; apply lookup_insert_eq|]. wps. simpl. rewrite insert_insert_eq.
  split; [rewrite length_app; simpl; lia|]. set (p := nc_fresh c1).
  assert (Hnew : forall k q, nickcacheheads c1 !! k = Some q -> q <> p).
  { intros k q Hq ->. destruct (ok_path _ _ Hok _ _ Hq) as (x & (_ & Hx & _) & _).
    pose proof (ok_fresh _ _ Hok p ltac:(eauto)). unfold p in *. lia. }
  assert (Hhd : forall k q, (nickcacheheads c1 ++ [p]) !! k = Some q ->
            nickcacheheads c1 !! k = Some q \/ k = n /\ q = p).
  { intros k q [?|[Hk Hq]]%lookup_app_Some; [by left|]. apply list_lookup_singleton_Some in Hq as [Hq <-].
    right. split; [lia|done]. }
  pose proof (ok_next _ _ Hok) as Hpos. split; simpl.
  - intros k q [Hq|[-> ->]]%Hhd.
    + destruct (ok_path _ _ Hok _ _ Hq) as (x & (_ & Hx & Hn) & Hid). exists x.
      rewrite lookup_insert_ne by (apply not_eq_sym; by eapply Hnew). done.
    + eexists. rewrite lookup_insert_eq. done.
  - intros k q _. constructor; [apply not_elem_of_nil|constructor].
  - intros j k q r a [Hq|[-> ->]]%Hhd [Hr|[-> ->]]%Hhd Hne Ha; apply list_elem_of_singleton in Ha as ->; rewrite list_elem_of_singleton.
    + intros ->. eapply (ok_disjoint _ _ Hok j k); [exact Hq|exact Hr|done|constructor|constructor].
    + by eapply Hnew.
    + apply not_eq_sym. by eapply Hnew.
    + done.
  - intros k ax Hax. by apply elem_of_nil in Hax.
  - constructor.
  - intros a [x Hx]. unfold p in *. destruct (decide (nc_fresh c1 = a)) as [<-|]; [lia|].
    rewrite lookup_insert_ne in Hx by done. pose proof (ok_fresh _ _ Hok a ltac:(eauto)). lia.
  - unfold p. lia.
Qed.

Lemma nickcache_init_spec c : 0 < nc_fresh c -> (forall a, is_Some (nc_heap c !! a) -> 0 < a < nc_fresh c) ->
  wp (nickcache_init junk) (fun _ c' => caches c' ∅) c.
Proof.
  intros Hf Hb. unfold nickcache_init. wps. eapply wp_mono; [by apply init_loop_spec|].
  intros _ c' [Hlen Hok]. exists (fun _ => []). split; [done|]. split; [done|]. done.
Qed.

(** ** The end *)
Lemma wp_nc_free c p (Q : unit -> Cache -> Prop) : is_Some (nc_heap c !! p) ->
  Q tt (mkCache (delete p (nc_heap c)) (nickcacheheads c) (nc_fresh c)) -> wp (nc_free p) Q c.
Proof. intros [x Hp] HQ. unfold nc_free. wps. eapply wp_nc_load; [done|]. wps. by destruct c. Qed.

Definition freed (l : list ptr) c : Cache :=
  mkCache (foldr delete (nc_heap c) l) (nickcacheheads c) (nc_fresh c).

Lemma freed_lookup l c a : a ∉ l -> nc_heap (freed l c) !! a = nc_heap c !! a.
Proof.
  simpl. induction l as [|b l IH]; [done|]. intros [Hne Hl]%not_elem_of_cons. simpl.
  rewrite lookup_delete_ne by done. by apply IH.
Qed.

Lemma freed_gone l c a : a ∈ l -> nc_heap (freed l c) !! a = None.
Proof.
  simpl. induction 1 as [b l|b d l _ IH]; simpl; [by rewrite lookup_delete_eq|].
  destruct (decide (d = b)) as [->|]; [by rewrite lookup_delete_eq|by rewrite lookup_delete_ne].
Qed.

Lemma delete_foldr (h : gmap ptr nickcache) p l : foldr delete (delete p h) l = delete p (foldr delete h l).
Proof. induction l as [|a l IH]; [done|]. simpl. by rewrite IH, delete_delete. Qed.

Lemma delall_loop_spec fuel head p x l c : path (nc_heap c) p ((p, x) :: l) head -> head ∉ l.*1 ->
  NoDup (p :: l.*1) -> (length l < fuel)%nat ->
  wp (nc ← delall_loop fuel head p; nc_free nc) (fun _ c' => c' = freed (p :: l.*1) c) c.
Proof.
  revert p x l c. induction fuel as [|fuel IH]; intros p x l c (_ & Hx & Hp) Hh Hn Hf; [lia|].
  simpl. wps. eapply wp_nc_load; [exact Hx|]. destruct l as [|[b y] l].
  - simpl in Hp. rewrite Hp, Z.eqb_refl. wps. apply wp_nc_free; [eauto|]. by destruct c.
  - assert (Hb : nc_next x = b) by apply Hp. rewrite fmap_cons in *. cbn [fst] in *.
    apply not_elem_of_cons in Hh as [Hne Hh]. apply NoDup_cons in Hn as [Hp1 Hn].
    rewrite Hb, (proj2 (Z.eqb_neq b head)) by congruence. wps. apply wp_nc_free; [eauto|].
    set (c1 := mkCache (delete p (nc_heap c)) (nickcacheheads c) (nc_fresh c)).
    rewrite <- wp_bind. eapply wp_mono.
    + apply (IH b y l c1); [|done|done|simpl in Hf; lia]. rewrite Hb in Hp. eapply path_frame; [|exact Hp].
      intros a Ha. simpl. apply lookup_delete_ne. intros <-. by apply Hp1.
    + intros _ c' ->. unfold freed, c1. simpl. by rewrite delete_foldr, delete_delete.
Qed.

Definition on_list c (ch : nat -> list (ptr * nickcache)) (k : nat) (a : ptr) : Prop :=
  exists p, nickcacheheads c !! k = Some p /\ a ∈ p :: (ch k).*1.

Lemma freed_freed l l' c : freed l (freed l' c) = freed (l ++ l') c.
Proof. unfold freed. simpl. by rewrite foldr_app. Qed.

Lemma delall_lists ks c ch D : lists_ok c ch -> NoDup ks -> (forall k, k ∈ ks -> is_Some (nickcacheheads c !! k)) ->
  (forall k a, k ∈ ks -> on_list c ch k a -> a ∉ D) ->
  wp (for_each (Z.of_nat <$> ks) (fun i =>
        head ← nc_head i; fuel ← nc_fuel; nc ← delall_loop fuel head head; nc_free nc))
     (fun _ c' => exists D', c' = freed D' c /\ forall a, a ∈ D' <-> a ∈ D \/ exists k, k ∈ ks /\ on_list c ch k a)
     (freed D c).
Proof.
  intros Hok. revert D. induction ks as [|k ks IH]; intros D Hn Hk HD.
  { simpl. wps. exists D. split; [done|]. intros a. split; [by left|]. intros [?|(k & Hk' & _)]; [done|].
    by apply elem_of_nil in Hk'. }
  rewrite fmap_cons. simpl. apply NoDup_cons in Hn as [Hnk Hn].
  destruct (Hk k ltac:(constructor)) as [p Hp]. destruct (ok_path _ _ Hok _ _ Hp) as (x & Hpath & _).
  pose proof (ok_nodup _ _ Hok _ _ Hp) as Hnd.
  assert (Hpath' : path (nc_heap (freed D c)) p ((p, x) :: ch k) p).
  { eapply path_frame; [|exact Hpath]. intros a Ha. apply freed_lookup. apply (HD k); [constructor|by exists p]. }
  wps. eapply wp_nc_head; [rewrite Nat2Z.id; exact Hp|]. unfold nc_fuel. wps. rewrite <- wp_bind. eapply wp_mono.
  { apply (delall_loop_spec _ _ _ x (ch k)); [done|by apply NoDup_cons in Hnd as [? _]|done|].
    pose proof (path_length _ _ _ _ Hpath' Hnd) as Hl. simpl length in Hl. lia. }
  intros _ c' ->. rewrite freed_freed. eapply wp_mono.
  - apply IH; [done|by intros j Hj; apply Hk; constructor|]. intros j a Hj (q & Hq & Ha) Hin.
    apply elem_of_app in Hin as [Hin|Hin].
    + eapply (ok_disjoint _ _ Hok j k q p a); [done|done| |done|done]. by intros ->.
    + eapply (HD j a); [by constructor|by exists q|done].
  - intros _ c' (D' & -> & HD'). exists D'. split; [done|]. intros a. rewrite HD', elem_of_app. split.
    + intros [[Ha|Ha]|(j & Hj & Ha)]; [right; exists k; split; [constructor|by exists p]|by left|].
      right. exists j. by split; [constructor|].
    + intros [Ha|(j & Hj & Ha)]; [by left; right|]. apply elem_of_cons in Hj as [->|Hj]; [|right; by exists j].
      left. left. destruct Ha as (q & Hq & Ha). by replace p with q by congruence.
Qed.

(** Everything on the lists is freed, once, and nothing else. *)
Lemma nickcache_delall_spec c ch m : holds c ch m ->
  wp nickcache_delall (fun _ c' => forall a,
    ((exists k, on_list c ch k a) -> nc_heap c' !! a = None) /\
    (~ (exists k, on_list c ch k a) -> nc_heap c' !! a = nc_heap c !! a)) c.
Proof.
  intros (Hlen & Hok & _). unfold nickcache_delall. replace c with (freed [] c) at 1 by by destruct c.
  replace (seqZ 0 HASH_M) with (Z.of_nat <$> seq 0 (Z.to_nat HASH_M)) by reflexivity.
  assert (Hin : forall k, k ∈ seq 0 (Z.to_nat HASH_M) <-> is_Some (nickcacheheads c !! k)).
  { intros k. rewrite lookup_lt_is_Some, list_elem_of_In, in_seq, Hlen. lia. }
  eapply wp_mono; [apply (delall_lists _ c ch []); [done|apply NoDup_ListNoDup, seq_NoDup|by intros k ?%Hin|]|].
  - intros k a _ _ Ha. by apply elem_of_nil in Ha.
  - intros _ c' (D & -> & HD). intros a. split.
    + intros (k & Hk). apply freed_gone, HD. right. exists k. split; [|done]. apply Hin.
      destruct Hk as (p & Hp & _). by exists p.
    + intros Hno. apply freed_lookup. intros [Ha|(k & _ & Hk)]%HD; [by apply elem_of_nil in Ha|].
      apply Hno. by exists k.
Qed.

(** ** Deletion *)

(** The nodes before the one looked for have smaller ids, and no node is its own successor. *)
Lemma del_loop_spec fuel z nc n l1 r x l2 q id c :
  path (nc_heap c) nc ((nc, n) :: l1 ++ (r, x) :: l2) q -> NoDup (nc :: (l1 ++ (r, x) :: l2).*1) ->
  Forall (fun ax => id_of ax < id) ((nc, n) :: l1) -> nc_nick_id x = id -> (S (length l1) < fuel)%nat ->
  del_loop fuel z nc id c = Some (Some (List.last l1.*1 nc, r), c).
Proof.
  revert z nc n l1. induction fuel as [|fuel IH]; intros z nc n l1 (_ & Hn & Hp) Hnd H1 Hx Hf; [lia|].
  simpl. unfold nc_load, mbind, M_bind. rewrite Hn. apply Forall_cons in H1 as [H1 H1'].
  unfold id_of in H1. cbn [snd] in H1. rewrite (proj2 (Z.eqb_neq _ id)), (proj2 (Z.ltb_ge id _)) by lia.
  apply NoDup_cons in Hnd as [Hnc Hnd]. destruct l1 as [|[a y] l1]; cbn [app] in *.
  - destruct Hp as (Hnx & Hr & Hp). rewrite fmap_cons in Hnc. cbn [fst] in Hnc.
    rewrite Hnx, (proj2 (Z.eqb_neq nc r)) by (intros ->; apply Hnc; constructor). cbn [orb].
    destruct fuel as [|fuel]; [simpl in Hf; lia|]. simpl. unfold nc_load, mbind, M_bind. by rewrite Hr, Hx, Z.eqb_refl.
  - destruct Hp as (Hnx & Ha & Hp). rewrite fmap_cons in Hnc. cbn [fst] in Hnc.
    rewrite Hnx, (proj2 (Z.eqb_neq nc a)) by (intros ->; apply Hnc; constructor). cbn [orb].
    rewrite (IH nc a y l1) by (done || (simpl in Hf; lia)). do 3 f_equal. rewrite fmap_cons. cbn [fst].
    change (List.last (a :: l1.*1) nc) with (match l1.*1 with [] => a | _ => List.last l1.*1 nc end).
    destruct l1.*1; [done|]. f_equal. apply last_default.
Qed.

(** A search that comes to a freed node. *)
Lemma find_loop_fault fuel head p l z id c : path (nc_heap c) p l z -> Forall (fun ax => id_of ax < id) l ->
  nc_heap c !! z = None -> head ∉ l.*1 -> z <> head -> find_loop fuel head p id c = None.
Proof.
  revert p l. induction fuel as [|fuel IH]; intros p l Hp H1 Hz Hh Hne; [done|]. simpl.
  unfold nc_load, mbind, M_bind. destruct l as [|[a x] l]; simpl in Hp.
  - subst p. by rewrite (proj2 (Z.eqb_neq z head)), Hz.
  - destruct Hp as (-> & Ha & Hp). apply not_elem_of_cons in Hh as [Hne' Hh]. simpl in Hne'.
    rewrite (proj2 (Z.eqb_neq a head)), Ha by done. apply Forall_cons in H1 as [H1 H1']. unfold id_of in H1. simpl in H1.
    rewrite (proj2 (Z.ltb_ge id _)), (proj2 (Z.eqb_neq _ id)) by lia. by eapply IH.
Qed.

Lemma search_broken c c' p hd l1 z id : nc_heap c !! p = Some hd -> z = List.last l1.*1 p ->
  (exists q, path (nc_heap c) (nc_next hd) l1 q) -> NoDup (p :: l1.*1) -> Forall (fun ax => id_of ax < id) l1 ->
  (forall a, a ∈ p :: l1.*1 -> nc_heap c' !! a = nc_heap c !! a \/ a = z) -> nc_heap c' !! z = None ->
  nc_heap c' !! p = None \/ nc_heap c' !! p = Some hd /\ forall f, find_loop f p (nc_next hd) id c' = None.
Proof.
  intros Hp Hz (q & Hpath) Hnd H1 Hsame Hgone. apply NoDup_cons in Hnd as [Hnp Hnd].
  destruct l1 as [|ax l1 _] using rev_ind; [left; by rewrite Hz in Hgone|]. right. destruct ax as [a w].
  rewrite fmap_app in *. cbn in Hz, Hnp, Hnd, Hsame. rewrite last_last in Hz. subst a.
  apply Forall_app in H1 as [H1 _]. apply path_app in Hpath as (q' & Hpath & -> & Hzw & _).
  rewrite elem_of_app, list_elem_of_singleton in Hnp. apply NoDup_app in Hnd as (Hnd & Hd & _). split.
  - destruct (Hsame p ltac:(constructor)) as [-> | ->]; [done|tauto].
  - intros f. eapply find_loop_fault; [|exact H1|exact Hgone|tauto|intros ->; tauto].
    eapply path_frame; [|exact Hpath]. intros b Hb. destruct (Hsame b) as [? | ->]; [|done|].
    + constructor. apply elem_of_app. by left.
    + exfalso. eapply Hd; [exact Hb|constructor].
Qed.

Lemma nickcache_del_spec fuel c m id e : caches c m -> 0 < id -> m !! id = Some e -> (size (nc_heap c) < fuel)%nat ->
  exists c', nickcache_del fuel id c = Some (tt, c') /\ find id c' = None.
Proof.
  intros (ch & Hlen & Hok & Hm) Hid He Hf. destruct (slot_head c id Hlen) as [p Hp].
  destruct (ok_path _ _ Hok _ _ Hp) as (hd & Hpath & Hhd). pose proof (ok_nodup _ _ Hok _ _ Hp) as Hnd.
  destruct (sorted_split _ id (ok_sorted _ _ Hok (slot id))) as (l1 & l2 & Hch & H1 & H2).
  rewrite Hm, Hch, node_of_app in He by done. destruct l2 as [|[r x] l2]; [done|]. rewrite Hch in Hpath, Hnd.
  assert (Hx : nc_nick_id x = id).
  { pose proof (ok_sorted _ _ Hok (slot id)) as Hs. rewrite Hch in Hs. apply sorted_app_inv in Hs as [_ Hs].
    inversion_clear Hs as [|? ? _ Ha]. unfold node_of in He. cbn [find_first] in He. unfold id_of at 1 in He. cbn [snd] in He.
    destruct (Z.eqb_spec (nc_nick_id x) id); [done|]. fold (node_of l2 id) in He.
    destruct (node_of l2 id) as [bx|] eqn:En; [|done]. apply node_of_in in En as [Hin Hb].
    rewrite Forall_forall in Ha. specialize (Ha _ Hin). apply Forall_cons in H2 as [H2 _]. unfold id_of in *. simpl in *. lia. }
  set (full := (p, hd) :: l1 ++ (r, x) :: l2) in *.
  assert (Hheap : forall a y, (a, y) ∈ full -> nc_heap c !! a = Some y) by (intros a y; by apply path_in with (1 := Hpath)).
  assert (Hnext : is_Some (nc_heap c !! nc_next x)).
  { destruct Hpath as (_ & _ & (q & _ & -> & _ & Hp2)%path_app). destruct l2 as [|[b y] l2].
    - rewrite Hp2. exists hd. apply Hheap. constructor.
    - destruct Hp2 as (-> & Hb & _). eauto. }
  destruct Hnext as [y Hy]. set (z := List.last l1.*1 p).
  assert (Hz : z ∈ p :: l1.*1).
  { unfold z. destruct (last_snoc p l1.*1) as [l0 ->]. apply elem_of_app. right. constructor. }
  pose proof Hnd as Hnd'. rewrite fmap_app, fmap_cons in Hnd'. cbn [fst] in Hnd'.
  change (NoDup ((p :: l1.*1) ++ r :: l2.*1)) in Hnd'. apply NoDup_app in Hnd' as (Hnd1 & Hnd2 & _).
  assert (Hzr : z <> r) by (intros Heq; apply (Hnd2 z Hz); rewrite Heq; constructor).
  assert (Hz' : is_Some (nc_heap c !! z)).
  { eapply path_alloc; [exact Hpath|]. unfold full. rewrite fmap_cons, fmap_app. cbn [fst].
    change (z ∈ (p :: l1.*1) ++ ((r, x) :: l2).*1). apply elem_of_app. by left. }
  assert (Hr : nc_heap c !! r = Some x).
  { apply Hheap. unfold full. constructor. apply elem_of_app. right. constructor. }
  set (c' := mkCache (delete z (<[r := x{{nc_next := nc_next y}}]> (nc_heap c))) (nickcacheheads c) (nc_fresh c)).
  exists c'. split.
  - assert (Hw : wp (nickcache_del fuel id) (fun _ c1 => c1 = c') c).
    { unfold nickcache_del. wps. apply wp_nc_assert; [done|]. wps. eapply wp_nc_head; [exact Hp|]. wps.
      eapply wp_run_eq.
      { apply (del_loop_spec fuel p p hd l1 r x l2 p); [done|done| |done|].
        - constructor; [unfold id_of; cbn [snd]; lia|done].
        - pose proof (path_length _ _ _ _ Hpath Hnd) as Hl. unfold full in Hl. simpl in Hl. rewrite length_app in Hl. simpl in Hl. lia. }
      cbv beta iota. fold z. wps. eapply wp_nc_load; [exact Hr|]. wps. eapply wp_nc_load; [exact Hy|]. wps.
      wps. eapply wp_nc_upd; [exact Hr|]. apply wp_nc_free; [|done]. simpl. by rewrite lookup_insert_ne. }
    apply wp_run in Hw as ([] & c1 & Hrun & ->). done.
  - unfold find, nc_assert, nc_head, nc_load, nc_fuel, gets, mbind, M_bind, mret, M_ret.
    rewrite (proj2 (Z.eqb_neq id 0)) by lia. cbn [negb]. fold (slot id). cbn [nickcacheheads c']. rewrite Hp.
    assert (Hsearch : nc_heap c' !! p = None \/ nc_heap c' !! p = Some hd /\
              forall f, find_loop f p (nc_next hd) id c' = None).
    { apply (search_broken c c' p hd l1 z id); [|done| |done|done|..].
      + apply Hheap. constructor.
      + destruct Hpath as (_ & _ & Hp1). apply path_app in Hp1 as (q & Hp1 & _). by exists q.
      + intros a Ha. unfold c'. simpl. destruct (decide (a = z)) as [->|Hne]; [rewrite lookup_delete_eq; by right|left].
        rewrite lookup_delete_ne, lookup_insert_ne; [done| |done]. intros <-. apply (Hnd2 r Ha). constructor.
      + apply lookup_delete_eq. }
    destruct Hsearch as [-> | [-> Hs]]; [done|]. apply Hs.
Qed.

(** What the cache offers to the rest of the program. *)
Inductive CacheOp :=
  | GetStatus (nick_id : Z) | GetLanguage (nick_id : Z)
  | SetStatus (nick_id status : Z) | AddStatus (nick_id status : Z) | RemoveStatus (nick_id status : Z)
  | SetLanguage (nick_id language : Z) | Update (nick_id : Z).

Definition op_id (o : CacheOp) : Z :=
  match o with
  | GetStatus i | GetLanguage i | SetStatus i _ | AddStatus i _ | RemoveStatus i _ | SetLanguage i _ | Update i => i
  end.

Definition run_op (fuel : nat) (o : CacheOp) : M Cache Z :=
  match o with
  | GetStatus i => nickcache_get_status sql now junk fuel i
  | GetLanguage i => nickcache_get_language sql now junk fuel i
  | SetStatus i s => nickcache_set_status sql now junk i s;; mret 0
  | AddStatus i s => nickcache_add_status sql now junk i s;; mret 0
  | RemoveStatus i s => nickcache_remove_status sql now junk i s;; mret 0
  | SetLanguage i l => nickcache_set_language sql now junk i l;; mret 0
  | Update i => nickcache_update sql now junk fuel i;; mret 0
  end.

Definition with_status (f : Z -> Z) (e : Entry) : Entry := mkEntry (f (e_status e)) now (e_language e) (e_language_time e).

(** The same on a map from nick ids. *)
Definition m_op (o : CacheOp) m : option (Z * gmap Z Entry) :=
  match o with
  | GetStatus i => m_get e_status_time e_status i m
  | GetLanguage i => m_get e_language_time e_language i m
  | SetStatus i s => Some (0, m_change (with_status (fun _ => s)) i m)
  | AddStatus i s => Some (0, m_change (with_status (Z.lor s)) i m)
  | RemoveStatus i s => Some (0, m_change (with_status (Z.land (Z.lnot s))) i m)
  | SetLanguage i l => Some (0, m_change (fun e => mkEntry (e_status e) (e_status_time e) (u16 l) now) i m)
  | Update i => row ← sql i; Some (0, <[i := fetched row]> m)
  end.

Lemma change_op f ef c m id : caches c m -> 0 < id ->
  (forall x, nc_next (f x) = nc_next x) -> (forall x, nc_nick_id (f x) = nc_nick_id x) ->
  (forall x, entry (f x) = ef (entry x)) ->
  wp (nickcache_change sql now junk id f;; mret 0) (fun a c' => a = 0 /\ caches c' (m_change ef id m)) c.
Proof.
  intros Hc Hid Hn Hi Hf. apply wp_bind. eapply wp_mono; [by eapply nickcache_change_spec|]. intros ? c' Hc'. by wps.
Qed.

Lemma run_op_spec fuel o c m a m' : caches c m -> 0 < op_id o -> m_op o m = Some (a, m') ->
  wp (run_op fuel o) (fun b c' => b = a /\ caches c' m') c.
Proof.
  intros Hc Hid Hm. destruct o; simpl in *.
  1,2: by apply (nickcache_get_spec _ _ _ _ _ _ m _ _ _ (fun _ => eq_refl) (fun _ => eq_refl)) with (3 := Hm).
  5: { destruct (sql nick_id) as [row|] eqn:Es; [|done]. injection Hm as <- <-. apply wp_bind.
    eapply wp_mono; [by eapply update_caches|]. intros r c' (x & Hx & _). wps. split; [done|by eapply here_caches]. }
  all: injection Hm as <- <-; by apply change_op.
Qed.

(** C29: The nodes of a cache that hold a nick each form a map, and the 151 sorted
    lists implement every operation as the one on the map: what is not cached, or
    was cached an hour ago, is read from the table, anything else is answered from
    the cache.  The case left out, [m_op] without a result, is that of a nick
    cached an hour ago whose row is gone. *)
Theorem cache_refines fuel o c m a m' : caches c m -> 0 < op_id o -> m_op o m = Some (a, m') ->
  wp (run_op fuel o) (fun b c' => b = a /\ caches c' m') c.
Proof. apply run_op_spec. Qed.

(** At the end everything on the lists is freed, once, and nothing else is. *)
Theorem nickcache_delall_correct c ch m : holds c ch m ->
  wp nickcache_delall (fun _ c' => forall a,
    ((exists k, on_list c ch k a) -> nc_heap c' !! a = None) /\
    (~ (exists k, on_list c ch k a) -> nc_heap c' !! a = nc_heap c !! a)) c.
Proof. apply nickcache_delall_spec. Qed.

(** C39: [nickcache_del] frees the node before the one it is asked to remove.  When a
    nick was cached an hour ago and its row is gone, the request for its status
    answers 0, and the next one reads freed memory. *)
Theorem stale_nick_corrupts fuel c m id e sql' now' fuel' : caches c m -> 0 < id -> m !! id = Some e ->
  CACHE_TIME <= now - e_status_time e -> sql id = None -> (size (nc_heap c) < fuel)%nat ->
  exists c', nickcache_get_status sql now junk fuel id c = Some (0, c') /\
    nickcache_get_status sql' now' junk fuel' id c' = None.
Proof.
  intros Hc Hid He Hold Hsql Hf. destruct (nickcache_del_spec fuel c m id e) as (c' & Hdel & Hfind); [done..|].
  exists c'. assert (Hassert : forall c0, nc_assert (negb (id =? 0)) c0 = Some (tt, c0))
    by (intros c0; by rewrite (proj2 (Z.eqb_neq id 0)) by lia).
  destruct (find_hit _ _ _ _ Hc Hid He) as (r & x & Hr & Hh & <-). destruct (here_load _ _ _ _ _ Hh) as [Hl Hr0].
  unfold nickcache_get_status, nickcache_get, nickcache_update, mbind, M_bind, mret, M_ret. rewrite !Hassert, Hfind, Hr.
  split; [|done]. rewrite (proj2 (Z.eqb_neq r NULL)) by done. rewrite Hl.
  change (nc_status_timestamp x) with (e_status_time (entry x)). rewrite (proj2 (Z.leb_le _ _)) by done.
  rewrite Hassert, Hr, (proj2 (Z.eqb_neq r NULL)) by done. by rewrite Hsql, Hdel.
Qed.

(** A search for a nick whose list has only smaller ids never ends. *)
Lemma del_loop_endless k p ch c id z nc x fuel : lists_ok c ch -> nickcacheheads c !! k = Some p -> ch k <> [] ->
  0 < id -> Forall (fun ax => id_of ax < id) (ch k) -> nc ∈ p :: (ch k).*1 -> nc_heap c !! nc = Some x ->
  del_loop fuel z nc id c = None.
Proof.
  intros Hok Hp Hne Hid Hsm. destruct (ok_path _ _ Hok _ _ Hp) as (hd & Hpath & Hhd).
  pose proof (ok_nodup _ _ Hok _ _ Hp) as Hnd. revert z nc x. induction fuel as [|fuel IH]; intros z nc x Hin Hx; [done|].
  simpl. unfold nc_load, mbind, M_bind. rewrite Hx.
  assert (Hnode : (nc, x) ∈ (p, hd) :: ch k).
  { change (nc ∈ ((p, hd) :: ch k).*1) in Hin. apply list_elem_of_fmap in Hin as ([nc' x'] & -> & Hin).
    pose proof (path_in _ _ _ _ _ _ Hpath Hin) as Hx'. simpl in *. by replace x with x' by congruence. }
  assert (Hlt : nc_nick_id x < id).
  { apply elem_of_cons in Hnode as [[= -> ->]|Hnode]; [lia|]. rewrite Forall_forall in Hsm. by apply (Hsm (nc, x)). }
  rewrite (proj2 (Z.eqb_neq _ id)), (proj2 (Z.ltb_ge id _)) by lia.
  apply list_elem_of_split in Hnode as (l1 & l2 & Hfull). rewrite Hfull in Hpath.
  apply path_app in Hpath as (q & _ & -> & _ & Hp2).
  assert (Hnext : nc_next x ∈ p :: (ch k).*1 /\ nc_next x <> nc).
  { change (p :: (ch k).*1) with (((p, hd) :: ch k).*1). change (p :: (ch k).*1) with (((p, hd) :: ch k).*1) in Hnd.
    rewrite Hfull in *. rewrite fmap_app, fmap_cons in *. cbn [fst] in *.
    destruct l2 as [|[b y] l2].
    - rewrite Hp2. destruct l1 as [|[a w] l1]; [simpl in Hfull; by injection Hfull as -> -> Hch|].
      simpl in Hfull. injection Hfull as <- <- Hch. split; [constructor|]. intros <-.
      apply NoDup_app in Hnd as (_ & Hd & _). eapply Hd; constructor.
    - destruct Hp2 as (-> & _). split; [apply elem_of_app; right; do 2 constructor|]. intros <-.
      apply NoDup_app in Hnd as (_ & _ & Hd). apply NoDup_cons in Hd as [Hd _]. apply Hd. constructor. }
  destruct Hnext as [Hnext Hself]. rewrite (proj2 (Z.eqb_neq nc (nc_next x))) by congruence. cbn [orb].
  destruct (ok_path _ _ Hok _ _ Hp) as (hd' & Hpath' & _).
  assert (is_Some (nc_heap c !! nc_next x)) as [y Hy] by (eapply (path_alloc _ _ ((p, hd') :: ch k)); [exact Hpath'|exact Hnext]).
  by eapply IH.
Qed.
End Operations.

(** ** A cache with the table of two nicks *)
Module Witness.
Definition junk : nickcache := mkNickcache 77 77 77 77 77 77.
Definition sql (id : Z) : option (Z * Z) := if id =? 7 then Some (32768, 2) else if id =? 158 then Some (2, 0) else None.
Definition empty : Cache := mkCache ∅ [] 1.

Lemma empty_init : wp (nickcache_init junk) (fun _ c' => caches c' ∅) empty.
Proof. apply nickcache_init_spec; [done|]. intros a [x Hx]. simpl in Hx. by rewrite lookup_empty in Hx. Qed.

Definition cache : Cache := match nickcache_init junk empty with Some (_, c) => c | None => empty end.

Lemma cache_holds : caches cache ∅.
Proof.
  pose proof empty_init as Hi. unfold wp, cache in *. destruct (nickcache_init junk empty) as [[[] c]|]; [exact Hi|destruct Hi].
Qed.

Lemma cache_refines_witness : exists a m', m_op sql 1000 (GetStatus 7) ∅ = Some (a, m') /\ a = 32768 /\
  wp (run_op sql 1000 junk 0 (GetStatus 7)) (fun b c' => b = a /\ caches c' m') cache.
Proof.
  do 2 eexists. split; [reflexivity|]. split; [reflexivity|].
  apply (cache_refines sql 1000 junk 0 (GetStatus 7) cache ∅); [exact cache_holds|reflexivity|reflexivity].
Defined.

Lemma nickcache_delall_correct_witness : exists ch, holds cache ch ∅ /\
  wp nickcache_delall (fun _ c' => forall a,
    ((exists k, on_list cache ch k a) -> nc_heap c' !! a = None) /\
    (~ (exists k, on_list cache ch k a) -> nc_heap c' !! a = nc_heap cache !! a)) cache.
Proof. destruct cache_holds as [ch Hch]. exists ch. split; [exact Hch|]. exact (nickcache_delall_correct cache ch ∅ Hch). Defined.

(** Nicks 7 and 158 share a list. *)
Definition cache7 : Cache :=
  match run_op sql 1000 junk 0 (GetStatus 7) cache with Some (_, c) => c | None => cache end.

Lemma cache7_holds : caches cache7 {[7 := fetched 1000 (32768, 2)]}.
Proof.
  pose proof (run_op_spec sql 1000 junk 0 (GetStatus 7) cache ∅ 32768 {[7 := fetched 1000 (32768, 2)]}
    cache_holds ltac:(reflexivity) ltac:(reflexivity)) as Hr.
  unfold cache7, wp in *. destruct (run_op _ _ _ _ _ _) as [[a c]|]; [exact (proj2 Hr)|destruct Hr].
Qed.

Lemma stale_nick_corrupts_witness : exists c', nickcache_get_status (fun _ => None) 4600 junk 1000 7 cache7 = Some (0, c') /\
  nickcache_get_status sql 4600 junk 1000 7 c' = None.
Proof.
  apply (stale_nick_corrupts (fun _ => None) 4600 junk 1000 cache7 {[7 := fetched 1000 (32768, 2)]} 7
           (fetched 1000 (32768, 2)) sql 4600 1000 cache7_holds).
  - reflexivity.
  - reflexivity.
  - apply Z.leb_le. reflexivity.
  - reflexivity.
  - apply Nat.ltb_lt. vm_compute. reflexivity.
Defined.
End Witness.
