(* ===== verification/NickServ.v ===== *)
(** NickServ: the status of nicks, who is recognized, and what becomes of those
    who are not ([src/nickserv.c]).

    The tables are those of ChanDB.v.  NickServ keeps a part of the state for itself:
    the cache (Cache.v) and the timers. *)

From S2P Require Import Prelude CStr Wild NumTime Wp Graph Net Interfaces Part Channels Users Table Query ChanDB CsAccess Cache.

(** [static struct my_timeout] and the [Timeout] it points to. *)
Record MyTimeout := mkMyTimeout { mt_nick_id : Z; mt_to : Z; mt_type : Z }.
Record Timer := mkTimer { tm_id : Z; tm_settime : Z; tm_timeout : Z; tm_type : Z; tm_nick_id : Z }.

Record NickData := mkNickData {
  ns_cache : Cache;
  my_timeouts : list MyTimeout;
  ns_timers : list Timer;             (* those of [timeouts] that are NickServ's *)
  next_timer : Z;
  guest_counter : Z                   (* static uint32 counter *)
}.

(** The tables and NickServ's own data are apart. *)
Class NickStore (E : Type) `{!ChanDB E} := {
  #[global] ns_part :: Part NickData E;
  db_with_part : forall s e, db (with_part (S := NickData) s e) = db e;
  part_set_db : forall d e, part (S := NickData) (set_db d e) = part e
}.

(** Configuration ([src/config.c]) *)
Class NickConf := {
  NoSplitRecovery : bool;
  NSEnforcerUser : string;
  NSEnforcerHost : string;
  NSReleaseTimeout : Z;
  NSGuestNickPrefix : string
}.

Definition TO_COLLIDE : Z := 0.
Definition TO_RELEASE : Z := 1.

(** [u->services_stamp]: [new_user] clears it, and the assignments in [do_nick]
    are commented out. *)
Definition services_stamp : Z := 0.

Definition status_row (d : DB) (i : Z) : option (Z * Z) := r ← nicks d !! i; Some (n_status r, n_language r).

Section NickServ.
Context `{Conf} `{NickConf} `{MySQL} {E : Type} `{!ChanDB E} `{!NickStore E}.
(** What [malloc] returns, [check_autojoins] of [src/autojoin.c], and whether
    [pass = SHA1 (CONCAT (.., salt))] in the row of a nick. *)
Context (junk : nickcache) (check_autojoins : ptr -> M (Net E) unit) (pass_ok : E -> Z -> string -> bool).
Implicit Types (n : Net E).

(** *** The status of a nick *)

(** A routine of the cache, which asks the table and the clock. *)
Definition cached {A} (f : (Z -> option (Z * Z)) -> Z -> nickcache -> M Cache A) : M (Net E) A :=
  fun n => match f (status_row (db (ext n))) (now n) junk (ns_cache (owned n)) with
           | Some (a, c) => Some (a, put ((owned n){{ns_cache := c}}) n)
           | None => None
           end.

(** The lists are never longer than the heap. *)
Definition cache_fuel : M (Net E) nat := gets (fun n => S (size (nc_heap (ns_cache (owned n))))).

Definition get_nick_status (nick_id : Z) : M (Net E) Z :=
  fuel ← cache_fuel; cached (fun sql now junk => nickcache_get_status sql now junk fuel nick_id).

Definition set_nick_status (nick_id status : Z) : M (Net E) unit :=
  update_nick nick_id (fun r => r{{n_status := status}});;
  cached (fun sql now junk => nickcache_set_status sql now junk nick_id status).

Definition add_nick_status (nick_id new_status : Z) : M (Net E) unit :=
  update_nick nick_id (fun r => r{{n_status ::= Z.lor new_status}});;
  cached (fun sql now junk => nickcache_add_status sql now junk nick_id new_status).

Definition remove_nick_status (nick_id remove_status : Z) : M (Net E) unit :=
  update_nick nick_id (fun r => r{{n_status ::= Z.land (Z.lnot remove_status)}});;
  cached (fun sql now junk => nickcache_remove_status sql now junk nick_id remove_status).

Definition check_nick_password (pass : string) (nick_id : Z) : M (Net E) Z :=
  gets (fun n => if bool_decide (is_Some (nicks (db (ext n)) !! nick_id)) && pass_ok (ext n) nick_id pass then 1 else 0).

Definition nick_identified (u : ptr) : M (Net E) bool :=
  us ← load_user u;
  if real_id us =? 0 then mret false else s ← get_nick_status (real_id us); mret (has s NS_IDENTIFIED).
Definition nick_recognized (u : ptr) : M (Net E) bool :=
  us ← load_user u;
  if real_id us =? 0 then mret false
  else s ← get_nick_status (real_id us); mret (has s (NS_IDENTIFIED .| NS_RECOGNIZED)).

(** A notice in the user's language, which the cache knows ([getstring]). *)
Definition notice_lang (u : ptr) (text : string) : M (Net E) unit :=
  if u =? NULL then mret tt
  else
    us ← load_user u;
    (if nick_id us =? 0 then mret 0
     else fuel ← cache_fuel; cached (fun sql now junk => nickcache_get_language sql now junk fuel (nick_id us)));;
    emit (Notice s_NickServ (nick us) text).

(** *** Timers *)

(** [add_timeout]: at the head of the list ([src/timeout.c]). *)
Definition update_own (f : NickData -> NickData) : M (Net E) unit := modify (fun n => put (f (owned n)) n).

Definition add_ns_timeout (nick_id type delay : Z) : M (Net E) unit :=
  if (type =? TO_COLLIDE) || (type =? TO_RELEASE) then
    t ← gets now;
    update_own (fun s => s{{ns_timers ::= cons (mkTimer (next_timer s) t (t + delay) type nick_id);
                            my_timeouts ::= cons (mkMyTimeout nick_id (next_timer s) type);
                            next_timer := next_timer s + 1}})
  else mret tt.

Definition is_timeout (nick_id type : Z) (t : MyTimeout) : bool := (mt_nick_id t =? nick_id) && (mt_type t =? type).

(** Takes the entries off the private list only. *)
Definition rem_ns_timeout (nick_id type : Z) : M (Net E) unit :=
  update_own (fun s => s{{my_timeouts ::= List.filter (fun t => negb (is_timeout nick_id type t))}}).

(** [free (t->to->data); del_timeout (t->to)] for each entry: a timer that is gone
    has been freed, and reading it faults. *)
Definition kill_timer (id : Z) (l : list Timer) : option (list Timer) :=
  if existsb (fun t => tm_id t =? id) l then Some (List.filter (fun t => negb (tm_id t =? id)) l) else None.

Fixpoint kill_timers (l : list MyTimeout) (ts : list Timer) : option (list Timer) :=
  match l with
  | [] => Some ts
  | t :: l' => ts ← kill_timer (mt_to t) ts; kill_timers l' ts
  end.

Definition del_ns_timeout (nick_id type : Z) : M (Net E) unit :=
  fun n => let s := owned n in
    match kill_timers (List.filter (is_timeout nick_id type) (my_timeouts s)) (ns_timers s) with
    | Some ts => Some (tt, put (s{{ns_timers := ts;
                                   my_timeouts ::= List.filter (fun t => negb (is_timeout nick_id type t))}}) n)
    | None => None
    end.

(** *** Enforcement *)

(** [NULL], which [finduser] and [send_cmd] follow, for a nick without a row. *)
Definition nick_name (nick_id : Z) : M (Net E) string :=
  nk ← get_nick_from_id nick_id; match nk with Some s => mret s | None => fault end.

Definition guest_nick (counter : Z) : string := trunc NICKMAX (NSGuestNickPrefix +:+ show_int (wrap32 counter)).

Definition collide (nick_id : Z) (from_timeout : bool) : M (Net E) unit :=
  nk ← nick_name nick_id;
  u ← finduser nk;
  when (negb from_timeout) (del_ns_timeout nick_id TO_COLLIDE);;
  k ← gets (fun n => guest_counter (owned n));
  let guestnick := guest_nick k in
  update_own (fun s => s{{guest_counter := u32 (k + 1)}});;
  notice_lang u ("FORCENICKCHANGE_NOW " +:+ guestnick);;
  send_cmd (Some ServerName) ("SVSNICK " +:+ nk +:+ " :" +:+ guestnick);;
  add_nick_status nick_id NS_GUESTED.

Definition release (nick_id : Z) (from_timeout : bool) : M (Net E) unit :=
  nk ← nick_name nick_id;
  when (negb from_timeout) (del_ns_timeout nick_id TO_RELEASE);;
  send_cmd (Some nk) "QUIT";;
  remove_nick_status nick_id NS_KILL_HELD.

Definition timeout_collide (t : Timer) : M (Net E) unit :=
  let nick_id := tm_nick_id t in
  nk ← get_nick_from_id nick_id;
  rem_ns_timeout nick_id TO_COLLIDE;;
  s ← get_nick_status nick_id;
  if has s NS_IDENTIFIED then mret tt
  else
    match nk with
    | None => fault                       (* finduser (NULL) *)
    | Some nk =>
        u ← finduser nk;
        if u =? NULL then mret tt
        else
          us ← load_user u;
          if tm_settime t <? my_signon us then mret tt else collide nick_id true
    end.

Definition timeout_release (t : Timer) : M (Net E) unit :=
  rem_ns_timeout (tm_nick_id t) TO_RELEASE;; release (tm_nick_id t) true.

(** *** Recognition *)
Definition user_mask (us : User) : string := username us +:+ "@" +:+ strlower (host us).

Definition is_on_access (u : ptr) (nick_id : Z) : M (Net E) bool :=
  us ← load_user u;
  select (fun d => existsb (fun r => (na_nick r =? nick_id) && negb (Udf.irc_match (na_userhost r) (user_mask us) None =? 0))
                     (rows (nickaccess d))).

Definition check_on_access (u : ptr) : M (Net E) bool :=
  us ← load_user u;
  if nick_id us =? 0 then mret false
  else
    on_access ← is_on_access u (nick_id us);
    (if on_access : bool then
       update_nick (real_id us) (fun r => r{{n_status ::= Z.lor NS_ON_ACCESS}});;
       cached (fun sql now junk => nickcache_add_status sql now junk (real_id us) NS_ON_ACCESS)
     else mret tt);;
    mret on_access.

(** The user who identified last has come back after a split. *)
Definition same_stamp (d : DB) (i : Z) (buf : string) : bool :=
  match nicks d !! i with
  | Some r => negb (n_id_stamp r =? 0) && (n_id_stamp r =? services_stamp) && same_text (n_usermask r) buf
  | None => false
  end.

Definition validate_user (u : ptr) : M (Net E) bool :=
  us ← load_user u;
  let i := real_id us in
  if i =? 0 then mret false
  else
    nick_flags ← get_nick_flags (nick_id us);
    barred ← select (fun d => match nicks d !! i with
                              | Some r => has (n_status r) NS_VERBOTEN || has (n_flags r) NI_SUSPENDED
                              | None => false end);
    if barred : bool then
      notice_lang u "NICK_MAY_NOT_BE_USED";;
      notice_lang u "FORCENICKCHANGE_IN_1_MINUTE";;
      add_ns_timeout i TO_COLLIDE 60;;
      mret false
    else
      remove_nick_status i NS_TEMPORARY;;
      back ← (if NoSplitRecovery then mret false
              else
                let buf := trunc 256 (username us +:+ "@" +:+ host us) in
                same ← select (fun d => same_stamp d i buf);
                when same (update_nick i (fun r => r{{n_status ::= Z.lor NS_IDENTIFIED}}));;
                mret same);
      if back : bool then
        cached (fun sql now junk => nickcache_add_status sql now junk i NS_IDENTIFIED);;
        check_autojoins u;;
        mret true
      else
        on_access ← is_on_access u (nick_id us);
        when on_access (add_nick_status i NS_ON_ACCESS);;
        if negb (has nick_flags NI_SECURE) && on_access then
          t ← gets now;
          (update_nick i (fun r => r{{n_status ::= Z.lor NS_RECOGNIZED; n_last_seen := t;
                                      n_usermask := username us +:+ "@" +:+ host us; n_realname := realname us}});;
           cached (fun sql now junk => nickcache_add_status sql now junk i NS_RECOGNIZED));;
          mret true
        else
          notice_lang u (if has nick_flags NI_SECURE then "NICK_IS_SECURE" else "NICK_IS_REGISTERED");;
          when (has nick_flags NI_ENFORCE && negb on_access)
            (if has nick_flags NI_ENFORCEQUICK then
               notice_lang u "FORCENICKCHANGE_IN_20_SECONDS";; add_ns_timeout i TO_COLLIDE 20
             else notice_lang u "FORCENICKCHANGE_IN_1_MINUTE";; add_ns_timeout i TO_COLLIDE 60);;
          mret false.

(** The enforcer takes the nick its user has left. *)
Definition new_enforcer (us : User) (t : Z) : string :=
  "NICK " +:+ nick us +:+ " 1 " +:+ show_int t +:+ " + " +:+ NSEnforcerUser +:+ " " +:+ NSEnforcerHost +:+ " " +:+
  ServerName +:+ " :" +:+ trunc (NICKMAX + 16) (s_NickServ +:+ " Enforcement").

(** [rows] of the first [UPDATE] tells whether the nick was being guested. *)
Definition cancel_user (u : ptr) : M (Net E) unit :=
  us ← load_user u;
  let i := real_id us in
  if i =? 0 then mret tt
  else
    guested ← select (fun d => match nicks d !! i with Some r => has (n_status r) NS_GUESTED | None => false end);
    (if guested : bool then
       update_nick i (fun r => r{{n_status ::= Z.land (Z.lnot NS_TEMPORARY)}});;
       t ← gets now;
       send_cmd None (new_enforcer us t);;
       add_ns_timeout i TO_RELEASE NSReleaseTimeout;;
       add_nick_status i NS_KILL_HELD
     else remove_nick_status i NS_TEMPORARY);;
    del_ns_timeout i TO_COLLIDE.

Definition mysql_update_last_seen (u : ptr) (status : Z) : M (Net E) unit :=
  us ← load_user u;
  t ← gets now;
  update_nick (real_id us) (fun r => r{{n_status ::= Z.lor status; n_id_stamp := services_stamp; n_last_seen := t;
                                        n_usermask := username us +:+ "@" +:+ host us; n_realname := realname us}}).

End NickServ.

(** ** The cache follows the table *)

(** Statuses may differ in what [NS_TEMPORARY] covers only. *)
Definition agree (a b : Z) : Prop := Z.land (Z.lnot NS_TEMPORARY) a = Z.land (Z.lnot NS_TEMPORARY) b.

Definition near_rows (rows : gmap Z NickRow) (m : gmap Z Entry) : Prop :=
  forall i e, m !! i = Some e -> exists r, rows !! i = Some r /\ agree (e_status e) (n_status r).
Definition synced (rows : gmap Z NickRow) (m : gmap Z Entry) (i : Z) : Prop :=
  forall e, m !! i = Some e -> exists r, rows !! i = Some r /\ e_status e = n_status r.

Definition rows_sql (rows : gmap Z NickRow) (i : Z) : option (Z * Z) := r ← rows !! i; Some (n_status r, n_language r).
Definition row_status (rows : gmap Z NickRow) (i : Z) : Z := match rows !! i with Some r => n_status r | None => 0 end.

Lemma near_insert rows m i e r : near_rows rows m -> rows !! i = Some r -> agree (e_status e) (n_status r) ->
  near_rows rows (<[i := e]> m).
Proof.
  intros Hn Hr Ha j e' [[-> ->]|[_ He]]%lookup_insert_Some; [by exists r|by apply Hn].
Qed.

Lemma synced_insert rows m i j e r : synced rows m j -> rows !! i = Some r -> e_status e = n_status r ->
  synced rows (<[i := e]> m) j.
Proof. intros Hn Hr Ha e' [[-> <-]|[_ He]]%lookup_insert_Some; [by exists r|by apply Hn]. Qed.

(** A lookup answers, and keeps the two together. *)
Lemma m_get_near now stamp value i rows m : near_rows rows m ->
  exists a m', m_get (rows_sql rows) now stamp value i m = Some (a, m') /\ near_rows rows m' /\
    (forall j, synced rows m j -> synced rows m' j).
Proof.
  intros Hn. unfold m_get, rows_sql. destruct (m !! i) as [e|] eqn:Em.
  - destruct (Hn _ _ Em) as (r & Hr & Ha). rewrite Hr. simpl. destruct (_ <? _); do 2 eexists; (split; [done|]).
    + split; [done|auto].
    + split; [by eapply near_insert|]. intros j Hj. by eapply synced_insert.
  - destruct (rows !! i) as [r|] eqn:Hr; simpl; do 2 eexists; (split; [done|]).
    + split; [by eapply near_insert|]. intros j Hj. by eapply synced_insert.
    + split; [done|auto].
Qed.

Lemma m_get_status now i rows m a m' : near_rows rows m -> synced rows m i ->
  m_get (rows_sql rows) now e_status_time e_status i m = Some (a, m') -> a = row_status rows i.
Proof.
  intros Hn Hs. unfold m_get, rows_sql, row_status. destruct (m !! i) as [e|] eqn:Em.
  - destruct (Hs _ Em) as (r & Hr & He). rewrite Hr. simpl. destruct (_ <? _); by intros [= <- _].
  - destruct (rows !! i) as [r|]; simpl; by intros [= <- _].
Qed.

(** A change of both. *)
Record status_change (g : Z -> Z) : Prop := {
  sc_idem s : g (g s) = g s;
  sc_agree a b : agree a b -> agree (g a) (g b)
}.

Lemma agree_bits a b : agree a b <-> forall k, 0 <= k -> Z.testbit NS_TEMPORARY k = false -> Z.testbit a k = Z.testbit b k.
Proof.
  unfold agree. split.
  - intros Hab k Hk Ht. apply (f_equal (fun z => Z.testbit z k)) in Hab. rewrite !Z.land_spec, Z.lnot_spec, Ht in Hab by done.
    done.
  - intros Hab. apply Z.bits_inj'. intros k Hk. rewrite !Z.land_spec, Z.lnot_spec by done.
    destruct (Z.testbit NS_TEMPORARY k) eqn:Ht; [done|]. simpl. by apply Hab.
Qed.

Lemma set_change s : status_change (fun _ => s).
Proof. split; done. Qed.

Lemma lor_change f : status_change (Z.lor f).
Proof.
  split; [intros s; by rewrite Z.lor_assoc, Z.lor_diag|]. intros a b Hab. apply agree_bits. intros k Hk Ht.
  rewrite !Z.lor_spec. f_equal. by apply agree_bits.
Qed.

Lemma land_change f : status_change (Z.land f).
Proof.
  split; [intros s; by rewrite Z.land_assoc, Z.land_diag|]. intros a b Hab. apply agree_bits. intros k Hk Ht.
  rewrite !Z.land_spec. f_equal. by apply agree_bits.
Qed.

Definition exact_change (g : Z -> Z) : Prop := forall a b, agree a b -> g a = g b.

Lemma clear_temporary_exact : exact_change (Z.land (Z.lnot NS_TEMPORARY)).
Proof. intros a b Hab. exact Hab. Qed.

Lemma m_change_near now g i rows f m : status_change g -> (forall r, n_status (f r) = g (n_status r)) ->
  near_rows rows m ->
  let m' := m_change (rows_sql (alter f i rows)) now (with_status now g) i m in
  near_rows (alter f i rows) m' /\ (forall j, synced rows m j -> synced (alter f i rows) m' j) /\
  (exact_change g -> synced (alter f i rows) m' i).
Proof.
  intros Hg Hf Hn m'. unfold m', m_change, m_insert, rows_sql.
  assert (Hother : forall j, j <> i -> alter f i rows !! j = rows !! j) by (intros; by apply lookup_alter_ne).
  assert (Hsame : alter f i rows !! i = f <$> rows !! i) by apply lookup_alter_eq.
  destruct (m !! i) as [e|] eqn:Em.
  - destruct (Hn _ _ Em) as (r & Hr & Ha). rewrite Hr in Hsame. split_and!.
    + intros j e' [(-> & e0 & He & ->)|[Hj He]]%lookup_alter_Some.
      * exists (f r). split; [done|]. replace e0 with e by congruence. simpl. rewrite Hf. by apply Hg.
      * rewrite Hother by done. by apply Hn.
    + intros j Hj e' [(-> & e0 & He & ->)|[Hne He]]%lookup_alter_Some.
      * exists (f r). split; [done|]. destruct (Hj _ He) as (r' & Hr' & Hs). simpl. rewrite Hf. congruence.
      * rewrite Hother by done. by apply Hj.
    + intros Hex e' [(_ & e0 & He & ->)|[Hne He]]%lookup_alter_Some; [|done]. exists (f r). split; [done|].
      replace e0 with e by congruence. simpl. rewrite Hf. by apply Hex.
  - destruct (rows !! i) as [r|] eqn:Hr; rewrite Hsame; simpl.
    + assert (Hi : forall e', alter (with_status now g) i (<[i := fetched now (n_status (f r), n_language (f r))]> m) !! i = Some e' ->
                 e_status e' = n_status (f r)).
      { intros e' [(_ & e0 & He & ->)|[Hne _]]%lookup_alter_Some; [|done]. rewrite lookup_insert_eq in He. injection He as <-.
        simpl. rewrite Hf. by apply Hg. }
      assert (Hj : forall j e', j <> i -> alter (with_status now g) i (<[i := fetched now (n_status (f r), n_language (f r))]> m) !! j = Some e' ->
                 m !! j = Some e') by (intros j e' Hne; by rewrite lookup_alter_ne, lookup_insert_ne).
      split_and!.
      * intros j e' He. destruct (decide (j = i)) as [->|Hne].
        -- exists (f r). split; [done|]. unfold agree. by rewrite (Hi _ He).
        -- rewrite Hother by done. apply Hn. by eapply Hj.
      * intros j Hs e' He. destruct (decide (j = i)) as [->|Hne]; [exists (f r); split; [done|by apply Hi]|].
        rewrite Hother by done. apply Hs. by eapply Hj.
      * intros _ e' He. exists (f r). split; [done|by apply Hi].
    + rewrite (alter_id' (with_status now g) m i), (alter_id' f rows i) by done. split_and!; [done|done|congruence].
Qed.

(** ** The state of NickServ *)
Section Store.
Context `{Conf} `{NickConf} `{MySQL} {E : Type} `{!ChanDB E} `{!NickStore E}.
Context (junk : nickcache) (check_autojoins : ptr -> M (Net E) unit) (pass_ok : E -> Z -> string -> bool).
Implicit Types (n : Net E) (rows : gmap Z NickRow) (own : NickData) (d : DB) (S : Z -> Prop).

(** [n] after some messages, the last one first. *)
Definition said (msgs : list Msg) n : Net E := n{{out ::= app msgs}}.

(** Since [n0], [n] has come to the nick rows [rows] and the data [own] but for
    the cache; that is near the rows, and exact for the nicks in [S]. *)
Record base n0 rows own n : Prop := {
  at_users : users_heap n = users_heap n0;
  at_graph : graph_of n = graph_of n0;
  at_now : now n = now n0;
  at_db : db (ext n) = (db (ext n0)){{nicks := rows}};
  at_own : owned n = own{{ns_cache := ns_cache (owned n)}};
  at_sent : out n = out n0
}.

Record at_ n0 S rows own n : Prop := {
  at_base :: base n0 rows own n;
  at_cache : exists m, caches (ns_cache (owned n)) m /\ near_rows rows m /\ forall i, S i -> synced rows m i
}.

(** The cache is near the table: how every handler finds it. *)
Definition near n : Prop := exists m, caches (ns_cache (owned n)) m /\ near_rows (nicks (db (ext n))) m.

Lemma near_at n : near n -> at_ n (fun _ => False) (nicks (db (ext n))) (owned n) n.
Proof.
  intros (m & Hc & Hn). split; [split; try done; [by destruct (db (ext n))|by destruct (owned n)]|].
  exists m. by split_and!.
Qed.

Lemma at_near n0 S rows own n : at_ n0 S rows own n -> near n.
Proof. intros [[? ? ? Hd ? ?] (m & Hc & Hn & _)]. exists m. split; [done|]. by rewrite Hd. Qed.

Lemma at_rows n0 rows own n : base n0 rows own n -> nicks (db (ext n)) = rows.
Proof. intros Ha. by rewrite (at_db _ _ _ _ Ha). Qed.

Lemma status_row_at n0 rows own n i : base n0 rows own n -> status_row (db (ext n)) i = rows_sql rows i.
Proof. intros Ha. unfold status_row. by rewrite (at_rows _ _ _ _ Ha). Qed.

Lemma at_weaken n0 S S' rows own n : (forall i, S' i -> S i) -> at_ n0 S rows own n -> at_ n0 S' rows own n.
Proof. intros HS [? (m & Hc & Hn & Hs)]. split; [done|]. exists m. auto. Qed.

Lemma at_from n0 n0' S rows own n : users_heap n0' = users_heap n0 -> graph_of n0' = graph_of n0 -> now n0' = now n0 ->
  db (ext n0') = db (ext n0) -> out n0' = out n0 -> at_ n0 S rows own n -> at_ n0' S rows own n.
Proof. intros Hu Hg Ht Hd Ho [[] ?]. split; [split|]; congruence. Qed.

Lemma at_out n0 S rows own n msg : at_ n0 S rows own n -> at_ (said [msg] n0) S rows own (n{{out ::= cons msg}}).
Proof. intros [[] ?]. split; [split|]; try done. simpl. congruence. Qed.

Lemma at_put n0 S rows own n (f : NickData -> NickData) :
  (forall s, ns_cache (f s) = ns_cache s) ->
  (forall s c, f (s{{ns_cache := c}}) = (f s){{ns_cache := c}}) ->
  at_ n0 S rows own n -> at_ n0 S rows (f own) (put (f (owned n)) n).
Proof.
  intros Hc Hf [[Hu Hg Ht Hd Ho Hsn] (m & Hm)]. split; [split; try done|].
  - simpl. by rewrite db_with_part.
  - rewrite owned_put, Hc. rewrite Ho at 1. by rewrite Hf.
  - exists m. by rewrite owned_put, Hc.
Qed.

Lemma at_put_cache n0 S' rows own n c m : base n0 rows own n -> caches c m -> near_rows rows m ->
  (forall i, S' i -> synced rows m i) -> at_ n0 S' rows own (put ((owned n){{ns_cache := c}}) n).
Proof.
  intros [Hu Hg Ht Hd Ho Hsn] Hc Hn Hs. split; [split; try done|].
  - simpl. by rewrite db_with_part.
  - rewrite owned_put. rewrite Ho at 1. done.
  - exists m. by rewrite owned_put.
Qed.

Lemma wp_cached_get {A} (f : (Z -> option (Z * Z)) -> Z -> nickcache -> M Cache A) n (Q : A -> Net E -> Prop) :
  wp (f (status_row (db (ext n))) (now n) junk) (fun a c => Q a (put ((owned n){{ns_cache := c}}) n)) (ns_cache (owned n)) ->
  wp (cached junk f) Q n.
Proof. unfold wp, cached. by destruct (f _ _ _ _) as [[a c]|]. Qed.

Lemma wp_get_status n0 S rows own n i (Q : Z -> Net E -> Prop) : at_ n0 S rows own n -> 0 < i ->
  (forall s n', at_ n0 S rows own n' -> (S i -> s = row_status rows i) -> Q s n') ->
  wp (get_nick_status junk i) Q n.
Proof.
  intros Ha Hi HQ. unfold get_nick_status, cache_fuel. wps. apply wp_cached_get.
  pose proof (at_base _ _ _ _ _ Ha) as Hb. destruct (at_cache _ _ _ _ _ Ha) as (m & Hc & Hn & Hs).
  destruct (m_get_near (now n) e_status_time e_status i rows m Hn) as (a & m' & Hg & Hn' & Hs').
  assert (Hsql : m_get (status_row (db (ext n))) (now n) e_status_time e_status i m = Some (a, m')).
  { rewrite <- Hg. unfold m_get. by rewrite (status_row_at _ _ _ _ i Hb). }
  eapply wp_mono; [eapply (run_op_spec _ _ _ _ (GetStatus i)); [exact Hc|exact Hi|exact Hsql]|].
  intros b c [-> Hc']. apply HQ.
  - eapply at_put_cache; [exact Hb|exact Hc'|exact Hn'|auto].
  - intros HS. eapply m_get_status; [exact Hn|by apply Hs|exact Hg].
Qed.

Lemma wp_notice n0 S rows own n u us text (Q : unit -> Net E -> Prop) : at_ n0 S rows own n ->
  users_heap n0 !! u = Some us -> u <> NULL -> 0 <= nick_id us ->
  (forall n', at_ (said [Notice s_NickServ (nick us) text] n0) S rows own n' -> Q tt n') -> wp (notice_lang junk u text) Q n.
Proof.
  intros Ha Hu Hnn Hid HQ. unfold notice_lang. rewrite (proj2 (Z.eqb_neq u NULL)) by done. wps.
  eapply wp_load_user; [by rewrite (at_users _ _ _ _ (at_base _ _ _ _ _ Ha))|]. wps.
  destruct (Z.eqb_spec (nick_id us) 0); [wps; apply HQ; by apply at_out|]. unfold cache_fuel. wps. apply wp_cached_get.
  pose proof (at_base _ _ _ _ _ Ha) as Hb. destruct (at_cache _ _ _ _ _ Ha) as (m & Hc & Hn & Hs).
  destruct (m_get_near (now n) e_language_time e_language (nick_id us) rows m Hn) as (a & m' & Hg & Hn' & Hs').
  assert (Hsql : m_get (status_row (db (ext n))) (now n) e_language_time e_language (nick_id us) m = Some (a, m')).
  { rewrite <- Hg. unfold m_get. by rewrite (status_row_at _ _ _ _ (nick_id us) Hb). }
  eapply wp_mono; [eapply (run_op_spec _ _ _ _ (GetLanguage (nick_id us))); [exact Hc|simpl; lia|exact Hsql]|].
  intros b c [-> Hc']. wps. apply HQ, at_out. eapply at_put_cache; [exact Hb|exact Hc'|exact Hn'|auto].
Qed.

Lemma base_rows n0 rows own n rows' n' : base n0 rows own n ->
  n' = n{{ext ::= fun e => set_db ((db e){{nicks := rows'}}) e}} ->
  base n0 rows' own n' /\ ns_cache (owned n') = ns_cache (owned n).
Proof.
  intros [Hu Hg Ht Hd Ho Hsn] ->. split; [split; try done|]; unfold owned in *; simpl; rewrite ?part_set_db, ?db_set, ?Hd; done.
Qed.

(** An [UPDATE] of the status, and the same change in the cache. *)
Lemma wp_change n0 S rows own n i f g cg (Q : unit -> Net E -> Prop) : at_ n0 S rows own n -> 0 < i ->
  status_change g -> (forall r, n_status (f r) = g (n_status r)) ->
  (forall t x, nc_next (cg t x) = nc_next x) -> (forall t x, nc_nick_id (cg t x) = nc_nick_id x) ->
  (forall t x, entry (cg t x) = with_status t g (entry x)) ->
  (forall n', at_ n0 (fun j => S j \/ (j = i /\ exact_change g)) (alter f i rows) own n' -> Q tt n') ->
  wp (update_nick i f;; cached junk (fun sql now junk => nickcache_change sql now junk i (cg now))) Q n.
Proof.
  intros [Hb (m & Hc & Hn & Hs)] Hi Hch Hf Hc1 Hc2 Hc3 HQ. unfold update_nick, update_db. wps.
  assert (Hrows : n{{ext ::= fun e => set_db ((db e){{nicks ::= alter f i}}) e}} =
                  n{{ext ::= fun e => set_db ((db e){{nicks := alter f i rows}}) e}}).
  { by rewrite <- (at_rows _ _ _ _ Hb). }
  rewrite Hrows. remember (n{{ext ::= _}}) as n1 eqn:En1 in |- *.
  destruct (base_rows n0 rows own n (alter f i rows) n1 Hb En1) as [Hb' Hcc]. apply wp_cached_get. rewrite Hcc.
  assert (Hsql : m_change (status_row (db (ext n1))) (now n1) (with_status (now n1) g) i m =
                 m_change (rows_sql (alter f i rows)) (now n1) (with_status (now n1) g) i m).
  { unfold m_change, m_insert. by rewrite (status_row_at _ _ _ _ i Hb'). }
  destruct (m_change_near (now n1) g i rows f m Hch Hf Hn) as (Hn' & Hs' & Hex').
  eapply wp_mono; [eapply (nickcache_change_spec _ _ _ _ (with_status (now n1) g)); eauto|].
  intros [] c Hcm. cbv beta in Hcm. rewrite Hsql in Hcm. apply HQ. eapply at_put_cache; [exact Hb'|exact Hcm|exact Hn'|].
  intros j [Hj|[-> Hex]]; auto.
Qed.

Definition or_status (f : Z) (r : NickRow) : NickRow := r{{n_status ::= Z.lor f}}.
Definition clear_status (f : Z) (r : NickRow) : NickRow := r{{n_status ::= Z.land (Z.lnot f)}}.

Lemma wp_add_status n0 S rows own n i f (Q : unit -> Net E -> Prop) : at_ n0 S rows own n -> 0 < i ->
  (forall n', at_ n0 S (alter (or_status f) i rows) own n' -> Q tt n') -> wp (add_nick_status junk i f) Q n.
Proof.
  intros Ha Hi HQ.
  apply (wp_change n0 S rows own n i (or_status f) (Z.lor f)
    (fun t x => x{{nc_status ::= Z.lor f; nc_status_timestamp := t}})); try done; [apply lor_change|].
  intros n' Ha'. apply HQ. eapply at_weaken; [|exact Ha']. by left.
Qed.

Lemma wp_remove_status n0 S rows own n i f (Q : unit -> Net E -> Prop) : at_ n0 S rows own n -> 0 < i ->
  (forall n', at_ n0 (fun j => S j \/ (j = i /\ exact_change (Z.land (Z.lnot f)))) (alter (clear_status f) i rows) own n' -> Q tt n') ->
  wp (remove_nick_status junk i f) Q n.
Proof.
  intros Ha Hi HQ.
  apply (wp_change n0 S rows own n i (clear_status f) (Z.land (Z.lnot f))
    (fun t x => x{{nc_status ::= Z.land (Z.lnot f); nc_status_timestamp := t}})); try done; apply land_change.
Qed.

Lemma wp_clear_temporary n0 S rows own n i (Q : unit -> Net E -> Prop) : at_ n0 S rows own n -> 0 < i ->
  (forall n', at_ n0 (fun j => S j \/ j = i) (alter (clear_status NS_TEMPORARY) i rows) own n' -> Q tt n') ->
  wp (remove_nick_status junk i NS_TEMPORARY) Q n.
Proof.
  intros Ha Hi HQ. eapply wp_remove_status; [done|done|]. intros n' Ha'. apply HQ. eapply at_weaken; [|exact Ha'].
  intros j [?| ->]; [by left|right]. split; [done|apply clear_temporary_exact].
Qed.

Lemma wp_set_status n0 S rows own n i s (Q : unit -> Net E -> Prop) : at_ n0 S rows own n -> 0 < i ->
  (forall n', at_ n0 (fun j => S j \/ j = i) (alter (fun r => r{{n_status := s}}) i rows) own n' -> Q tt n') ->
  wp (set_nick_status junk i s) Q n.
Proof.
  intros Ha Hi HQ.
  apply (wp_change n0 S rows own n i (fun r => r{{n_status := s}}) (fun _ => s)
    (fun t x => x{{nc_status := s; nc_status_timestamp := t}})); try done.
  intros n' Ha'. apply HQ. eapply at_weaken; [|exact Ha']. intros j [?| ->]; [by left|by right].
Qed.

Lemma wp_at_load n0 S rows own n u us (Q : User -> Net E -> Prop) : at_ n0 S rows own n ->
  users_heap n0 !! u = Some us -> Q us n -> wp (load_user u) Q n.
Proof. intros Ha Hu. apply wp_load_user. by rewrite (at_users _ _ _ _ (at_base _ _ _ _ _ Ha)). Qed.

(** *** Timers *)
Definition with_timer (t i type delay : Z) own : NickData :=
  own{{ns_timers := mkTimer (next_timer own) t (t + delay) type i :: ns_timers own;
       my_timeouts := mkMyTimeout i (next_timer own) type :: my_timeouts own;
       next_timer := next_timer own + 1}}.

Lemma wp_add_timeout n0 S rows own n i type delay (Q : unit -> Net E -> Prop) : at_ n0 S rows own n ->
  type = TO_COLLIDE \/ type = TO_RELEASE ->
  (forall n', at_ n0 S rows (with_timer (now n0) i type delay own) n' -> Q tt n') ->
  wp (add_ns_timeout i type delay) Q n.
Proof.
  intros Ha Ht HQ. unfold add_ns_timeout. assert ((type =? TO_COLLIDE) || (type =? TO_RELEASE) = true) as ->
    by (destruct Ht as [-> | ->]; done). unfold update_own. wps. apply HQ.
  pose proof (at_put n0 S rows own n (with_timer (now n0) i type delay)) as Hp. unfold with_timer in *.
  rewrite (at_now _ _ _ _ (at_base _ _ _ _ _ Ha)). by apply Hp.
Qed.

Definition listed d (us : User) (i : Z) : bool :=
  existsb (fun r => (na_nick r =? i) && negb (Udf.irc_match (na_userhost r) (user_mask us) None =? 0)) (Table.rows (nickaccess d)).

Lemma wp_select n0 S rows own n {A} (f : DB -> A) (Q : A -> Net E -> Prop) : at_ n0 S rows own n ->
  Q (f ((db (ext n0)){{nicks := rows}})) n -> wp (select f) Q n.
Proof. intros Ha HQ. unfold select. wps. by rewrite (at_db _ _ _ _ (at_base _ _ _ _ _ Ha)). Qed.

Lemma wp_on_access n0 S rows own n u us i (Q : bool -> Net E -> Prop) : at_ n0 S rows own n ->
  users_heap n0 !! u = Some us -> Q (listed (db (ext n0)) us i) n -> wp (is_on_access u i) Q n.
Proof.
  intros Ha Hu HQ. unfold is_on_access. wps. eapply wp_at_load; [done|done|]. wps. eapply wp_select; [done|exact HQ].
Qed.

(** *** Recognition *)
Definition validated (on rec : bool) (us : User) (t : Z) (r : NickRow) : NickRow :=
  let r := clear_status NS_TEMPORARY r in
  let r := if on then or_status NS_ON_ACCESS r else r in
  if rec then
    r{{n_status ::= Z.lor NS_RECOGNIZED; n_last_seen := t; n_usermask := username us +:+ "@" +:+ host us;
       n_realname := realname us}}
  else r.

Definition barred (d : DB) (i : Z) : bool :=
  match nicks d !! i with Some r => has (n_status r) NS_VERBOTEN || has (n_flags r) NI_SUSPENDED | None => false end.

Definition flags_of (d : DB) (i : Z) : Z := match nicks d !! i with Some r => n_flags r | None => 0 end.

(** The services stamp is 0, so nobody comes back after a split. *)
Lemma no_stamp d i buf : same_stamp d i buf = false.
Proof.
  unfold same_stamp. destruct (nicks d !! i) as [r|]; [|done]. unfold services_stamp. by destruct (n_id_stamp r =? 0).
Qed.

Lemma validated_not_identified on rec us t r : has (n_status (validated on rec us t r)) NS_IDENTIFIED = false.
Proof.
  unfold has. apply negb_false_iff, Z.eqb_eq. apply Z.bits_inj'. intros k Hk.
  assert (Hs : n_status (validated on rec us t r) =
    (if rec then NS_RECOGNIZED else 0) .| ((if on then NS_ON_ACCESS else 0) .| (Z.lnot NS_TEMPORARY .& n_status r))).
  { unfold validated, clear_status, or_status. destruct on, rec; simpl; by rewrite ?Z.lor_0_l. }
  rewrite Hs, Z.bits_0, Z.land_spec, !Z.lor_spec, Z.land_spec, Z.lnot_spec by done.
  destruct (decide (k = 15)) as [->|Hne].
  - by destruct on, rec.
  - assert (Hb : Z.testbit NS_IDENTIFIED k = false).
    { change NS_IDENTIFIED with (2 ^ 15). rewrite Z.pow2_bits_eqb by lia. lia. }
    by rewrite Hb, andb_false_r.
Qed.

Lemma wp_update_also n0 S rows own n i f g cg (Q : unit -> Net E -> Prop) : at_ n0 S rows own n -> 0 < i ->
  status_change g -> (forall r, n_status (f r) = g (n_status r)) ->
  (forall t x, nc_next (cg t x) = nc_next x) -> (forall t x, nc_nick_id (cg t x) = nc_nick_id x) ->
  (forall t x, entry (cg t x) = with_status t g (entry x)) ->
  (forall n', at_ n0 S (alter f i rows) own n' -> Q tt n') ->
  wp (update_nick i f;; cached junk (fun sql now junk => nickcache_change sql now junk i (cg now))) Q n.
Proof.
  intros Ha Hi Hch Hf Hc1 Hc2 Hc3 HQ. eapply wp_change; [done..|]. intros n' Ha'. apply HQ.
  eapply at_weaken; [|exact Ha']. by left.
Qed.

(** What enforcement leaves: a timer for a nick whose owner wants it protected. *)
Definition enforced (t : Z) (flags : Z) (on : bool) (i : Z) own : NickData :=
  if has flags NI_ENFORCE && negb on then
    with_timer t i TO_COLLIDE (if has flags NI_ENFORCEQUICK then 20 else 60) own
  else own.

Definition enforcement (flags : Z) (on : bool) : list string :=
  (if has flags NI_ENFORCE && negb on then
     [if has flags NI_ENFORCEQUICK then "FORCENICKCHANGE_IN_20_SECONDS" else "FORCENICKCHANGE_IN_1_MINUTE"]
   else []) ++ [if has flags NI_SECURE then "NICK_IS_SECURE" else "NICK_IS_REGISTERED"].

Definition notices (us : User) (texts : list string) : list Msg := map (Notice s_NickServ (nick us)) texts.

Lemma validate_user_open n0 S own n u us : at_ n0 S (nicks (db (ext n0))) own n ->
  users_heap n0 !! u = Some us -> u <> NULL -> 0 < real_id us -> 0 <= nick_id us ->
  barred (db (ext n0)) (real_id us) = false ->
  let i := real_id us in
  let flags := flags_of (db (ext n0)) (nick_id us) in
  let on := listed (db (ext n0)) us (nick_id us) in
  let rec := negb (has flags NI_SECURE) && on in
  wp (validate_user junk check_autojoins u) (fun b n' => b = rec /\
    at_ (said (notices us (if rec then [] else enforcement flags on)) n0) (fun j => S j \/ j = i)
      (alter (validated on rec us (now n0)) i (nicks (db (ext n0))))
      (if rec then own else enforced (now n0) flags on i own) n') n.
Proof.
  intros Ha Hu Hnn Hi Hnid Hbar i flags on rec. unfold validate_user. wps. eapply wp_at_load; [done|done|].
  rewrite (proj2 (Z.eqb_neq (real_id us) 0)) by lia. wps. eapply wp_select; [done|]. wps.
  eapply wp_select; [done|]. cbv beta.
  replace ((db (ext n0)){{nicks := nicks (db (ext n0))}}) with (db (ext n0)) by by destruct (db (ext n0)).
  fold (barred (db (ext n0)) (real_id us)). rewrite Hbar. fold (flags_of (db (ext n0)) (nick_id us)). fold flags i.
  wps. eapply wp_clear_temporary; [done|done|]. intros n1 H1'. wps.
  assert (Hback : wp (if NoSplitRecovery then mret false
     else
       same ← select (fun d => same_stamp d i (trunc 256 (username us +:+ "@" +:+ host us)));
       when same (update_nick i (fun r => r{{n_status ::= Z.lor NS_IDENTIFIED}}));; mret same)
     (fun b n' => b = false /\ n' = n1) n1).
  { destruct NoSplitRecovery; [by wps|]. wps. eapply wp_select; [done|]. rewrite no_stamp. by wps. }
  eapply wp_mono; [exact Hback|]. clear Hback. intros b n' [-> ->]. wps. eapply wp_on_access; [done|done|].
  fold on. apply wp_bind.
  assert (Hon : wp (when on (add_nick_status junk i NS_ON_ACCESS)) (fun _ n' =>
    at_ n0 (fun j => S j \/ j = i) (alter (fun r => let r := clear_status NS_TEMPORARY r in if on then or_status NS_ON_ACCESS r else r) i
      (nicks (db (ext n0)))) own n') n1).
  { destruct on; simpl; [|by wps]. eapply wp_add_status; [done|done|]. intros n' Hn'. by rewrite alter_alter_eq in Hn'. }
  eapply wp_mono; [exact Hon|]. clear Hon. intros [] n2 H2'. cbv beta in H2'. fold rec. destruct rec eqn:Er.
  - apply wp_bind, wp_gets, wp_bind. rewrite (at_now _ _ _ _ (at_base _ _ _ _ _ H2')).
    eapply (wp_update_also n0 _ _ own n2 i _ (Z.lor NS_RECOGNIZED)
      (fun t x => x{{nc_status ::= Z.lor NS_RECOGNIZED; nc_status_timestamp := t}})); try done; [apply lor_change|].
    intros n' Hn'. wps. split; [done|]. rewrite alter_alter_eq in Hn'. eapply at_from; [..|exact Hn']; done.
  - wps. eapply wp_notice; [done..|]. intros n3 H3'. apply wp_bind.
    unfold enforced, enforcement. destruct (has flags NI_ENFORCE && negb on); cbn [when].
    + destruct (has flags NI_ENFORCEQUICK).
      * wps. eapply wp_notice; [done..|]. intros n4 H4'. wps.
        eapply wp_add_timeout; [done|by left|]. intros n5 H5'. wps. split; [done|]. eapply at_from; [..|exact H5']; done.
      * wps. eapply wp_notice; [done..|]. intros n4 H4'. wps.
        eapply wp_add_timeout; [done|by left|]. intros n5 H5'. wps. split; [done|]. eapply at_from; [..|exact H5']; done.
    + by wps.
Qed.

(** What validation leaves, whoever the user is. *)
Lemma validate_user_barred n0 S own n u us : at_ n0 S (nicks (db (ext n0))) own n ->
  users_heap n0 !! u = Some us -> u <> NULL -> 0 < real_id us -> 0 <= nick_id us ->
  barred (db (ext n0)) (real_id us) = true ->
  wp (validate_user junk check_autojoins u) (fun b n' => b = false /\
    at_ (said (notices us ["FORCENICKCHANGE_IN_1_MINUTE"; "NICK_MAY_NOT_BE_USED"]) n0) S (nicks (db (ext n0))) (with_timer (now n0) (real_id us) TO_COLLIDE 60 own) n') n.
Proof.
  intros Ha Hu Hnn Hi Hnid Hbar. unfold validate_user. wps. eapply wp_at_load; [done|done|].
  rewrite (proj2 (Z.eqb_neq (real_id us) 0)) by lia. wps. eapply wp_select; [done|]. wps.
  eapply wp_select; [done|]. cbv beta.
  replace ((db (ext n0)){{nicks := nicks (db (ext n0))}}) with (db (ext n0)) by by destruct (db (ext n0)).
  fold (barred (db (ext n0)) (real_id us)). rewrite Hbar.
  wps. eapply wp_notice; [done..|]. intros n1 Ha1. wps. eapply wp_notice; [done..|]. intros n2 Ha2. wps.
  eapply wp_add_timeout; [done|by left|]. intros n3 Ha3. wps. split; [done|]. eapply at_from; [..|exact Ha3]; done.
Qed.

Lemma wp_identified n0 S rows own n u us (Q : bool -> Net E -> Prop) : at_ n0 S rows own n ->
  users_heap n0 !! u = Some us -> 0 < real_id us ->
  (forall b n', at_ n0 S rows own n' -> (S (real_id us) -> b = has (row_status rows (real_id us)) NS_IDENTIFIED) -> Q b n') ->
  wp (nick_identified junk u) Q n.
Proof.
  intros Ha Hu Hi HQ. unfold nick_identified. wps. eapply wp_at_load; [done|done|].
  rewrite (proj2 (Z.eqb_neq (real_id us) 0)) by lia. wps. eapply wp_get_status; [done|done|].
  intros s n' Ha' Hs. wps. apply HQ; [done|]. intros HS. by rewrite Hs.
Qed.

Lemma alter_status f i rows r : rows !! i = Some r -> row_status (alter f i rows) i = n_status (f r).
Proof. intros Hr. unfold row_status. by rewrite lookup_alter_eq, Hr. Qed.

(** *** Timers that are pending *)
Record timers_ok own : Prop := {
  to_timer t : t ∈ my_timeouts own -> exists tm, tm ∈ ns_timers own /\ tm_id tm = mt_to t /\
               tm_nick_id tm = mt_nick_id t /\ tm_type tm = mt_type t;
  to_apart : NoDup (map mt_to (my_timeouts own));
  to_fresh tm : tm ∈ ns_timers own -> tm_id tm < next_timer own
}.

(** Without the timers of a nick and type. *)
Definition without (i type : Z) own : NickData :=
  own{{ns_timers ::= List.filter (fun tm => negb (existsb (fun t => is_timeout i type t && (mt_to t =? tm_id tm)) (my_timeouts own)));
       my_timeouts ::= List.filter (fun t => negb (is_timeout i type t))}}.

Lemma kill_timer_some id l : (exists tm, tm ∈ l /\ tm_id tm = id) ->
  kill_timer id l = Some (List.filter (fun t => negb (tm_id t =? id)) l).
Proof.
  intros (tm & Hin & <-). unfold kill_timer.
  assert (existsb (fun t => tm_id t =? tm_id tm) l = true) as ->; [|done].
  apply existsb_exists. exists tm. by rewrite <- list_elem_of_In, Z.eqb_refl.
Qed.

Lemma kill_timers_spec l ts : NoDup (map mt_to l) -> (forall t, t ∈ l -> exists tm, tm ∈ ts /\ tm_id tm = mt_to t) ->
  kill_timers l ts = Some (List.filter (fun tm => negb (existsb (fun t => mt_to t =? tm_id tm) l)) ts).
Proof.
  revert ts. induction l as [|t l IH]; intros ts Hn Hl.
  { simpl. f_equal. induction ts as [|tm ts IHt]; [done|]. simpl. by rewrite <- IHt by (intros ? Hx; by apply elem_of_nil in Hx). }
  cbn [map] in Hn. apply NoDup_cons in Hn as [Hnt Hn]. cbn [kill_timers].
  rewrite kill_timer_some by (apply Hl; constructor). simpl. rewrite IH; [|done|].
  - f_equal. clear. induction ts as [|tm ts IHt]; [done|]. simpl. rewrite (Z.eqb_sym (mt_to t)).
    destruct (tm_id tm =? mt_to t); simpl; [done|]. destruct (existsb _ l); simpl; by rewrite IHt.
  - intros t' Ht'. destruct (Hl t') as (tm & Htm & Hid); [by constructor|]. exists tm. split; [|done].
    apply list_elem_of_In, filter_In. split; [by apply list_elem_of_In|]. apply negb_true_iff, Z.eqb_neq.
    rewrite Hid. intros Heq. apply Hnt. rewrite <- Heq. apply list_elem_of_In, in_map, list_elem_of_In, Ht'.
Qed.

Lemma kill_listed own i type : timers_ok own ->
  kill_timers (List.filter (is_timeout i type) (my_timeouts own)) (ns_timers own) = Some (ns_timers (without i type own)).
Proof.
  intros Hok. rewrite kill_timers_spec.
  - unfold without. simpl. f_equal. apply filter_ext. intros tm. by rewrite existsb_filter.
  - apply NoDup_map_filter, Hok.
  - intros t Ht. apply list_elem_of_In, filter_In in Ht as [Ht _]. apply list_elem_of_In in Ht.
    destruct (to_timer _ Hok t Ht) as (tm & Htm & Hid & _). by exists tm.
Qed.

Lemma timers_ok_without own i type : timers_ok own -> timers_ok (without i type own).
Proof.
  intros Hok. unfold without. split; simpl.
  - intros t Ht. apply list_elem_of_In, filter_In in Ht as [Ht Hnt]. apply list_elem_of_In in Ht.
    destruct (to_timer _ Hok t Ht) as (tm & Htm & Hid & Heq). exists tm. split; [|done].
    apply list_elem_of_In, filter_In. split; [by apply list_elem_of_In|]. apply negb_true_iff, existsb_none.
    intros t' Ht'. destruct (is_timeout i type t') eqn:Et'; [|done]. simpl. apply Z.eqb_neq. intros Heq'.
    assert (t' = t) as ->; [|by rewrite Et' in Hnt].
    apply (map_inj_in mt_to (my_timeouts own)); [apply Hok|done|done|congruence].
  - apply NoDup_map_filter, Hok.
  - intros tm Htm. apply list_elem_of_In, filter_In in Htm as [Htm _]. apply (to_fresh _ Hok). by apply list_elem_of_In.
Qed.

Lemma timers_ok_with own t i type delay : timers_ok own -> timers_ok (with_timer t i type delay own).
Proof.
  intros Hok. unfold with_timer. split; simpl.
  - intros t' [->|Ht']%elem_of_cons; [eexists; split; [constructor|done]|].
    destruct (to_timer _ Hok t' Ht') as (tm & Htm & Heq). exists tm. split; [by constructor|done].
  - constructor; [|apply Hok]. intros Hin. apply list_elem_of_In, in_map_iff in Hin as (t' & Hid & Ht').
    destruct (to_timer _ Hok t') as (tm & Htm & Heq & _); [by apply list_elem_of_In|].
    pose proof (to_fresh _ Hok tm Htm). simpl in Hid. lia.
  - intros tm [->|Htm]%elem_of_cons; [simpl; lia|]. pose proof (to_fresh _ Hok tm Htm). lia.
Qed.

Lemma timers_ok_at n0 S rows own n : at_ n0 S rows own n -> timers_ok own -> timers_ok (owned n).
Proof. intros Ha [Ht Hd Hf]. rewrite (at_own _ _ _ _ (at_base _ _ _ _ _ Ha)). by split. Qed.

Lemma timers_ok_enforced own t flags on i : timers_ok own -> timers_ok (enforced t flags on i own).
Proof. intros Hok. unfold enforced. case_match; [by apply timers_ok_with|done]. Qed.

Lemma wp_del_timeout n0 S rows own n i type (Q : unit -> Net E -> Prop) : at_ n0 S rows own n -> timers_ok own ->
  (forall n', at_ n0 S rows (without i type own) n' -> Q tt n') -> wp (del_ns_timeout i type) Q n.
Proof.
  intros Ha Hok HQ. unfold wp, del_ns_timeout.
  pose proof (at_own _ _ _ _ (at_base _ _ _ _ _ Ha)) as Ho.
  assert (Hm : my_timeouts (owned n) = my_timeouts own) by by rewrite Ho.
  assert (Ht : ns_timers (owned n) = ns_timers own) by by rewrite Ho.
  rewrite Hm, Ht, kill_listed by done. apply HQ.
  pose (f := fun s : NickData => mkNickData (ns_cache s) (my_timeouts (without i type own))
    (ns_timers (without i type own)) (next_timer s) (guest_counter s)).
  assert (Hf : forall s, my_timeouts s = my_timeouts own ->
    s{{ns_timers := ns_timers (without i type own);
       my_timeouts ::= List.filter (fun t => negb (is_timeout i type t))}} = f s).
  { intros s Hs. unfold f. simpl. by rewrite Hs. }
  rewrite Hf by done. assert (f own = without i type own) as <- by done. by apply (at_put n0 S rows own n f).
Qed.

(** An [UPDATE] of temporary bits that the cache is not told of. *)
Lemma wp_update_only n0 S rows own n i f (Q : unit -> Net E -> Prop) : at_ n0 S rows own n ->
  (forall r, agree (n_status (f r)) (n_status r)) ->
  (forall n', at_ n0 (fun j => S j /\ j <> i) (alter f i rows) own n' -> Q tt n') -> wp (update_nick i f) Q n.
Proof.
  intros [Hb (m & Hc & Hn & Hs)] Hf HQ. unfold update_nick, update_db. wps. apply HQ.
  remember (n{{ext ::= _}}) as n1 eqn:En1 in |- *.
  destruct (base_rows n0 rows own n (alter f i rows) n1 Hb) as [Hb' Hcc].
  { rewrite En1. by rewrite <- (at_rows _ _ _ _ Hb). }
  split; [done|]. exists m. rewrite Hcc. split; [done|]. split.
  - intros j e He. destruct (Hn _ _ He) as (r & Hr & Ha). destruct (decide (j = i)) as [->|Hne].
    + exists (f r). rewrite lookup_alter_eq, Hr. split; [done|]. unfold agree in *. by rewrite Ha, Hf.
    + exists r. by rewrite lookup_alter_ne.
  - intros j [Hj Hne] e He. destruct (Hs _ Hj _ He) as (r & Hr & Ha). exists r. by rewrite lookup_alter_ne.
Qed.

(** *** Leaving a nick *)
Definition guested (d : DB) (i : Z) : bool :=
  match nicks d !! i with Some r => has (n_status r) NS_GUESTED | None => false end.

Definition cancelled (g : bool) (r : NickRow) : NickRow :=
  let r := clear_status NS_TEMPORARY r in if g then or_status NS_KILL_HELD r else r.

Lemma agree_clear_temporary r : agree (n_status (clear_status NS_TEMPORARY r)) (n_status r).
Proof. unfold agree, clear_status. simpl. by rewrite Z.land_assoc, Z.land_diag. Qed.

Lemma cancel_user_run n0 S own n u us : at_ n0 S (nicks (db (ext n0))) own n -> timers_ok own ->
  users_heap n0 !! u = Some us -> 0 < real_id us ->
  let i := real_id us in
  let g := guested (db (ext n0)) i in
  wp (cancel_user junk u) (fun _ n' =>
    at_ (said (if g then [Cmd None (new_enforcer us (now n0))] else []) n0)
      (fun j => if g then S j /\ j <> i else S j \/ j = i) (alter (cancelled g) i (nicks (db (ext n0))))
      (without i TO_COLLIDE (if g then with_timer (now n0) i TO_RELEASE NSReleaseTimeout own else own)) n') n.
Proof.
  intros Ha Hok Hu Hi i g. unfold cancel_user. wps. eapply wp_at_load; [done|done|].
  rewrite (proj2 (Z.eqb_neq (real_id us) 0)) by lia. wps. eapply wp_select; [done|]. cbv beta.
  replace ((db (ext n0)){{nicks := nicks (db (ext n0))}}) with (db (ext n0)) by by destruct (db (ext n0)).
  fold (guested (db (ext n0)) (real_id us)). fold i. fold g. destruct g; apply wp_bind.
  - apply wp_bind. eapply (wp_update_only _ _ _ _ _ _ (clear_status NS_TEMPORARY)); [done|apply agree_clear_temporary|].
    intros n1 Ha1. wps. rewrite (at_now _ _ _ _ (at_base _ _ _ _ _ Ha1)).
    apply wp_bind. eapply wp_add_timeout; [by apply at_out, Ha1|by right|]. intros n2 Ha2.
    eapply wp_add_status; [done|done|]. intros n3 Ha3.
    eapply wp_del_timeout; [done|by apply timers_ok_with|]. intros n4 Ha4. rewrite alter_alter_eq in Ha4.
    eapply at_from; [..|exact Ha4]; done.
  - eapply wp_clear_temporary; [done|done|]. intros n1 Ha1. eapply wp_del_timeout; [done|done|].
    intros n2 Ha2. eapply at_from; [..|exact Ha2]; done.
Qed.
(** *** When the time is up *)
Lemma at_finduser n0 S rows own n nk : at_ n0 S rows own n -> heap_ok (graph_of n0) ->
  finduser nk n = Some (g_finduser (graph_of n0) nk, n).
Proof. intros Ha Hg. pose proof (at_graph _ _ _ _ (at_base _ _ _ _ _ Ha)) as Eg. rewrite <- Eg in *. by apply finduser_det. Qed.

Lemma wp_nick_from_id n0 S rows own n i (Q : option string -> Net E -> Prop) : at_ n0 S rows own n ->
  Q (n_nick <$> rows !! i) n -> wp (get_nick_from_id i) Q n.
Proof. intros Ha HQ. eapply wp_select; [exact Ha|exact HQ]. Qed.

Lemma wp_nick_name n0 S rows own n i r (Q : string -> Net E -> Prop) : at_ n0 S rows own n -> rows !! i = Some r ->
  Q (n_nick r) n -> wp (nick_name i) Q n.
Proof. intros Ha Hr HQ. unfold nick_name. wps. eapply wp_nick_from_id; [done|]. rewrite Hr. by wps. Qed.

(** Off the private list. *)
Definition unlisted (i type : Z) own : NickData :=
  own{{my_timeouts ::= List.filter (fun t => negb (is_timeout i type t))}}.

Lemma wp_rem_timeout n0 S rows own n i type (Q : unit -> Net E -> Prop) : at_ n0 S rows own n ->
  (forall n', at_ n0 S rows (unlisted i type own) n' -> Q tt n') -> wp (rem_ns_timeout i type) Q n.
Proof. intros Ha HQ. unfold rem_ns_timeout, update_own. wps. apply HQ. by apply (at_put n0 S rows own n (unlisted i type)). Qed.

(** The next guest. *)
Definition with_guest own : NickData := own{{guest_counter := u32 (guest_counter own + 1)}}.

Definition forced_off (r : NickRow) (us : User) own : list Msg :=
  [Cmd (Some ServerName) ("SVSNICK " +:+ n_nick r +:+ " :" +:+ guest_nick (guest_counter own));
   Notice s_NickServ (nick us) ("FORCENICKCHANGE_NOW " +:+ guest_nick (guest_counter own))].

(** What [collide] does for a nick somebody bears. *)
Lemma collide_spec n0 S rows own n i r us (from_timeout : bool) (Q : unit -> Net E -> Prop) : at_ n0 S rows own n -> timers_ok own ->
  heap_ok (graph_of n0) -> 0 < i -> rows !! i = Some r ->
  users_heap n0 !! g_finduser (graph_of n0) (n_nick r) = Some us -> g_finduser (graph_of n0) (n_nick r) <> NULL ->
  0 <= nick_id us ->
  let own' := if from_timeout then own else without i TO_COLLIDE own in
  (forall n', at_ (said (forced_off r us own) n0) S (alter (or_status NS_GUESTED) i rows) (with_guest own') n' -> Q tt n') ->
  wp (collide junk i from_timeout) Q n.
Proof.
  intros Ha Hok Hg Hi Hr Hu Hnn Hid own' HQ. unfold collide. wps. eapply wp_nick_name; [exact Ha|exact Hr|]. wps.
  eapply wp_intro; [by eapply at_finduser|]. apply wp_bind.
  assert (Hdel : wp (when (negb from_timeout) (del_ns_timeout i TO_COLLIDE)) (fun _ => at_ n0 S rows own') n).
  { unfold own'. destruct from_timeout; cbn [when negb]; [by wps|]. by eapply wp_del_timeout. }
  eapply wp_mono; [exact Hdel|]. clear Hdel. intros [] n1 Ha1. cbv beta in Ha1. wps.
  assert (Hk : guest_counter (owned n1) = guest_counter own).
  { rewrite (at_own _ _ _ _ (at_base _ _ _ _ _ Ha1)). unfold own'. by destruct from_timeout. }
  rewrite Hk. unfold update_own. wps.
  assert (Ha2 : at_ n0 S rows (with_guest own') (put ((owned n1){{guest_counter := u32 (guest_counter own + 1)}}) n1)).
  { rewrite <- Hk. by apply (at_put n0 S rows own' n1 with_guest). }
  eapply wp_notice; [exact Ha2|exact Hu|done|done|]. intros n3 Ha3. wps.
  eapply wp_add_status; [apply at_out, Ha3|done|]. intros n4 Ha4. apply HQ. eapply at_from; [..|exact Ha4]; done.
Qed.

(** C16: [timeout_collide], when the delay a nick's owner gave is over: the entry
    leaves the private list.  A user who has identified, has left, or has come on
    after the timer was set is left alone; anyone else is told and renamed to the
    next guest nick, and the nick is marked as taken away. *)
Theorem timeout_collide_correct n t r : timers_ok (owned n) -> heap_ok (graph_of n) ->
  let d := db (ext n) in
  let i := tm_nick_id t in
  let u := g_finduser (graph_of n) (n_nick r) in
  at_ n (fun j => j = i) (nicks d) (owned n) n -> 0 < i -> nicks d !! i = Some r ->
  (forall us, users_heap n !! u = Some us -> 0 <= nick_id us) ->
  let own' := unlisted i TO_COLLIDE (owned n) in
  wp (timeout_collide junk t) (fun _ n' =>
    match users_heap n !! u with
    | Some us =>
        if has (n_status r) NS_IDENTIFIED || (tm_settime t <? my_signon us) then at_ n (fun j => j = i) (nicks d) own' n'
        else at_ (said (forced_off r us (owned n)) n) (fun j => j = i) (alter (or_status NS_GUESTED) i (nicks d))
               (with_guest own') n'
    | None => at_ n (fun j => j = i) (nicks d) own' n'
    end) n.
Proof.
  intros Hok Hg d i u Ha Hi Hr Hid own'. unfold timeout_collide. fold i. wps. eapply wp_nick_from_id; [exact Ha|].
  rewrite Hr. wps. eapply wp_rem_timeout; [exact Ha|]. intros n1 Ha1. fold own' in Ha1. wps.
  eapply wp_get_status; [exact Ha1|done|]. intros s n2 Ha2 Hs. rewrite (Hs eq_refl). unfold row_status. rewrite Hr.
  destruct (has (n_status r) NS_IDENTIFIED).
  { wps. by destruct (users_heap n !! u). }
  simpl. wps. eapply wp_intro; [by eapply at_finduser|]. fold u. destruct (Z.eqb_spec u NULL) as [Eu|Hnn].
  - wps. destruct (users_heap n !! u) as [us|] eqn:Hu; [|done].
    exfalso. rewrite Eu in Hu. destruct (ho_addr _ Hg NULL) as [Hlt _]; [|done]. left.
    apply is_Some_graph_user. by rewrite Hu.
  - assert (is_Some (users_heap n !! u)) as [us Hu] by (by apply is_Some_graph_user, g_finduser_some).
    rewrite Hu. wps. eapply wp_at_load; [exact Ha2|exact Hu|]. destruct (tm_settime t <? my_signon us) eqn:Et; [by wps|].
    eapply collide_spec; [exact Ha2| |exact Hg|exact Hi|exact Hr|exact Hu|done|by apply Hid|].
    + unfold own', unlisted. destruct Hok as [Ht Hd Hf]. split; simpl; [|by apply NoDup_map_filter|done].
      intros t' Ht'. apply list_elem_of_In, filter_In in Ht' as [Ht' _]. apply Ht. by apply list_elem_of_In.
    + intros n' Ha'. exact Ha'.
Qed.

(** When the nick has been dropped in the meantime, a null pointer is followed. *)
Lemma timeout_collide_dropped n t : near n -> 0 < tm_nick_id t -> nicks (db (ext n)) !! tm_nick_id t = None ->
  timeout_collide junk t n = None.
Proof.
  intros Hn Hi Hr. pose proof (near_at n Hn) as Ha. destruct Hn as (m & Hc & Hnr).
  assert (Hm : m !! tm_nick_id t = None).
  { destruct (m !! tm_nick_id t) as [e|] eqn:Em; [|done]. destruct (Hnr _ _ Em) as (r & Hr' & _). congruence. }
  assert (Ha' : at_ n (fun j => j = tm_nick_id t) (nicks (db (ext n))) (owned n) n).
  { split; [apply Ha|]. exists m. split_and!; [done|done|]. intros j ->. intros e He. congruence. }
  assert (Hw : wp (rem_ns_timeout (tm_nick_id t) TO_COLLIDE)
    (fun _ n1 => wp (get_nick_status junk (tm_nick_id t)) (fun s _ => s = 0) n1) n).
  { eapply wp_rem_timeout; [exact Ha'|]. intros n1 Ha1. eapply wp_get_status; [exact Ha1|done|]. intros s n2 _ Hs.
    rewrite (Hs eq_refl). unfold row_status. by rewrite Hr. }
  unfold timeout_collide, get_nick_from_id, select, gets, mbind, M_bind. rewrite Hr. cbn [fmap option_fmap option_map].
  unfold wp in Hw. destruct (rem_ns_timeout _ _ n) as [[[] n1]|]; [|done].
  destruct (get_nick_status _ _ n1) as [[s n2]|]; [|done]. by rewrite Hw.
Qed.

(** *** Whoever takes a nick has to prove that it is theirs *)

(** C14: [validate_user], when a user comes to a registered nick: the user of a
    forbidden or suspended nick is told to leave and gets a minute.  Otherwise
    what the last user of the nick proved is forgotten, in the table and in the
    cache; the user is recognized exactly if the access list names the address
    and the nick is not SECURE, is on the list exactly as the list says, and else
    is warned and, where the owner wants it, given the owner's delay.  Nobody is
    identified by taking a nick: the next question says no. *)
Theorem validate_user_correct n u us : near n -> users_heap n !! u = Some us -> u <> NULL ->
  0 < real_id us -> 0 <= nick_id us ->
  let d := db (ext n) in
  let i := real_id us in
  let flags := flags_of d (nick_id us) in
  let on := listed d us (nick_id us) in
  let rec := negb (has flags NI_SECURE) && on in
  wp (b ← validate_user junk check_autojoins u; c ← nick_identified junk u; mret (b, c)) (fun '(b, c) n' =>
    (timers_ok (owned n) -> timers_ok (owned n')) /\
    if barred d i then
      b = false /\
      at_ (said (notices us ["FORCENICKCHANGE_IN_1_MINUTE"; "NICK_MAY_NOT_BE_USED"]) n) (fun _ => False) (nicks d)
        (with_timer (now n) i TO_COLLIDE 60 (owned n)) n'
    else
      b = rec /\ c = false /\
      at_ (said (notices us (if rec then [] else enforcement flags on)) n) (fun j => j = i)
        (alter (validated on rec us (now n)) i (nicks d)) (if rec then owned n else enforced (now n) flags on i (owned n)) n') n.
Proof.
  intros Hn Hu Hnn Hi Hnid d i flags on rec. apply wp_bind. apply near_at in Hn. destruct (barred d i) eqn:Hb.
  - eapply wp_mono; [by eapply validate_user_barred|]. intros b n1 [-> Ha]. wps.
    eapply wp_identified; [exact Ha|exact Hu|done|]. intros c n2 Ha2 _. wps. split; [|by split].
    intros Hok. eapply timers_ok_at; [exact Ha2|]. by apply timers_ok_with.
  - eapply wp_mono; [by eapply validate_user_open|]. intros b n1 [-> Ha]. wps. cbv zeta in Ha. fold d i flags on rec in Ha.
    eapply wp_identified; [exact Ha|exact Hu|done|]. intros c n2 Ha2 Hc. wps. split_and!.
    + intros Hok. eapply timers_ok_at; [exact Ha2|]. destruct rec; [done|by apply timers_ok_enforced].
    + done.
    + rewrite Hc by by right. unfold row_status. rewrite lookup_alter_eq. fold i. destruct (nicks d !! i) as [r|]; [|done].
      apply validated_not_identified.
    + eapply at_weaken; [|exact Ha2]. intros j ->. by right.
Qed.

End Store.

(** ** A network with a registered user *)
Module Registry.

#[export] Existing Instance Demo.conf.

#[export] Instance nickconf : NickConf := {
  NoSplitRecovery := false; NSEnforcerUser := "enforcer"; NSEnforcerHost := "services.oftc.net";
  NSReleaseTimeout := 60; NSGuestNickPrefix := "Guest"
}.

#[export] Instance mysql : MySQL := {
  collate := strlower; smallint z := Z.max 0 (Z.min z 65535); smallint_id := clamp_id
}.

Definition E : Type := DB * NickData.

#[export, program] Instance chandb : ChanDB E := {
  db := fst; set_db := fun d e => (d, snd e); touch := fun _ _ _ e => e;
  new_chan_memos := fun _ _ _ => 0; schedule_leave := fun _ e => e
}.
Solve Obligations with done.

#[export, program] Instance nickpart : Part NickData E := {part := snd; with_part s e := (fst e, s)}.
Solve Obligations with by intros; repeat match goal with e : E |- _ => destruct e end.

#[export, program] Instance nickstore : NickStore E.
Solve Obligations with done.

Definition alice : User := Demo.alice{{nick_id := 7; real_id := 7}}.

(** alice has registered nick 7, with a status and flags. *)
Definition alice_row (status flags : Z) : NickRow := mkNickRow "alice" status flags "" "" 0 0 0 0 0 5 "al@example.org" "".

Definition tables (r : NickRow) (userhosts : list string) : DB :=
  (Tables.tables){{nicks := {[7 := r]}; nick_named := fun nk => if same_text nk "alice" then Some 7 else None;
    nickaccess := mkTable (map (mkNickAccess 1 7 1) userhosts) 2; memoinfo := mkTable [mkMemoInfo 1 "alice" 20] 2}}.

Definition data (timers : list (Z * Z)) : NickData :=
  mkNickData Cache.Witness.cache (imap (fun k t => mkMyTimeout (fst t) (Z.of_nat k) (snd t)) timers)
    (imap (fun k t => mkTimer (Z.of_nat k) 900 960 (snd t) (fst t)) timers) (Z.of_nat (length timers)) 4.

Definition net (r : NickRow) (userhosts : list string) (own : NickData) : Net E :=
  let m := Demo.net in
  mkNet E (<[1 := alice]> (users_heap m)) (chans_heap m) (userlist m) (chanlist m) (next_addr m)
    (usercnt m) (opcnt m) (maxusercnt m) (maxusertime m) NULL 0 NULL 0 (lastmodes m) (now m) [] (tables r userhosts, own).

Lemma net_near r userhosts timers : near (net r userhosts (data timers)).
Proof. exists ∅. split; [exact Cache.Witness.cache_holds|]. intros i e He. by rewrite lookup_empty in He. Qed.

Definition junk : nickcache := Cache.Witness.junk.
Definition no_autojoins (_ : ptr) : M (Net E) unit := mret tt.

(** From a host on the access list she is recognized. *)
Lemma validate_user_correct_witness :
  exists n', (b ← validate_user junk no_autojoins 1; c ← nick_identified junk 1; mret (b, c))
    (net (alice_row 0x8000 0) ["*@one.example.org"] (data [])) = Some (true, false, n').
Proof.
  pose proof (validate_user_correct junk no_autojoins (net (alice_row 0x8000 0) ["*@one.example.org"] (data [])) 1 alice
    (net_near _ _ _) eq_refl ltac:(done) ltac:(done) ltac:(done)) as Hw. cbv zeta in Hw.
  apply wp_run in Hw as ([b c] & n' & Hrun & _ & Hw). exists n'. rewrite Hrun. clear Hrun.
  destruct Hw as (-> & -> & _). vm_compute. reflexivity.
Defined.

Definition pending : NickData := data [(7, TO_COLLIDE)].

Lemma pending_ok : timers_ok pending.
Proof.
  split; simpl.
  - intros t [->|Ht]%elem_of_cons; [|by apply elem_of_nil in Ht]. eexists. split; [constructor|done].
  - repeat constructor. intros Ht. by apply elem_of_nil in Ht.
  - intros t [->|Ht]%elem_of_cons; [done|by apply elem_of_nil in Ht].
Qed.


(** Her minute is over. *)
Lemma timeout_collide_correct_witness :
  exists n', timeout_collide junk (mkTimer 0 900 960 TO_COLLIDE 7) (net (alice_row 0 0) [] pending) = Some (tt, n') /\
    out n' = [Cmd (Some ServerName) "SVSNICK alice :Guest4"; Notice s_NickServ "alice" "FORCENICKCHANGE_NOW Guest4"].
Proof.
  set (n := net (alice_row 0 0) [] pending).
  assert (Hg : heap_ok (graph_of n)).
  { replace (graph_of n) with (graph_of Demo.net); [apply Demo.net_ok|]. vm_compute. reflexivity. }
  assert (Ha : at_ n (fun j => j = 7) (nicks (db (ext n))) (owned n) n).
  { split; [exact (at_base _ _ _ _ _ (near_at n (net_near _ _ _)))|]. exists ∅. split_and!; [exact Cache.Witness.cache_holds| |].
    - intros i e He. by rewrite lookup_empty in He.
    - intros i _ e He. by rewrite lookup_empty in He. }
  assert (Hid : forall us, users_heap n !! g_finduser (graph_of n) "alice" = Some us -> 0 <= nick_id us).
  { intros us Hu. vm_compute in Hu. injection Hu as <-. vm_compute. discriminate. }
  pose proof (timeout_collide_correct junk n (mkTimer 0 900 960 TO_COLLIDE 7) (alice_row 0 0) pending_ok Hg Ha
    ltac:(done) eq_refl Hid) as Hw.
  apply wp_run in Hw as ([] & n' & Hrun & Hw). exists n'. split; [exact Hrun|].
  cbv zeta in Hw. change (users_heap n !! _) with (Some alice) in Hw. cbv iota in Hw.
  destruct Hw as [Hb _]. exact (at_sent _ _ _ _ Hb).
Defined.
End Registry.
