(* ===== verification/OperDB.v ===== *)
(** The tables of OperServ ([akill], [exception], [session], [admin], [oper]),
    and who is a Services operator or administrator ([src/operserv.c]).

    As in ChanDB.v the tables are data: a [SELECT] picks rows.  Rows are kept in
    the order of their numbers, in which they were inserted; where a query does
    not ask for an order this is the one assumed. *)

From S2P Require Import Prelude CStr NumTime Wild Wp Graph Net Interfaces Part Channels Users Query.

(** ** Configuration ([src/config.c]) *)
Class OperConf := {
  ServicesRoot : string;
  StaticAkillReason : option string;
  ImmediatelySendAkill : bool;
  AutokillExpiry : Z;
  AkillWildThresh : Z;
  WallOSAkill : bool;
  WallAkillExpire : bool;
  WallOSException : bool;
  WallExceptionExpire : bool;
  DefSessionLimit : Z;
  MaxSessionLimit : Z;
  ExceptionExpiry : Z;
  SessionAkillExpiry : Z;
  SessionKillClues : Z;
  SessionLimitExceeded : option string;
  SessionLimitDetailsLoc : option string;
  opt_noexpire : bool;
  (* [src/language.c] with the texts of [lang/] *)
  expires_in_lang : User -> Z -> string
}.

(** ** Tables *)
Record AkillRow := mkAkill {
  a_id : Z; a_mask : string; a_reason : string; a_who : string; a_time : Z; a_expires : Z
}.

Record ExceptionRow := mkException {
  e_id : Z; e_mask : string; e_limit : Z; e_who : string; e_reason : string; e_time : Z; e_expires : Z
}.

Record SessionRow := mkSession { s_host : string; s_count : Z; s_killcount : Z }.

Record OperDB := mkOperDB {
  akill : list AkillRow;
  akill_next : Z;                       (* AUTO_INCREMENT *)
  exception : list ExceptionRow;
  exception_next : Z;
  session : gmap string SessionRow;     (* under the collation key of the host *)
  admin : gset Z;
  oper : gset Z
}.

(** ** Privileges *)
Section Privileges.
Context `{Conf} `{OperConf} {E : Type} `{!NickServ E} `{!Part OperDB E}.
Implicit Types (n : Net E).

Definition oper_reply (u : ptr) (text : string) : M (Net E) unit :=
  us ← load_user u; emit (Notice s_OperServ (nick us) text).

Definition is_services_root (u : ptr) : M (Net E) bool :=
  us ← load_user u;
  if negb (has (mode us) UMODE_o) || negb (stricmp (nick us) ServicesRoot =? 0) then mret false
  else nick_identified u.

Definition in_table (t : gset Z) (us : User) : bool :=
  bool_decide (nick_id us ∈ t) || bool_decide (real_id us ∈ t).

Definition is_services_admin (u : ptr) : M (Net E) bool :=
  us ← load_user u;
  if negb (has (mode us) UMODE_o) then mret false
  else
    i ← nick_identified u;
    if negb i then mret false
    else
      r ← is_services_root u;
      if r : bool then mret true
      else gets (fun n => in_table (admin (owned n)) us).

Definition is_services_oper (u : ptr) : M (Net E) bool :=
  us ← load_user u;
  if negb (has (mode us) UMODE_o) then mret false
  else
    i ← nick_identified u;
    if negb i then mret false
    else
      a ← is_services_admin u;
      if a : bool then mret true
      else gets (fun n => in_table (oper (owned n)) us).
End Privileges.

(** ** What the tables of nicks answer

    The nick queries of OperServ ask for the status of a nick, its id and the
    id it is linked to; they change nothing OperServ looks at. *)
Class NickTables (E : Type) `{!Part OperDB E} := {
  status_of : E -> Z -> Z;
  id_of : E -> string -> Z;
  link_of : E -> Z -> Z;
  status_part : forall d e i, status_of (with_part d e) i = status_of e i;
  id_part : forall d e s, id_of (with_part d e) s = id_of e s;
  link_part : forall d e i, link_of (with_part d e) i = link_of e i
}.

(** Messages were sent and caches filled since [n]. *)
Record calm {E} `{!Part OperDB E} `{!NickTables E} (n n' : Net E) : Prop := {
  ca_users : users_heap n' = users_heap n;
  ca_graph : graph_of n' = graph_of n;
  ca_now : now n' = now n;
  ca_part : owned (S := OperDB) n' = owned n;
  ca_status : forall i, status_of (ext n') i = status_of (ext n) i;
  ca_id : forall s, id_of (ext n') s = id_of (ext n) s;
  ca_link : forall i, link_of (ext n') i = link_of (ext n) i
}.

#[export] Instance calm_equiv {E} `{!Part OperDB E} `{!NickTables E} : Equivalence (calm (E := E)).
Proof.
  split; [by intros n|intros n n' []; by split|]. intros n1 n2 n3 [] []. split; try congruence; intros; etransitivity; eauto.
Qed.

Definition calms {E} `{!Part OperDB E} `{!NickTables E} {A} (n : Net E) (m : M (Net E) A) : Prop :=
  wp m (fun _ n' => calm n n') n.
Definition asks {E} `{!Part OperDB E} `{!NickTables E} {A} (n : Net E) (m : M (Net E) A) (a : A) : Prop :=
  wp m (fun b n' => b = a /\ calm n n') n.

Class NickTablesLaws (E : Type) `{!Part OperDB E} `{!NickTables E} `{!NickServ E} : Prop := {
  law_status_of i (n : Net E) : asks n (get_nick_status i) (status_of (ext n) i);
  law_id_of s (n : Net E) : asks n (mysql_findnick s) (id_of (ext n) s);
  law_link_of i (n : Net E) : asks n (mysql_getlink i) (link_of (ext n) i)
}.

Section Calm.
Context `{Conf} `{OperConf} {E : Type} `{!Part OperDB E} `{!NickTables E} `{!NickServ E} `{!NickTablesLaws E}.
Implicit Types (n : Net E).

Lemma wp_asks {A} n (m : M (Net E) A) a (Q : A -> Net E -> Prop) :
  asks n m a -> (forall n', calm n n' -> Q a n') -> wp m Q n.
Proof. intros Hm HQ. eapply wp_mono; [apply Hm|]. intros ? n' [-> Hc]. by apply HQ. Qed.

Lemma wp_calms {A} n (m : M (Net E) A) (Q : A -> Net E -> Prop) :
  calms n m -> (forall a n', calm n n' -> Q a n') -> wp m Q n.
Proof. intros Hm HQ. eapply wp_mono; [apply Hm|]. auto. Qed.

Lemma asks_ret {A} n (a : A) : asks n (mret a) a.
Proof. by apply wp_ret. Qed.

Lemma asks_bind {A B} n (m : M (Net E) A) (k : A -> M (Net E) B) a b :
  asks n m a -> (forall n', calm n n' -> asks n' (k a) b) -> asks n (mbind k m) b.
Proof.
  intros Hm Hk. apply wp_bind. eapply wp_asks; [done|]. intros n' Hc.
  eapply wp_mono; [by apply Hk|]. intros ? n'' [-> Hc']. split; [done|by transitivity n'].
Qed.

Lemma asks_load n p u : users_heap n !! p = Some u -> asks n (load_user p) u.
Proof. intros H'. eapply wp_load_user; [done|]. done. Qed.

Lemma calms_bind {A B} n (m : M (Net E) A) (k : A -> M (Net E) B) :
  calms n m -> (forall a n', calm n n' -> calms n' (k a)) -> calms n (mbind k m).
Proof.
  intros Hm Hk. apply wp_bind. eapply wp_calms; [done|]. intros a n' Hc.
  eapply wp_mono; [by apply Hk|]. intros ? n'' Hc'. by transitivity n'.
Qed.

Lemma calms_ret {A} n (a : A) : calms n (mret a).
Proof. by apply wp_ret. Qed.

Lemma calms_emit n m : calms n (emit m).
Proof. by apply wp_modify. Qed.

Lemma calms_asks {A} n (m : M (Net E) A) a : asks n m a -> calms n m.
Proof. intros Hm. eapply wp_mono; [apply Hm|]. by intros ? n' [_ ?]. Qed.

Lemma calms_when n b (m : M (Net E) unit) : calms n m -> calms n (when b m).
Proof. destruct b; [done|intros _; apply calms_ret]. Qed.

Lemma calms_for_each {A} n (l : list A) (f : A -> M (Net E) unit) :
  (forall x n', calms n' (f x)) -> calms n (for_each l f).
Proof.
  intros Hf. revert n. induction l as [|x l IH]; intros n; [apply calms_ret|].
  apply calms_bind; [apply Hf|]. intros _ n' _. apply IH.
Qed.

Lemma calm_lookup n n' p u : calm n n' -> users_heap n !! p = Some u -> users_heap n' !! p = Some u.
Proof. intros Hc. by rewrite (ca_users _ _ Hc). Qed.

Lemma calms_reply n u us text : users_heap n !! u = Some us -> calms n (oper_reply u text).
Proof. intros Hu. apply wp_bind. eapply wp_load_user; [done|]. apply calms_emit. Qed.

(** *** Who a user is *)
Definition identified (e : E) (us : User) : bool :=
  negb (real_id us =? 0) && has (status_of e (real_id us)) NS_IDENTIFIED.

Definition root (e : E) (us : User) : bool :=
  has (mode us) UMODE_o && (stricmp (nick us) ServicesRoot =? 0) && identified e us.

Definition admin_user (e : E) (us : User) : bool :=
  has (mode us) UMODE_o && identified e us &&
  (root e us || in_table (OperDB.admin (part e)) us).

Definition oper_user (e : E) (us : User) : bool :=
  has (mode us) UMODE_o && identified e us &&
  (admin_user e us || in_table (OperDB.oper (part e)) us).

Lemma identified_calm n n' us : calm n n' -> identified (ext n') us = identified (ext n) us.
Proof. intros Hc. unfold identified. by rewrite (ca_status _ _ Hc). Qed.

Lemma part_calm n n' : calm n n' -> part (S := OperDB) (ext n') = part (ext n).
Proof. intros Hc. apply Hc. Qed.

Lemma root_calm n n' us : calm n n' -> root (ext n') us = root (ext n) us.
Proof. intros Hc. unfold root. by rewrite (identified_calm _ _ _ Hc). Qed.

Lemma admin_calm n n' us : calm n n' -> admin_user (ext n') us = admin_user (ext n) us.
Proof.
  intros Hc. unfold admin_user. by rewrite (identified_calm _ _ _ Hc), (root_calm _ _ _ Hc), (part_calm _ _ Hc).
Qed.

Lemma oper_calm n n' us : calm n n' -> oper_user (ext n') us = oper_user (ext n) us.
Proof.
  intros Hc. unfold oper_user. by rewrite (identified_calm _ _ _ Hc), (admin_calm _ _ _ Hc), (part_calm _ _ Hc).
Qed.

Lemma asks_identified n u us : users_heap n !! u = Some us ->
  asks n (nick_identified u) (identified (ext n) us).
Proof.
  intros Hu. unfold nick_identified, nick_has, identified.
  eapply asks_bind; [by apply asks_load|]. intros n1 Hc1.
  destruct (real_id us =? 0); [apply asks_ret|].
  rewrite <- (ca_status _ _ Hc1). eapply asks_bind; [apply law_status_of|]. intros n2 _. apply asks_ret.
Qed.

Lemma asks_root n u us : users_heap n !! u = Some us -> asks n (is_services_root u) (root (ext n) us).
Proof.
  intros Hu. unfold is_services_root, root. eapply asks_bind; [by apply asks_load|]. intros n1 Hc1.
  destruct (has (mode us) UMODE_o), (stricmp (nick us) ServicesRoot =? 0); simpl; try apply asks_ret.
  rewrite <- (identified_calm _ _ _ Hc1). by eapply asks_identified, calm_lookup.
Qed.

Lemma asks_part {A} n (f : OperDB -> A) : asks n (gets (fun n => f (owned n))) (f (part (ext n))).
Proof. by apply wp_gets. Qed.

Lemma asks_admin n u us : users_heap n !! u = Some us ->
  asks n (OperDB.is_services_admin u) (admin_user (ext n) us).
Proof.
  intros Hu. unfold is_services_admin, admin_user. eapply asks_bind; [by apply asks_load|]. intros n1 Hc1.
  destruct (has (mode us) UMODE_o); simpl; [|apply asks_ret].
  rewrite <- (identified_calm _ _ us Hc1), <- (root_calm _ _ us Hc1), <- (part_calm _ _ Hc1).
  eapply asks_bind; [by eapply asks_identified, calm_lookup|]. intros n2 Hc2.
  destruct (identified (ext n1) us); simpl; [|apply asks_ret].
  rewrite <- (root_calm _ _ us Hc2), <- (part_calm _ _ Hc2).
  eapply asks_bind; [by eapply asks_root, calm_lookup, calm_lookup|]. intros n3 Hc3.
  destruct (root (ext n2) us); [apply asks_ret|]. rewrite <- (part_calm _ _ Hc3).
  apply (asks_part n3 (fun d => in_table (admin d) us)).
Qed.

Lemma asks_oper n u us : users_heap n !! u = Some us ->
  asks n (is_services_oper u) (oper_user (ext n) us).
Proof.
  intros Hu. unfold is_services_oper, oper_user. eapply asks_bind; [by apply asks_load|]. intros n1 Hc1.
  destruct (has (mode us) UMODE_o); simpl; [|apply asks_ret].
  rewrite <- (identified_calm _ _ us Hc1), <- (admin_calm _ _ us Hc1), <- (part_calm _ _ Hc1).
  eapply asks_bind; [by eapply asks_identified, calm_lookup|]. intros n2 Hc2.
  destruct (identified (ext n1) us); simpl; [|apply asks_ret].
  rewrite <- (admin_calm _ _ us Hc2), <- (part_calm _ _ Hc2).
  eapply asks_bind; [by eapply asks_admin, calm_lookup, calm_lookup|]. intros n3 Hc3.
  destruct (admin_user (ext n2) us); [apply asks_ret|]. rewrite <- (part_calm _ _ Hc3).
  apply (asks_part n3 (fun d => in_table (oper d) us)).
Qed.
End Calm.

(** ** A small network with tables of its own: alice (7) is identified and an
    IRC operator; services knows no administrators. *)
Module OperDemo.
Export Interfaces.Demo.

#[export] Instance oper_conf : OperConf := {
  ServicesRoot := "root"; StaticAkillReason := None; ImmediatelySendAkill := false;
  AutokillExpiry := 2592000; AkillWildThresh := 4; WallOSAkill := true; WallAkillExpire := true;
  WallOSException := true; WallExceptionExpire := true; DefSessionLimit := 2; MaxSessionLimit := 100;
  ExceptionExpiry := 86400; SessionAkillExpiry := 1800; SessionKillClues := 3;
  SessionLimitExceeded := None; SessionLimitDetailsLoc := None; opt_noexpire := false;
  expires_in_lang := fun _ t => disect_time t
}.

#[export] Instance mysql : MySQL := {
  collate := strlower; smallint z := Z.max 0 (Z.min z 65535); smallint_id := clamp_id
}.

#[export, program] Instance tables : NickTables OperDB := {
  status_of _ i := if i =? 7 then NS_IDENTIFIED else 0;
  id_of _ s := if String.eqb s "alice" then 7 else 0;
  link_of _ i := i
}.
Solve Obligations with done.

#[export] Instance nicks : NickServ OperDB := {
  mysql_findnick := fun s => mret (if String.eqb s "alice" then 7 else 0);
  mysql_getlink := fun i => mret i;
  get_nick_status := fun i => mret (if i =? 7 then NS_IDENTIFIED else 0);
  set_nick_status := fun _ _ => mret tt;
  get_nick_flags := fun _ => mret 0;
  mysql_maxuser_stat := fun _ _ => mret tt;
  validate_user := fun _ => mret false;
  cancel_user := fun _ => mret tt;
  check_on_access := fun _ => mret tt;
  check_memos := fun _ => mret tt;
  mysql_update_last_seen := fun _ _ => mret tt;
  mysql_quit_row := fun _ => mret false;
  mysql_quit_store := fun _ _ _ => mret tt;
  is_services_admin := fun _ => mret false;
  nickcache_update := fun _ => mret tt;
  get_email_from_id := fun _ => mret EmptyString;
  get_cloak_from_id := fun _ => mret None;
  check_autojoins := fun _ => mret tt;
  display_news_logon := fun _ => mret tt;
  display_news_oper := fun _ => mret tt
}.

#[export] Instance nick_laws : NickTablesLaws OperDB.
Proof. split; intros; apply asks_ret. Qed.

Definition oper_alice : User := alice{{nick_id := 7; real_id := 7; mode := UMODE_o}}.

Definition no_tables : OperDB := mkOperDB [] 1 [] 1 ∅ ∅ ∅.

Definition net : Net OperDB :=
  mkNet OperDB (<[3 := bob]> {[1 := oper_alice]}) {[2 := chan_a]}
    (push (push ∅ (nick_HASH "alice") 1) (nick_HASH "bob") 3) (push ∅ (chan_HASH "#a") 2)
    4 2 0 2 0 NULL 0 NULL 0 "" 1000 [] no_tables.

Lemma oper_net_ok : heap_ok (graph_of net).
Proof. exact (proj1 Interfaces.Demo.net_ok). Qed.
End OperDemo.
