(* ===== verification/Commands.v ===== *)
(** The command tables every service dispatches on ([src/commands.c]). *)

From S2P Require Import Prelude CStr Wp Graph Net Interfaces Part OperDB.

Section Commands.
Context `{Conf} `{OperConf} {E : Type} `{!NickServ E} `{!Part OperDB E}.
Implicit Types (n : Net E).

(** A routine gets the rest of the line, which [strtok] would go on with. *)
Record Command := mkCommand {
  c_name : string;
  c_routine : option (ptr -> string -> M (Net E) unit);
  c_has_priv : option (ptr -> M (Net E) bool);
  c_help_all : option string;
  c_help_reg : option string;
  c_help_oper : option string;
  c_help_admin : option string;
  c_help_root : option string
}.

Definition lookup_cmd (l : list Command) (cmd : string) : option Command :=
  find_first (fun c => stricmp (c_name c) cmd =? 0) l.

Definition service_notice (service : string) (u : ptr) (text : string) : M (Net E) unit :=
  us ← load_user u; emit (Notice service (nick us) text).

Definition run_cmd (service : string) (u : ptr) (l : list Command) (cmd args : string) : M (Net E) unit :=
  match lookup_cmd l cmd with
  | Some c =>
      match c_routine c with
      | Some routine =>
          may ← (match c_has_priv c with None => mret true | Some has_priv => has_priv u end);
          if may : bool then routine u args else service_notice service u "ACCESS_DENIED"
      | None => service_notice service u "UNKNOWN_COMMAND_HELP"
      end
  | None => service_notice service u "UNKNOWN_COMMAND_HELP"
  end.

(** The message for the user's rank, or the excuse if there is none for anybody. *)
Definition help_rank (service : string) (u : ptr) (all mine : option string) : M (Net E) unit :=
  match mine, all with
  | Some m, _ => service_notice service u m
  | None, None => service_notice service u "NO_HELP_AVAILABLE"
  | None, Some _ => mret tt
  end.

Definition help_cmd (service : string) (u : ptr) (l : list Command) (cmd : string) : M (Net E) unit :=
  match lookup_cmd l (str_drop (strspn cmd " ") cmd) with
  | None => service_notice service u "NO_HELP_AVAILABLE"
  | Some c =>
      (match c_help_all c with Some m => service_notice service u m | None => mret tt end);;
      root ← is_services_root u;
      if root : bool then help_rank service u (c_help_all c) (c_help_root c)
      else
        admin ← is_services_admin u;
        if admin : bool then help_rank service u (c_help_all c) (c_help_admin c)
        else
          oper ← is_services_oper u;
          help_rank service u (c_help_all c) (if oper : bool then c_help_oper c else c_help_reg c)
  end.
End Commands.
Arguments Command E : clear implicits.
