(* ===== verification/Removal.v ===== *)
(** Nicks, channels and suspensions that go: expiry and deletion, of
    [src/nickserv.c], [src/chanserv.c] and [src/operserv.c], with everything they
    take along from the tables of the others. *)

From S2P Require Import Prelude CStr Wp Track Graph Net Interfaces Part Table Query Channels Users ChanDB ChanServ Mlock CsAccess OperDB.

Class ExpiryConf := {
  NSExpire : Z;
  NSExtraGrace : bool;
  NSSuspendGrace : Z;
  NSSuspendExpire : Z;
  CSExpire : Z;
  CSExtraGrace : bool
}.

(** A component beside the tables. *)
Class Beside (S E : Type) `{!ChanDB E} `{!Part S E} : Prop := {
  db_beside : forall (s : S) (e : E), db (with_part s e) = db e;
  part_beside : forall d (e : E), part (S := S) (set_db d e) = part e
}.

Definition CI_NO_EXPIRE : Z := 0x200.
Definition MAX_CHANNELCOUNT : Z := 65535.

(** [now - column]: the columns are unsigned, and so is the difference. *)
Definition ago (now t : Z) : Z := (now - t) mod 2 ^ 64.

Section Removal.
Context `{Conf} `{OperConf} `{ExpiryConf} `{MySQL} `{TextOrder} {E : Type} `{!ChanDB E} `{!Part OperDB E}.
(** The column [last_used] of a channel ([touch] writes it). *)
Context (last_used : E -> Z -> Z).
Implicit Types (n : Net E).

(** *** Suspensions *)
Definition add_nicksuspend (nick_id : Z) (reason who : string) (expires : Z) : M (Net E) Z :=
  t ← gets now;
  suspend_id ← select (fun d => auto_increment (suspend d));
  update_db (fun d => d{{suspend ::= insert_into (fun i => mkSuspend i who reason t expires)}});;
  (* UNIQUE KEY (nick_id) *)
  twice ← select (fun d => existsb (fun r => nsu_nick r =? nick_id) (rows (nicksuspend d)));
  if twice : bool then fault
  else
    nicksuspend_id ← select (fun d => auto_increment (nicksuspend d));
    update_db (fun d => d{{nicksuspend ::= insert_into (fun i => mkNickSuspend i nick_id suspend_id)}});;
    mret nicksuspend_id.

Definition del_nicksuspend (nicksuspend_id : Z) : M (Net E) unit :=
  if nicksuspend_id =? 0 then mret tt
  else
    found ← select (fun d => select_where (fun r => nsu_id r =? nicksuspend_id) (nicksuspend d));
    let suspend_id := match last found with Some r => nsu_suspend r | None => 0 end in
    when (negb (suspend_id =? 0)) (update_db (fun d => d{{suspend ::= delete_where (fun r => su_id r =? suspend_id)}}));;
    update_db (fun d => d{{nicksuspend ::= delete_where (fun r => nsu_id r =? nicksuspend_id)}}).

(** The nick does not expire before [NSSuspendGrace] is over. *)
Definition unsuspend (nick_id : Z) : M (Net E) unit :=
  t ← gets now;
  update_nick nick_id (fun r => r{{n_flags ::= Z.land (Z.lnot NI_SUSPENDED)}});;
  when (negb (NSExpire =? 0) && negb (NSSuspendGrace =? 0))
    (update_nick nick_id (fun r => if NSExpire - NSSuspendGrace <=? ago t (n_last_seen r)
                                   then r{{n_last_seen := t - NSExpire + NSSuspendGrace}} else r)).

(** The suspensions that are over, of nicks that exist. *)
Definition over (t : Z) (d : DB) : list NickSuspend :=
  select_where (fun r =>
    bool_decide (is_Some (nicks d !! nsu_nick r)) &&
    existsb (fun s => (su_id s =? nsu_suspend r) && negb (su_expires s =? 0) && (su_expires s <=? t)) (rows (suspend d)))
    (nicksuspend d).

Definition expire_nicksuspends : M (Net E) unit :=
  t ← gets now;
  found ← select (over t);
  for_each found (fun r => unsuspend (nsu_nick r);; del_nicksuspend (nsu_id r)).

(** *** Channels *)
Definition get_channame_from_id (channel_id : Z) : M (Net E) (option string) :=
  select (fun d => ci_name <$> channel d !! channel_id).

(** The rows of a nick for channels that exist, by the channels' names. *)
Definition channel_rank (d : DB) (r : Autojoin) : Z :=
  match channel d !! aj_channel r with Some ci => text_rank (ci_name ci) | None => 0 end.
Definition joins (d : DB) (nick_id : Z) (r : Autojoin) : bool :=
  (aj_nick r =? nick_id) && bool_decide (is_Some (channel d !! aj_channel r)).

Definition renumber_autojoins (nick_id : Z) : M (Net E) unit :=
  update_db (fun d => d{{autojoin ::= fun t =>
    mkTable (renumber_where (joins d nick_id) (channel_rank d) (rows t)) (auto_increment t)}}).

Definition mysql_delchan (channel_id : Z) : M (Net E) unit :=
  name ← get_channame_from_id channel_id;
  match name with
  | None => fault                               (* strlen (NULL) *)
  | Some name =>
      update_db (fun d => d{{channel ::= delete channel_id; channel_named ::= unnamed channel_id}});;
      update_db (fun d => d{{akick ::= delete_where (fun r => ak_channel r =? channel_id)}});;
      update_db (fun d => d{{chanaccess ::= List.filter (fun r => negb (ca_channel r =? channel_id))}});;
      update_db (fun d => d{{chanlevel ::= filter (fun kv => fst (fst kv) <> channel_id)}});;
      update_db (fun d =>
        let mine := select_where (fun r => (csu_chan r =? channel_id) &&
                                           existsb (fun s => su_id s =? csu_suspend r) (rows (suspend d))) (chansuspend d) in
        d{{suspend ::= delete_where (fun s => existsb (fun r => csu_suspend r =? su_id s) mine);
           chansuspend ::= delete_where (fun r => existsb (fun r' => csu_id r' =? csu_id r) mine)}});;
      update_db (fun d => d{{memo ::= delete_where (fun m => same_text (m_owner m) name)}});;
      update_db (fun d => d{{memoinfo ::= delete_where (fun r => same_text (mi_owner r) name)}});;
      ids ← select (fun d => map aj_nick (select_where (fun r => aj_channel r =? channel_id) (autojoin d)));
      update_db (fun d => d{{autojoin ::= delete_where (fun r => aj_channel r =? channel_id)}});;
      for_each ids renumber_autojoins
  end.

(** *** How many channels a nick may have *)
Definition get_channelmax (nick_id : Z) : M (Net E) Z :=
  select (fun d => match nicks d !! nick_id with Some r => n_channelmax r | None => 0 end).

(** The nick and the nicks linked to it, as a list for [IN]. *)
Definition count_chans_reged_by (nick_id : Z) : M (Net E) Z :=
  ids ← select (fun d => map fst (map_to_list (filter (fun kv => n_link (snd kv) = nick_id) (nicks d))));
  select (fun d => Z.of_nat (size (filter (fun kv => ci_founder (snd kv) ∈ nick_id :: ids) (channel d)))).

Definition check_chan_limit (nick_id : Z) : M (Net E) Z :=
  nick_id ← mysql_getlink nick_id;
  max ← get_channelmax nick_id;
  count ← count_chans_reged_by nick_id;
  let max := if max =? 0 then MAX_CHANNELCOUNT else max in
  mret (if count <? max then -1 else if count =? max then 0 else 1).

(** *** Nicks *)

(** [for (i = 0; i < rows; i++)], where the [UPDATE] of a transfer stores its own
    number of rows in [rows]. *)
Fixpoint succession (nick_id : Z) (l : list (Z * Z)) (i rows : Z) : M (Net E) unit :=
  match l with
  | [] => mret tt
  | (chan_id, successor_id) :: l' =>
      if rows <=? i then mret tt
      else
        limit ← check_chan_limit successor_id;
        if negb (limit =? -1) then mysql_delchan chan_id;; succession nick_id l' (i + 1) rows
        else
          rows ← select (fun d => match channel d !! chan_id with
                                  | Some ci => if (ci_founder ci =? nick_id) && (ci_successor ci =? successor_id) then 1 else 0
                                  | None => 0 end);
          when (rows =? 1) (update_channel chan_id (fun ci => ci{{ci_founder := successor_id; ci_successor := 0}}));;
          succession nick_id l' (i + 1) rows
  end.

Definition owned_channels (p : ChanInfo -> bool) (d : DB) : list (Z * ChanInfo) :=
  List.filter (fun kv => p (snd kv)) (map_to_list (channel d)).

Definition cs_mysql_remove_nick (nick_id : Z) : M (Net E) unit :=
  l ← select (owned_channels (fun ci => (ci_founder ci =? nick_id) && negb (ci_successor ci =? 0)));
  succession nick_id (map (fun kv => (fst kv, ci_successor (snd kv))) l) 0 (Z.of_nat (length l));;
  l ← select (owned_channels (fun ci => (ci_founder ci =? nick_id) && (ci_successor ci =? 0)));
  for_each (map fst l) mysql_delchan;;
  update_db (fun d => d{{chanaccess ::= List.filter (fun r => negb (ca_nick r =? nick_id))}});;
  update_db (fun d => d{{akick ::= delete_where (fun r => ak_nick r =? nick_id)}});;
  update_db (fun d => d{{channel ::= fmap (fun ci => if ci_successor ci =? nick_id then ci{{ci_successor := 0}} else ci)}}).

Definition os_mysql_remove_nick (nick_id : Z) : M (Net E) unit :=
  modify (fun n => put ((owned n){{admin ::= fun s => s ∖ {[nick_id]}; oper ::= fun s => s ∖ {[nick_id]}}}) n).

Definition mysql_remove_links (nick_id : Z) : M (Net E) unit :=
  update_db (fun d => d{{nicks ::= fmap (fun r => if n_link r =? nick_id then r{{n_link := 0}} else r)}}).
Definition ns_mysql_remove_access (nick_id : Z) : M (Net E) unit :=
  update_db (fun d => d{{nickaccess ::= delete_where (fun r => na_nick r =? nick_id)}}).
Definition mysql_delete_nick (nick_id : Z) : M (Net E) unit :=
  update_db (fun d => d{{nicks ::= delete nick_id; nick_named ::= unnamed nick_id}}).

Definition ns_mysql_remove_memos (nick_id : Z) : M (Net E) unit :=
  owner ← get_nick_from_id nick_id;
  match owner with
  | None => fault                               (* strlen (NULL) *)
  | Some owner =>
      update_db (fun d => d{{memoinfo ::= delete_where (fun r => same_text (mi_owner r) owner)}});;
      update_db (fun d => d{{memo ::= delete_where (fun m => same_text (m_owner m) owner)}})
  end.

(** [del_nicksuspend] is given the id of the nick. *)
Definition mysql_delnick (nick_id : Z) : M (Net E) unit :=
  del_nicksuspend nick_id;;
  cs_mysql_remove_nick nick_id;;
  os_mysql_remove_nick nick_id;;
  mysql_remove_links nick_id;;
  ns_mysql_remove_access nick_id;;
  ns_mysql_remove_memos nick_id;;
  mysql_delete_nick nick_id.

(** *** Expiry *)
Definition idle_nick (t : Z) (p : NickRow -> bool) (limit : Z) (r : NickRow) : bool :=
  p r && (limit <=? ago t (n_last_seen r)) &&
  negb (has (n_status r) (NS_VERBOTEN .| NS_NO_EXPIRE) || has (n_flags r) (NI_SUSPENDED .| NI_IRCOP)).

Definition del_idle (p : NickRow -> bool) : M (Net E) unit :=
  l ← select (fun d => map fst (List.filter (fun kv => p (snd kv)) (map_to_list (nicks d))));
  for_each l mysql_delnick.

Definition half_more (z : Z) : Z := Z.quot (3 * z) 2.

Definition expire_nicks : M (Net E) unit :=
  t ← gets now;
  update_db (fun d => d{{nicks ::= fmap (fun r => if has (n_status r) (NS_IDENTIFIED .| NS_RECOGNIZED) then r{{n_last_seen := t}} else r)}});;
  if (NSExpire =? 0) || opt_noexpire then mret tt
  else if NSExtraGrace then
    del_idle (idle_nick t (fun r => half_more NSExpire <=? ago t (n_registered r)) (3 * NSExpire));;
    del_idle (idle_nick t (fun r => ago t (n_registered r) <? half_more NSExpire) NSExpire)
  else del_idle (idle_nick t (fun _ => true) NSExpire).

Definition idle_chan (t : Z) (e : E) (p : ChanInfo -> bool) (limit : Z) (i : Z) (ci : ChanInfo) : bool :=
  p ci && (limit <=? ago t (last_used e i)) && negb (has (ci_flags ci) (CI_VERBOTEN .| CI_NO_EXPIRE)).

Definition delchan_idle (t : Z) (p : ChanInfo -> bool) (limit : Z) : M (Net E) unit :=
  l ← gets (fun n => map fst (List.filter (fun kv => idle_chan t (ext n) p limit (fst kv) (snd kv)) (map_to_list (channel (db (ext n))))));
  for_each l mysql_delchan.

Definition expire_chans : M (Net E) unit :=
  t ← gets now;
  if (CSExpire =? 0) || opt_noexpire then mret tt
  else if CSExtraGrace then
    delchan_idle t (fun ci => half_more CSExpire <=? ago t (ci_registered ci)) (3 * CSExpire);;
    delchan_idle t (fun ci => ago t (ci_registered ci) <? half_more CSExpire) CSExpire
  else delchan_idle t (fun _ => true) CSExpire.
End Removal.

(** ** What they leave *)
Section RemovalSpec.
Context `{Conf} `{OperConf} `{ExpiryConf} `{MySQL} `{TextOrder} {E : Type} `{!ChanDB E} `{!Part OperDB E} `{!Beside OperDB E}.
Context (last_used : E -> Z -> Z).
Implicit Types (n : Net E) (d : DB) (o : OperDB).

(** Nothing but tables changed. *)
Record still n n' : Prop := {
  st_users : users_heap n' = users_heap n;
  st_chans : chans_heap n' = chans_heap n;
  st_graph : graph_of n' = graph_of n;
  st_now : now n' = now n;
  st_out : out n' = out n
}.

#[export] Instance still_preorder : PreOrder still.
Proof. split; [by intros n|]. intros n1 n2 n3 [] []. split; congruence. Qed.

#[export] Instance all_tables : Track (Net E) (DB * OperDB) := {tracked n := (db (ext n), owned n); frame := still}.

Lemma does_sel {A} n (f : DB -> A) : does n (select f) (f (db (ext n))) (db (ext n), owned n).
Proof. exact (does_gets n (fun n => f (db (ext n)))). Qed.

Lemma does_upd n f : does n (update_db f) tt (f (db (ext n)), owned n).
Proof.
  unfold does, update_db. apply wp_modify. split; [done|]. split; [by split|].
  apply (f_equal2 pair); [apply db_set|apply part_beside].
Qed.

(** Where a state has the tables [d] and [o]. *)
Definition has_tables n d o : Prop := db (ext n) = d /\ owned n = o.

(** From tables [d], [o] the routine ends with [a] and tables [d'], [o']. *)
Definition turns {A} (m : M (Net E) A) (a : A) d o d' o' (t : Z) : Prop :=
  forall n, has_tables n d o -> now n = t -> does n m a (d', o').

Lemma turns_ret {A} (a : A) d o t : turns (mret a) a d o d o t.
Proof. intros n [<- <-] _. exact (does_ret n a). Qed.

Lemma turns_bind {A B} (m : M (Net E) A) (k : A -> M (Net E) B) a b d o d1 o1 d2 o2 t :
  turns m a d o d1 o1 t -> turns (k a) b d1 o1 d2 o2 t -> turns (mbind k m) b d o d2 o2 t.
Proof.
  intros Hm Hk n Hn Ht. eapply does_bind; [by apply Hm|]. intros n' [Hf Hd]. apply Hk; [by injection Hd|].
  by rewrite (st_now _ _ Hf).
Qed.

Lemma turns_select {A} (f : DB -> A) d o t : turns (select f) (f d) d o d o t.
Proof. intros n [<- <-] _. apply does_sel. Qed.

Lemma turns_update f d o t : turns (update_db f) tt d o (f d) o t.
Proof. intros n [<- <-] _. apply does_upd. Qed.

Lemma turns_now d o t : turns (gets now) t d o d o t.
Proof. intros n [<- <-] <-. exact (does_gets n now). Qed.

Lemma turns_update_row (f : ChanInfo -> ChanInfo) i d o t : turns (update_channel i f) tt d o (d{{channel ::= alter f i}}) o t.
Proof. exact (turns_update (fun d => d{{channel ::= alter f i}}) d o t). Qed.

Lemma turns_when b m d o d' o' t : (b = true -> turns m tt d o d' o' t) -> (b = false -> d' = d /\ o' = o) ->
  turns (when b m) tt d o d' o' t.
Proof. destruct b; intros Ht Hf; [by apply Ht|]. destruct (Hf eq_refl) as [-> ->]. apply turns_ret. Qed.

Lemma turns_for_each {A} (f : A -> M (Net E) unit) (g : A -> DB -> DB) l d o t :
  (forall x d', x ∈ l -> turns (f x) tt d' o (g x d') o t) -> turns (for_each l f) tt d o (fold_left (fun d x => g x d) l d) o t.
Proof.
  revert d. induction l as [|x l IH]; intros d Hf; simpl; [apply turns_ret|].
  eapply turns_bind; [apply Hf; constructor|]. apply IH. intros y d' Hy. apply Hf. by constructor.
Qed.

(** *** A channel is deleted *)
Definition renumber_joins (k : Z) d : DB :=
  d{{autojoin ::= fun t => mkTable (renumber_where (joins d k) (channel_rank d) (rows t)) (auto_increment t)}}.

Definition suspends (i : Z) (st : Table Suspend) (r : ChanSuspend) : bool :=
  (csu_chan r =? i) && existsb (fun s => su_id s =? csu_suspend r) (rows st).
Definition chan_suspensions (i : Z) (st : Table Suspend) (cs : Table ChanSuspend) : list ChanSuspend :=
  select_where (suspends i st) cs.

Definition forget_channel (i : Z) d : DB := d{{channel ::= delete i; channel_named ::= unnamed i}}.
Definition forget_akicks (i : Z) d : DB := d{{akick ::= delete_where (fun r => ak_channel r =? i)}}.
Definition forget_access (i : Z) d : DB := d{{chanaccess ::= List.filter (fun r => negb (ca_channel r =? i))}}.
Definition forget_levels (i : Z) d : DB := d{{chanlevel ::= filter (fun kv => fst (fst kv) <> i)}}.
Definition forget_suspensions (i : Z) d : DB :=
  d{{suspend ::= delete_where (fun s => existsb (fun r => csu_suspend r =? su_id s) (chan_suspensions i (suspend d) (chansuspend d)));
     chansuspend ::= delete_where (fun r => existsb (fun r' => csu_id r' =? csu_id r) (chan_suspensions i (suspend d) (chansuspend d)))}}.
Definition forget_memos (name : string) d : DB := d{{memo ::= delete_where (fun m => same_text (m_owner m) name)}}.
Definition forget_memoinfo (name : string) d : DB := d{{memoinfo ::= delete_where (fun r => same_text (mi_owner r) name)}}.
Definition forget_joins (i : Z) d : DB := d{{autojoin ::= delete_where (fun r => aj_channel r =? i)}}.

Definition forget_chan (i : Z) (name : string) d : DB :=
  forget_joins i (forget_memoinfo name (forget_memos name (forget_suspensions i
    (forget_levels i (forget_access i (forget_akicks i (forget_channel i d))))))).

Definition joiners (i : Z) d : list Z := map aj_nick (select_where (fun r => aj_channel r =? i) (autojoin d)).

Definition delchan (i : Z) (name : string) d : DB :=
  fold_left (fun d k => renumber_joins k d) (joiners i d) (forget_chan i name d).

Lemma turns_delchan i ci d o t : channel d !! i = Some ci -> turns (mysql_delchan i) tt d o (delchan i (ci_name ci) d) o t.
Proof.
  intros Hc. unfold mysql_delchan, get_channame_from_id. eapply turns_bind; [apply turns_select|]. cbv beta. rewrite Hc. cbn.
  eapply turns_bind; [exact (turns_update (forget_channel i) d o t)|].
  eapply turns_bind; [exact (turns_update (forget_akicks i) _ o t)|].
  eapply turns_bind; [exact (turns_update (forget_access i) _ o t)|].
  eapply turns_bind; [exact (turns_update (forget_levels i) _ o t)|].
  eapply turns_bind; [exact (turns_update (forget_suspensions i) _ o t)|].
  eapply turns_bind; [exact (turns_update (forget_memos (ci_name ci)) _ o t)|].
  eapply turns_bind; [exact (turns_update (forget_memoinfo (ci_name ci)) _ o t)|].
  eapply turns_bind; [apply turns_select|]. cbv beta.
  eapply turns_bind; [exact (turns_update (forget_joins i) _ o t)|].
  apply (turns_for_each renumber_autojoins renumber_joins). intros k d' _. apply turns_update.
Qed.

(** **** The lists of auto-joins *)
Definition renumber_for d (k : Z) (l : list Autojoin) : list Autojoin := renumber_where (joins d k) (channel_rank d) l.

(** The list of a nick is numbered from 1, by the names of the channels. *)
Definition numbered_joins d (k : Z) (l : list Autojoin) : Prop :=
  map aj_idx (List.filter (joins d k) l) ≡ₚ seqZ 1 (Z.of_nat (length (List.filter (joins d k) l))) /\
  forall r r', r ∈ List.filter (joins d k) l -> r' ∈ List.filter (joins d k) l ->
    channel_rank d r < channel_rank d r' -> aj_idx r < aj_idx r'.

Definition no_idx (r : Autojoin) : Z * Z * Z := (aj_id r, aj_nick r, aj_channel r).

Lemma renumber_for_same d k l : NoDup (map aj_id l) -> map no_idx (renumber_for d k l) = map no_idx l.
Proof. intros Hn. by refine (renumber_same (joins d k) (channel_rank d) l Hn no_idx _). Qed.

Lemma renumber_for_ids d k l : NoDup (map aj_id l) -> map aj_id (renumber_for d k l) = map aj_id l.
Proof. intros Hn. by refine (renumber_same (joins d k) (channel_rank d) l Hn aj_id _). Qed.

Lemma renumber_for_numbered d k l : NoDup (map aj_id l) -> numbered_joins d k (renumber_for d k l).
Proof.
  intros Hn. unfold renumber_for. split.
  - rewrite (renumber_length (joins d k) (channel_rank d) ltac:(done) l Hn).
    refine (renumber_idx (joins d k) (channel_rank d) _ l Hn). done.
  - intros r r' Hr Hr'. by refine (renumber_ordered (joins d k) (channel_rank d) _ _ l Hn r r' Hr Hr').
Qed.

Lemma renumber_for_other d k k' l : NoDup (map aj_id l) -> k' <> k ->
  List.filter (joins d k') (renumber_for d k l) = List.filter (joins d k') l.
Proof.
  intros Hn Hk. refine (renumber_other (joins d k) (channel_rank d) l Hn (joins d k') _ _); [done|].
  intros r [Hr _]%andb_prop. apply Z.eqb_eq in Hr. unfold joins. destruct (Z.eqb_spec (aj_nick r) k); [congruence|done].
Qed.

Lemma fold_renumber d ks l : NoDup (map aj_id l) ->
  let l' := fold_left (fun l k => renumber_for d k l) ks l in
  map no_idx l' = map no_idx l /\
  (forall k, k ∈ ks -> numbered_joins d k l') /\
  (forall k, k ∉ ks -> List.filter (joins d k) l' = List.filter (joins d k) l).
Proof.
  intros Hn. cbn zeta. induction ks as [|k0 ks IH] using rev_ind; [split; [done|]; split; [by intros k Hk%elem_of_nil|done]|].
  rewrite fold_left_app. simpl. set (l1 := fold_left (fun l k => renumber_for d k l) ks l) in *. destruct IH as (Hs & Hin & Hout).
  assert (Hn1 : NoDup (map aj_id l1)).
  { replace (map aj_id l1) with (map (fun x : Z * Z * Z => x.1.1) (map no_idx l1)) by by rewrite map_map.
    rewrite Hs. by rewrite map_map. }
  split; [by rewrite renumber_for_same|]. split.
  - intros k Hk. destruct (decide (k = k0)) as [->|Hne]; [by apply renumber_for_numbered|].
    unfold numbered_joins. rewrite renumber_for_other by done. apply Hin. apply elem_of_app in Hk as [Hk|Hk%list_elem_of_singleton]; done.
  - intros k Hk. rewrite renumber_for_other; [apply Hout|done|]; set_solver.
Qed.

Lemma fold_joins ks d : fold_left (fun d k => renumber_joins k d) ks d =
  d{{autojoin ::= fun t => mkTable (fold_left (fun l k => renumber_for d k l) ks (rows t)) (auto_increment t)}}.
Proof.
  revert d. induction ks as [|k ks IH]; intros d; [by destruct d as [? ? ? ? ? ? ? ? ? ? ? ? []]|]. simpl fold_left at 1. rewrite IH. by destruct d.
Qed.

Definition speaks_of (i : Z) (name : string) d : Prop :=
  is_Some (channel d !! i) \/ (exists nm, channel_named d nm = Some i) \/
  (exists r, r ∈ rows (akick d) /\ ak_channel r = i) \/ (exists r, r ∈ chanaccess d /\ ca_channel r = i) \/
  (exists a, is_Some (chanlevel d !! (i, a))) \/
  (exists m, m ∈ rows (memo d) /\ same_text (m_owner m) name = true) \/
  (exists m, m ∈ rows (memoinfo d) /\ same_text (mi_owner m) name = true) \/
  (exists r, r ∈ rows (autojoin d) /\ aj_channel r = i) \/
  (exists r, r ∈ chan_suspensions i (suspend d) (chansuspend d)).

Lemma chan_levels_gone (i : Z) (m : gmap (Z * Z) Z) j a :
  filter (fun kv => fst (fst kv) <> i) m !! (j, a) = if bool_decide (j = i) then None else m !! (j, a).
Proof.
  case_bool_decide as Hj; [subst|].
  - apply map_lookup_filter_None. right. intros x _ Hx. by apply Hx.
  - destruct (m !! (j, a)) eqn:Hm; [by apply map_lookup_filter_Some|apply map_lookup_filter_None; by left].
Qed.

(** What [d'] keeps of the other channels, and of everything else. *)
Definition of_others {A} (p : A -> bool) (l l' : list A) : Prop :=
  List.filter (fun r => negb (p r)) l' = List.filter (fun r => negb (p r)) l.

Record others_kept (i : Z) (name : string) d d' : Prop := {
  ok_channel : forall j, j <> i -> channel d' !! j = channel d !! j;
  ok_named : forall nm, channel_named d nm <> Some i -> channel_named d' nm = channel_named d nm;
  ok_levels : forall j a, j <> i -> chanlevel d' !! (j, a) = chanlevel d !! (j, a);
  ok_akick : of_others (fun r => ak_channel r =? i) (rows (akick d)) (rows (akick d'));
  ok_access : of_others (fun r => ca_channel r =? i) (chanaccess d) (chanaccess d');
  ok_chansuspend : of_others (fun r => csu_chan r =? i) (rows (chansuspend d)) (rows (chansuspend d'));
  ok_suspend : forall s, s ∈ rows (suspend d') <->
    s ∈ rows (suspend d) /\ ~ exists r, r ∈ rows (chansuspend d) /\ csu_chan r = i /\ csu_suspend r = su_id s;
  ok_memo : of_others (fun m => same_text (m_owner m) name) (rows (memo d)) (rows (memo d'));
  ok_memoinfo : of_others (fun m => same_text (mi_owner m) name) (rows (memoinfo d)) (rows (memoinfo d'));
  ok_autojoin : map no_idx (rows (autojoin d')) = map no_idx (List.filter (fun r => negb (aj_channel r =? i)) (rows (autojoin d)));
  ok_nicks : nicks d' = nicks d /\ nick_named d' = nick_named d;
  ok_nickaccess : nickaccess d' = nickaccess d /\ nicksuspend d' = nicksuspend d
}.

Lemma filter_twice {A} (p : A -> bool) l : List.filter p (List.filter p l) = List.filter p l.
Proof. induction l as [|x l IH]; [done|]. simpl. destruct (p x) eqn:Hp; simpl; [by rewrite Hp, IH|done]. Qed.

Lemma of_others_filter {A} (p : A -> bool) l : of_others p l (List.filter (fun r => negb (p r)) l).
Proof. apply filter_twice. Qed.

Lemma not_in_filter {A} (p : A -> bool) l r : r ∈ List.filter (fun r => negb (p r)) l -> p r = true -> False.
Proof. rewrite list_elem_of_In, filter_In. intros [_ Hp] Hr. by rewrite Hr in Hp. Qed.

(** The ids of the suspensions are a key of [chansuspend]. *)
Definition ids_ok d : Prop := NoDup (map aj_id (rows (autojoin d))) /\ NoDup (map csu_id (rows (chansuspend d))).

Lemma existsb_key {A} (key : A -> Z) (p : A -> bool) l r : NoDup (map key l) -> r ∈ l ->
  existsb (fun r' => key r' =? key r) (List.filter p l) = p r.
Proof.
  intros Hn Hr. apply eq_true_iff_eq. rewrite existsb_exists. split.
  - intros (r' & Hr' & Hid%Z.eqb_eq). apply filter_In in Hr' as [Hr' Hp]. apply list_elem_of_In in Hr'.
    by rewrite <- (map_inj_in key _ r' r Hn Hr' Hr Hid).
  - intros Hp. exists r. by rewrite filter_In, <- list_elem_of_In, Z.eqb_refl.
Qed.

Lemma chansuspend_left i st cs : NoDup (map csu_id (rows cs)) ->
  rows (delete_where (fun r => existsb (fun r' => csu_id r' =? csu_id r) (chan_suspensions i st cs)) cs) =
  List.filter (fun r => negb (suspends i st r)) (rows cs).
Proof.
  intros Hn. simpl. apply filter_ext_in. intros r Hr. f_equal.
  apply (existsb_key csu_id (suspends i st)); [done|by apply list_elem_of_In].
Qed.

Lemma suspend_left i st cs s :
  s ∈ rows (delete_where (fun s => existsb (fun r => csu_suspend r =? su_id s) (chan_suspensions i st cs)) st) <->
  s ∈ rows st /\ ~ exists r, r ∈ rows cs /\ csu_chan r = i /\ csu_suspend r = su_id s.
Proof.
  rewrite elem_delete, <- not_true_iff_false, existsb_exists.
  split; intros [Hs Hno]; (split; [done|]); intros Hr; apply Hno.
  - destruct Hr as (r & Hr & Hi & Hid). exists r. rewrite Hid, Z.eqb_refl, <- list_elem_of_In. split; [|done].
    apply elem_select. split; [done|]. unfold suspends. rewrite Hi, Z.eqb_refl. apply existsb_exists. exists s.
    by rewrite <- list_elem_of_In, Hid, Z.eqb_refl.
  - destruct Hr as (r & Hr & Hid%Z.eqb_eq). rewrite <- list_elem_of_In in Hr. apply elem_select in Hr as [Hr [Hi%Z.eqb_eq _]%andb_prop].
    by exists r.
Qed.

Lemma of_others_suspends i st l : of_others (fun r => csu_chan r =? i) l (List.filter (fun r => negb (suspends i st r)) l).
Proof.
  unfold of_others. induction l as [|r l IH]; [done|]. simpl. unfold suspends at 1.
  destruct (csu_chan r =? i) eqn:Hi; simpl; rewrite ?Hi; [|by f_equal]. destruct (existsb _ _); simpl; by rewrite ?Hi.
Qed.

Lemma delchan_eq i name d : delchan i name d =
  mkDB (delete i (channel d)) (unnamed i (channel_named d)) (filter (fun kv => fst (fst kv) <> i) (chanlevel d))
    (List.filter (fun r => negb (ca_channel r =? i)) (chanaccess d))
    (delete_where (fun r => ak_channel r =? i) (akick d))
    (chanaccess_next d) (nicks d) (nick_named d) (nickaccess d) (nicksuspend d)
    (delete_where (fun r => existsb (fun r' => csu_id r' =? csu_id r) (chan_suspensions i (suspend d) (chansuspend d))) (chansuspend d))
    (delete_where (fun s => existsb (fun r => csu_suspend r =? su_id s) (chan_suspensions i (suspend d) (chansuspend d))) (suspend d))
    (mkTable (fold_left (fun l k => renumber_for (forget_chan i name d) k l) (joiners i d)
                (List.filter (fun r => negb (aj_channel r =? i)) (rows (autojoin d)))) (auto_increment (autojoin d)))
    (delete_where (fun m => same_text (m_owner m) name) (memo d))
    (delete_where (fun m => same_text (mi_owner m) name) (memoinfo d)).
Proof. unfold delchan. rewrite fold_joins. reflexivity. Qed.

Lemma delchan_kept i name d : ids_ok d -> others_kept i name d (delchan i name d).
Proof.
  intros [Hn Hc]. rewrite delchan_eq. split; simpl.
  - intros j Hj. by apply lookup_delete_ne.
  - intros nm Hnm. unfold unnamed. by case_bool_decide.
  - intros j a Hj. rewrite chan_levels_gone. by case_bool_decide.
  - apply of_others_filter.
  - apply of_others_filter.
  - etransitivity; [|apply (of_others_suspends i (suspend d))]. by apply (f_equal (List.filter _)), chansuspend_left.
  - intros s. apply suspend_left.
  - apply of_others_filter.
  - apply of_others_filter.
  - pose proof (fold_renumber (forget_chan i name d) (joiners i d) (List.filter (fun r => negb (aj_channel r =? i)) (rows (autojoin d)))) as Hf.
    cbn zeta in Hf. refine (proj1 (Hf _)). by apply NoDup_map_filter.
  - done.
  - done.
Qed.

Lemma delchan_silent i name d : ids_ok d -> ~ speaks_of i name (delchan i name d).
Proof.
  intros Hok Hs. pose proof (delchan_kept i name d Hok) as Hk. 
  rewrite delchan_eq in Hs, Hk. unfold speaks_of in Hs. simpl in Hs.
  destruct Hs as [[ci Hs]|[[nm Hs]|[(r & Hr & Hi)|[(r & Hr & Hi)|[(a & x & Hs)|[(r & Hr & Hi)|[(r & Hr & Hi)|[(r & Hr & Hi)|(r & Hr)]]]]]]]].
  - by rewrite lookup_delete_eq in Hs.
  - unfold unnamed in Hs. by case_bool_decide.
  - apply (not_in_filter _ _ _ Hr). by apply Z.eqb_eq.
  - apply (not_in_filter _ _ _ Hr). by apply Z.eqb_eq.
  - rewrite chan_levels_gone in Hs. by case_bool_decide.
  - by apply (not_in_filter _ _ _ Hr).
  - by apply (not_in_filter _ _ _ Hr).
  - assert (Hin : no_idx r ∈ map no_idx (List.filter (fun r => negb (aj_channel r =? i)) (rows (autojoin d)))).
    { rewrite <- (ok_autojoin _ _ _ _ Hk). by apply list_elem_of_In, in_map, list_elem_of_In. }
    apply list_elem_of_In, in_map_iff in Hin as (r' & Er & Hr'). apply list_elem_of_In in Hr'.
    apply (not_in_filter _ _ _ Hr'). injection Er as _ _ ->. by apply Z.eqb_eq.
  - apply elem_select in Hr as [Hr [Hi%Z.eqb_eq Hs]%andb_prop].
    apply existsb_exists in Hs as (s & Hs & Hid%Z.eqb_eq). apply list_elem_of_In in Hs.
    apply (proj1 (ok_suspend _ _ _ _ Hk s)) in Hs as [_ Hno]. apply Hno. exists r. split; [|done].
    by apply elem_delete in Hr as [Hr _].
Qed.

Lemma joins_channels d d' k r : channel d' = channel d -> joins d' k r = joins d k r.
Proof. intros Hc. unfold joins. by rewrite Hc. Qed.

Lemma numbered_channels d d' k l : channel d' = channel d -> numbered_joins d k l -> numbered_joins d' k l.
Proof.
  intros Hc [Hi Ho]. unfold numbered_joins. rewrite (filter_ext (joins d' k) (joins d k)) by (intros; by apply joins_channels).
  split; [done|]. unfold channel_rank. by rewrite Hc.
Qed.

Lemma delchan_joins i name d : ids_ok d -> let d' := delchan i name d in
  (forall k, k ∈ joiners i d -> numbered_joins d' k (rows (autojoin d'))) /\
  (forall k, k ∉ joiners i d -> List.filter (joins d' k) (rows (autojoin d')) = List.filter (joins d k) (rows (autojoin d))).
Proof.
  intros [Hn _]. cbn zeta. set (d' := delchan i name d).
  assert (Ec : channel d' = delete i (channel d)) by (unfold d'; by rewrite delchan_eq).
  assert (Er : rows (autojoin d') = fold_left (fun l k => renumber_for (forget_chan i name d) k l) (joiners i d)
                (List.filter (fun r => negb (aj_channel r =? i)) (rows (autojoin d)))) by (unfold d'; by rewrite delchan_eq).
  clearbody d'. rewrite Er. clear Er.
  set (d1 := forget_chan i name d). assert (E1 : channel d1 = delete i (channel d)) by reflexivity. clearbody d1.
  pose proof (fold_renumber d1 (joiners i d) (List.filter (fun r => negb (aj_channel r =? i)) (rows (autojoin d)))) as Hf.
  cbn zeta in Hf. destruct (Hf (NoDup_map_filter _ _ _ Hn)) as (_ & Hin & Hout).
  split; [intros k Hk; eapply numbered_channels; [|by apply Hin]; congruence|].
  intros k Hk. rewrite (filter_ext (joins d' k) (joins d1 k)) by (intros; apply joins_channels; congruence).
  etransitivity; [exact (Hout k Hk)|]. clear Hf Hin Hout. unfold joiners in Hk.
  assert (Hno : forall r, r ∈ rows (autojoin d) -> aj_nick r = k -> aj_channel r <> i).
  { intros r Hr Hrk Hri. apply Hk. rewrite <- Hrk. apply list_elem_of_In, in_map, list_elem_of_In, elem_select.
    split; [done|by apply Z.eqb_eq]. }
  clear Hk Hn. revert Hno. induction (rows (autojoin d)) as [|r l IH]; intros Hno; [done|]. simpl.
  specialize (IH (fun r Hr => Hno r ltac:(by constructor))). specialize (Hno r ltac:(constructor)).
  unfold joins at 2. destruct (Z.eqb_spec (aj_nick r) k) as [Hrk|Hrk].
  - specialize (Hno Hrk). apply Z.eqb_neq in Hno as Hno'. rewrite Hno'. simpl. unfold joins at 1. rewrite (proj2 (Z.eqb_eq _ _) Hrk). simpl.
    replace (channel d1 !! aj_channel r) with (channel d !! aj_channel r) by (rewrite E1; symmetry; by apply lookup_delete_ne).
    by rewrite IH.
  - simpl. destruct (negb (aj_channel r =? i)); [|done]. simpl. unfold joins at 1. rewrite (proj2 (Z.eqb_neq _ _) Hrk). done.
Qed.

(** C27: Deleting a channel: afterwards no table speaks of it by id or by name,
    its suspensions are gone with their texts, every other row is as before, and
    the auto-join lists that lost an entry are numbered anew in the order of the
    channels' names. *)
Theorem mysql_delchan_correct i ci n : channel (db (ext n)) !! i = Some ci -> ids_ok (db (ext n)) ->
  let d := db (ext n) in
  exists n', mysql_delchan i n = Some (tt, n') /\ still n n' /\ owned n' = owned n /\
    let d' := db (ext n') in
    ~ speaks_of i (ci_name ci) d' /\ others_kept i (ci_name ci) d d' /\
    (forall k, k ∈ joiners i d -> numbered_joins d' k (rows (autojoin d'))) /\
    (forall k, k ∉ joiners i d -> List.filter (joins d' k) (rows (autojoin d')) = List.filter (joins d k) (rows (autojoin d))).
Proof.
  intros Hc Hok. cbn zeta. pose proof (turns_delchan i ci (db (ext n)) (owned n) (now n) Hc n (conj eq_refl eq_refl) eq_refl) as Ht.
  unfold does, wp in Ht. destruct (mysql_delchan i n) as [[[] n']|]; [|done]. destruct Ht as (_ & Hs & Hd).
  exists n'. split; [done|]. split; [done|]. injection Hd as Hd Ho. split; [done|]. rewrite Hd.
  split; [by apply delchan_silent|]. split; [by apply delchan_kept|]. by apply delchan_joins.
Qed.

(** *** The channels of a nick that goes *)
Definition delchan_row (i : Z) d : DB :=
  match channel d !! i with Some ci => delchan i (ci_name ci) d | None => d end.

Definition transfer (i s : Z) d : DB := d{{channel ::= alter (fun ci => ci{{ci_founder := s; ci_successor := 0}}) i}}.

Lemma transfer_eq i s d : transfer i s d =
  mkDB (alter (fun ci => ci{{ci_founder := s; ci_successor := 0}}) i (channel d)) (channel_named d) (chanlevel d) (chanaccess d) (akick d)
    (chanaccess_next d) (nicks d) (nick_named d) (nickaccess d) (nicksuspend d) (chansuspend d) (suspend d) (autojoin d) (memo d) (memoinfo d).
Proof. reflexivity. Qed.

(** [check_chan_limit] answers -1. *)
Definition master_of (k : Z) d : Z := 
  let link := match nicks d !! k with Some r => n_link r | None => 0 end in if link =? 0 then k else link.
Definition reged_by (k : Z) d : Z :=
  Z.of_nat (size (filter (fun kv => ci_founder (snd kv) ∈ k :: map fst (map_to_list (filter (fun kv => n_link (snd kv) = k) (nicks d)))) (channel d))).
Definition may_have (k : Z) d : Z :=
  let max := match nicks d !! k with Some r => n_channelmax r | None => 0 end in if max =? 0 then MAX_CHANNELCOUNT else max.
Definition has_room (k : Z) d : bool := reged_by (master_of k d) d <? may_have (master_of k d) d.
Definition chan_limit (k : Z) d : Z :=
  if has_room k d then -1 else if reged_by (master_of k d) d =? may_have (master_of k d) d then 0 else 1.

Lemma turns_getlink k d o t : turns (mysql_getlink k) (master_of k d) d o d o t.
Proof. apply turns_select. Qed.

Lemma turns_chan_limit k d o t : turns (check_chan_limit k) (chan_limit k d) d o d o t.
Proof.
  unfold check_chan_limit. eapply turns_bind; [apply turns_getlink|]. eapply turns_bind; [apply turns_select|].
  eapply turns_bind; [eapply turns_bind; [apply turns_select|apply turns_select]|]. apply turns_ret.
Qed.

(** Channels with a full successor go, the first other one is handed over, and
    the rest is forgotten. *)
Fixpoint succeed (l : list (Z * Z)) d : DB :=
  match l with
  | [] => d
  | (i, s) :: l' => if has_room s d then transfer i s d else succeed l' (delchan_row i d)
  end.

Definition heir (k : Z) d (p : Z * Z) : Prop := exists ci, channel d !! p.1 = Some ci /\ ci_founder ci = k /\ ci_successor ci = p.2.

Lemma succession_ends k l i rws : rws <= i -> succession k l i rws = mret tt.
Proof. intros Hi. destruct l as [|[c s] l]; [done|]. simpl. by rewrite (proj2 (Z.leb_le _ _) Hi). Qed.

Lemma delchan_row_channel i d : channel (delchan_row i d) = delete i (channel d).
Proof.
  unfold delchan_row. destruct (channel d !! i) eqn:Ei; [by rewrite delchan_eq|]. symmetry. by apply delete_id.
Qed.

Lemma turns_delchan_row i d o t : is_Some (channel d !! i) -> turns (mysql_delchan i) tt d o (delchan_row i d) o t.
Proof. intros [ci Hc]. unfold delchan_row. rewrite Hc. by apply turns_delchan. Qed.

Lemma turns_succession k l d o t i : 0 <= i -> NoDup (map fst l) -> Forall (heir k d) l ->
  turns (succession k l i (i + Z.of_nat (length l))) tt d o (succeed l d) o t.
Proof.
  revert d i. induction l as [|[c s] l IH]; intros d i Hi Hn Hl; [apply turns_ret|].
  cbn [map fst] in Hn. apply NoDup_cons in Hn as [Hc Hn]. apply Forall_cons in Hl as [(ci & Hci & Hk & Hs) Hl]. simpl in Hci, Hs.
  cbn [succession length succeed]. destruct (Z.leb_spec (i + Z.of_nat (S (length l))) i); [lia|].
  eapply turns_bind; [apply turns_chan_limit|]. unfold chan_limit. destruct (has_room s d).
  - cbn [Z.eqb negb]. eapply turns_bind; [apply turns_select|]. cbv beta. rewrite Hci, Hk, Hs, !Z.eqb_refl. cbn [andb].
    eapply turns_bind; [exact (turns_update_row _ c d o t)|]. rewrite succession_ends by lia. apply turns_ret.
  - replace (negb _) with true by (by destruct (reged_by (master_of s d) d =? may_have (master_of s d) d)). cbv iota.
    eapply turns_bind; [by apply turns_delchan_row|].
    replace (i + Z.of_nat (S (length l))) with (i + 1 + Z.of_nat (length l)) by lia.
    apply IH; [lia|done|]. apply Forall_forall. intros [c' s'] Hp. rewrite Forall_forall in Hl.
    destruct (Hl _ Hp) as (ci' & Hci' & ?). exists ci'. simpl in *. rewrite delchan_row_channel, lookup_delete_ne; [done|].
    intros ->. apply Hc. apply list_elem_of_In. exact (in_map fst _ _ (proj1 (list_elem_of_In _ _) Hp)).
Qed.

(** What is left of rows whose keys some are lost. *)
Definition survive {A B} (key : A -> B) (gone : B -> Prop) (l l' : list A) : Prop := forall r, r ∈ l' <-> r ∈ l /\ ~ gone (key r).

Lemma survive_trans {A B} (key : A -> B) (g1 g2 g : B -> Prop) l l1 l2 : (forall b, g b <-> g1 b \/ g2 b) ->
  survive key g1 l l1 -> survive key g2 l1 l2 -> survive key g l l2.
Proof. intros Hg H12 H23 r. rewrite (H23 r), (H12 r), (Hg (key r)). tauto. Qed.

Lemma survive_all {A B} (key : A -> B) (g : B -> Prop) l : (forall b, ~ g b) -> survive key g l l.
Proof. intros Hg r. specialize (Hg (key r)). tauto. Qed.

Lemma survive_filter {A B} (key : A -> B) (p : A -> bool) (g : B -> Prop) l : (forall r, p r = true <-> g (key r)) ->
  survive key g l (List.filter (fun r => negb (p r)) l).
Proof.
  intros Hg r. rewrite list_elem_of_In, filter_In, <- list_elem_of_In, negb_true_iff, <- not_true_iff_false. by rewrite (Hg r).
Qed.

(** Channels of nick [k] were deleted or handed over, and nothing else happened
    to nicks, channels, and the lists of both. *)
Definition handed (k : Z) (ci ci' : ChanInfo) : Prop :=
  ci' = ci \/ ci_founder ci = k /\ ci_successor ci <> 0 /\ ci' = ci{{ci_founder := ci_successor ci; ci_successor := 0}}.

Definition lost d d' (i : Z) : Prop := is_Some (channel d !! i) /\ channel d' !! i = None.
Definition lost_name d d' (s : string) : Prop := exists i ci, channel d !! i = Some ci /\ channel d' !! i = None /\ same_text s (ci_name ci) = true.

Record shrunk (k : Z) d d' : Prop := {
  sh_from : forall i ci', channel d' !! i = Some ci' -> exists ci, channel d !! i = Some ci /\ handed k ci ci';
  sh_kept : forall i ci, channel d !! i = Some ci -> ci_founder ci <> k -> channel d' !! i = Some ci;
  sh_access : survive ca_channel (lost d d') (chanaccess d) (chanaccess d');
  sh_akick : survive ak_channel (lost d d') (rows (akick d)) (rows (akick d'));
  sh_autojoin : survive snd (lost d d') (map no_idx (rows (autojoin d))) (map no_idx (rows (autojoin d')));
  sh_memo : survive m_owner (lost_name d d') (rows (memo d)) (rows (memo d'));
  sh_memoinfo : survive mi_owner (lost_name d d') (rows (memoinfo d)) (rows (memoinfo d'));
  sh_nicks : nicks d' = nicks d /\ nick_named d' = nick_named d;
  sh_nickaccess : nickaccess d' = nickaccess d /\ nicksuspend d' = nicksuspend d;
  sh_ids : ids_ok d -> ids_ok d'
}.

Lemma shrunk_refl k d : shrunk k d d.
Proof.
  assert (Hl : forall i, ~ lost d d i) by (intros i [[ci Hi] Hn]; by rewrite Hn in Hi).
  assert (Hn : forall s, ~ lost_name d d s) by (intros s (i & ci & Hi & Hn & _); by rewrite Hn in Hi).
  split; try (by apply survive_all); try done. intros i ci Hi. exists ci. split; [done|by left].
Qed.

Lemma lost_trans k d d1 d2 : shrunk k d d1 -> shrunk k d1 d2 -> forall i, lost d d2 i <-> lost d d1 i \/ lost d1 d2 i.
Proof.
  intros H12 H23 i. split.
  - intros [Hi Hn]. destruct (channel d1 !! i) eqn:E1; [right; split; [by eexists|done]|by left].
  - intros [[Hi Hn]|[[ci Hi] Hn]].
    + split; [done|]. destruct (channel d2 !! i) eqn:E2; [|done]. destruct (sh_from _ _ _ H23 _ _ E2) as (ci & Hc & _).
      by rewrite Hn in Hc.
    + destruct (sh_from _ _ _ H12 _ _ Hi) as (ci0 & Hc & _). split; [by eexists|done].
Qed.

Lemma handed_name k ci ci' : handed k ci ci' -> ci_name ci' = ci_name ci.
Proof. by intros [->|(_ & _ & ->)]. Qed.

Lemma lost_name_trans k d d1 d2 : shrunk k d d1 -> shrunk k d1 d2 -> forall s, lost_name d d2 s <-> lost_name d d1 s \/ lost_name d1 d2 s.
Proof.
  intros H12 H23 s. split.
  - intros (i & ci & Hi & Hn & Hs). destruct (channel d1 !! i) eqn:E1; [right|left; by exists i, ci].
    exists i, c. split; [done|]. split; [done|]. destruct (sh_from _ _ _ H12 _ _ E1) as (ci0 & Hc & Hh).
    rewrite (handed_name _ _ _ Hh). congruence.
  - intros [(i & ci & Hi & Hn & Hs)|(i & ci & Hi & Hn & Hs)]; exists i.
    + exists ci. split; [done|]. split; [|done]. destruct (channel d2 !! i) eqn:E2; [|done].
      destruct (sh_from _ _ _ H23 _ _ E2) as (c0 & Hc & _). by rewrite Hn in Hc.
    + destruct (sh_from _ _ _ H12 _ _ Hi) as (ci0 & Hc & Hh). exists ci0. by rewrite <- (handed_name _ _ _ Hh).
Qed.

Lemma shrunk_trans k d d1 d2 : shrunk k d d1 -> shrunk k d1 d2 -> shrunk k d d2.
Proof.
  intros H12 H23. pose proof (lost_trans _ _ _ _ H12 H23) as Hl. pose proof (lost_name_trans _ _ _ _ H12 H23) as Hn.
  split.
  - intros i ci2 Hi. destruct (sh_from _ _ _ H23 _ _ Hi) as (ci1 & Hi1 & Hh2). destruct (sh_from _ _ _ H12 _ _ Hi1) as (ci & Hi0 & Hh1).
    exists ci. split; [done|]. destruct Hh2 as [->|(Hf & H0' & ->)]; [done|]. destruct Hh1 as [->|(Hf1 & H1' & ->)]; [by right|].
    simpl in H0'. done.
  - intros i ci Hi Hf. apply (sh_kept _ _ _ H23); [|done]. by apply (sh_kept _ _ _ H12).
  - eapply survive_trans; [exact Hl|apply H12|apply H23].
  - eapply survive_trans; [exact Hl|apply H12|apply H23].
  - eapply survive_trans; [exact Hl|apply H12|apply H23].
  - eapply survive_trans; [exact Hn|apply H12|apply H23].
  - eapply survive_trans; [exact Hn|apply H12|apply H23].
  - destruct (sh_nicks _ _ _ H12), (sh_nicks _ _ _ H23). split; congruence.
  - destruct (sh_nickaccess _ _ _ H12), (sh_nickaccess _ _ _ H23). split; congruence.
  - intros Hok. by apply (sh_ids _ _ _ H23), (sh_ids _ _ _ H12).
Qed.

Lemma ids_delchan i name d : ids_ok d -> ids_ok (delchan i name d).
Proof.
  intros Hok. pose proof (ok_autojoin _ _ _ _ (delchan_kept i name d Hok)) as Ha. split.
  - replace (map aj_id _) with (map (fun x : Z * Z * Z => x.1.1) (map no_idx (rows (autojoin (delchan i name d))))) by by rewrite map_map.
    rewrite Ha, map_map. apply NoDup_map_filter, Hok.
  - rewrite delchan_eq. apply NoDup_map_filter, Hok.
Qed.

Lemma map_filter_key {A B} (f : A -> B) (p : A -> bool) (q : B -> bool) l : (forall x, p x = q (f x)) ->
  map f (List.filter p l) = List.filter q (map f l).
Proof. intros Hp. induction l as [|x l IH]; [done|]. simpl. rewrite <- Hp, <- IH. by destruct (p x). Qed.

Lemma shrunk_delchan k i ci d : channel d !! i = Some ci -> ci_founder ci = k -> ids_ok d -> shrunk k d (delchan i (ci_name ci) d).
Proof.
  intros Hi Hk Hok.
  assert (Hl : forall j, (j =? i) = true <-> lost d (delchan i (ci_name ci) d) j).
  { intros j. unfold lost. rewrite Z.eqb_eq, delchan_eq. simpl. split; [intros ->; rewrite lookup_delete_eq, Hi; by split|].
    intros [[c Hc] Hd]. destruct (decide (j = i)) as [|Hj]; [done|]. rewrite lookup_delete_ne in Hd by done. congruence. }
  assert (Hn : forall s, same_text s (ci_name ci) = true <-> lost_name d (delchan i (ci_name ci) d) s).
  { intros s. split.
    - intros Hs. exists i, ci. split; [done|]. split; [|done]. rewrite delchan_eq. apply lookup_delete_eq.
    - intros (j & cj & Hj & Hd & Hs). assert (Hji : (j =? i) = true) by (apply Hl; split; [by eexists|done]).
      apply Z.eqb_eq in Hji as ->. by replace ci with cj by congruence. }
  split.
  - intros j cj Hj. exists cj. split; [|by left]. rewrite delchan_eq in Hj. simpl in Hj. by apply lookup_delete_Some in Hj as [_ Hj].
  - intros j cj Hj Hf. rewrite delchan_eq. simpl. apply lookup_delete_Some. split; [|done]. intros ->. congruence.
  - rewrite delchan_eq at 2. simpl. by apply survive_filter.
  - rewrite delchan_eq at 2. simpl. by apply survive_filter.
  - rewrite (ok_autojoin _ _ _ _ (delchan_kept i (ci_name ci) d Hok)).
    rewrite (map_filter_key no_idx _ (fun x => negb (snd x =? i))) by done. apply survive_filter. intros r. apply Hl.
  - rewrite delchan_eq at 2. simpl. by apply survive_filter.
  - rewrite delchan_eq at 2. simpl. by apply survive_filter.
  - by rewrite delchan_eq.
  - by rewrite delchan_eq.
  - intros _. by apply ids_delchan.
Qed.

Lemma shrunk_delchan_row k i d : (forall ci, channel d !! i = Some ci -> ci_founder ci = k) -> ids_ok d -> shrunk k d (delchan_row i d).
Proof.
  intros Hk Hok. unfold delchan_row. destruct (channel d !! i) as [ci|] eqn:Hi; [|apply shrunk_refl].
  apply shrunk_delchan; [done|by apply Hk|done].
Qed.

Lemma shrunk_transfer k i s ci d : channel d !! i = Some ci -> ci_founder ci = k -> ci_successor ci = s -> s <> 0 ->
  shrunk k d (transfer i s d).
Proof.
  intros Hi Hk Hs Hs0. rewrite transfer_eq. set (d' := mkDB _ _ _ _ _ _ _ _ _ _ _ _ _ _ _).
  assert (Hc : forall j, channel d' !! j = None -> channel d !! j = None).
  { intros j. simpl. by rewrite lookup_alter_None. }
  assert (Hl : forall j, ~ lost d d' j) by (intros j [[cj Hj] Hn]; apply Hc in Hn; congruence).
  assert (Hn : forall x, ~ lost_name d d' x) by (intros x (j & cj & Hj & Hn & _); apply Hc in Hn; congruence).
  split; try (by apply survive_all); try done.
  - intros j cj. simpl. destruct (decide (j = i)) as [->|Hj].
    + rewrite lookup_alter_eq, Hi. simpl. intros [= <-]. exists ci. split; [done|]. right. by rewrite Hs.
    + rewrite lookup_alter_ne by done. intros Hcj. exists cj. split; [done|by left].
  - intros j cj Hj Hf. simpl. rewrite lookup_alter_ne; [done|]. intros ->. congruence.
Qed.

Lemma shrunk_succeed k l d : NoDup (map fst l) -> Forall (heir k d) l -> Forall (fun p => snd p <> 0) l -> ids_ok d ->
  shrunk k d (succeed l d).
Proof.
  revert d. induction l as [|[i s] l IH]; intros d Hn Hl Hs Hok; [apply shrunk_refl|].
  cbn [map fst] in Hn. apply NoDup_cons in Hn as [Hi Hn]. apply Forall_cons in Hl as [(ci & Hci & Hk & Hcs) Hl].
  apply Forall_cons in Hs as [Hs0 Hs]. simpl in *. destruct (has_room s d); [by eapply shrunk_transfer|].
  assert (Hd : shrunk k d (delchan_row i d)) by (apply shrunk_delchan_row; [intros; congruence|done]).
  eapply shrunk_trans; [exact Hd|]. apply IH; [done| |done|by apply Hd].
  apply Forall_forall. intros [c' s'] Hp. rewrite Forall_forall in Hl.
  destruct (Hl _ Hp) as (ci' & Hci' & ?). exists ci'. simpl in *. rewrite delchan_row_channel, lookup_delete_ne; [done|].
  intros ->. apply Hi. apply list_elem_of_In. exact (in_map fst _ _ (proj1 (list_elem_of_In _ _) Hp)).
Qed.

(** Channels one after the other. *)
Definition delchans (l : list Z) d : DB := fold_left (fun d i => delchan_row i d) l d.

Lemma delchans_channel l d j : channel (delchans l d) !! j = if bool_decide (j ∈ l) then None else channel d !! j.
Proof.
  revert d. induction l as [|i l IH]; intros d; [done|]. unfold delchans in *. simpl. rewrite IH, delchan_row_channel.
  destruct (decide (j = i)) as [->|Hj].
  - rewrite (bool_decide_true (i ∈ i :: l)) by set_solver. rewrite lookup_delete_eq. by destruct (bool_decide (i ∈ l)).
  - rewrite lookup_delete_ne by done. rewrite (bool_decide_ext (j ∈ i :: l) (j ∈ l)); [done|].
    rewrite elem_of_cons. naive_solver.
Qed.

Lemma turns_delchans l d o t : NoDup l -> Forall (fun i => is_Some (channel d !! i)) l ->
  turns (for_each l mysql_delchan) tt d o (delchans l d) o t.
Proof.
  revert d. induction l as [|i l IH]; intros d Hn Hl; [apply turns_ret|]. apply NoDup_cons in Hn as [Hi Hn].
  apply Forall_cons in Hl as [Hi' Hl]. simpl. eapply turns_bind; [by apply turns_delchan_row|]. apply IH; [done|].
  apply Forall_forall. intros j Hj. rewrite Forall_forall in Hl. rewrite delchan_row_channel, lookup_delete_ne; [by apply Hl|].
  by intros ->.
Qed.

Lemma shrunk_delchans k l d : Forall (fun i => forall ci, channel d !! i = Some ci -> ci_founder ci = k) l -> ids_ok d ->
  shrunk k d (delchans l d).
Proof.
  revert d. induction l as [|i l IH]; intros d Hl Hok; [apply shrunk_refl|]. apply Forall_cons in Hl as [Hi Hl].
  unfold delchans in *. simpl. assert (Hd : shrunk k d (delchan_row i d)) by by apply shrunk_delchan_row.
  eapply shrunk_trans; [exact Hd|]. apply IH; [|by apply Hd]. eapply Forall_impl; [exact Hl|].
  intros j Hj ci. rewrite delchan_row_channel, lookup_delete_Some. intros [_ Hc]. by apply Hj.
Qed.

Definition heirs (k : Z) d : list (Z * Z) :=
  map (fun kv => (fst kv, ci_successor (snd kv))) (owned_channels (fun ci => (ci_founder ci =? k) && negb (ci_successor ci =? 0)) d).
Definition heirless (k : Z) d : list Z :=
  map fst (owned_channels (fun ci => (ci_founder ci =? k) && (ci_successor ci =? 0)) d).

Lemma owned_in p d kv : kv ∈ owned_channels p d -> channel d !! fst kv = Some (snd kv) /\ p (snd kv) = true.
Proof.
  unfold owned_channels. rewrite list_elem_of_In, filter_In, <- list_elem_of_In. intros [Hkv Hp].
  destruct kv. by apply elem_of_map_to_list in Hkv.
Qed.

Lemma owned_intro p d i ci : channel d !! i = Some ci -> p ci = true -> (i, ci) ∈ owned_channels p d.
Proof.
  intros Hc Hp. unfold owned_channels. rewrite list_elem_of_In, filter_In, <- list_elem_of_In. split; [|done].
  by apply elem_of_map_to_list.
Qed.

Lemma owned_nodup p d : NoDup (map fst (owned_channels p d)).
Proof. unfold owned_channels. apply NoDup_map_filter. exact (NoDup_fst_map_to_list (channel d)). Qed.

Lemma heirs_are k d : NoDup (map fst (heirs k d)) /\ Forall (heir k d) (heirs k d) /\ Forall (fun p => snd p <> 0) (heirs k d).
Proof.
  unfold heirs. split; [rewrite map_map; apply owned_nodup|]. rewrite !Forall_map. split; apply Forall_forall; intros kv Hkv;
    destruct (owned_in _ _ _ Hkv) as [Hc [Hf%Z.eqb_eq Hs]%andb_prop]; [by exists (snd kv)|].
  simpl. by apply negb_true_iff, Z.eqb_neq in Hs.
Qed.

Lemma heirless_are k d : NoDup (heirless k d) /\ forall i, i ∈ heirless k d <-> exists ci, channel d !! i = Some ci /\ ci_founder ci = k /\ ci_successor ci = 0.
Proof.
  split; [apply owned_nodup|]. intros i. unfold heirless. rewrite list_elem_of_In, in_map_iff. split.
  - intros (kv & <- & Hkv). apply list_elem_of_In in Hkv. destruct (owned_in _ _ _ Hkv) as [Hc [Hf%Z.eqb_eq Hs%Z.eqb_eq]%andb_prop].
    by exists (snd kv).
  - intros (ci & Hc & Hf & Hs). exists (i, ci). split; [done|]. apply list_elem_of_In, owned_intro; [done|]. by rewrite Hf, Hs, !Z.eqb_refl.
Qed.

Definition disinherit (k : Z) (ci : ChanInfo) : ChanInfo := if ci_successor ci =? k then ci{{ci_successor := 0}} else ci.
Definition without_access (k : Z) d : DB := d{{chanaccess ::= List.filter (fun r => negb (ca_nick r =? k))}}.
Definition without_akick (k : Z) d : DB := d{{akick ::= delete_where (fun r => ak_nick r =? k)}}.
Definition without_succession (k : Z) d : DB := d{{channel ::= fmap (disinherit k)}}.

(** Where the channels of the nick have gone. *)
Definition bequeathed (k : Z) d : DB := let d1 := succeed (heirs k d) d in delchans (heirless k d1) d1.

Lemma turns_remove_nick k d o t :
  turns (cs_mysql_remove_nick k) tt d o (without_succession k (without_akick k (without_access k (bequeathed k d)))) o t.
Proof.
  unfold cs_mysql_remove_nick. eapply turns_bind; [apply turns_select|]. cbv beta.
  destruct (heirs_are k d) as (Hn & Hh & _).
  eapply turns_bind.
  { replace (Z.of_nat (length (owned_channels _ d))) with (0 + Z.of_nat (length (heirs k d))) by (unfold heirs; by rewrite length_map).
    by apply turns_succession. }
  eapply turns_bind; [apply turns_select|]. cbv beta. destruct (heirless_are k (succeed (heirs k d) d)) as [Hn' Hin].
  eapply turns_bind.
  { apply turns_delchans; [exact Hn'|]. apply Forall_forall. intros i Hi. destruct (proj1 (Hin i) Hi) as (ci & Hci & _). by exists ci. }
  eapply turns_bind; [exact (turns_update (without_access k) _ o t)|].
  eapply turns_bind; [exact (turns_update (without_akick k) _ o t)|].
  exact (turns_update (without_succession k) _ o t).
Qed.

Lemma shrunk_bequeathed k d : ids_ok d -> shrunk k d (bequeathed k d).
Proof.
  intros Hok. unfold bequeathed. cbv zeta. destruct (heirs_are k d) as (Hn & Hh & Hs).
  assert (Hd1 : shrunk k d (succeed (heirs k d) d)) by by apply shrunk_succeed.
  eapply shrunk_trans; [exact Hd1|]. apply shrunk_delchans; [|by apply Hd1].
  apply Forall_forall. intros i Hi ci Hci. apply heirless_are in Hi as (ci' & Hci' & Hf & _). congruence.
Qed.

(** The only channels left to the nick are those a successor should have had. *)
Lemma bequeathed_rest k d i ci : ids_ok d -> channel (bequeathed k d) !! i = Some ci -> ci_founder ci = k ->
  channel d !! i = Some ci /\ ci_successor ci <> 0.
Proof.
  intros Hok Hi Hf. assert (Hs : ci_successor ci <> 0).
  { intros Hs. unfold bequeathed in Hi. rewrite delchans_channel in Hi. case_bool_decide as Hin; [done|].
    apply Hin. apply heirless_are. by exists ci. }
  split; [|done]. destruct (sh_from _ _ _ (shrunk_bequeathed k d Hok) _ _ Hi) as (ci0 & Hc & [->|(_ & _ & ->)]); [done|].
  by simpl in Hs.
Qed.

(** *** Everything of the nick goes *)
Definition without_suspension (k : Z) d : DB :=
  let found := select_where (fun r => nsu_id r =? k) (nicksuspend d) in
  let s := match last found with Some r => nsu_suspend r | None => 0 end in
  let d1 := if s =? 0 then d else d{{suspend ::= delete_where (fun r => su_id r =? s)}} in
  d1{{nicksuspend ::= delete_where (fun r => nsu_id r =? k)}}.
Definition unlink (k : Z) (r : NickRow) : NickRow := if n_link r =? k then r{{n_link := 0}} else r.
Definition without_links (k : Z) d : DB := d{{nicks ::= fmap (unlink k)}}.
Definition without_hosts (k : Z) d : DB := d{{nickaccess ::= delete_where (fun r => na_nick r =? k)}}.
Definition without_nick (k : Z) d : DB := d{{nicks ::= delete k; nick_named ::= unnamed k}}.
Definition without_admin (k : Z) o : OperDB := o{{admin ::= fun s => s ∖ {[k]}; oper ::= fun s => s ∖ {[k]}}}.

Lemma turns_del_nicksuspend k d o t : k <> 0 -> turns (del_nicksuspend k) tt d o (without_suspension k d) o t.
Proof.
  intros Hk. unfold del_nicksuspend. rewrite (proj2 (Z.eqb_neq _ _) Hk). eapply turns_bind; [apply turns_select|]. cbv beta zeta.
  set (s := match last _ with Some r => nsu_suspend r | None => 0 end).
  eapply (turns_bind _ _ _ _ _ _ (if s =? 0 then d else d{{suspend ::= delete_where (fun r => su_id r =? s)}})).
  - apply turns_when; destruct (s =? 0); try done. intros _.
    exact (turns_update (fun d => d{{suspend ::= delete_where (fun r => su_id r =? s)}}) d o t).
  - exact (turns_update (fun d => d{{nicksuspend ::= delete_where (fun r => nsu_id r =? k)}}) _ o t).
Qed.

Lemma turns_os k d o t : turns (os_mysql_remove_nick k) tt d o d (without_admin k o) t.
Proof.
  intros n [<- <-] _. unfold does, os_mysql_remove_nick. apply wp_modify. split; [done|]. split; [by split|].
  apply (f_equal2 pair); [apply db_beside|apply part_with].
Qed.

Definition cleaned (k : Z) (name : string) d : DB :=
  without_nick k (forget_memos name (forget_memoinfo name (without_hosts k (without_links k
    (without_succession k (without_akick k (without_access k d))))))).

Lemma cleaned_eq k name d : cleaned k name d =
  mkDB (disinherit k <$> channel d) (channel_named d) (chanlevel d) (List.filter (fun r => negb (ca_nick r =? k)) (chanaccess d))
    (delete_where (fun r => ak_nick r =? k) (akick d)) (chanaccess_next d) (delete k (unlink k <$> nicks d)) (unnamed k (nick_named d))
    (delete_where (fun r => na_nick r =? k) (nickaccess d)) (nicksuspend d) (chansuspend d) (suspend d) (autojoin d)
    (delete_where (fun m => same_text (m_owner m) name) (memo d)) (delete_where (fun m => same_text (mi_owner m) name) (memoinfo d)).
Proof. reflexivity. Qed.

Lemma unsuspended_eq k d : exists st, without_suspension k d =
  mkDB (channel d) (channel_named d) (chanlevel d) (chanaccess d) (akick d) (chanaccess_next d) (nicks d) (nick_named d) (nickaccess d)
    (delete_where (fun r => nsu_id r =? k) (nicksuspend d)) (chansuspend d) st (autojoin d) (memo d) (memoinfo d).
Proof. unfold without_suspension. destruct (_ =? 0); eexists; reflexivity. Qed.

Definition delnick (k : Z) (name : string) d : DB := cleaned k name (bequeathed k (without_suspension k d)).

Lemma turns_delnick k r d o t : k <> 0 -> nicks d !! k = Some r -> ids_ok d ->
  turns (mysql_delnick k) tt d o (delnick k (n_nick r) d) (without_admin k o) t.
Proof.
  intros Hk Hr Hok.
  assert (Hb : shrunk k (without_suspension k d) (bequeathed k (without_suspension k d))).
  { apply shrunk_bequeathed. by destruct (unsuspended_eq k d) as [st ->]. }
  unfold mysql_delnick. eapply turns_bind; [by apply turns_del_nicksuspend|].
  eapply turns_bind; [apply turns_remove_nick|]. eapply turns_bind; [apply turns_os|].
  eapply turns_bind; [exact (turns_update (without_links k) _ _ t)|]. eapply turns_bind; [exact (turns_update (without_hosts k) _ _ t)|].
  eapply turns_bind; [|exact (turns_update (without_nick k) _ _ t)].
  unfold ns_mysql_remove_memos, get_nick_from_id. eapply turns_bind; [apply turns_select|]. cbv beta.
  match goal with |- turns match ?x with _ => _ end _ _ _ _ _ _ => replace x with (Some (n_nick r)) end.
  - eapply turns_bind; [exact (turns_update (forget_memoinfo (n_nick r)) _ _ t)|]. exact (turns_update (forget_memos (n_nick r)) _ _ t).
  - simpl. rewrite lookup_fmap. destruct (sh_nicks _ _ _ Hb) as [-> _]. destruct (unsuspended_eq k d) as [st ->]. simpl.
    rewrite Hr. simpl. unfold unlink. by destruct (_ =? _).
Qed.

(** What a nick leaves. *)
Record nick_left (k : Z) (name : string) d d' : Prop := {
  nl_nicks : forall j, nicks d' !! j = if j =? k then None else unlink k <$> nicks d !! j;
  nl_named : forall nm, nick_named d' nm = unnamed k (nick_named d) nm;
  nl_hosts : nickaccess d' = delete_where (fun r => na_nick r =? k) (nickaccess d);
  nl_suspension : nicksuspend d' = delete_where (fun r => nsu_id r =? k) (nicksuspend d);
  nl_from : forall i ci', channel d' !! i = Some ci' ->
    ci_successor ci' <> k /\ exists ci, channel d !! i = Some ci /\ ci_name ci' = ci_name ci /\
    (ci_founder ci' = ci_founder ci /\ (ci_founder ci = k -> ci_successor ci <> 0) \/
     ci_founder ci = k /\ ci_founder ci' = ci_successor ci /\ ci_founder ci' <> 0);
  nl_kept : forall i ci, channel d !! i = Some ci -> ci_founder ci <> k -> channel d' !! i = Some (disinherit k ci);
  nl_access : forall r, r ∈ chanaccess d' <-> r ∈ chanaccess d /\ ca_nick r <> k /\ ~ lost d d' (ca_channel r);
  nl_akick : forall r, r ∈ rows (akick d') <-> r ∈ rows (akick d) /\ ak_nick r <> k /\ ~ lost d d' (ak_channel r);
  nl_autojoin : survive snd (lost d d') (map no_idx (rows (autojoin d))) (map no_idx (rows (autojoin d')));
  nl_memo : forall m, m ∈ rows (memo d') <->
    m ∈ rows (memo d) /\ same_text (m_owner m) name = false /\ ~ lost_name d d' (m_owner m);
  nl_memoinfo : forall m, m ∈ rows (memoinfo d') <->
    m ∈ rows (memoinfo d) /\ same_text (mi_owner m) name = false /\ ~ lost_name d d' (mi_owner m)
}.

Lemma elem_filter_neg {A} (p : A -> bool) l r : r ∈ List.filter (fun r => negb (p r)) l <-> r ∈ l /\ p r = false.
Proof. by rewrite list_elem_of_In, filter_In, <- list_elem_of_In, negb_true_iff. Qed.

Lemma disinherit_name k ci : ci_name (disinherit k ci) = ci_name ci /\ ci_founder (disinherit k ci) = ci_founder ci.
Proof. unfold disinherit. by destruct (_ =? _). Qed.

Lemma disinherited k ci : k <> 0 -> ci_successor (disinherit k ci) <> k.
Proof. intros Hk. unfold disinherit. destruct (Z.eqb_spec (ci_successor ci) k); simpl; congruence. Qed.

Lemma delnick_left k name d : k <> 0 -> ids_ok d -> nick_left k name d (delnick k name d).
Proof.
  intros Hk Hok. unfold delnick. destruct (unsuspended_eq k d) as [st E0]. set (d0 := without_suspension k d) in *. clearbody d0.
  assert (Hok0 : ids_ok d0) by by rewrite E0.
  pose proof (shrunk_bequeathed k d0 Hok0) as Hs. pose proof (bequeathed_rest k d0) as Hr. set (b := bequeathed k d0) in *. clearbody b.
  rewrite cleaned_eq. destruct (sh_nicks _ _ _ Hs) as [En Em]. destruct (sh_nickaccess _ _ _ Hs) as [Ea Es].
  set (d' := mkDB _ _ _ _ _ _ _ _ _ _ _ _ _ _ _).
  assert (Ec : channel d0 = channel d) by by rewrite E0.
  assert (Hl : forall i, lost d d' i <-> lost d0 b i).
  { intros i. unfold lost. simpl. by rewrite Ec, lookup_fmap, fmap_None. }
  assert (Hln : forall x, lost_name d d' x <-> lost_name d0 b x).
  { intros x. unfold lost_name. simpl. rewrite Ec. by setoid_rewrite lookup_fmap; setoid_rewrite fmap_None. }
  split.
  - intros j. simpl. rewrite En, E0. simpl. destruct (Z.eqb_spec j k) as [->|Hj]; [by rewrite lookup_delete_eq|].
    by rewrite lookup_delete_ne, lookup_fmap.
  - intros nm. simpl. by rewrite Em, E0.
  - simpl. by rewrite Ea, E0.
  - simpl. by rewrite Es, E0.
  - intros i ci'. simpl. rewrite lookup_fmap, fmap_Some. intros (cb & Hcb & ->). split; [by apply disinherited|].
    destruct (disinherit_name k cb) as [-> ->]. destruct (sh_from _ _ _ Hs _ _ Hcb) as (ci & Hci & Hh). exists ci.
    rewrite <- Ec. split; [done|]. split; [by eapply handed_name|].
    destruct Hh as [->|(Hf & Hs0 & ->)]; [left; split; [done|]|by right]. intros Hf. by eapply (Hr i).
  - intros i ci Hi Hf. simpl. rewrite lookup_fmap. rewrite (sh_kept _ _ _ Hs i ci); [done|by rewrite Ec|done].
  - intros r. simpl. rewrite elem_filter_neg, Z.eqb_neq, (sh_access _ _ _ Hs r), Hl, E0. simpl. tauto.
  - intros r. simpl. rewrite elem_filter_neg, Z.eqb_neq, (sh_akick _ _ _ Hs r), Hl, E0. simpl. tauto.
  - intros r. simpl. rewrite (sh_autojoin _ _ _ Hs r), Hl, E0. done.
  - intros m. simpl. rewrite elem_filter_neg, (sh_memo _ _ _ Hs m), Hln, E0. simpl. tauto.
  - intros m. simpl. rewrite elem_filter_neg, (sh_memoinfo _ _ _ Hs m), Hln, E0. simpl. tauto.
Qed.


Lemma heirs_in k d i ci : channel d !! i = Some ci -> ci_founder ci = k -> ci_successor ci <> 0 -> (i, ci_successor ci) ∈ heirs k d.
Proof.
  intros Hc Hf Hs. unfold heirs. apply list_elem_of_In. apply (in_map (fun kv => (fst kv, ci_successor (snd kv))) _ (i, ci)).
  apply list_elem_of_In, owned_intro; [done|]. by rewrite Hf, Z.eqb_refl, (proj2 (Z.eqb_neq _ _) Hs).
Qed.

Definition second_heir_spec k d : Prop := forall i j ci cj,
  channel d !! i = Some ci -> channel d !! j = Some cj -> i <> j ->
  ci_founder ci = k -> ci_founder cj = k -> ci_successor ci <> 0 -> ci_successor cj <> 0 ->
  (forall h c, channel d !! h = Some c -> ci_founder c = k -> ci_successor c <> 0 -> has_room (ci_successor c) d = true) ->
  exists h c, channel (bequeathed k d) !! h = Some c /\ ci_founder c = k.

(** The first of two heirs is served, the second is not. *)
Lemma second_heir k d : second_heir_spec k d.
Proof.
  intros i j ci cj Hi Hj Hne Hfi Hfj Hsi Hsj Hroom.
  destruct (heirs_are k d) as (Hn & Hh & Hs). pose proof (heirs_in k d i ci Hi Hfi Hsi) as Pi. pose proof (heirs_in k d j cj Hj Hfj Hsj) as Pj.
  unfold bequeathed. cbv zeta.
  destruct (heirs k d) as [|[i1 s1] [|[i2 s2] l]].
  - by apply elem_of_nil in Pi.
  - apply list_elem_of_singleton in Pi, Pj. congruence.
  - apply Forall_cons in Hh as [(c1 & Hc1 & Hf1 & Hs1) Hh]. apply Forall_cons in Hh as [(c2 & Hc2 & Hf2 & Hs2) _].
    apply Forall_cons in Hs as [H01 Hs]. apply Forall_cons in Hs as [H02 _]. simpl in *.
    assert (Hr : has_room s1 d = true) by (rewrite <- Hs1; apply (Hroom i1 c1); congruence). rewrite Hr.
    exists i2, c2. split; [|done]. rewrite delchans_channel.
    apply NoDup_cons in Hn as [Hn _].
    assert (Hc : channel (transfer i1 s1 d) !! i2 = Some c2).
    { simpl. rewrite lookup_alter_ne; [done|]. intros ->. apply Hn. constructor. }
    case_bool_decide as Hin; [|done]. apply heirless_are in Hin as (c & Hc' & _ & Hs0). congruence.
Qed.

Lemma room_unsuspended k s d : has_room s (without_suspension k d) = has_room s d.
Proof. by destruct (unsuspended_eq k d) as [st ->]. Qed.

(** When a nick with two channels that have successors goes, and every
    successor may have another channel, one of these channels is left to the
    nick that is no more. *)
Theorem second_successor_lost k r n i j ci cj : k <> 0 -> nicks (db (ext n)) !! k = Some r -> ids_ok (db (ext n)) ->
  let d := db (ext n) in
  channel d !! i = Some ci -> channel d !! j = Some cj -> i <> j ->
  ci_founder ci = k -> ci_founder cj = k -> ci_successor ci <> 0 -> ci_successor cj <> 0 ->
  (forall h c, channel d !! h = Some c -> ci_founder c = k -> ci_successor c <> 0 -> has_room (ci_successor c) d = true) ->
  exists n' h c, mysql_delnick k n = Some (tt, n') /\ nicks (db (ext n')) !! k = None /\
    channel (db (ext n')) !! h = Some c /\ ci_founder c = k.
Proof.
  intros Hk Hr Hok. cbn zeta. intros Hi Hj Hne Hfi Hfj Hsi Hsj Hroom.
  pose proof (turns_delnick k r (db (ext n)) (owned n) (now n) Hk Hr Hok n (conj eq_refl eq_refl) eq_refl) as Ht.
  unfold does, wp in Ht. destruct (mysql_delnick k n) as [[[] n']|]; [|done]. destruct Ht as (_ & _ & Hd). injection Hd as Hd _.
  destruct (second_heir k (without_suspension k (db (ext n))) i j ci cj) as (h & c & Hc & Hf); try done.
  1, 2: by destruct (unsuspended_eq k (db (ext n))) as [st ->].
  { intros h c. rewrite room_unsuspended. destruct (unsuspended_eq k (db (ext n))) as [st ->]. apply Hroom. }
  exists n', h, (disinherit k c). split; [done|]. rewrite Hd. unfold delnick. rewrite cleaned_eq. cbn [nicks channel].
  split; [apply lookup_delete_eq|]. rewrite lookup_fmap, Hc. split; [done|]. destruct (disinherit_name k c) as [_ ->]. done.
Qed.

(** *** Expiry of nicks *)
Definition delnick_row (k : Z) d : DB := match nicks d !! k with Some r => delnick k (n_nick r) d | None => d end.
Definition delnicks (l : list Z) d : DB := fold_left (fun d k => delnick_row k d) l d.
Definition without_admins (l : list Z) o : OperDB := fold_left (fun o k => without_admin k o) l o.

Lemma ids_delnick k name d : ids_ok d -> ids_ok (delnick k name d).
Proof.
  intros Hok. assert (Hok0 : ids_ok (without_suspension k d)) by by destruct (unsuspended_eq k d) as [st ->].
  unfold delnick. rewrite cleaned_eq. exact (sh_ids k _ _ (shrunk_bequeathed k _ Hok0) Hok0).
Qed.

Lemma ids_delnick_row k d : ids_ok d -> ids_ok (delnick_row k d).
Proof. unfold delnick_row. destruct (nicks d !! k); [apply ids_delnick|done]. Qed.

(** The link of [r] where the nicks [l] are gone. *)
Definition cut (l : list Z) (r : NickRow) : NickRow := if existsb (Z.eqb (n_link r)) l then r{{n_link := 0}} else r.

Lemma cut_cons k l r : k <> 0 -> cut (k :: l) r = cut l (unlink k r).
Proof.
  intros Hk. unfold cut, unlink. simpl. destruct (Z.eqb_spec (n_link r) k) as [E1|E1]; simpl; [|done].
  by destruct (existsb (Z.eqb 0) l).
Qed.

Lemma delnicks_nicks l d j : Forall (fun k => k <> 0) l -> Forall (fun k => is_Some (nicks d !! k)) l -> NoDup l -> ids_ok d ->
  nicks (delnicks l d) !! j = if bool_decide (j ∈ l) then None else cut l <$> nicks d !! j.
Proof.
  revert d. induction l as [|k l IH]; intros d H0l Hl Hn Hok; [rewrite bool_decide_false by apply not_elem_of_nil; simpl; by destruct (nicks d !! j)|].
  apply Forall_cons in H0l as [Hk0 H0l]. apply Forall_cons in Hl as [[r Hr] Hl]. apply NoDup_cons in Hn as [Hk Hn].
  unfold delnicks in *. simpl. pose proof (delnick_left k (n_nick r) d Hk0 Hok) as Hd.
  assert (Er : delnick_row k d = delnick k (n_nick r) d) by (unfold delnick_row; by rewrite Hr). rewrite Er.
  rewrite IH; [|done| |done|by apply ids_delnick].
  - rewrite (nl_nicks _ _ _ _ Hd). destruct (Z.eqb_spec j k) as [->|Hj].
    + rewrite (bool_decide_true (k ∈ k :: l)) by constructor. by destruct (bool_decide (k ∈ l)).
    + rewrite (bool_decide_ext (j ∈ k :: l) (j ∈ l)) by (rewrite elem_of_cons; naive_solver).
      destruct (bool_decide (j ∈ l)); [done|]. destruct (nicks d !! j); [|done]. simpl. by rewrite cut_cons.
  - apply Forall_forall. intros i Hi. rewrite Forall_forall in Hl. destruct (Hl i Hi) as [ri Hri].
    rewrite (nl_nicks _ _ _ _ Hd), Hri. destruct (Z.eqb_spec i k) as [->|]; [done|]. by eexists.
Qed.

Lemma turns_delnicks l d o t : Forall (fun k => k <> 0) l -> Forall (fun k => is_Some (nicks d !! k)) l -> NoDup l -> ids_ok d ->
  turns (for_each l mysql_delnick) tt d o (delnicks l d) (without_admins l o) t.
Proof.
  revert d o. induction l as [|k l IH]; intros d o H0l Hl Hn Hok; [apply turns_ret|].
  apply Forall_cons in H0l as [Hk0 H0l]. apply Forall_cons in Hl as [[r Hr] Hl]. apply NoDup_cons in Hn as [Hk Hn].
  unfold delnicks, without_admins in *. simpl. unfold delnick_row at 2. rewrite Hr.
  eapply turns_bind; [by apply turns_delnick|]. apply IH; [done| |done|by apply ids_delnick].
  apply Forall_forall. intros i Hi. rewrite Forall_forall in Hl. destruct (Hl i Hi) as [ri Hri].
  rewrite (nl_nicks _ _ _ _ (delnick_left k (n_nick r) d Hk0 Hok)), Hri. destruct (Z.eqb_spec i k) as [->|]; [done|]. by eexists.
Qed.

Definition those (p : NickRow -> bool) d : list Z := map fst (List.filter (fun kv => p (snd kv)) (map_to_list (nicks d))).

Lemma those_are p d : (forall k, is_Some (nicks d !! k) -> k <> 0) ->
  Forall (fun k => k <> 0) (those p d) /\ Forall (fun k => is_Some (nicks d !! k)) (those p d) /\ NoDup (those p d) /\
  forall k, k ∈ those p d <-> exists r, nicks d !! k = Some r /\ p r = true.
Proof.
  intros Hk. assert (Hin : forall k, k ∈ those p d <-> exists r, nicks d !! k = Some r /\ p r = true).
  { intros k. unfold those. rewrite list_elem_of_In, in_map_iff. split.
    - intros ([k' r] & <- & Hr). apply filter_In in Hr as [Hr Hp]. apply list_elem_of_In, elem_of_map_to_list in Hr. by exists r.
    - intros (r & Hr & Hp). exists (k, r). split; [done|]. apply filter_In. split; [|done]. by apply list_elem_of_In, elem_of_map_to_list. }
  split; [|split; [|split]]; [| | |done].
  - apply Forall_forall. intros k (r & Hr & _)%Hin. apply Hk. by exists r.
  - apply Forall_forall. intros k (r & Hr & _)%Hin. by exists r.
  - apply NoDup_map_filter. exact (NoDup_fst_map_to_list (nicks d)).
Qed.

Lemma turns_del_idle p d o t : (forall k, is_Some (nicks d !! k) -> k <> 0) -> ids_ok d ->
  turns (del_idle p) tt d o (delnicks (those p d) d) (without_admins (those p d) o) t.
Proof.
  intros Hk Hok. destruct (those_are p d Hk) as (H0l & Hl & Hn & _). unfold del_idle.
  eapply turns_bind; [apply turns_select|]. by apply turns_delnicks.
Qed.

(** Nicks of which [P] holds are gone, and the nicks linked to them stand alone. *)
Definition stripped (P : NickRow -> bool) d (r : NickRow) : NickRow :=
  if match nicks d !! n_link r with Some m => P m | None => false end then r{{n_link := 0}} else r.
Definition gone (P : NickRow -> bool) d d' : Prop :=
  forall j, nicks d' !! j = match nicks d !! j with
                            | Some r => if P r then None else Some (stripped P d r)
                            | None => None
                            end.

Lemma gone_delnicks p d : (forall k, is_Some (nicks d !! k) -> k <> 0) -> ids_ok d -> gone p d (delnicks (those p d) d).
Proof.
  intros Hk Hok j. destruct (those_are p d Hk) as (H0l & Hl & Hn & Hin). rewrite delnicks_nicks by done.
  destruct (nicks d !! j) as [r|] eqn:Hj; [|by destruct (bool_decide _)].
  case_bool_decide as Hd.
  - apply Hin in Hd as (r' & Hr' & Hp). replace r with r' by congruence. by rewrite Hp.
  - destruct (p r) eqn:Hp; [destruct Hd; apply Hin; by exists r|]. simpl. do 2 f_equal. unfold cut, stripped.
    destruct (existsb (Z.eqb (n_link r)) (those p d)) eqn:He.
    + apply existsb_exists in He as (k & Hk' & ->%Z.eqb_eq). apply list_elem_of_In, Hin in Hk' as (m & -> & Hm). by rewrite Hm.
    + destruct (nicks d !! n_link r) as [m|] eqn:Hm; [|done]. destruct (p m) eqn:Hpm; [|done].
      rewrite <- not_true_iff_false in He. destruct He. apply existsb_exists. exists (n_link r). rewrite Z.eqb_refl, <- list_elem_of_In.
      split; [|done]. apply Hin. by exists m.
Qed.

Lemma gone_ext P Q d d' : (forall r, P r = Q r) -> gone Q d d' -> gone P d d'.
Proof.
  intros HPQ Hg j. rewrite (Hg j). destruct (nicks d !! j) as [r|]; [|done]. rewrite HPQ. destruct (Q r); [done|].
  unfold stripped. destruct (nicks d !! n_link r); [|done]. by rewrite HPQ.
Qed.

Definition any_link (P : NickRow -> bool) : Prop := forall z r, P (r{{n_link := z}}) = P r.

Lemma any_link_stripped P Q d r : any_link P -> P (stripped Q d r) = P r.
Proof. intros HP. unfold stripped. by destruct (match _ with Some m => Q m | None => false end). Qed.

Lemma gone_keys P d d' : (forall k, is_Some (nicks d !! k) -> k <> 0) -> gone P d d' -> forall k, is_Some (nicks d' !! k) -> k <> 0.
Proof. intros Hk Hg k. rewrite (Hg k). destruct (nicks d !! k) eqn:E1; [intros _; apply Hk; by rewrite E1|by intros []]. Qed.

Lemma gone_trans P Q d d1 d2 : (forall k, is_Some (nicks d !! k) -> k <> 0) -> any_link Q ->
  gone P d d1 -> gone Q d1 d2 -> gone (fun r => P r || Q r) d d2.
Proof.
  intros Hk HQ H12 H23 j. rewrite (H23 j), (H12 j). destruct (nicks d !! j) as [r|] eqn:Hj; [|done].
  destruct (P r); [done|]. rewrite any_link_stripped by done. simpl. destruct (Q r); [done|]. f_equal.
  unfold stripped at 2 3. destruct (nicks d !! n_link r) as [m|] eqn:Hm.
  - destruct (P m) eqn:Hp; simpl; unfold stripped; simpl.
    + rewrite (H12 0). destruct (nicks d !! 0) eqn:E0; [|done]. exfalso. eapply (Hk 0); [by rewrite E0|done].
    + by rewrite (H12 (n_link r)), Hm, Hp, any_link_stripped.
  - unfold stripped. by rewrite (H12 (n_link r)), Hm.
Qed.

Definition seen (t : Z) (r : NickRow) : NickRow := if has (n_status r) (NS_IDENTIFIED .| NS_RECOGNIZED) then r{{n_last_seen := t}} else r.
Definition all_seen (t : Z) d : DB := d{{nicks ::= fmap (seen t)}}.

(** Which nicks expire: those nobody protects, unseen for [NSExpire] seconds, or
    for three times as long where they are older than one and a half times that. *)
Definition expires (t : Z) (r : NickRow) : bool :=
  negb (NSExpire =? 0) && negb opt_noexpire &&
  negb (has (n_status r) NS_VERBOTEN) && negb (has (n_status r) NS_NO_EXPIRE) &&
  negb (has (n_flags r) NI_SUSPENDED) && negb (has (n_flags r) NI_IRCOP) &&
  (let patience := if NSExtraGrace && (Z.quot (3 * NSExpire) 2 <=? (t - n_registered r) mod 2 ^ 64) then 3 * NSExpire else NSExpire in
   patience <=? (t - n_last_seen r) mod 2 ^ 64).

Lemma has_lor a b c : has a (b .| c) = has a b || has a c.
Proof.
  unfold has. rewrite Z.land_lor_distr_r. destruct (Z.eqb_spec (Z.land a b .| Z.land a c) 0) as [E0|E0].
  - apply Z.lor_eq_0_iff in E0 as [-> ->]. done.
  - destruct (Z.eqb_spec (Z.land a b) 0) as [E1|]; [|done]. destruct (Z.eqb_spec (Z.land a c) 0) as [E2|]; [|done].
    by rewrite E1, E2 in E0.
Qed.

Lemma expires_passes t r : expires t r =
  negb ((NSExpire =? 0) || opt_noexpire) &&
  if NSExtraGrace then
    idle_nick t (fun r => half_more NSExpire <=? ago t (n_registered r)) (3 * NSExpire) r ||
    idle_nick t (fun r => ago t (n_registered r) <? half_more NSExpire) NSExpire r
  else idle_nick t (fun _ => true) NSExpire r.
Proof.
  unfold expires, idle_nick, half_more, ago. rewrite !has_lor. cbv zeta.
  destruct (NSExpire =? 0); [done|]. destruct opt_noexpire; [done|]. simpl.
  destruct (has (n_status r) NS_VERBOTEN), (has (n_status r) NS_NO_EXPIRE), (has (n_flags r) NI_SUSPENDED), (has (n_flags r) NI_IRCOP);
    simpl; rewrite ?andb_false_r; try (by destruct NSExtraGrace).
  rewrite !andb_true_r. destruct NSExtraGrace; [|done]. simpl.
  destruct (Z.leb_spec (Z.quot (3 * NSExpire) 2) ((t - n_registered r) mod 2 ^ 64)),
    (Z.ltb_spec ((t - n_registered r) mod 2 ^ 64) (Z.quot (3 * NSExpire) 2)); try lia; simpl; by rewrite ?orb_false_r.
Qed.

Lemma idle_any_link t p l : any_link p -> any_link (idle_nick t p l).
Proof. intros Hp z r. unfold idle_nick. by rewrite Hp. Qed.

Lemma ids_delnicks l d : ids_ok d -> ids_ok (delnicks l d).
Proof. revert d. induction l as [|k l IH]; intros d Hok; [done|]. unfold delnicks in *. simpl. by apply IH, ids_delnick_row. Qed.

Lemma gone_none d : gone (fun _ => false) d d.
Proof. intros j. destruct (nicks d !! j); [|done]. unfold stripped. by destruct (nicks d !! _). Qed.

Definition passes (t : Z) : M (Net E) unit :=
  if (NSExpire =? 0) || opt_noexpire then mret tt
  else if NSExtraGrace then
    del_idle (idle_nick t (fun r => half_more NSExpire <=? ago t (n_registered r)) (3 * NSExpire));;
    del_idle (idle_nick t (fun r => ago t (n_registered r) <? half_more NSExpire) NSExpire)
  else del_idle (idle_nick t (fun _ => true) NSExpire).

Lemma turns_passes d o t : (forall k, is_Some (nicks d !! k) -> k <> 0) -> ids_ok d ->
  exists d' o', turns (passes t) tt d o d' o' t /\ gone (expires t) d d'.
Proof.
  intros Hk Hok. cut (exists d' o', turns (passes t) tt d o d' o' t /\
    gone (fun r => negb ((NSExpire =? 0) || opt_noexpire) &&
      if NSExtraGrace then
        idle_nick t (fun r => half_more NSExpire <=? ago t (n_registered r)) (3 * NSExpire) r ||
        idle_nick t (fun r => ago t (n_registered r) <? half_more NSExpire) NSExpire r
      else idle_nick t (fun _ => true) NSExpire r) d d').
  { intros (d' & o' & Ht & Hg). exists d', o'. split; [done|]. eapply gone_ext; [|exact Hg]. intros r. by rewrite expires_passes. }
  unfold passes. destruct ((NSExpire =? 0) || opt_noexpire); simpl.
  { eexists _, _. split; [apply turns_ret|apply gone_none]. }
  destruct NSExtraGrace.
  - set (p1 := idle_nick t (fun r => half_more NSExpire <=? ago t (n_registered r)) (3 * NSExpire)).
    set (p2 := idle_nick t (fun r => ago t (n_registered r) <? half_more NSExpire) NSExpire).
    pose proof (gone_delnicks p1 d Hk Hok) as Hg. assert (Hok2 := ids_delnicks (those p1 d) d Hok).
    assert (Hk2 := gone_keys _ _ _ Hk Hg).
    eexists _, _. split; [eapply turns_bind; by apply turns_del_idle|].
    eapply gone_trans; [done|by apply idle_any_link|exact Hg|]. by apply gone_delnicks.
  - eexists _, _. split; [by apply turns_del_idle|]. by apply gone_delnicks.
Qed.

Lemma turns_expire d o t : (forall k, is_Some (nicks d !! k) -> k <> 0) -> ids_ok d ->
  exists d' o', turns expire_nicks tt d o d' o' t /\ gone (expires t) (all_seen t d) d'.
Proof.
  intros Hk Hok. destruct (turns_passes (all_seen t d) o t) as (d' & o' & Ht & Hg).
  { intros k. simpl. rewrite lookup_fmap, fmap_is_Some. apply Hk. }
  { exact Hok. }
  exists d', o'. split; [|done]. eapply turns_bind; [apply turns_now|]. eapply turns_bind; [exact (turns_update (all_seen t) d o t)|].
  exact Ht.
Qed.

(** Expiry of nicks: who is identified or recognized was seen now; exactly the
    nicks that [expires] names go, and of the others only links to them change. *)
Theorem expire_nicks_correct n : let d := db (ext n) in
  (forall k, is_Some (nicks d !! k) -> k <> 0) -> ids_ok d ->
  exists n', expire_nicks n = Some (tt, n') /\ still n n' /\
    forall j, nicks (db (ext n')) !! j =
      match seen (now n) <$> nicks d !! j with
      | Some r => if expires (now n) r then None else Some (stripped (expires (now n)) (all_seen (now n) d) r)
      | None => None
      end.
Proof.
  cbn zeta. intros Hk Hok. destruct (turns_expire (db (ext n)) (owned n) (now n) Hk Hok) as (d' & o' & Ht & Hg).
  specialize (Ht n (conj eq_refl eq_refl) eq_refl).
  unfold does, wp in Ht. destruct (expire_nicks n) as [[[] n']|]; [|done]. destruct Ht as (_ & Hs & Hd).
  exists n'. split; [done|]. split; [done|]. injection Hd as Hd _. intros j. rewrite Hd, (Hg j). simpl. by rewrite lookup_fmap.
Qed.
End RemovalSpec.

(** ** Examples *)
Module Witness.
Import Interfaces.Demo.

#[local] Existing Instance OperDemo.mysql.
#[local] Existing Instance OperDemo.oper_conf.
#[local] Instance expiry_conf : ExpiryConf := {
  NSExpire := 1000; NSExtraGrace := true; NSSuspendGrace := 0; NSSuspendExpire := 0; CSExpire := 1000; CSExtraGrace := false
}.

(** Texts as numbers in base 256. *)
Fixpoint rank (len : nat) (s : string) : Z :=
  match len with
  | O => 0
  | S len' => match s with
              | EmptyString => 0
              | String a s' => Z.of_nat (Ascii.nat_of_ascii a) * 256 ^ Z.of_nat len' + rank len' s'
              end
  end.
#[local] Instance text_order : TextOrder := { text_rank := rank 64 }.

Definition E : Type := DB * OperDB.

#[local, program] Instance chandb : ChanDB E := {
  db := fst; set_db := fun d e => (d, snd e); touch := fun _ _ _ e => e; new_chan_memos := fun _ _ _ => 0; schedule_leave := fun _ e => e
}.
Solve Obligations with done.
#[local, program] Instance operdb : Part OperDB E := {part := snd; with_part s e := (fst e, s)}.
Solve Obligations with (intros; by destruct e).
#[local] Instance beside : Beside OperDB E.
Proof. by split. Qed.

Definition chan (name : string) (founder successor : Z) : ChanInfo :=
  Tables.row{{ci_name := name; ci_founder := founder; ci_successor := successor}}.

(** Channels 1 and 2 of nick 7 pass to nicks 8 and 9; 8 is linked to 7.  Nick 8
    joins both and channel 3 by itself. *)
Definition tables : DB :=
  Tables.tables{{channel := {[1 := chan "#b" 7 8; 2 := chan "#a" 7 9; 3 := chan "#c" 9 7]};
    nicks := {[7 := Tables.nick_row "alice" 0; 8 := Tables.nick_row "eve" 7; 9 := Tables.nick_row "carol" 0]};
    autojoin := mkTable [mkAutojoin 1 8 1 2; mkAutojoin 2 8 2 1; mkAutojoin 3 8 3 3] 4}}.

Definition net : Net E :=
  let m := Demo.net in
  mkNet E (users_heap m) (chans_heap m) (userlist m) (chanlist m) (next_addr m)
    (usercnt m) (opcnt m) (maxusercnt m) (maxusertime m) NULL 0 NULL 0 (lastmodes m) 5000 []
    (tables, mkOperDB [] 1 [] 1 ∅ {[7; 9]} ∅).

Lemma tables_ok : ids_ok (db (ext net)).
Proof. split; simpl; repeat (constructor; [set_solver|]); constructor. Qed.

Lemma alice_row : nicks (db (ext net)) !! 7 = Some (Tables.nick_row "alice" 0).
Proof. vm_compute. reflexivity. Qed.

Lemma mysql_delchan_correct_witness :
  exists n', mysql_delchan 2 net = Some (tt, n') /\ map no_idx (rows (autojoin (db (ext n')))) = [(2, 8, 1); (3, 8, 3)] /\
    channel (db (ext n')) !! 3 = Some (chan "#c" 9 7).
Proof.
  assert (Hc : channel (db (ext net)) !! 2 = Some (chan "#a" 7 9)) by (vm_compute; reflexivity).
  destruct (mysql_delchan_correct 2 (chan "#a" 7 9) net Hc tables_ok) as (n' & Hr & _ & _ & _ & Hk & _).
  exists n'. split; [exact Hr|]. split; [rewrite (ok_autojoin _ _ _ _ Hk); vm_compute; reflexivity|].
  rewrite (ok_channel _ _ _ _ Hk 3); [vm_compute; reflexivity|done].
Defined.


Lemma second_successor_lost_witness :
  exists n' h c, mysql_delnick 7 net = Some (tt, n') /\ channel (db (ext n')) !! h = Some c /\ ci_founder c = 7.
Proof.
  destruct (second_successor_lost 7 (Tables.nick_row "alice" 0) net 1 2 (chan "#b" 7 8) (chan "#a" 7 9)) as (n' & h & c & Hr & _ & Hc & Hf);
    [done|exact alice_row|exact tables_ok|vm_compute; reflexivity|vm_compute; reflexivity|done|reflexivity|reflexivity|done|done| |by exists n', h, c].
  assert (Hall : forallb (fun kv => has_room (ci_successor (snd kv)) (db (ext net))) (map_to_list (channel (db (ext net)))) = true)
    by (vm_compute; reflexivity).
  intros h c Hc _ _. rewrite forallb_forall in Hall. apply (Hall (h, c)). by apply list_elem_of_In, elem_of_map_to_list.
Defined.

(** Everybody was last seen 5000 seconds ago, registered as long ago. *)
Lemma expire_nicks_correct_witness : exists n', expire_nicks net = Some (tt, n') /\ nicks (db (ext n')) !! 8 = None.
Proof.
  assert (Hk : forall k, is_Some (nicks (db (ext net)) !! k) -> k <> 0) by (intros k Hk ->; by destruct Hk).
  destruct (expire_nicks_correct net Hk tables_ok) as (n' & Hr & _ & Hn).
  exists n'. split; [exact Hr|]. rewrite (Hn 8). vm_compute. reflexivity.
Defined.
End Witness.
