(* ===== verification/NickLinks.v ===== *)
(** NickServ's links between nicks: LINK, UNLINK and LISTLINKS ([src/nickserv.c]).

    A linked nick names its master in [n_link]; only one level is meant to exist. *)

From S2P Require Import Prelude CStr NumTime Wp Graph Net Masks Interfaces Part Channels Users Table Query ChanDB CsAccess Cache OperDB Removal NickServ.

Class LinkConf := { NSDisableLinkCommand : bool }.

Section Links.
Context `{Conf} `{NickConf} `{LinkConf} `{MySQL} {E : Type} `{!ChanDB E} `{!NickStore E}.
Context `{!ChanServ E} `{!Interfaces.NickServ E} `{!OperServ E}.
(** What [malloc] returns, whether a password is that of a nick, and
    [mysql_real_escape_string]. *)
Context (junk : nickcache) (pass_ok : E -> Z -> string -> bool) (escape : string -> string).
Implicit Types (n : Net E).

#[local] Notation notice u text := (notice_lang junk u text).

Definition nick_has_links (nick_id : Z) : M (Net E) Z :=
  select (fun d => Z.of_nat (size (filter (fun kv => n_link (snd kv) = nick_id) (nicks d)))).

(** *** Breaking a link *)

(** The access list of the master, copied through [private_tmp_access]; the
    copies have no number. *)
Definition copy_access (nick_id : Z) (hosts : list string) (t : Table NickAccess) : Table NickAccess :=
  fold_left (fun t h => insert_into (fun i => mkNickAccess i nick_id 0 h) t) hosts t.

Definition access_of (nick_id : Z) (d : DB) : list NickAccess := select_where (fun r => na_nick r =? nick_id) (nickaccess d).

Definition inherit_access (nick_id master : Z) : M (Net E) unit :=
  tmp ← select (fun d => map na_userhost (access_of master d));
  match tmp with
  | [] => mret tt
  | _ =>
      update_db (fun d => d{{nickaccess ::= delete_where (fun r => na_nick r =? nick_id)}});;
      update_db (fun d => d{{nickaccess ::= copy_access nick_id tmp}})
  end.

Definition memomax (owner : string) (d : DB) : option Z :=
  mi_max <$> find_first (fun r => same_text (mi_owner r) owner) (rows (memoinfo d)).

(** A nick or a master without a row, and a master without a row in [memoinfo],
    are read through a null pointer or from memory that is not set. *)
Definition delink (nick_id : Z) : M (Net E) unit :=
  ni ← get_nickinfo_from_id nick_id;
  match ni with
  | None => fault
  | Some ni =>
      if n_link ni =? 0 then mret tt
      else
        master_ni ← get_nickinfo_from_id (n_link ni);
        match master_ni with
        | None => fault
        | Some master_ni =>
            master_memomax ← select (memomax (n_nick master_ni));
            match master_memomax with
            | None => fault
            | Some master_memomax =>
                update_nick nick_id (fun r => r{{n_link := 0}});;
                update_nick nick_id (fun r => r{{n_flags := n_flags master_ni; n_channelmax := n_channelmax master_ni;
                                                 n_language := n_language master_ni}});;
                cached junk (fun sql now junk => nickcache_set_language sql now junk nick_id (n_language master_ni));;
                inherit_access nick_id (n_link ni);;
                update_db (fun d => d{{memoinfo ::= update_where (fun r => same_text (mi_owner r) (n_nick ni))
                                                      (fun r => r{{mi_max := master_memomax}})}})
            end
        end
  end.

(** *** The commands *)

(** What LINK does when nothing stands against it.  The name of the master is
    looked for among the users in the form it had in the statement. *)
Definition make_link (u : ptr) (nk : string) (nick_id target_id : Z) : M (Net E) unit :=
  limit ← check_chan_limit target_id;
  if 0 <=? limit then
    channelmax ← get_channelmax target_id;
    notice u ("NICK_LINK_TOO_MANY_CHANNELS " +:+ nk +:+ " " +:+
              show_int (if channelmax =? 0 then MAX_CHANNELCOUNT else channelmax))
  else
    update_nick nick_id (fun r => r{{n_link := target_id}});;
    update_db (fun d => d{{nickaccess ::= delete_where (fun r => na_nick r =? nick_id)}});;
    target_nick ← nick_name target_id;
    link_nick ← nick_name nick_id;
    update_db (fun d => d{{memo ::= update_where (fun m => same_text (m_owner m) link_nick) (fun m => m{{m_owner := target_nick}})}});;
    notice u ("NICK_LINKED " +:+ nk);;
    other ← finduser (escape target_nick);
    when (other =? NULL) (add_nick_status junk target_id NS_IDENTIFIED).

Definition do_link (u : ptr) (args : string) : M (Net E) unit :=
  let '(nk, rest) := strtok args " " in
  let pass := fst (strtok rest " ") in
  us ← load_user u;
  let nick_id := real_id us in
  if NSDisableLinkCommand then notice u "NICK_LINK_DISABLED"
  else
    match nk, pass with
    | Some nk, Some pass =>
        if nick_id =? 0 then notice u "NICK_NOT_REGISTERED"
        else
          ident ← nick_identified junk u;
          if negb ident then notice u "NICK_IDENTIFY_REQUIRED"
          else
            target_id ← mysql_findnick nk;
            if target_id =? 0 then notice u ("NICK_X_NOT_REGISTERED " +:+ nk)
            else if target_id =? nick_id then notice u ("NICK_NO_LINK_SAME " +:+ nk)
            else
              status ← get_nick_status junk target_id;
              if has status NS_VERBOTEN then notice u ("NICK_X_FORBIDDEN " +:+ nk)
              else
                links ← nick_has_links (Net.nick_id us);
                if negb (links =? 0) then
                  tmp_nick ← get_nick_from_id (Net.nick_id us);
                  notice u ("NICK_X_HAS_LINKS " +:+ default "(null)" tmp_nick +:+ " " +:+ show_int links)
                else
                  tmp_id ← mysql_getlink target_id;
                  if negb (tmp_id =? target_id) then
                    tmp_nick ← get_nick_from_id tmp_id;
                    notice u ("NICK_X_IS_LINK " +:+ default "(null)" tmp_nick +:+ " " +:+ nk)
                  else
                    res ← check_nick_password pass_ok pass target_id;
                    if res =? 0 then notice u "PASSWORD_INCORRECT";; bad_password u
                    else if res =? -1 then notice u "NICK_LINK_FAILED"
                    else make_link u nk nick_id target_id
    | _, _ => notice u "NICK_LINK_SYNTAX"
    end.

Definition unlink_other (u : ptr) (nk : string) (pass : option string) : M (Net E) unit :=
  is_servadmin ← Interfaces.is_services_admin u;
  ni ← mysql_findnickinfo nk;
  match ni with
  | None => notice u ("NICK_X_NOT_REGISTERED " +:+ nk)
  | Some (nick_id, r) =>
      if n_link r =? 0 then notice u ("NICK_X_NOT_LINKED " +:+ nk)
      else if negb is_servadmin && bool_decide (pass = None) then notice u "NICK_UNLINK_SYNTAX"
      else
        res ← (if is_servadmin : bool then mret 0
               else check_nick_password pass_ok (default EmptyString pass) nick_id);
        if negb is_servadmin && (res =? 0) then notice u "PASSWORD_INCORRECT";; bad_password u
        else if res =? -1 then notice u "NICK_UNLINK_FAILED"
        else
          linkname ← get_nick_from_id (n_link r);
          delink nick_id;;
          let linkname := default "(null)" linkname in
          notice u ("NICK_X_UNLINKED " +:+ n_nick r +:+ " " +:+ linkname);;
          us ← load_user u;
          when is_servadmin (wallops (Some s_NickServ)
            (BOLD +:+ nick us +:+ BOLD +:+ " unlinked " +:+ BOLD +:+ n_nick r +:+ BOLD +:+ " from " +:+
             BOLD +:+ linkname +:+ BOLD +:+ " as services admin"))
  end.

Definition unlink_own (u : ptr) : M (Net E) unit :=
  us ← load_user u;
  ni ← get_nickinfo_from_id (real_id us);
  match ni with
  | None => notice u "NICK_NOT_REGISTERED"
  | Some r =>
      ident ← nick_identified junk u;
      if negb ident then notice u "NICK_IDENTIFY_REQUIRED"
      else if n_link r =? 0 then notice u "NICK_NOT_LINKED"
      else
        linkname ← get_nick_from_id (n_link r);
        upd_user u (fun us => us{{Net.nick_id := real_id us}});;
        delink (real_id us);;
        notice u ("NICK_UNLINKED " +:+ default "(null)" linkname)
  end.

Definition do_unlink (u : ptr) (args : string) : M (Net E) unit :=
  let '(nk, rest) := strtok args " " in
  match nk with
  | Some nk => unlink_other u nk (fst (strtok rest " "))
  | None => unlink_own u
  end.

(** The nicks linked to one, in the order MySQL has them. *)
Definition linked_to (nick_id : Z) (d : DB) : list string :=
  map (fun kv => n_nick (snd kv)) (List.filter (fun kv => n_link (snd kv) =? nick_id) (map_to_list (nicks d))).

Definition list_links (u : ptr) (nick_id : Z) (r : NickRow) : M (Net E) unit :=
  ni ← (if n_link r =? 0 then mret (Some (nick_id, r))
        else m ← get_nickinfo_from_id (n_link r); mret ((fun m => (n_link r, m)) <$> m));
  match ni with
  | None => fault
  | Some (nick_id, r) =>
      if has (n_status r) NS_VERBOTEN then notice u ("NICK_X_FORBIDDEN " +:+ n_nick r)
      else
        notice u ("NICK_LISTLINKS_HEADER " +:+ n_nick r);;
        names ← select (linked_to nick_id);
        for_each names (fun nk => notice u ("NICK_X_IS_LINKED " +:+ nk));;
        notice u ("NICK_LISTLINKS_FOOTER " +:+ show_int (Z.of_nat (length names)))
  end.

Definition do_listlinks (u : ptr) (args : string) : M (Net E) unit :=
  ident ← nick_identified junk u;
  if negb ident then notice u "NICK_IDENTIFY_REQUIRED"
  else
    us ← load_user u;
    match fst (strtok args " ") with
    | Some nk =>
        ni ← mysql_findnickinfo nk;
        match ni with
        | None => notice u ("NICK_X_NOT_REGISTERED " +:+ nk)
        | Some (nick_id, r) =>
            mine ← mysql_getlink (Net.nick_id us);
            its ← mysql_getlink nick_id;
            allowed ← (if mine =? its then mret true else Interfaces.is_services_admin u);
            if negb allowed then notice u "ACCESS_DENIED" else list_links u nick_id r
        end
    | None =>
        ni ← mysql_findnickinfo (nick us);
        match ni with
        | None => notice u ("NICK_X_NOT_REGISTERED " +:+ nick us)
        | Some (nick_id, r) => list_links u nick_id r
        end
    end.
End Links.

(** ** What the commands do *)

(** The cache has every status as the table has it. *)
Notation exact n0 rows own n := (at_ n0 (fun _ => True) rows own n).

Section LinkSpec.
Context `{Conf} `{NickConf} `{LinkConf} `{MySQL} {E : Type} `{!ChanDB E} `{!NickStore E}.
Context `{!ChanServ E} `{!Interfaces.NickServ E} `{!OperServ E} `{!ChanServLaws E} `{!NickServLaws E} `{!OperServLaws E}.
Context (junk : nickcache) (pass_ok : E -> Z -> string -> bool) (escape : string -> string).
Implicit Types (n : Net E) (rows : gmap Z NickRow) (d : DB).

(** [n] with other tables. *)
Definition with_db (f : DB -> DB) n : Net E := n{{ext ::= fun e => set_db (f (db e)) e}}.

(** A change of the tables that does not look at the nicks. *)
Record aside (f : DB -> DB) : Prop := {
  as_nicks d : nicks (f d) = nicks d;
  as_set d rows : f (d{{nicks := rows}}) = (f d){{nicks := rows}}
}.

Lemma aside_compose f g : aside f -> aside g -> aside (fun d => g (f d)).
Proof. intros [Hf Hf'] [Hg Hg']. split; intros; [by rewrite Hg, Hf|by rewrite Hf', Hg']. Qed.

Lemma with_db_db f n : db (ext (with_db f n)) = f (db (ext n)).
Proof. apply db_set. Qed.

Lemma at_with_db n0 S rows own n f : aside f -> at_ n0 S rows own n -> at_ (with_db f n0) S rows own (with_db f n).
Proof.
  intros [Hn Hs] [[Hu Hg Ht Hd Ho Hout] (m & Hc & Hm)].
  assert (How : owned (S := NickData) (with_db f n) = owned n) by (unfold owned; simpl; by rewrite part_set_db).
  split; [split; try done|].
  - by rewrite !with_db_db, Hd, Hs.
  - by rewrite How.
  - exists m. by rewrite How.
Qed.

(** Tables are what they hold. *)
Lemma at_tables n0 n0' S rows own n : at_ n0 S rows own n -> db (ext n0') = db (ext n0) -> users_heap n0' = users_heap n0 ->
  graph_of n0' = graph_of n0 -> now n0' = now n0 -> out n0' = out n0 -> at_ n0' S rows own n.
Proof. intros Ha Hd Hu Hg Ht Ho. by eapply at_from; [..|exact Ha]. Qed.

Lemma wp_update_aside n0 S rows own n f (Q : unit -> Net E -> Prop) : at_ n0 S rows own n -> aside f ->
  (forall n', at_ (with_db f n0) S rows own n' -> Q tt n') -> wp (update_db f) Q n.
Proof. intros Ha Hf HQ. unfold update_db. wps. apply HQ. by apply at_with_db. Qed.

(** An [UPDATE] of a nick's row that leaves its status. *)
Lemma wp_update_row n0 S rows own n i f (Q : unit -> Net E -> Prop) : at_ n0 S rows own n ->
  (forall r, n_status (f r) = n_status r) -> (forall n', at_ n0 S (alter f i rows) own n' -> Q tt n') -> wp (update_nick i f) Q n.
Proof.
  intros [Hb (m & Hc & Hn & Hs)] Hf HQ. unfold update_nick, update_db. wps. apply HQ.
  remember (n{{ext ::= _}}) as n1 eqn:En1 in |- *.
  destruct (base_rows n0 rows own n (alter f i rows) n1 Hb) as [Hb' Hcc].
  { rewrite En1. by rewrite <- (at_rows _ _ _ _ Hb). }
  assert (Hlook : forall j r, rows !! j = Some r -> exists r', alter f i rows !! j = Some r' /\ n_status r' = n_status r).
  { intros j r Hr. destruct (decide (j = i)) as [->|Hne].
    - exists (f r). by rewrite lookup_alter_eq, Hr.
    - exists r. by rewrite lookup_alter_ne. }
  split; [done|]. exists m. rewrite Hcc. split; [done|]. split.
  - intros j e He. destruct (Hn _ _ He) as (r & Hr & Ha). destruct (Hlook j r Hr) as (r' & Hr' & He').
    exists r'. by rewrite He'.
  - intros j Hj e He. destruct (Hs _ Hj _ He) as (r & Hr & Ha). destruct (Hlook j r Hr) as (r' & Hr' & He').
    exists r'. by rewrite He'.
Qed.

(** A change that keeps the status finds it in the map or reads it from the table. *)
Lemma m_change_status sql now i ef m j e : (forall e, e_status (ef e) = e_status e) -> m_change sql now ef i m !! j = Some e ->
  (exists e0, m !! j = Some e0 /\ e_status e = e_status e0) \/ (exists row, sql j = Some row /\ e_status e = fst row).
Proof.
  intros Hef. unfold m_change, m_insert. destruct (m !! i) as [e1|] eqn:Ei.
  - intros [(-> & e0 & He & ->)|[Hj He]]%lookup_alter_Some; left; eauto.
  - destruct (sql i) as [[st la]|] eqn:Es.
    + intros [(-> & e0 & He & ->)|[Hj He]]%lookup_alter_Some.
      * rewrite lookup_insert_eq in He. injection He as <-. right. eexists. split; [exact Es|]. by rewrite Hef.
      * rewrite lookup_insert_ne in He by done. left. eauto.
    + intros [(-> & e0 & He & ->)|[Hj He]]%lookup_alter_Some; [congruence|left; eauto].
Qed.

(** The language in the cache. *)
Lemma wp_cache_language n0 S rows own n i l (Q : unit -> Net E -> Prop) : at_ n0 S rows own n -> 0 < i ->
  (forall n', at_ n0 S rows own n' -> Q tt n') ->
  wp (cached junk (fun sql now junk => nickcache_set_language sql now junk i l)) Q n.
Proof.
  intros [Hb (m & Hc & Hn & Hs)] Hi HQ. apply wp_cached_get.
  eapply wp_mono; [eapply (nickcache_change_spec _ _ _ _ (fun e => mkEntry (e_status e) (e_status_time e) (u16 l) (now n))); eauto|].
  intros [] c Hcm. apply HQ. eapply at_put_cache; [exact Hb|exact Hcm| |].
  - intros j e He. apply m_change_status in He as [(e0 & He & Heq)|(row & Hrow & Heq)]; [| |done].
    + destruct (Hn _ _ He) as (r & Hr & Ha). exists r. by rewrite Heq.
    + rewrite (status_row_at _ _ _ _ j Hb) in Hrow. unfold rows_sql in Hrow. destruct (rows !! j) as [r|]; [|done].
      injection Hrow as <-. exists r. split; [done|]. rewrite Heq. done.
  - intros j Hj e He. apply m_change_status in He as [(e0 & He & Heq)|(row & Hrow & Heq)]; [| |done].
    + destruct (Hs _ Hj _ He) as (r & Hr & Ha). exists r. by rewrite Heq.
    + rewrite (status_row_at _ _ _ _ j Hb) in Hrow. unfold rows_sql in Hrow. destruct (rows !! j) as [r|]; [|done].
      injection Hrow as <-. exists r. split; [done|]. by rewrite Heq.
Qed.

Lemma wp_notice_at n0 S rows own n u us text (Q : unit -> Net E -> Prop) : at_ n0 S rows own n ->
  users_heap n0 !! u = Some us -> heap_ok (graph_of n0) -> 0 <= Net.nick_id us ->
  (forall n', at_ (said [Notice s_NickServ (nick us) text] n0) S rows own n' -> Q tt n') -> wp (notice_lang junk u text) Q n.
Proof.
  intros Ha Hu Hg Hid HQ. eapply wp_notice; [exact Ha|exact Hu| |exact Hid|exact HQ]. intros ->.
  destruct (ho_addr _ Hg NULL) as [Hlt _]; [|done]. left. apply is_Some_graph_user. by rewrite Hu.
Qed.

Lemma at_db n0 S own n : at_ n0 S (nicks (db (ext n0))) own n -> db (ext n) = db (ext n0).
Proof. intros Ha. rewrite (at_db _ _ _ _ (at_base _ _ _ _ _ Ha)). by destruct (db (ext n0)). Qed.

Lemma wp_chan_limit k n (Q : Z -> Net E -> Prop) : Q (chan_limit k (db (ext n))) n -> wp (check_chan_limit k) Q n.
Proof. intros HQ. unfold check_chan_limit, count_chans_reged_by, mysql_getlink, get_channelmax, select. by wps. Qed.

Lemma wp_getlink n0 S own n k (Q : Z -> Net E -> Prop) : at_ n0 S (nicks (db (ext n0))) own n ->
  Q (master_of k (db (ext n0))) n -> wp (mysql_getlink k) Q n.
Proof. intros Ha HQ. unfold mysql_getlink, select. wps. by rewrite (at_db _ _ _ _ Ha). Qed.

(** A wrong password is counted; the user may be killed for it. *)
Lemma wp_bad_password n u us : graph_ok (graph_of n) -> users_heap n !! u = Some us -> no_nul (nick us) = true ->
  wp (bad_password u) (fun _ _ => True) n.
Proof.
  intros Hg Hu Hnul. unfold bad_password. apply wp_bind, wp_gets. destruct (BadPassLimit =? 0); [done|].
  apply wp_bind. eapply wp_load_user; [exact Hu|]. apply wp_bind.
  assert (Hreset : wp (when ((0 <? BadPassTimeout) && (0 <? invalid_pw_time us) && (invalid_pw_time us <? now n - BadPassTimeout))
      (upd_user u (fun u => u{{invalid_pw_count := 0}})))
    (fun _ n' => graph_of n' = graph_of n /\ exists us', users_heap n' !! u = Some us' /\ nick us' = nick us) n).
  { apply wp_when; [intros _|intros _; by eauto]. eapply wp_upd_user_hidden; [exact Hu|done|]. intros n' Hn' Hu'. eauto. }
  eapply wp_mono; [exact Hreset|]. clear Hreset. intros _ n1 (Hg1 & us1 & Hu1 & Hnk1). apply wp_bind.
  eapply wp_upd_user_hidden; [exact Hu1|done|]. intros n2 Hg2 Hu2. apply wp_bind. eapply wp_load_user; [exact Hu2|].
  apply wp_when; [intros _|done]. unfold kill_user. simpl. destruct (String.eqb _ _); [done|]. apply wp_bind, wp_modify.
  eapply wp_mono; [apply do_kill_steps; [change (graph_ok (graph_of n2)); by rewrite Hg2, Hg1|simpl; by rewrite Hnk1]|done].
Qed.

(** *** Links in the table *)

(** One level: a link leads to a nick that exists and is not linked itself. *)
Definition flat rows : Prop := forall i r, rows !! i = Some r -> n_link r <> 0 ->
  n_link r <> i /\ exists m, rows !! n_link r = Some m /\ n_link m = 0.

Definition links_to (k : Z) d : Z := Z.of_nat (size (filter (fun kv => n_link (snd kv) = k) (nicks d))).

Lemma no_links k d : links_to k d = 0 -> forall j r, nicks d !! j = Some r -> n_link r <> k.
Proof.
  unfold links_to. intros Hs j r Hj Hk. assert (Hz : size (filter (fun kv : Z * NickRow => n_link (snd kv) = k) (nicks d)) = 0%nat) by lia.
  apply map_size_empty_iff in Hz. assert (Hf : filter (fun kv : Z * NickRow => n_link (snd kv) = k) (nicks d) !! j = Some r)
    by (by apply map_lookup_filter_Some).
  by rewrite Hz, lookup_empty in Hf.
Qed.

Definition set_link (k : Z) (r : NickRow) : NickRow := r{{n_link := k}}.

(** What LINK leaves in the table of nicks; [free]: nobody bears the master nick. *)
Definition linked_rows (free : bool) (i t : Z) rows : gmap Z NickRow :=
  let rows := alter (set_link t) i rows in if free then alter (or_status NS_IDENTIFIED) t rows else rows.

Lemma flat_link free i t rows rt : flat rows -> rows !! t = Some rt -> n_link rt = 0 -> t <> i ->
  (forall j r, rows !! j = Some r -> n_link r <> i) -> flat (linked_rows free i t rows).
Proof.
  intros Hf Ht Hlt Hne Hno. set (rows1 := alter (set_link t) i rows).
  assert (Hf1 : flat rows1).
  { intros j r Hj Hl. unfold rows1 in *. destruct (decide (j = i)) as [->|Hji].
    - rewrite lookup_alter_eq in Hj. destruct (rows !! i) as [ri|]; [|done]. injection Hj as <-. simpl in *.
      split; [done|]. exists rt. by rewrite lookup_alter_ne.
    - rewrite lookup_alter_ne in Hj by done. destruct (Hf _ _ Hj Hl) as (Hself & m & Hm & Hm0). split; [done|].
      exists m. rewrite lookup_alter_ne by (intros ->; by apply (Hno _ _ Hj)). done. }
  unfold linked_rows. fold rows1. destruct free; [|done]. intros j r Hj Hl.
  assert (Hsame : forall k x, alter (or_status NS_IDENTIFIED) t rows1 !! k = Some x -> exists y, rows1 !! k = Some y /\ n_link x = n_link y).
  { intros k x. destruct (decide (k = t)) as [->|Hk]; [|rewrite lookup_alter_ne by done; eauto].
    rewrite lookup_alter_eq. destruct (rows1 !! t) as [y|]; [|done]. intros [= <-]. eauto. }
  destruct (Hsame _ _ Hj) as (y & Hy & Heq). rewrite Heq in *. destruct (Hf1 _ _ Hy Hl) as (Hself & m & Hm & Hm0). split; [done|].
  destruct (decide (n_link y = t)) as [Hk|Hk].
  - rewrite Hk in *. exists (or_status NS_IDENTIFIED m). by rewrite lookup_alter_eq, Hm.
  - exists m. by rewrite lookup_alter_ne.
Qed.

(** Ids are positive, and names are those of rows. *)
Record registry d : Prop := {
  reg_ids i : is_Some (nicks d !! i) -> 0 < i;
  reg_named nm i : nick_named d nm = Some i -> is_Some (nicks d !! i)
}.

Inductive Outcome := Refused | WrongPassword | Granted (nick_id : Z).

Definition identified_in d (us : User) : bool := negb (real_id us =? 0) && has (row_status (nicks d) (real_id us)) NS_IDENTIFIED.

Definition link_outcome (ok : Z -> string -> bool) d (us : User) (args : string) : Outcome :=
  let '(nk, rest) := strtok args " " in
  match nk, fst (strtok rest " ") with
  | Some nk, Some pass =>
      let t := default 0 (nick_named d nk) in
      if NSDisableLinkCommand || negb (identified_in d us) || (t =? 0) || (t =? real_id us) ||
         has (row_status (nicks d) t) NS_VERBOTEN || negb (links_to (Net.nick_id us) d =? 0) || negb (master_of t d =? t)
      then Refused
      else if negb (ok t pass) then WrongPassword
      else if has_room t d then Granted t else Refused
  | _, _ => Refused
  end.

(** The access list of the nick goes, its memos become its master's. *)
Definition link_tables (i : Z) (link_nick target_nick : string) d : DB :=
  d{{nickaccess ::= delete_where (fun r => na_nick r =? i);
     memo ::= update_where (fun m => same_text (m_owner m) link_nick) (fun m => m{{m_owner := target_nick}})}}.

Lemma aside_link_tables i l t : aside (link_tables i l t).
Proof. split; by intros []. Qed.

Context (pass_tables : forall e e' i p, db e = db e' -> pass_ok e i p = pass_ok e' i p).

Definition right_password n (i : Z) (pass : string) : bool :=
  bool_decide (is_Some (nicks (db (ext n)) !! i)) && pass_ok (ext n) i pass.

Lemma wp_password n0 S own n i pass (Q : Z -> Net E -> Prop) : at_ n0 S (nicks (db (ext n0))) own n ->
  Q (if right_password n0 i pass then 1 else 0) n -> wp (check_nick_password pass_ok pass i) Q n.
Proof.
  intros Ha HQ. unfold check_nick_password. wps. unfold right_password in HQ. pose proof (at_db _ _ _ _ Ha) as Hd.
  by rewrite Hd, (pass_tables _ (ext n0) _ _ Hd).
Qed.

Definition told n (us : User) n' : Prop :=
  exists text, exact (said [Notice s_NickServ (nick us) text] n) (nicks (db (ext n))) (owned n) n'.

(** A state the handler is called in, for a user [us] at [u]. *)
Record ready n (u : ptr) (us : User) : Prop := {
  rd_exact : exact n (nicks (db (ext n))) (owned n) n;
  rd_graph : graph_ok (graph_of n);
  rd_user : users_heap n !! u = Some us;
  rd_nick : no_nul (nick us) = true;
  rd_ids : 0 <= Net.nick_id us /\ 0 <= real_id us;
  rd_reg : registry (db (ext n))
}.

Lemma wp_tell n u us n1 text (Q : unit -> Net E -> Prop) : ready n u us -> exact n (nicks (db (ext n))) (owned n) n1 ->
  (forall n', told n us n' -> Q tt n') -> wp (notice_lang junk u text) Q n1.
Proof.
  intros [_ Hg Hu _ [Hid _] _] Ha HQ. eapply wp_notice_at; [exact Ha|exact Hu|apply Hg|exact Hid|]. intros n' Ha'. apply HQ. by exists text.
Qed.

Lemma wp_ident n u us n1 (Q : bool -> Net E -> Prop) : ready n u us -> exact n (nicks (db (ext n))) (owned n) n1 ->
  (forall n', exact n (nicks (db (ext n))) (owned n) n' -> Q (identified_in (db (ext n)) us) n') -> wp (nick_identified junk u) Q n1.
Proof.
  intros [_ Hg Hu _ [_ Hid] _] Ha HQ. unfold identified_in in HQ. destruct (Z.eqb_spec (real_id us) 0) as [E0|E0].
  - unfold nick_identified. apply wp_bind. eapply wp_at_load; [exact Ha|exact Hu|]. rewrite E0. by apply HQ.
  - eapply wp_identified; [exact Ha|exact Hu|lia|]. intros b n' Ha' Hb. rewrite (Hb I). by apply HQ.
Qed.

Definition badly (text : string) n (u : ptr) (us : User) n' : Prop := exists n1,
  exact (said [Notice s_NickServ (nick us) text] n) (nicks (db (ext n))) (owned n) n1 /\
  bad_password u n1 = Some (tt, n').

Lemma wp_badly text n u us n1 (Q : unit -> Net E -> Prop) : ready n u us -> exact n (nicks (db (ext n))) (owned n) n1 ->
  (forall n', badly text n u us n' -> Q tt n') -> wp (notice_lang junk u text;; bad_password u) Q n1.
Proof.
  intros [_ Hg Hu Hnk [Hid _] _] Ha HQ. apply wp_bind. eapply wp_notice_at; [exact Ha|exact Hu|apply Hg|exact Hid|]. intros n2 Ha2.
  pose proof (at_base _ _ _ _ _ Ha2) as Hb.
  assert (Hw : wp (bad_password u) (fun _ _ => True) n2).
  { apply (wp_bad_password n2 u us); [by rewrite (at_graph _ _ _ _ Hb)|by rewrite (at_users _ _ _ _ Hb)|done]. }
  apply wp_run in Hw as ([] & n' & Hrun & _). eapply wp_intro; [exact Hrun|]. apply HQ. by exists n2.
Qed.

(** The user's session knows the master of the nick in use. *)
Definition current d (us : User) : Prop := Net.nick_id us = master_of (real_id us) d.

Definition linked n (us : User) (t : Z) n' : Prop := exists text ri rt, let i := real_id us in let d := db (ext n) in
  let rows := linked_rows (g_finduser (graph_of n) (escape (n_nick rt)) =? NULL) i t (nicks d) in
  nicks d !! i = Some ri /\ nicks d !! t = Some rt /\ t <> i /\ master_of t d = t /\
  exact (said [Notice s_NickServ (nick us) text] (with_db (link_tables i (n_nick ri) (n_nick rt)) n)) rows (owned n) n' /\
  (current d us -> flat (nicks d) -> flat rows).

Lemma wp_make_link n u us n1 nk t ri rt (Q : unit -> Net E -> Prop) : ready n u us -> exact n (nicks (db (ext n))) (owned n) n1 ->
  let d := db (ext n) in let i := real_id us in
  nicks d !! i = Some ri -> nicks d !! t = Some rt -> t <> i -> master_of t d = t -> links_to (Net.nick_id us) d = 0 ->
  (forall n', (if has_room t d then linked n us t n' else told n us n') -> Q tt n') ->
  wp (make_link junk escape u nk i t) Q n1.
Proof.
  intros Hrd Ha d i Hi Ht Hne Hl Hno HQ. pose proof Hrd as [_ Hg Hu _ [Hid _] Hreg]. unfold make_link. apply wp_bind, wp_chan_limit.
  rewrite (at_db _ _ _ _ Ha). fold d. unfold chan_limit. destruct (has_room t d).
  2: { assert (0 <=? (if reged_by (master_of t d) d =? may_have (master_of t d) d then 0 else 1) = true) as -> by by case_match.
    apply wp_bind, wp_gets. eapply wp_tell; [exact Hrd|exact Ha|]. auto. }
  change (0 <=? -1) with false. cbv iota. apply wp_bind. eapply (wp_update_row _ _ _ _ _ _ (set_link t)); [exact Ha|done|]. intros n2 Ha2.
  apply wp_bind. eapply (wp_update_aside _ _ _ _ _ (fun d => d{{nickaccess ::= delete_where (fun r => na_nick r =? i)}}));
    [exact Ha2|split; by intros []|]. intros n3 Ha3. fold d in Ha3.
  apply wp_bind. eapply wp_nick_name; [exact Ha3|rewrite lookup_alter_ne by done; exact Ht|].
  apply wp_bind. eapply wp_nick_name; [exact Ha3|rewrite lookup_alter_eq, Hi; done|]. simpl n_nick.
  apply wp_bind. eapply (wp_update_aside _ _ _ _ _ (fun d => d{{memo ::= update_where (fun m => same_text (m_owner m) (n_nick ri))
    (fun m => m{{m_owner := n_nick rt}})}})); [exact Ha3|split; by intros []|]. intros n4 Ha4.
  apply wp_bind. eapply wp_notice_at; [exact Ha4|exact Hu|apply Hg|exact Hid|]. intros n5 Ha5.
  apply wp_bind. eapply wp_intro; [by eapply at_finduser; [exact Ha5|apply Hg]|].
  assert (Hfrom : forall rows n', exact (said [Notice s_NickServ (nick us) ("NICK_LINKED " +:+ nk)]
      (with_db (fun d => d{{memo ::= update_where (fun m => same_text (m_owner m) (n_nick ri)) (fun m => m{{m_owner := n_nick rt}})}})
        (with_db (fun d => d{{nickaccess ::= delete_where (fun r => na_nick r =? i)}}) n))) rows (owned n) n' ->
    rows = linked_rows (g_finduser (graph_of n) (escape (n_nick rt)) =? NULL) i t (nicks d) -> linked n us t n').
  { intros rows n' Ha' ->. exists ("NICK_LINKED " +:+ nk), ri, rt. split_and!; [done..| |].
    - apply (at_tables _ _ _ _ _ _ Ha'); [|done..]. simpl. by rewrite !db_set.
    - intros Hcur Hflat. eapply flat_link; [done|exact Ht| |done|].
      { unfold master_of in Hl. fold d in Hl. rewrite Ht in Hl. destruct (Z.eqb_spec (n_link rt) 0) as [|Hn]; [done|]. by destruct (Hflat _ _ Ht Hn). } pose proof (no_links _ _ Hno) as Hno'. unfold current, master_of in Hcur.
      fold d i in Hcur. rewrite Hi in Hcur. destruct (Z.eqb_spec (n_link ri) 0) as [E0|E0]; [by rewrite Hcur in Hno'|].
      exfalso. by apply (Hno' _ _ Hi). }
  apply wp_when; intros Hfree.
  - eapply wp_add_status; [exact Ha5|apply (reg_ids _ Hreg); by eexists|]. intros n' Ha'. apply HQ. eapply Hfrom; [exact Ha'|].
    unfold linked_rows. change (g_finduser (graph_of n) (escape (n_nick rt)) =? NULL = true) in Hfree. by rewrite Hfree.
  - apply HQ. eapply Hfrom; [exact Ha5|]. unfold linked_rows.
    change (g_finduser (graph_of n) (escape (n_nick rt)) =? NULL = false) in Hfree. by rewrite Hfree.
Qed.


(** *** Breaking a link *)
Definition hosts_of (i : Z) d : list string := map na_userhost (access_of i d).

Definition inherited (i m : Z) d : DB :=
  match hosts_of m d with
  | [] => d
  | hosts => d{{nickaccess ::= fun t => copy_access i hosts (delete_where (fun r => na_nick r =? i) t)}}
  end.

Definition unlink_tables (i m : Z) (own_nick : string) (mx : Z) d : DB :=
  (inherited i m d){{memoinfo ::= update_where (fun r => same_text (mi_owner r) own_nick) (fun r => r{{mi_max := mx}})}}.

Lemma inherited_hosts i m d : inherited i m d =
  match hosts_of m d with [] => d | _ =>
    (d{{nickaccess ::= delete_where (fun r => na_nick r =? i)}}){{nickaccess ::= copy_access i (hosts_of m d)}} end.
Proof. unfold inherited. by destruct (hosts_of m d). Qed.

(** A nick that stands alone again, with what it shared with its master. *)
Definition freed (rm r : NickRow) : NickRow :=
  r{{n_link := 0; n_flags := n_flags rm; n_channelmax := n_channelmax rm; n_language := n_language rm}}.

Lemma flat_freed i rm rows : flat rows -> flat (alter (freed rm) i rows).
Proof.
  intros Hf j r Hj Hl. destruct (decide (j = i)) as [->|Hne].
  - rewrite lookup_alter_eq in Hj. destruct (rows !! i); [|done]. by injection Hj as <-.
  - rewrite lookup_alter_ne in Hj by done. destruct (Hf _ _ Hj Hl) as (Hself & x & Hx & H0x). split; [done|].
    destruct (decide (n_link r = i)) as [Hk|Hk].
    + exists (freed rm x). by rewrite Hk, lookup_alter_eq, <- Hk, Hx.
    + exists x. by rewrite lookup_alter_ne.
Qed.

Lemma wp_delink n0 own n i ri rm mx (Q : unit -> Net E -> Prop) : let d := db (ext n0) in
  exact n0 (nicks d) own n -> 0 < i -> nicks d !! i = Some ri -> n_link ri <> 0 -> nicks d !! n_link ri = Some rm ->
  memomax (n_nick rm) d = Some mx ->
  (forall n', exact (with_db (unlink_tables i (n_link ri) (n_nick ri) mx) n0) (alter (freed rm) i (nicks d)) own n' -> Q tt n') ->
  wp (delink junk i) Q n.
Proof.
  intros d Ha Hpos Hi Hl Hm Hmx HQ. pose proof (at_db _ _ _ _ Ha) as Hd. unfold delink, get_nickinfo_from_id, select.
  apply wp_bind, wp_gets. rewrite Hd. fold d. rewrite Hi, (proj2 (Z.eqb_neq _ _) Hl).
  apply wp_bind, wp_gets. rewrite Hd. fold d. rewrite Hm. apply wp_bind, wp_gets. rewrite Hd. fold d. rewrite Hmx.
  apply wp_bind. eapply (wp_update_row _ _ _ _ _ _ (set_link 0)); [exact Ha|done|]. intros n1 Ha1.
  apply wp_bind. eapply wp_update_row; [exact Ha1|done|]. intros n2 Ha2. rewrite alter_alter_eq in Ha2.
  change (exact n0 (alter (freed rm) i (nicks d)) own n2) in Ha2.
  apply wp_bind. eapply wp_cache_language; [exact Ha2|exact Hpos|]. intros n3 Ha3.
  apply wp_bind.
  assert (Hinh : wp (inherit_access i (n_link ri)) (fun _ n' => exact (with_db (inherited i (n_link ri)) n0) (alter (freed rm) i (nicks d)) own n') n3).
  { unfold inherit_access. apply wp_bind. eapply wp_select; [exact Ha3|].
    change (map na_userhost (access_of (n_link ri) _)) with (hosts_of (n_link ri) d).
    pose proof (inherited_hosts i (n_link ri) d) as Hdb. destruct (hosts_of (n_link ri) d) as [|h hs].
    - apply wp_ret. apply (at_tables _ _ _ _ _ _ Ha3); [|done..]. rewrite with_db_db. exact Hdb.
    - apply wp_bind. eapply (wp_update_aside _ _ _ _ _ (fun d => d{{nickaccess ::= delete_where (fun r => na_nick r =? i)}})); [exact Ha3|split; by intros []|].
      intros n4 Ha4. eapply (wp_update_aside _ _ _ _ _ (fun d => d{{nickaccess ::= copy_access i (h :: hs)}})); [exact Ha4|split; by intros []|].
      intros n5 Ha5. apply (at_tables _ (with_db (inherited i (n_link ri)) n0) _ _ _ _ Ha5); [|done..]. rewrite !with_db_db. exact Hdb. }
  eapply wp_mono; [exact Hinh|]. intros [] n4 Ha4. cbv beta in Ha4.
  eapply (wp_update_aside _ _ _ _ _ (fun d => d{{memoinfo ::= update_where (fun r => same_text (mi_owner r) (n_nick ri)) (fun r => r{{mi_max := mx}})}}));
    [exact Ha4|split; by intros []|]. intros n5 Ha5. apply HQ.
  apply (at_tables _ _ _ _ _ _ Ha5); [|done..]. by rewrite !with_db_db.
Qed.

(** The session learns that its nick stands alone. *)
Definition with_session (u : ptr) (us : User) n : Net E := n{{users_heap ::= insert u (us{{Net.nick_id := real_id us}})}}.

Lemma at_with_session n0 S rows own n u us : at_ n0 S rows own n -> users_heap n0 !! u = Some us ->
  at_ (with_session u us n0) S rows own (with_session u us n).
Proof.
  intros [[Hu Hg Ht Hd Ho Hout] Hc] Hus.
  assert (Hgs : forall n1, users_heap n1 !! u = Some us -> graph_of (with_session u us n1) = graph_of n1)
    by (intros n1 H1'; by apply (graph_upd_user_id n1 u us)).
  split; [split; try done|done].
  - unfold with_session. simpl. by rewrite Hu.
  - rewrite !Hgs; [done|done|by rewrite Hu].
Qed.

Definition unlink_outcome (ok : Z -> string -> bool) (admin : bool) d (us : User) (args : string) : Outcome :=
  let '(nk, rest) := strtok args " " in
  match nk with
  | Some nk =>
      match nickinfo_named d nk with
      | None => Refused
      | Some (i, r) =>
          if n_link r =? 0 then Refused
          else if admin then Granted i
          else match fst (strtok rest " ") with
               | None => Refused
               | Some pass => if ok i pass then Granted i else WrongPassword
               end
      end
  | None =>
      match nicks d !! real_id us with
      | Some r => if identified_in d us && negb (n_link r =? 0) then Granted (real_id us) else Refused
      | None => Refused
      end
  end.

(** Every link leads to a nick with memos. *)
Definition masters_ok d : Prop := forall i ri, nicks d !! i = Some ri -> n_link ri <> 0 ->
  exists rm mx, nicks d !! n_link ri = Some rm /\ memomax (n_nick rm) d = Some mx.

Definition unlinked n0 n (i : Z) n' : Prop := exists msgs ri rm mx, let d := db (ext n) in
  let rows := alter (freed rm) i (nicks d) in
  nicks d !! i = Some ri /\ nicks d !! n_link ri = Some rm /\ memomax (n_nick rm) d = Some mx /\
  exact (said msgs (with_db (unlink_tables i (n_link ri) (n_nick ri) mx) n0)) rows (owned n) n' /\
  (flat (nicks d) -> flat rows).

Lemma unlinked_by n0 n i ri n1 (Q : unit -> Net E -> Prop) (k : M (Net E) unit) : db (ext n0) = db (ext n) -> masters_ok (db (ext n)) ->
  registry (db (ext n)) -> exact n0 (nicks (db (ext n0))) (owned n) n1 -> nicks (db (ext n)) !! i = Some ri -> n_link ri <> 0 ->
  (forall f rm n', exact (with_db f n0) (alter (freed rm) i (nicks (db (ext n)))) (owned n) n' ->
     wp k (fun _ n2 => (exists msgs, exact (said msgs (with_db f n0)) (alter (freed rm) i (nicks (db (ext n)))) (owned n) n2)) n') ->
  (forall n', unlinked n0 n i n' -> Q tt n') -> wp (delink junk i;; k) Q n1.
Proof.
  intros Hdb Hma Hreg Ha Hi Hl Hk HQ. destruct (Hma _ _ Hi Hl) as (rm & mx & Hm & Hmx). rewrite <- Hdb in Hi, Hm, Hmx.
  apply wp_bind. eapply wp_delink; [exact Ha|apply (reg_ids _ Hreg); rewrite <- Hdb; by eexists|exact Hi|exact Hl|exact Hm|exact Hmx|].
  intros n2 Ha2. rewrite Hdb in *. eapply wp_mono; [by eapply Hk|].
  intros [] n3 (msgs & Ha3). apply HQ. exists msgs, ri, rm, mx. split_and!; [done..|]. apply flat_freed.
Qed.

(** C20: UNLINK, of one's own nick when it is identified, of another one by a
    Services administrator or with its password: the link goes, the nick keeps the
    flags, the language, the limits and, if its master has one, the access list of
    its master, and links still have one level.  Anything else is a notice, and a
    wrong password counts.  A session that unlinks its own nick knows it; one whose
    nick is unlinked by another does not. *)
Theorem do_unlink_correct n u us args admin (Hrd : ready n u us) (Hma : masters_ok (db (ext n)))
  (Hadm : wp (Interfaces.is_services_admin u) (fun b n' => b = admin /\ exact n (nicks (db (ext n))) (owned n) n') n) :
  wp (do_unlink junk pass_ok u args) (fun _ n' =>
    match unlink_outcome (right_password n) admin (db (ext n)) us args with
    | Refused => told n us n'
    | WrongPassword => badly "PASSWORD_INCORRECT" n u us n'
    | Granted i => unlinked (if fst (strtok args " ") then n else with_session u us n) n i n'
    end) n.
Proof.
  pose proof Hrd as [Ha Hg Hu Hnk [Hid Hri] Hreg]. set (d := db (ext n)) in *. unfold do_unlink, unlink_outcome.
  destruct (strtok args " ") as [nk rest]. 
  assert (Hsay : forall n1 text, exact n (nicks d) (owned n) n1 -> wp (notice_lang junk u text) (fun _ n' => told n us n') n1).
  { intros n1 text H1'. by eapply wp_tell. }
  assert (Hdone : forall f rows text n1, exact (with_db f n) rows (owned n) n1 ->
    wp (notice_lang junk u text) (fun _ n' => exact (said [Notice s_NickServ (nick us) text] (with_db f n)) rows (owned n) n') n1).
  { intros f rows text n1 H1'. by eapply wp_notice_at; [exact H1'|exact Hu|apply Hg|exact Hid|]. }
  destruct nk as [nk|]; simpl.
  - unfold unlink_other. apply wp_bind. eapply wp_mono; [exact Hadm|]. intros b n1 [-> Ha1].
    apply wp_bind. eapply wp_select; [exact Ha1|]. replace ((db (ext n)){{nicks := nicks d}}) with d by by unfold d; destruct (db (ext n)).
    destruct (nickinfo_named d nk) as [[i r]|] eqn:En; [|by apply Hsay].
    assert (Hi : nicks d !! i = Some r).
    { unfold nickinfo_named in En. destruct (nick_named d nk) as [j|]; [|done]. simpl in En. destruct (nicks d !! j) eqn:Ej; [|done].
      simpl in En. by injection En as <- <-. }
    destruct (Z.eqb_spec (n_link r) 0) as [E0|E0]; [by apply Hsay|].
    assert (Hgo : forall n2, exact n (nicks d) (owned n) n2 -> wp (linkname ← get_nick_from_id (n_link r);
        delink junk i;; notice_lang junk u ("NICK_X_UNLINKED " +:+ n_nick r +:+ " " +:+ default "(null)" linkname);;
        us ← load_user u;
        when admin (wallops (Some s_NickServ)
          (BOLD +:+ nick us +:+ BOLD +:+ " unlinked " +:+ BOLD +:+ n_nick r +:+ BOLD +:+ " from " +:+
           BOLD +:+ default "(null)" linkname +:+ BOLD +:+ " as services admin"))) (fun _ n' => unlinked n n i n') n2).
    { intros n2 Ha2. apply wp_bind. eapply wp_nick_from_id; [exact Ha2|].
      eapply unlinked_by; [done|exact Hma|exact Hreg|exact Ha2|exact Hi|exact E0| |done]. intros f rm n3 Ha3.
      apply wp_bind. eapply wp_mono; [by apply Hdone|]. intros [] n4 Ha4. apply wp_bind. eapply wp_at_load; [exact Ha4|exact Hu|].
      apply wp_when; intros _; [|by eexists]. apply wp_modify. eexists (_ :: _). by apply (at_out _ _ _ _ _ _ Ha4). }
    destruct admin; simpl; [apply wp_bind, wp_ret; by apply Hgo|]. destruct (fst (strtok rest " ")) as [pass|]; simpl; [|by apply Hsay].
    apply wp_bind. eapply wp_password; [exact Ha1|]. destruct (right_password n i pass); simpl; [by apply Hgo|by eapply wp_badly].
  - unfold unlink_own. apply wp_bind. eapply wp_at_load; [exact Ha|exact Hu|]. apply wp_bind. eapply wp_select; [exact Ha|].
    replace ((db (ext n)){{nicks := nicks d}}) with d by by unfold d; destruct (db (ext n)).
    destruct (nicks d !! real_id us) as [r|] eqn:Hi; [|by apply Hsay]. apply wp_bind. eapply wp_ident; [exact Hrd|exact Ha|].
    fold d. intros n1 Ha1. destruct (identified_in d us); simpl; [|by apply Hsay].
    destruct (Z.eqb_spec (n_link r) 0) as [E0|E0]; simpl; [by apply Hsay|].
    apply wp_bind. eapply wp_nick_from_id; [exact Ha1|]. apply wp_bind. eapply wp_upd_user; [by rewrite (at_users _ _ _ _ (at_base _ _ _ _ _ Ha1))|].
    eapply (unlinked_by (with_session u us n)); [done|exact Hma|exact Hreg|by apply (at_with_session _ _ _ _ _ _ _ Ha1)|exact Hi|exact E0| |done].
    intros f rm n3 Ha3. eapply wp_notice_at; [exact Ha3|apply lookup_insert_eq| |simpl; exact Hri|intros n' Ha4; by eexists].
    change (heap_ok (graph_of (with_session u us n))). unfold with_session. rewrite (graph_upd_user_id n u us) by done. apply Hg.
Qed.

(** Deleting a nick keeps it so too ([mysql_delnick], Removal.v). *)
Lemma flat_delnick k rows : flat rows -> flat (delete k ((fun r => if n_link r =? k then r{{n_link := 0}} else r) <$> rows)).
Proof.
  intros Hf j r [Hj Hr]%lookup_delete_Some. rewrite lookup_fmap in Hr. destruct (rows !! j) as [x|] eqn:Hx; [|done].
  injection Hr as <-. destruct (Z.eqb_spec (n_link x) k) as [Hk|Hk]; [done|]. intros Hl.
  destruct (Hf _ _ Hx Hl) as (Hself & m & Hm & Hm0). split; [done|]. eexists.
  rewrite lookup_delete_ne by done. rewrite lookup_fmap, Hm. split; [reflexivity|]. by case_match.
Qed.

(** LISTLINKS names every nick linked to the master, and counts them. *)
Definition listing (us : User) (r : NickRow) (names : list string) : list Msg :=
  Notice s_NickServ (nick us) ("NICK_LISTLINKS_FOOTER " +:+ show_int (Z.of_nat (length names))) ::
  rev (map (fun nk => Notice s_NickServ (nick us) ("NICK_X_IS_LINKED " +:+ nk)) names) ++
  [Notice s_NickServ (nick us) ("NICK_LISTLINKS_HEADER " +:+ n_nick r)].

Lemma list_links_spec n u us i r : ready n u us -> n_link r = 0 -> has (n_status r) NS_VERBOTEN = false ->
  wp (list_links junk u i r) (fun _ n' =>
    exact (said (listing us r (linked_to i (db (ext n)))) n) (nicks (db (ext n))) (owned n) n') n.
Proof.
  intros [Ha Hg Hu _ [Hid _] _] Hl Hv. unfold list_links. rewrite Hl. simpl. apply wp_bind, wp_ret. rewrite Hv.
  apply wp_bind. eapply wp_notice_at; [exact Ha|exact Hu|apply Hg|exact Hid|]. intros n1 Ha1.
  apply wp_bind. eapply wp_select; [exact Ha1|]. change (linked_to i _) with (linked_to i (db (ext n))).
  assert (Hall : forall names msgs n2, exact (said msgs n) (nicks (db (ext n))) (owned n) n2 ->
    wp (for_each names (fun nk => notice_lang junk u ("NICK_X_IS_LINKED " +:+ nk))) (fun _ n' =>
      exact (said (rev (map (fun nk => Notice s_NickServ (nick us) ("NICK_X_IS_LINKED " +:+ nk)) names) ++ msgs) n)
        (nicks (db (ext n))) (owned n) n') n2).
  { induction names as [|nk names IH]; intros msgs n2 Ha2; [by apply wp_ret|]. cbn [for_each]. apply wp_bind.
    eapply wp_notice_at; [exact Ha2|exact Hu|apply Hg|exact Hid|]. intros n3 Ha3. cbn [map rev]. rewrite <- app_assoc.
    exact (IH (_ :: msgs) n3 Ha3). }
  apply wp_bind. eapply wp_mono; [by apply Hall|]. intros [] n2 Ha2. cbv beta in Ha2.
  eapply wp_notice_at; [exact Ha2|exact Hu|apply Hg|exact Hid|]. intros n3 Ha3. exact Ha3.
Qed.
End LinkSpec.

(** ** Examples *)
Module Witness.
Import Registry.

(** The rest of Services grants nothing and keeps nothing. *)
#[export] Instance modeserv : ModeServ E := {check_modes := fun _ => mret tt; check_valid_op := fun _ _ _ => mret true}.
#[export] Instance chanserv : ChanServ E := {
  chanserv_modes := modeserv; mysql_findchan := fun _ => mret 0; mysql_channel_row := fun _ => mret None;
  mysql_channel_store := fun _ => mret tt; mysql_set_limit_time := fun _ _ => mret tt; restore_topic := fun _ => mret tt;
  record_topic := fun _ => mret tt; check_topiclock := fun _ _ _ => mret false; check_should_op := fun _ _ => mret false;
  check_should_voice := fun _ _ => mret false; check_kick := fun _ _ => mret false;
  mysql_entry_message := fun _ => mret None; check_chan_memos := fun _ _ => mret tt
}.
#[export] Instance nickserv : Interfaces.NickServ E := {
  mysql_findnick := fun _ => mret 0; mysql_getlink := fun _ => mret 0; get_nick_status := fun _ => mret 0;
  set_nick_status := fun _ _ => mret tt; get_nick_flags := fun _ => mret 0; mysql_maxuser_stat := fun _ _ => mret tt;
  validate_user := fun _ => mret false; cancel_user := fun _ => mret tt; check_on_access := fun _ => mret tt;
  check_memos := fun _ => mret tt; mysql_update_last_seen := fun _ _ => mret tt; mysql_quit_row := fun _ => mret false;
  mysql_quit_store := fun _ _ _ => mret tt; is_services_admin := fun _ => mret false; nickcache_update := fun _ => mret tt;
  get_email_from_id := fun _ => mret EmptyString; get_cloak_from_id := fun _ => mret None; check_autojoins := fun _ => mret tt;
  display_news_logon := fun _ => mret tt; display_news_oper := fun _ => mret tt
}.
#[export] Instance operserv : OperServ E := {
  check_akill := fun _ _ _ => mret false; add_session := fun _ _ => mret true; del_session := fun _ => mret tt;
  findserver := fun _ => mret NULL
}.

Lemma ext_only_mret {A} (a : A) : ext_only (E := E) (mret a).
Proof. intros n. apply wp_ret. exists (ext n). by destruct n. Qed.

#[export] Instance chanserv_laws : ChanServLaws E.
Proof. split; intros; first [apply ext_only_mret|by intros n Hn|by apply wp_ret]. Qed.
#[export] Instance nickserv_laws : NickServLaws E.
Proof. split; intros; first [apply ext_only_mret|by intros n Hn|by apply wp_ret]. Qed.
#[export] Instance operserv_laws : OperServLaws E.
Proof. split; intros; first [apply ext_only_mret|by apply wp_ret]. Qed.

#[export] Instance linkconf : LinkConf := {NSDisableLinkCommand := false}.

(** alice, identified, has nick 7; nick 9, [ally], is hers as well. *)
Definition row (nk : string) (status link flags : Z) : NickRow := mkNickRow nk status flags "" "" 0 link 0 0 0 5 "al@example.org" "".

Definition tables (link : Z) : DB :=
  (Registry.tables (row "alice" NS_IDENTIFIED link 0) ["*@one.example.org"]){{
    nicks := <[9 := row "ally" 0 0 NI_SECURE]> {[7 := row "alice" NS_IDENTIFIED link 0]};
    nick_named := fun nk => if same_text nk "alice" then Some 7 else if same_text nk "ally" then Some 9 else None;
    memoinfo := mkTable [mkMemoInfo 1 "alice" 20; mkMemoInfo 2 "ally" 30] 3}}.

Definition net (link : Z) : Net E := (Registry.net (row "alice" NS_IDENTIFIED link 0) [] (data [])){{ext := (tables link, data [])}}.

Definition ok (e : E) (i : Z) (pass : string) : bool := (i =? 9) && String.eqb pass "sesame".

Lemma ok_tables e e' i p : db e = db e' -> ok e i p = ok e' i p.
Proof. done. Qed.

Lemma net_graph link : graph_of (net link) = graph_of Demo.net.
Proof. vm_compute. reflexivity. Qed.

Lemma nicks_are link i r : nicks (tables link) !! i = Some r ->
  (i = 9 /\ r = row "ally" 0 0 NI_SECURE) \/ (i = 7 /\ r = row "alice" NS_IDENTIFIED link 0).
Proof.
  change (nicks (tables link)) with (<[9 := row "ally" 0 0 NI_SECURE]> ({[7 := row "alice" NS_IDENTIFIED link 0]} : gmap Z NickRow)).
  intros [[<- <-]|[_ [<- <-]%lookup_singleton_Some]]%lookup_insert_Some; auto.
Qed.

Lemma net_ready link : ready (net link) 1 alice.
Proof.
  split.
  - split; [split; try done|]. exists ∅. split; [exact Cache.Witness.cache_holds|]. split; [intros i|intros i _]; intros e He; by rewrite lookup_empty in He.
  - rewrite net_graph. apply Demo.net_ok.
  - reflexivity.
  - reflexivity.
  - split; vm_compute; discriminate.
  - split.
    + intros i [r Hr]. destruct (nicks_are _ _ _ Hr) as [[-> _]|[-> _]]; lia.
    + intros nm i. change (nick_named (db (ext (net link))) nm) with
        (if same_text nm "alice" then Some 7 else if same_text nm "ally" then Some 9 else None).
      change (nicks (db (ext (net link)))) with (<[9 := row "ally" 0 0 NI_SECURE]> ({[7 := row "alice" NS_IDENTIFIED link 0]} : gmap Z NickRow)).
      repeat case_match; intros [= <-]; by eexists.
Qed.


(** Linked already, she leaves it. *)
Lemma do_unlink_correct_witness : exists n', do_unlink junk ok 1 "" (net 9) = Some (tt, n') /\
  n_link <$> nicks (db (ext n')) !! 7 = Some 0 /\ n_flags <$> nicks (db (ext n')) !! 7 = Some NI_SECURE.
Proof.
  pose proof (do_unlink_correct junk ok ok_tables (net 9) 1 alice "" false (net_ready 9)) as Hw.
  assert (Hma : masters_ok (db (ext (net 9)))).
  { intros i r Hr Hl. destruct (nicks_are _ _ _ Hr) as [[_ ->]|[_ ->]]; [exfalso; by apply Hl|]. exists (row "ally" 0 0 NI_SECURE), 30. split; reflexivity. }
  specialize (Hw Hma). apply wp_run in Hw as ([] & n' & Hrun & Hw); [|apply wp_ret; split; [done|apply (net_ready 9)]].
  exists n'. split; [exact Hrun|].
  assert (Ho : unlink_outcome (right_password ok (net 9)) false (db (ext (net 9))) alice "" = Granted 7) by (vm_compute; reflexivity).
  rewrite Ho in Hw. destruct Hw as (msgs & ri & rm & mx & Hi & Hm & _ & Hat & _). rewrite (at_rows _ _ _ _ (at_base _ _ _ _ _ Hat)).
  assert (rm = row "ally" 0 0 NI_SECURE) as ->.
  { apply Some_inj. rewrite <- Hm. replace ri with (row "alice" NS_IDENTIFIED 9 0) by (apply Some_inj; rewrite <- Hi; reflexivity). reflexivity. }
  split; vm_compute; reflexivity.
Defined.

(** Somebody else has unlinked alice's nick 7 from nick 9, which her session does
    not know, and nick 5 has been linked to hers.  LINK then makes two levels. *)
Definition stale : Net E :=
  (net 0){{users_heap ::= insert 1 (alice{{Net.nick_id := 9}});
           ext := ((tables 0){{nicks ::= insert 5 (row "bob" 0 7 0); nicks ::= insert 11 (row "boss" 0 0 0);
                               nick_named := fun nk => if same_text nk "boss" then Some 11 else None}}, data [])}}.

Lemma stale_session_two_levels :
  (fun r => let rows := nicks (db (ext (snd r))) in (n_link <$> rows !! 5, n_link <$> rows !! 7)) <$>
    do_link junk (fun _ _ _ => true) id 1 "boss sesame" stale = Some (Some 7, Some 11).
Proof. vm_compute. reflexivity. Qed.

(** The name of a master that needs escaping is looked for in its escaped form: his
    user is not found, and is taken for identified though he gave no password. *)
Definition taken : Net E :=
  (net 0){{users_heap ::= insert 3 (Demo.bob{{nick := "a\b"; Net.nick_id := 9; real_id := 9}});
           userlist ::= insert (nick_HASH "a\b") [3];
           ext := ((tables 0){{nicks ::= insert 9 (row "a\b" 0 0 0); nick_named := fun nk => if same_text nk "a\b" then Some 9 else None}}, data [])}}.

Lemma escaped_user_identified :
  (fun r => n_status <$> nicks (db (ext (snd r))) !! 9) <$>
    do_link junk (fun _ _ _ => true) (fun s => if String.eqb s "a\b" then "a\\b" else s) 1 "a\b sesame" taken = Some (Some NS_IDENTIFIED).
Proof. vm_compute. reflexivity. Qed.

(** Without a backslash he is found. *)
Lemma plain_user_not_identified :
  (fun r => n_status <$> nicks (db (ext (snd r))) !! 9) <$> do_link junk (fun _ _ _ => true) id 1 "a\b sesame" taken = Some (Some 0).
Proof. vm_compute. reflexivity. Qed.
End Witness.
