(* ===== verification/NickCmds.v ===== *)
(** NickServ's commands to prove and to reclaim a nick: IDENTIFY, RECOVER, RELEASE,
    GHOST and STATUS ([src/nickserv.c]). *)

From S2P Require Import Prelude CStr NumTime Wp Graph Net Masks Interfaces Part Channels Users Table Query ChanDB CsAccess Cache OperDB Removal NickServ NickLinks.

Definition NI_CLOAK : Z := 0x10000.

Section Commands.
Context `{Conf} `{NickConf} `{MySQL} {E : Type} `{!ChanDB E} `{!NickStore E}.
Context `{!ChanServ E} `{!Interfaces.NickServ E} `{!OperServ E}.
(** What [malloc] returns, and whether a password is that of a nick. *)
Context (junk : nickcache) (pass_ok : E -> Z -> string -> bool).
Implicit Types (n : Net E).

#[local] Notation notice u text := (notice_lang junk u text).

(** *** IDENTIFY *)
Definition get_email_from_id (nick_id : Z) : M (Net E) (option string) := select (fun d => n_email <$> nicks d !! nick_id).
Definition get_cloak_from_id (nick_id : Z) : M (Net E) (option string) := select (fun d => n_cloak <$> nicks d !! nick_id).

(** Who has just identified is told what is missing, gets the memos not seen at
    logon, the cloak and the auto-joins. *)
Definition identified_now (u : ptr) (us : User) : M (Net E) unit :=
  send_cmd (Some ServerName) ("SVSMODE " +:+ nick us +:+ " :+R");;
  notice u "NICK_IDENTIFY_SUCCEEDED";;
  oper ← is_oper (nick us);
  flags ← get_nick_flags (Net.nick_id us);
  when (oper && negb (has flags NI_IRCOP)) (notice u "NICK_NOT_IRCOP");;
  email ← get_email_from_id (real_id us);
  match email with
  | None => fault                                   (* strlen (NULL) *)
  | Some email =>
      when (String.length email <=? 1)%nat (notice u "NICK_BEG_SET_EMAIL");;
      s ← get_nick_status junk (real_id us);
      when (negb (has s NS_RECOGNIZED)) (check_memos u);;
      s ← get_nick_status junk (real_id us);
      flags ← get_nick_flags (real_id us);
      when (negb (has s NS_RECOGNIZED) && has flags NI_CLOAK)
        (cloak ← get_cloak_from_id (real_id us);
         match cloak with
         | Some cloak => when (negb (String.eqb cloak EmptyString))
             (send_cmd (Some ServerName) ("SVSCLOAK " +:+ nick us +:+ " :" +:+ cloak))
         | None => mret tt
         end);;
      check_autojoins u
  end.

Definition do_identify (u : ptr) (args : string) : M (Net E) unit :=
  us ← load_user u;
  match fst (strtok args " ") with
  | None => notice u "NICK_IDENTIFY_SYNTAX"
  | Some pass =>
      if real_id us =? 0 then emit (Notice s_NickServ (nick us) "Your nick isn't registered.")
      else
        flags ← get_nick_flags (real_id us);
        if has flags NI_SUSPENDED then notice u ("NICK_X_SUSPENDED " +:+ nick us)
        else
          res ← check_nick_password pass_ok pass (real_id us);
          if res =? 0 then notice u "PASSWORD_INCORRECT";; bad_password u
          else if res =? -1 then notice u "NICK_IDENTIFY_FAILED"
          else
            mysql_update_last_seen u NS_IDENTIFIED;;
            fuel ← cache_fuel;
            cached junk (fun sql now junk => nickcache_update sql now junk fuel (real_id us));;
            identified_now u us
  end.

(** *** Reclaiming a nick *)

(** With the password, or without one from a host on the access list of a nick
    that is not SECURE. *)
Definition as_owner (u : ptr) (pass : option string) (nick_id : Z) (act : M (Net E) unit) : M (Net E) unit :=
  match pass with
  | Some pass =>
      res ← check_nick_password pass_ok pass nick_id;
      if res =? 1 then act
      else notice u "ACCESS_DENIED";; when (res =? 0) (bad_password u)
  | None =>
      flags ← get_nick_flags nick_id;
      on_access ← (if has flags NI_SECURE then mret false else is_on_access u nick_id);
      if on_access : bool then act else notice u "ACCESS_DENIED"
  end.

(** The nick another user bears. *)
Definition against (u : ptr) (args syntax self : string) (act : string -> option string -> Z -> M (Net E) unit) : M (Net E) unit :=
  let '(nk, rest) := strtok args " " in
  match nk with
  | None => notice u syntax
  | Some nk =>
      u2 ← finduser nk;
      if u2 =? NULL then notice u ("NICK_X_NOT_IN_USE " +:+ nk)
      else
        us2 ← load_user u2;
        us ← load_user u;
        if real_id us2 =? 0 then notice u ("NICK_X_NOT_REGISTERED " +:+ nk)
        else if irc_stricmp nk (nick us) =? 0 then notice u self
        else act nk (fst (strtok rest " ")) (real_id us2)
  end.

Definition do_recover (u : ptr) (args : string) : M (Net E) unit :=
  against u args "NICK_RECOVER_SYNTAX" "NICK_NO_RECOVER_SELF" (fun nk pass nick_id =>
    as_owner u pass nick_id (collide junk nick_id false;; notice u ("NICK_RECOVERED " +:+ nk))).

Definition do_ghost (u : ptr) (args : string) : M (Net E) unit :=
  against u args "NICK_GHOST_SYNTAX" "NICK_NO_GHOST_SELF" (fun nk pass nick_id =>
    as_owner u pass nick_id
      (us ← load_user u;
       kill_user (Some s_NickServ) nk (trunc (NICKMAX + 32) ("GHOST command used by " +:+ nick us));;
       notice u ("NICK_GHOST_KILLED " +:+ nk))).

Definition do_release (u : ptr) (args : string) : M (Net E) unit :=
  let '(nk, rest) := strtok args " " in
  match nk with
  | None => notice u "NICK_RELEASE_SYNTAX"
  | Some nk =>
      nick_id ← mysql_findnick nk;
      if nick_id =? 0 then notice u ("NICK_X_NOT_REGISTERED " +:+ nk)
      else
        s ← get_nick_status junk nick_id;
        if negb (has s NS_KILL_HELD) then notice u ("NICK_RELEASE_NOT_HELD " +:+ nk)
        else as_owner u (fst (strtok rest " ")) nick_id (release junk nick_id false;; notice u "NICK_RELEASED")
  end.

(** *** STATUS, for at most 16 nicks *)
Definition status_digit (nk : string) : M (Net E) string :=
  u2 ← finduser nk;
  if u2 =? NULL then mret "0"
  else
    i ← nick_identified junk u2;
    if i : bool then mret "3"
    else r ← nick_recognized junk u2; mret (if r : bool then "2" else "1").

Fixpoint status_loop (k : nat) (u : ptr) (args : string) : M (Net E) unit :=
  match k with
  | O => mret tt
  | S k =>
      let '(nk, rest) := strtok args " " in
      match nk with
      | None => mret tt
      | Some nk =>
          digit ← status_digit nk;
          us ← load_user u;
          emit (Notice s_NickServ (nick us) ("STATUS " +:+ nk +:+ " " +:+ digit));;
          status_loop k u rest
      end
  end.

Definition do_status (u : ptr) (args : string) : M (Net E) unit := status_loop 16 u args.
End Commands.

(** ** What they do *)
Section CommandSpec.
Context `{Conf} `{NickConf} `{MySQL} {E : Type} `{!ChanDB E} `{!NickStore E}.
Context `{!ChanServ E} `{!Interfaces.NickServ E} `{!OperServ E} `{!ChanServLaws E} `{!NickServLaws E} `{!OperServLaws E}.
Context (junk : nickcache) (pass_ok : E -> Z -> string -> bool).
Context (pass_tables : forall e e' i p, db e = db e' -> pass_ok e i p = pass_ok e' i p).
Implicit Types (n : Net E) (rows : gmap Z NickRow) (d : DB).

(** *** Messages *)
Definition talked n rows own n' : Prop := exists msgs, exact (said msgs n) rows own n'.

Lemma talked_from n rows own n' : exact n rows own n' -> talked n rows own n'.
Proof. intros Ha. exists []. by apply (at_tables _ _ _ _ _ _ Ha). Qed.

Lemma talked_more msg n rows own n1 n' : talked n rows own n1 -> n' = n1{{out ::= cons msg}} -> talked n rows own n'.
Proof. intros (msgs & Ha) ->. exists (msg :: msgs). exact (at_out _ _ _ _ _ _ Ha). Qed.

Lemma talked_further msgs n rows own n' : exact (said msgs n) rows own n' -> talked n rows own n'.
Proof. by exists msgs. Qed.

(** A computation for a user that keeps everything but the messages. *)
Definition only_talks (u : ptr) (m : M (Net E) unit) : Prop := forall n us rows own n1,
  users_heap n !! u = Some us -> heap_ok (graph_of n) -> exact n rows own n1 -> wp m (fun _ => talked n rows own) n1.

Lemma wp_talks u m n us rows own n1 (Q : unit -> Net E -> Prop) : only_talks u m -> users_heap n !! u = Some us -> heap_ok (graph_of n) ->
  talked n rows own n1 -> (forall n', talked n rows own n' -> Q tt n') -> wp m Q n1.
Proof.
  intros Hm Hu Hg (msgs & Ha) HQ. eapply wp_mono; [by eapply (Hm (said msgs n))|]. intros [] n' (msgs' & Ha'). apply HQ.
  exists (msgs' ++ msgs). apply (at_tables _ _ _ _ _ _ Ha'); try done. simpl. by rewrite app_assoc.
Qed.

Lemma notice_talks u us n text : users_heap n !! u = Some us -> 0 <= Net.nick_id us ->
  forall rows own n1 (Q : unit -> Net E -> Prop), heap_ok (graph_of n) -> talked n rows own n1 ->
  (forall n', talked n rows own n' -> Q tt n') -> wp (notice_lang junk u text) Q n1.
Proof.
  intros Hu Hid rows own n1 Q Hg (msgs & Ha) HQ. eapply wp_notice_at; [exact Ha|exact Hu|exact Hg|exact Hid|]. intros n' Ha'. apply HQ.
  by exists (Notice s_NickServ (nick us) text :: msgs).
Qed.

(** *** IDENTIFY *)
Context (memos_talk : forall u, only_talks u (check_memos u)) (joins_talk : forall u, only_talks u (check_autojoins u)).

Lemma wp_cache_update n0 rows own n fuel i r (Q : ptr -> Net E -> Prop) : at_ n0 (fun j => True /\ j <> i) rows own n -> 0 < i ->
  rows !! i = Some r -> (forall p n', exact n0 rows own n' -> Q p n') ->
  wp (cached junk (fun sql now junk => nickcache_update sql now junk fuel i)) Q n.
Proof.
  intros [Hb (m & Hc & Hn & Hs)] Hi Hr HQ. apply wp_cached_get.
  assert (Hsql : status_row (db (ext n)) i = Some (n_status r, n_language r)).
  { rewrite (status_row_at _ _ _ _ i Hb). unfold rows_sql. by rewrite Hr. }
  eapply wp_mono; [by eapply update_caches|]. intros p c (x & Hx & _). apply HQ.
  eapply at_put_cache; [exact Hb|by eapply here_caches| |].
  - eapply near_insert; [exact Hn|exact Hr|done].
  - intros j _. destruct (decide (j = i)) as [->|Hj].
    + intros e He. rewrite lookup_insert_eq in He. injection He as <-. by exists r.
    + eapply synced_insert; [by apply Hs|exact Hr|done].
Qed.

(** The row of a nick whose user has just been seen. *)
Definition seen (us : User) (t : Z) (r : NickRow) : NickRow :=
  r{{n_status ::= Z.lor NS_IDENTIFIED; n_id_stamp := services_stamp; n_last_seen := t;
     n_usermask := username us +:+ "@" +:+ host us; n_realname := realname us}}.

Lemma agree_identified a : agree (Z.lor NS_IDENTIFIED a) a.
Proof.
  apply agree_bits. intros k Hk Ht. rewrite Z.lor_spec.
  assert (Hb : Z.testbit NS_IDENTIFIED k = false); [|by rewrite Hb].
  change NS_IDENTIFIED with (2 ^ 15). rewrite Z.pow2_bits_eqb by lia. destruct (Z.eqb_spec 15 k) as [<-|]; [by vm_compute in Ht|done].
Qed.

Lemma has_identified a : has (Z.lor NS_IDENTIFIED a) NS_IDENTIFIED = true.
Proof.
  apply has_true. intros Hz. apply (f_equal (fun z => Z.testbit z 15)) in Hz. rewrite Z.land_spec, Z.lor_spec in Hz. done.
Qed.

Definition identify_outcome (ok : Z -> string -> bool) d (us : User) (args : string) : Outcome :=
  match fst (strtok args " ") with
  | None => Refused
  | Some pass =>
      if (real_id us =? 0) || has (flags_of d (real_id us)) NI_SUSPENDED then Refused
      else if ok (real_id us) pass then Granted (real_id us) else WrongPassword
  end.

Lemma wp_is_oper nk n (Q : bool -> Net E -> Prop) : heap_ok (graph_of n) -> (forall b, Q b n) -> wp (is_oper nk) Q n.
Proof.
  intros Hg HQ. unfold is_oper. apply wp_bind. eapply wp_intro; [by apply finduser_det|].
  destruct (Z.eqb_spec (g_finduser (graph_of n) nk) NULL) as [E0|E0]; [apply wp_ret, HQ|].
  assert (is_Some (users_heap n !! g_finduser (graph_of n) nk)) as [us Hus] by (by apply is_Some_graph_user, g_finduser_some).
  apply wp_bind. eapply wp_load_user; [exact Hus|]. apply wp_ret, HQ.
Qed.

Lemma wp_talked_when u us n rows own n1 b text (Q : unit -> Net E -> Prop) : users_heap n !! u = Some us -> 0 <= Net.nick_id us ->
  heap_ok (graph_of n) -> talked n rows own n1 -> (forall n', talked n rows own n' -> Q tt n') ->
  wp (when b (notice_lang junk u text)) Q n1.
Proof. intros Hu Hid Hg Ht HQ. apply wp_when; intros _; [by eapply notice_talks|by apply HQ]. Qed.

Lemma wp_talked_status n rows own n1 i (Q : Z -> Net E -> Prop) : talked n rows own n1 -> 0 < i ->
  (forall s n', talked n rows own n' -> Q s n') -> wp (get_nick_status junk i) Q n1.
Proof. intros (ms & Ha) Hi HQ. eapply wp_get_status; [exact Ha|exact Hi|]. intros s n' Ha' _. apply HQ. by exists ms. Qed.

Lemma wp_talked_select {A} n rows own n1 (f : DB -> A) (Q : A -> Net E -> Prop) : talked n rows own n1 ->
  Q (f ((db (ext n)){{nicks := rows}})) n1 -> wp (select f) Q n1.
Proof. intros (ms & Ha) HQ. eapply wp_select; [exact Ha|exact HQ]. Qed.

Lemma identified_now_spec n u us n1 rows own r : heap_ok (graph_of n) -> users_heap n !! u = Some us -> 0 <= Net.nick_id us ->
  0 < real_id us -> rows !! real_id us = Some r -> exact n rows own n1 ->
  wp (identified_now junk u us) (fun _ => talked (said [Cmd (Some ServerName) ("SVSMODE " +:+ nick us +:+ " :+R")] n) rows own) n1.
Proof.
  intros Hg Hu Hid Hi Hr Ha. set (n0 := said _ n). unfold identified_now. apply wp_bind, wp_modify.
  assert (Ht : talked n0 rows own (n1{{out ::= cons (Cmd (Some ServerName) ("SVSMODE " +:+ nick us +:+ " :+R"))}})).
  { apply talked_from. by apply at_out. }
  assert (Hu0 : users_heap n0 !! u = Some us) by done. assert (Hg0 : heap_ok (graph_of n0)) by done.
  clear Ha. revert Ht. generalize (n1{{out ::= cons (Cmd (Some ServerName) ("SVSMODE " +:+ nick us +:+ " :+R"))}}).
  clear n1. clearbody n0. intros n1 Ht.
  apply wp_bind. eapply notice_talks; [exact Hu0|exact Hid|exact Hg0|exact Ht|]. clear n1 Ht. intros n1 Ht.
  apply wp_bind, wp_is_oper. { destruct Ht as [ms Ha]. by rewrite (at_graph _ _ _ _ (at_base _ _ _ _ _ Ha)). }
  intros b. apply wp_bind. eapply wp_talked_select; [exact Ht|].
  apply wp_bind. eapply wp_talked_when; [exact Hu0|exact Hid|exact Hg0|exact Ht|]. clear n1 Ht. intros n1 Ht.
  apply wp_bind. eapply wp_talked_select; [exact Ht|]. simpl. rewrite Hr. simpl.
  apply wp_bind. eapply wp_talked_when; [exact Hu0|exact Hid|exact Hg0|exact Ht|]. clear n1 Ht. intros n1 Ht.
  apply wp_bind. eapply wp_talked_status; [exact Ht|exact Hi|]. clear n1 Ht. intros s n1 Ht.
  apply wp_bind. apply (wp_mono _ (fun _ => talked n0 rows own)).
  { apply wp_when; intros _; [|done]. eapply wp_talks; [apply memos_talk|exact Hu0|exact Hg0|exact Ht|done]. }
  clear n1 Ht. intros [] n1 Ht. apply wp_bind. eapply wp_talked_status; [exact Ht|exact Hi|]. clear n1 Ht. intros s' n1 Ht.
  apply wp_bind. eapply wp_talked_select; [exact Ht|].
  apply wp_bind. apply (wp_mono _ (fun _ => talked n0 rows own)).
  { apply wp_when; intros _; [|done]. apply wp_bind. eapply wp_talked_select; [exact Ht|]. simpl. rewrite Hr. simpl.
    apply wp_when; intros _; [|done]. apply wp_modify. by eapply talked_more. }
  clear n1 Ht. intros [] n1 Ht. eapply wp_talks; [apply joins_talk|exact Hu0|exact Hg0|exact Ht|done].
Qed.


(** *** Reclaiming a nick *)

(** Who may act as the owner of a nick. *)
Definition owner (ok : Z -> string -> bool) d (us : User) (pass : option string) (i : Z) : bool :=
  match pass with
  | Some pass => ok i pass
  | None => negb (has (flags_of d i) NI_SECURE) && listed d us i
  end.

Definition grant (ok : Z -> string -> bool) d (us : User) (pass : option string) (i : Z) : Outcome :=
  if owner ok d us pass i then Granted i else if pass then WrongPassword else Refused.

Lemma as_owner_spec n u us n1 pass i (act : M (Net E) unit) (Q : unit -> Net E -> Prop) : ready n u us ->
  exact n (nicks (db (ext n))) (owned n) n1 ->
  (forall n', match grant (right_password pass_ok n) (db (ext n)) us pass i with
              | Refused => told n us n'
              | WrongPassword => badly "ACCESS_DENIED" n u us n'
              | Granted _ => False
              end -> Q tt n') ->
  (owner (right_password pass_ok n) (db (ext n)) us pass i = true -> wp act Q n1) -> wp (as_owner junk pass_ok u pass i act) Q n1.
Proof.
  intros Hrd Ha HQ Hact. unfold as_owner, grant in *. destruct pass as [pass|]; simpl in *.
  - apply wp_bind. eapply wp_password; [exact pass_tables|exact Ha|]. destruct (right_password pass_ok n i pass); simpl; [by apply Hact|].
    eapply wp_badly; [exact Hrd|exact Ha|]. auto.
  - pose proof Hrd as [_ _ Hu _ _ _]. apply wp_bind. eapply wp_select; [exact Ha|].
    replace ((db (ext n)){{nicks := nicks (db (ext n))}}) with (db (ext n)) by by destruct (db (ext n)). fold (flags_of (db (ext n)) i).
    apply wp_bind. destruct (has (flags_of (db (ext n)) i) NI_SECURE); simpl in *.
    + apply wp_ret. eapply wp_tell; [exact Hrd|exact Ha|]. auto.
    + eapply wp_on_access; [exact Ha|exact Hu|]. destruct (listed (db (ext n)) us i); [by apply Hact|].
      eapply wp_tell; [exact Hrd|exact Ha|]. auto.
Qed.

(** The nick of another user, and who that is. *)
Definition against_outcome (ok : Z -> string -> bool) n (us : User) (args : string) : Outcome :=
  let '(nk, rest) := strtok args " " in
  match nk with
  | None => Refused
  | Some nk =>
      match users_heap n !! g_finduser (graph_of n) nk with
      | None => Refused
      | Some us2 =>
          if (real_id us2 =? 0) || (irc_stricmp nk (nick us) =? 0) then Refused
          else grant ok (db (ext n)) us (fst (strtok rest " ")) (real_id us2)
      end
  end.

Lemma against_spec n u us args syntax self (act : string -> option string -> Z -> M (Net E) unit) (Q : unit -> Net E -> Prop) : ready n u us ->
  (forall n', told n us n' -> against_outcome (right_password pass_ok n) n us args = Refused -> Q tt n') ->
  (forall nk rest us2, strtok args " " = (Some nk, rest) -> users_heap n !! g_finduser (graph_of n) nk = Some us2 ->
     g_finduser (graph_of n) nk <> NULL -> real_id us2 <> 0 -> irc_stricmp nk (nick us) <> 0 ->
     against_outcome (right_password pass_ok n) n us args =
       grant (right_password pass_ok n) (db (ext n)) us (fst (strtok rest " ")) (real_id us2) ->
     wp (act nk (fst (strtok rest " ")) (real_id us2)) Q n) ->
  wp (against junk u args syntax self act) Q n.
Proof.
  intros Hrd Hno Hgo. pose proof Hrd as [Ha Hg Hu _ _ _]. unfold against, against_outcome in *. destruct (strtok args " ") as [nk rest].
  assert (Hsay : forall text, (forall n', told n us n' -> Q tt n') -> wp (notice_lang junk u text) Q n) by (intros; by eapply wp_tell).
  destruct nk as [nk|]; [|apply Hsay; auto]. apply wp_bind. eapply wp_intro; [apply finduser_det, Hg|].
  destruct (Z.eqb_spec (g_finduser (graph_of n) nk) NULL) as [E0|E0].
  { apply Hsay. rewrite E0 in Hno. destruct (users_heap n !! NULL) as [x|] eqn:Hx; [|auto].
    destruct (ho_addr _ (proj1 Hg) NULL) as [Hlt _]; [|done]. left. apply is_Some_graph_user. by rewrite Hx. }
  assert (is_Some (users_heap n !! g_finduser (graph_of n) nk)) as [us2 Hu2] by (by apply is_Some_graph_user, g_finduser_some).
  rewrite Hu2 in *. apply wp_bind. eapply wp_load_user; [exact Hu2|]. apply wp_bind. eapply wp_load_user; [exact Hu|].
  destruct (Z.eqb_spec (real_id us2) 0) as [E1|E1]; [apply Hsay; auto|].
  destruct (Z.eqb_spec (irc_stricmp nk (nick us)) 0) as [E2|E2]; [apply Hsay; auto|]. by eapply Hgo.
Qed.

(** Whoever is known by a nick bears it. *)
Definition bearers_ok n : Prop := forall p us2, users_heap n !! p = Some us2 -> real_id us2 <> 0 ->
  0 <= Net.nick_id us2 /\ exists r, nicks (db (ext n)) !! real_id us2 = Some r /\ g_finduser (graph_of n) (n_nick r) = p.

Definition recovered n (us : User) (i : Z) n' : Prop := exists r us2 text,
  nicks (db (ext n)) !! i = Some r /\ users_heap n !! g_finduser (graph_of n) (n_nick r) = Some us2 /\ real_id us2 = i /\
  exact (said (Notice s_NickServ (nick us) text :: forced_off r us2 (owned n)) n) (alter (or_status NS_GUESTED) i (nicks (db (ext n))))
    (with_guest (without i TO_COLLIDE (owned n))) n'.

(** C18: RECOVER renames the user of another nick to the next guest nick exactly if
    the password of that nick is given, or none and the caller's host is on the
    access list of a nick that is not SECURE; a pending removal is called off, and
    no timer that is pending is a freed one.  Otherwise there is a notice, and a
    wrong password counts. *)
Theorem do_recover_correct n u us args (Hrd : ready n u us) (Hok : timers_ok (owned n)) (Hb : bearers_ok n) :
  wp (do_recover junk pass_ok u args) (fun _ n' =>
    match against_outcome (right_password pass_ok n) n us args with
    | Refused => told n us n'
    | WrongPassword => badly "ACCESS_DENIED" n u us n'
    | Granted i => recovered n us i n' /\ timers_ok (owned n')
    end) n.
Proof.
  pose proof Hrd as [Ha Hg Hu Hnk [Hid Hri] Hreg]. unfold do_recover. eapply against_spec; [exact Hrd|by intros n' Ht ->|].
  intros nk rest us2 Hst Hu2 Hnn Hr2 Hself ->. destruct (Hb _ _ Hu2 Hr2) as (Hid2 & r & Hr & Hf). rewrite <- Hf in Hu2, Hnn.
  eapply as_owner_spec; [exact Hrd|exact Ha|intros n' Hn'; by destruct (grant _ _ _ _ _)|]. intros Ho. unfold grant. rewrite Ho.
  apply wp_bind. eapply collide_spec; [exact Ha|exact Hok|apply Hg|apply (reg_ids _ Hreg); by eexists|exact Hr|exact Hu2|exact Hnn|exact Hid2|].
  intros n1 Ha1. eapply wp_notice_at; [exact Ha1|exact Hu|apply Hg|exact Hid|]. intros n' Ha'. split.
  - exists r, us2, ("NICK_RECOVERED " +:+ nk). split_and!; [exact Hr|exact Hu2|done|]. apply (at_tables _ _ _ _ _ _ Ha'); done.
  - eapply timers_ok_at; [exact Ha'|]. destruct (timers_ok_without (owned n) (real_id us2) TO_COLLIDE Hok). by split.
Qed.

(** *** RELEASE *)
Definition release_outcome (ok : Z -> string -> bool) d (us : User) (args : string) : Outcome :=
  let '(nk, rest) := strtok args " " in
  match nk with
  | None => Refused
  | Some nk =>
      let i := default 0 (nick_named d nk) in
      if (i =? 0) || negb (has (row_status (nicks d) i) NS_KILL_HELD) then Refused
      else grant ok d us (fst (strtok rest " ")) i
  end.

Definition released n (us : User) (i : Z) n' : Prop := exists r text,
  nicks (db (ext n)) !! i = Some r /\
  exact (said [Notice s_NickServ (nick us) text; Cmd (Some (n_nick r)) "QUIT"] n) (alter (clear_status NS_KILL_HELD) i (nicks (db (ext n))))
    (without i TO_RELEASE (owned n)) n'.

(** RELEASE makes the enforcer leave a nick that it holds, for the owner alone:
    the nick is no longer held, its timer is called off, and no timer that is
    pending is a freed one.  Otherwise there is a notice, and a wrong password
    counts. *)
Theorem do_release_correct n u us args (Hrd : ready n u us) (Hok : timers_ok (owned n)) :
  wp (do_release junk pass_ok u args) (fun _ n' =>
    match release_outcome (right_password pass_ok n) (db (ext n)) us args with
    | Refused => told n us n'
    | WrongPassword => badly "ACCESS_DENIED" n u us n'
    | Granted i => released n us i n' /\ timers_ok (owned n') /\ row_status (nicks (db (ext n'))) i .& NS_KILL_HELD = 0
    end) n.
Proof.
  pose proof Hrd as [Ha Hg Hu Hnk [Hid Hri] Hreg]. set (d := db (ext n)) in *. unfold do_release, release_outcome.
  destruct (strtok args " ") as [nk rest].
  assert (Hsay : forall n1 text, exact n (nicks d) (owned n) n1 -> wp (notice_lang junk u text) (fun _ n' => told n us n') n1).
  { intros n1 text H1'. by eapply wp_tell. }
  destruct nk as [nk|]; [|by apply Hsay]. apply wp_bind. eapply wp_select; [exact Ha|].
  replace ((db (ext n)){{nicks := nicks d}}) with d by by unfold d; destruct (db (ext n)).
  set (i := default 0 (nick_named d nk)). destruct (Z.eqb_spec i 0) as [E0|E0]; [by apply Hsay|].
  assert (is_Some (nicks d !! i)) as [r Hr].
  { unfold i in *. destruct (nick_named d nk) as [j|] eqn:En; [|done]. by apply (reg_named _ Hreg nk). }
  apply wp_bind. eapply wp_get_status; [exact Ha|by apply (reg_ids _ Hreg)|]. intros s n1 Ha1 Hs. rewrite (Hs I). simpl orb.
  destruct (has (row_status (nicks d) i) NS_KILL_HELD); simpl; [|by apply Hsay].
  eapply as_owner_spec; [exact Hrd|exact Ha1|intros n' Hn'; fold d in Hn'; by destruct (grant _ _ _ _ _)|]. intros Ho. fold d in Ho. unfold grant. rewrite Ho.
  unfold release. apply wp_bind, wp_bind. eapply wp_nick_name; [exact Ha1|exact Hr|]. apply wp_bind. simpl when.
  eapply wp_del_timeout; [exact Ha1|exact Hok|]. intros n2 Ha2. apply wp_bind, wp_modify.
  eapply wp_remove_status; [apply at_out, Ha2|apply (reg_ids _ Hreg); by eexists|]. intros n3 Ha3.
  eapply wp_notice_at; [exact Ha3|exact Hu|apply Hg|exact Hid|]. intros n' Ha'.
  assert (Hex : exact (said [Notice s_NickServ (nick us) "NICK_RELEASED"; Cmd (Some (n_nick r)) "QUIT"] n)
    (alter (clear_status NS_KILL_HELD) i (nicks d)) (without i TO_RELEASE (owned n)) n').
  { apply (at_tables _ _ _ _ _ _ (at_weaken _ _ (fun _ => True) _ _ _ (fun _ _ => or_introl I) Ha')); done. }
  split_and!.
  - exists r, "NICK_RELEASED"%string. by split.
  - eapply timers_ok_at; [exact Hex|]. by apply timers_ok_without.
  - rewrite (at_rows _ _ _ _ (at_base _ _ _ _ _ Hex)). unfold row_status. rewrite lookup_alter_eq, Hr. simpl.
    by rewrite Z.land_comm, Z.land_assoc.
Qed.

(** *** GHOST *)
Definition ghosted n (us us2 : User) (nk : string) n' : Prop :=
  graph_of n' = g_free_user (g_finduser (graph_of n) nk) (g_leave_all (g_finduser (graph_of n) nk) (chans us2) (graph_of n)).

(** The owner, and nobody else, has the user of the nick killed, if what the rest of
    Services does for a user who goes keeps the cache near the table. *)
Lemma do_ghost_correct n u us args nk rest us2 : ready n u us -> strtok args " " = (Some nk, rest) ->
  users_heap n !! g_finduser (graph_of n) nk = Some us2 -> no_nul nk = true -> nk <> EmptyString ->
  (forall n1 n2 reason, exact n (nicks (db (ext n))) (owned n) n1 -> kill_user (Some s_NickServ) nk reason n1 = Some (tt, n2) ->
     near n2 /\ users_heap n2 !! u = Some us) ->
  wp (do_ghost junk pass_ok u args) (fun _ n' =>
    match against_outcome (right_password pass_ok n) n us args with
    | Refused => told n us n'
    | WrongPassword => badly "ACCESS_DENIED" n u us n'
    | Granted _ => ghosted n us us2 nk n'
    end) n.
Proof.
  intros Hrd Hst Hu2 Hnul Hne Hkill. pose proof Hrd as [Ha Hg Hu Hnk [Hid Hri] Hreg]. unfold do_ghost.
  eapply against_spec; [exact Hrd|by intros n' Ht ->|].
  intros nk' rest' us2' Hst' Hu2' Hnn Hr2 Hself ->. rewrite Hst in Hst'. injection Hst' as <- <-.
  rewrite Hu2 in Hu2'. injection Hu2' as <-.
  eapply as_owner_spec; [exact Hrd|exact Ha|intros n' Hn'; by destruct (grant _ _ _ _ _)|]. intros Ho. unfold grant. rewrite Ho.
  apply wp_bind. eapply wp_load_user; [exact Hu|]. apply wp_bind.
  assert (Hw : wp (kill_user (Some s_NickServ) nk (trunc (NICKMAX + 32) ("GHOST command used by " +:+ nick us))) (fun _ n2 =>
    ghosted n us us2 nk n2) n).
  { unfold kill_user. rewrite (proj2 (String.eqb_neq nk EmptyString)) by done. apply wp_bind, wp_modify. unfold do_kill. apply wp_bind.
    eapply wp_intro; [apply finduser_det, Hg|]. change (g_finduser (graph_of _) nk) with (g_finduser (graph_of n) nk).
    rewrite (proj2 (Z.eqb_neq _ _) Hnn). match goal with |- wp _ _ ?n3 => exact (user_gone_steps n3 _ us2 _ Hg Hu2) end. }
  apply wp_run in Hw as ([] & n2 & Hrun & Hgr). eapply wp_intro; [exact Hrun|]. destruct (Hkill _ _ _ Ha Hrun) as [Hn2 Hu2'].
  eapply wp_notice; [by apply near_at|exact Hu2'| |exact Hid|].
  - intros ->. destruct (ho_addr _ (proj1 Hg) NULL) as [Hlt _]; [|done]. left. apply is_Some_graph_user. by rewrite Hu.
  - intros n' Ha'. unfold ghosted. rewrite (at_graph _ _ _ _ (at_base _ _ _ _ _ Ha')). exact Hgr.
Qed.

(** *** STATUS tells 3 for an identified user, 2 for a recognized one, 1 for another
    one, and 0 for a nick nobody bears; at most 16 nicks are answered. *)
Definition digit_of n (nk : string) : string :=
  match users_heap n !! g_finduser (graph_of n) nk with
  | None => "0"
  | Some us2 =>
      let s := if real_id us2 =? 0 then 0 else row_status (nicks (db (ext n))) (real_id us2) in
      if has s NS_IDENTIFIED then "3" else if has s (NS_IDENTIFIED .| NS_RECOGNIZED) then "2" else "1"
  end.

Fixpoint words (k : nat) (args : string) : list string :=
  match k with
  | O => []
  | S k => let '(nk, rest) := strtok args " " in match nk with Some nk => nk :: words k rest | None => [] end
  end.

Lemma status_digit_spec n ms n1 nk (Q : string -> Net E -> Prop) : heap_ok (graph_of n) ->
  (forall p us2, users_heap n !! p = Some us2 -> 0 <= real_id us2) -> exact (said ms n) (nicks (db (ext n))) (owned n) n1 ->
  (forall n', exact (said ms n) (nicks (db (ext n))) (owned n) n' -> Q (digit_of n nk) n') -> wp (status_digit junk nk) Q n1.
Proof.
  intros Hg Hids Ha HQ. unfold status_digit, digit_of in *. apply wp_bind. eapply wp_intro; [by eapply at_finduser|].
  simpl. change (graph_of (said ms n)) with (graph_of n). destruct (Z.eqb_spec (g_finduser (graph_of n) nk) NULL) as [E0|E0].
  { apply wp_ret. rewrite E0 in HQ. destruct (users_heap n !! NULL) as [x|] eqn:Hx; [|by apply HQ].
    destruct (ho_addr _ Hg NULL) as [Hlt _]; [|done]. left. apply is_Some_graph_user. by rewrite Hx. }
  assert (is_Some (users_heap n !! g_finduser (graph_of n) nk)) as [us2 Hu2] by (by apply is_Some_graph_user, g_finduser_some).
  rewrite Hu2 in HQ. unfold nick_identified, nick_recognized. apply wp_bind, wp_bind. eapply wp_at_load; [exact Ha|exact Hu2|].
  destruct (Z.eqb_spec (real_id us2) 0) as [E1|E1].
  - apply wp_ret. apply wp_bind, wp_bind. eapply wp_at_load; [exact Ha|exact Hu2|]. rewrite (proj2 (Z.eqb_eq _ _) E1).
    apply wp_ret, wp_ret. by apply HQ.
  - pose proof (Hids _ _ Hu2). apply wp_bind. eapply wp_get_status; [exact Ha|lia|]. intros s n2 Ha2 Hs. rewrite (Hs I). apply wp_ret.
    destruct (has (row_status _ _) NS_IDENTIFIED); [by apply wp_ret, HQ|].
    apply wp_bind, wp_bind. eapply wp_at_load; [exact Ha2|exact Hu2|]. rewrite (proj2 (Z.eqb_neq _ _) E1).
    apply wp_bind. eapply wp_get_status; [exact Ha2|lia|]. intros s' n3 Ha3 Hs'. rewrite (Hs' I). by apply wp_ret, wp_ret, HQ.
Qed.

Definition status_line n (us : User) (nk : string) : Msg := Notice s_NickServ (nick us) ("STATUS " +:+ nk +:+ " " +:+ digit_of n nk).

Lemma do_status_correct n u us args : ready n u us -> (forall p us2, users_heap n !! p = Some us2 -> 0 <= real_id us2) ->
  wp (do_status junk u args) (fun _ n' =>
    exact (said (rev (map (status_line n us) (words 16 args))) n) (nicks (db (ext n))) (owned n) n') n.
Proof.
  intros [Ha Hg Hu _ _ _] Hids. unfold do_status.
  assert (Hall : forall k args ms n1, exact (said ms n) (nicks (db (ext n))) (owned n) n1 -> wp (status_loop junk k u args) (fun _ n' =>
    exact (said (rev (map (status_line n us) (words k args)) ++ ms) n) (nicks (db (ext n))) (owned n) n') n1).
  { clear args. intros k. induction k as [|k IH]; intros args ms n1 Ha1; [by apply wp_ret|]. cbn [status_loop words].
    destruct (strtok args " ") as [[nk|] rest]; [|by apply wp_ret]. apply wp_bind.
    eapply status_digit_spec; [apply Hg|exact Hids|exact Ha1|]. intros n2 Ha2. apply wp_bind. eapply wp_at_load; [exact Ha2|exact Hu|].
    apply wp_bind, wp_modify. cbn [map rev]. rewrite <- app_assoc. apply (IH rest (status_line n us nk :: ms)).
    exact (at_out _ _ _ _ _ _ Ha2). }
  specialize (Hall 16%nat args [] n). rewrite app_nil_r in Hall. apply Hall. apply (at_tables _ _ _ _ _ _ Ha); done.
Qed.
End CommandSpec.

(** ** Examples *)
Module Witness.
Import Registry NickLinks.Witness.

Definition ok (e : E) (i : Z) (pass : string) : bool := (i =? 7) && String.eqb pass "sesame".

Lemma ok_keeps e e' i p : db e = db e' -> ok e i p = ok e' i p.
Proof. done. Qed.

Lemma ret_talks u : only_talks (E := E) u (mret tt).
Proof. intros n us rows own n1 _ _ Ha. apply wp_ret. by apply talked_from. Qed.

Definition net r timers : Net E := Registry.net r [] (data timers).

Lemma hosts_ready p us r hosts timers : users_heap (net r timers) !! p = Some us -> no_nul (nick us) = true -> 0 <= Net.nick_id us /\ 0 <= real_id us ->
  ready (Registry.net r hosts (data timers)) p us.
Proof.
  intros Hu Hnk Hid. split; [|apply Demo.net_ok|exact Hu|exact Hnk|exact Hid|].
  - split; [split; try done|]. exists ∅. split; [exact Cache.Witness.cache_holds|]. split; [intros i|intros i _]; intros e He; by rewrite lookup_empty in He.
  - split.
    + intros i [r' Hr]. change (nicks (db (ext (Registry.net r hosts (data timers))))) with ({[7 := r]} : gmap Z NickRow) in Hr.
      apply lookup_singleton_Some in Hr as [<- _]. lia.
    + intros nm i. change (nick_named (db (ext (Registry.net r hosts (data timers)))) nm) with (if same_text nm "alice" then Some 7 else None).
      case_match; intros [= <-]. exists r. apply lookup_singleton_eq.
Qed.

Lemma alice_ready r timers : ready (net r timers) 1 alice.
Proof. apply (hosts_ready 1 alice r [] timers); [reflexivity|reflexivity|split; vm_compute; discriminate]. Qed.


(** bob, who has the password, takes her nick back. *)
Lemma do_recover_correct_witness : exists n', do_recover junk ok 3 "alice sesame" (net (alice_row 0 0) [(7, TO_COLLIDE)]) = Some (tt, n') /\
  length (out n') = 3%nat /\ ns_timers (owned n') = [].
Proof.
  set (n := net (alice_row 0 0) [(7, TO_COLLIDE)]).
  assert (Hb : bearers_ok n).
  { intros p us2 Hp Hr. change (users_heap n) with (<[1 := alice]> (users_heap Demo.net)) in Hp.
    apply lookup_insert_Some in Hp as [[<- <-]|[_ Hp]].
    - split; [vm_compute; discriminate|]. exists (alice_row 0 0). split; [apply lookup_singleton_eq|vm_compute; reflexivity].
    - exfalso. apply Hr. change (users_heap Demo.net) with (<[3 := Demo.bob]> ({[1 := Demo.alice]} : gmap ptr User)) in Hp.
      apply lookup_insert_Some in Hp as [[_ <-]|[_ [_ <-]%lookup_singleton_Some]]; reflexivity. }
  assert (Hrd : ready n 3 Demo.bob) by (apply (hosts_ready 3 Demo.bob (alice_row 0 0) [] [(7, TO_COLLIDE)]); [reflexivity|reflexivity|split; vm_compute; discriminate]).
  pose proof (do_recover_correct junk ok ok_keeps n 3 Demo.bob "alice sesame" Hrd pending_ok Hb) as Hw.
  apply wp_run in Hw as ([] & n' & Hrun & Hw). exists n'. split; [exact Hrun|].
  assert (Ho : against_outcome (right_password ok n) n Demo.bob "alice sesame" = Granted 7) by (vm_compute; reflexivity).
  rewrite Ho in Hw. destruct Hw as [(r & us2 & text & _ & _ & _ & Hb' & _) _]. split.
  - by rewrite (at_sent _ _ _ _ Hb').
  - etransitivity; [exact (f_equal ns_timers (at_own _ _ _ _ Hb'))|]. vm_compute. reflexivity.
Defined.

(** The enforcer lets it go. *)
Lemma do_release_correct_witness : exists n', do_release junk ok 3 "alice sesame" (net (alice_row NS_KILL_HELD 0) [(7, TO_COLLIDE)]) = Some (tt, n') /\
  row_status (nicks (db (ext n'))) 7 = 0 /\ length (out n') = 2%nat.
Proof.
  set (n := net (alice_row NS_KILL_HELD 0) [(7, TO_COLLIDE)]).
  assert (Hrd : ready n 3 Demo.bob) by (apply (hosts_ready 3 Demo.bob (alice_row NS_KILL_HELD 0) [] [(7, TO_COLLIDE)]); [reflexivity|reflexivity|split; vm_compute; discriminate]).
  pose proof (do_release_correct junk ok ok_keeps n 3 Demo.bob "alice sesame" Hrd pending_ok) as Hw.
  apply wp_run in Hw as ([] & n' & Hrun & Hw). exists n'. split; [exact Hrun|].
  assert (Ho : release_outcome (right_password ok n) (db (ext n)) Demo.bob "alice sesame" = Granted 7) by (vm_compute; reflexivity).
  rewrite Ho in Hw. destruct Hw as [(r & text & _ & Hb' & _) _]. split.
  - rewrite (at_rows _ _ _ _ Hb'). vm_compute. reflexivity.
  - by rewrite (at_sent _ _ _ _ Hb').
Defined.
End Witness.
