(* ===== verification/NickSet.v ===== *)
(** NickServ's options of a nick: SET ([src/nickserv.c]). *)

From S2P Require Import Prelude CStr NumTime Wp Graph Net Masks Interfaces Part Channels Users Table Query ChanDB ChanServ CsAccess Cache OperDB NickServ NickLinks NickCmds.

Definition NI_PRIVATE : Z := 0x40.
Definition NI_HIDE_EMAIL : Z := 0x80.
Definition NI_HIDE_QUIT : Z := 0x200.
Definition NI_MARKED : Z := 0x2000.
Definition NI_NOSENDPASS : Z := 0x4000.
Definition NI_AUTOJOIN : Z := 0x8000.
Definition PASSMAX : nat := 41.
Definition SALTMAX : nat := 17.
Definition NUM_LANGS : Z := 12.

(** Configuration, and [langlist] of [src/language.c]: -1 behind the last language. *)
Class NickSetConf := { NSSecureAdmins : bool; WallSetpass : bool; DefaultCloak : string; langlist : Z -> Z }.

(** The columns of [nick] that nothing here reads: [url], and [pass] with [salt],
    which [pass = SHA1 (..)] sets. *)
Class NickColumns (E : Type) `{!ChanDB E} `{!NickStore E} := {
  set_url : Z -> string -> E -> E;
  set_pass : Z -> string -> string -> E -> E;
  db_set_url i s e : db (set_url i s e) = db e;
  db_set_pass i p s e : db (set_pass i p s e) = db e;
  part_set_url i s e : part (S := NickData) (set_url i s e) = part e;
  part_set_pass i p s e : part (S := NickData) (set_pass i p s e) = part e
}.

Section NickSet.
Context `{Conf} `{NickConf} `{NickSetConf} `{OperConf} `{MySQL} {E : Type} `{!ChanDB E} `{!NickStore E} `{!NickColumns E} `{!Part OperDB E}.
Context `{!Interfaces.NickServ E}.
(** What [malloc] returns, [mysql_real_escape_string], [strptime] with [mktime], and
    what [rand] returns. *)
Context (junk : nickcache) (escape : string -> string) (read_time : string -> option Z) (rnd : nat -> Z).
Implicit Types (n : Net E) (u : ptr) (d : DB).

#[local] Notation notice u text := (notice_lang junk u text).

(** A name for a message. *)
Definition nick_text (nick_id : Z) : M (Net E) string := nk ← get_nick_from_id nick_id; mret (default "(null)"%string nk).

Definition on_off (u : ptr) (param syntax : string) (on off : M (Net E) unit) : M (Net E) unit :=
  if stricmp param "ON" =? 0 then on else if stricmp param "OFF" =? 0 then off else notice u syntax.

(** *** PASSWORD *)
Definition nick_is_services_admin (nick_id : Z) : M (Net E) bool :=
  if nick_id =? 0 then mret false
  else
    link_id ← mysql_getlink nick_id;
    nk ← get_nick_from_id nick_id;
    link_nick ← get_nick_from_id link_id;
    match nk, link_nick with
    | Some nk, Some link_nick =>
        if (stricmp nk ServicesRoot =? 0) || (stricmp link_nick ServicesRoot =? 0) then mret true
        else gets (fun n => let t := admin (owned (S := OperDB) n) in bool_decide (nick_id ∈ t) || bool_decide (link_id ∈ t))
    | _, _ => fault                                 (* stricmp (NULL, ..) *)
    end.

(** [strcasecmp (a, b) == 0] *)
Definition same_nocase (a b : string) : bool := String.eqb (strlower a) (strlower b).

(** For the password of a nick: [channame] is NULL. *)
Definition validate_password (u : ptr) (pass : string) : M (Net E) bool :=
  us ← load_user u;
  let name := match username us with String "~" s => s | s => s end in
  if same_nocase pass (nick us) then notice u "BAD_PASS_NICK_NAME";; mret false
  else if same_nocase pass name then notice u "BAD_PASS_USERNAME";; mret false
  else if same_nocase pass (realname us) then notice u "BAD_PASS_REALNAME";; mret false
  else
    listed ← (if Net.nick_id us =? 0 then mret false
              else select (fun d => existsb (fun kv => ((kv.1 =? Net.nick_id us) || (n_link kv.2 =? Net.nick_id us)) &&
                                                       same_text (n_nick kv.2) pass) (map_to_list (nicks d))));
    if listed : bool then notice u "BAD_PASS_NICK_OR_LINK";; mret false else mret true.

Definition store_password (u : ptr) (nick_id : Z) (nk esc_pass : string) : M (Net E) unit :=
  when (PASSMAX - 1 <? String.length esc_pass)%nat (notice u ("PASSWORD_TRUNCATED " +:+ show_int (Z.of_nat (PASSMAX - 1))));;
  let pass := trunc PASSMAX esc_pass in
  notice u ("NICK_SET_PASSWORD_CHANGED_TO " +:+ pass);;
  us ← load_user u;
  when (negb (real_id us =? nick_id) && WallSetpass)
    (wallops (Some s_NickServ) (BOLD +:+ nick us +:+ BOLD +:+ " used SET PASSWORD as Services admin on " +:+ BOLD +:+ nk +:+ BOLD));;
  match make_random_string (repeat NUL SALTMAX) SALTMAX rnd with
  | None => fault
  | Some salt => modify (fun n => n{{ext ::= set_pass nick_id pass (string_of_list_ascii (take (SALTMAX - 1) salt))}})
  end.

Definition do_set_password (u : ptr) (nick_id : Z) (param : string) : M (Net E) unit :=
  let esc_pass := escape param in
  ni ← get_nickinfo_from_id nick_id;
  us ← load_user u;
  secured ← (if NSSecureAdmins && negb (real_id us =? nick_id) then
               root ← is_services_root u; if root : bool then mret false else nick_is_services_admin nick_id
             else mret false);
  if secured : bool then notice u "PERMISSION_DENIED"
  else
    match ni with
    | None => fault                                 (* [ni] is not set *)
    | Some r =>
        marked ← (if has (n_flags r) NI_MARKED then
                    root ← is_services_root u;
                    if root : bool then mret false else admin ← Interfaces.is_services_admin u; mret (negb admin)
                  else mret false);
        if marked : bool then notice u ("NICK_X_MARKED " +:+ n_nick r)
        else
          good ← validate_password u esc_pass;
          if negb good then notice u "MORE_OBSCURE_PASSWORD" else store_password u nick_id (n_nick r) esc_pass
    end.

(** *** The columns of a nick *)
Definition do_set_language (u : ptr) (nick_id : Z) (param : string) : M (Net E) unit :=
  if (strspn param "0123456789" <? String.length param)%nat then notice u "NICK_SET_LANGUAGE_SYNTAX"
  else
    let langnum := wrap32 (atoi param - 1) in
    if (langnum <? 0) || (NUM_LANGS <=? langnum) || (langlist langnum <? 0) then
      notice u ("NICK_SET_LANGUAGE_UNKNOWN " +:+ show_int (wrap32 (langnum + 1)))
    else
      let l := langlist langnum in
      update_nick nick_id (fun r => r{{n_language := l}});;
      cached junk (fun sql now junk => nickcache_set_language sql now junk nick_id l);;
      notice u "NICK_SET_LANGUAGE_CHANGED".

Definition do_set_url (u : ptr) (nick_id : Z) (param : option string) : M (Net E) unit :=
  modify (fun n => n{{ext ::= set_url nick_id (default EmptyString param)}});;
  notice u (match param with Some p => "NICK_SET_URL_CHANGED " +:+ p | None => "NICK_SET_URL_UNSET" end).

Definition do_set_email (u : ptr) (nick_id : Z) (param : option string) : M (Net E) unit :=
  email ← select (fun d => n_email <$> nicks d !! nick_id);
  let current_email := default EmptyString email in
  let unchanged := when (negb (String.eqb current_email EmptyString)) (notice u ("NICK_SET_EMAIL_UNCHANGED " +:+ current_email)) in
  match param with
  | Some p =>
      if negb (validate_email p) then notice u ("BAD_EMAIL " +:+ p);; unchanged
      else update_nick nick_id (fun r => r{{n_email := trunc 256 p}});; notice u ("NICK_SET_EMAIL_CHANGED " +:+ p)
  | None => notice u "NICK_SET_EMAIL_MANDATORY";; unchanged
  end.

(** The name in the reply is that of the user's own nick. *)
Definition do_set_cloakstring (u : ptr) (nick_id : Z) (param : string) : M (Net E) unit :=
  update_nick nick_id (fun r => r{{n_cloak := trunc 256 param}});;
  us ← load_user u;
  nk ← nick_text (Net.nick_id us);
  notice u ("NICK_SET_CLOAKSTRING " +:+ nk +:+ " " +:+ param).

(** *** Flags *)
Definition do_set_enforce (u : ptr) (nick_id : Z) (param : string) : M (Net E) unit :=
  if stricmp param "ON" =? 0 then
    add_nick_flags nick_id NI_ENFORCE;; remove_nick_flags nick_id NI_ENFORCEQUICK;; notice u "NICK_SET_ENFORCE_ON"
  else if stricmp param "QUICK" =? 0 then
    add_nick_flags nick_id (NI_ENFORCE .| NI_ENFORCEQUICK);; notice u "NICK_SET_ENFORCE_QUICK"
  else if stricmp param "OFF" =? 0 then
    remove_nick_flags nick_id (NI_ENFORCE .| NI_ENFORCEQUICK);; notice u "NICK_SET_ENFORCE_OFF"
  else notice u "NICK_SET_ENFORCE_SYNTAX".

(** An option that is a flag, and whose replies may name the nick. *)
Definition set_flag_option (u : ptr) (nick_id flag : Z) (option : string) (named : bool) (param : string) : M (Net E) unit :=
  nk ← (if named then nk ← nick_text nick_id; mret (" " +:+ nk) else mret EmptyString);
  on_off u param ("NICK_SET_" +:+ option +:+ "_SYNTAX")
    (add_nick_flags nick_id flag;; notice u ("NICK_SET_" +:+ option +:+ "_ON" +:+ nk))
    (remove_nick_flags nick_id flag;; notice u ("NICK_SET_" +:+ option +:+ "_OFF" +:+ nk)).

Definition do_set_secure (u : ptr) (nick_id : Z) (param : string) := set_flag_option u nick_id NI_SECURE "SECURE" false param.
Definition do_set_private (u : ptr) (nick_id : Z) (param : string) := set_flag_option u nick_id NI_PRIVATE "PRIVATE" false param.
Definition do_set_noop (u : ptr) (nick_id : Z) (param : string) := set_flag_option u nick_id NI_NOOP "NOOP" true param.
Definition do_set_autojoin (u : ptr) (nick_id : Z) (param : string) := set_flag_option u nick_id NI_AUTOJOIN "AUTOJOIN" true param.

Definition hide_flag (param : string) : option (Z * string) :=
  if stricmp param "EMAIL" =? 0 then Some (NI_HIDE_EMAIL, "HIDE_EMAIL"%string)
  else if stricmp param "USERMASK" =? 0 then Some (NI_HIDE_MASK, "HIDE_MASK"%string)
  else if stricmp param "QUIT" =? 0 then Some (NI_HIDE_QUIT, "HIDE_QUIT"%string)
  else None.

Definition do_set_hide (u : ptr) (nick_id : Z) (param rest : string) : M (Net E) unit :=
  match hide_flag param, fst (strtok rest " ") with
  | Some (flag, option), Some param =>
      on_off u param "NICK_SET_HIDE_SYNTAX"
        (add_nick_flags nick_id flag;; notice u ("NICK_SET_" +:+ option +:+ "_ON"))
        (remove_nick_flags nick_id flag;; notice u ("NICK_SET_" +:+ option +:+ "_OFF"))
  | _, _ => notice u "NICK_SET_HIDE_SYNTAX"
  end.

Definition do_set_cloak (u : ptr) (nick_id : Z) (param : string) : M (Net E) unit :=
  nk ← nick_text nick_id;
  cloak ← get_cloak_from_id nick_id;
  on_off u param "NICK_SET_CLOAK_SYNTAX"
    (admin ← Interfaces.is_services_admin u;
     if negb admin then notice u "ACCESS_DENIED"
     else
       add_nick_flags nick_id NI_CLOAK;;
       when (String.eqb (default EmptyString cloak) EmptyString)
         (do_set_cloakstring u nick_id (trunc 511 (nk +:+ "." +:+ DefaultCloak)));;
       notice u ("NICK_SET_CLOAK_ON " +:+ nk))
    (remove_nick_flags nick_id NI_CLOAK;; notice u ("NICK_SET_CLOAK_OFF " +:+ nk)).

Definition do_set_noexpire (u : ptr) (nick_id : Z) (param : string) : M (Net E) unit :=
  admin ← Interfaces.is_services_admin u;
  if negb admin then notice u "PERMISSION_DENIED"
  else
    nk ← nick_text nick_id;
    us ← load_user u;
    on_off u param "NICK_SET_NOEXPIRE_SYNTAX"
      (add_nick_status junk nick_id NS_NO_EXPIRE;; notice u ("NICK_SET_NOEXPIRE_ON " +:+ nk);;
       wallops (Some s_NickServ) (nick us +:+ " set NOEXPIRE ON for " +:+ nk))
      (remove_nick_status junk nick_id NS_NO_EXPIRE;; notice u ("NICK_SET_NOEXPIRE_OFF " +:+ nk);;
       wallops (Some s_NickServ) (nick us +:+ " set NOEXPIRE OFF for " +:+ nk)).

Definition do_set_ircop (u : ptr) (nick_id : Z) (param : string) : M (Net E) unit :=
  us ← load_user u;
  oper ← is_oper (nick us);
  allowed ← (if oper : bool then mret true else Interfaces.is_services_admin u);
  if negb allowed then notice u "ACCESS_DENIED"
  else
    on_off u param "NICK_SET_IRCOP_SYNTAX"
      (email ← get_email_from_id nick_id;
       match email with
       | None => fault
       | Some EmptyString => notice u "NEED_EMAIL SET IRCOP ON"
       | Some _ => nk ← nick_text nick_id; add_nick_flags nick_id NI_IRCOP;; notice u ("NICK_SET_IRCOP_ON " +:+ nk)
       end)
      (nk ← nick_text nick_id; remove_nick_flags nick_id NI_IRCOP;; notice u ("NICK_SET_IRCOP_OFF " +:+ nk)).

Definition do_set_mark (u : ptr) (nick_id : Z) (param : string) : M (Net E) unit :=
  admin ← Interfaces.is_services_admin u;
  if negb admin then notice u "ACCESS_DENIED" else set_flag_option u nick_id NI_MARKED "MARK" true param.

(** [UPDATE nick SET regtime=..]: there is no such column. *)
Definition do_set_regtime (u : ptr) (nick_id : Z) (param : string) : M (Net E) unit :=
  admin ← Interfaces.is_services_admin u;
  if negb admin then notice u "ACCESS_DENIED"
  else
    t ← gets now;
    match read_time param with
    | None => notice u "NICK_SET_REGTIME_SYNTAX"
    | Some regtime => if (regtime =? -1) || (t <=? regtime) then notice u "NICK_SET_REGTIME_SYNTAX" else fault
    end.

Definition do_set_sendpass (u : ptr) (nick_id : Z) (param : string) : M (Net E) unit :=
  nk ← nick_text nick_id;
  on_off u param "NICK_SET_SENDPASS_SYNTAX"
    (remove_nick_flags nick_id NI_NOSENDPASS;; notice u ("NICK_SET_SENDPASS_ON " +:+ nk))
    (add_nick_flags nick_id NI_NOSENDPASS;; notice u ("NICK_SET_SENDPASS_OFF " +:+ nk)).

(** *** SET *)
Definition run_option (u : ptr) (is_servadmin set_nick : bool) (nick_id : Z) (cmd : string) (param : option string) (rest : string)
    : M (Net E) unit :=
  us ← load_user u;
  let own := if set_nick then nick_id else real_id us in
  let p := default EmptyString param in
  let asks s := stricmp cmd s =? 0 in
  if asks "PASSWORD" || asks "PASS" then do_set_password u own p
  else if asks "LANGUAGE" then do_set_language u nick_id p
  else if asks "URL" then do_set_url u own param
  else if asks "EMAIL" then do_set_email u own param
  else if asks "CLOAKSTRING" then if negb is_servadmin then notice u "PERMISSION_DENIED" else do_set_cloakstring u own p
  else if asks "ENFORCE" then do_set_enforce u nick_id p
  else if asks "SECURE" then do_set_secure u nick_id p
  else if asks "PRIVATE" then do_set_private u nick_id p
  else if asks "HIDE" then do_set_hide u nick_id p rest
  else if asks "CLOAK" then do_set_cloak u nick_id p
  else if asks "NOEXPIRE" then do_set_noexpire u nick_id p
  else if asks "NOOP" then do_set_noop u nick_id p
  else if asks "IRCOP" then do_set_ircop u nick_id p
  else if asks "MARK" then do_set_mark u nick_id p
  else if asks "REGTIME" then do_set_regtime u nick_id p
  else if asks "SENDPASS" then do_set_sendpass u nick_id p
  else if asks "AUTOJOIN" then do_set_autojoin u nick_id p
  else notice u ((if is_servadmin then "NICK_SET_UNKNOWN_OPTION_OR_BAD_NICK " else "NICK_SET_UNKNOWN_OPTION ") +:+ strupper cmd).

(** With the words sorted out. *)
Definition set_asked (u : ptr) (is_servadmin set_nick : bool) (nick_id : Z) (nk : string) (cmd param : option string) (rest : string)
    : M (Net E) unit :=
  match cmd with
  | None => notice u (if is_servadmin then "NICK_SET_SERVADMIN_SYNTAX" else "NICK_SET_SYNTAX")
  | Some c =>
      if bool_decide (param = None) && negb (stricmp c "URL" =? 0) && negb (stricmp c "EMAIL" =? 0)
      then notice u (if is_servadmin then "NICK_SET_SERVADMIN_SYNTAX" else "NICK_SET_SYNTAX")
      else if nick_id =? 0 then notice u "NICK_NOT_REGISTERED"
      else
        s ← get_nick_status junk nick_id;
        if has s NS_VERBOTEN then notice u ("NICK_X_FORBIDDEN " +:+ nk)
        else
          ident ← (if is_servadmin then mret true else nick_identified junk u);
          if negb ident then notice u "NICK_IDENTIFY_REQUIRED"
          else run_option u is_servadmin set_nick nick_id c param rest
  end.

Definition do_set (u : ptr) (args : string) : M (Net E) unit :=
  let '(cmd, rest) := strtok args " " in
  let '(param, rest) := strtok rest " " in
  us ← load_user u;
  is_servadmin ← Interfaces.is_services_admin u;
  named ← (match cmd with Some c => if is_servadmin : bool then mysql_findnick c else mret 0 | None => mret 0 end);
  if negb (named =? 0) then
    nk ← nick_text named;
    let '(cmd, param, rest) := (param, fst (strtok rest " "), snd (strtok rest " ")) in
    (match cmd with
     | Some c => wallops (Some s_NickServ) (nick us +:+ " issued command " +:+ s_NickServ +:+ " SET " +:+ c +:+
                   (match param with Some p => " " +:+ p | None => EmptyString end) +:+ " on nick " +:+ nk +:+ " as services admin")
     | None => mret tt
     end);;
    set_asked u is_servadmin true named nk cmd param rest
  else
    nk ← nick_text (Net.nick_id us);
    set_asked u is_servadmin false (Net.nick_id us) nk cmd param rest.
End NickSet.

(** ** What an option does to the row of a nick *)
Section SetTable.
Context `{NickSetConf}.
Implicit Types (d : DB) (us : User).

Definition raise_flag (f : Z) (r : NickRow) : NickRow := r{{n_flags ::= Z.lor f}}.
Definition clear_flag (f : Z) (r : NickRow) : NickRow := r{{n_flags ::= Z.land (Z.lnot f)}}.

Definition by_param {A} (param : string) (on off : option A) : option A :=
  if stricmp param "ON" =? 0 then on else if stricmp param "OFF" =? 0 then off else None.
Definition flag_change (f : Z) (param : string) : option (NickRow -> NickRow) :=
  by_param param (Some (raise_flag f)) (Some (clear_flag f)).

Definition language_change (param : string) : option (NickRow -> NickRow) :=
  if (strspn param "0123456789" <? String.length param)%nat then None
  else
    let langnum := wrap32 (atoi param - 1) in
    if (langnum <? 0) || (NUM_LANGS <=? langnum) || (langlist langnum <? 0) then None
    else Some (fun r => r{{n_language := langlist langnum}}).

Definition email_change (param : option string) : option (NickRow -> NickRow) :=
  match param with Some p => if validate_email p then Some (fun r => r{{n_email := trunc 256 p}}) else None | None => None end.

Definition cloakstring_change (param : string) (r : NickRow) : NickRow := r{{n_cloak := trunc 256 param}}.

Definition enforce_change (param : string) : option (NickRow -> NickRow) :=
  if stricmp param "ON" =? 0 then Some (fun r => clear_flag NI_ENFORCEQUICK (raise_flag NI_ENFORCE r))
  else if stricmp param "QUICK" =? 0 then Some (raise_flag (NI_ENFORCE .| NI_ENFORCEQUICK))
  else if stricmp param "OFF" =? 0 then Some (clear_flag (NI_ENFORCE .| NI_ENFORCEQUICK))
  else None.

Definition hide_change (param rest : string) : option (NickRow -> NickRow) :=
  match hide_flag param, fst (strtok rest " ") with Some (f, _), Some p => flag_change f p | _, _ => None end.

(** Where there is no string of its own, the nick's name makes one. *)
Definition cloaked (r : NickRow) : NickRow :=
  let r' := raise_flag NI_CLOAK r in
  if String.eqb (n_cloak r) EmptyString then cloakstring_change (trunc 511 (n_nick r +:+ "." +:+ DefaultCloak)) r' else r'.
Definition cloak_change (admin : bool) (param : string) : option (NickRow -> NickRow) :=
  by_param param (if admin then Some cloaked else None) (Some (clear_flag NI_CLOAK)).

Definition noexpire_change (admin : bool) (param : string) : option (NickRow -> NickRow) :=
  if admin then by_param param (Some (or_status NS_NO_EXPIRE)) (Some (clear_status NS_NO_EXPIRE)) else None.

Definition set_ircop (r : NickRow) : NickRow := if String.eqb (n_email r) EmptyString then r else raise_flag NI_IRCOP r.
Definition ircop_change (allowed : bool) (param : string) : option (NickRow -> NickRow) :=
  if allowed then by_param param (Some set_ircop) (Some (clear_flag NI_IRCOP)) else None.

(** The row that changes and how. *)
Definition option_change (admin oper : bool) us (set_nick : bool) (nick_id : Z) (cmd : string) (param : option string) (rest : string)
    : option (Z * (NickRow -> NickRow)) :=
  let own := if set_nick then nick_id else real_id us in
  let p := default EmptyString param in
  let asks s := stricmp cmd s =? 0 in
  if asks "PASSWORD" || asks "PASS" then None
  else if asks "LANGUAGE" then pair nick_id <$> language_change p
  else if asks "URL" then None
  else if asks "EMAIL" then pair own <$> email_change param
  else if asks "CLOAKSTRING" then if admin then Some (own, cloakstring_change p) else None
  else if asks "ENFORCE" then pair nick_id <$> enforce_change p
  else if asks "SECURE" then pair nick_id <$> flag_change NI_SECURE p
  else if asks "PRIVATE" then pair nick_id <$> flag_change NI_PRIVATE p
  else if asks "HIDE" then pair nick_id <$> hide_change p rest
  else if asks "CLOAK" then pair nick_id <$> cloak_change admin p
  else if asks "NOEXPIRE" then pair nick_id <$> noexpire_change admin p
  else if asks "NOOP" then pair nick_id <$> flag_change NI_NOOP p
  else if asks "IRCOP" then pair nick_id <$> ircop_change (oper || admin) p
  else if asks "MARK" then if admin then pair nick_id <$> flag_change NI_MARKED p else None
  else if asks "REGTIME" then None
  else if asks "SENDPASS" then pair nick_id <$> by_param p (Some (clear_flag NI_NOSENDPASS)) (Some (raise_flag NI_NOSENDPASS))
  else if asks "AUTOJOIN" then pair nick_id <$> flag_change NI_AUTOJOIN p
  else None.

(** What SET is asked: whether an administrator named another nick, which nick, the
    option and its argument. *)
Definition set_words d (admin : bool) us (args : string) : bool * Z * option string * option string * string :=
  let '(cmd, rest) := strtok args " " in
  let '(param, rest) := strtok rest " " in
  let named := match cmd with Some c => if admin then default 0 (nick_named d c) else 0 | None => 0 end in
  if named =? 0 then (false, Net.nick_id us, cmd, param, rest)
  else (true, named, param, fst (strtok rest " "), snd (strtok rest " ")).

Definition words_change d (admin oper : bool) us (words : bool * Z * option string * option string * string) : option (Z * (NickRow -> NickRow)) :=
  let '(set_nick, nick_id, cmd, param, rest) := words in
  match cmd with
  | Some c =>
      if (bool_decide (param = None) && negb (stricmp c "URL" =? 0) && negb (stricmp c "EMAIL" =? 0)) || (nick_id =? 0) ||
         has (row_status (nicks d) nick_id) NS_VERBOTEN || negb (admin || identified_in d us) then None
      else option_change admin oper us set_nick nick_id c param rest
  | None => None
  end.

Definition set_change d (admin oper : bool) us (args : string) : option (Z * (NickRow -> NickRow)) :=
  words_change d admin oper us (set_words d admin us args).

Definition changed (c : option (Z * (NickRow -> NickRow))) (rows : gmap Z NickRow) : gmap Z NickRow :=
  match c with Some (i, f) => alter f i rows | None => rows end.

(** *** Who may change what *)

(** What an option leaves as it was unless an administrator, or for the third an
    IRC operator, asks. *)
Record modest (admin oper : bool) (r r' : NickRow) : Prop := {
  md_status : admin = false -> n_status r' = n_status r;
  md_mark : admin = false -> Z.land NI_MARKED (n_flags r') = Z.land NI_MARKED (n_flags r);
  md_ircop : admin = false -> oper = false -> Z.land NI_IRCOP (n_flags r') = Z.land NI_IRCOP (n_flags r);
  md_cloak : admin = false -> n_cloak r' = n_cloak r /\ (has (n_flags r') NI_CLOAK = true -> has (n_flags r) NI_CLOAK = true);
  md_suspended : Z.land NI_SUSPENDED (n_flags r') = Z.land NI_SUSPENDED (n_flags r);
  md_rest : n_nick r' = n_nick r /\ n_link r' = n_link r /\ n_id_stamp r' = n_id_stamp r /\
    n_usermask r' = n_usermask r /\ n_last_seen r' = n_last_seen r /\ n_channelmax r' = n_channelmax r
}.

Lemma keep_lor k f a : Z.land k f = 0 -> Z.land k (Z.lor f a) = Z.land k a.
Proof. intros Hf. by rewrite Z.land_lor_distr_r, Hf. Qed.

Lemma keep_clear k f a : Z.land k f = 0 -> Z.land k (Z.land (Z.lnot f) a) = Z.land k a.
Proof.
  intros Hf. apply Z.bits_inj'. intros j Hj. apply (f_equal (fun z => Z.testbit z j)) in Hf. rewrite Z.bits_0 in Hf.
  rewrite !Z.land_spec in *. rewrite Z.lnot_spec by done. destruct (Z.testbit k j), (Z.testbit f j), (Z.testbit a j); done.
Qed.

Lemma has_land a f : has a f = negb (Z.land f a =? 0).
Proof. unfold has. by rewrite Z.land_comm. Qed.

Lemma modest_set admin oper f r : Z.land NI_SUSPENDED f = 0 ->
  (admin = false -> Z.land NI_MARKED f = 0 /\ Z.land NI_CLOAK f = 0 /\ (oper = false -> Z.land NI_IRCOP f = 0)) ->
  modest admin oper r (raise_flag f r).
Proof.
  intros Hs Hf. split; simpl; try done.
  - intros Ha. by apply keep_lor, Hf.
  - intros Ha Ho. by apply keep_lor, Hf.
  - intros Ha. split; [done|]. rewrite !has_land, keep_lor by by apply Hf. done.
  - by apply keep_lor.
Qed.

Lemma modest_clear admin oper f r : Z.land NI_SUSPENDED f = 0 ->
  (admin = false -> Z.land NI_MARKED f = 0 /\ (oper = false -> Z.land NI_IRCOP f = 0)) -> modest admin oper r (clear_flag f r).
Proof.
  intros Hs Hf. split; simpl; try done.
  - intros Ha. by apply keep_clear, Hf.
  - intros Ha Ho. by apply keep_clear, Hf.
  - intros Ha. split; [done|]. rewrite !has_land. intros Hc. apply negb_true_iff, Z.eqb_neq in Hc. apply negb_true_iff, Z.eqb_neq.
    intros H0. apply Hc. rewrite (Z.land_comm _ (n_flags r)), Z.land_assoc, H0. apply Z.land_0_l.
  - by apply keep_clear.
Qed.

Lemma modest_trans admin oper r1 r2 r3 : modest admin oper r1 r2 -> modest admin oper r2 r3 -> modest admin oper r1 r3.
Proof.
  intros [S1 M1 I1 C1 P1 R1] [S2 M2 I2 C2 P2 R2]. split.
  - intros Ha. by rewrite S2, S1.
  - intros Ha. by rewrite M2, M1.
  - intros Ha Ho. by rewrite I2, I1.
  - intros Ha. destruct (C1 Ha) as [E1 H1], (C2 Ha) as [E2 H2]. split; [congruence|auto].
  - by rewrite P2, P1.
  - destruct R1 as (?&?&?&?&?&?), R2 as (?&?&?&?&?&?). split_and!; congruence.
Qed.

Lemma modest_refl admin oper r : modest admin oper r r.
Proof. by split. Qed.

Ltac modest_flags := intros; first [apply modest_set | apply modest_clear]; [reflexivity|intros; subst; split_and?; intros; subst; first [reflexivity|discriminate]].

Lemma by_param_some {A} param (on off : option A) f : by_param param on off = Some f -> on = Some f \/ off = Some f.
Proof. unfold by_param. destruct (_ =? 0); [by left|]. destruct (_ =? 0); [by right|done]. Qed.

Lemma flag_change_modest admin oper k p f r : Z.land k (NI_SUSPENDED .| NI_MARKED .| NI_CLOAK .| NI_IRCOP) = 0 ->
  flag_change k p = Some f -> modest admin oper r (f r).
Proof.
  intros Hk Hf.
  assert (Hbit : forall b, Z.land b (NI_SUSPENDED .| NI_MARKED .| NI_CLOAK .| NI_IRCOP) = b -> Z.land b k = 0).
  { intros b <-. by rewrite <- Z.land_assoc, (Z.land_comm _ k), Hk, Z.land_0_r. }
  apply by_param_some in Hf as [[= <-]|[= <-]].
  - apply modest_set; [by apply Hbit|]. intros _. split_and!; [..|intros _]; by apply Hbit.
  - apply modest_clear; [by apply Hbit|]. intros _. split; [|intros _]; by apply Hbit.
Qed.

(** An option all of whose changes are modest. *)
Definition modest_option (admin oper : bool) (o : option (NickRow -> NickRow)) : Prop := forall f r, o = Some f -> modest admin oper r (f r).

Lemma modest_none admin oper : modest_option admin oper None.
Proof. done. Qed.

Lemma modest_flag admin oper k p : Z.land k (NI_SUSPENDED .| NI_MARKED .| NI_CLOAK .| NI_IRCOP) = 0 -> modest_option admin oper (flag_change k p).
Proof. intros Hk f r. by apply flag_change_modest. Qed.

Lemma modest_language admin oper p : modest_option admin oper (language_change p).
Proof. intros f r. unfold language_change. destruct (_ <? _)%nat; [done|]. destruct (_ || _); [done|]. by intros [= <-]. Qed.

Lemma modest_email admin oper param : modest_option admin oper (email_change param).
Proof. intros f r. unfold email_change. destruct param as [p|]; [|done]. destruct (validate_email p); [|done]. by intros [= <-]. Qed.

Lemma modest_enforce admin oper p : modest_option admin oper (enforce_change p).
Proof.
  intros f r. unfold enforce_change. destruct (_ =? 0); [|destruct (_ =? 0); [|destruct (_ =? 0); [|done]]]; intros [= <-].
  - eapply modest_trans; [|modest_flags]. modest_flags.
  - modest_flags.
  - modest_flags.
Qed.

Lemma modest_hide admin oper p rest : modest_option admin oper (hide_change p rest).
Proof.
  intros f r. unfold hide_change, hide_flag. destruct (fst _) as [p'|]; [|by repeat case_match].
  repeat (destruct (_ =? 0); [by apply flag_change_modest|]). done.
Qed.

Lemma modest_cloakstring oper p r : modest true oper r (cloakstring_change p r).
Proof. by split. Qed.

Lemma modest_cloak admin oper p : modest_option admin oper (cloak_change admin p).
Proof.
  intros f r [Hf|Hf]%by_param_some; [|injection Hf as <-; modest_flags]. destruct admin; [|done]. injection Hf as <-. unfold cloaked.
  destruct (String.eqb _ _); [eapply modest_trans; [|apply modest_cloakstring]|]; modest_flags.
Qed.

Lemma modest_noexpire admin oper p : modest_option admin oper (noexpire_change admin p).
Proof. intros f r. unfold noexpire_change. destruct admin; [|done]. by intros [[= <-]|[= <-]]%by_param_some. Qed.

Lemma modest_ircop admin oper p : modest_option admin oper (ircop_change (oper || admin) p).
Proof.
  intros f r. unfold ircop_change. destruct (oper || admin) eqn:Ea; [|done].
  intros [[= <-]|[= <-]]%by_param_some; [unfold set_ircop; destruct (String.eqb _ _); [apply modest_refl|]|];
    first [apply modest_set|apply modest_clear]; try reflexivity; intros ->; split_and?; try reflexivity; intros ->; discriminate Ea.
Qed.

Lemma modest_mark admin oper p : modest_option admin oper (if admin then flag_change NI_MARKED p else None).
Proof. intros f r. destruct admin; [|done]. by intros [[= <-]|[= <-]]%by_param_some; modest_flags. Qed.

Lemma modest_sendpass admin oper p : modest_option admin oper (by_param p (Some (clear_flag NI_NOSENDPASS)) (Some (raise_flag NI_NOSENDPASS))).
Proof. intros f r [[= <-]|[= <-]]%by_param_some; modest_flags. Qed.

Create HintDb options.
#[local] Hint Resolve modest_none modest_flag modest_language modest_email modest_enforce modest_hide modest_cloak modest_noexpire
  modest_ircop modest_mark modest_sendpass : options.

Lemma option_change_modest admin oper us set_nick i cmd param rest j f r :
  option_change admin oper us set_nick i cmd param rest = Some (j, f) ->
  modest admin oper r (f r) /\ (j = i \/ j = if set_nick then i else real_id us).
Proof.
  assert (Hone : forall o k, modest_option admin oper o -> k = i \/ k = (if set_nick then i else real_id us) -> pair k <$> o = Some (j, f) ->
    modest admin oper r (f r) /\ (j = i \/ j = if set_nick then i else real_id us)).
  { intros [g|] k Hg Hk; [|done]. intros [= <- <-]. split; [by apply Hg|done]. }
  unfold option_change.
  repeat match goal with |- (if stricmp cmd ?s =? 0 then _ else _) = _ -> _ => destruct (stricmp cmd s =? 0) | |- (if _ || _ then _ else _) = _ -> _ => destruct (_ || _) end;
    try (apply Hone; [auto with options|auto]; fail); try done.
  all: destruct admin; try done.
  - intros [= <- <-]. split; [apply modest_cloakstring|by right].
  - apply Hone; [|by left]. apply (modest_mark true).
Qed.
End SetTable.

(** ** What the options do *)
Section SetSpec.
Context `{Conf} `{NickConf} `{NickSetConf} `{OperConf} `{MySQL} {E : Type} `{!ChanDB E} `{!NickStore E} `{!NickColumns E} `{!Part OperDB E}.
Context `{!Interfaces.NickServ E}.
Context (junk : nickcache) (escape : string -> string) (read_time : string -> option Z) (rnd : nat -> Z).
Context (n : Net E) (u : ptr) (us : User) (Hrd : ready n u us).
Implicit Types (rows : gmap Z NickRow).

#[local] Notation d := (db (ext n)).

(** Only the nicks have changed, to [rows], and messages were sent. *)
#[local] Notation now_is rows := (talked n rows (owned n)).

Definition with_change (c : option (NickRow -> NickRow)) (i : Z) rows : gmap Z NickRow := match c with Some f => alter f i rows | None => rows end.

Lemma wp_say rows n1 text (Q : unit -> Net E -> Prop) : now_is rows n1 -> (forall n', now_is rows n' -> Q tt n') -> wp (notice_lang junk u text) Q n1.
Proof. destruct Hrd as [_ Hg Hu _ [Hid _] _]. intros Ha HQ. eapply notice_talks; [exact Hu|exact Hid|apply Hg|exact Ha|exact HQ]. Qed.

Lemma wp_say_when rows n1 b text (Q : unit -> Net E -> Prop) : now_is rows n1 -> (forall n', now_is rows n' -> Q tt n') ->
  wp (when b (notice_lang junk u text)) Q n1.
Proof. intros Ha HQ. apply wp_when; intros _; [by eapply wp_say|by apply HQ]. Qed.

Lemma wp_know {A} rows n1 (f : DB -> A) (Q : A -> Net E -> Prop) : now_is rows n1 -> Q (f (d{{nicks := rows}})) n1 -> wp (select f) Q n1.
Proof. apply wp_talked_select. Qed.

Lemma wp_me rows n1 (Q : User -> Net E -> Prop) : now_is rows n1 -> Q us n1 -> wp (load_user u) Q n1.
Proof. intros (ms & Ha) HQ. eapply wp_at_load; [exact Ha|apply Hrd|exact HQ]. Qed.

Lemma wp_change_row rows n1 i f (Q : unit -> Net E -> Prop) : now_is rows n1 -> (forall r, n_status (f r) = n_status r) ->
  (forall n', now_is (alter f i rows) n' -> Q tt n') -> wp (update_nick i f) Q n1.
Proof. intros (ms & Ha) Hf HQ. eapply wp_update_row; [exact Ha|exact Hf|]. intros n' Ha'. apply HQ. by exists ms. Qed.

Lemma wp_tell_all rows n1 text (Q : unit -> Net E -> Prop) : now_is rows n1 -> (forall n', now_is rows n' -> Q tt n') ->
  wp (wallops (Some s_NickServ) text) Q n1.
Proof. intros Ha HQ. apply wp_modify, HQ. by eapply talked_more. Qed.

(** A column the model does not keep. *)
Lemma wp_column_apart rows n1 (g : E -> E) (Q : unit -> Net E -> Prop) : now_is rows n1 -> (forall e, db (g e) = db e) ->
  (forall e, part (S := NickData) (g e) = part e) -> (forall n', now_is rows n' -> Q tt n') -> wp (modify (fun n => n{{ext ::= g}})) Q n1.
Proof.
  intros (ms & [Hb (m & Hc & Hm)]) Hd Hp HQ. apply wp_modify, HQ. exists ms.
  assert (Ho : owned (S := NickData) (n1{{ext ::= g}}) = owned n1) by apply Hp. destruct Hb as [Hb1 Hb2 Hb3 Hb4 Hb5 Hb6]. split.
  - split; try done; [by rewrite <- Hb4; apply Hd|by rewrite Ho].
  - exists m. by rewrite Ho.
Qed.

(** What Services know of the user's privileges while a command runs. *)
Definition answers {A} (m : M (Net E) A) (a : A) : Prop := forall n1, now_is (nicks d) n1 -> wp m (fun b n' => b = a /\ now_is (nicks d) n') n1.

Lemma wp_answers {A} (m : M (Net E) A) a n1 (Q : A -> Net E -> Prop) : answers m a -> now_is (nicks d) n1 ->
  (forall n', now_is (nicks d) n' -> Q a n') -> wp m Q n1.
Proof. intros Hm Ha HQ. eapply wp_mono; [by apply Hm|]. intros b n' [-> Ha']. by apply HQ. Qed.

Context (admin root : bool) (Hadmin : answers (Interfaces.is_services_admin u) admin) (Hroot : answers (is_services_root u) root).

Lemma wp_nick_text i rows n1 (Q : string -> Net E -> Prop) : now_is rows n1 ->
  Q (default "(null)"%string (n_nick <$> rows !! i)) n1 -> wp (nick_text i) Q n1.
Proof. intros Ha HQ. unfold nick_text. apply wp_bind. eapply wp_know; [exact Ha|]. by apply wp_ret. Qed.

Lemma on_off_spec param syntax on off c1 c2 i n1 : now_is (nicks d) n1 ->
  wp on (fun _ => now_is (with_change c1 i (nicks d))) n1 -> wp off (fun _ => now_is (with_change c2 i (nicks d))) n1 ->
  wp (on_off junk u param syntax on off) (fun _ => now_is (with_change (by_param param c1 c2) i (nicks d))) n1.
Proof.
  intros Ha Hon Hoff. unfold on_off, by_param. destruct (_ =? 0); [exact Hon|]. destruct (_ =? 0); [exact Hoff|]. by eapply wp_say.
Qed.

Lemma set_flag_spec i f n1 (k : M (Net E) unit) : now_is (nicks d) n1 ->
  (forall n', now_is (with_change (Some (raise_flag f)) i (nicks d)) n' -> wp k (fun _ => now_is (with_change (Some (raise_flag f)) i (nicks d))) n') ->
  wp (add_nick_flags i f;; k) (fun _ => now_is (with_change (Some (raise_flag f)) i (nicks d))) n1.
Proof. intros Ha Hk. apply wp_bind. by eapply wp_change_row. Qed.

Lemma clear_flag_spec i f n1 (k : M (Net E) unit) : now_is (nicks d) n1 ->
  (forall n', now_is (with_change (Some (clear_flag f)) i (nicks d)) n' -> wp k (fun _ => now_is (with_change (Some (clear_flag f)) i (nicks d))) n') ->
  wp (remove_nick_flags i f;; k) (fun _ => now_is (with_change (Some (clear_flag f)) i (nicks d))) n1.
Proof. intros Ha Hk. apply wp_bind. by eapply wp_change_row. Qed.

Lemma flag_option_spec i f option named param n1 : now_is (nicks d) n1 ->
  wp (set_flag_option junk u i f option named param) (fun _ => now_is (with_change (flag_change f param) i (nicks d))) n1.
Proof.
  intros Ha. unfold set_flag_option, flag_change. apply wp_bind. apply (wp_mono _ (fun _ => now_is (nicks d))).
  { destruct named; [|by apply wp_ret]. apply wp_bind. eapply wp_nick_text; [exact Ha|by apply wp_ret]. }
  intros nk n2 Ha2. apply on_off_spec; [exact Ha2|apply set_flag_spec|apply clear_flag_spec]; try exact Ha2; intros n3 Ha3; by eapply wp_say.
Qed.

Lemma enforce_spec i param n1 : now_is (nicks d) n1 -> wp (do_set_enforce junk u i param) (fun _ => now_is (with_change (enforce_change param) i (nicks d))) n1.
Proof.
  intros Ha. unfold do_set_enforce, enforce_change. destruct (_ =? 0).
  { apply wp_bind. eapply wp_change_row; [exact Ha|done|]. intros n2 Ha2. apply wp_bind. eapply wp_change_row; [exact Ha2|done|]. intros n3 Ha3.
    eapply wp_say; [exact Ha3|]. intros n4 Ha4. unfold with_change. rewrite alter_alter_eq in Ha4. exact Ha4. }
  destruct (_ =? 0); [apply set_flag_spec; [exact Ha|intros n2 Ha2; by eapply wp_say]|].
  destruct (_ =? 0); [apply clear_flag_spec; [exact Ha|intros n2 Ha2; by eapply wp_say]|]. by eapply wp_say.
Qed.

Lemma language_spec i param n1 : 0 < i -> now_is (nicks d) n1 -> wp (do_set_language junk u i param) (fun _ => now_is (with_change (language_change param) i (nicks d))) n1.
Proof.
  intros Hi Ha. unfold do_set_language, language_change. destruct (_ <? _)%nat; [by eapply wp_say|]. destruct (_ || _); [by eapply wp_say|].
  apply wp_bind. eapply wp_change_row; [exact Ha|done|]. intros n2 (ms & Ha2). apply wp_bind. eapply wp_cache_language; [exact Ha2|exact Hi|]. intros n3 Ha3.
  eapply wp_say; [by exists ms|]. by intros n4 Ha4.
Qed.

Lemma email_spec i param n1 : now_is (nicks d) n1 -> wp (do_set_email junk u i param) (fun _ => now_is (with_change (email_change param) i (nicks d))) n1.
Proof.
  intros Ha. unfold do_set_email, email_change. apply wp_bind. eapply wp_know; [exact Ha|]. destruct param as [p|].
  - destruct (validate_email p); simpl.
    + apply wp_bind. eapply wp_change_row; [exact Ha|done|]. intros n2 Ha2. by eapply wp_say.
    + apply wp_bind. eapply wp_say; [exact Ha|]. intros n2 Ha2. by eapply wp_say_when.
  - apply wp_bind. eapply wp_say; [exact Ha|]. intros n2 Ha2. by eapply wp_say_when.
Qed.

Lemma cloakstring_spec i param rows n1 : now_is rows n1 -> wp (do_set_cloakstring junk u i param) (fun _ => now_is (alter (cloakstring_change param) i rows)) n1.
Proof.
  intros Ha. unfold do_set_cloakstring. apply wp_bind. eapply wp_change_row; [exact Ha|done|]. intros n2 Ha2. apply wp_bind.
  eapply wp_me; [exact Ha2|]. apply wp_bind. eapply wp_nick_text; [exact Ha2|]. by eapply wp_say.
Qed.

Lemma hide_spec i param rest n1 : now_is (nicks d) n1 -> wp (do_set_hide junk u i param rest) (fun _ => now_is (with_change (hide_change param rest) i (nicks d))) n1.
Proof.
  intros Ha. unfold do_set_hide, hide_change. destruct (hide_flag param) as [[f o]|]; [|by eapply wp_say].
  destruct (fst (strtok rest " ")) as [p|]; [|by eapply wp_say].
  apply on_off_spec; [exact Ha|apply set_flag_spec|apply clear_flag_spec]; try exact Ha; intros n3 Ha3; by eapply wp_say.
Qed.

Lemma cloak_spec i param n1 : now_is (nicks d) n1 -> wp (do_set_cloak junk u i param) (fun _ => now_is (with_change (cloak_change admin param) i (nicks d))) n1.
Proof.
  intros Ha. unfold do_set_cloak, cloak_change. apply wp_bind. eapply wp_nick_text; [exact Ha|]. apply wp_bind. eapply wp_know; [exact Ha|].
  apply on_off_spec; [exact Ha| |apply clear_flag_spec; [exact Ha|intros n3 Ha3; by eapply wp_say]].
  apply wp_bind. eapply wp_answers; [exact Hadmin|exact Ha|]. intros n2 Ha2. destruct admin; simpl; [|by eapply wp_say].
  apply wp_bind. eapply wp_change_row; [exact Ha2|done|]. intros n3 Ha3. apply wp_bind.
  set (own := default EmptyString (n_cloak <$> nicks d !! i)). set (text := trunc 511 _).
  apply (wp_mono _ (fun _ => now_is (alter ((if String.eqb own EmptyString then cloakstring_change text else id) ∘ raise_flag NI_CLOAK) i (nicks d)))).
  - rewrite <- alter_alter_eq. destruct (String.eqb own EmptyString); simpl; [by apply cloakstring_spec|].
    apply wp_ret. by rewrite alter_id.
  - intros [] n4 Ha4. eapply wp_say; [exact Ha4|]. intros n5 Ha5. erewrite alter_ext; [exact Ha5|]. intros r Hr. unfold own, text, cloaked.
    rewrite Hr. simpl. by destruct (String.eqb (n_cloak r) EmptyString).
Qed.

Lemma noexpire_spec i param n1 : 0 < i -> now_is (nicks d) n1 ->
  wp (do_set_noexpire junk u i param) (fun _ => now_is (with_change (noexpire_change admin param) i (nicks d))) n1.
Proof.
  intros Hi Ha. unfold do_set_noexpire, noexpire_change. apply wp_bind. eapply wp_answers; [exact Hadmin|exact Ha|]. clear n1 Ha. intros n1 Ha.
  destruct admin; simpl; [|by eapply wp_say]. apply wp_bind. eapply wp_nick_text; [exact Ha|]. apply wp_bind. eapply wp_me; [exact Ha|].
  apply on_off_spec; [exact Ha|..]; destruct Ha as (ms & Ha); apply wp_bind.
  - eapply wp_add_status; [exact Ha|exact Hi|]. intros n2 Ha2. apply wp_bind. eapply wp_say; [by exists ms|]. intros n3 Ha3. by eapply wp_tell_all.
  - eapply wp_remove_status; [exact Ha|exact Hi|]. intros n2 Ha2. apply wp_bind. eapply wp_say; [exists ms; eapply at_weaken; [|exact Ha2]; by left|].
    intros n3 Ha3. by eapply wp_tell_all.
Qed.

Lemma is_oper_knows rows n1 nk (Q : bool -> Net E -> Prop) : now_is rows n1 -> Q (oper_nick n nk) n1 -> wp (is_oper nk) Q n1.
Proof.
  intros (ms & Ha) HQ. pose proof (at_graph _ _ _ _ (at_base _ _ _ _ _ Ha)) as Hg. pose proof (at_users _ _ _ _ (at_base _ _ _ _ _ Ha)) as Hu.
  change (graph_of (said ms n)) with (graph_of n) in Hg. change (users_heap (said ms n)) with (users_heap n) in Hu.
  unfold is_oper, oper_nick in *. apply wp_bind. eapply wp_intro; [apply finduser_det; rewrite Hg; apply Hrd|]. rewrite Hg.
  assert (Hcase := rd_graph _ _ _ Hrd). destruct Hcase as [Hh _].
  destruct (Z.eqb_spec (g_finduser (graph_of n) nk) NULL) as [E0|Hne].
  - apply wp_ret. destruct (users_heap n !! g_finduser (graph_of n) nk) as [v|] eqn:Hv; [|exact HQ]. rewrite E0 in Hv.
    destruct (ho_addr _ Hh NULL) as [Hlt _]; [|done]. left. apply is_Some_graph_user. by rewrite Hv.
  - apply g_finduser_some, is_Some_graph_user in Hne as [v Hv]. rewrite Hv in HQ. apply wp_bind. eapply wp_load_user; [by rewrite Hu|]. by apply wp_ret.
Qed.

Lemma ircop_spec i param n1 : is_Some (nicks d !! i) -> now_is (nicks d) n1 ->
  wp (do_set_ircop junk u i param) (fun _ => now_is (with_change (ircop_change (oper_nick n (nick us) || admin) param) i (nicks d))) n1.
Proof.
  intros [r Hr] Ha. unfold do_set_ircop, ircop_change. apply wp_bind. eapply wp_me; [exact Ha|]. apply wp_bind. eapply is_oper_knows; [exact Ha|].
  apply wp_bind. apply (wp_mono _ (fun b n' => b = oper_nick n (nick us) || admin /\ now_is (nicks d) n')).
  { destruct (oper_nick _ _); [by apply wp_ret|]. by apply Hadmin. }
  clear n1 Ha. intros b n1 [-> Ha]. destruct (_ || _); simpl; [|by eapply wp_say].
  apply on_off_spec; [exact Ha|..].
  - apply wp_bind. eapply wp_know; [exact Ha|]. cbn [nicks]. simpl. rewrite Hr. simpl. destruct (n_email r) as [|c e] eqn:Ee.
    + eapply wp_say; [exact Ha|]. intros n2 Ha2. simpl. rewrite alter_id; [exact Ha2|]. intros r' Hr'.
      assert (r' = r) as -> by congruence. unfold set_ircop. by rewrite Ee.
    + apply wp_bind. eapply wp_nick_text; [exact Ha|]. apply wp_bind. eapply wp_change_row; [exact Ha|done|]. intros n2 Ha2.
      eapply wp_say; [exact Ha2|]. intros n3 Ha3. erewrite alter_ext; [exact Ha3|]. intros r' Hr'.
      assert (r' = r) as -> by congruence. unfold set_ircop. by rewrite Ee.
  - apply wp_bind. eapply wp_nick_text; [exact Ha|]. apply clear_flag_spec; [exact Ha|intros n3 Ha3; by eapply wp_say].
Qed.

Lemma mark_spec i param n1 : now_is (nicks d) n1 ->
  wp (do_set_mark junk u i param) (fun _ => now_is (with_change (if admin then flag_change NI_MARKED param else None) i (nicks d))) n1.
Proof.
  intros Ha. unfold do_set_mark. apply wp_bind. eapply wp_answers; [exact Hadmin|exact Ha|]. intros n2 Ha2.
  destruct admin; simpl; [by apply flag_option_spec|by eapply wp_say].
Qed.

Lemma sendpass_spec i param n1 : now_is (nicks d) n1 ->
  wp (do_set_sendpass junk u i param) (fun _ => now_is (with_change (by_param param (Some (clear_flag NI_NOSENDPASS)) (Some (raise_flag NI_NOSENDPASS))) i (nicks d))) n1.
Proof.
  intros Ha. unfold do_set_sendpass. apply wp_bind. eapply wp_nick_text; [exact Ha|].
  apply on_off_spec; [exact Ha|apply clear_flag_spec|apply set_flag_spec]; try exact Ha; intros n3 Ha3; by eapply wp_say.
Qed.

(** No time that REGTIME would write. *)
Definition no_regtime (param : string) : Prop := admin = false \/ forall t, read_time param = Some t -> t = -1 \/ now n <= t.

Lemma regtime_spec i param n1 : no_regtime param -> now_is (nicks d) n1 -> wp (do_set_regtime junk read_time u i param) (fun _ => now_is (nicks d)) n1.
Proof.
  intros Hno Ha. unfold do_set_regtime. apply wp_bind. eapply wp_answers; [exact Hadmin|exact Ha|]. intros n2 Ha2. unfold no_regtime in Hno.
  destruct admin; simpl; [|by eapply wp_say]. destruct Hno as [|Hno]; [done|]. apply wp_bind, wp_gets.
  destruct (read_time param) as [t|]; [|by eapply wp_say]. destruct Ha2 as (ms & Ha2).
  rewrite (at_now _ _ _ _ (at_base _ _ _ _ _ Ha2)). change (now (said ms n)) with (now n).
  destruct (Z.eqb_spec t (-1)), (Z.leb_spec (now n) t); simpl; try (eapply wp_say; [by exists ms|done]). destruct (Hno t eq_refl); lia.
Qed.

(** **** PASSWORD *)
Lemma make_random_loop_some buffer m i k : (i + k <= length buffer)%nat -> exists b, make_random_loop buffer m i k = Some b /\ length b = length buffer.
Proof.
  revert buffer i. induction k as [|k IH]; intros buffer i Hl; [by exists buffer|]. simpl. unfold store.
  destruct (Nat.ltb_spec i (length buffer)); [|lia]. simpl.
  destruct (IH (<[i := hd_char (str_drop (Z.to_nat (Z.rem (m i) (Z.of_nat (String.length randchartab) - 1 + 1))) randchartab)]> buffer) (S i)) as (b & Hb & Hlen);
    [rewrite length_insert; lia|]. exists b. split; [exact Hb|]. by rewrite Hlen, length_insert.
Qed.

Lemma make_random_some : exists salt, make_random_string (repeat NUL SALTMAX) SALTMAX rnd = Some salt.
Proof.
  unfold make_random_string. destruct (make_random_loop_some (repeat NUL SALTMAX) rnd 0 (SALTMAX - 1)) as (b & Hb & Hl); [by vm_compute; lia|].
  change ((SALTMAX =? 0)%nat) with false. cbv iota. rewrite Hb. simpl. unfold store. rewrite Hl. by eexists.
Qed.

Context (Hmasters : forall i r, nicks d !! i = Some r -> n_link r <> 0 -> is_Some (nicks d !! n_link r)).

Lemma nick_admin_spec i n1 (Q : bool -> Net E -> Prop) : is_Some (nicks d !! i) -> now_is (nicks d) n1 ->
  (forall b, Q b n1) -> wp (nick_is_services_admin i) Q n1.
Proof.
  intros [r Hr] Ha HQ. unfold nick_is_services_admin. destruct (i =? 0); [by apply wp_ret|]. apply wp_bind. eapply wp_know; [exact Ha|].
  cbn [nicks]. apply wp_bind. eapply wp_know; [exact Ha|]. apply wp_bind. eapply wp_know; [exact Ha|]. simpl. rewrite Hr. simpl.
  assert (is_Some (nicks d !! (if n_link r =? 0 then i else n_link r))) as [r' Hr'].
  { destruct (Z.eqb_spec (n_link r) 0); [by exists r|by eapply Hmasters]. }
  rewrite Hr'. simpl. destruct (_ || _); [by apply wp_ret|by apply wp_gets].
Qed.

Lemma validate_spec pass n1 (Q : bool -> Net E -> Prop) : now_is (nicks d) n1 -> (forall b n', now_is (nicks d) n' -> Q b n') ->
  wp (validate_password junk u pass) Q n1.
Proof.
  intros Ha HQ. unfold validate_password. apply wp_bind. eapply wp_me; [exact Ha|].
  assert (Hno : forall text n2, now_is (nicks d) n2 -> wp (notice_lang junk u text;; mret false) Q n2).
  { intros text n2 Ha2. apply wp_bind. eapply wp_say; [exact Ha2|]. intros n3 Ha3. by apply wp_ret, HQ. }
  destruct (same_nocase pass (nick us)); [by apply Hno|]. destruct (same_nocase pass _); [by apply Hno|].
  destruct (same_nocase pass (realname us)); [by apply Hno|]. apply wp_bind.
  assert (Hlast : forall b n2, now_is (nicks d) n2 -> wp (if b : bool then notice_lang junk u "BAD_PASS_NICK_OR_LINK";; mret false else mret true) Q n2).
  { intros [] n2 Ha2; [by apply Hno|by apply wp_ret, HQ]. }
  destruct (_ =? 0); [apply wp_ret; by apply (Hlast false)|]. eapply wp_know; [exact Ha|by apply Hlast].
Qed.

Lemma password_spec i param n1 : is_Some (nicks d !! i) -> now_is (nicks d) n1 ->
  wp (do_set_password junk escape rnd u i param) (fun _ => now_is (nicks d)) n1.
Proof.
  intros Hi Ha. unfold do_set_password. apply wp_bind. eapply wp_know; [exact Ha|]. apply wp_bind. eapply wp_me; [exact Ha|]. apply wp_bind.
  apply (wp_mono _ (fun _ => now_is (nicks d))).
  { destruct (_ && _); [|by apply wp_ret]. apply wp_bind. eapply wp_answers; [exact Hroot|exact Ha|]. intros n2 Ha2.
    destruct root; [by apply wp_ret|]. by eapply nick_admin_spec. }
  clear n1 Ha. intros secured n1 Ha. destruct secured; [by eapply wp_say|]. destruct Hi as [r Hr]. simpl. rewrite Hr. apply wp_bind.
  apply (wp_mono _ (fun _ => now_is (nicks d))).
  { destruct (has _ _); [|by apply wp_ret]. apply wp_bind. eapply wp_answers; [exact Hroot|exact Ha|]. intros n2 Ha2.
    destruct root; [by apply wp_ret|]. apply wp_bind. eapply wp_answers; [exact Hadmin|exact Ha2|]. intros n3 Ha3. by apply wp_ret. }
  clear n1 Ha. intros marked n1 Ha. destruct marked; [by eapply wp_say|]. apply wp_bind. eapply validate_spec; [exact Ha|].
  clear n1 Ha. intros good n1 Ha. destruct good; simpl; [|by eapply wp_say]. unfold store_password. apply wp_bind.
  eapply wp_say_when; [exact Ha|]. clear n1 Ha. intros n1 Ha. apply wp_bind. eapply wp_say; [exact Ha|]. clear n1 Ha. intros n1 Ha.
  apply wp_bind. eapply wp_me; [exact Ha|]. apply wp_bind. apply (wp_mono _ (fun _ => now_is (nicks d))).
  { apply wp_when; intros _; [by eapply wp_tell_all|done]. }
  clear n1 Ha. intros [] n1 Ha. destruct make_random_some as [salt ->]. eapply wp_column_apart; [exact Ha|..|done]; intros e; [apply db_set_pass|apply part_set_pass].
Qed.

(** **** SET *)
Lemma changed_pair o i : changed (pair i <$> o) (nicks d) = with_change o i (nicks d).
Proof. by destruct o. Qed.

Lemma branch_spec (b : bool) m1 m2 c1 c2 n1 : (b = true -> wp m1 (fun _ => now_is (changed c1 (nicks d))) n1) ->
  wp m2 (fun _ => now_is (changed c2 (nicks d))) n1 ->
  wp (if b then m1 else m2 : M (Net E) unit) (fun _ => now_is (changed (if b then c1 else c2) (nicks d))) n1.
Proof. intros Hm1 Hm2. destruct b; [by apply Hm1|exact Hm2]. Qed.

Lemma run_option_spec (set_nick : bool) i cmd param rest n1 : 0 < i -> is_Some (nicks d !! i) ->
  is_Some (nicks d !! (if set_nick then i else real_id us)) -> (stricmp cmd "REGTIME" = 0 -> no_regtime (default EmptyString param)) ->
  now_is (nicks d) n1 ->
  wp (run_option junk escape read_time rnd u admin set_nick i cmd param rest)
    (fun _ => now_is (changed (option_change admin (oper_nick n (nick us)) us set_nick i cmd param rest) (nicks d))) n1.
Proof.
  intros Hi Hrow Hown Hno Ha. unfold run_option, option_change. apply wp_bind. eapply wp_me; [exact Ha|]. cbv zeta.
  apply branch_spec; [intros _; by apply password_spec|].
  apply branch_spec; [intros _; rewrite changed_pair; by apply language_spec|].
  apply branch_spec; [intros _|].
  { apply wp_bind. eapply wp_column_apart; [exact Ha|intros e; apply db_set_url|intros e; apply part_set_url|]. intros n2 Ha2. by eapply wp_say. }
  apply branch_spec; [intros _; rewrite changed_pair; by apply email_spec|].
  apply branch_spec; [intros _; destruct admin; [by apply cloakstring_spec|by eapply wp_say]|].
  apply branch_spec; [intros _; rewrite changed_pair; by apply enforce_spec|].
  apply branch_spec; [intros _; rewrite changed_pair; by apply flag_option_spec|].
  apply branch_spec; [intros _; rewrite changed_pair; by apply flag_option_spec|].
  apply branch_spec; [intros _; rewrite changed_pair; by apply hide_spec|].
  apply branch_spec; [intros _; rewrite changed_pair; by apply cloak_spec|].
  apply branch_spec; [intros _; rewrite changed_pair; by apply noexpire_spec|].
  apply branch_spec; [intros _; rewrite changed_pair; by apply flag_option_spec|].
  apply branch_spec; [intros _; rewrite changed_pair; by apply ircop_spec|].
  apply branch_spec; [intros _|].
  { pose proof (mark_spec i (default EmptyString param) n1 Ha) as Hm. destruct admin; [rewrite changed_pair|]; exact Hm. }
  apply branch_spec; [intros Eq; apply regtime_spec; [apply Hno; lia|done]|].
  apply branch_spec; [intros _; rewrite changed_pair; by apply sendpass_spec|].
  apply branch_spec; [intros _; rewrite changed_pair; by apply flag_option_spec|]. by eapply wp_say.
Qed.

(** The nicks of the session have rows. *)
Context (Hmine : Net.nick_id us <> 0 -> is_Some (nicks d !! Net.nick_id us) /\ is_Some (nicks d !! real_id us)).

(** A time that REGTIME would write is one MySQL does not know where to put. *)
Definition good_words (words : bool * Z * option string * option string * string) : Prop :=
  match words with (_, _, Some c, Some p, _) => stricmp c "REGTIME" = 0 -> no_regtime p | _ => True end.
Definition good_set (args : string) : Prop := good_words (set_words d admin us args).

Lemma set_words_row args (set_nick : bool) i cmd param rest : set_words d admin us args = (set_nick, i, cmd, param, rest) -> i <> 0 ->
  is_Some (nicks d !! i) /\ is_Some (nicks d !! (if set_nick then i else real_id us)) /\ (set_nick = true -> admin = true) /\
  (set_nick = false -> i = Net.nick_id us).
Proof.
  unfold set_words. destruct (strtok args " ") as [c r1]. destruct (strtok r1 " ") as [p r2].
  destruct (Z.eqb_spec (match c with Some c => if admin then default 0 (nick_named d c) else 0 | None => 0 end) 0) as [E0|E0].
  - intros [= <- <- <- <- <-] Hi. destruct (Hmine Hi). done.
  - intros [= <- <- <- <- <-] _. destruct c as [c|]; [|done]. destruct admin; [|done]. destruct (nick_named d c) as [j|] eqn:Ej; [|done].
    pose proof (reg_named _ (rd_reg _ _ _ Hrd) _ _ Ej) as Hr. done.
Qed.

Lemma set_change_allowed args i f : set_change d admin (oper_nick n (nick us)) us args = Some (i, f) ->
  (admin = true \/ identified_in d us = true /\ (i = Net.nick_id us \/ i = real_id us)) /\
  forall r, modest admin (oper_nick n (nick us)) r (f r).
Proof.
  unfold set_change, words_change. destruct (set_words d admin us args) as [[[[set_nick j] cmd] param] rest] eqn:Ew. destruct cmd as [c|]; [|done].
  destruct (_ || _) eqn:Eno; [done|]. apply orb_false_iff in Eno as [[[_ Hj]%orb_false_iff _]%orb_false_iff Hid]. intros Hc.
  apply Z.eqb_neq in Hj. destruct (set_words_row _ _ _ _ _ _ Ew Hj) as (_ & _ & Hadm & Hown).
  split; [|intros r; by eapply option_change_modest]. destruct (option_change_modest _ _ _ _ _ _ _ _ _ _ (mkNickRow "" 0 0 "" "" 0 0 0 0 0 0 "" "") Hc) as [_ Hi].
  destruct admin eqn:Ea; [by left|]. right. apply negb_false_iff in Hid. split; [exact Hid|]. destruct set_nick; [by discriminate Hadm|].
  rewrite Hown in Hi by done. exact Hi.
Qed.

Lemma wp_identity n1 (Q : bool -> Net E -> Prop) : now_is (nicks d) n1 -> (forall n', now_is (nicks d) n' -> Q (identified_in d us) n') ->
  wp (nick_identified junk u) Q n1.
Proof.
  destruct Hrd as [_ _ Hu _ [_ Hid] _]. intros (ms & Ha) HQ. unfold identified_in in HQ. destruct (Z.eqb_spec (real_id us) 0) as [E0|E0].
  - unfold nick_identified. apply wp_bind. eapply wp_at_load; [exact Ha|exact Hu|]. rewrite E0. apply wp_ret, HQ. by exists ms.
  - eapply wp_identified; [exact Ha|exact Hu|lia|]. intros b n' Ha' Hb. rewrite (Hb I). apply HQ. by exists ms.
Qed.

Lemma set_asked_spec (set_nick : bool) i nk cmd param rest n1 : (i <> 0 -> is_Some (nicks d !! i) /\ is_Some (nicks d !! (if set_nick then i else real_id us))) ->
  0 <= i -> good_words (set_nick, i, cmd, param, rest) -> now_is (nicks d) n1 ->
  wp (set_asked junk escape read_time rnd u admin set_nick i nk cmd param rest)
    (fun _ => now_is (changed (words_change d admin (oper_nick n (nick us)) us (set_nick, i, cmd, param, rest)) (nicks d))) n1.
Proof.
  intros Hrow Hi Hno Ha. unfold set_asked, words_change. destruct cmd as [c|]; [|by eapply wp_say].
  destruct (bool_decide (param = None) && _ && _) eqn:Esyn; [by eapply wp_say|]. simpl.
  destruct (Z.eqb_spec i 0) as [E0|E0]; [by eapply wp_say|]. simpl. destruct (Hrow E0) as [Hi1 Hi2]. apply wp_bind. destruct Ha as (ms & Ha).
  eapply wp_get_status; [exact Ha|lia|]. clear n1 Ha. intros s n1 Ha Hs. rewrite (Hs I).
  assert (Ha' : now_is (nicks d) n1) by (by exists ms).
  destruct (has _ NS_VERBOTEN); [by eapply wp_say|]. simpl. apply wp_bind.
  apply (wp_mono _ (fun b n' => b = admin || identified_in d us /\ now_is (nicks d) n')).
  { destruct admin; [by apply wp_ret|]. by eapply wp_identity. }
  intros b n2 [-> Ha2]. destruct (admin || _); simpl; [|by eapply wp_say].
  apply run_option_spec; [lia|done|done| |exact Ha2]. intros Hreg. destruct param as [p|]; [by apply Hno|].
  exfalso. rewrite bool_decide_true in Esyn by done. apply stricmp_hd in Hreg. simpl in Esyn.
  apply andb_false_iff in Esyn as [Hc|Hc]; apply negb_false_iff, Z.eqb_eq, stricmp_hd in Hc; rewrite Hreg in Hc; discriminate Hc.
Qed.

End SetSpec.

(** ** Examples *)
Module Witness.
Import Registry.

#[local] Existing Instance OperDemo.oper_conf.
#[export] Instance setconf : NickSetConf := {
  NSSecureAdmins := true; WallSetpass := true; DefaultCloak := "user.oftc.net"; langlist l := if l <? 5 then l else -1
}.

Definition E : Type := Registry.E * OperDB.

#[export, program] Instance chandb : ChanDB E := {
  db e := db (fst e); set_db d e := (set_db d (fst e), snd e); touch := fun _ _ _ e => e; new_chan_memos := fun _ _ _ => 0; schedule_leave := fun _ e => e
}.
Solve Obligations with by intros; repeat match goal with e : E |- _ => destruct e end.
#[export, program] Instance nickpart : Part NickData E := {part e := snd (fst e); with_part s e := (with_part s (fst e), snd e)}.
Solve Obligations with by intros; repeat match goal with e : E |- _ => destruct e as [[??]?] end.
#[export, program] Instance operpart : Part OperDB E := {part := snd; with_part s e := (fst e, s)}.
Solve Obligations with by intros; repeat match goal with e : E |- _ => destruct e end.
#[export, program] Instance nickstore : NickStore E.
Solve Obligations with by intros; repeat match goal with e : E |- _ => destruct e as [[??]?] end.
#[export, program] Instance columns : NickColumns E := {set_url _ _ e := e; set_pass _ _ _ e := e}.
Solve Obligations with done.

#[export] Instance nickserv : Interfaces.NickServ E := {
  mysql_findnick := fun _ => mret 0; mysql_getlink := fun _ => mret 0; get_nick_status := fun _ => mret 0;
  set_nick_status := fun _ _ => mret tt; get_nick_flags := fun _ => mret 0; mysql_maxuser_stat := fun _ _ => mret tt;
  validate_user := fun _ => mret false; cancel_user := fun _ => mret tt; check_on_access := fun _ => mret tt;
  check_memos := fun _ => mret tt; mysql_update_last_seen := fun _ _ => mret tt; mysql_quit_row := fun _ => mret false;
  mysql_quit_store := fun _ _ _ => mret tt; is_services_admin := fun _ => mret false; nickcache_update := fun _ => mret tt;
  get_email_from_id := fun _ => mret EmptyString; get_cloak_from_id := fun _ => mret None; check_autojoins := fun _ => mret tt;
  display_news_logon := fun _ => mret tt; display_news_oper := fun _ => mret tt
}.

Definition net (flags : Z) : Net E :=
  let m := Registry.net (alice_row NS_IDENTIFIED flags) [] (data []) in
  mkNet E (users_heap m) (chans_heap m) (userlist m) (chanlist m) (next_addr m) (usercnt m) (opcnt m) (maxusercnt m) (maxusertime m)
    NULL 0 NULL 0 (lastmodes m) (now m) [] (ext m, mkOperDB [] 1 [] 1 ∅ ∅ ∅).

Definition set (args : string) : M (Net E) unit := do_set junk (fun s => s) (fun _ => None) (fun _ => 0) 1 args.

Lemma alice_set_ready flags : ready (net flags) 1 alice.
Proof.
  split; [|apply Demo.net_ok|reflexivity|reflexivity|split; vm_compute; discriminate|].
  - split; [split; try done|]. exists ∅. split; [exact Cache.Witness.cache_holds|]. split; [intros i|intros i _]; intros e He; by rewrite lookup_empty in He.
  - split.
    + intros i [r Hr]. change (nicks (db (ext (net flags)))) with ({[7 := alice_row NS_IDENTIFIED flags]} : gmap Z NickRow) in Hr.
      apply lookup_singleton_Some in Hr as [<- _]. lia.
    + intros nm i. change (nick_named (db (ext (net flags))) nm) with (if same_text nm "alice" then Some 7 else None).
      case_match; intros [= <-]. exists (alice_row NS_IDENTIFIED flags). apply lookup_singleton_eq.
Qed.

End Witness.
