(* ===== verification/NickTable.v ===== *)
(** NickServ's commands that keep one table of lists: a state in which only that
    table has changed, and messages were sent. *)

From S2P Require Import Prelude Wp Graph Net Interfaces Part Users Table ChanDB CsAccess Cache NickServ NickLinks NickCmds.

(** A column of the database, apart from the nicks. *)
Record column_of {T} (get : DB -> T) (put : T -> DB -> DB) : Prop := {
  co_get t d : get (put t d) = t;
  co_same d : put (get d) d = d;
  co_again t t' d : put t (put t' d) = put t d;
  co_aside t : aside (put t);
  co_nicks rows d : get (d{{nicks := rows}}) = get d
}.

Lemma delete_none {A} (p : A -> bool) (t : Table A) : select_where p t = [] -> delete_where p t = t.
Proof.
  destruct t as [l k]. unfold select_where, delete_where. simpl. intros Hs. f_equal. induction l as [|r l IH]; [done|].
  simpl in *. destruct (p r); simpl; [done|]. by rewrite IH.
Qed.

Lemma select_inserted {A} (p : A -> bool) f (t : Table A) : select_where p (insert_into f t) =
  select_where p t ++ (if p (f (auto_increment t)) then [f (auto_increment t)] else []).
Proof. unfold select_where, insert_into. simpl. by rewrite List.filter_app. Qed.

Lemma NoDup_map_snoc {A B} (f : A -> B) l x : NoDup (map f l) -> (forall y, y ∈ l -> f y <> f x) -> NoDup (map f (l ++ [x])).
Proof.
  intros Hn Hx. rewrite map_app. apply NoDup_app. split_and!; [done| |repeat constructor; by intros ?%elem_of_nil].
  intros b Hb ->%list_elem_of_singleton. apply list_elem_of_In, in_map_iff in Hb as (y & Hy & Hin). apply list_elem_of_In in Hin.
  by apply (Hx y).
Qed.

Section OneTable.
Context `{Conf} `{NickConf} `{MySQL} {E : Type} `{!ChanDB E} `{!NickStore E}.
Context (junk : nickcache) {T : Type} (get : DB -> T) (put : T -> DB -> DB) (Hcol : column_of get put).
Context (n : Net E) (u : ptr) (us : User) (Hrd : ready n u us).
Implicit Types (t : T) (d : DB).

(** The column is now [t]. *)
Definition at_column t n' : Prop := talked (with_db (put t) n) (nicks (db (ext n))) (owned n) n'.

Lemma at_column_exact n' : exact n (nicks (db (ext n))) (owned n) n' -> at_column (get (db (ext n))) n'.
Proof.
  intros Ha. apply talked_from. apply (at_tables _ _ _ _ _ _ Ha); [|done..]. by rewrite with_db_db, (co_same _ _ Hcol).
Qed.

Lemma at_column_db t n' : at_column t n' -> db (ext n') = put t (db (ext n)).
Proof.
  intros (ms & Ha). rewrite (NickServ.at_db _ _ _ _ (at_base _ _ _ _ _ Ha)).
  change (db (ext (said ms (with_db (put t) n)))) with (db (ext (with_db (put t) n))).
  rewrite with_db_db, <- (as_set _ (co_aside _ _ Hcol t)). by destruct (db (ext n)).
Qed.

Lemma wp_column_select {A} t n1 (f : DB -> A) (Q : A -> Net E -> Prop) : at_column t n1 ->
  Q (f (put t (db (ext n)))) n1 -> wp (select f) Q n1.
Proof. intros Ha HQ. unfold select. apply wp_gets. by rewrite (at_column_db _ _ Ha). Qed.

Lemma wp_column_update t n1 (f : DB -> T -> T) (Q : unit -> Net E -> Prop) : at_column t n1 ->
  (forall t' d, f (put t' d) = f d) -> (forall rows d, f (d{{nicks := rows}}) = f d) ->
  (forall n', at_column (f (db (ext n)) t) n' -> Q tt n') -> wp (update_db (fun d => put (f d (get d)) d)) Q n1.
Proof.
  intros (ms & Ha) Hput Hnicks HQ. eapply wp_update_aside; [exact Ha| |].
  - split; intros d; [apply (as_nicks _ (co_aside _ _ Hcol _))|]. intros rows. by rewrite Hnicks, (co_nicks _ _ Hcol), (as_set _ (co_aside _ _ Hcol _)).
  - intros n' Ha'. apply HQ. exists ms. apply (at_tables _ _ _ _ _ _ Ha'); [|done..].
    rewrite !with_db_db. simpl. by rewrite !db_set, Hput, (co_get _ _ Hcol), (co_again _ _ Hcol).
Qed.

Lemma wp_column_notice t n1 text (Q : unit -> Net E -> Prop) : at_column t n1 ->
  (forall n', at_column t n' -> Q tt n') -> wp (notice_lang junk u text) Q n1.
Proof.
  destruct Hrd as [_ Hg Hu _ [Hid _] _]. intros Ha HQ. by eapply (notice_talks junk u us (with_db (put t) n)); [exact Hu|exact Hid|apply Hg|exact Ha|].
Qed.

Lemma wp_column_load t n1 (Q : User -> Net E -> Prop) : at_column t n1 -> Q us n1 -> wp (load_user u) Q n1.
Proof. intros (ms & Ha) HQ. eapply wp_at_load; [exact Ha|apply Hrd|exact HQ]. Qed.

Lemma at_column_more t n1 msg : at_column t n1 -> at_column t (n1{{out ::= cons msg}}).
Proof. intros Ha. by eapply talked_more. Qed.
End OneTable.

Lemma column_access : column_of nickaccess (fun t d => d{{nickaccess := t}}).
Proof. split; try by intros; destruct d. intros t. split; by intros []. Qed.

Lemma column_autojoin : column_of autojoin (fun t d => d{{autojoin := t}}).
Proof. split; try by intros; destruct d. intros t. split; by intros []. Qed.
