(* ===== verification/NickAccess.v ===== *)
(** NickServ's ACCESS: the hosts from which a nick is recognized ([src/nickserv.c]). *)

From S2P Require Import Prelude CStr NumTime Wild Wp Graph Net Masks Interfaces Part Channels Users Table Query ChanDB CsAccess Cache OperDB NickServ NickLinks NickCmds NickTable.

Class NickAccessConf := { NSAccessMax : Z }.

(** The entries of a nick. *)
Definition entry_of (i : Z) (r : NickAccess) : bool := na_nick r =? i.

Definition UINT_MAX : Z := 4294967295.

Section NickAccessCmd.
Context `{Conf} `{NickConf} `{NickAccessConf} `{MySQL} {E : Type} `{!ChanDB E} `{!NickStore E} `{!Interfaces.NickServ E}.
Context (junk : nickcache).
Implicit Types (n : Net E).

#[local] Notation notice u text := (notice_lang junk u text).

Definition nickaccess_count (nick_id : Z) : M (Net E) Z :=
  select (fun d => Z.of_nat (length (select_where (entry_of nick_id) (nickaccess d)))).

(** Anew from 1, in the order the entries were added. *)
Definition renumbered_access (nick_id : Z) (t : Table NickAccess) : Table NickAccess :=
  mkTable (renumber_where (entry_of nick_id) na_id (rows t)) (auto_increment t).

Definition mysql_renumber_nick_access (nick_id : Z) : M (Net E) unit :=
  update_db (fun d => d{{nickaccess ::= renumbered_access nick_id}}).

(** [UNIQUE KEY (nick_id, userhost)], of what [varchar(255)] keeps. *)
Definition listed_already (nick_id : Z) (mask : string) (t : Table NickAccess) : bool :=
  existsb (fun r => entry_of nick_id r && same_text (na_userhost r) (trunc 256 mask)) (rows t).

Definition access_add (u : ptr) (nick_id : Z) (mask : string) : M (Net E) unit :=
  count ← nickaccess_count nick_id;
  if NSAccessMax <=? count then notice u ("NICK_ACCESS_REACHED_LIMIT " +:+ show_int NSAccessMax)
  else
    dup ← select (fun d => listed_already nick_id mask (nickaccess d));
    if dup : bool then notice u ("NICK_ACCESS_ALREADY_PRESENT " +:+ mask)
    else
      update_db (fun d => d{{nickaccess ::= insert_into (fun i => mkNickAccess i nick_id (u32 (count + 1)) (trunc 256 mask))}});;
      notice u ("NICK_ACCESS_ADDED " +:+ mask).

(** [DELETE .. WHERE], and how many rows it took. *)
Definition delete_entries (p : NickAccess -> bool) : M (Net E) Z :=
  k ← select (fun d => Z.of_nat (length (select_where p (nickaccess d))));
  update_db (fun d => d{{nickaccess ::= delete_where p}});;
  mret k.

Definition access_del (u : ptr) (nick_id : Z) (mask : string) : M (Net E) unit :=
  us ← load_user u;
  rows ←
    (if isdigit (hd_char mask) && is_numlist mask then
       match mysql_build_query mask UINT_MAX with
       | None | Some [] => fault                 (* [WHERE () && ..] is no statement *)
       | Some l =>
           rows ← delete_entries (fun r => in_ranges l (na_idx r) && entry_of nick_id r);
           notice u (if rows =? 0 then "NICK_ACCESS_NO_MATCH " +:+ nick us
                     else if rows =? 1 then "NICK_ACCESS_DELETED_ONE " +:+ nick us
                     else "NICK_ACCESS_DELETED_SEVERAL " +:+ show_int rows +:+ " " +:+ nick us);;
           mret rows
       end
     else
       rows ← delete_entries (fun r => entry_of nick_id r && same_text (na_userhost r) mask);
       notice u ((if rows =? 0 then "NICK_ACCESS_NOT_FOUND " else "NICK_ACCESS_DELETED ") +:+ mask);;
       mret rows);
  when (negb (rows =? 0)) (mysql_renumber_nick_access nick_id).

(** ["%-4s %s"] *)
Definition access_line (r : NickAccess) : string :=
  let idx := show_int (na_idx r) in
  idx +:+ String.concat EmptyString (repeat " "%string (4 - String.length idx)) +:+ " " +:+ na_userhost r.

Definition print_entries (u : ptr) (l : list NickAccess) : M (Net E) unit :=
  us ← load_user u;
  for_each l (fun r => emit (Notice s_NickServ (nick us) (access_line r))).

(** LIST of another nick, by a Services administrator: whether there was one. *)
Definition access_list_other (u : ptr) (cmd nk pattern : option string) : M (Net E) bool :=
  match cmd, nk with
  | Some cmd, Some nk =>
      if negb (stricmp cmd "LIST" =? 0) then mret false
      else
        admin ← Interfaces.is_services_admin u;
        if negb admin then mret false
        else
          nick_id ← mysql_findnick nk;
          if nick_id =? 0 then mret false
          else
            notice u ("NICK_ACCESS_LIST_X " +:+ nk);;
            l ← select (fun d => order_by na_idx (List.filter (fun r => entry_of nick_id r &&
              match pattern with Some p => negb (Udf.irc_match p (na_userhost r) None =? 0) | None => true end)
              (rows (nickaccess d))));
            print_entries u l;;
            mret true
  | _, _ => mret false
  end.

Definition access_own (u : ptr) (cmd : string) (mask : option string) : M (Net E) unit :=
  if bool_decide (mask <> None) && bool_decide (strchr (default EmptyString mask) "@" = None) && (stricmp cmd "ADD" =? 0) then
    notice u "BAD_USERHOST_MASK";; notice u "MORE_INFO ACCESS"
  else
    us ← load_user u;
    let nick_id := Net.nick_id us in
    if nick_id =? 0 then notice u "NICK_NOT_REGISTERED"
    else
      ident ← nick_identified junk u;
      if negb ident then notice u "NICK_IDENTIFY_REQUIRED"
      else
        let mask := default EmptyString mask in
        if stricmp cmd "ADD" =? 0 then access_add u nick_id mask
        else if stricmp cmd "DEL" =? 0 then access_del u nick_id mask
        else if stricmp cmd "LIST" =? 0 then
          notice u "NICK_ACCESS_LIST";;
          l ← select (fun d => order_by na_id (List.filter (entry_of nick_id) (rows (nickaccess d))));
          print_entries u l
        else notice u "NICK_ACCESS_SYNTAX".

Definition do_access (u : ptr) (args : string) : M (Net E) unit :=
  let '(cmd, rest) := strtok args " " in
  let '(mask, rest) := strtok rest " " in
  done ← access_list_other u cmd mask (fst (strtok rest " "));
  if done : bool then mret tt
  else
    match cmd with
    | None => notice u "NICK_ACCESS_SYNTAX"
    | Some cmd =>
        if (if stricmp cmd "LIST" =? 0 then bool_decide (mask <> None) else bool_decide (mask = None))
        then notice u "NICK_ACCESS_SYNTAX"
        else access_own u cmd mask
    end.
End NickAccessCmd.

(** ** What it does to the table *)
Section AccessTable.
Context `{Conf} `{NickAccessConf} `{MySQL}.
Implicit Types (t : Table NickAccess) (d : DB).

Record entries_ok t : Prop := {
  eo_ids : NoDup (map na_id (rows t));
  eo_next : Forall (fun r => na_id r < auto_increment t) (rows t)
}.

(** The entries of a nick are numbered from 1 in the order they were added. *)
Definition in_turn (i : Z) t : Prop :=
  map na_idx (order_by na_id (select_where (entry_of i) t)) = seqZ 1 (Z.of_nat (length (select_where (entry_of i) t))).

Definition added (i : Z) (mask : string) t : Table NickAccess :=
  let count := Z.of_nat (length (select_where (entry_of i) t)) in
  if bool_decide (strchr mask "@" = None) || (NSAccessMax <=? count) || listed_already i mask t then t
  else insert_into (fun id => mkNickAccess id i (u32 (count + 1)) (trunc 256 mask)) t.

(** The entries DEL names: by number, or by their very text. *)
Definition named_entry (i : Z) (mask : string) (r : NickAccess) : bool :=
  if isdigit (hd_char mask) && is_numlist mask then
    in_ranges (default [] (mysql_build_query mask UINT_MAX)) (na_idx r) && entry_of i r
  else entry_of i r && same_text (na_userhost r) mask.

Definition deleted (i : Z) (mask : string) t : Table NickAccess :=
  match select_where (named_entry i mask) t with
  | [] => t
  | _ => renumbered_access i (delete_where (named_entry i mask) t)
  end.

Definition access_table d (us : User) (args : string) : Table NickAccess :=
  let t := nickaccess d in
  let '(cmd, rest) := strtok args " " in
  match cmd, fst (strtok rest " ") with
  | Some cmd, Some mask =>
      if (Net.nick_id us =? 0) || negb (identified_in d us) || (stricmp cmd "LIST" =? 0) then t
      else if stricmp cmd "ADD" =? 0 then added (Net.nick_id us) mask t
      else if stricmp cmd "DEL" =? 0 then deleted (Net.nick_id us) mask t
      else t
  | _, _ => t
  end.

Lemma entry_set i k r : entry_of i (set_idx k r) = entry_of i r.
Proof. done. Qed.

Lemma renumbered_access_map {A} (f : NickAccess -> A) i t : (forall k r, f (set_idx k r) = f r) -> entries_ok t ->
  map f (rows (renumbered_access i t)) = map f (rows t).
Proof. intros Hf [Hn _]. by refine (renumber_same (entry_of i) na_id (rows t) Hn f _). Qed.

Lemma renumbered_access_ok i t : entries_ok t -> entries_ok (renumbered_access i t).
Proof.
  intros Hok. pose proof (renumbered_access_map na_id i t (fun _ _ => eq_refl) Hok) as Hids. destruct Hok as [Hn Hl]. split; [by rewrite Hids|].
  rewrite <- (Forall_map na_id (fun id => id < auto_increment t)) in Hl.
  apply (Forall_map na_id (fun id => id < auto_increment t)). by rewrite Hids.
Qed.

Lemma renumbered_in_turn i t : entries_ok t -> in_turn i (renumbered_access i t).
Proof.
  intros [Hn _]. unfold in_turn, select_where, renumbered_access. simpl.
  rewrite (renumber_in_turn (entry_of i) na_id (entry_set i) ltac:(done)) by done.
  rewrite renumber_length by done. etransitivity; [exact (number_from_idx 1 _)|]. by rewrite order_by_perm.
Qed.

Lemma renumber_spares i j t : entries_ok t -> j <> i -> select_where (entry_of j) (renumbered_access i t) = select_where (entry_of j) t.
Proof.
  intros [Hn _] Hne. unfold select_where, renumbered_access. simpl. apply renumber_other; [done|done|].
  intros r Hr. unfold entry_of in *. lia.
Qed.

(** A change for nick [i] alone, that keeps the table well formed and the entries
    of [i] in turn. *)
Record access_change (i : Z) t t' : Prop := {
  ac_ok : entries_ok t -> entries_ok t';
  ac_turn : entries_ok t -> in_turn i t -> in_turn i t';
  ac_other j : entries_ok t -> j <> i -> select_where (entry_of j) t' = select_where (entry_of j) t
}.

Lemma access_change_refl i t : access_change i t t.
Proof. by split. Qed.

Lemma insert_change i count userhost t : count = Z.of_nat (length (select_where (entry_of i) t)) -> 0 <= count < 2 ^ 32 - 1 ->
  access_change i t (insert_into (fun id => mkNickAccess id i (u32 (count + 1)) userhost) t).
Proof.
  intros Hc Hmax. split.
  - intros [Hn Hl]. split; simpl.
    + apply NoDup_map_snoc; [done|]. intros r Hr. rewrite Forall_forall in Hl. specialize (Hl r Hr). simpl. lia.
    + apply Forall_app. split; [|by repeat constructor; simpl; lia]. eapply Forall_impl; [exact Hl|]. simpl. lia.
  - intros [_ Hl]. unfold in_turn. rewrite select_inserted. cbv beta. change (entry_of i (mkNickAccess _ i _ _)) with (i =? i). rewrite Z.eqb_refl. intros Ht.
    rewrite order_by_snoc.
    + rewrite map_app, Ht, length_app. simpl. rewrite u32_id by lia.
      rewrite Nat2Z.inj_add, <- Hc, seqZ_app by lia. f_equal. simpl. by rewrite Z.add_comm.
    + intros r [Hr _]%elem_select. rewrite Forall_forall in Hl. specialize (Hl r Hr). simpl. lia.
  - intros j _ Hne. rewrite select_inserted. cbv beta. change (entry_of j (mkNickAccess _ i _ _)) with (i =? j). rewrite (proj2 (Z.eqb_neq i j)) by done. apply app_nil_r.
Qed.

Lemma added_change i mask t : NSAccessMax < 2 ^ 32 -> access_change i t (added i mask t).
Proof.
  intros Hmax. unfold added. destruct (Z.leb_spec NSAccessMax (Z.of_nat (length (select_where (entry_of i) t)))) as [|Hlt];
    [rewrite orb_true_r; apply access_change_refl|].
  destruct (_ || _); [apply access_change_refl|]. apply insert_change; [done|lia].
Qed.

Lemma deleted_change i mask t : access_change i t (deleted i mask t).
Proof.
  unfold deleted. destruct (select_where _ t) as [|r l]; [apply access_change_refl|].
  assert (Hdel : entries_ok t -> entries_ok (delete_where (named_entry i mask) t)).
  { intros [Hn Hl]. split; simpl; [by apply NoDup_map_filter|]. apply Forall_forall. intros x Hx.
    apply list_elem_of_In, filter_In in Hx as [Hx _]. rewrite Forall_forall in Hl. apply Hl. by apply list_elem_of_In. }
  split.
  - intros Hok. by apply renumbered_access_ok, Hdel.
  - intros Hok _. by apply renumbered_in_turn, Hdel.
  - intros j Hok Hne. rewrite renumber_spares by auto. unfold select_where. simpl. clear Hok Hdel.
    induction (rows t) as [|x l' IH]; [done|]. simpl. destruct (named_entry i mask x) eqn:Ex; simpl; rewrite IH; [|done].
    assert (Hx : entry_of i x = true) by (unfold named_entry in Ex; destruct (isdigit _ && _); apply andb_true_iff in Ex; tauto).
    destruct (entry_of j x) eqn:Ej; [|done]. unfold entry_of in *. lia.
Qed.

Lemma access_table_change d us args : NSAccessMax < 2 ^ 32 -> access_change (Net.nick_id us) (nickaccess d) (access_table d us args).
Proof.
  intros Hmax. unfold access_table. destruct (strtok args " ") as [[cmd|] rest]; [|apply access_change_refl].
  destruct (fst (strtok rest " ")) as [mask|]; [|apply access_change_refl].
  repeat case_match; first [apply access_change_refl|by apply added_change|apply deleted_change].
Qed.

Lemma access_table_identified d us args : access_table d us args <> nickaccess d -> identified_in d us = true /\ Net.nick_id us <> 0.
Proof.
  unfold access_table. destruct (strtok args " ") as [[cmd|] rest]; [|done]. destruct (fst (strtok rest " ")) as [mask|]; [|done].
  destruct (Z.eqb_spec (Net.nick_id us) 0); [done|]. by destruct (identified_in d us).
Qed.
End AccessTable.

(** ** What the command does *)
Section AccessSpec.
Context `{Conf} `{NickConf} `{NickAccessConf} `{MySQL} {E : Type} `{!ChanDB E} `{!NickStore E} `{!Interfaces.NickServ E}.
Context (junk : nickcache).
Implicit Types (n : Net E) (t : Table NickAccess).

Definition with_access t d : DB := d{{nickaccess := t}}.

Context (n : Net E) (u : ptr) (us : User) (Hrd : ready n u us).

(** A state in the command, with the table as it is now. *)
Notation at_access := (at_column with_access n).

Lemma wp_access_update t n1 f (Q : unit -> Net E -> Prop) : at_access t n1 -> (forall n', at_access (f t) n' -> Q tt n') ->
  wp (update_db (fun d => d{{nickaccess ::= f}})) Q n1.
Proof. intros Ha HQ. by apply (wp_column_update _ _ column_access n t n1 (fun _ => f)). Qed.

Lemma wp_access_select {A} t n1 (f : DB -> A) (Q : A -> Net E -> Prop) : at_access t n1 ->
  Q (f (with_access t (db (ext n)))) n1 -> wp (select f) Q n1.
Proof. apply (wp_column_select _ _ column_access). Qed.

Lemma wp_access_notice t n1 text (Q : unit -> Net E -> Prop) : at_access t n1 ->
  (forall n', at_access t n' -> Q tt n') -> wp (notice_lang junk u text) Q n1.
Proof. by apply (wp_column_notice junk with_access n u us). Qed.

Lemma print_entries_spec t l n1 : at_access t n1 -> wp (print_entries u l) (fun _ => at_access t) n1.
Proof.
  intros Ha. unfold print_entries. apply wp_bind. eapply (wp_column_load with_access n u us Hrd); [exact Ha|].
  apply wp_for_each; [exact Ha|]. intros r n2 _ Ha2. apply wp_modify. by apply at_column_more.
Qed.

Lemma access_add_spec mask t n1 : at_access t n1 -> strchr mask "@" <> None ->
  wp (access_add junk u (Net.nick_id us) mask) (fun _ => at_access (added (Net.nick_id us) mask t)) n1.
Proof.
  intros Ha Hat. unfold access_add, added. rewrite bool_decide_false by done. apply wp_bind. eapply wp_access_select; [exact Ha|].
  simpl nickaccess. destruct (_ <=? _); simpl; [by eapply wp_access_notice|].
  apply wp_bind. eapply wp_access_select; [exact Ha|]. simpl nickaccess. destruct (listed_already _ _ _); [by eapply wp_access_notice|].
  apply wp_bind. eapply (wp_access_update _ _ (insert_into _)); [exact Ha|]. intros n2 Ha2. by eapply wp_access_notice.
Qed.

Lemma delete_entries_spec p t n1 (Q : Z -> Net E -> Prop) : at_access t n1 ->
  (forall n', at_access (delete_where p t) n' -> Q (Z.of_nat (length (select_where p t))) n') -> wp (delete_entries p) Q n1.
Proof.
  intros Ha HQ. unfold delete_entries. apply wp_bind. eapply wp_access_select; [exact Ha|]. simpl nickaccess.
  apply wp_bind. eapply (wp_access_update _ _ (delete_where p)); [exact Ha|]. intros n2 Ha2. by apply wp_ret, HQ.
Qed.

(** A list of numbers that names none is no condition. *)
Definition names_some (mask : string) : Prop := isdigit (hd_char mask) && is_numlist mask = true -> mysql_build_query mask UINT_MAX <> Some [].

Lemma access_del_spec mask t n1 : at_access t n1 -> names_some mask ->
  wp (access_del junk u (Net.nick_id us) mask) (fun _ => at_access (deleted (Net.nick_id us) mask t)) n1.
Proof.
  intros Ha Hsome. unfold access_del. apply wp_bind. eapply (wp_column_load with_access n u us Hrd); [exact Ha|]. apply wp_bind.
  assert (Hlast : forall n2, at_access (delete_where (named_entry (Net.nick_id us) mask) t) n2 ->
    wp (when (negb (Z.of_nat (length (select_where (named_entry (Net.nick_id us) mask) t)) =? 0)) (mysql_renumber_nick_access (Net.nick_id us)))
      (fun _ => at_access (deleted (Net.nick_id us) mask t)) n2).
  { intros n2 Ha2. unfold deleted. destruct (select_where _ t) as [|r l] eqn:Es; simpl.
    - apply wp_ret. by rewrite delete_none in Ha2.
    - eapply (wp_access_update _ _ (renumbered_access _)); [exact Ha2|done]. }
  unfold named_entry in Hlast. unfold names_some in Hsome. destruct (isdigit (hd_char mask) && is_numlist mask).
  - specialize (Hsome eq_refl). destruct (mysql_build_query_spec mask UINT_MAX) as (l & Hl & _). rewrite Hl in *. destruct l as [|x l]; [done|].
    apply wp_bind. eapply delete_entries_spec; [exact Ha|]. intros n2 Ha2. apply wp_bind.
    eapply wp_access_notice; [exact Ha2|]. intros n3 Ha3. apply wp_ret. by apply Hlast.
  - apply wp_bind. eapply delete_entries_spec; [exact Ha|]. intros n2 Ha2. apply wp_bind.
    eapply wp_access_notice; [exact Ha2|]. intros n3 Ha3. apply wp_ret. by apply Hlast.
Qed.

(** What DEL is given, if it is a list of numbers, names some. *)
Definition good_list (args : string) : Prop := forall cmd rest mask, strtok args " " = (Some cmd, rest) -> fst (strtok rest " ") = Some mask ->
  stricmp cmd "DEL" = 0 -> names_some mask.

Lemma access_own_spec cmd mask n1 : exact n (nicks (db (ext n))) (owned n) n1 -> mask <> None \/ stricmp cmd "LIST" = 0 ->
  (stricmp cmd "LIST" = 0 -> mask = None) -> (forall m, mask = Some m -> stricmp cmd "DEL" = 0 -> names_some m) ->
  wp (access_own junk u cmd mask) (fun _ => at_access
    (match mask with
     | Some mask =>
         if (Net.nick_id us =? 0) || negb (identified_in (db (ext n)) us) || (stricmp cmd "LIST" =? 0) then nickaccess (db (ext n))
         else if stricmp cmd "ADD" =? 0 then added (Net.nick_id us) mask (nickaccess (db (ext n)))
         else if stricmp cmd "DEL" =? 0 then deleted (Net.nick_id us) mask (nickaccess (db (ext n)))
         else nickaccess (db (ext n))
     | None => nickaccess (db (ext n))
     end)) n1.
Proof.
  intros Ha Hsyn Hlist Hdel. pose proof Hrd as [_ Hg Hu _ [Hid _] _]. unfold access_own.
  pose proof (at_column_exact _ _ column_access n n1 Ha) as Ht. set (t := nickaccess (db (ext n))) in *.
  destruct (bool_decide (mask <> None) && bool_decide (strchr (default EmptyString mask) "@" = None) && (stricmp cmd "ADD" =? 0)) eqn:Eb.
  { apply andb_true_iff in Eb as [[Em Es]%andb_true_iff Ea]. destruct mask as [m|]; [|done]. simpl in Es. rewrite Ea.
    apply wp_bind. eapply wp_access_notice; [exact Ht|]. intros n2 Ha2. eapply wp_access_notice; [exact Ha2|]. intros n3 Ha3.
    unfold added. rewrite Es. destruct (_ || _ || _); exact Ha3. }
  apply wp_bind. eapply (wp_column_load with_access n u us Hrd); [exact Ht|]. destruct (Net.nick_id us =? 0); [destruct mask; by eapply wp_access_notice|].
  apply wp_bind. eapply wp_ident; [exact Hrd|exact Ha|]. intros n2 Ha2. clear Ht. pose proof (at_column_exact _ _ column_access n n2 Ha2) as Ht. fold t in Ht.
  destruct (identified_in _ us); simpl; [|destruct mask; by eapply wp_access_notice].
  destruct (Z.eqb_spec (stricmp cmd "LIST") 0) as [El|El].
  - rewrite (Hlist El) in *. simpl.
    assert (Hnot : (stricmp cmd "ADD" =? 0) = false /\ (stricmp cmd "DEL" =? 0) = false).
    { apply stricmp_hd in El. split; apply Z.eqb_neq; intros Ec%stricmp_hd; rewrite El in Ec; discriminate Ec. }
    destruct Hnot as [-> ->]. apply wp_bind. eapply wp_access_notice; [exact Ht|]. intros n3 Ha3.
    apply wp_bind. eapply wp_access_select; [exact Ha3|]. by apply print_entries_spec.
  - destruct mask as [m|]; [|by destruct Hsyn]. simpl in *. destruct (Z.eqb_spec (stricmp cmd "ADD") 0) as [Ead|Ead].
    + rewrite andb_true_r in Eb. apply bool_decide_eq_false in Eb. by apply access_add_spec.
    + destruct (Z.eqb_spec (stricmp cmd "DEL") 0) as [Ed|Ed]; [by apply access_del_spec, (Hdel m)|by eapply wp_access_notice].
Qed.

(** C21: ACCESS, for every argument: the table of hosts becomes exactly what the
    arguments say of the user's nick, which takes a nick that is identified; ADD
    appends the mask with the next number, up to the limit and once, DEL takes the
    entries numbered or written out and numbers the rest anew.  The table stays
    well formed and the nick's entries in turn, no other nick's entry is touched,
    and everything else is messages. *)
Theorem do_access_correct args admin (Hmax : NSAccessMax < 2 ^ 32) (Hgood : good_list args)
  (Hadm : wp (Interfaces.is_services_admin u) (fun b n' => b = admin /\ exact n (nicks (db (ext n))) (owned n) n') n) :
  let t := nickaccess (db (ext n)) in let t' := access_table (db (ext n)) us args in
  access_change (Net.nick_id us) t t' /\ (t' <> t -> identified_in (db (ext n)) us = true /\ Net.nick_id us <> 0) /\
  wp (do_access junk u args) (fun _ n' => nickaccess (db (ext n')) = t' /\ at_access t' n') n.
Proof.
  intros t t'. split; [by apply access_table_change|]. split; [apply access_table_identified|].
  apply (wp_mono _ (fun _ => at_access t')).
  2: { intros a n' Ha. split; [|exact Ha]. by rewrite (at_column_db _ _ column_access _ _ _ Ha). }
  pose proof Hrd as [Ha Hg Hu _ [Hid _] _]. unfold t', access_table, do_access.
  pose proof (at_column_exact _ _ column_access n n Ha) as Ht. fold t in Ht |- *. unfold good_list in Hgood.
  destruct (strtok args " ") as [cmd rest]. destruct (strtok rest " ") as [mask rest'] eqn:Er. apply wp_bind.
  assert (Hother : wp (access_list_other junk u cmd mask (fst (strtok rest' " "))) (fun b n' =>
    if b : bool then at_access t n' /\ (forall c, cmd = Some c -> stricmp c "LIST" = 0) else exact n (nicks (db (ext n))) (owned n) n') n).
  { unfold access_list_other. destruct cmd as [cmd|]; [|done]. destruct mask as [nk|]; [|done].
    destruct (Z.eqb_spec (stricmp cmd "LIST") 0) as [El|]; [|done]. simpl. apply wp_bind. eapply wp_mono; [exact Hadm|]. intros b n1 [-> Ha1].
    destruct admin; simpl; [|by apply wp_ret]. apply wp_bind. eapply wp_select; [exact Ha1|].
    destruct (_ =? 0); [by apply wp_ret|]. apply wp_bind. eapply wp_access_notice; [by apply (at_column_exact _ _ column_access)|]. fold t. intros n2 Ha2.
    apply wp_bind. eapply wp_access_select; [exact Ha2|]. apply wp_bind.
    eapply wp_mono; [by apply print_entries_spec|]. intros [] n3 Ha3. apply wp_ret. split; [done|]. by intros c [= <-]. }
  eapply wp_mono; [exact Hother|]. clear Hother. intros b n1 Hb. destruct b.
  { destruct Hb as [Hb Hl]. apply wp_ret. destruct cmd as [cmd|]; [|done]. simpl. destruct mask as [mask|]; [|done].
    rewrite (Hl cmd eq_refl), Z.eqb_refl, !orb_true_r. exact Hb. }
  pose proof (at_column_exact _ _ column_access n n1 Hb) as Ht1. fold t in Ht1. destruct cmd as [cmd|]; [|by eapply wp_access_notice]. simpl fst.
  destruct (Z.eqb_spec (stricmp cmd "LIST") 0) as [El|El].
  - destruct mask as [mask|]; simpl.
    + rewrite orb_true_r. by eapply wp_access_notice.
    + eapply (access_own_spec cmd None); [exact Hb|by right|done|done].
  - destruct mask as [mask|]; simpl; [|by eapply wp_access_notice].
    pose proof (access_own_spec cmd (Some mask) n1 Hb) as Hs. cbv iota in Hs. rewrite (proj2 (Z.eqb_neq _ _) El) in Hs.
    apply Hs; [by left|by intros|]. intros m [= ->] Hd. eapply Hgood; [done| |exact Hd]. by rewrite Er.
Qed.
End AccessSpec.

(** ** Examples *)
Module Witness.
Import Registry NickLinks.Witness NickCmds.Witness.

#[export] Instance accessconf : NickAccessConf := {NSAccessMax := 32}.

(** alice, identified, whose first host is numbered. *)
Definition net : Net E := Registry.net (alice_row NS_IDENTIFIED 0) ["*@one.example.org"] (data []).

Lemma access_ready : ready net 1 alice.
Proof. apply (hosts_ready 1 alice (alice_row NS_IDENTIFIED 0) ["*@one.example.org"] []); [reflexivity|reflexivity|split; vm_compute; discriminate]. Qed.

Lemma do_access_correct_witness : exists n', do_access junk 1 "ADD *@two.example.org" net = Some (tt, n') /\
  map na_idx (rows (nickaccess (db (ext n')))) = [1; 2] /\ entries_ok (nickaccess (db (ext n'))).
Proof.
  assert (Hgood : good_list "ADD *@two.example.org").
  { intros cmd rest mask [= <- <-] _ Hd. vm_compute in Hd. discriminate Hd. }
  assert (Hadm : wp (Interfaces.is_services_admin 1) (fun b n' => b = false /\ exact net (nicks (db (ext net))) (owned net) n') net)
    by (apply wp_ret; split; [done|apply access_ready]).
  assert (Hmax : NSAccessMax < 2 ^ 32) by (vm_compute; reflexivity).
  pose proof (do_access_correct junk net 1 alice access_ready "ADD *@two.example.org" false Hmax Hgood Hadm) as H.
  destruct H as (Hc & _ & Hw).
  apply wp_run in Hw as ([] & n' & Hrun & Ht & _). exists n'. split; [exact Hrun|]. rewrite Ht. split; [vm_compute; reflexivity|].
  apply Hc. split; simpl; repeat constructor. intros Hx. by apply elem_of_nil in Hx.
Defined.

(** A list of numbers without a range ends Services. *)
Lemma access_empty_range_fatal : do_access junk 1 "DEL 2-0" net = None.
Proof. vm_compute. reflexivity. Qed.
End Witness.
