(* ===== verification/AutoJoin.v ===== *)
(** NickServ's AUTOJOIN and the joins it stands for ([src/autojoin.c]). *)

From S2P Require Import Prelude CStr NumTime Wild Wp Graph Net Masks Interfaces Part Channels Users Table Query ChanDB ChanServ Mlock CsAccess Cache OperDB Removal NickServ NickLinks NickCmds NickSet NickTable ChanCmds.

Class AutoJoinConf := { NSAutoJoinMax : Z }.


(** ** AUTOJOIN *)
Section AutoJoinCmd.
Context `{Conf} `{NickConf} `{AutoJoinConf} `{MySQL} `{TextOrder} {E : Type} `{!ChanDB E} `{!NickStore E}.
Context (junk : nickcache).
Implicit Types (n : Net E) (d : DB).

#[local] Notation notice u text := (notice_lang junk u text).

Definition join_of (nick_id : Z) (r : Autojoin) : bool := aj_nick r =? nick_id.

Definition count_autojoins (nick_id : Z) : M (Net E) Z :=
  select (fun d => Z.of_nat (length (select_where (join_of nick_id) (autojoin d)))).

(** [channel.name] in a join of the two tables. *)
Definition join_name d (r : Autojoin) : string := default EmptyString (ci_name <$> channel d !! aj_channel r).
Definition join_matches (pattern : string) d (r : Autojoin) : bool := negb (Udf.irc_match pattern (join_name d r) None =? 0).

Definition join_lines (nick_id : Z) (p : DB -> Autojoin -> bool) d : list string :=
  map (fun r => "NICK_AUTOJOIN_LIST_FORMAT " +:+ show_int (aj_idx r) +:+ " " +:+ join_name d r)
    (order_by aj_idx (List.filter (fun r => joins d nick_id r && p d r) (rows (autojoin d)))).

(** Without a range the condition is [()], which is no statement. *)
Definition autojoin_list (u : ptr) (nick_id : Z) (chan : option string) : M (Net E) unit :=
  lines ←
    match chan with
    | None => select (join_lines nick_id (fun _ _ => true))
    | Some chan =>
        if is_numlist chan then
          match mysql_build_query chan NSAutoJoinMax with
          | None | Some [] => fault
          | Some l => select (join_lines nick_id (fun _ r => in_ranges l (aj_idx r)))
          end
        else select (join_lines nick_id (join_matches chan))
    end;
  match lines with
  | [] => notice u "NICK_AUTOJOIN_NO_MATCH"
  | _ => notice u "NICK_AUTOJOIN_LIST_HEADER";; for_each lines (fun l => notice u l)
  end.

(** [UNIQUE KEY (nick_id, channel_id)] *)
Definition autojoin_add (u : ptr) (nick_id : Z) (chan : string) : M (Net E) unit :=
  ajcount ← count_autojoins nick_id;
  if NSAutoJoinMax <=? ajcount then notice u ("NICK_AUTOJOIN_REACHED_LIMIT " +:+ show_int NSAutoJoinMax)
  else
    channel_id ← mysql_findchan chan;
    if channel_id =? 0 then notice u ("CHAN_X_NOT_REGISTERED " +:+ chan)
    else
      dup ← select (fun d => existsb (fun r => join_of nick_id r && (aj_channel r =? channel_id)) (rows (autojoin d)));
      if dup : bool then notice u ("NICK_AUTOJOIN_ALREADY_PRESENT " +:+ chan)
      else
        update_db (fun d => d{{autojoin ::= insert_into (fun i => mkAutojoin i nick_id (u32 (ajcount + 1)) channel_id)}});;
        notice u ("NICK_AUTOJOIN_ADDED " +:+ chan).

(** [DELETE .. WHERE], and how many rows it took. *)
Definition delete_joins (p : DB -> Autojoin -> bool) : M (Net E) Z :=
  k ← select (fun d => Z.of_nat (length (select_where (p d) (autojoin d))));
  update_db (fun d => d{{autojoin ::= delete_where (p d)}});;
  mret k.

Definition autojoin_del (u : ptr) (nick_id : Z) (chan : string) : M (Net E) unit :=
  rows ←
    (if isdigit (hd_char chan) && is_numlist chan then
       match mysql_build_query chan NSAutoJoinMax with
       | None | Some [] => fault
       | Some l => delete_joins (fun _ r => join_of nick_id r && in_ranges l (aj_idx r))
       end
     else delete_joins (fun d r => joins d nick_id r && join_matches chan d r));
  notice u (if rows =? 0 then "NICK_AUTOJOIN_NO_MATCH"
            else if rows =? 1 then "NICK_AUTOJOIN_DELETED_ONE"
            else "NICK_AUTOJOIN_DELETED_SEVERAL " +:+ show_int rows);;
  when (negb (rows =? 0)) (renumber_autojoins nick_id).

Definition do_autojoin (u : ptr) (args : string) : M (Net E) unit :=
  let '(cmd, rest) := strtok args " " in
  let chan := fst (strtok rest " ") in
  match cmd with
  | None => notice u "NICK_AUTOJOIN_SYNTAX"
  | Some cmd =>
      let asks s := stricmp cmd s =? 0 in
      if (asks "ADD" || asks "DEL") && bool_decide (chan = None) then notice u "NICK_AUTOJOIN_SYNTAX"
      else
        us ← load_user u;
        let nick_id := Net.nick_id us in
        if nick_id =? 0 then notice u "NICK_NOT_REGISTERED"
        else
          ident ← nick_identified junk u;
          if negb ident then notice u "NICK_IDENTIFY_REQUIRED"
          else if asks "LIST" then autojoin_list u nick_id chan
          else if asks "ADD" then autojoin_add u nick_id (default EmptyString chan)
          else if asks "DEL" then autojoin_del u nick_id (default EmptyString chan)
          else notice u "NICK_AUTOJOIN_SYNTAX"
  end.
End AutoJoinCmd.

(** ** The joins *)
Section CheckAutoJoins.
Context `{Conf} {E : Type} `{!ChanDB E} `{!Interfaces.NickServ E}.
Implicit Types (n : Net E) (d : DB).

(** The channels of the nick, if it has AUTOJOIN set. *)
Definition wanted_channels (nick_id : Z) d : list string :=
  match nicks d !! nick_id with
  | Some r => if has (n_flags r) NI_AUTOJOIN then map (join_name d) (List.filter (joins d nick_id) (rows (autojoin d))) else []
  | None => []
  end.

(** The user could not join the channel without an invitation. *)
Definition barred (us : User) (c : ptr) : M (Net E) bool :=
  ch ← load_chan c;
  if has (cmode ch) CMODE_i || has (cmode ch) CMODE_k then mret true
  else
    full ← (if has (cmode ch) CMODE_l then count ← chan_count_users c; mret (limit ch <=? count) else mret false);
    if full : bool then mret true else match is_banned us (Some ch) with None => fault | Some b => mret b end.

Definition invite_first (u c : ptr) : M (Net E) unit :=
  ch ← load_chan c;
  if channel_id ch =? 0 then mret tt
  else
    may ← check_access u (channel_id ch) CA_INVITE;
    if negb may then mret tt
    else
      us ← load_user u;
      shut ← barred us c;
      when shut
        (flags ← get_chan_flags (channel_id ch);
         when (has flags CI_VERBOSE) (opnotice s_ChanServ (name ch) ("AUTOJOIN using INVITE for " +:+ nick us));;
         send_cmd (Some s_ChanServ) ("INVITE " +:+ nick us +:+ " " +:+ name ch)).

Definition autojoin_one (u : ptr) (chan : string) : M (Net E) unit :=
  us ← load_user u;
  on ← is_on_chan (nick us) chan;
  if on : bool then mret tt
  else
    c ← findchan chan;
    when (negb (c =? NULL)) (invite_first u c);;
    send_cmd (Some ServerName) ("SVSJOIN " +:+ nick us +:+ " " +:+ chan).

Definition check_autojoins (u : ptr) : M (Net E) unit :=
  us ← load_user u;
  if Net.nick_id us =? 0 then mret tt
  else l ← gets (fun n => wanted_channels (Net.nick_id us) (db (ext n))); for_each l (autojoin_one u).
End CheckAutoJoins.

(** ** What AUTOJOIN does to the table *)
Section JoinTable.
Context `{Conf} `{AutoJoinConf} `{MySQL} `{TextOrder}.
Implicit Types (t : Table Autojoin) (d : DB).

(** Ids are fresh, a nick has a channel once, and the channels are registered. *)
Record joins_ok d t : Prop := {
  jo_ids : NoDup (map aj_id (rows t));
  jo_next : Forall (fun r => aj_id r < auto_increment t) (rows t);
  jo_once : NoDup (map (fun r => (aj_nick r, aj_channel r)) (rows t));
  jo_live : Forall (fun r => is_Some (channel d !! aj_channel r)) (rows t)
}.

(** The numbers of a nick's rows are those from 1. *)
Definition counted (i : Z) t : Prop :=
  map aj_idx (select_where (join_of i) t) ≡ₚ seqZ 1 (Z.of_nat (length (select_where (join_of i) t))).

Definition added_join d (i : Z) (chan : string) t : Table Autojoin :=
  let count := Z.of_nat (length (select_where (join_of i) t)) in
  let c := default 0 (channel_named d chan) in
  if (NSAutoJoinMax <=? count) || (c =? 0) || existsb (fun r => join_of i r && (aj_channel r =? c)) (rows t) then t
  else insert_into (fun id => mkAutojoin id i (u32 (count + 1)) c) t.

(** The rows DEL names: by number, or by the name of the channel. *)
Definition named_join d (i : Z) (chan : string) (r : Autojoin) : bool :=
  if isdigit (hd_char chan) && is_numlist chan then
    join_of i r && in_ranges (default [] (mysql_build_query chan NSAutoJoinMax)) (aj_idx r)
  else joins d i r && join_matches chan d r.

Definition renumbered_joins d (i : Z) t : Table Autojoin := mkTable (renumber_for d i (rows t)) (auto_increment t).

Definition deleted_joins d (i : Z) (chan : string) t : Table Autojoin :=
  match select_where (named_join d i chan) t with
  | [] => t
  | _ => renumbered_joins d i (delete_where (named_join d i chan) t)
  end.

Definition autojoin_table d (us : User) (args : string) : Table Autojoin :=
  let t := autojoin d in
  let '(cmd, rest) := strtok args " " in
  match cmd, fst (strtok rest " ") with
  | Some cmd, Some chan =>
      if (Net.nick_id us =? 0) || negb (identified_in d us) || (stricmp cmd "LIST" =? 0) then t
      else if stricmp cmd "ADD" =? 0 then added_join d (Net.nick_id us) chan t
      else if stricmp cmd "DEL" =? 0 then deleted_joins d (Net.nick_id us) chan t
      else t
  | _, _ => t
  end.

(** A change for nick [i] alone, that keeps the table well formed and the rows of
    [i] numbered. *)
Record join_change d (i : Z) t t' : Prop := {
  jc_ok : joins_ok d t -> joins_ok d t';
  jc_count : joins_ok d t -> counted i t -> counted i t';
  jc_other j : joins_ok d t -> j <> i -> select_where (join_of j) t' = select_where (join_of j) t
}.

Lemma join_change_refl d i t : join_change d i t t.
Proof. by split. Qed.

Lemma insert_join_change d i c count t : count = Z.of_nat (length (select_where (join_of i) t)) -> 0 <= count < 2 ^ 32 - 1 ->
  is_Some (channel d !! c) -> existsb (fun r => join_of i r && (aj_channel r =? c)) (rows t) = false ->
  join_change d i t (insert_into (fun id => mkAutojoin id i (u32 (count + 1)) c) t).
Proof.
  intros Hc Hmax Hlive Hnew.
  assert (Hold : forall r, r ∈ rows t -> aj_nick r = i -> aj_channel r <> c).
  { intros r Hr Hi Hcr. assert (Ht : existsb (fun r => join_of i r && (aj_channel r =? c)) (rows t) = true); [|congruence].
    apply existsb_exists. exists r. unfold join_of. by rewrite <- list_elem_of_In, Hi, Hcr, !Z.eqb_refl. }
  split.
  - intros [Hid Hn Ho Hl]. split; simpl.
    + apply NoDup_map_snoc; [done|]. intros r Hr. rewrite Forall_forall in Hn. specialize (Hn r Hr). simpl. lia.
    + apply Forall_app. split; [|by repeat constructor; simpl; lia]. eapply Forall_impl; [exact Hn|]. simpl. lia.
    + apply NoDup_map_snoc; [done|]. intros r Hr [= E1 E2]. by apply (Hold r).
    + apply Forall_app. split; [done|by repeat constructor].
  - intros _. unfold counted. rewrite select_inserted. cbv beta. change (join_of i (mkAutojoin _ i _ _)) with (i =? i). rewrite Z.eqb_refl, map_app, length_app. simpl. intros ->. rewrite u32_id by lia.
    rewrite Nat2Z.inj_add, <- Hc, seqZ_app by lia. simpl. by rewrite Z.add_comm.
  - intros j _ Hne. rewrite select_inserted. cbv beta. change (join_of j (mkAutojoin _ i _ _)) with (i =? j). rewrite (proj2 (Z.eqb_neq i j)) by done. apply app_nil_r.
Qed.

Lemma added_join_change d i chan t : NSAutoJoinMax < 2 ^ 32 ->
  (forall c, channel_named d chan = Some c -> is_Some (channel d !! c)) -> join_change d i t (added_join d i chan t).
Proof.
  intros Hmax Hreg. unfold added_join.
  destruct (Z.leb_spec NSAutoJoinMax (Z.of_nat (length (select_where (join_of i) t)))) as [|Hlt]; [apply join_change_refl|].
  destruct (channel_named d chan) as [c|]; [|apply join_change_refl]. simpl. destruct (c =? 0); [apply join_change_refl|]. simpl.
  destruct (existsb _ _) eqn:Ex; [apply join_change_refl|]. apply insert_join_change; [done|lia|by apply Hreg|done].
Qed.

Lemma live_joins d t i : joins_ok d t -> List.filter (joins d i) (rows t) = select_where (join_of i) t.
Proof.
  intros [_ _ _ Hl]. unfold select_where. apply List.filter_ext_in. intros r Hr. rewrite <- list_elem_of_In in Hr.
  rewrite Forall_forall in Hl. unfold joins, join_of. rewrite bool_decide_true by by apply Hl. apply andb_true_r.
Qed.

Lemma renumbered_joins_ok d i t : joins_ok d t -> joins_ok d (renumbered_joins d i t).
Proof.
  intros Hok. pose proof (renumber_for_same d i _ (jo_ids _ _ Hok)) as Hs. destruct Hok as [Hid Hn Ho Hl].
  assert (Hin : forall (P : Z * Z * Z -> Prop), Forall (fun r => P (no_idx r)) (rows t) -> Forall (fun r => P (no_idx r)) (renumber_for d i (rows t))).
  { intros P. by rewrite <- !(Forall_map no_idx P), Hs. }
  assert (Hmap : forall {B} (f : Z * Z * Z -> B), map (fun r => f (no_idx r)) (renumber_for d i (rows t)) = map (fun r => f (no_idx r)) (rows t)).
  { intros B f. by rewrite <- !(map_map no_idx f), Hs. }
  split; simpl.
  - by rewrite (Hmap _ (fun x => x.1.1) : map aj_id _ = map aj_id _).
  - by apply (Hin (fun x => x.1.1 < auto_increment t)).
  - by rewrite (Hmap _ (fun x => (x.1.2, x.2)) : map (fun r => (aj_nick r, aj_channel r)) _ = map (fun r => (aj_nick r, aj_channel r)) _).
  - by apply (Hin (fun x => is_Some (channel d !! x.2))).
Qed.

Lemma deleted_joins_change d i chan t : join_change d i t (deleted_joins d i chan t).
Proof.
  unfold deleted_joins. destruct (select_where _ t) as [|r l]; [apply join_change_refl|].
  assert (Hdel : joins_ok d t -> joins_ok d (delete_where (named_join d i chan) t)).
  { intros [Hid Hn Ho Hl]. split; simpl; try by apply NoDup_map_filter. all: apply Forall_forall; intros x Hx;
      apply list_elem_of_In, filter_In in Hx as [Hx _]; rewrite <- list_elem_of_In in Hx;
      rewrite Forall_forall in Hn, Hl; by first [apply Hn|apply Hl]. }
  split.
  - intros Hok. by apply renumbered_joins_ok, Hdel.
  - intros Hok _. specialize (Hdel Hok). unfold counted. rewrite <- !(live_joins d) by by apply renumbered_joins_ok.
    apply renumber_for_numbered. apply Hdel.
  - intros j Hok Hne. specialize (Hdel Hok). rewrite <- (live_joins d) by by apply renumbered_joins_ok.
    etransitivity; [by apply renumber_for_other; [apply Hdel|]|]. rewrite (live_joins d) by done. rewrite select_delete.
    unfold select_where. clear Hok Hdel. induction (rows t) as [|x l' IH]; [done|]. simpl. destruct (join_of j x) eqn:Ej; simpl; [|done].
    assert (Hx : named_join d i chan x = false); [|by rewrite Hx, IH].
    unfold named_join, joins, join_of in *. destruct (isdigit _ && _); rewrite (proj2 (Z.eqb_neq (aj_nick x) i)) by lia; done.
Qed.
End JoinTable.

(** ** What AUTOJOIN does *)
Section AutoJoinSpec.
Context `{Conf} `{NickConf} `{AutoJoinConf} `{MySQL} `{TextOrder} {E : Type} `{!ChanDB E} `{!NickStore E}.
Context (junk : nickcache) (n : Net E) (u : ptr) (us : User) (Hrd : ready n u us).
Implicit Types (t : Table Autojoin).

Definition with_joins t (d : DB) : DB := d{{autojoin := t}}.
#[local] Notation at_joins := (at_column with_joins n).
#[local] Notation d := (db (ext n)).

Lemma wp_joins_notice t n1 text (Q : unit -> Net E -> Prop) : at_joins t n1 ->
  (forall n', at_joins t n' -> Q tt n') -> wp (notice_lang junk u text) Q n1.
Proof. by apply (wp_column_notice junk with_joins n u us). Qed.

Lemma wp_joins_select {A} t n1 (f : DB -> A) (Q : A -> Net E -> Prop) : at_joins t n1 -> Q (f (with_joins t d)) n1 -> wp (select f) Q n1.
Proof. apply (wp_column_select _ _ column_autojoin). Qed.

Lemma wp_joins_update t n1 (f : DB -> Table Autojoin -> Table Autojoin) (Q : unit -> Net E -> Prop) : at_joins t n1 ->
  (forall t' d', f (with_joins t' d') = f d') -> (forall rows d', f (d'{{nicks := rows}}) = f d') ->
  (forall n', at_joins (f d t) n' -> Q tt n') -> wp (update_db (fun d' => d'{{autojoin ::= f d'}})) Q n1.
Proof. intros Ha Ht Hn HQ. by apply (wp_column_update _ _ column_autojoin n t n1 f). Qed.

(** A list of numbers that names none is no condition. *)
Definition by_number (cmd chan : string) : bool :=
  is_numlist chan && ((stricmp cmd "LIST" =? 0) || ((stricmp cmd "DEL" =? 0) && isdigit (hd_char chan))).
Definition good_joins (args : string) : Prop := forall cmd rest chan, strtok args " " = (Some cmd, rest) -> fst (strtok rest " ") = Some chan ->
  by_number cmd chan = true -> mysql_build_query chan NSAutoJoinMax <> Some [].

Lemma autojoin_list_spec i chan t n1 : at_joins t n1 ->
  (forall c, chan = Some c -> is_numlist c = true -> mysql_build_query c NSAutoJoinMax <> Some []) ->
  wp (autojoin_list junk u i chan) (fun _ => at_joins t) n1.
Proof.
  intros Ha Hgood. unfold autojoin_list. apply wp_bind.
  assert (Hsay : forall lines n2, at_joins t n2 -> wp (match lines with
    | [] => notice_lang junk u "NICK_AUTOJOIN_NO_MATCH"
    | _ => notice_lang junk u "NICK_AUTOJOIN_LIST_HEADER";; for_each lines (fun l => notice_lang junk u l) end) (fun _ => at_joins t) n2).
  { intros [|l lines] n2 Ha2; [by eapply wp_joins_notice|]. apply wp_bind. eapply wp_joins_notice; [exact Ha2|]. intros n3 Ha3.
    apply wp_for_each; [exact Ha3|]. intros x n4 _ Ha4. by eapply wp_joins_notice. }
  destruct chan as [c|]; [|eapply wp_joins_select; [exact Ha|by apply Hsay]].
  destruct (is_numlist c) eqn:En; [|eapply wp_joins_select; [exact Ha|by apply Hsay]]. specialize (Hgood c eq_refl En).
  destruct (mysql_build_query_spec c NSAutoJoinMax) as (l & Hl & _). rewrite Hl in *. destruct l as [|x l]; [done|].
  eapply wp_joins_select; [exact Ha|by apply Hsay].
Qed.

Lemma autojoin_add_spec i chan t n1 : at_joins t n1 -> wp (autojoin_add junk u i chan) (fun _ => at_joins (added_join d i chan t)) n1.
Proof.
  intros Ha. unfold autojoin_add, added_join. apply wp_bind. eapply wp_joins_select; [exact Ha|]. cbn [autojoin with_joins].
  destruct (_ <=? _); [by eapply wp_joins_notice|]. simpl. apply wp_bind, wp_gets. rewrite (at_column_db _ _ column_autojoin n _ _ Ha). cbn [channel_named].
  destruct (_ =? 0); [by eapply wp_joins_notice|]. simpl. apply wp_bind. eapply wp_joins_select; [exact Ha|]. cbn [autojoin with_joins].
  destruct (existsb _ _); [by eapply wp_joins_notice|]. apply wp_bind.
  eapply (wp_joins_update _ _ (fun _ => insert_into _)); [exact Ha|done|done|]. intros n2 Ha2. by eapply wp_joins_notice.
Qed.

Lemma delete_joins_spec p t n1 (Q : Z -> Net E -> Prop) : at_joins t n1 ->
  (forall t' d', p (with_joins t' d') = p d') -> (forall rows d', p (d'{{nicks := rows}}) = p d') ->
  (forall n', at_joins (delete_where (p d) t) n' -> Q (Z.of_nat (length (select_where (p d) t))) n') -> wp (delete_joins p) Q n1.
Proof.
  intros Ha Hp Hn HQ. unfold delete_joins. apply wp_bind. eapply wp_joins_select; [exact Ha|]. cbn [autojoin with_joins].
  apply wp_bind. eapply (wp_joins_update _ _ (fun d' => delete_where (p d'))); [exact Ha|..].
  - intros t' d'. by rewrite Hp.
  - intros rows d'. by rewrite Hn.
  - intros n2 Ha2. apply wp_ret. rewrite Hp. by apply HQ.
Qed.

Lemma autojoin_del_spec i chan t n1 : at_joins t n1 ->
  (is_numlist chan && isdigit (hd_char chan) = true -> mysql_build_query chan NSAutoJoinMax <> Some []) ->
  wp (autojoin_del junk u i chan) (fun _ => at_joins (deleted_joins d i chan t)) n1.
Proof.
  intros Ha Hgood. unfold autojoin_del. apply wp_bind.
  assert (Hlast : forall n2, at_joins (delete_where (named_join d i chan) t) n2 ->
    let k := Z.of_nat (length (select_where (named_join d i chan) t)) in
    wp (notice_lang junk u (if k =? 0 then "NICK_AUTOJOIN_NO_MATCH" else if k =? 1 then "NICK_AUTOJOIN_DELETED_ONE"
        else "NICK_AUTOJOIN_DELETED_SEVERAL " +:+ show_int k);; when (negb (k =? 0)) (renumber_autojoins i))
      (fun _ => at_joins (deleted_joins d i chan t)) n2).
  { intros n2 Ha2 k. apply wp_bind. eapply wp_joins_notice; [exact Ha2|]. intros n3 Ha3. unfold k, deleted_joins.
    destruct (select_where _ t) as [|r l] eqn:Es; simpl.
    - apply wp_ret. by rewrite delete_none in Ha3.
    - eapply (wp_joins_update _ _ (fun d' => renumbered_joins d' i)); [exact Ha3|done|done|]. done. }
  unfold named_join in Hlast. rewrite andb_comm in Hgood. destruct (isdigit (hd_char chan) && is_numlist chan).
  - specialize (Hgood eq_refl). destruct (mysql_build_query_spec chan NSAutoJoinMax) as (l & Hl & _). rewrite Hl in *. destruct l as [|x l]; [done|].
    eapply delete_joins_spec; [exact Ha|done|done|exact Hlast].
  - eapply delete_joins_spec; [exact Ha|done|done|exact Hlast].
Qed.

(** AUTOJOIN, for every argument: the table becomes exactly what the arguments
    say of the user's nick, which takes a nick that is identified.  ADD appends a
    registered channel that is not on the list yet, up to the limit; DEL takes the
    entries numbered or the channels that match, and numbers the rest by the names
    of the channels.  The table stays well formed, the nick's entries numbered from
    1, no other nick's entry is touched, and everything else is messages. *)
Theorem do_autojoin_correct args (Hmax : NSAutoJoinMax < 2 ^ 32) (Hgood : good_joins args)
  (Hreg : forall chan c, channel_named d chan = Some c -> is_Some (channel d !! c)) :
  let t := autojoin d in let t' := autojoin_table d us args in
  join_change d (Net.nick_id us) t t' /\ (t' <> t -> identified_in d us = true /\ Net.nick_id us <> 0) /\
  wp (do_autojoin junk u args) (fun _ n' => autojoin (db (ext n')) = t' /\ at_joins t' n') n.
Proof.
  intros t t'. split; [|split].
  - unfold t', autojoin_table. destruct (strtok args " ") as [[cmd|] rest]; [|apply join_change_refl].
    destruct (fst (strtok rest " ")) as [chan|]; [|apply join_change_refl].
    repeat case_match; first [apply join_change_refl|by apply added_join_change; [|apply Hreg]|apply deleted_joins_change].
  - unfold t', autojoin_table. destruct (strtok args " ") as [[cmd|] rest]; [|done]. destruct (fst (strtok rest " ")) as [chan|]; [|done].
    destruct (Z.eqb_spec (Net.nick_id us) 0); [done|]. by destruct (identified_in d us).
  - apply (wp_mono _ (fun _ => at_joins t')).
    2: { intros a n' Ha. split; [|exact Ha]. by rewrite (at_column_db _ _ column_autojoin _ _ _ Ha). }
    pose proof (at_column_exact _ _ column_autojoin n n (rd_exact _ _ _ Hrd)) as Ht. fold t in Ht.
    unfold t', autojoin_table, do_autojoin. unfold good_joins, by_number in Hgood. fold t.
    destruct (strtok args " ") as [[cmd|] rest]; [|by eapply wp_joins_notice]. destruct (fst (strtok rest " ")) as [chan|] eqn:Ec.
    + specialize (Hgood cmd rest chan eq_refl Ec). rewrite bool_decide_false, andb_false_r by done.
      apply wp_bind. eapply (wp_column_load with_joins n u us Hrd); [exact Ht|]. destruct (Net.nick_id us =? 0); [by eapply wp_joins_notice|].
      apply wp_bind. eapply wp_ident; [exact Hrd|apply Hrd|]. clear Ht. intros n2 Ha2. pose proof (at_column_exact _ _ column_autojoin n n2 Ha2) as Ht.
      fold t in Ht. destruct (identified_in _ us); simpl; [|by eapply wp_joins_notice].
      destruct (Z.eqb_spec (stricmp cmd "LIST") 0) as [El|El]; simpl in *.
      { apply autojoin_list_spec; [exact Ht|]. intros c [= <-] Hn. apply Hgood. by rewrite Hn. }
      destruct (Z.eqb_spec (stricmp cmd "ADD") 0) as [Ead|Ead]; [by apply autojoin_add_spec|].
      destruct (Z.eqb_spec (stricmp cmd "DEL") 0) as [Ed|Ed]; [by apply autojoin_del_spec|by eapply wp_joins_notice].
    + destruct (_ && _) eqn:Esyn; [by eapply wp_joins_notice|]. rewrite bool_decide_true, andb_true_r in Esyn by done.
      apply orb_false_iff in Esyn as [Ea Ed]. apply wp_bind. eapply (wp_column_load with_joins n u us Hrd); [exact Ht|].
      destruct (Net.nick_id us =? 0); [by eapply wp_joins_notice|]. apply wp_bind. eapply wp_ident; [exact Hrd|apply Hrd|].
      clear Ht. intros n2 Ha2. pose proof (at_column_exact _ _ column_autojoin n n2 Ha2) as Ht. fold t in Ht.
      destruct (identified_in _ us); simpl; [|by eapply wp_joins_notice]. rewrite Ea, Ed.
      destruct (stricmp cmd "LIST" =? 0); [by apply autojoin_list_spec|by eapply wp_joins_notice].
Qed.
End AutoJoinSpec.

(** ** Which channels a user joins *)
Section CheckAutoJoinsSpec.
Context `{Conf} {E : Type} `{!ChanDB E} `{!Interfaces.NickServ E} `{!NickView E}.
Implicit Types (n : Net E) (us : User) (ch : Channel).

(** The user of that nick is on a channel of that name. *)
Definition is_there n (nk chan : string) : bool :=
  match users_heap n !! g_finduser (graph_of n) nk with
  | Some us => existsb (fun c => match chans_heap n !! c with Some ch => stricmp (name ch) chan =? 0 | None => false end) (chans us)
  | None => false
  end.

Definition full ch : bool := has (cmode ch) CMODE_l && (limit ch <=? u32 (Z.of_nat (length (users ch)))).
Definition shut us ch : bool :=
  has (cmode ch) CMODE_i || has (cmode ch) CMODE_k || full ch || default false (is_banned us (Some ch)).

Definition invitation (d : DB) us ch : list Msg :=
  if negb (channel_id ch =? 0) && permits d us (channel_id ch) CA_INVITE && shut us ch then
    (if has (col d ci_flags 0 (channel_id ch)) CI_VERBOSE
     then [Cmd (Some s_ChanServ) ("NOTICE @" +:+ name ch +:+ " :" +:+ ("AUTOJOIN using INVITE for " +:+ nick us))] else []) ++
    [Cmd (Some s_ChanServ) ("INVITE " +:+ nick us +:+ " " +:+ name ch)]
  else [].

(** What is sent for one channel, first things first. *)
Definition join_messages n us (chan : string) : list Msg :=
  if is_there n (nick us) chan then []
  else (match chans_heap n !! g_findchan (graph_of n) chan with Some ch => invitation (db (ext n)) us ch | None => [] end) ++
       [Cmd (Some ServerName) ("SVSJOIN " +:+ nick us +:+ " " +:+ chan)].

Definition channels_to_join us (d : DB) : list string := if Net.nick_id us =? 0 then [] else wanted_channels (Net.nick_id us) d.

(** No ban is the lone [!] that [match_usermask] cannot read. *)
Definition bans_readable n us : Prop := forall c ch, chans_heap n !! c = Some ch -> is_banned us (Some ch) <> None.

Lemma query_is_on_chan n nk chan : heap_ok (graph_of n) -> query n (is_on_chan nk chan) (is_there n nk chan).
Proof.
  intros Hg. unfold is_on_chan, is_there. apply wp_bind. eapply wp_intro; [by apply finduser_det|].
  destruct (finduser_cases n nk Hg) as [[E0 Hnull]|[Hne [us Hu]]]; [rewrite E0, Hnull; apply query_ret|].
  rewrite (proj2 (Z.eqb_neq _ _) Hne), Hu. apply wp_bind. eapply wp_load_user; [exact Hu|].
  assert (Hl : forall c, c ∈ chans us -> is_Some (chans_heap n !! c)).
  { intros c Hc. apply is_Some_graph_chan. eapply (ho_chans _ Hg (g_finduser (graph_of n) nk) (user_view us)); [apply graph_user; eauto|exact Hc]. }
  induction (chans us) as [|c l IH]; [apply query_ret|]. destruct (Hl c ltac:(constructor)) as [ch Hc].
  simpl. apply wp_bind. eapply wp_load_chan; [exact Hc|]. rewrite Hc. destruct (_ =? 0); [apply query_ret|].
  apply IH. intros c' Hc'. apply Hl. by constructor.
Qed.

Lemma query_barred n us c ch : c <> NULL -> chans_heap n !! c = Some ch -> is_banned us (Some ch) <> None -> query n (barred us c) (shut us ch).
Proof.
  intros Hne Hc Hb. unfold barred, shut, full. apply wp_bind. eapply wp_load_chan; [exact Hc|].
  destruct (has (cmode ch) CMODE_i || has (cmode ch) CMODE_k); [apply query_ret|]. simpl.
  eapply (query_bind _ _ _ (has (cmode ch) CMODE_l && (limit ch <=? u32 (Z.of_nat (length (users ch)))))).
  - destruct (has (cmode ch) CMODE_l); [|apply query_ret]. unfold chan_count_users. rewrite (proj2 (Z.eqb_neq _ _) Hne).
    apply wp_bind, wp_bind. eapply wp_load_chan; [exact Hc|]. apply wp_ret, query_ret.
  - intros n' _. destruct (_ && _); [apply query_ret|]. simpl in *. destruct (banned_loop (newbans ch) us); [apply query_ret|done].
Qed.

Lemma wp_emit_more o n n1 msg (Q : unit -> Net E -> Prop) : sent o n n1 -> (forall n', sent (msg :: o) n n' -> Q tt n') -> wp (emit msg) Q n1.
Proof. intros Hs HQ. apply wp_modify, HQ. exact (sent_trans o [msg] _ _ _ Hs (sent_msg _ _ _ eq_refl)). Qed.

Lemma invite_first_spec o n n1 u us c ch : users_heap n !! u = Some us -> c <> NULL -> chans_heap n !! c = Some ch ->
  is_banned us (Some ch) <> None -> sent o n n1 ->
  wp (invite_first u c) (fun _ => sent (rev (invitation (db (ext n)) us ch) ++ o) n) n1.
Proof.
  intros Hu Hne Hc Hb Hs. unfold invite_first, invitation. apply wp_bind. eapply wp_load_chan; [by rewrite (sent_chans _ _ _ Hs)|].
  destruct (channel_id ch =? 0); [by apply wp_ret|]. apply wp_bind.
  eapply wp_cmd_asks; [exact Hs|apply query_check_access; by rewrite (sent_users _ _ _ Hs)|]. rewrite (sent_db _ _ _ Hs). intros n2 H2.
  destruct (permits _ _ _ _); simpl; [|by apply wp_ret]. apply wp_bind. eapply wp_load_user; [by rewrite (sent_users _ _ _ H2)|].
  apply wp_bind. eapply wp_cmd_asks; [exact H2|apply (query_barred _ us c ch); [done|by rewrite (sent_chans _ _ _ H2)|done]|]. intros n3 H3.
  destruct (shut us ch); simpl; [|by apply wp_ret].
  apply wp_bind. eapply wp_cmd_asks; [exact H3|apply query_column|]. rewrite (sent_db _ _ _ H3). intros n4 H4. apply wp_bind.
  destruct (has _ CI_VERBOSE); simpl.
  - unfold opnotice, send_cmd. eapply wp_emit_more; [exact H4|]. intros n5 H5. by eapply wp_emit_more.
  - apply wp_ret. by eapply wp_emit_more.
Qed.

Lemma autojoin_one_spec o n n1 u us chan : heap_ok (graph_of n) -> users_heap n !! u = Some us -> bans_readable n us -> sent o n n1 ->
  wp (autojoin_one u chan) (fun _ => sent (rev (join_messages n us chan) ++ o) n) n1.
Proof.
  intros Hg Hu Hb Hs. unfold autojoin_one, join_messages. pose proof (sent_graph _ _ _ Hs) as Hgr.
  apply wp_bind. eapply wp_load_user; [by rewrite (sent_users _ _ _ Hs)|]. apply wp_bind.
  eapply wp_cmd_asks; [exact Hs|apply query_is_on_chan; by rewrite Hgr|]. intros n2 H2.
  replace (is_there n1 (nick us) chan) with (is_there n (nick us) chan)
    by (unfold is_there; by rewrite Hgr, (sent_users _ _ _ Hs), (sent_chans _ _ _ Hs)).
  destruct (is_there _ _ _); [by apply wp_ret|]. apply wp_bind. pose proof (sent_graph _ _ _ H2) as Hg2.
  eapply wp_intro; [apply findchan_det; by rewrite Hg2|]. rewrite Hg2. apply wp_bind. rewrite rev_app_distr. simpl.
  destruct (Z.eqb_spec (g_findchan (graph_of n) chan) NULL) as [E0|Hne]; simpl.
  - apply wp_ret. destruct (chans_heap n !! g_findchan (graph_of n) chan) as [ch|] eqn:Hc; [|eapply wp_emit_more; [exact H2|intros n3 H3; exact H3]].
    rewrite E0 in Hc. by apply (chan_addr _ _ _ Hg) in Hc.
  - destruct (g_findchan_some _ _ Hne) as [cv Hcv]. assert (is_Some (chans_heap n !! g_findchan (graph_of n) chan)) as [ch Hc]
      by (apply is_Some_graph_chan; by exists cv). rewrite Hc.
    eapply wp_mono; [by eapply invite_first_spec; [exact Hu|exact Hne|exact Hc|by eapply Hb|exact H2]|]. intros [] n3 H3. by eapply wp_emit_more.
Qed.

(** C23: Who has identified, or come to his nick, joins exactly the registered channels
    on his list that he is not on, if his nick has AUTOJOIN set; where he could not
    enter by himself but may use INVITE, ChanServ invites him first.  Nothing else
    is sent and nothing else changes. *)
Theorem check_autojoins_correct n u us (Hg : heap_ok (graph_of n)) (Hu : users_heap n !! u = Some us) (Hb : bans_readable n us) :
  wp (check_autojoins u) (fun _ n' =>
    sent (rev (concat (map (join_messages n us) (channels_to_join us (db (ext n)))))) n n') n.
Proof.
  unfold check_autojoins, channels_to_join. apply wp_bind. eapply wp_load_user; [exact Hu|].
  destruct (_ =? 0); [apply wp_ret; apply quiet_sent, quiet_refl|]. apply wp_bind, wp_gets.
  assert (Hall : forall l o n1, sent o n n1 -> wp (for_each l (autojoin_one u)) (fun _ => sent (rev (concat (map (join_messages n us) l)) ++ o) n) n1).
  { induction l as [|chan l IH]; intros o n1 Hs; [by apply wp_ret|]. simpl. apply wp_bind.
    eapply wp_mono; [by eapply autojoin_one_spec|]. intros [] n2 H2. rewrite rev_app_distr, <- app_assoc. by apply IH. }
  specialize (Hall (wanted_channels (Net.nick_id us) (db (ext n))) [] n). rewrite app_nil_r in Hall.
  apply Hall, quiet_sent, quiet_refl.
Qed.
End CheckAutoJoinsSpec.

(** ** Examples *)
Module Witness.

(** alice, identified, puts #a on her list. *)
Module Command.
Import Registry NickLinks.Witness NickCmds.Witness.

#[export] Instance autojoinconf : AutoJoinConf := {NSAutoJoinMax := 5}.
#[export] Instance text_order : TextOrder := {text_rank := fun s => Z.of_nat (String.length s)}.

Definition net : Net E := NickCmds.Witness.net (alice_row NS_IDENTIFIED 0) [].

Lemma do_autojoin_correct_witness : exists n', do_autojoin junk 1 "ADD #a" net = Some (tt, n') /\
  rows (autojoin (db (ext n'))) = [mkAutojoin 1 7 1 1] /\ joins_ok (db (ext net)) (autojoin (db (ext n'))).
Proof.
  assert (Hgood : good_joins "ADD #a") by (intros cmd rest chan [= <- <-] [= <-] Hn; vm_compute in Hn; discriminate Hn).
  assert (Hreg : forall chan c, channel_named (db (ext net)) chan = Some c -> is_Some (channel (db (ext net)) !! c)).
  { intros chan c Hc. change (channel_named (db (ext net)) chan) with (if String.eqb chan "#a" then Some 1 else None) in Hc.
    destruct (String.eqb chan "#a"); [injection Hc as <-; exists Tables.row; apply lookup_singleton_eq|discriminate Hc]. }
  assert (Hmax : NSAutoJoinMax < 2 ^ 32) by (vm_compute; reflexivity).
  pose proof (do_autojoin_correct junk net 1 alice (alice_ready _ _) "ADD #a" Hmax Hgood Hreg) as H.
  destruct H as (Hc & _ & Hw). apply wp_run in Hw as ([] & n' & Hrun & Ht & _). exists n'. split; [exact Hrun|]. rewrite Ht.
  split; [vm_compute; reflexivity|]. apply (jc_ok _ _ _ _ Hc). split; simpl; repeat constructor.
Defined.

(** A list of numbers without a range ends Services. *)
Lemma autojoin_empty_range_fatal : do_autojoin junk 1 "LIST 2-0" net = None /\ do_autojoin junk 1 "DEL 2-0" net = None.
Proof. vm_compute. split; reflexivity. Qed.
End Command.

(** bob, who founded #a, has it on his list; it is invite-only and he is not on it. *)
Module Joins.
Import Tables.
#[local] Existing Instance Demo.conf.

Definition bob : User := Demo.bob{{Net.nick_id := 7; real_id := 7}}.

Definition net : Net DB :=
  let m := Tables.net in
  m{{users_heap ::= insert 3 bob; chans_heap ::= alter (fun c => c{{cmode := CMODE_i}}) 2;
     ext ::= fun d => d{{nicks ::= alter (fun r => r{{n_flags := NI_AUTOJOIN}}) 7; autojoin := mkTable [mkAutojoin 1 7 1 1] 2}} }}.

Lemma check_autojoins_correct_witness : exists n', check_autojoins 3 net = Some (tt, n') /\
  out n' = [Cmd (Some "services.oftc.net"%string) "SVSJOIN bob #a"; Cmd (Some "ChanServ"%string) "INVITE bob #a"].
Proof.
  assert (Hg : heap_ok (graph_of net)) by (replace (graph_of net) with (graph_of Demo.net) by (vm_compute; reflexivity); apply Demo.net_ok).
  assert (Hu : users_heap net !! 3 = Some bob) by reflexivity.
  assert (Hb : bans_readable net bob).
  { intros c ch Hc. change (chans_heap net) with ({[2 := Demo.chan_a{{channel_id := 1; cmode := CMODE_i}}]} : gmap ptr Channel) in Hc.
    apply lookup_singleton_Some in Hc as [_ <-]. vm_compute. discriminate. }
  pose proof (check_autojoins_correct net 3 bob Hg Hu Hb) as Hw. apply wp_run in Hw as ([] & n' & Hrun & e & -> & _).
  exists (net{{ext := e; out := rev (concat (map (join_messages net bob) (channels_to_join bob (db (ext net))))) ++ out net}}). split; [exact Hrun|].
  vm_compute. reflexivity.
Defined.
End Joins.
End Witness.
