(* ===== verification/MemoServ.v ===== *)
(** MemoServ: memos to nicks and channels ([src/memoserv.c]).

    The tables [memo] and [memoinfo] are those of ChanDB.v.  A memo belongs to the
    nick or channel it names in [owner]; the memos of an owner are numbered from 1
    in the order they were sent. *)

From Stdlib Require Import Sorting.Sorted.
From S2P Require Import Prelude CStr NumTime Wp Track Graph Net Masks Interfaces Part Channels Users Walk Table Query ChanDB ChanServ Mlock CsAccess OperDB Commands.

Class MemoConf := {
  MSMaxMemos : Z;
  MSSendDelay : Z;
  MSNotifyAll : bool;
  MSROT13 : bool
}.

(** Memo flags, and those of nicks and channels that concern memos. *)
Definition MF_UNREAD : Z := 0x1.
Definition MF_GLOBALSEND : Z := 0x2.
Definition MF_OPERSEND : Z := 0x4.
Definition MF_CSOPSEND : Z := 0x8.
Definition CI_MEMO_HARDMAX : Z := 0x400.

Section MemoServ.
Context `{Conf} `{MemoConf} `{MySQL} {E : Type} `{!ChanDB E} `{!NickServ E} `{!Part OperDB E}.
Implicit Types (n : Net E).

Definition tell (u : ptr) (text : string) : M (Net E) unit :=
  us ← load_user u; emit (Notice s_MemoServ (nick us) text).

(** *** The tables *)
Definition owned_by (owner : string) (m : Memo) : bool := same_text (m_owner m) owner.

Definition count_memos (owner : string) : M (Net E) Z :=
  select (fun d => Z.of_nat (length (select_where (owned_by owner) (memo d)))).
Definition count_memos_with_flags (owner : string) (flags : Z) : M (Net E) Z :=
  select (fun d => Z.of_nat (length (select_where (fun m => owned_by owner m && has (m_flags m) flags) (memo d)))).
Definition count_new_memos (owner : string) : M (Net E) Z := count_memos_with_flags owner MF_UNREAD.

Definition new_chan_memos (channel_id last_read : Z) : M (Net E) Z :=
  select (fun d => match channel d !! channel_id with
                   | Some ci => Z.of_nat (length (select_where (fun m => owned_by (ci_name ci) m && (last_read <? m_time m)) (memo d)))
                   | None => 0
                   end).

(** The row, and whether the owner is a channel and whether it is forbidden. *)
Definition get_memoinfo_from_owner (owner : string) : M (Net E) (option MemoInfo * bool * bool) :=
  let ischan := Ascii.eqb (hd_char owner) "#" in
  let find := select (fun d => find_first (fun r => same_text (mi_owner r) owner) (rows (memoinfo d))) in
  if ischan then
    channel_id ← ChanDB.mysql_findchan owner;
    if channel_id =? 0 then mret (None, ischan, false)
    else
      flags ← get_chan_flags channel_id;
      if has flags CI_VERBOTEN then mret (None, ischan, true) else r ← find; mret (r, ischan, false)
  else
    nick_id ← CsAccess.mysql_findnick owner;
    if nick_id =? 0 then mret (None, ischan, false)
    else
      status ← get_nick_status nick_id;
      if has status NS_VERBOTEN then mret (None, ischan, true) else r ← find; mret (r, ischan, false).

(** [mi.max], 0 where there is no row. *)
Definition max_of (mi : option MemoInfo) : Z := match mi with Some r => mi_max r | None => 0 end.

Definition renumbered (owner : string) (t : Table Memo) : Table Memo :=
  update_where (owned_by owner) (fun m => m{{m_owner := owner}})
    (mkTable (renumber_where (owned_by owner) m_time (rows t)) (auto_increment t)).

Definition renumber_memos (owner : string) : M (Net E) unit := update_db (fun d => d{{memo ::= renumbered owner}}).

Definition get_memo_idx (memo_id : Z) : M (Net E) Z :=
  select (fun d => match find_first (fun m => m_id m =? memo_id) (rows (memo d)) with Some m => m_idx m | None => 0 end).
Definition mark_memo_read (memo_id : Z) : M (Net E) unit :=
  update_db (fun d => d{{memo ::= update_where (fun m => m_id m =? memo_id) (fun m => m{{m_flags ::= Z.land (Z.lnot MF_UNREAD)}})}}).
Definition set_memo_limit (memoinfo_id max : Z) : M (Net E) unit :=
  update_db (fun d => d{{memoinfo ::= update_where (fun r => mi_id r =? memoinfo_id) (fun r => r{{mi_max := max}})}}).

(** The text as it is stored. *)
Definition stored (text : string) : string := if MSROT13 then rot13 text else text.

(** *** Sending *)

Definition new_memo (owner source text : string) (t id : Z) : Memo :=
  mkMemo id owner 0 MF_UNREAD t source (stored text) MSROT13.

(** Those who want to know are told: of a memo to a nick the users of the master
    nick (all of them, or the first), of one to a channel the members who may
    read it. *)
Definition notify_nick (name source : string) (number : Z) : M (Net E) unit :=
  i ← CsAccess.mysql_findnick name;
  nick_id ← CsAccess.mysql_getlink i;
  flags ← CsAccess.get_nick_flags nick_id;
  when (has flags NI_MEMO_RECEIVE)
    (if MSNotifyAll then
       walk (fun r (_ : unit) =>
         us ← load_user r;
         when (real_id us =? nick_id) (tell r ("MEMO_NEW_MEMO_ARRIVED " +:+ source +:+ " " +:+ show_int number))) tt
     else
       r ← finduser name;
       when (negb (r =? NULL)) (tell r ("MEMO_NEW_MEMO_ARRIVED " +:+ source +:+ " " +:+ show_int number))).

Definition notify_chan (u : ptr) (name source : string) (number : Z) : M (Net E) unit :=
  c ← findchan name;
  if c =? NULL then mret tt
  else
    ch ← load_chan c;
    for_each (users ch) (fun r =>
      known ← nick_recognized r;
      if negb known || (r =? u) then mret tt
      else
        ok ← check_access r (channel_id ch) CA_MEMO_READ;
        when ok (tell r ("MEMO_NEW_CHAN_MEMO_ARRIVED " +:+ source +:+ " " +:+ show_int number))).

Definition send_memo (u : ptr) (name source text : string) : M (Net E) unit :=
  t ← gets now;
  memo_id ← select (fun d => auto_increment (memo d));
  update_db (fun d => d{{memo ::= insert_into (new_memo name source text t)}});;
  renumber_memos name;;
  number ← get_memo_idx memo_id;
  when (negb (u =? NULL)) (tell u ("MEMO_SENT " +:+ name));;
  match strchr name "#" with
  | None => notify_nick name source number
  | Some _ => notify_chan u name source number
  end.

Definition stamp_send (u : ptr) (t : Z) : M (Net E) unit := upd_user u (fun us => us{{lastmemosend := t}}).

(** The master nick of the nick asked for; [NULL] if that has no row. *)
Definition addressee (name : string) : M (Net E) (option string) :=
  match strchr name "#" with
  | Some _ => mret (Some name)
  | None =>
      i ← CsAccess.mysql_findnick name;
      nick_id ← CsAccess.mysql_getlink i;
      if nick_id =? 0 then mret (Some name) else get_nick_from_id nick_id
  end.

Definition do_send (u : ptr) (args : string) : M (Net E) unit :=
  let '(name, rest) := strtok args " " in
  let '(text, _) := strtok rest "" in
  t ← gets now;
  is_servadmin ← Interfaces.is_services_admin u;
  name ← (match name with Some nm => addressee nm | None => mret None end : M (Net E) (option string));
  match text with
  | None => tell u "MEMO_SEND_SYNTAX"
  | Some text =>
      known ← nick_recognized u;
      if negb known then tell u "NICK_IDENTIFY_REQUIRED"
      else
        match name with
        | None => fault                        (* owner[0] *)
        | Some name =>
            '(mi, ischan, isverboten) ← get_memoinfo_from_owner name;
            match mi with
            | None =>
                tell u (if isverboten : bool then if ischan : bool then "CHAN_X_FORBIDDEN" else "NICK_X_FORBIDDEN"
                        else if ischan : bool then "CHAN_X_NOT_REGISTERED" else "NICK_X_NOT_REGISTERED")
            | Some mi =>
                us ← load_user u;
                count ← count_memos name;
                if (0 <? MSSendDelay) && (t <? lastmemosend us + MSSendDelay) && negb is_servadmin then
                  stamp_send u t;; tell u "MEMO_SEND_PLEASE_WAIT"
                else if (mi_max mi =? 0) && negb is_servadmin then tell u "MEMO_X_GETS_NO_MEMOS"
                else if (0 <? mi_max mi) && (mi_max mi <=? count) && negb is_servadmin then
                  tell u "MEMO_X_HAS_TOO_MANY_MEMOS"
                else
                  channel_id ← (if ischan : bool then ChanDB.mysql_findchan name else mret 0);
                  allowed ← (if channel_id =? 0 then mret true else check_access u channel_id CA_MEMO_SEND);
                  if negb allowed then tell u "ACCESS_DENIED"
                  else stamp_send u t;; send_memo u name (nick us) text
            end
        end
  end.

(** *** To all at once *)

(** The next number of an owner: [IFNULL (MAX (memo.idx) + 1, 1)]. *)
Definition next_idx (d : DB) (owner : string) : Z :=
  1 + fold_right Z.max 0 (map m_idx (select_where (owned_by owner) (memo d))).

(** The master nicks of [memoinfo] that are [eligible]; MySQL may group them in
    any order, the model takes that of the table. *)
Definition recipients (eligible : Z -> NickRow -> bool) (d : DB) : list MemoInfo :=
  select_where (fun mi => match nickinfo_named d (mi_owner mi) with
                          | Some (i, r) => (n_link r =? 0) && eligible i r
                          | None => false
                          end) (memoinfo d).

Definition mass_memo (flags : Z) (text : string) (t : Z) (d : DB) (t' : Table Memo) (mi : MemoInfo) : Table Memo :=
  insert_into (fun id => mkMemo id (mi_owner mi) (next_idx d (mi_owner mi)) (MF_UNREAD .| flags) t s_GlobalNoticer
                           (stored text) MSROT13) t'.

(** The rows to notify: owners of memos, with their last number. *)
Definition notify_mass (eligible : Z -> NickRow -> bool) : M (Net E) unit :=
  d ← gets (fun n => db (ext n));
  for_each (List.filter (fun mi => existsb (owned_by (mi_owner mi)) (rows (memo d))) (recipients eligible d)) (fun mi =>
    match nickinfo_named d (mi_owner mi) with
    | None => mret tt
    | Some (nick_id, r) =>
        let text := "MEMO_NEW_MEMO_ARRIVED " +:+ s_GlobalNoticer +:+ " " +:+ show_int (next_idx d (mi_owner mi) - 1) in
        if MSNotifyAll then
          walk (fun u2 (_ : unit) => us ← load_user u2; when (real_id us =? nick_id) (tell u2 text)) tt
        else
          u2 ← finduser (n_nick r);
          when (negb (u2 =? NULL)) (tell u2 text)
    end).

Definition mass_send (u : ptr) (args syntax done : string) (flags : Z) (eligible : DB -> OperDB -> Z -> NickRow -> bool)
    (to_notify : DB -> OperDB -> Z -> NickRow -> bool) : M (Net E) unit :=
  match fst (strtok args "") with
  | None => tell u syntax
  | Some text =>
      known ← nick_recognized u;
      if negb known then tell u "NICK_IDENTIFY_REQUIRED"
      else
        t ← gets now;
        stamp_send u t;;
        o ← gets (fun n => owned n);
        d ← gets (fun n => db (ext n));
        update_db (fun d => d{{memo ::= fun tab => fold_left (mass_memo flags text t d) (recipients (eligible d o) d) tab}});;
        notify_mass (to_notify d o);;
        tell u done;;
        us ← load_user u;
        wallops (Some s_MemoServ) (nick us +:+ " has just sent a global memo")
  end.

Definition do_globalsend (u : ptr) (args : string) : M (Net E) unit :=
  mass_send u args "MEMO_GLOBALSEND_SERVADMIN_SYNTAX" "MEMO_SERVADMIN_GLOBALSENT" MF_GLOBALSEND
    (fun _ _ _ _ => true) (fun _ _ _ r => has (n_flags r) NI_MEMO_RECEIVE).

Definition do_csopsend (u : ptr) (args : string) : M (Net E) unit :=
  mass_send u args "MEMO_CSOPSEND_SERVADMIN_SYNTAX" "MEMO_SERVADMIN_CSOPSENT" MF_CSOPSEND
    (fun _ o i _ => bool_decide (i ∈ oper o))
    (fun _ o i r => bool_decide (i ∈ oper o) && has (n_flags r) NI_MEMO_RECEIVE).

(** The [INSERT] names seven columns and gives eight values: MySQL refuses it, and
    Services end. *)
Definition do_opersend (u : ptr) (args : string) : M (Net E) unit :=
  match fst (strtok args "") with
  | None => tell u "MEMO_OPERSEND_SERVADMIN_SYNTAX"
  | Some text =>
      known ← nick_recognized u;
      if negb known then tell u "NICK_IDENTIFY_REQUIRED" else t ← gets now; stamp_send u t;; fault
  end.

(** *** Reading and deleting *)

(** Whose memos the command is about: a channel's, if the user has the ability
    there, or those of the nick in use.  [None] when the user was told why not. *)
Definition memo_owner (u : ptr) (chan : option string) (ability : Z) : M (Net E) (option string) :=
  match chan with
  | Some c =>
      i ← ChanDB.mysql_findchan c;
      ci ← select (fun d => channel d !! i);
      match ci with
      | None => tell u "CHAN_X_NOT_REGISTERED";; mret None
      | Some ci =>
          if has (ci_flags ci) CI_VERBOTEN then tell u "CHAN_X_FORBIDDEN";; mret None
          else
            ok ← check_access u i ability;
            if negb ok then tell u "ACCESS_DENIED";; mret None else mret (Some c)
      end
  | None =>
      ident ← nick_identified u;
      if negb ident then tell u "NICK_IDENTIFY_REQUIRED";; mret None
      else
        us ← load_user u;
        nk ← get_nick_from_id (real_id us);
        match nk with None => fault | Some nk => mret (Some nk) end
  end.

Definition starts_with (c : ascii) (s : option string) : bool :=
  match s with Some s => Ascii.eqb (hd_char s) c | None => false end.
Definition is_word (s w : string) : bool := stricmp s w =? 0.

(** [MAX ((unsigned int) (mi.max + 1), cnt + 1)] *)
Definition memo_bound (mi : option MemoInfo) (cnt : Z) : Z := Z.max (u32 (max_of mi + 1)) (cnt + 1).

(** The memos a list of numbers names, in their order; a list without a range makes
    a query MySQL refuses. *)
Definition memos_numbered (owner numstr : string) (max : Z) (d : DB) : option (list Memo) :=
  match mysql_build_query numstr max with
  | None | Some [] => None
  | Some l => Some (order_by m_idx (select_where (fun m => owned_by owner m && in_ranges l (m_idx m)) (memo d)))
  end.

Definition ordered_memos (p : Memo -> bool) (owner : string) (d : DB) : list Memo :=
  order_by m_idx (select_where (fun m => owned_by owner m && p m) (memo d)).

Definition list_line (m : Memo) : string :=
  (if has (m_flags m) MF_UNREAD then "*" else " ") +:+ show_int (m_idx m) +:+ " " +:+ m_sender m.

Definition no_memos (u : ptr) (chan : option string) : M (Net E) unit :=
  tell u (match chan with Some _ => "MEMO_X_HAS_NO_MEMOS" | None => "MEMO_HAVE_NO_MEMOS" end).

Definition do_list (u : ptr) (args : string) : M (Net E) unit :=
  let '(param, rest) := strtok args " " in
  let chan := if starts_with "#" param then param else None in
  let param := match chan with Some _ => fst (strtok rest " ") | None => param end in
  owner ← memo_owner u chan CA_MEMO_READ;
  match owner with
  | None => mret tt
  | Some owner =>
      '(mi, _, _) ← get_memoinfo_from_owner owner;
      let digit := match param with Some p => isdigit (hd_char p) | None => false end in
      let new := match param with Some p => negb digit | None => false end in
      if match param with Some p => new && negb (is_word p "NEW") | None => false end then tell u "MEMO_LIST_SYNTAX"
      else
        cnt ← count_memos owner;
        if cnt =? 0 then no_memos u chan
        else
          found ← select (fun d =>
            match param with
            | None => Some (ordered_memos (fun _ => true) owner d)
            | Some p => if digit then memos_numbered owner p (memo_bound mi cnt) d
                        else Some (ordered_memos (fun m => has (m_flags m) MF_UNREAD) owner d)
            end);
          match found with
          | None => fault
          | Some l =>
              when (negb (bool_decide (l = [])))
                (tell u (match chan with Some _ => if new then "MEMO_LIST_CHAN_NEW_MEMOS" else "MEMO_LIST_CHAN_MEMOS"
                                       | None => if new then "MEMO_LIST_NEW_MEMOS" else "MEMO_LIST_MEMOS" end);;
                 tell u "MEMO_LIST_HEADER");;
              for_each l (fun m => tell u (list_line m))
          end
  end.

Definition shown_text (m : Memo) : string :=
  (if has (m_flags m) MF_GLOBALSEND then "MEMO_GLOBAL_TEXT "
   else if has (m_flags m) MF_OPERSEND then "MEMO_OPER_TEXT "
   else if has (m_flags m) MF_CSOPSEND then "MEMO_CSOP_TEXT " else "MEMO_TEXT ") +:+
  (if m_rot13 m then rot13 (m_text m) else m_text m).

Definition memo_header (m : Memo) : string := show_int (m_idx m) +:+ " " +:+ m_sender m.

Definition read_memo (u : ptr) (chan : option string) (m : Memo) : M (Net E) unit :=
  match chan with
  | Some c => tell u ("MEMO_CHAN_HEADER " +:+ memo_header m);; update_memo_time u c (m_time m)
  | None => tell u ("MEMO_HEADER " +:+ memo_header m)
  end;;
  tell u (shown_text m);;
  mark_memo_read (m_id m).

Definition do_read (u : ptr) (args : string) : M (Net E) unit :=
  let '(numstr, rest) := strtok args " " in
  let chan := if starts_with "#" numstr then numstr else None in
  let numstr := match chan with Some _ => fst (strtok rest " ") | None => numstr end in
  owner ← memo_owner u chan CA_MEMO_READ;
  match owner with
  | None => mret tt
  | Some owner =>
      '(mi, _, _) ← get_memoinfo_from_owner owner;
      match numstr with
      | None => tell u "MEMO_READ_SYNTAX"
      | Some s =>
          if negb (is_word s "LAST") && negb (is_word s "NEW") && negb (is_word s "ALL") && (atoi s <=? 0)
          then tell u "MEMO_READ_SYNTAX"
          else
            cnt ← count_memos owner;
            if cnt =? 0 then no_memos u chan
            else
              found ← select (fun d =>
                if is_word s "NEW" then Some (ordered_memos (fun m => has (m_flags m) MF_UNREAD) owner d)
                else if is_word s "ALL" then Some (ordered_memos (fun _ => true) owner d)
                else if is_word s "LAST" then
                  Some (match last (ordered_memos (fun _ => true) owner d) with Some m => [m] | None => [] end)
                else memos_numbered owner s (memo_bound mi cnt) d);
              match found with
              | None => fault
              | Some [] =>
                  tell u (match chan with Some _ => "MEMO_X_HAS_NO_NEW_MEMOS" | None => "MEMO_HAVE_NO_NEW_MEMOS" end)
              | Some l => for_each l (read_memo u chan)
              end
      end
  end.

Definition delete_memos (p : Memo -> bool) : M (Net E) Z :=
  k ← select (fun d => Z.of_nat (length (select_where p (memo d))));
  update_db (fun d => d{{memo ::= delete_where p}});;
  mret k.

Definition do_del (u : ptr) (args : string) : M (Net E) unit :=
  let '(numstr, _) := strtok args "" in
  let is_chan := starts_with "#" numstr in
  let '(chan, rest) := strtok (default EmptyString numstr) " " in
  let chan := if is_chan then chan else None in
  let numstr := if is_chan then fst (strtok rest "") else numstr in
  owner ← memo_owner u chan CA_MEMO_SEND;
  match owner with
  | None => mret tt
  | Some owner =>
      '(mi, _, _) ← get_memoinfo_from_owner owner;
      match numstr with
      | None => tell u "MEMO_DEL_SYNTAX"
      | Some s =>
          if negb (isdigit (hd_char s)) && negb (is_word s "ALL") then tell u "MEMO_DEL_SYNTAX"
          else
            cnt ← count_memos owner;
            if cnt =? 0 then no_memos u chan
            else
              k ← (if isdigit (hd_char s) then
                     match mysql_build_query s (memo_bound mi cnt) with
                     | None | Some [] => fault
                     | Some l => k ← delete_memos (fun m => owned_by owner m && in_ranges l (m_idx m)); renumber_memos owner;; mret k
                     end
                   else delete_memos (owned_by owner));
              tell u (if k =? 0 then "MEMO_DELETED_NONE" else "MEMO_DELETED_X " +:+ show_int k)
      end
  end.

(** *** Settings *)

Definition do_set_notify (u : ptr) (param : string) : M (Net E) unit :=
  us ← load_user u;
  let i := nick_id us in
  if is_word param "ON" then
    CsAccess.add_nick_flags i (NI_MEMO_SIGNON .| NI_MEMO_RECEIVE);; tell u "MEMO_SET_NOTIFY_ON"
  else if is_word param "LOGON" then
    CsAccess.add_nick_flags i NI_MEMO_SIGNON;; CsAccess.remove_nick_flags i NI_MEMO_RECEIVE;; tell u "MEMO_SET_NOTIFY_LOGON"
  else if is_word param "NEW" then
    CsAccess.remove_nick_flags i NI_MEMO_SIGNON;; CsAccess.add_nick_flags i NI_MEMO_RECEIVE;; tell u "MEMO_SET_NOTIFY_NEW"
  else if is_word param "OFF" then
    CsAccess.remove_nick_flags i (NI_MEMO_SIGNON .| NI_MEMO_RECEIVE);; tell u "MEMO_SET_NOTIFY_OFF"
  else tell u "MEMO_SET_NOTIFY_SYNTAX".

Definition set_chan_flags_ (i : Z) (f : Z -> Z) : M (Net E) unit := update_channel i (fun r => r{{ci_flags ::= f}}).
Definition add_chan_flags (i flags : Z) : M (Net E) unit := set_chan_flags_ i (Z.lor flags).
Definition remove_chan_flags (i flags : Z) : M (Net E) unit := set_chan_flags_ i (Z.land (Z.lnot flags)).

Definition MAX_MEMOS : Z := 32767.

(** [set_memo_limit] and the reply; [who] is the name in it, [None] the user's own. *)
Definition finish_limit (u : ptr) (mi : option MemoInfo) (limit : Z) (who : option string) : M (Net E) unit :=
  set_memo_limit (match mi with Some r => mi_id r | None => 0 end) limit;;
  tell u (match who with
          | None => if 0 <? limit then "MEMO_SET_YOUR_LIMIT" else if limit =? 0 then "MEMO_SET_YOUR_LIMIT_ZERO" else "MEMO_UNSET_YOUR_LIMIT"
          | Some _ => if 0 <? limit then "MEMO_SET_LIMIT" else if limit =? 0 then "MEMO_SET_LIMIT_ZERO" else "MEMO_UNSET_LIMIT"
          end).

(** A services admin: [SET LIMIT [#channel | nick] {limit | NONE} [HARD]].  What
    [get_memoinfo_from_owner] found for a channel is overwritten with the row of
    [user], here the admin's own nick. *)
Definition set_limit_admin (u : ptr) (chan : option (string * Z)) (p1 p2 p3 : option string) : M (Net E) unit :=
  us ← load_user u;
  let named := match p2, chan with Some s, None => negb (is_word s "HARD") | _, _ => false end in
  target ← (if named then
              let who := default EmptyString p1 in
              i ← CsAccess.mysql_findnick who;
              if i =? 0 then mret None
              else
                i ← CsAccess.mysql_getlink i;
                ni ← CsAccess.get_nickinfo_from_id i;
                match ni with None => mret None | Some _ => mret (Some (who, i, p2, p3)) end
            else mret (Some (nick us, 0, p1, p2)));
  match target with
  | None => tell u "NICK_X_NOT_REGISTERED"
  | Some (user, ni_id, p1, p2) =>
      match p1 with
      | None => tell u "MEMO_SET_LIMIT_SERVADMIN_SYNTAX"
      | Some s =>
          '(mi, _, _) ← get_memoinfo_from_owner user;
          if (negb (isdigit (hd_char s)) && negb (is_word s "NONE")) ||
             match p2 with Some h => negb (is_word h "HARD") | None => false end
          then tell u "MEMO_SET_LIMIT_SERVADMIN_SYNTAX"
          else
            (match chan, p2 with
             | Some (_, i), Some _ => add_chan_flags i CI_MEMO_HARDMAX
             | Some (_, i), None => remove_chan_flags i CI_MEMO_HARDMAX
             | None, Some _ => CsAccess.add_nick_flags ni_id NI_MEMO_HARDMAX
             | None, None => CsAccess.remove_nick_flags ni_id NI_MEMO_HARDMAX
             end);;
            let limit := atoi s in
            let over := (limit <? 0) || (MAX_MEMOS <? limit) in
            when over (tell u "MEMO_SET_LIMIT_OVERFLOW");;
            let limit := if is_word s "NONE" then -1 else if over then MAX_MEMOS else limit in
            finish_limit u mi limit
              (match chan with
               | Some (c, _) => Some c
               | None => if ni_id =? nick_id us then None else Some user
               end)
      end
  end.

(** Anybody else: [SET LIMIT [#channel] limit]. *)
Definition set_limit_user (u : ptr) (chan : option (string * Z * Z)) (mi : option MemoInfo) (p1 p2 : option string) : M (Net E) unit :=
  us ← load_user u;
  ni ← (match chan with
        | Some _ => mret (Some None)
        | None => r ← CsAccess.get_nickinfo_from_id (real_id us); mret (option_map Some r)
        end : M (Net E) (option (option NickRow)));
  match ni with
  | None => fault                             (* ni.nick is never set *)
  | Some ni =>
      mi ← (match ni with
            | None => mret mi
            | Some r => '(mi, _, _) ← get_memoinfo_from_owner (n_nick r); mret mi
            end);
      match p1, p2 with
      | Some s, None =>
          if negb (isdigit (hd_char s)) then tell u "MEMO_SET_LIMIT_SYNTAX"
          else if match chan, ni with
                  | Some (_, _, flags), _ => has flags CI_MEMO_HARDMAX
                  | None, Some r => has (n_flags r) NI_MEMO_HARDMAX
                  | None, None => false
                  end
          then tell u (match chan with Some _ => "MEMO_SET_LIMIT_FORBIDDEN" | None => "MEMO_SET_YOUR_LIMIT_FORBIDDEN" end)
          else
            let limit := atoi s in
            if (limit <? 0) || ((0 <? MSMaxMemos) && (MSMaxMemos <? limit)) then
              tell u (match chan with Some _ => "MEMO_SET_LIMIT_TOO_HIGH" | None => "MEMO_SET_YOUR_LIMIT_TOO_HIGH" end)
            else
              when (MAX_MEMOS <? limit) (tell u "MEMO_SET_LIMIT_OVERFLOW");;
              finish_limit u mi (Z.min limit MAX_MEMOS)
                (match chan with
                 | Some (c, _, _) => Some c
                 | None => if real_id us =? nick_id us then None else Some EmptyString
                 end)
      | _, _ => tell u "MEMO_SET_LIMIT_SYNTAX"
      end
  end.

Definition do_set_limit (u : ptr) (param : string) : M (Net E) unit :=
  let '(p1, rest) := strtok param " " in
  let '(p2, rest) := strtok rest " " in
  let '(p3, rest) := strtok rest " " in
  is_servadmin ← Interfaces.is_services_admin u;
  if starts_with "#" p1 then
    let c := default EmptyString p1 in
    i ← ChanDB.mysql_findchan c;
    ci ← select (fun d => channel d !! i);
    match ci with
    | None => tell u "CHAN_X_NOT_REGISTERED"
    | Some ci =>
        if has (ci_flags ci) CI_VERBOTEN then tell u "CHAN_X_FORBIDDEN"
        else
          ok ← (if is_servadmin : bool then mret true else check_access u i CA_SET);
          if negb ok then tell u "ACCESS_DENIED"
          else
            '(mi, _, _) ← get_memoinfo_from_owner c;
            if is_servadmin : bool then set_limit_admin u (Some (c, i)) p2 p3 (fst (strtok rest " "))
            else set_limit_user u (Some (c, i, ci_flags ci)) mi p2 p3
    end
  else if is_servadmin : bool then set_limit_admin u None p1 p2 p3
  else set_limit_user u None None p1 p2.

Definition do_set (u : ptr) (args : string) : M (Net E) unit :=
  let '(cmd, rest) := strtok args " " in
  let '(param, _) := strtok rest "" in
  match cmd, param with
  | Some cmd, Some param =>
      ident ← nick_identified u;
      if negb ident then tell u "NICK_IDENTIFY_REQUIRED"
      else if is_word cmd "NOTIFY" then do_set_notify u param
      else if is_word cmd "LIMIT" then do_set_limit u param
      else tell u "MEMO_SET_UNKNOWN_OPTION";; tell u "MORE_INFO"
  | _, _ => tell u "MEMO_SET_SYNTAX"
  end.

(** *** At logon *)

Definition check_memos (u : ptr) : M (Net E) unit :=
  us ← load_user u;
  if real_id us =? 0 then mret tt
  else
    known ← nick_recognized u;
    flags ← CsAccess.get_nick_flags (real_id us);
    if negb known || negb (has flags NI_MEMO_SIGNON) then mret tt
    else
      nk ← get_nick_from_id (real_id us);
      match nk with
      | None => fault                         (* owner[0] *)
      | Some nk =>
          '(mi, _, _) ← get_memoinfo_from_owner nk;
          cnt ← count_memos nk;
          newcnt ← count_new_memos nk;
          when (0 <? newcnt)
            (tell u (if newcnt =? 1 then "MEMO_HAVE_NEW_MEMO" else "MEMO_HAVE_NEW_MEMOS " +:+ show_int newcnt);;
             if newcnt =? 1 then
               all ← select (ordered_memos (fun _ => true) nk);
               if match last all with Some m => has (m_flags m) MF_UNREAD | None => false end then tell u "MEMO_TYPE_READ_LAST"
               else
                 unread ← select (ordered_memos (fun m => has (m_flags m) MF_UNREAD) nk);
                 match last unread with
                 | Some m => tell u ("MEMO_TYPE_READ_NUM " +:+ show_int (m_idx m))
                 | None => mret tt
                 end
             else tell u "MEMO_TYPE_LIST_NEW");;
          when ((0 <? max_of mi) && (max_of mi <=? cnt))
            (tell u (if max_of mi <? cnt then "MEMO_OVER_LIMIT" else "MEMO_AT_LIMIT"))
      end.

(** *** INFO, which only replies *)

(** What is counted, for the user or for somebody else. *)
Definition info_count (who : bool) (cnt ucnt : Z) : string :=
  let s := if who then "MEMO_INFO_X_" else "MEMO_INFO_" in
  s +:+ (if cnt =? 0 then "NO_MEMOS"
         else if cnt =? 1 then if ucnt =? 1 then "MEMO_UNREAD" else "MEMO"
         else if cnt =? ucnt then "MEMOS_ALL_UNREAD"
         else if ucnt =? 0 then "MEMOS"
         else if ucnt =? 1 then "MEMOS_ONE_UNREAD" else "MEMOS_SOME_UNREAD").

Definition info_notify (who : bool) (flags : Z) : string :=
  (if who then "MEMO_INFO_X_NOTIFY_" else "MEMO_INFO_NOTIFY_") +:+
  (if has flags NI_MEMO_RECEIVE && has flags NI_MEMO_SIGNON then "ON"
   else if has flags NI_MEMO_RECEIVE then "RECEIVE"
   else if has flags NI_MEMO_SIGNON then "SIGNON" else "OFF").

Definition info_limit (is_servadmin hardmax : bool) (max : Z) : string :=
  if max =? 0 then if negb is_servadmin && hardmax then "MEMO_INFO_HARD_LIMIT_ZERO" else "MEMO_INFO_LIMIT_ZERO"
  else if 0 <? max then if negb is_servadmin && hardmax then "MEMO_INFO_HARD_LIMIT" else "MEMO_INFO_LIMIT"
  else "MEMO_INFO_NO_LIMIT".

Definition info_own (u : ptr) : M (Net E) (option (string * option (Z * Z) * bool)) :=
  ident ← nick_identified u;
  if negb ident then tell u "NICK_IDENTIFY_REQUIRED";; mret None
  else
    us ← load_user u;
    ni ← CsAccess.get_nickinfo_from_id (real_id us);
    match ni with
    | None => fault                           (* ni.nick is never set *)
    | Some r => mret (Some (n_nick r, Some (real_id us, n_flags r), false))
    end.

(** The owner, the flags of a nick with its id, and whether the limit is a hard one.
    Of the user's own nick the hard limit is not looked up. *)
Definition info_subject (u : ptr) (name : option string) (is_servadmin : bool) : M (Net E) (option (string * option (Z * Z) * bool)) :=
  match name with
  | Some nm =>
      if Ascii.eqb (hd_char nm) "#" then
        i ← ChanDB.mysql_findchan nm;
        ci ← select (fun d => if i =? 0 then None else channel d !! i);
        match ci with
        | None => tell u "CHAN_X_NOT_REGISTERED";; mret None
        | Some ci =>
            if has (ci_flags ci) CI_VERBOTEN then tell u "CHAN_X_FORBIDDEN";; mret None
            else
              ok ← check_access u i CA_MEMO_READ;
              if negb ok then tell u "ACCESS_DENIED";; mret None
              else mret (Some (ci_name ci, None, has (ci_flags ci) CI_MEMO_HARDMAX))
        end
      else if is_servadmin then
        i ← CsAccess.mysql_findnick nm;
        i ← CsAccess.mysql_getlink i;
        ni ← select (fun d => if i =? 0 then None else nicks d !! i);
        match ni with
        | None => tell u "NICK_X_NOT_REGISTERED";; mret None
        | Some r =>
            if has (n_status r) NS_VERBOTEN then tell u "NICK_X_FORBIDDEN";; mret None
            else mret (Some (n_nick r, Some (i, n_flags r), has (n_flags r) NI_MEMO_HARDMAX))
        end
      else info_own u
  | None => info_own u
  end.

Definition do_info (u : ptr) (args : string) : M (Net E) unit :=
  let '(name, _) := strtok args " " in
  is_servadmin ← Interfaces.is_services_admin u;
  subject ← info_subject u name is_servadmin;
  match subject with
  | None => mret tt
  | Some (owner, ni, hardmax) =>
      us ← load_user u;
      '(mi, _, _) ← get_memoinfo_from_owner owner;
      cnt ← count_memos owner;
      ucnt ← (if cnt =? 0 then mret 0 else count_new_memos owner);
      let flags := match ni with Some (_, flags) => flags | None => 0 end in
      if match name with Some _ => negb ((match ni with Some (i, _) => i | None => 0 end) =? nick_id us) | None => false end then
        tell u (info_count true cnt ucnt);;
        (if 0 <=? max_of mi then
           tell u ("hardmax: " +:+ (if hardmax : bool then "1" else "0"));;
           tell u (if hardmax : bool then "MEMO_INFO_X_HARD_LIMIT" else "MEMO_INFO_X_LIMIT")
         else tell u "MEMO_INFO_X_NO_LIMIT");;
        when (bool_decide (is_Some ni)) (tell u (info_notify true flags))
      else
        tell u (info_count false cnt ucnt);;
        tell u (info_limit is_servadmin hardmax (max_of mi));;
        tell u (info_notify false flags)
  end.

(** *** The table of commands *)
Context `{!OperConf}.

Definition command (name : string) (routine : ptr -> string -> M (Net E) unit) (admin : bool) (help : option string) : Command E :=
  mkCommand name (Some routine) (if admin then Some Interfaces.is_services_admin else None)
    (if admin then None else help) None (if admin then help else None) (if admin then help else None)
    (if admin then help else None).

Definition cmds : list (Command E) := [
  command "SEND" do_send false (Some "MEMO_HELP_SEND");
  command "GLOBALSEND" do_globalsend true (Some "MEMO_SERVADMIN_HELP_GLOBALSEND");
  command "OPERSEND" do_opersend true (Some "MEMO_SERVADMIN_HELP_OPERSEND");
  command "CSOPSEND" do_csopsend true (Some "MEMO_SERVADMIN_HELP_CSOPSEND");
  command "LIST" do_list false (Some "MEMO_HELP_LIST");
  command "READ" do_read false (Some "MEMO_HELP_READ");
  command "DEL" do_del false (Some "MEMO_HELP_DEL");
  command "SET" do_set false (Some "MEMO_HELP_SET");
  mkCommand "INFO" (Some do_info) None None (Some "MEMO_HELP_INFO") (Some "MEMO_SERVADMIN_HELP_INFO")
    (Some "MEMO_SERVADMIN_HELP_INFO") (Some "MEMO_SERVADMIN_HELP_INFO")].

(** Entries that only carry help. *)
Definition help_entry (name : string) (all reg admin : option string) : Command E :=
  mkCommand name None None all reg admin admin admin.

Definition help_cmds : list (Command E) :=
  cmds ++ [help_entry "SET NOTIFY" (Some "MEMO_HELP_SET_NOTIFY") None None;
           help_entry "SET LIMIT" None (Some "MEMO_HELP_SET_LIMIT") (Some "MEMO_SERVADMIN_HELP_SET_LIMIT")].

Definition do_help (u : ptr) (args : string) : M (Net E) unit :=
  tell u "MEMO_HELP_START";;
  (match fst (strtok args "") with
   | None => oper ← is_services_oper u; tell u (if oper : bool then "MEMO_SERVADMIN_HELP" else "MEMO_HELP")
   | Some cmd => help_cmd s_MemoServ u help_cmds cmd
   end : M (Net E) unit);;
  tell u "MEMO_HELP_END".

Definition memoserv (source buf : string) : M (Net E) unit :=
  u ← finduser source;
  if u =? NULL then emit (Notice s_MemoServ source "USER_RECORD_NOT_FOUND")
  else
    let '(cmd, rest) := strtok buf " " in
    match cmd with
    | None => mret tt
    | Some cmd =>
        us ← load_user u;
        if is_word cmd (String "001" "PING") then
          emit (Notice s_MemoServ source (String "001" "PING " +:+ default (String "001" "") (fst (strtok rest ""))))
        else if is_word cmd (String "001" "VERSION" +:+ String "001" "") then
          emit (Notice s_MemoServ source (String "001" "VERSION"))
        else if (nick_id us =? 0) && negb (is_word cmd "HELP") then tell u "NICK_NOT_REGISTERED_HELP"
        else run_cmd s_MemoServ u (command "HELP" do_help false None :: help_cmds) cmd rest
    end.
End MemoServ.

(** ** What the commands do *)
Section MemoSpec.
Context `{Conf} `{MemoConf} `{MySQL} {E : Type} `{!ChanDB E} `{!NickServ E} `{!NickView E} `{!Part OperDB E}.
Implicit Types (n : Net E) (d : DB) (us : User) (h : gmap ptr User) (o : list Msg).

(** Since [n], the users have become [h] and the tables [d], and [o] was sent, the
    last message first. *)
Record held n h d o n' : Prop := {
  hd_users : users_heap n' = h;
  hd_chans : chans_heap n' = chans_heap n;
  hd_graph : graph_of n' = graph_of n;
  hd_now : now n' = now n;
  hd_db : db (ext n') = d;
  hd_out : out n' = o ++ out n
}.

Lemma held_refl n : held n (users_heap n) (db (ext n)) [] n.
Proof. by split. Qed.

Lemma wp_asked {A} n h d o n1 (m : M (Net E) A) a (Q : A -> Net E -> Prop) : held n h d o n1 ->
  query n1 m a -> (forall n', held n h d o n' -> Q a n') -> wp m Q n1.
Proof.
  intros [] Hq HQ. eapply wp_mono; [exact Hq|]. intros b n' [-> (e & -> & He)]. apply HQ. by split; simpl; rewrite ?He.
Qed.

Lemma wp_selected {A} n h d o n1 (f : DB -> A) (Q : A -> Net E -> Prop) : held n h d o n1 -> Q (f d) n1 -> wp (select f) Q n1.
Proof. intros Ha HQ. unfold select. wps. by rewrite (hd_db _ _ _ _ _ Ha). Qed.

Lemma wp_loaded n h d o n1 u us (Q : User -> Net E -> Prop) : held n h d o n1 -> h !! u = Some us -> Q us n1 ->
  wp (load_user u) Q n1.
Proof. intros Ha Hu. apply wp_load_user. by rewrite (hd_users _ _ _ _ _ Ha). Qed.

Lemma wp_told n h d o n1 u us text (Q : unit -> Net E -> Prop) : held n h d o n1 -> h !! u = Some us ->
  (forall n', held n h d (Notice s_MemoServ (nick us) text :: o) n' -> Q tt n') -> wp (tell u text) Q n1.
Proof.
  intros Ha Hu HQ. unfold tell. wps. eapply wp_loaded; [done|done|]. unfold emit. wps. apply HQ.
  destruct Ha. split; simpl; try done. congruence.
Qed.

Lemma wp_updated n h d o n1 f (Q : unit -> Net E -> Prop) : held n h d o n1 ->
  (forall n', held n h (f d) o n' -> Q tt n') -> wp (update_db f) Q n1.
Proof.
  intros Ha HQ. unfold update_db. wps. apply HQ. destruct Ha. split; simpl; try done. rewrite db_set. congruence.
Qed.

Definition stamped (u : ptr) (t : Z) h : gmap ptr User := alter (fun us => us{{lastmemosend := t}}) u h.

Lemma wp_stamped n h d o n1 u us t (Q : unit -> Net E -> Prop) : held n h d o n1 -> h !! u = Some us ->
  (forall n', held n (stamped u t h) d o n' -> Q tt n') -> wp (stamp_send u t) Q n1.
Proof.
  intros Ha Hu HQ. unfold stamp_send. eapply wp_upd_user; [by rewrite (hd_users _ _ _ _ _ Ha)|].
  apply HQ. destruct Ha. split; simpl; try done.
  - unfold stamped. rewrite hd_users0. apply map_eq. intros p. destruct (decide (p = u)) as [->|Hp].
    + by rewrite lookup_insert_eq, lookup_alter_eq, Hu.
    + by rewrite lookup_insert_ne, lookup_alter_ne.
  - rewrite <- hd_graph0. eapply graph_upd_user_id; [by rewrite hd_users0|done].
Qed.

(** *** Queries *)
Lemma query_select {A} n (f : DB -> A) : query n (select f) (f (db (ext n))).
Proof. by apply query_gets. Qed.

Definition findnick d (nk : string) : Z := default 0 (nick_named d nk).
Definition findchan_id d (nm : string) : Z := default 0 (channel_named d nm).
Definition getlink d (i : Z) : Z :=
  let m := match nicks d !! i with Some r => n_link r | None => 0 end in if m =? 0 then i else m.

(** Of which row the owner is known, if it has one and is not forbidden. *)
Definition is_channel (owner : string) : bool := Ascii.eqb (hd_char owner) "#".
Definition owner_id d (owner : string) : Z := if is_channel owner then findchan_id d owner else findnick d owner.
Definition forbidden d (owner : string) : bool :=
  negb (owner_id d owner =? 0) &&
  (if is_channel owner then has (col d ci_flags 0 (owner_id d owner)) CI_VERBOTEN
   else has (nick_status d (owner_id d owner)) NS_VERBOTEN).
Definition info_row d (owner : string) : option MemoInfo :=
  find_first (fun r => same_text (mi_owner r) owner) (rows (memoinfo d)).
Definition info_of d (owner : string) : option MemoInfo :=
  if (owner_id d owner =? 0) || forbidden d owner then None else info_row d owner.

Lemma query_info n owner : query n (get_memoinfo_from_owner owner)
  (info_of (db (ext n)) owner, is_channel owner, forbidden (db (ext n)) owner).
Proof.
  unfold get_memoinfo_from_owner, info_of, forbidden, owner_id. fold (is_channel owner). destruct (is_channel owner).
  - eapply query_bind; [by apply query_gets|]. intros n1 Hq1.
    change (default 0 (channel_named (db (ext n)) owner)) with (findchan_id (db (ext n)) owner).
    destruct (findchan_id (db (ext n)) owner =? 0) eqn:Ei; simpl; [apply query_ret|].
    eapply query_bind; [apply query_column|]. intros n2 Hq2. rewrite (quiet_db _ _ Hq1).
    destruct (has _ _); [apply query_ret|]. eapply query_bind; [apply query_select|]. intros n3 _.
    rewrite (quiet_db _ _ Hq2), (quiet_db _ _ Hq1). apply query_ret.
  - eapply query_bind; [apply query_select|]. intros n1 Hq1. fold (findnick (db (ext n)) owner).
    destruct (findnick (db (ext n)) owner =? 0) eqn:Ei; simpl; [apply query_ret|].
    eapply query_bind; [apply law_status|]. intros n2 Hq2. rewrite (quiet_db _ _ Hq1).
    destruct (has _ _); [apply query_ret|]. eapply query_bind; [apply query_select|]. intros n3 _.
    rewrite (quiet_db _ _ Hq2), (quiet_db _ _ Hq1). apply query_ret.
Qed.

(** *** The memos of an owner, as they are numbered *)
Definition mailbox (owner : string) (t : Table Memo) : list Memo := order_by m_time (select_where (owned_by owner) t).
Definition own (owner : string) (m : Memo) : Memo := m{{m_owner := owner}}.

(** What the key says of the table. *)
Definition memos_ok (t : Table Memo) : Prop := NoDup (map m_id (rows t)) /\ Forall (fun m => m_id m < auto_increment t) (rows t).

Lemma same_text_trans a b c : same_text a b = true -> same_text a c = same_text b c.
Proof. unfold same_text. intros Hab. apply String.eqb_eq in Hab. by rewrite Hab. Qed.

Lemma owned_own owner owner' m : owned_by owner m = true -> owned_by owner' (own owner m) = owned_by owner' m.
Proof. unfold owned_by, own. simpl. intros Hm. symmetry. by apply same_text_trans. Qed.

(** An update that does not change who owns what. *)
Lemma select_update (p q : Memo -> bool) f t : (forall m, q m = true -> p (f m) = p m) ->
  select_where p (update_where q f t) = map (fun m => if q m then f m else m) (select_where p t).
Proof.
  intros Hf. unfold select_where, update_where. simpl. induction (rows t) as [|m l IH]; [done|]. simpl.
  destruct (q m) eqn:Eq; [rewrite Hf by done|]; destruct (p m); simpl; rewrite ?Eq, IH; done.
Qed.

Lemma map_all {A} (q : A -> bool) (f : A -> A) l : (forall m, m ∈ l -> q m = true) -> map (fun m => if q m then f m else m) l = map f l.
Proof. intros Hl. apply map_ext_in. intros m Hm. by rewrite Hl by by apply list_elem_of_In. Qed.

Lemma mailbox_renumbered owner t : NoDup (map m_id (rows t)) ->
  mailbox owner (renumbered owner t) = map (own owner) (number_from 1 (mailbox owner t)).
Proof.
  intros Hn. unfold renumbered, mailbox.
  rewrite select_update by (intros m Hm; by apply (owned_own owner owner)).
  rewrite map_all by (intros m Hm; by apply elem_select in Hm as [_ Hm]).
  rewrite order_by_map by done. f_equal.
  by refine (renumber_in_turn (owned_by owner) m_time _ _ (rows t) Hn).
Qed.

Lemma other_renumbered owner owner' t : NoDup (map m_id (rows t)) -> same_text owner' owner = false ->
  select_where (owned_by owner') (renumbered owner t) = select_where (owned_by owner') t.
Proof.
  intros Hn Hne. unfold renumbered.
  assert (Hno : forall m, owned_by owner' m = true -> owned_by owner m = false).
  { intros m Hm. unfold owned_by in *. rewrite (same_text_trans _ _ owner Hm). done. }
  rewrite select_update by (intros m Hm; by apply owned_own).
  etransitivity; [|by refine (renumber_other (owned_by owner) m_time (rows t) _ (owned_by owner') _ Hno)].
  unfold select_where. simpl. rewrite <- (map_id (List.filter _ _)) at 2. apply map_ext_in.
  intros m Hm%filter_In. destruct Hm as [_ Hm]. by rewrite Hno.
Qed.

Lemma renumbered_map {A} (f : Memo -> A) owner t : (forall k m, f (set_idx k m) = f m) -> (forall m, f (own owner m) = f m) ->
  NoDup (map m_id (rows t)) -> map f (rows (renumbered owner t)) = map f (rows t).
Proof.
  intros Hk Ho Hn. unfold renumbered. simpl. rewrite map_map.
  etransitivity; [|by refine (renumber_same (owned_by owner) m_time (rows t) Hn f _)].
  apply map_ext. intros m. destruct (owned_by owner m); [apply Ho|done].
Qed.

Lemma renumbered_ids owner t : NoDup (map m_id (rows t)) -> map m_id (rows (renumbered owner t)) = map m_id (rows t).
Proof. by apply renumbered_map. Qed.

Lemma renumbered_ok owner t : memos_ok t -> memos_ok (renumbered owner t).
Proof.
  intros [Hn Hl]. split; [by rewrite renumbered_ids|].
  rewrite <- (Forall_map m_id (fun i => i < auto_increment t)) in *. by rewrite renumbered_ids.
Qed.

(** *** Who is told *)

(** A message to those of [l] that satisfy [p], the last first. *)
Definition heard (p : ptr -> User -> bool) (text : string) h (l : list ptr) : list Msg :=
  rev (omap (fun r => us ← h !! r; if p r us : bool then Some (Notice s_MemoServ (nick us) text) else None) l).

Lemma heard_snoc p text h l r us : h !! r = Some us ->
  heard p text h (l ++ [r]) = (if p r us then [Notice s_MemoServ (nick us) text] else []) ++ heard p text h l.
Proof. intros Hr. unfold heard. rewrite omap_app, rev_app_distr. simpl. rewrite Hr. simpl. by destruct (p r us). Qed.

Lemma heard_cons p text h l r us : h !! r = Some us ->
  heard p text h (r :: l) = heard p text h l ++ (if p r us then [Notice s_MemoServ (nick us) text] else []).
Proof.
  intros Hr. unfold heard. change (r :: l) with ([r] ++ l). rewrite omap_app, rev_app_distr. simpl. rewrite Hr. simpl.
  by destruct (p r us).
Qed.

Section Told.
Context n h (Hg : heap_ok (graph_of n)) (Hh : forall r, is_Some (h !! r) <-> is_Some (users_heap n !! r)).

Lemma walk_told d o n1 (p : User -> bool) text (Q : unit -> Net E -> Prop) : held n h d o n1 ->
  (forall n', held n h d (heard (fun _ => p) text h (order n) ++ o) n' -> Q tt n') ->
  wp (walk (fun r (_ : unit) => us ← load_user r; when (p us) (tell r text)) tt) Q n1.
Proof.
  intros Ha HQ. destruct Ha as [Hu Hc Hgr Hnow Hd Ho].
  assert (Hord : order n1 = order n).
  { unfold order. change (userlist n1) with (g_ulist (graph_of n1)). by rewrite Hgr. }
  assert (Hg1 : heap_ok (graph_of n1)) by by rewrite Hgr.
  assert (Hrest : at_rest n1 = graph_of n1).
  { pose proof (ho_walk _ Hg1) as Hw. unfold at_rest, graph_of in *. simpl in *. by rewrite Hw. }
  eapply wp_mono; [apply (wp_walk _ (fun vis _ n' => users_heap n' = h /\ chans_heap n' = chans_heap n /\ now n' = now n /\
    db (ext n') = d /\ out n' = heard (fun _ => p) text h vis ++ o ++ out n) tt n1 Hg1)| ].
  - by split_and!.
  - intros vis r [] n' Hr (Hu' & Hc' & Hnow' & Hd' & Ho') _.
    apply order_users in Hr; [|by rewrite Hrest].
    assert (is_Some (h !! r)) as [us Hus] by by rewrite <- Hu.
    wps. eapply wp_load_user; [by rewrite Hu'|]. rewrite (heard_snoc _ _ _ _ _ us) by done.
    wps.
    + unfold tell. wps. eapply wp_load_user; [by rewrite Hu'|]. unfold emit. wps. simpl. split; [|by split].
      split_and!; try done. simpl. rewrite H2. simpl. by rewrite Ho'.
    + rewrite H2. by repeat split.
  - by intros vis [] n' c i Hi.
  - intros [] n' [(Hu' & Hc' & Hnow' & Hd' & Ho') Hg']. apply HQ. rewrite Hord in Ho'.
    split; try done; [by rewrite Hg', Hgr|]. by rewrite Ho', (assoc_L (++)).
Qed.

Lemma found_user_some nk : g_finduser (graph_of n) nk = NULL \/ is_Some (users_heap n !! g_finduser (graph_of n) nk).
Proof.
  unfold g_finduser. destruct (find_first _ _) as [p|] eqn:Ef; [right|by left]. simpl.
  apply find_first_Some in Ef as [Hp _]. apply (bucket_users n _ p Hg) in Hp as (us & Hus & _). by exists us.
Qed.

Lemma found_chan_some nm : g_findchan (graph_of n) nm = NULL \/ is_Some (chans_heap n !! g_findchan (graph_of n) nm).
Proof.
  unfold g_findchan. destruct (find_first _ _) as [p|] eqn:Ef; [right|by left]. simpl.
  apply find_first_Some in Ef as [Hp _]. apply (bucket_chans n _ p Hg) in Hp as (us & Hus & _). by exists us.
Qed.

Lemma no_user_null : h !! NULL = None.
Proof.
  destruct (h !! NULL) eqn:Eh; [|done]. exfalso.
  assert (Hs : is_Some (users_heap n !! NULL)) by (apply Hh; by eexists).
  apply is_Some_graph_user in Hs. pose proof (ho_addr _ Hg NULL (or_introl Hs)). unfold NULL in *. lia.
Qed.

Lemma no_chan_null : chans_heap n !! NULL = None.
Proof.
  destruct (chans_heap n !! NULL) eqn:Eh; [|done]. exfalso.
  assert (Hs : is_Some (chans_heap n !! NULL)) by by eexists.
  apply is_Some_graph_chan in Hs. pose proof (ho_addr _ Hg NULL (or_intror Hs)). unfold NULL in *. lia.
Qed.

Lemma wp_found_user d o n1 nk (Q : ptr -> Net E -> Prop) : held n h d o n1 ->
  Q (g_finduser (graph_of n) nk) n1 -> wp (finduser nk) Q n1.
Proof.
  intros Ha HQ. rewrite <- (hd_graph _ _ _ _ _ Ha) in HQ. eapply wp_intro; [apply finduser_det|done].
  by rewrite (hd_graph _ _ _ _ _ Ha).
Qed.

Lemma wp_found_chan d o n1 nm (Q : ptr -> Net E -> Prop) : held n h d o n1 ->
  Q (g_findchan (graph_of n) nm) n1 -> wp (findchan nm) Q n1.
Proof.
  intros Ha HQ. rewrite <- (hd_graph _ _ _ _ _ Ha) in HQ. eapply wp_intro; [apply findchan_det|done].
  by rewrite (hd_graph _ _ _ _ _ Ha).
Qed.

(** Notices of a memo to a nick. *)
Definition nick_told d (name text : string) : list Msg :=
  let i := getlink d (findnick d name) in
  if has (match nicks d !! i with Some r => n_flags r | None => 0 end) NI_MEMO_RECEIVE then
    if MSNotifyAll then heard (fun _ us => real_id us =? i) text h (order n)
    else heard (fun _ _ => true) text h [g_finduser (graph_of n) name]
  else [].

Definition new_memo_text (source : string) (number : Z) : string :=
  "MEMO_NEW_MEMO_ARRIVED " +:+ source +:+ " " +:+ show_int number.

Lemma wp_notify_nick d o n1 name source number (Q : unit -> Net E -> Prop) : held n h d o n1 ->
  (forall n', held n h d (nick_told d name (new_memo_text source number) ++ o) n' -> Q tt n') ->
  wp (notify_nick name source number) Q n1.
Proof.
  intros Ha HQ. unfold notify_nick. apply wp_bind. eapply wp_selected; [done|]. apply wp_bind. eapply wp_selected; [done|].
  apply wp_bind. eapply wp_selected; [done|]. fold (findnick d name). fold (getlink d (findnick d name)).
  unfold nick_told in HQ. destruct (has _ NI_MEMO_RECEIVE); [|by apply HQ]. cbn [when].
  destruct MSNotifyAll.
  - by eapply walk_told.
  - apply wp_bind. eapply wp_found_user; [done|]. destruct (found_user_some name) as [Hz|[us Hus]%Hh].
    + rewrite Hz. apply HQ. rewrite Hz. unfold heard. simpl. by rewrite no_user_null.
    + destruct (Z.eqb_spec (g_finduser (graph_of n) name) NULL) as [Hz|_].
      { exfalso. rewrite Hz, no_user_null in Hus. done. }
      eapply wp_told; [done|done|]. intros n' Hn'. apply HQ. unfold heard. simpl. by rewrite Hus.
Qed.

(** Notices of a memo to a channel. *)
Definition may_read d (u : ptr) (i : Z) (r : ptr) us : bool :=
  recognized d us && negb (r =? u) && permits d us i CA_MEMO_READ.

Definition chan_told d (u : ptr) (name text : string) : list Msg :=
  match chans_heap n !! g_findchan (graph_of n) name with
  | Some ch => heard (may_read d u (channel_id ch)) text h (users ch)
  | None => []
  end.

Definition new_chan_memo_text (source : string) (number : Z) : string :=
  "MEMO_NEW_CHAN_MEMO_ARRIVED " +:+ source +:+ " " +:+ show_int number.

Lemma wp_recognized d o n1 u us (Q : bool -> Net E -> Prop) : held n h d o n1 -> h !! u = Some us ->
  (forall n', held n h d o n' -> Q (recognized d us) n') -> wp (nick_recognized u) Q n1.
Proof.
  intros Ha Hu HQ. pose proof (query_nick_has n1 u us (NS_IDENTIFIED .| NS_RECOGNIZED) ltac:(by rewrite (hd_users _ _ _ _ _ Ha))) as Hq.
  rewrite (hd_db _ _ _ _ _ Ha) in Hq. by eapply wp_asked.
Qed.

Lemma wp_is_identified d o n1 u us (Q : bool -> Net E -> Prop) : held n h d o n1 -> h !! u = Some us ->
  (forall n', held n h d o n' -> Q (ChanDB.identified d us) n') -> wp (nick_identified u) Q n1.
Proof.
  intros Ha Hu HQ. pose proof (query_nick_has n1 u us NS_IDENTIFIED ltac:(by rewrite (hd_users _ _ _ _ _ Ha))) as Hq.
  rewrite (hd_db _ _ _ _ _ Ha) in Hq. by eapply wp_asked.
Qed.

Lemma wp_permitted d o n1 u us i what (Q : bool -> Net E -> Prop) : held n h d o n1 -> h !! u = Some us ->
  (forall n', held n h d o n' -> Q (permits d us i what) n') -> wp (check_access u i what) Q n1.
Proof.
  intros Ha Hu HQ. pose proof (query_check_access n1 u us i what ltac:(by rewrite (hd_users _ _ _ _ _ Ha))) as Hq.
  rewrite (hd_db _ _ _ _ _ Ha) in Hq. by eapply wp_asked.
Qed.

Lemma wp_admin d o n1 u us (Q : bool -> Net E -> Prop) : held n h d o n1 -> h !! u = Some us ->
  (forall n', held n h d o n' -> Q (services_admin d us) n') -> wp (Interfaces.is_services_admin u) Q n1.
Proof.
  intros Ha Hu HQ. pose proof (law_admin u us n1 ltac:(by rewrite (hd_users _ _ _ _ _ Ha))) as Hq.
  rewrite (hd_db _ _ _ _ _ Ha) in Hq. by eapply wp_asked.
Qed.

Lemma wp_info d o n1 owner (Q : option MemoInfo * bool * bool -> Net E -> Prop) : held n h d o n1 ->
  (forall n', held n h d o n' -> Q (info_of d owner, is_channel owner, forbidden d owner) n') ->
  wp (get_memoinfo_from_owner owner) Q n1.
Proof.
  intros Ha HQ. pose proof (query_info n1 owner) as Hq. rewrite (hd_db _ _ _ _ _ Ha) in Hq. by eapply wp_asked.
Qed.

Lemma notify_members d (u : ptr) i text l : (forall r, r ∈ l -> is_Some (users_heap n !! r)) ->
  forall o n1 (Q : unit -> Net E -> Prop), held n h d o n1 ->
  (forall n', held n h d (heard (may_read d u i) text h l ++ o) n' -> Q tt n') ->
  wp (for_each l (fun r =>
      known ← nick_recognized r;
      if negb known || (r =? u) then mret tt
      else ok ← check_access r i CA_MEMO_READ; when ok (tell r text))) Q n1.
Proof.
  induction l as [|r l IH]; intros Hl o n1 Q Ha HQ; cbn [for_each]; [by apply HQ|].
  destruct (proj2 (Hh r) (Hl r ltac:(constructor))) as [us Hus]. rewrite !wp_bind. eapply wp_recognized; [done|done|].
  assert (Hnext : forall n', held n h d ((if may_read d u i r us then [Notice s_MemoServ (nick us) text] else []) ++ o) n' ->
    wp (for_each l (fun r =>
      known ← nick_recognized r;
      if negb known || (r =? u) then mret tt
      else ok ← check_access r i CA_MEMO_READ; when ok (tell r text))) Q n').
  { intros n' Hn'. eapply IH; [intros x Hx; apply Hl; by constructor|exact Hn'|]. intros n2 Hn2. apply HQ.
    rewrite (heard_cons _ _ _ _ _ us) by done. by rewrite <- (assoc_L (++)). }
  unfold may_read in Hnext. intros n2 Ha2. destruct (recognized d us), (r =? u); cbn [negb orb andb] in *; try by apply Hnext.
  rewrite wp_bind. eapply wp_permitted; [done|done|]. intros n3 Ha3. destruct (permits d us i CA_MEMO_READ); [|by apply Hnext].
  eapply wp_told; [done|done|]. intros n4 Ha4. by apply Hnext.
Qed.

Lemma wp_notify_chan d o n1 u name source number (Q : unit -> Net E -> Prop) : held n h d o n1 ->
  (forall n', held n h d (chan_told d u name (new_chan_memo_text source number) ++ o) n' -> Q tt n') ->
  wp (notify_chan u name source number) Q n1.
Proof.
  intros Ha HQ. unfold notify_chan. apply wp_bind. eapply wp_found_chan; [done|]. unfold chan_told in HQ.
  destruct (found_chan_some name) as [Hz|[ch Hch]].
  - rewrite Hz in *. rewrite no_chan_null in HQ. by apply HQ.
  - destruct (Z.eqb_spec (g_findchan (graph_of n) name) NULL) as [Hz|_].
    { exfalso. rewrite Hz, no_chan_null in Hch. done. }
    rewrite Hch in HQ. apply wp_bind. eapply wp_load_chan; [by rewrite (hd_chans _ _ _ _ _ Ha)|].
    eapply notify_members; [|done|exact HQ]. intros r Hr. apply is_Some_graph_user.
    eapply (ho_users _ Hg _ (chan_view ch)); [apply graph_chan; by exists ch|by left].
Qed.
End Told.

(** *** A memo is sent *)
Definition letter (args : string) : option (string * string) :=
  let '(name, rest) := strtok args " " in
  match name, fst (strtok rest "") with Some name, Some text => Some (name, text) | _, _ => None end.

Definition addressed d (name : string) : option string :=
  match strchr name "#" with
  | Some _ => Some name
  | None => let i := getlink d (findnick d name) in if i =? 0 then Some name else n_nick <$> nicks d !! i
  end.

Definition memo_count d (owner : string) : Z := Z.of_nat (length (select_where (owned_by owner) (memo d))).

(** Who may send a memo to [owner] at [t]: a recognized user, if the owner is
    registered and not forbidden; not too soon after the last one and within the
    owner's limit, unless an administrator; to a channel with the ability. *)
Definition accepted d us (t : Z) (owner : string) : bool :=
  recognized d us &&
  match info_of d owner with
  | Some mi =>
      (services_admin d us ||
       ((MSSendDelay <=? 0) || (lastmemosend us + MSSendDelay <=? t)) &&
       ((mi_max mi <? 0) || (memo_count d owner <? mi_max mi))) &&
      (negb (is_channel owner) || permits d us (findchan_id d owner) CA_MEMO_SEND)
  | None => false
  end.

Definition posted d (owner source text : string) (t : Z) : DB :=
  d{{memo := renumbered owner (insert_into (new_memo owner source text t) (memo d))}}.

(** Nothing was sent later. *)
Definition past (t : Z) (tab : Table Memo) : Prop := Forall (fun m => m_time m <= t) (rows tab).

Lemma insert_ok (row : Z -> Memo) tab : (forall i, m_id (row i) = i) -> memos_ok tab -> memos_ok (insert_into row tab).
Proof.
  intros Hr [Hn Hl]. split; simpl.
  - rewrite map_app. apply NoDup_app. split; [done|]. split; [|apply NoDup_singleton].
    intros i Hi ->%list_elem_of_singleton. rewrite Hr in Hi. apply list_elem_of_In, in_map_iff in Hi as (m & Hm & Hin).
    rewrite Forall_forall in Hl. apply list_elem_of_In in Hin. specialize (Hl m Hin). lia.
  - apply Forall_app. split; [|constructor; [rewrite Hr; lia|constructor]]. eapply Forall_impl; [exact Hl|]. simpl. lia.
Qed.

Lemma same_text_refl a : same_text a a = true.
Proof. apply String.eqb_refl. Qed.

Lemma mailbox_insert owner (row : Z -> Memo) t tab : m_owner (row (auto_increment tab)) = owner ->
  m_time (row (auto_increment tab)) = t -> past t tab ->
  mailbox owner (insert_into row tab) = mailbox owner tab ++ [row (auto_increment tab)].
Proof.
  intros Ho Ht Hp. unfold mailbox, select_where, insert_into. simpl. rewrite List.filter_app. simpl.
  assert (owned_by owner (row (auto_increment tab)) = true) as -> by (unfold owned_by; rewrite Ho; apply same_text_refl).
  apply order_by_snoc. intros m Hm%list_elem_of_In%filter_In. destruct Hm as [Hm%list_elem_of_In _].
  rewrite Ht. unfold past in Hp. rewrite Forall_forall in Hp. by apply Hp.
Qed.

(** The new memo is the last, and the memos are numbered from 1. *)
Lemma posted_mailbox d owner source text t : memos_ok (memo d) -> past t (memo d) ->
  mailbox owner (memo (posted d owner source text t)) =
    map (own owner) (number_from 1 (mailbox owner (memo d) ++ [new_memo owner source text t (auto_increment (memo d))])).
Proof.
  intros Hok Hp. unfold posted. simpl. rewrite mailbox_renumbered by by apply insert_ok.
  by rewrite (mailbox_insert owner _ t).
Qed.

Lemma posted_other d owner source text t owner' : memos_ok (memo d) -> same_text owner' owner = false ->
  select_where (owned_by owner') (memo (posted d owner source text t)) = select_where (owned_by owner') (memo d).
Proof.
  intros Hok Hne. unfold posted. simpl. rewrite other_renumbered; [|by apply insert_ok|done].
  unfold select_where, insert_into. simpl. rewrite List.filter_app. simpl. unfold owned_by at 2. simpl.
  assert (same_text owner owner' = false) as ->; [|by rewrite app_nil_r].
  unfold same_text in *. by rewrite String.eqb_sym.
Qed.

Lemma posted_ok d owner source text t : memos_ok (memo d) -> memos_ok (memo (posted d owner source text t)).
Proof. intros Hok. by apply renumbered_ok, insert_ok. Qed.

Lemma find_id tab i m : memos_ok tab -> m ∈ rows tab -> m_id m = i -> find_first (fun m => m_id m =? i) (rows tab) = Some m.
Proof.
  intros [Hn _] Hm Hi. destruct (find_first _ _) as [m'|] eqn:Ef.
  - apply find_first_Some in Ef as [Hm' Hi'%Z.eqb_eq]. f_equal. apply (map_inj_in m_id (rows tab)); [done|done|done|congruence].
  - rewrite find_first_None in Ef. specialize (Ef m Hm). simpl in Ef. lia.
Qed.

Lemma number_from_app (k : Z) (l l' : list Memo) :
  number_from k (l ++ l') = number_from k l ++ number_from (k + Z.of_nat (length l)) l'.
Proof.
  revert k. induction l as [|m l IH]; intros k; simpl; [by rewrite Z.add_0_r|]. rewrite IH. do 3 f_equal. lia.
Qed.

Lemma mailbox_rows owner tab m : m ∈ mailbox owner tab -> m ∈ rows tab.
Proof. unfold mailbox. rewrite order_by_perm. by intros [? _]%elem_select. Qed.

Lemma mailbox_length owner tab : length (mailbox owner tab) = length (select_where (owned_by owner) tab).
Proof. unfold mailbox. by rewrite order_by_perm. Qed.

Lemma posted_number d owner source text t : memos_ok (memo d) -> past t (memo d) ->
  match find_first (fun m => m_id m =? auto_increment (memo d)) (rows (memo (posted d owner source text t))) with
  | Some m => m_idx m | None => 0 end = memo_count d owner + 1.
Proof.
  intros Hok Hp. set (m := own owner (set_idx (memo_count d owner + 1) (new_memo owner source text t (auto_increment (memo d))))).
  assert (Hm : m ∈ rows (memo (posted d owner source text t))).
  { apply (mailbox_rows owner). rewrite posted_mailbox by done. rewrite number_from_app, map_app. apply elem_of_app. right.
    simpl. rewrite mailbox_length. unfold m, memo_count. rewrite Z.add_comm. constructor. }
  by rewrite (find_id _ _ m (posted_ok _ _ _ _ _ Hok) Hm).
Qed.

(** What is said when it is done: to the sender, then to those who want to know. *)
Definition told n h d (u : ptr) us (owner : string) (number : Z) : list Msg :=
  match strchr owner "#" with
  | None => nick_told n h d owner (new_memo_text (nick us) number)
  | Some _ => chan_told n h d u owner (new_chan_memo_text (nick us) number)
  end ++ [Notice s_MemoServ (nick us) ("MEMO_SENT " +:+ owner)].

Lemma stamped_some u t h r : is_Some (stamped u t h !! r) <-> is_Some (h !! r).
Proof.
  unfold stamped. destruct (decide (r = u)) as [->|Hr]; [|by rewrite lookup_alter_ne]. rewrite lookup_alter_eq.
  by rewrite fmap_is_Some.
Qed.

Lemma stamped_user u t h us : h !! u = Some us -> stamped u t h !! u = Some (us{{lastmemosend := t}}).
Proof. intros Hu. unfold stamped. by rewrite lookup_alter_eq, Hu. Qed.

Lemma wp_send_memo n h d o n1 u us owner text (Q : unit -> Net E -> Prop) : heap_ok (graph_of n) ->
  (forall r, is_Some (h !! r) <-> is_Some (users_heap n !! r)) -> memos_ok (memo d) -> past (now n) (memo d) ->
  held n h d o n1 -> h !! u = Some us ->
  (forall n', let d' := posted d owner (nick us) text (now n) in
     held n h d' (told n h d' u us owner (memo_count d owner + 1) ++ o) n' -> Q tt n') ->
  wp (send_memo u owner (nick us) text) Q n1.
Proof.
  intros Hg Hh Hok Hp Ha Hu HQ. unfold send_memo. apply wp_bind, wp_gets. rewrite (hd_now _ _ _ _ _ Ha).
  apply wp_bind. eapply wp_selected; [done|]. apply wp_bind. eapply wp_updated; [done|]. intros n2 Ha2.
  apply wp_bind. unfold renumber_memos. eapply wp_updated; [done|]. intros n3 Ha3.
  set (d' := posted d owner (nick us) text (now n)).
  assert (Hd : held n h d' o n3) by exact Ha3. clear Ha3. apply wp_bind. unfold get_memo_idx. eapply wp_selected; [done|].
  pose proof (posted_number d owner (nick us) text (now n) Hok Hp) as Hnum. fold d' in Hnum. cbv beta. rewrite Hnum. apply wp_bind.
  assert (u <> NULL) as Hnn by (intros ->; by rewrite (no_user_null n h Hg Hh) in Hu).
  rewrite (proj2 (Z.eqb_neq u NULL)) by done. cbn [negb when]. eapply wp_told; [done|done|]. intros n4 Ha4.
  unfold told in HQ. destruct (strchr owner "#").
  - eapply wp_notify_chan; [done|done|done|]. intros n5 Ha5. apply HQ. fold d'. by rewrite <- (assoc_L (++)).
  - eapply wp_notify_nick; [done|done|done|]. intros n5 Ha5. apply HQ. fold d'. by rewrite <- (assoc_L (++)).
Qed.

(** The sender is told why not; too hasty a sender has to wait anew. *)
Definition refused n u us (why : string) n' : Prop :=
  held n (if String.eqb why "MEMO_SEND_PLEASE_WAIT" then stamped u (now n) (users_heap n) else users_heap n) (db (ext n))
    [Notice s_MemoServ (nick us) why] n'.

Lemma wp_refused n n1 u us why : held n (users_heap n) (db (ext n)) [] n1 -> users_heap n !! u = Some us ->
  (why =? "MEMO_SEND_PLEASE_WAIT")%string = false ->
  wp (tell u why) (fun _ n' => exists why, refused n u us why n') n1.
Proof. intros Ha Hu Hw. eapply wp_told; [done|done|]. intros n' Ha'. exists why. unfold refused. by rewrite Hw. Qed.

Lemma info_channel d owner mi : info_of d owner = Some mi -> is_channel owner = true -> findchan_id d owner <> 0.
Proof.
  unfold info_of, owner_id. intros Hi Hc. rewrite Hc in Hi. destruct (Z.eqb_spec (findchan_id d owner) 0); [done|done].
Qed.

Lemma strtok_none s delims r : strtok s delims = (None, r) -> r = EmptyString.
Proof. unfold strtok. destruct (str_drop _ s); [by intros [= <-]|done]. Qed.

Lemma do_send_spec n u us args : heap_ok (graph_of n) -> memos_ok (memo (db (ext n))) -> past (now n) (memo (db (ext n))) ->
  users_heap n !! u = Some us ->
  (forall name text, letter args = Some (name, text) -> is_Some (addressed (db (ext n)) name)) ->
  let d := db (ext n) in
  wp (do_send u args) (fun _ n' =>
    match letter args with
    | Some (name, text) =>
        exists owner, addressed d name = Some owner /\
        if accepted d us (now n) owner then
          let d' := posted d owner (nick us) text (now n) in
          let h := stamped u (now n) (users_heap n) in
          held n h d' (told n h d' u us owner (memo_count d owner + 1)) n'
        else exists why, refused n u us why n'
    | None => exists why, refused n u us why n'
    end) n.
Proof.
  intros Hg Hok Hp Hu Hlinks d. pose proof (held_refl n) as Ha. unfold letter in *. unfold do_send.
  destruct (strtok args " ") as [name rest] eqn:Es. destruct (strtok rest "") as [text rest'] eqn:Et.
  apply wp_bind, wp_gets, wp_bind. eapply wp_admin; [exact Ha|exact Hu|]. intros n1 Ha1. fold d in Ha1 |- *. cbn [fst] in *.
  destruct name as [name|].
  2:{ apply strtok_none in Es as ->. injection Et as <- <-. rewrite wp_bind. cbn. by eapply wp_refused. }
  assert (Hname : forall Q, (forall n', held n (users_heap n) d [] n' -> Q (addressed d name) n') -> wp (addressee name) Q n1).
  { intros Q HQ. unfold addressee, addressed in *. destruct (strchr name "#"); [by apply wp_ret, HQ|].
    apply wp_bind. eapply wp_selected; [done|]. apply wp_bind. eapply wp_selected; [done|].
    fold (findnick d name). fold (getlink d (findnick d name)). destruct (_ =? 0); [by apply wp_ret, HQ|].
    eapply wp_selected; [done|]. by apply HQ. }
  apply wp_bind, Hname. intros n2 Ha2. destruct text as [text|]; [|by eapply wp_refused].
  destruct (Hlinks name text eq_refl) as [owner Ho]. change (addressed d name = Some owner) in Ho. cbv beta. rewrite Ho.
  apply wp_bind. eapply wp_recognized; [exact Ha2|exact Hu|]. intros n3 Ha3.
  assert (Hno : forall why n4, held n (users_heap n) d [] n4 -> accepted d us (now n) owner = false ->
    (why =? "MEMO_SEND_PLEASE_WAIT")%string = false ->
    wp (tell u why) (fun _ n' => exists owner0, Some owner = Some owner0 /\
        if accepted d us (now n) owner0 then
          let d' := posted d owner0 (nick us) text (now n) in
          let h := stamped u (now n) (users_heap n) in
          held n h d' (told n h d' u us owner0 (memo_count d owner0 + 1)) n'
        else exists why, refused n u us why n') n4).
  { intros why n4 Ha4 Hacc Hw. eapply wp_mono; [by eapply wp_refused|]. intros [] n' Hn'. exists owner. split; [done|]. by rewrite Hacc. }
  destruct (recognized d us) eqn:Hrec; cbn [negb]; [|apply Hno; [done|by unfold accepted; rewrite Hrec|done]].
  apply wp_bind. eapply wp_info; [exact Ha3|]. intros n4 Ha4. destruct (info_of d owner) as [mi|] eqn:Hmi.
  2:{ apply Hno; [done|by unfold accepted; rewrite Hmi, andb_false_r|]. by destruct (forbidden d owner), (is_channel owner). }
  apply wp_bind. eapply wp_loaded; [done|done|]. apply wp_bind. eapply wp_selected; [done|]. fold (memo_count d owner).
  destruct ((0 <? MSSendDelay) && (now n <? lastmemosend us + MSSendDelay) && negb (services_admin d us)) eqn:Hwait.
  { apply wp_bind. eapply wp_stamped; [done|done|]. intros n5 Ha5. eapply wp_told; [done|by apply stamped_user|]. intros n6 Ha6.
    exists owner. split; [done|].
    assert (accepted d us (now n) owner = false) as ->; [|by exists "MEMO_SEND_PLEASE_WAIT"].
    unfold accepted. rewrite Hrec, Hmi. apply andb_true_iff in Hwait as [[Hd1 Hd2]%andb_true_iff ->%negb_true_iff].
    destruct (Z.leb_spec MSSendDelay 0), (Z.leb_spec (lastmemosend us + MSSendDelay) (now n)); lia || done. }
  destruct ((mi_max mi =? 0) && negb (services_admin d us)) eqn:Hzero.
  { apply Hno; [done| |done]. unfold accepted. rewrite Hrec, Hmi.
    apply andb_true_iff in Hzero as [Hz ->%negb_true_iff]. apply Z.eqb_eq in Hz. unfold memo_count.
    destruct (Z.ltb_spec (mi_max mi) 0), (Z.ltb_spec (Z.of_nat (length (select_where (owned_by owner) (memo d)))) (mi_max mi)); lia || done. }
  destruct ((0 <? mi_max mi) && (mi_max mi <=? memo_count d owner) && negb (services_admin d us)) eqn:Hfull.
  { apply Hno; [done| |done]. unfold accepted. rewrite Hrec, Hmi.
    apply andb_true_iff in Hfull as [[Hz1 Hz2]%andb_true_iff ->%negb_true_iff].
    destruct (Z.ltb_spec (mi_max mi) 0), (Z.ltb_spec (memo_count d owner) (mi_max mi)); lia || by rewrite ?andb_false_r. }
  assert (Hacc : accepted d us (now n) owner = negb (is_channel owner) || permits d us (findchan_id d owner) CA_MEMO_SEND).
  { unfold accepted. rewrite Hrec, Hmi. destruct (services_admin d us); [done|]. cbn [negb orb andb] in *.
    rewrite andb_true_r in *.
    destruct (Z.leb_spec MSSendDelay 0), (Z.leb_spec (lastmemosend us + MSSendDelay) (now n)),
      (Z.ltb_spec (mi_max mi) 0), (Z.ltb_spec (memo_count d owner) (mi_max mi)); lia || done. }
  apply wp_bind, (wp_mono _ (fun i n' => held n (users_heap n) d [] n' /\ i = if is_channel owner then findchan_id d owner else 0)).
  { destruct (is_channel owner); [|by apply wp_ret]. by eapply (wp_selected n _ _ _ n4 (fun d => findchan_id d owner)). }
  intros i n5 [Ha5 ->]. apply wp_bind, (wp_mono _ (fun b n' => held n (users_heap n) d [] n' /\ b = accepted d us (now n) owner)).
  { rewrite Hacc. destruct (is_channel owner) eqn:Hc; [|by apply wp_ret].
    rewrite (proj2 (Z.eqb_neq _ 0)) by by eapply info_channel. eapply wp_permitted; [done|done|]. intros n6 Ha6. by split. }
  intros b n6 [Ha6 ->]. destruct (accepted d us (now n) owner) eqn:Hb; cbn [negb].
  - apply wp_bind. eapply wp_stamped; [done|done|]. intros n7 Ha7.
    change (nick us) with (nick (us{{lastmemosend := now n}})) at 1.
    eapply (wp_send_memo n (stamped u (now n) (users_heap n)) d [] n7 u (us{{lastmemosend := now n}}));
      [exact Hg|intros r; apply stamped_some|exact Hok|exact Hp|exact Ha7|by apply stamped_user|].
    + cbv zeta. intros n8 Ha8. exists owner. split; [done|]. rewrite Hb. by rewrite app_nil_r in Ha8.
  - eapply wp_mono; [by eapply wp_refused|]. intros [] n7 Hn7. exists owner. split; [done|]. by rewrite Hb.
Qed.

Lemma posted_past d owner source text t : memos_ok (memo d) -> past t (memo d) -> past t (memo (posted d owner source text t)).
Proof.
  intros Hok Hp. set (tab := insert_into (new_memo owner source text t) (memo d)).
  assert (Ht : past t tab) by (apply Forall_app; split; [exact Hp|by repeat constructor]).
  assert (Htab : memos_ok tab) by by apply insert_ok. unfold past in *.
  rewrite <- (Forall_map m_time (fun s => s <= t)) in *.
  change (memo (posted d owner source text t)) with (renumbered owner tab). by rewrite (renumbered_map m_time owner tab ltac:(done) ltac:(done) (proj1 Htab)).
Qed.

(** *** Numbers *)
Definition in_sequence (owner : string) (tab : Table Memo) : Prop :=
  map m_idx (mailbox owner tab) = seqZ 1 (Z.of_nat (length (mailbox owner tab))).

Lemma number_in_sequence owner l : map m_idx (map (own owner) (number_from 1 l)) = seqZ 1 (Z.of_nat (length l)).
Proof. rewrite map_map. exact (number_from_idx 1 l). Qed.

Lemma seq_ordered l k : map m_idx l = seqZ k (Z.of_nat (length l)) -> ordered m_idx l /\ Forall (fun m => k <= m_idx m < k + Z.of_nat (length l)) l.
Proof.
  revert k. induction l as [|m l IH]; intros k; [by repeat constructor|]. cbn [map length]. rewrite seqZ_cons by lia.
  intros [= Hm Hl]. destruct (IH (k + 1)) as [Ho Hf].
  { rewrite Hl. f_equal; lia. }
  split.
  - constructor; [exact Ho|]. eapply Forall_impl; [exact Hf|]. intros m'. cbv beta. lia.
  - constructor; [lia|]. eapply Forall_impl; [exact Hf|]. intros m'. cbv beta. lia.
Qed.

(** Numbered in sequence, the memos are in the same order by number. *)
Lemma in_sequence_order owner d : in_sequence owner (memo d) -> ordered_memos (fun _ => true) owner d = mailbox owner (memo d).
Proof.
  intros Hs. unfold ordered_memos.
  assert (Hsel : select_where (fun m => owned_by owner m && true) (memo d) = select_where (owned_by owner) (memo d)).
  { apply List.filter_ext. intros m. apply andb_true_r. }
  rewrite Hsel. apply (ordered_unique m_idx).
  - apply order_by_ordered.
  - by apply (seq_ordered _ 1).
  - assert (Hp : order_by m_idx (select_where (owned_by owner) (memo d)) ≡ₚ mailbox owner (memo d)).
    { unfold mailbox. by rewrite !order_by_perm. }
    rewrite Hp. unfold in_sequence in Hs. rewrite Hs. apply NoDup_seqZ.
  - unfold mailbox. by rewrite !order_by_perm.
Qed.

Lemma posted_in_sequence d owner source text t : memos_ok (memo d) -> past t (memo d) ->
  in_sequence owner (memo (posted d owner source text t)).
Proof. intros Hok Hp. unfold in_sequence. rewrite posted_mailbox by done. rewrite number_in_sequence, length_map, number_from_length. done. Qed.

Lemma in_sequence_other (owner' : string) (tab tab' : Table Memo) :
  select_where (owned_by owner') tab' = select_where (owned_by owner') tab -> in_sequence owner' tab -> in_sequence owner' tab'.
Proof. unfold in_sequence, mailbox. by intros ->. Qed.

Lemma in_sequence_same (owner owner' : string) tab : same_text owner' owner = true -> in_sequence owner tab -> in_sequence owner' tab.
Proof.
  intros Hs. unfold in_sequence, mailbox, select_where.
  rewrite (List.filter_ext (owned_by owner') (owned_by owner)); [done|]. intros m. unfold owned_by, same_text in *.
  apply String.eqb_eq in Hs. by rewrite Hs.
Qed.

Lemma in_sequence_all owner tab tab' :
  (forall owner', same_text owner' owner = false -> select_where (owned_by owner') tab' = select_where (owned_by owner') tab) ->
  in_sequence owner tab' -> (forall owner', in_sequence owner' tab) -> forall owner', in_sequence owner' tab'.
Proof.
  intros Ho Hs Hall owner'. destruct (same_text owner' owner) eqn:He; [by eapply in_sequence_same|].
  eapply (in_sequence_other owner'); [by apply Ho|apply Hall].
Qed.

(** *** Whose memos *)
Definition whose d us (chan : option string) (ability : Z) : option string :=
  match chan with
  | Some c =>
      match channel d !! findchan_id d c with
      | Some ci => if negb (has (ci_flags ci) CI_VERBOTEN) && permits d us (findchan_id d c) ability then Some c else None
      | None => None
      end
  | None => if ChanDB.identified d us then n_nick <$> nicks d !! real_id us else None
  end.

Definition replied n us n' : Prop := exists text, held n (users_heap n) (db (ext n)) [Notice s_MemoServ (nick us) text] n'.

Lemma wp_memo_owner n n1 u us chan ability : held n (users_heap n) (db (ext n)) [] n1 -> users_heap n !! u = Some us ->
  (chan = None -> ChanDB.identified (db (ext n)) us = true -> is_Some (nicks (db (ext n)) !! real_id us)) ->
  wp (memo_owner u chan ability) (fun (owner : option string) n' => owner = whose (db (ext n)) us chan ability /\
    match owner with Some _ => held n (users_heap n) (db (ext n)) [] n' | None => replied n us n' end) n1.
Proof.
  intros Ha Hu Hrow. set (d := db (ext n)) in *.
  assert (Hno : forall text n2, held n (users_heap n) d [] n2 ->
    wp (tell u text;; mret None) (fun (owner : option string) n' => owner = None /\
      match owner with Some _ => held n (users_heap n) d [] n' | None => replied n us n' end) n2).
  { intros text n2 Ha2. apply wp_bind. eapply wp_told; [done|done|]. intros n3 Ha3. split; [done|]. by exists text. }
  unfold memo_owner, whose. destruct chan as [c|].
  - apply wp_bind. eapply (wp_selected n _ _ _ n1 (fun d => findchan_id d c)); [done|]. apply wp_bind.
    eapply wp_selected; [done|]. destruct (channel d !! findchan_id d c) as [ci|]; [|by apply Hno].
    destruct (has (ci_flags ci) CI_VERBOTEN); [by apply Hno|]. cbn [negb andb].
    apply wp_bind. eapply wp_permitted; [done|done|]. intros n2 Ha2. destruct (permits d us _ ability); [|by apply Hno].
    by apply wp_ret.
  - apply wp_bind. eapply wp_is_identified; [done|done|]. intros n2 Ha2. fold d.
    destruct (ChanDB.identified d us) eqn:Hid; cbn [negb]; [|by apply Hno].
    apply wp_bind. eapply wp_loaded; [done|done|]. apply wp_bind. eapply wp_selected; [done|].
    destruct (Hrow eq_refl eq_refl) as [r Hr]. rewrite Hr. by apply wp_ret.
Qed.

Lemma wp_reply n n1 u us text : held n (users_heap n) (db (ext n)) [] n1 -> users_heap n !! u = Some us ->
  wp (tell u text) (fun _ n' => replied n us n') n1.
Proof. intros Ha Hu. eapply wp_told; [done|done|]. intros n2 Ha2. by exists text. Qed.

(** *** Memos are deleted *)
Definition deletion (args : string) : option string * option string :=
  let '(numstr, _) := strtok args "" in
  if starts_with "#" numstr then let '(chan, rest) := strtok (default EmptyString numstr) " " in (chan, fst (strtok rest ""))
  else (None, numstr).

(** Without the memos [p] of the owner, and the others numbered anew. *)
Definition removed d (owner : string) (p : Memo -> bool) : DB :=
  d{{memo := renumbered owner (delete_where (fun m => owned_by owner m && p m) (memo d))}}.

Lemma delete_ok (p : Memo -> bool) tab : memos_ok tab -> memos_ok (delete_where p tab).
Proof.
  intros [Hn Hl]. split; simpl; [by apply NoDup_map_filter|]. rewrite Forall_forall in *. intros m Hm.
  apply Hl. apply list_elem_of_In, filter_In in Hm as [Hm _]. by apply list_elem_of_In.
Qed.

Lemma filter_not_owned owner (p : Memo -> bool) l : (forall m, m ∈ l -> owned_by owner m = true) ->
  List.filter (fun m => negb (owned_by owner m && p m)) l = List.filter (fun m => negb (p m)) l.
Proof. intros Hl. apply List.filter_ext_in. intros m Hm%list_elem_of_In. by rewrite Hl. Qed.

Lemma removed_mailbox d owner p : memos_ok (memo d) ->
  mailbox owner (memo (removed d owner p)) =
    map (own owner) (number_from 1 (List.filter (fun m => negb (p m)) (mailbox owner (memo d)))).
Proof.
  intros Hok. unfold removed. simpl. rewrite mailbox_renumbered by by apply delete_ok. do 2 f_equal.
  unfold mailbox. rewrite select_delete, filter_not_owned by by intros m [_ ?]%elem_select. apply order_by_filter.
Qed.

Lemma removed_other d owner p owner' : memos_ok (memo d) -> same_text owner' owner = false ->
  select_where (owned_by owner') (memo (removed d owner p)) = select_where (owned_by owner') (memo d).
Proof.
  intros Hok Hne. unfold removed. simpl. rewrite other_renumbered; [|by apply delete_ok|done].
  rewrite select_delete.
  rewrite <- (CsAccess.filter_all (select_where (owned_by owner') (memo d))) at 2. apply List.filter_ext_in.
  intros m Hm%list_elem_of_In%elem_select. destruct Hm as [_ Hm].
  assert (owned_by owner m = false) as ->; [|done]. unfold owned_by in *. by rewrite (same_text_trans _ _ owner Hm).
Qed.

Lemma removed_ok d owner p : memos_ok (memo d) -> memos_ok (memo (removed d owner p)).
Proof. intros Hok. by apply renumbered_ok, delete_ok. Qed.

(** All of them: there is nothing to number. *)
Lemma removed_all d owner : memos_ok (memo d) -> d{{memo ::= delete_where (owned_by owner)}} = removed d owner (fun _ => true).
Proof.
  intros Hok. unfold removed. destruct d as []. simpl. f_equal. unfold renumbered, delete_where, update_where. simpl. f_equal.
  assert (Hf : List.filter (fun r => negb (owned_by owner r && true)) (rows memo) = List.filter (fun r => negb (owned_by owner r)) (rows memo)).
  { apply List.filter_ext. intros m. by rewrite andb_true_r. }
  rewrite Hf. set (l := List.filter _ (rows memo)).
  assert (Hl : forall m, m ∈ l -> owned_by owner m = false).
  { intros m Hm%list_elem_of_In%filter_In. destruct Hm as [_ Hm]. by apply negb_true_iff. }
  assert (Hmine : List.filter (owned_by owner) l = []).
  { clear -Hl. induction l as [|m l IH]; [done|]. simpl. rewrite Hl by constructor. apply IH. intros; apply Hl. by constructor. }
  unfold renumber_where. rewrite Hmine. unfold replace_rows. simpl. rewrite app_nil_r, map_map. symmetry. rewrite <- map_id.
  apply map_ext_in. intros m Hm%list_elem_of_In. simpl. by rewrite Hl.
Qed.

Lemma removed_in_sequence d owner p : memos_ok (memo d) -> in_sequence owner (memo (removed d owner p)).
Proof. intros Hok. unfold in_sequence. rewrite removed_mailbox by done. by rewrite number_in_sequence, length_map, number_from_length. Qed.

(** The memos a text names: those of its ranges of numbers, or all. *)
Definition names (s : string) (k : Z) : Prop :=
  is_word s "ALL" = true \/ exists a b, (a, b) ∈ query_items (String.length s) s /\ a <= k <= b.

Definition deleted_text (k : Z) : string := if k =? 0 then "MEMO_DELETED_NONE" else "MEMO_DELETED_X " +:+ show_int k.

Lemma digit_not_all s : isdigit (hd_char s) = true -> is_word s "ALL" = false.
Proof.
  intros Hd. unfold is_word. apply Z.eqb_neq. intros Hs%stricmp_hd. simpl in Hs.
  destruct (hd_char s) as [[] [] [] [] [] [] [] []]; done.
Qed.

Lemma memo_bound_count mi cnt : cnt < memo_bound mi cnt.
Proof. unfold memo_bound. lia. Qed.

(** A number that is in use is not clipped. *)
Lemma ranges_name s max k : k < max -> isdigit (hd_char s) = true ->
  exists l, mysql_build_query s max = Some l /\ (in_ranges l k = true <-> names s k).
Proof.
  intros Hk Hd. destruct (mysql_build_query_spec s max) as (l & Hl & Hin). exists l. split; [done|].
  rewrite Hin. unfold names. rewrite digit_not_all by done. split.
  - intros (a & b & Hab & Hi). right. exists a, b. split; [done|lia].
  - intros [|(a & b & Hab & Hi)]; [done|]. exists a, b. split; [done|lia].
Qed.

(** Every memo's number is one that is in use. *)
Lemma sequence_bound owner d m : in_sequence owner (memo d) -> m ∈ select_where (owned_by owner) (memo d) ->
  1 <= m_idx m <= memo_count d owner.
Proof.
  intros Hs Hm. assert (Hin : m ∈ mailbox owner (memo d)) by (unfold mailbox; by rewrite order_by_perm).
  destruct (seq_ordered _ 1 Hs) as [_ Hf]. rewrite Forall_forall in Hf. specialize (Hf m Hin).
  rewrite mailbox_length in Hf. unfold memo_count. lia.
Qed.

Lemma count_filter (p : Memo -> bool) owner tab :
  length (select_where (fun m => owned_by owner m && p m) tab) = length (List.filter p (mailbox owner tab)).
Proof.
  unfold mailbox. rewrite <- order_by_filter. rewrite order_by_perm. f_equal. unfold select_where.
  symmetry. apply CsAccess.filter_filter.
Qed.

Definition deletes n us (owner s : string) n' : Prop :=
  exists p, (forall m, m ∈ select_where (owned_by owner) (memo (db (ext n))) -> p m = true <-> names s (m_idx m)) /\
    held n (users_heap n) (removed (db (ext n)) owner p)
      [Notice s_MemoServ (nick us) (deleted_text (Z.of_nat (length (List.filter p (mailbox owner (memo (db (ext n))))))))] n'.

Lemma do_del_spec n u us args : users_heap n !! u = Some us ->
  let d := db (ext n) in
  memos_ok (memo d) -> (forall owner, in_sequence owner (memo d)) ->
  (ChanDB.identified d us = true -> is_Some (nicks d !! real_id us)) ->
  (forall s max, snd (deletion args) = Some s -> isdigit (hd_char s) = true -> mysql_build_query s max <> Some []) ->
  wp (do_del u args) (fun _ n' =>
    match whose d us (fst (deletion args)) CA_MEMO_SEND, snd (deletion args) with
    | Some owner, Some s =>
        if (isdigit (hd_char s) || is_word s "ALL") && negb (memo_count d owner =? 0) then deletes n us owner s n'
        else replied n us n'
    | _, _ => replied n us n'
    end) n.
Proof.
  intros Hu d Hok Hseq Hrow Hrange. pose proof (held_refl n) as Ha. fold d in Ha. unfold do_del, deletion in *.
  destruct (strtok args "") as [numstr rest0]. destruct (strtok (default EmptyString numstr) " ") as [chan0 rest].
  set (chan := if starts_with "#" numstr then chan0 else None).
  set (num := if starts_with "#" numstr then fst (strtok rest "") else numstr).
  assert (Hdel : (if starts_with "#" numstr then (chan0, fst (strtok rest "")) else (None, numstr)) = (chan, num))
    by (unfold chan, num; by destruct (starts_with "#" numstr)).
  rewrite Hdel in *. cbn [fst snd] in *. apply wp_bind.
  eapply wp_mono; [eapply (wp_memo_owner n n); [exact Ha|exact Hu|by intros _]|]. fold d. intros owner n1 [-> Ha1].
  destruct (whose d us chan CA_MEMO_SEND) as [owner|]; [|by apply wp_ret].
  apply wp_bind. eapply wp_info; [exact Ha1|]. intros n2 Ha2. destruct num as [s|]; [|by eapply wp_reply].
  destruct (isdigit (hd_char s)) eqn:Hdig; cbn [negb andb orb].
  - apply wp_bind. eapply wp_selected; [done|]. fold (memo_count d owner). destruct (memo_count d owner =? 0) eqn:Hc; cbn [negb].
    { unfold no_memos. by eapply wp_reply. }
    assert (Hl := mysql_build_query_spec s (memo_bound (info_of d owner) (memo_count d owner))).
    destruct Hl as (l & Hl & _). rewrite Hl.
    assert (Hnames : forall m, m ∈ select_where (owned_by owner) (memo d) -> in_ranges l (m_idx m) = true <-> names s (m_idx m)).
    { intros m Hm. pose proof (sequence_bound owner d m (Hseq owner) Hm) as Hb.
      destruct (ranges_name s (memo_bound (info_of d owner) (memo_count d owner)) (m_idx m)) as (l' & Hl' & Hin); [|done|].
      - pose proof (memo_bound_count (info_of d owner) (memo_count d owner)). lia.
      - rewrite Hl in Hl'. injection Hl' as <-. exact Hin. }
    destruct l as [|r l]; [by destruct (Hrange s _ eq_refl Hdig Hl)|]. set (p := fun m : Memo => in_ranges (r :: l) (m_idx m)).
    apply wp_bind, wp_bind. unfold delete_memos. apply wp_bind. eapply wp_selected; [done|]. apply wp_bind.
    eapply wp_updated; [done|]. intros n3 Ha3. apply wp_ret, wp_bind. unfold renumber_memos. eapply wp_updated; [done|].
    intros n4 Ha4. apply wp_ret. eapply wp_told; [exact Ha4|done|]. intros n5 Ha5. exists p. split; [exact Hnames|].
    fold d. rewrite <- count_filter. exact Ha5.
  - destruct (is_word s "ALL") eqn:Hall; cbn [negb andb orb]; [|by eapply wp_reply].
    apply wp_bind. eapply wp_selected; [done|]. fold (memo_count d owner). destruct (memo_count d owner =? 0) eqn:Hc; cbn [negb].
    { unfold no_memos. by eapply wp_reply. }
    apply wp_bind. unfold delete_memos. apply wp_bind. eapply wp_selected; [done|]. apply wp_bind.
    eapply wp_updated; [done|]. intros n3 Ha3. rewrite (removed_all d owner Hok) in Ha3.
    apply wp_ret. eapply wp_told; [exact Ha3|done|]. intros n5 Ha5. exists (fun _ => true). split.
    { intros m _. split; [intros _; by left|done]. }
    fold d. rewrite CsAccess.filter_all, mailbox_length. exact Ha5.
Qed.

(** *** A memo is read *)
Definition read_marked d (i : Z) : DB :=
  d{{memo ::= update_where (fun m => m_id m =? i) (fun m => m{{m_flags ::= Z.land (Z.lnot MF_UNREAD)}})}}.

(** READ LAST: the last memo is shown, and read. *)
Lemma read_last_run n h d o n1 v vs r m l : held n h d o n1 -> h !! v = Some vs ->
  ChanDB.identified d vs = true -> nicks d !! real_id vs = Some r ->
  in_sequence (n_nick r) (memo d) -> mailbox (n_nick r) (memo d) = l ++ [m] ->
  wp (do_read v "LAST") (fun _ n' =>
    held n h (read_marked d (m_id m))
      (Notice s_MemoServ (nick vs) (shown_text m) :: Notice s_MemoServ (nick vs) ("MEMO_HEADER " +:+ memo_header m) :: o) n') n1.
Proof.
  intros Ha Hv Hid Hr Hs Hm. unfold do_read. change (strtok "LAST" " ") with (Some "LAST", EmptyString). cbv beta iota zeta.
  change (starts_with "#" (Some "LAST")) with false. cbv iota. unfold memo_owner.
  apply wp_bind, wp_bind. eapply wp_is_identified; [exact Ha|exact Hv|]. intros n2 Ha2. rewrite Hid. cbn [negb].
  apply wp_bind. eapply wp_loaded; [done|done|]. apply wp_bind. eapply wp_selected; [done|]. rewrite Hr. cbn.
  apply wp_bind. eapply wp_info; [exact Ha2|]. intros n3 Ha3. change (is_word "LAST" "LAST") with true. cbn [negb andb].
  apply wp_bind. eapply wp_selected; [done|].
  assert (Hc : Z.of_nat (length (select_where (owned_by (n_nick r)) (memo d))) =? 0 = false).
  { apply Z.eqb_neq. rewrite <- mailbox_length, Hm, length_app. cbn [length]. lia. }
  rewrite Hc. change (is_word "LAST" "NEW") with false. change (is_word "LAST" "ALL") with false. cbv iota.
  apply wp_bind. eapply wp_selected; [done|]. rewrite (in_sequence_order (n_nick r) d Hs), Hm, last_snoc. cbn [for_each].
  apply wp_bind. unfold read_memo. apply wp_bind. eapply wp_told; [done|done|]. intros n4 Ha4.
  apply wp_bind. eapply wp_told; [done|done|]. intros n5 Ha5. unfold mark_memo_read. eapply wp_updated; [done|]. intros n6 Ha6.
  apply wp_ret. exact Ha6.
Qed.

Lemma stored_shown k owner source text t i : shown_text (own owner (set_idx k (new_memo owner source text t i))) = "MEMO_TEXT " +:+ text.
Proof.
  unfold shown_text, new_memo, stored. cbn [own set_idx m_flags m_rot13 m_text].
  change (has MF_UNREAD MF_GLOBALSEND) with false. change (has MF_UNREAD MF_OPERSEND) with false. change (has MF_UNREAD MF_CSOPSEND) with false.
  cbv iota. destruct MSROT13; [|done]. f_equal. apply rot13_involutive.
Qed.

Lemma marked_mailbox d owner i :
  mailbox owner (memo (read_marked d i)) =
    map (fun m => if m_id m =? i then m{{m_flags ::= Z.land (Z.lnot MF_UNREAD)}} else m) (mailbox owner (memo d)).
Proof.
  unfold read_marked, mailbox. cbn [memo]. simpl. rewrite select_update by done. apply order_by_map.
  intros m. by destruct (m_id m =? i).
Qed.

(** A query that Services does not survive. *)
Lemma wp_none {S A B} (m : M S A) (k : A -> M S B) (Q : A -> S -> Prop) s :
  wp m Q s -> (forall a s', Q a s' -> k a s' = None) -> mbind k m s = None.
Proof. intros Hm Hk. apply wp_run in Hm as (a & s' & Hrun & HQ). unfold mbind, M_bind. rewrite Hrun. by apply Hk. Qed.

Lemma no_range mi d owner : mysql_build_query "2-0" (memo_bound mi (memo_count d owner)) = Some [].
Proof. apply empty_range. pose proof (memo_bound_count mi (memo_count d owner)). unfold memo_count in *. lia. Qed.

Section Fatal.
Context n u us r (Hu : users_heap n !! u = Some us) (Hid : ChanDB.identified (db (ext n)) us = true)
  (Hr : nicks (db (ext n)) !! real_id us = Some r) (Hmemos : memo_count (db (ext n)) (n_nick r) <> 0).

Lemma owner_found : wp (memo_owner u None CA_MEMO_READ) (fun owner n' => owner = Some (n_nick r) /\
  held n (users_heap n) (db (ext n)) [] n') n.
Proof.
  eapply wp_mono; [eapply (wp_memo_owner n n u us); [apply held_refl|done|intros _ _; by exists r]|].
  intros owner n' [-> Hn']. unfold whose in *. rewrite Hid, Hr in *. by split.
Qed.

Lemma info_found n1 owner : held n (users_heap n) (db (ext n)) [] n1 ->
  wp (get_memoinfo_from_owner owner) (fun _ n' => held n (users_heap n) (db (ext n)) [] n') n1.
Proof. intros Ha. by eapply wp_info. Qed.

Lemma count_found n1 : held n (users_heap n) (db (ext n)) [] n1 ->
  wp (count_memos (n_nick r)) (fun c n' => c = memo_count (db (ext n)) (n_nick r) /\ held n (users_heap n) (db (ext n)) [] n') n1.
Proof. intros Ha. by eapply wp_selected. Qed.

End Fatal.
End MemoSpec.

(** ** Properties *)
Section Properties.
Context `{Conf} `{MemoConf} `{MySQL} {E : Type} `{!ChanDB E} `{!NickServ E} `{!NickView E}.
Implicit Types (n : Net E).

(** C24: SEND, for every argument: the memo is kept exactly if the sender is
    recognized and the nick or channel is registered and not forbidden, is within its
    limit and not asked too soon after the last memo (unless the sender is an administrator), and, a
    channel, lets the sender send.  Then it is the last memo of the master nick or channel, unread and
    with the text as it is stored; the owner's memos are numbered from 1 in the order they
    were sent, nobody else's change, and those are told, once each, who asked for it.
    Else no table changes, and the sender is told why. *)
Theorem do_send_correct n u us args (Hg : heap_ok (graph_of n)) (Hok : memos_ok (memo (db (ext n))))
  (Hpast : past (now n) (memo (db (ext n)))) (Hu : users_heap n !! u = Some us)
  (Hlinks : forall name text, letter args = Some (name, text) -> is_Some (addressed (db (ext n)) name)) :
  let d := db (ext n) in
  wp (do_send u args) (fun _ n' =>
    let d' := db (ext n') in
    memos_ok (memo d') /\ past (now n') (memo d') /\
    ((forall owner, in_sequence owner (memo d)) -> forall owner, in_sequence owner (memo d')) /\
    match letter args with
    | Some (name, text) =>
        exists owner, addressed d name = Some owner /\
        if accepted d us (now n) owner then
          d' = d{{memo := memo d'}} /\
          mailbox owner (memo d') = map (own owner) (number_from 1 (mailbox owner (memo d) ++
            [mkMemo (auto_increment (memo d)) owner 0 MF_UNREAD (now n) (nick us) (stored text) MSROT13])) /\
          (forall owner', same_text owner' owner = false ->
             select_where (owned_by owner') (memo d') = select_where (owned_by owner') (memo d)) /\
          let h := stamped u (now n) (users_heap n) in
          held n h d' (told n h d' u us owner (memo_count d owner + 1)) n'
        else exists why, refused n u us why n'
    | None => exists why, refused n u us why n'
    end) n.
Proof.
  intros d. eapply wp_mono; [by apply do_send_spec|]. cbv beta. intros [] n' Hn'.
  assert (Hno : forall P : Prop, (exists why, refused n u us why n') -> P -> memos_ok (memo (db (ext n'))) /\ past (now n') (memo (db (ext n'))) /\
    ((forall owner, in_sequence owner (memo d)) -> forall owner, in_sequence owner (memo (db (ext n')))) /\ P).
  { intros P [why []] HP. by rewrite hd_db0, hd_now0. }
  destruct (letter args) as [[name text]|]; [|by apply Hno].
  destruct Hn' as (owner & Ho & Hn'). fold d in Ho, Hn'. destruct (accepted d us (now n) owner) eqn:Hacc.
  - pose proof (hd_db _ _ _ _ _ Hn') as Hd'. pose proof (hd_now _ _ _ _ _ Hn') as Ht. rewrite Hd', Ht. split_and!.
    + by apply posted_ok.
    + by apply posted_past.
    + apply (in_sequence_all owner); [by intros; apply posted_other|by apply posted_in_sequence].
    + exists owner. split; [done|]. rewrite Hacc. split_and!; [by destruct d|by apply posted_mailbox|by intros; apply posted_other|].
      exact Hn'.
  - apply Hno; [done|]. exists owner. split; [done|]. by rewrite Hacc.
Qed.

(** C25: DEL, for every argument: if the nick is identified, or the channel lets the
    user, the owner has memos and the text names some or all, exactly the memos it names
    are gone, those left keep their order and are numbered from 1, nobody else's
    change, and the user is told how many.  Else no table changes, and the user is told why. *)
Theorem do_del_correct n u us args (Hu : users_heap n !! u = Some us) (Hok : memos_ok (memo (db (ext n))))
  (Hseq : forall owner, in_sequence owner (memo (db (ext n))))
  (Hrow : ChanDB.identified (db (ext n)) us = true -> is_Some (nicks (db (ext n)) !! real_id us))
  (Hrange : forall s max, snd (deletion args) = Some s -> isdigit (hd_char s) = true -> mysql_build_query s max <> Some []) :
  let d := db (ext n) in
  wp (do_del u args) (fun _ n' =>
    let d' := db (ext n') in
    memos_ok (memo d') /\ (forall owner, in_sequence owner (memo d')) /\
    match whose d us (fst (deletion args)) CA_MEMO_SEND, snd (deletion args) with
    | Some owner, Some s =>
        if (isdigit (hd_char s) || is_word s "ALL") && negb (memo_count d owner =? 0) then
          exists p, (forall m, m ∈ select_where (owned_by owner) (memo d) -> p m = true <-> names s (m_idx m)) /\
            d' = d{{memo := memo d'}} /\
            mailbox owner (memo d') = map (own owner) (number_from 1 (List.filter (fun m => negb (p m)) (mailbox owner (memo d)))) /\
            (forall owner', same_text owner' owner = false ->
               select_where (owned_by owner') (memo d') = select_where (owned_by owner') (memo d)) /\
            held n (users_heap n) d'
              [Notice s_MemoServ (nick us) (deleted_text (Z.of_nat (length (List.filter p (mailbox owner (memo d))))))] n'
        else replied n us n'
    | _, _ => replied n us n'
    end) n.
Proof.
  intros d. eapply wp_mono; [by apply do_del_spec|]. cbv beta. fold d. intros [] n' Hn'.
  assert (Hno : forall P : Prop, replied n us n' -> P -> memos_ok (memo (db (ext n'))) /\
    (forall owner, in_sequence owner (memo (db (ext n')))) /\ P).
  { intros P [why []] HP. by rewrite hd_db0. }
  destruct (whose d us _ _) as [owner|]; [|by apply Hno]. destruct (snd (deletion args)) as [s|]; [|by apply Hno].
  destruct (_ && _); [|by apply Hno]. destruct Hn' as (p & Hp & Hn'). fold d in Hp, Hn'.
  pose proof (hd_db _ _ _ _ _ Hn') as Hd'. rewrite Hd'. split_and!.
  - by apply removed_ok.
  - apply (in_sequence_all owner (memo d)); [by intros; apply removed_other|by apply removed_in_sequence|done].
  - exists p. split_and!; [done|by destruct d|by apply removed_mailbox|by intros; apply removed_other|exact Hn'].
Qed.

(** C26: What is written is read: after a memo is sent, its owner's READ LAST shows the
    text that was sent, whether memos are stored in rot13 or not, and who sent
    it, and the memo is no longer unread. *)
Theorem send_read_roundtrip n u us v vs args name text owner r (Hg : heap_ok (graph_of n)) (Hok : memos_ok (memo (db (ext n))))
  (Hpast : past (now n) (memo (db (ext n)))) (Hu : users_heap n !! u = Some us) (Hv : users_heap n !! v = Some vs)
  (Hletter : letter args = Some (name, text)) (Ho : addressed (db (ext n)) name = Some owner)
  (Hacc : accepted (db (ext n)) us (now n) owner = true)
  (Hid : ChanDB.identified (posted (db (ext n)) owner (nick us) text (now n)) vs = true)
  (Hr : nicks (db (ext n)) !! real_id vs = Some r) (Hn : n_nick r = owner) :
  wp (do_send u args;; do_read v "LAST") (fun _ n' =>
    take 2 (out n') = [Notice s_MemoServ (nick vs) ("MEMO_TEXT " +:+ text);
                       Notice s_MemoServ (nick vs) ("MEMO_HEADER " +:+ show_int (memo_count (db (ext n)) owner + 1) +:+ " " +:+ nick us)] /\
    exists l m, mailbox owner (memo (db (ext n'))) = l ++ [m] /\ has (m_flags m) MF_UNREAD = false /\ m_sender m = nick us) n.
Proof.
  set (d := db (ext n)) in *. apply wp_bind. eapply wp_mono; [apply do_send_spec; try done|].
  { intros ? ? Hl. rewrite Hletter in Hl. injection Hl as <- <-. fold d. rewrite Ho. by eexists. }
  cbv beta. rewrite Hletter. fold d. intros [] n1 (o & Ho' & Hn1). rewrite Ho in Ho'. injection Ho' as <-. rewrite Hacc in Hn1.
  cbv zeta in Hn1. set (d' := posted d owner (nick us) text (now n)) in *.
  assert (Hv' : exists vs', stamped u (now n) (users_heap n) !! v = Some vs' /\ real_id vs' = real_id vs /\ nick vs' = nick vs).
  { unfold stamped. destruct (decide (v = u)) as [->|Hne].
    - rewrite lookup_alter_eq, Hv. by eexists.
    - rewrite lookup_alter_ne by done. by exists vs. }
  destruct Hv' as (vs' & Hv' & Hid' & Hnick').
  pose proof (posted_mailbox d owner (nick us) text (now n) Hok Hpast) as Hm. fold d' in Hm.
  rewrite number_from_app, map_app in Hm. cbn [number_from map] in Hm.
  eapply wp_mono; [eapply (read_last_run n _ d' _ n1 v vs' r); [exact Hn1|exact Hv'| | | |by rewrite Hn]|].
  - unfold ChanDB.identified in *. by rewrite Hid'.
  - rewrite Hid'. exact Hr.
  - rewrite Hn. by apply posted_in_sequence.
  - intros [] n2 Ha2. rewrite (hd_out _ _ _ _ _ Ha2), (hd_db _ _ _ _ _ Ha2), stored_shown, Hnick'. split.
    + cbn [app take]. do 3 f_equal. unfold memo_header. simpl. rewrite mailbox_length. unfold memo_count. by rewrite Z.add_comm.
    + rewrite marked_mailbox, Hm, map_app. do 2 eexists. split; [reflexivity|]. cbn [own set_idx]. simpl. by rewrite Z.eqb_refl.
Qed.

(** Whoever has a memo can end Services: LIST, READ or DEL with numbers that form no
    range, such as [2-0], makes a query with an empty condition, and a query MySQL
    refuses is fatal. *)
Theorem memo_empty_range_fatal n u us r (Hu : users_heap n !! u = Some us) (Hid : ChanDB.identified (db (ext n)) us = true)
  (Hr : nicks (db (ext n)) !! real_id us = Some r) (Hmemos : memo_count (db (ext n)) (n_nick r) <> 0) :
  Forall (fun cmd => cmd u "2-0" n = None) [do_list; do_read; do_del].
Proof.
  pose proof (owner_found n u us r Hu Hid Hr) as Ho. apply Z.eqb_neq in Hmemos.
  repeat constructor.
  - unfold do_list. change (strtok "2-0" " ") with (Some "2-0", EmptyString). cbv beta iota zeta.
    change (starts_with "#" (Some "2-0")) with false. cbv iota. eapply wp_none; [exact Ho|]. intros ? n1 [-> Ha1].
    eapply wp_none; [by eapply info_found|]. intros [[mi ?] ?] n2 Ha2. change (isdigit (hd_char "2-0")) with true. cbn [negb andb].
    eapply wp_none; [by eapply count_found|]. intros c n3 [-> Ha3]. rewrite Hmemos.
    eapply wp_none; [eapply (wp_selected _ _ _ _ n3 _ (fun a n' => a = None)); [done|]; cbv beta; unfold memos_numbered; rewrite no_range; change (isdigit (hd_char "2-0")) with true; reflexivity|]. by intros ? n4 ->.
  - unfold do_read. change (strtok "2-0" " ") with (Some "2-0", EmptyString). cbv beta iota zeta.
    change (starts_with "#" (Some "2-0")) with false. cbv iota. eapply wp_none; [exact Ho|]. intros ? n1 [-> Ha1].
    eapply wp_none; [by eapply info_found|]. intros [[mi ?] ?] n2 Ha2.
    change (negb (is_word "2-0" "LAST") && negb (is_word "2-0" "NEW") && negb (is_word "2-0" "ALL") && (atoi "2-0" <=? 0)) with false. cbv iota.
    eapply wp_none; [by eapply count_found|]. intros c n3 [-> Ha3]. rewrite Hmemos.
    eapply wp_none; [eapply (wp_selected _ _ _ _ n3 _ (fun a n' => a = None)); [done|]|by intros ? n4 ->].
    change (is_word "2-0" "NEW") with false. change (is_word "2-0" "ALL") with false. change (is_word "2-0" "LAST") with false.
    cbv iota. unfold memos_numbered. by rewrite no_range.
  - unfold do_del. change (strtok "2-0" "") with (Some "2-0", EmptyString). cbv beta iota zeta.
    change (starts_with "#" (Some "2-0")) with false. cbv iota. cbn [default].
    destruct (strtok "2-0" " ") as [c r0]. eapply wp_none; [exact Ho|]. intros ? n1 [-> Ha1].
    eapply wp_none; [by eapply info_found|]. intros [[mi ?] ?] n2 Ha2. change (isdigit (hd_char "2-0")) with true. cbn [negb andb].
    eapply wp_none; [by eapply count_found|]. intros k n3 [-> Ha3]. rewrite Hmemos, no_range. done.
Qed.
End Properties.


(** ** Examples *)
Module Witness.
Import Interfaces.Demo Tables.

#[local] Existing Instance OperDemo.mysql.
#[local] Instance memo_conf : MemoConf := { MSMaxMemos := 20; MSSendDelay := 3; MSNotifyAll := true; MSROT13 := true }.

Definition alice : User := Demo.alice{{nick_id := 7; real_id := 7}}.

(** alice may keep 20 memos. *)
Definition net (memos : list Memo) : Net DB :=
  Tables.net{{ext := Tables.tables{{memo := mkTable memos 3; memoinfo := mkTable [mkMemoInfo 1 "alice" 20] 2}} }}.

Definition two : list Memo := [mkMemo 1 "alice" 1 0 900 "bob" "uryyb" true; mkMemo 2 "alice" 2 MF_UNREAD 950 "bob" "ntnva" true].

Lemma demo_ok memos : heap_ok (graph_of (net memos)).
Proof. replace (graph_of (net memos)) with (graph_of Demo.net); [apply Demo.net_ok|]. vm_compute. reflexivity. Qed.

Lemma two_ok : memos_ok (mkTable two 3).
Proof. split; simpl; [repeat (constructor; [set_solver|]); constructor|]. repeat constructor; simpl; lia. Qed.

Lemma two_past : past 1000 (mkTable two 3).
Proof. repeat constructor; simpl; lia. Qed.

Lemma two_sequence owner : in_sequence owner (mkTable two 3).
Proof. unfold in_sequence, mailbox, select_where, owned_by, two. simpl. by destruct (same_text "alice" owner). Qed.

(** alice sends herself a third memo. *)
Lemma do_send_correct_witness :
  exists n', do_send 1 "alice hello there" (net two) = Some (tt, n') /\ map m_idx (mailbox "alice" (memo (db (ext n')))) = [1; 2; 3].
Proof.
  pose proof (do_send_correct (net two) 1 alice "alice hello there" (demo_ok two) two_ok two_past eq_refl) as Hw.
  assert (Hl : forall name text, letter "alice hello there" = Some (name, text) -> is_Some (addressed (db (ext (net two))) name)).
  { intros name text Hl. vm_compute in Hl. injection Hl as <- <-. by eexists. }
  specialize (Hw Hl). apply wp_run in Hw as ([] & n' & Hrun & _ & _ & _ & Hw). exists n'. split; [exact Hrun|].
  change (letter "alice hello there") with (Some ("alice", "hello there")) in Hw. cbv iota in Hw.
  destruct Hw as (owner & Ho & Hw). assert (owner = "alice") as -> by (vm_compute in Ho; congruence).
  replace (accepted _ _ _ _) with true in Hw by (vm_compute; reflexivity). destruct Hw as (_ & Hm & _). rewrite Hm. vm_compute. reflexivity.
Defined.

(** She deletes the first. *)
Lemma do_del_correct_witness :
  exists n', do_del 1 "1" (net two) = Some (tt, n') /\ map m_id (mailbox "alice" (memo (db (ext n')))) = [2].
Proof.
  pose proof (do_del_correct (net two) 1 alice "1" eq_refl two_ok two_sequence) as Hw.
  assert (Hr : forall s max, snd (deletion "1") = Some s -> isdigit (hd_char s) = true -> mysql_build_query s max <> Some []).
  { intros s max Hs _. vm_compute in Hs. injection Hs as <-. unfold mysql_build_query. simpl. destruct (_ <? _); [|done].
    by rewrite Z.leb_refl. }
  specialize (Hw ltac:(intros _; by eexists) Hr). apply wp_run in Hw as ([] & n' & Hrun & _ & _ & Hw). exists n'. split; [exact Hrun|].
  change (whose _ _ _ _) with (Some "alice") in Hw. change (snd (deletion "1")) with (Some "1") in Hw. cbv iota in Hw.
  destruct Hw as (p & Hp & _ & Hm & _). rewrite Hm. change (mailbox "alice" _) with two. unfold two in *. cbn [List.filter].
  assert (Hn : forall k, names "1" k <-> k = 1).
  { intros k. unfold names. change (is_word "1" "ALL") with false. change (query_items _ _) with [(1, 1)]. split.
    - intros [?|(a & b & [= -> ->]%list_elem_of_singleton & ?)]; [done|lia].
    - intros ->. right. exists 1, 1. split; [constructor|lia]. }
  assert (Hp1 : p (mkMemo 1 "alice" 1 0 900 "bob" "uryyb" true) = true).
  { apply Hp; [vm_compute; constructor|]. by apply Hn. }
  assert (Hp2 : p (mkMemo 2 "alice" 2 MF_UNREAD 950 "bob" "ntnva" true) = false).
  { apply not_true_iff_false. intros Hp2. apply Hp in Hp2; [|vm_compute; constructor; constructor]. apply Hn in Hp2. done. }
  by rewrite Hp1, Hp2.
Defined.

Lemma send_read_roundtrip_witness :
  wp (do_send 1 "alice hello there";; do_read 1 "LAST") (fun _ n' => exists header,
    take 2 (out n') = [Notice "MemoServ" "alice" "MEMO_TEXT hello there"; header]) (net two).
Proof.
  eapply wp_mono.
  - eapply (send_read_roundtrip (net two) 1 alice 1 alice "alice hello there" "alice" "hello there" "alice" (nick_row "alice" 0));
      [exact (demo_ok two)|exact two_ok|exact two_past|vm_compute; reflexivity..].
  - intros [] n' [Hw _]. by eexists.
Defined.

Lemma memo_empty_range_fatal_witness : do_read 1 "2-0" (net two) = None.
Proof.
  assert (Hw : Forall (fun cmd => cmd 1 "2-0" (net two) = None) [do_list; do_read; do_del]).
  { apply (memo_empty_range_fatal (net two) 1 alice (nick_row "alice" 0)); [reflexivity..|vm_compute; discriminate]. }
  by apply Forall_cons in Hw as [_ [Hw _]%Forall_cons].
Defined.
End Witness.
