(* ===== verification/Akill.v ===== *)
(** Autokills: [src/akill.c].

    The rows are kept in the order of their numbers.  The first section models
    the file; the second says what one AKILL command may do to the list
    ([akill_step]) and proves that it does nothing else. *)

From S2P Require Import Prelude CStr Wild NumTime Wp Track Graph Net Interfaces Part Masks Walk Channels Users Query OperDB.

(** The result of [add_akill]. *)
Inductive add_result := Added | AKILL_PRESENT | TOO_MANY_AKILLS.
#[export] Instance add_result_dec : EqDecision add_result.
Proof. solve_decision. Defined.

Definition MAX_ROWS : Z := 32767.

Section Akill.
Context `{Conf} `{OperConf} `{MySQL} {E : Type} `{!NickServ E} `{!Part OperDB E}.
Implicit Types (n : Net E).

Definition set_tables (f : OperDB -> OperDB) : M (Net E) unit := lift (modify f).
Definition tables {A} (f : OperDB -> A) : M (Net E) A := gets (fun n => f (owned n)).

Definition num_akills : M (Net E) Z := tables (fun d => Z.of_nat (length (akill d))).

(** KLINE with the two parts of the mask. *)
Definition send_akill (msk reason : string) : M (Net E) unit :=
  match strchr msk "@" with
  | None => wallops None ("Missing @ in AKILL: " +:+ msk)
  | Some rest =>
      send_cmd (Some s_OperServ)
        ("KLINE * 0 " +:+ str_take (strcspn msk "@") msk +:+ " " +:+ str_drop 1 rest +:+
         " :autokilled: " +:+ reason)
  end.

(** [user@host] as it is put into [char buf[512]]. *)
Definition akill_subject (username host : string) : string :=
  let u := trunc 510 username +:+ "@" in u +:+ strlower (trunc (512 - String.length u) host).

(** The row with the largest id: [ORDER BY akill_id DESC]. *)
Fixpoint newest (l : list AkillRow) : option AkillRow :=
  match l with
  | [] => None
  | a :: l' => match newest l' with
               | Some b => if a_id a <? a_id b then Some b else Some a
               | None => Some a
               end
  end.

Definition covers (buf msk : string) : bool := negb (Udf.irc_match msk buf None =? 0).

Definition check_akill (nk username host : string) : M (Net E) bool :=
  let buf := akill_subject username host in
  rows ← tables (fun d => List.filter (fun a => covers buf (a_mask a)) (akill d));
  match newest rows with
  | None => mret false
  | Some a =>
      send_cmd (Some s_OperServ)
        ("KILL " +:+ nk +:+ " :" +:+ s_OperServ +:+ " ([" +:+ show_int (a_id a) +:+ "] " +:+
         default (a_reason a) StaticAkillReason +:+ ")");;
      send_akill (a_mask a) (a_reason a);;
      mret true
  end.

(** [expires != 0 && expires < now] *)
Definition lapsed (now expires : Z) : bool := negb (expires =? 0) && (expires <? now).

Definition expire_akills : M (Net E) unit :=
  t ← gets now;
  if opt_noexpire then mret tt
  else
    (if WallAkillExpire then
       rows ← tables (fun d => List.filter (fun a => lapsed t (a_expires a)) (akill d));
       for_each rows (fun a =>
         wallops (Some s_OperServ) ("AKILL on " +:+ a_mask a +:+ " has expired");;
         match strchr (a_mask a) "@" with
         | None => mret tt
         | Some rest =>
             send_cmd (Some s_OperServ)
               ("UNKLINE * " +:+ str_take (strcspn (a_mask a) "@") (a_mask a) +:+ " " +:+
                strlower (str_drop 1 rest))
         end)
     else mret tt);;
    set_tables (fun d => d{{akill ::= List.filter (fun a => negb (lapsed t (a_expires a)))}}).

(** [INSERT] under the unique key [mask]; true for [ER_DUP_ENTRY]. *)
Definition mysql_insert_akill (msk reason who : string) (time expires : Z) : M (Net E) bool :=
  dup ← tables (fun d => existsb (fun a => same_text (a_mask a) msk) (akill d));
  when (negb dup) (set_tables (fun d =>
    d{{akill := akill d ++ [mkAkill (akill_next d) msk reason who time expires];
       akill_next := u32 (akill_next d + 1)}}));;
  mret dup.

Definition add_akill (msk reason who : string) (expiry : Z) : M (Net E) add_result :=
  k ← num_akills;
  if MAX_ROWS <=? k then mret TOO_MANY_AKILLS
  else
    t ← gets now;
    dup ← mysql_insert_akill (strlower msk) reason (trunc NICKMAX who) t expiry;
    when ImmediatelySendAkill (send_akill (strlower msk) reason);;
    mret (if dup : bool then AKILL_PRESENT else Added).

Definition mysql_delete_akill (i : Z) : M (Net E) unit :=
  set_tables (fun d => d{{akill ::= List.filter (fun a => negb (a_id a =? i))}}).

Definition del_akill (u : ptr) (msk : string) : M (Net E) bool :=
  row ← tables (fun d => find_first (fun a => same_text (a_mask a) msk) (akill d));
  match row with
  | None => oper_reply u "OPER_AKILL_NOT_FOUND";; mret false
  | Some a =>
      if a_id a =? 0 then oper_reply u "OPER_AKILL_NOT_FOUND";; mret false
      else
        us ← load_user u;
        o ← is_services_oper u;
        mine ← (if o : bool then mret true
                else
                  i ← mysql_findnick (a_who a);
                  if i =? 0 then mret false
                  else l ← mysql_getlink i; l' ← mysql_getlink (nick_id us); mret (l =? l'));
        if mine : bool then
          t ← gets now;
          let gone := if a_expires a =? 0 then "Would not expire"
                      else "Would have expired in " +:+ disect_time (a_expires a - t) in
          wallops (Some s_OperServ) (BOLD +:+ nick us +:+ BOLD +:+ " removed an AKILL for " +:+ BOLD +:+
            a_mask a +:+ BOLD +:+ " (" +:+ gone +:+ ") [" +:+ a_reason a +:+ "]");;
          wallops (Some s_OperServ) ("Originally set by " +:+ BOLD +:+ a_who a +:+ BOLD);;
          mysql_delete_akill (a_id a);;
          mret true
        else oper_reply u "OPER_AKILL_ONLY_DELETE_OWN";; mret false
  end.

(** *** The AKILL command *)

(** 0 for an operator, 1 for a Services operator, 2 for an administrator. *)
Definition oper_rank (u : ptr) : M (Net E) Z :=
  a ← is_services_admin u;
  if a : bool then mret 2
  else o ← is_services_oper u; mret (if o : bool then 1 else 0).

(** The characters of the host part that are no wildcards: from the end back
    to the last [@], never the first character. *)
Fixpoint nonwild_loop (i : nat) (msk : string) : Z :=
  match i with
  | O => 0
  | S i' =>
      let c := char_at msk i in
      if Ascii.eqb c "@" then 0
      else (if has_char "*?." c then 0 else 1) + nonwild_loop i' msk
  end.
Definition nonwild (msk : string) : Z := nonwild_loop (String.length msk - 1) msk.

(** [dotime]; a sum that no [int] holds is undefined. *)
Definition expiry_of (s : string) : M (Net E) Z :=
  match dotime s with Some e => mret e | None => fault end.

(** [+expiry] in front of an argument. *)
Definition opt_expiry (args : string) : option string * option string * string :=
  let '(m, rest) := strtok args " " in
  match m with
  | Some m' => if Ascii.eqb (hd_char m') "+" then let '(m2, rest) := strtok rest " " in (Some m', m2, rest)
               else (None, m, rest)
  | None => (None, None, rest)
  end.

(** The checks on the mask, and the addition. *)
Definition akill_add_mask (u : ptr) (rank : Z) (force : bool) (t expires : Z) (msk reason : string)
    : M (Net E) unit :=
  if has_char msk "!" then oper_reply u "OPER_AKILL_NO_NICK";; oper_reply u "BAD_USERHOST_MASK"
  else if negb (has_char msk "@") then oper_reply u "BAD_USERHOST_MASK"
  else if negb force && negb (AkillWildThresh =? 0) && (nonwild msk <? AkillWildThresh) then
    oper_reply u (if 1 <? rank then "OPER_AKILL_MASK_TOO_GENERAL_FORCE" else "OPER_AKILL_MASK_TOO_GENERAL")
  else
    let msk := strlower msk in
    k ← count_mask_matches msk;
    k ← (if k =? 0 then count_mask_matches msk else mret k);
    if (20 <? k) && (rank <? 1) then oper_reply u "OPER_AKILL_TOO_MANY_MATCHES"
    else if (43200 <? expires - t) && (rank <? 1) then oper_reply u "OPER_AKILL_TOO_LONG"
    else
      us ← load_user u;
      add ← add_akill msk reason (nick us) expires;
      if decide (add = AKILL_PRESENT) then oper_reply u "OPER_AKILL_MASK_ALREADY_AKILLED"
      else
        oper_reply u "OPER_AKILL_ADDED";;
        when WallOSAkill
          (wallops (Some s_OperServ) (BOLD +:+ nick us +:+ BOLD +:+ " added an AKILL for " +:+ BOLD +:+ msk +:+ BOLD +:+
             " (matched " +:+ BOLD +:+ show_int k +:+ BOLD +:+ " user" +:+ (if k =? 1 then "" else "s") +:+ ", " +:+
             (if expires =? 0 then "OPER_AKILL_NO_EXPIRE" else expires_in_lang us (expires - t + 59)) +:+
             ") [" +:+ reason +:+ "]")).

Definition akill_add (u : ptr) (rank : Z) (args : string) : M (Net E) unit :=
  t ← gets now;
  i ← nick_identified u;
  if negb i then oper_reply u "NICK_IDENTIFY_REQUIRED"
  else
    k ← num_akills;
    if MAX_ROWS <=? k then oper_reply u "OPER_TOO_MANY_AKILLS"
    else
      let '(expiry, msk, rest) := opt_expiry args in
      let force := match msk with Some m => stricmp m "FORCE" =? 0 | None => false end in
      if force && negb (1 <? rank) then oper_reply u "ACCESS_DENIED"
      else
        let '(msk, rest) := if force then strtok rest " " else (msk, rest) in
        expires ← (match expiry with Some e => expiry_of e | None => mret AutokillExpiry end);
        if expires <? 0 then oper_reply u "BAD_EXPIRY_TIME"
        else
          let expires := if 0 <? expires then expires + t else expires in
          match msk, fst (strtok rest "") with
          | Some msk, Some reason => akill_add_mask u rank force t expires msk reason
          | _, _ => oper_reply u "OPER_AKILL_ADD_SYNTAX"
          end.

(** [s = strchr (mask, '@'); if (s) strlower (s);] *)
Definition lower_host (msk : string) : string :=
  let k := strcspn msk "@" in str_take k msk +:+ strlower (str_drop k msk).

Definition akill_del (u : ptr) (args : string) : M (Net E) unit :=
  let '(msk, _) := strtok args " " in
  i ← nick_identified u;
  if negb i then oper_reply u "NICK_IDENTIFY_REQUIRED"
  else match msk with
       | None => oper_reply u "OPER_AKILL_DEL_SYNTAX"
       | Some msk =>
           let msk := lower_host msk in
           d ← del_akill u msk;
           when d
             (oper_reply u "OPER_AKILL_REMOVED";;
              match strchr msk "@" with
              | None => mret tt
              | Some rest =>
                  send_cmd (Some s_OperServ)
                    ("UNKLINE * " +:+ str_take (strcspn msk "@") msk +:+ " " +:+ str_drop 1 rest)
              end)
       end.

(** LIST and VIEW differ in the line they print. *)
Definition akill_list (u : ptr) (line : AkillRow -> string) (args : string) : M (Net E) unit :=
  expire_akills;;
  let '(s, rest) := strtok args " " in
  let noexpire := match s, fst (strtok rest " ") with
                  | Some _, Some e => stricmp e "NOEXPIRE" =? 0
                  | _, _ => false
                  end in
  let s := lower_host (default "*" s) in
  oper_reply u "OPER_AKILL_LIST_HEADER";;
  rows ← tables akill;
  for_each rows (fun a =>
    when (match_wild s (a_mask a) && (negb noexpire || (a_expires a =? 0))) (oper_reply u (line a))).

Definition do_akill (u : ptr) (args : string) : M (Net E) unit :=
  rank ← oper_rank u;
  let '(cmd, rest) := strtok args " " in
  let cmd := default EmptyString cmd in
  if stricmp cmd "ADD" =? 0 then akill_add u rank rest
  else if stricmp cmd "DEL" =? 0 then akill_del u rest
  else if stricmp cmd "LIST" =? 0 then
    akill_list u (fun a => "OPER_AKILL_LIST_FORMAT " +:+ a_mask a +:+ " " +:+ a_reason a) rest
  else if stricmp cmd "VIEW" =? 0 then
    akill_list u (fun a => "OPER_AKILL_VIEW_FORMAT " +:+ a_mask a) rest
  else if stricmp cmd "COUNT" =? 0 then
    k ← num_akills; oper_reply u ("OPER_AKILL_COUNT " +:+ show_int k)
  else oper_reply u "OPER_AKILL_SYNTAX".
End Akill.

(** ** Which autokills a user may set and remove *)
Section AkillSpec.
Context `{Conf} `{OperConf} `{MySQL} {E : Type} `{!NickServ E} `{!Part OperDB E}.
Context `{!NickTables E} `{!NickTablesLaws E}.
Implicit Types (n : Net E) (us : User) (a : AkillRow).

(** Nothing changed but the tables, messages and caches. *)
Record kept n n' : Prop := {
  ke_users : users_heap n' = users_heap n;
  ke_graph : graph_of n' = graph_of n;
  ke_now : now n' = now n;
  ke_status : forall i, status_of (ext n') i = status_of (ext n) i;
  ke_id : forall s, id_of (ext n') s = id_of (ext n) s;
  ke_link : forall i, link_of (ext n') i = link_of (ext n) i
}.

#[export] Instance kept_preorder : PreOrder kept.
Proof. split; [by intros n|]. intros n1 n2 n3 [] []. split; try congruence; intros; etransitivity; eauto. Qed.

#[export] Instance oper_track : Track (Net E) OperDB := {tracked := owned; frame := kept}.

Lemma leaves_self n n' : calm n n' -> leaves (owned n) n n'.
Proof. intros []. by split. Qed.

Lemma calm_leaves n n1 n2 d : calm n n1 -> leaves d n1 n2 -> leaves d n n2.
Proof. intros Hc. by apply leaves_trans with (owned n), leaves_self. Qed.

Lemma leaves_calm n n1 n2 d : leaves d n n1 -> calm n1 n2 -> leaves d n n2.
Proof. intros [Hf <-] Hc. apply leaves_trans with (owned n1) n1; [done|by apply leaves_self]. Qed.

Lemma le_part d n n' : leaves d n n' -> owned n' = d.
Proof. by intros [_ ?]. Qed.

Lemma le_graph d n n' : leaves d n n' -> graph_of n' = graph_of n.
Proof. intros [Hf _]. apply Hf. Qed.

Lemma le_users d n n' : leaves d n n' -> users_heap n' = users_heap n.
Proof. intros [Hf _]. apply Hf. Qed.

Lemma le_now d n n' : leaves d n n' -> now n' = now n.
Proof. intros [Hf _]. apply Hf. Qed.

Lemma set_tables_leaves n f : wp (set_tables f) (fun _ n' => leaves (f (owned n)) n n') n.
Proof.
  apply wp_lift, wp_modify. split; [split; try done; simpl|apply owned_put].
  - intros i. apply status_part.
  - intros s. apply id_part.
  - intros i. apply link_part.
Qed.

Lemma asks_tables {A} n (f : OperDB -> A) : asks n (tables f) (f (owned n)).
Proof. by apply wp_gets. Qed.

Lemma calms_send_akill n msk reason : calms n (send_akill msk reason).
Proof. unfold send_akill, wallops, send_cmd. destruct (strchr msk "@"); apply calms_emit. Qed.

Lemma asks_rank n u us : users_heap n !! u = Some us ->
  asks n (oper_rank u) (if admin_user (ext n) us then 2 else if oper_user (ext n) us then 1 else 0).
Proof.
  intros Hu. unfold oper_rank. eapply asks_bind; [by apply asks_admin|]. intros n1 Hc1.
  destruct (admin_user (ext n) us); [apply asks_ret|]. rewrite <- (oper_calm _ _ us Hc1).
  eapply asks_bind; [by eapply asks_oper, calm_lookup|]. intros n2 _. apply asks_ret.
Qed.

Lemma asks_count n msk : heap_ok (graph_of n) -> has_char msk "!" = false ->
  asks n (count_mask_matches msk) (Z.of_nat (size (matched msk n))).
Proof.
  intros Hg Hm. eapply wp_mono; [apply count_mask_matches_spec; [done|]|].
  - intros u. unfold match_usermask. rewrite Hm.
    destruct (strtok msk "@") as [un r]. by destruct (strtok r "").
  - intros k n' (-> & Hgr & c & i & ->). split; [done|]. split; try done.
Qed.

(** What one command may do to the list of autokills of a network [n]. *)
Inductive akill_step n us : list AkillRow -> list AkillRow -> Prop :=
  | akill_kept l : akill_step n us l l
  | akill_expired l :
      akill_step n us l (List.filter (fun a => negb (lapsed (now n) (a_expires a))) l)
  | akill_removed l a :
      a ∈ l -> identified (ext n) us = true ->
      (oper_user (ext n) us = true \/
       id_of (ext n) (a_who a) <> 0 /\
       link_of (ext n) (id_of (ext n) (a_who a)) = link_of (ext n) (nick_id us)) ->
      akill_step n us l (List.filter (fun b => negb (a_id b =? a_id a)) l)
  | akill_added l a force m :
      identified (ext n) us = true -> Z.of_nat (length l) < MAX_ROWS ->
      Forall (fun b => same_text (a_mask b) (a_mask a) = false) l ->
      a_mask a = strlower m -> has_char m "!" = false -> has_char m "@" = true ->
      a_who a = trunc NICKMAX (nick us) -> a_time a = now n ->
      (force = true -> admin_user (ext n) us = true) ->
      (force = true \/ AkillWildThresh = 0 \/ AkillWildThresh <= nonwild m) ->
      (oper_user (ext n) us = true \/ admin_user (ext n) us = true \/
       Z.of_nat (size (matched (a_mask a) n)) <= 20 /\
       (a_expires a = 0 \/ a_expires a <= now n + 43200)) ->
      akill_step n us l (l ++ [a]).

Definition akills_of (l : list AkillRow) (k : Z) n : OperDB := (owned n){{akill := l; akill_next := k}}.

(** One step, and messages. *)
Definition stepped n us n' : Prop :=
  exists l k, leaves (akills_of l k n) n n' /\ akill_step n us (akill (owned n)) l.

Lemma matched_calm msk n n' : calm n n' -> matched msk n' = matched msk n.
Proof. intros Hc. unfold matched. by rewrite (ca_users _ _ Hc). Qed.

Lemma akill_step_calm n n' us l l' : calm n n' -> akill_step n' us l l' -> akill_step n us l l'.
Proof.
  intros Hc. pose proof (identified_calm n n' us Hc) as Hi. pose proof (oper_calm n n' us Hc) as Ho.
  pose proof (admin_calm n n' us Hc) as Ha. pose proof (ca_now _ _ Hc) as Hn.
  intros [l0|l0|l0 a Hin Hid Hown|l0 a force m Hid Hlen Hdup Hm Hb Hat Hwho Ht Hf Hw Hlim].
  - constructor.
  - rewrite Hn. constructor.
  - apply akill_removed; [done|congruence|]. rewrite !(ca_id _ _ Hc), !(ca_link _ _ Hc) in Hown.
    by rewrite <- Ho.
  - apply (akill_added _ _ _ _ force m); try done; [congruence|congruence|rewrite <- Ha; exact Hf|].
    by rewrite <- Ho, <- Ha, <- (matched_calm _ _ _ Hc), <- Hn.
Qed.

Lemma stepped_calm n us n' : calm n n' -> stepped n us n'.
Proof.
  intros Hc. exists (akill (owned n)), (akill_next (owned n)). split; [|constructor].
  assert (E0 : akills_of (akill (owned n)) (akill_next (owned n)) n = owned n)
    by (unfold akills_of; by destruct (owned n)).
  rewrite E0. by apply leaves_self.
Qed.

Lemma calm_stepped n us n1 n2 : calm n n1 -> stepped n1 us n2 -> stepped n us n2.
Proof.
  intros Hc (l & k & Hl & Hs). exists l, k. unfold akills_of in *. rewrite (ca_part _ _ Hc) in Hl, Hs.
  split; [by eapply calm_leaves|by eapply akill_step_calm].
Qed.

Lemma stepped_then n us n1 n2 : stepped n us n1 -> calm n1 n2 -> stepped n us n2.
Proof. intros (l & k & Hl & Hs) Hc. exists l, k. split; [by eapply leaves_calm|done]. Qed.

(** Symbolic execution up to calm steps. *)
Lemma wp_calm_stepped {A} n us (m : M (Net E) A) n0 :
  calm n0 n -> wp m (fun _ n' => stepped n us n') n -> wp m (fun _ n' => stepped n0 us n') n.
Proof. intros Hc Hm. eapply wp_mono; [exact Hm|]. intros ? n' Hs. by eapply calm_stepped. Qed.

Lemma stepped_ask {A B} n us (m : M (Net E) A) x (k : A -> M (Net E) B) :
  asks n m x -> (forall n', calm n n' -> wp (k x) (fun _ n'' => stepped n' us n'') n') ->
  wp (mbind k m) (fun _ n' => stepped n us n') n.
Proof.
  intros Hm Hk. apply wp_bind. eapply wp_asks; [done|]. intros n' Hc.
  by apply (wp_calm_stepped n'), Hk.
Qed.

Lemma stepped_calms {A} n us (m : M (Net E) A) : calms n m -> wp m (fun _ n' => stepped n us n') n.
Proof. intros Hm. eapply wp_mono; [apply Hm|]. intros ? n'. apply stepped_calm. Qed.

Lemma stepped_bind {A B} n us (m : M (Net E) A) (k : A -> M (Net E) B) :
  wp m (fun _ n' => stepped n us n') n -> (forall x n', users_heap n' = users_heap n -> calms n' (k x)) ->
  wp (mbind k m) (fun _ n' => stepped n us n') n.
Proof.
  intros Hm Hk. apply wp_bind. eapply wp_mono; [exact Hm|]. intros x n' Hs.
  pose proof Hs as (l & i & Hl & _).
  eapply wp_mono; [by apply Hk, Hl|]. intros ? n'' Hc. exact (stepped_then _ _ _ _ Hs Hc).
Qed.

Lemma stepped_reply n us u us' text : users_heap n !! u = Some us' ->
  wp (oper_reply u text) (fun _ n' => stepped n us n') n.
Proof. intros Hu. by eapply stepped_calms, calms_reply. Qed.

Lemma stepped_set n us f l k :
  f (owned n) = akills_of l k n -> akill_step n us (akill (owned n)) l ->
  wp (set_tables f) (fun _ n' => stepped n us n') n.
Proof.
  intros Hf Hs. eapply wp_mono; [apply set_tables_leaves|]. intros [] n' Hl. rewrite Hf in Hl.
  by exists l, k.
Qed.

Lemma expire_akills_spec n us : wp expire_akills (fun _ n' => stepped n us n') n.
Proof.
  unfold expire_akills. eapply stepped_ask; [by apply wp_gets|]. intros n1 Hc1.
  destruct opt_noexpire; [by apply stepped_calms, calms_ret|].
  assert (Hset : forall n2, calm n1 n2 -> wp (set_tables (fun d =>
    d{{akill ::= List.filter (fun a => negb (lapsed (now n) (a_expires a)))}}))
    (fun _ n' => stepped n2 us n') n2).
  { intros n2 Hc2. apply (stepped_set _ _ _
      (List.filter (fun a => negb (lapsed (now n) (a_expires a))) (akill (owned n2))) (akill_next (owned n2))).
    - unfold akills_of. by destruct (owned n2).
    - rewrite <- (ca_now _ _ Hc1), <- (ca_now _ _ Hc2). constructor. }
  assert (Hwall : calms n1 (if WallAkillExpire then
       rows ← tables (fun d => List.filter (fun a => lapsed (now n) (a_expires a)) (akill d));
       for_each rows (fun a =>
         wallops (Some s_OperServ) ("AKILL on " +:+ a_mask a +:+ " has expired");;
         match strchr (a_mask a) "@" with
         | None => mret tt
         | Some rest =>
             send_cmd (Some s_OperServ)
               ("UNKLINE * " +:+ str_take (strcspn (a_mask a) "@") (a_mask a) +:+ " " +:+
                strlower (str_drop 1 rest))
         end)
     else mret tt)).
  { destruct WallAkillExpire; [|apply calms_ret].
    eapply calms_bind; [by eapply calms_asks, asks_tables|]. intros rows n2 _. apply calms_for_each.
    intros a n3. apply calms_bind; [apply calms_emit|]. intros _ n4 _.
    destruct (strchr (a_mask a) "@"); [apply calms_emit|apply calms_ret]. }
  apply wp_bind. eapply wp_calms; [exact Hwall|]. intros _ n2 Hc2.
  apply (wp_calm_stepped n2); [done|]. by apply Hset.
Qed.

Lemma existsb_Forall {A} (p : A -> bool) l : existsb p l = false -> Forall (fun x => p x = false) l.
Proof.
  induction l as [|x l IH]; simpl; [constructor|]. intros [Hx Hl]%orb_false_iff. constructor; auto.
Qed.

Lemma existsb_ext {A} (p q : A -> bool) l : (forall x, p x = q x) -> existsb p l = existsb q l.
Proof. intros Hpq. induction l as [|x l IH]; simpl; [done|]. by rewrite Hpq, IH. Qed.

(** [add_akill] appends at most the row it is given, under a new mask. *)
Lemma add_akill_spec n msk reason who expiry us :
  (forall a, a_mask a = strlower msk -> a_who a = trunc NICKMAX who -> a_time a = now n ->
     a_expires a = expiry -> Z.of_nat (length (akill (owned n))) < MAX_ROWS ->
     Forall (fun b => same_text (a_mask b) (a_mask a) = false) (akill (owned n)) ->
     akill_step n us (akill (owned n)) (akill (owned n) ++ [a])) ->
  wp (add_akill msk reason who expiry) (fun _ n' => stepped n us n') n.
Proof.
  intros Hstep. unfold add_akill, num_akills. eapply stepped_ask; [apply asks_tables|]. intros n1 Hc1.
  destruct (Z.leb_spec MAX_ROWS (Z.of_nat (length (akill (owned n))))) as [Hk|Hk];
    [by apply stepped_calms, calms_ret|].
  eapply stepped_ask; [by apply wp_gets|]. intros n2 Hc2. apply stepped_bind.
  - unfold mysql_insert_akill. eapply stepped_ask; [apply asks_tables|]. intros n3 Hc3.
    set (dup := existsb _ _). apply stepped_bind; [|intros; apply calms_ret].
    destruct dup eqn:Ed; [by apply stepped_calms, calms_ret|]. simpl.
    assert (Hc : calm n n3) by (etransitivity; [exact Hc1|]; etransitivity; [exact Hc2|exact Hc3]).
    eapply (stepped_set _ _ _ (akill (owned n3) ++ [mkAkill (akill_next (owned n3)) _ _ _ _ _])
      (u32 (akill_next (owned n3) + 1))); [by unfold akills_of|].
    apply (akill_step_calm n3 n); [by symmetry|]. rewrite (ca_part _ _ Hc).
    apply Hstep; simpl; try done; [apply (ca_now _ _ Hc1)|].
    apply existsb_Forall. unfold dup in Ed.
    by rewrite (ca_part _ _ Hc2), (ca_part _ _ Hc1) in Ed.
  - intros dup n3 _. apply calms_bind; [|intros; apply calms_ret].
    apply calms_when, calms_send_akill.
Qed.

(** [has_char] is not changed by lower case, for characters that are no letters. *)
Lemma has_char_strlower c s : isupper c = false -> islower c = false ->
  has_char (strlower s) c = has_char s c.
Proof.
  intros Hu Hl. unfold has_char, strlower. induction s as [|d s IH]; [done|]. simpl.
  assert (Heq : Ascii.eqb (tolower d) c = Ascii.eqb d c); [|rewrite Heq; by destruct (Ascii.eqb d c)].
  apply eq_bool_prop_intro. split; intros Hq%Is_true_true%Ascii.eqb_eq; apply Is_true_true, Ascii.eqb_eq.
  - unfold tolower in Hq. destruct (isupper d) eqn:Ed; [|done].
    pose proof (ascii_forall (fun d => negb (isupper d) || islower (tolower d)) ltac:(by vm_compute) d) as Hd.
    simpl in Hd. rewrite Ed in Hd. unfold tolower in Hd. rewrite Ed, Hq in Hd. simpl in Hd. congruence.
  - subst d. unfold tolower. by rewrite Hu.
Qed.

Lemma akill_add_mask_spec n u us rank force t expires msk reason :
  users_heap n !! u = Some us -> heap_ok (graph_of n) -> identified (ext n) us = true ->
  (rank = if admin_user (ext n) us then 2 else if oper_user (ext n) us then 1 else 0) ->
  (force = true -> admin_user (ext n) us = true) -> t = now n ->
  wp (akill_add_mask u rank force t expires msk reason) (fun _ n' => stepped n us n') n.
Proof.
  intros Hu Hg Hi Hrank Hforce ->. unfold akill_add_mask.
  destruct (has_char msk "!") eqn:Hb.
  { apply stepped_calms, calms_bind; [by eapply calms_reply|]. intros _ n1 Hc1.
    by eapply calms_reply, calm_lookup. }
  destruct (has_char msk "@") eqn:Hat; [|by eapply stepped_reply]. simpl.
  destruct (negb force && _ && _) eqn:Hw; [by eapply stepped_reply|].
  assert (Hb' : has_char (strlower msk) "!" = false) by (by rewrite has_char_strlower).
  eapply stepped_ask; [by apply asks_count|]. intros n1 Hc1.
  assert (Hg1 : heap_ok (graph_of n1)) by (by rewrite (ca_graph _ _ Hc1)).
  eapply (stepped_ask _ _ _ (Z.of_nat (size (matched (strlower msk) n)))).
  { rewrite <- (matched_calm (strlower msk) n n1 Hc1).
    destruct (Z.of_nat (size (matched (strlower msk) n1)) =? 0); [by apply asks_count|apply asks_ret]. }
  intros n2 Hc2. set (k := Z.of_nat (size (matched (strlower msk) n))).
  assert (Hc : calm n n2) by (by transitivity n1).
  pose proof (calm_lookup _ _ _ _ Hc Hu) as Hu2.
  destruct ((20 <? k) && (rank <? 1)) eqn:Hk; [by eapply stepped_reply|].
  destruct ((43200 <? expires - now n) && (rank <? 1)) eqn:He; [by eapply stepped_reply|].
  eapply stepped_ask; [by apply asks_load|]. intros n3 Hc3.
  assert (Hc' : calm n n3) by (by transitivity n2).
  apply stepped_bind.
  - apply add_akill_spec. intros a Ha1 Ha2 Ha3 Ha4 Hlen Hdup. rewrite strlower_idemp in Ha1. apply (akill_step_calm n3 n); [by symmetry|].
    apply (akill_added _ _ _ _ force msk); try done.
    + by rewrite Ha3, (ca_now _ _ Hc').
    + destruct force; [by left|]. simpl in Hw. right. apply andb_false_iff in Hw as [Hw|Hw].
      * left. by apply negb_false_iff, Z.eqb_eq in Hw.
      * right. by apply Z.ltb_ge in Hw.
    + rewrite Ha1, Ha4. fold k. destruct (admin_user (ext n) us); [by right; left|].
      destruct (oper_user (ext n) us); [by left|]. subst rank. right. right.
      rewrite andb_true_r in Hk, He. apply Z.ltb_ge in Hk, He. lia.
  - intros add n4 Hn4. assert (Hu4 : users_heap n4 !! u = Some us) by (rewrite Hn4; by eapply calm_lookup).
    destruct (decide _); [by eapply calms_reply|].
    apply calms_bind; [by eapply calms_reply|]. intros _ n5 _. apply calms_when, calms_emit.
Qed.

(** The expiry in the arguments, if there is one, is a sum an [int] holds. *)
Definition expiry_fits (args : string) : Prop :=
  match fst (fst (opt_expiry args)) with Some e => dotime e <> None | None => True end.

Lemma akill_add_spec n u us rank args :
  users_heap n !! u = Some us -> heap_ok (graph_of n) -> expiry_fits args ->
  (rank = if admin_user (ext n) us then 2 else if oper_user (ext n) us then 1 else 0) ->
  wp (akill_add u rank args) (fun _ n' => stepped n us n') n.
Proof.
  intros Hu Hg Hexp Hrank. unfold akill_add. eapply stepped_ask; [by apply wp_gets|]. intros n1 Hc1.
  eapply stepped_ask; [by eapply asks_identified, calm_lookup|]. intros n2 Hc2.
  assert (Hc : calm n n2) by (by transitivity n1). pose proof (calm_lookup _ _ _ _ Hc Hu) as Hu2.
  rewrite (identified_calm _ _ _ Hc1). destruct (identified (ext n) us) eqn:Hi; [|by eapply stepped_reply].
  eapply stepped_ask; [apply asks_tables|]. intros n3 Hc3. cbn [negb].
  assert (Hc' : calm n n3) by (by transitivity n2). pose proof (calm_lookup _ _ _ _ Hc' Hu) as Hu3.
  destruct (_ <=? _); [by eapply stepped_reply|].
  unfold expiry_fits in Hexp. destruct (opt_expiry args) as [[expiry msk] rest]. simpl in Hexp.
  set (force := match msk with Some m => stricmp m "FORCE" =? 0 | None => false end).
  destruct (force && negb (1 <? rank)) eqn:Hf; [by eapply stepped_reply|].
  destruct (if force then strtok rest " " else (msk, rest)) as [msk' rest'].
  assert (Hex : exists e, asks n3 (match expiry with Some e => expiry_of e | None => mret AutokillExpiry end) e).
  { destruct expiry as [e|]; [|exists AutokillExpiry; apply asks_ret].
    unfold expiry_of. destruct (dotime e) as [v|]; [|done]. exists v. apply asks_ret. }
  destruct Hex as [e He]. eapply stepped_ask; [exact He|]. intros n4 Hc4.
  assert (Hc'' : calm n n4) by (by transitivity n3). pose proof (calm_lookup _ _ _ _ Hc'' Hu) as Hu4.
  destruct (e <? 0); [by eapply stepped_reply|].
  destruct msk' as [m|]; [|by eapply stepped_reply].
  destruct (fst (strtok rest' "")) as [reason|]; [|by eapply stepped_reply].
  apply akill_add_mask_spec; [done|by rewrite (ca_graph _ _ Hc'')|by rewrite (identified_calm _ _ _ Hc'')| | |].
  - by rewrite (admin_calm _ _ _ Hc''), (oper_calm _ _ _ Hc'').
  - intros Hft. rewrite (admin_calm _ _ _ Hc''). rewrite Hft in Hf. simpl in Hf.
    apply negb_false_iff, Z.ltb_lt in Hf. subst rank. destruct (admin_user (ext n) us); [done|].
    destruct (oper_user (ext n) us); lia.
  - symmetry. apply (ca_now _ _ Hc'').
Qed.

Lemma del_akill_spec n u us msk :
  users_heap n !! u = Some us -> identified (ext n) us = true ->
  wp (del_akill u msk) (fun _ n' => stepped n us n') n.
Proof.
  intros Hu Hi. unfold del_akill. eapply stepped_ask; [apply asks_tables|]. intros n1 Hc1.
  pose proof (calm_lookup _ _ _ _ Hc1 Hu) as Hu1.
  assert (Hno : forall text, wp (oper_reply u text;; mret false) (fun _ n' => stepped n1 us n') n1).
  { intros text. apply stepped_calms, calms_bind; [by eapply calms_reply|]. intros; apply calms_ret. }
  destruct (find_first _ _) as [a|] eqn:Ea; [|apply Hno]. apply find_first_Some in Ea as [Ha _].
  destruct (a_id a =? 0); [apply Hno|].
  eapply stepped_ask; [by apply asks_load|]. intros n2 Hc2.
  eapply stepped_ask; [by eapply asks_oper, calm_lookup|]. intros n3 Hc3.
  assert (Hc : calm n n3) by (by do 2 (etransitivity; [eassumption|])).
  rewrite (oper_calm n n2) by (by transitivity n1).
  set (mine := oper_user (ext n) us || negb (id_of (ext n) (a_who a) =? 0) &&
    (link_of (ext n) (id_of (ext n) (a_who a)) =? link_of (ext n) (nick_id us))).
  eapply (stepped_ask _ _ _ mine).
  { unfold mine. destruct (oper_user (ext n) us); [apply asks_ret|]. simpl.
    rewrite <- (ca_id _ _ Hc). eapply asks_bind; [apply law_id_of|]. intros n4 Hc4.
    destruct (id_of (ext n3) (a_who a) =? 0); [apply asks_ret|]. simpl.
    rewrite <- !(ca_link _ _ Hc). rewrite <- (ca_link _ _ Hc4). eapply asks_bind; [apply law_link_of|]. intros n5 Hc5.
    rewrite <- (ca_link _ _ Hc4 (nick_id us)), <- (ca_link _ _ Hc5). eapply asks_bind; [apply law_link_of|].
    intros n6 _. rewrite !(ca_link _ _ Hc5). apply asks_ret. }
  intros n4 Hc4. assert (Hcc : calm n n4) by (by transitivity n3).
  pose proof (calm_lookup _ _ _ _ Hcc Hu) as Hu4.
  destruct mine eqn:Em.
  2:{ apply stepped_calms, calms_bind; [by eapply calms_reply|]. intros; apply calms_ret. }
  eapply stepped_ask; [by apply wp_gets|]. intros n5 Hc5.
  eapply stepped_ask; [by apply wp_modify|]. intros n6 Hc6.
  eapply stepped_ask; [by apply wp_modify|]. intros n7 Hc7.
  assert (Hc' : calm n n7) by (by do 3 (etransitivity; [eassumption|])).
  apply stepped_bind; [|intros; apply calms_ret].
  apply (stepped_set _ _ _ (List.filter (fun b => negb (a_id b =? a_id a)) (akill (owned n7))) (akill_next (owned n7))).
  { unfold akills_of. by destruct (owned n7). }
  apply (akill_step_calm n7 n); [by symmetry|]. rewrite (ca_part _ _ Hc').
  apply akill_removed; [done|done|]. unfold mine in Em. apply orb_true_iff in Em as [?|[E1 E2]%andb_true_iff]; [by left|].
  right. apply negb_true_iff, Z.eqb_neq in E1. by apply Z.eqb_eq in E2.
Qed.

Lemma akill_del_spec n u us args :
  users_heap n !! u = Some us -> wp (akill_del u args) (fun _ n' => stepped n us n') n.
Proof.
  intros Hu. unfold akill_del. destruct (strtok args " ") as [msk rest].
  eapply stepped_ask; [by apply asks_identified|]. intros n1 Hc1.
  pose proof (calm_lookup _ _ _ _ Hc1 Hu) as Hu1.
  destruct (identified (ext n) us) eqn:Hi; [|by eapply stepped_reply].
  destruct msk as [msk|]; [|by eapply stepped_reply]. cbn [negb]. apply stepped_bind.
  - apply del_akill_spec; [done|]. by rewrite (identified_calm _ _ _ Hc1).
  - intros d n2 Hn2. apply calms_when, calms_bind; [by eapply calms_reply; rewrite Hn2|].
    intros _ n3 _. destruct (strchr _ _); [apply calms_emit|apply calms_ret].
Qed.

Lemma akill_list_spec n u us line args :
  users_heap n !! u = Some us -> wp (akill_list u line args) (fun _ n' => stepped n us n') n.
Proof.
  intros Hu. unfold akill_list. apply stepped_bind; [apply expire_akills_spec|]. intros _ n1 Hn1.
  rewrite <- Hn1 in Hu. destruct (strtok args " ") as [s rest].
  apply calms_bind; [by eapply calms_reply|]. intros _ n2 Hc2.
  eapply calms_bind; [by eapply calms_asks, asks_tables|]. intros rows n3 Hc3.
  assert (Hu3 : users_heap n3 !! u = Some us) by (by do 2 (eapply calm_lookup; [eassumption|])).
  revert n3 Hu3 Hc3. induction rows as [|r rows IH]; intros n3 Hu3 Hc3; [apply calms_ret|].
  apply calms_bind; [by eapply calms_when, calms_reply|]. intros _ n4 Hc4.
  apply IH; [by eapply calm_lookup|by transitivity n3].
Qed.

Lemma do_akill_spec n u us args :
  users_heap n !! u = Some us -> heap_ok (graph_of n) -> expiry_fits (snd (strtok args " ")) ->
  wp (do_akill u args) (fun _ n' => stepped n us n') n.
Proof.
  intros Hu Hg Hexp. unfold do_akill. eapply stepped_ask; [by apply asks_rank|]. intros n1 Hc1.
  pose proof (calm_lookup _ _ _ _ Hc1 Hu) as Hu1.
  destruct (strtok args " ") as [cmd rest]. simpl in Hexp.
  destruct (stricmp _ "ADD" =? 0).
  { apply akill_add_spec; [done|by rewrite (ca_graph _ _ Hc1)|done|].
    by rewrite (admin_calm _ _ _ Hc1), (oper_calm _ _ _ Hc1). }
  destruct (stricmp _ "DEL" =? 0); [by apply akill_del_spec|].
  destruct (stricmp _ "LIST" =? 0); [by apply akill_list_spec|].
  destruct (stricmp _ "VIEW" =? 0); [by apply akill_list_spec|].
  destruct (stricmp _ "COUNT" =? 0); [|by eapply stepped_reply].
  eapply stepped_ask; [apply asks_tables|]. intros n2 Hc2. by eapply stepped_reply, calm_lookup.
Qed.

(** *** check_akill *)
Lemma newest_None l : newest l = None -> l = [].
Proof. destruct l as [|a l]; [done|]. simpl. destruct (newest l); [by case_match|done]. Qed.

Lemma newest_Some l a : newest l = Some a -> a ∈ l /\ forall b, b ∈ l -> a_id b <= a_id a.
Proof.
  revert a. induction l as [|c l IH]; intros a; [done|]. simpl.
  destruct (newest l) as [b|] eqn:Eb.
  - destruct (IH b eq_refl) as [Hb Hmax]. destruct (Z.ltb_spec (a_id c) (a_id b)); intros [= <-].
    + split; [by constructor|]. intros d [->|Hd]%elem_of_cons; [lia|auto].
    + split; [constructor|]. intros d [->|Hd]%elem_of_cons; [lia|]. specialize (Hmax d Hd). lia.
  - apply newest_None in Eb as ->. intros [= <-]. split; [constructor|].
    intros d ->%list_elem_of_singleton. lia.
Qed.

Lemma akill_subject_fits un hs : (String.length un + String.length hs < 509)%nat ->
  akill_subject un hs = un +:+ "@" +:+ strlower hs.
Proof.
  intros Hl. unfold akill_subject. rewrite (trunc_fits 510) by lia.
  rewrite trunc_fits; [by rewrite str_app_assoc|]. rewrite str_length_app. simpl. lia.
Qed.

(** A newcomer is killed, and banned, exactly if some autokill covers his
    [user@host]; the newest one counts. *)
Lemma check_akill_spec n nk un hs :
  wp (check_akill nk un hs) (fun b n' => calm n n' /\
    b = existsb (fun a => covers (akill_subject un hs) (a_mask a)) (akill (owned n)) /\
    match b with
    | false => out n' = out n
    | true => exists a, a ∈ akill (owned n) /\ covers (akill_subject un hs) (a_mask a) = true /\
        (forall b, b ∈ akill (owned n) -> covers (akill_subject un hs) (a_mask b) = true -> a_id b <= a_id a) /\
        exists ban, out n' = ban :: Cmd (Some s_OperServ) ("KILL " +:+ nk +:+ " :" +:+ s_OperServ +:+ " ([" +:+
          show_int (a_id a) +:+ "] " +:+ default (a_reason a) StaticAkillReason +:+ ")") :: out n
    end) n.
Proof.
  unfold check_akill. set (subj := akill_subject un hs). wps. unfold tables. wps.
  set (rows := List.filter _ (akill (owned n))).
  assert (Hin : forall a, a ∈ rows <-> a ∈ akill (owned n) /\ covers subj (a_mask a) = true).
  { intros a. unfold rows. by rewrite list_elem_of_In, filter_In, <- list_elem_of_In. }
  destruct (newest rows) as [a|] eqn:Er.
  - apply newest_Some in Er as [Ha Hmax]. apply Hin in Ha as [Ha Hc].
    unfold send_cmd, emit, send_akill, wallops. wps.
    assert (Hex : existsb (fun a => covers subj (a_mask a)) (akill (owned n)) = true).
    { apply existsb_exists. exists a. by rewrite <- list_elem_of_In. }
    destruct (strchr (a_mask a) "@"); unfold emit; wps; (split; [by split|]); (split; [done|]); exists a;
      (split_and!; [done|done| |by eexists]); intros b Hb Hcb; apply Hmax, Hin; done.
  - apply newest_None in Er. wps. split; [done|]. split; [|done]. symmetry. apply not_true_iff_false.
    intros (a & Ha & Hc)%existsb_exists. assert (a ∈ rows) by (apply Hin; by rewrite list_elem_of_In).
    rewrite Er in *. by apply elem_of_nil in H2.
Qed.
End AkillSpec.

(** ** Properties *)
Section AkillProperties.
Context `{Conf} `{OperConf} `{MySQL} {E : Type} `{!NickServ E} `{!Part OperDB E}.
Context `{!NickTables E} `{!NickTablesLaws E}.
Implicit Types (n : Net E) (us : User).


(** A newcomer is killed, and banned, exactly if the mask of some autokill
    matches his [username@host]; the one with the largest number gives the
    reason, and the tables do not change. *)
Theorem check_akill_correct n nk un hs (Hlen : (String.length un + String.length hs < 509)%nat) :
  let subj := un +:+ "@" +:+ strlower hs in
  wp (check_akill nk un hs) (fun b n' => calm n n' /\
    b = existsb (fun a => match_wild_nocase (a_mask a) subj) (akill (owned n)) /\
    (b = false -> out n' = out n) /\
    (b = true -> exists a ban, a ∈ akill (owned n) /\ match_wild_nocase (a_mask a) subj = true /\
       (forall c, c ∈ akill (owned n) -> match_wild_nocase (a_mask c) subj = true -> a_id c <= a_id a) /\
       out n' = ban :: Cmd (Some s_OperServ) ("KILL " +:+ nk +:+ " :" +:+ s_OperServ +:+ " ([" +:+
         show_int (a_id a) +:+ "] " +:+ default (a_reason a) StaticAkillReason +:+ ")") :: out n)) n.
Proof.
  intros subj. assert (Hc : forall m, covers subj m = match_wild_nocase m subj).
  { intros m. unfold covers, Udf.irc_match, match_wild_nocase. rewrite udf_do_match_wild. by destruct (do_match_wild _ _ _). }
  eapply wp_mono; [apply check_akill_spec|]. intros b n' (Hcalm & Hb & Hout).
  rewrite akill_subject_fits in Hb, Hout by done. fold subj in Hb, Hout.
  split; [done|]. split; [rewrite Hb; apply existsb_ext; intros a; apply Hc|].
  destruct b; split; intros ?; try done.
  destruct Hout as (a & Ha & Hm & Hmax & ban & Hout). exists a, ban. rewrite <- Hc. split_and!; try done.
  intros c Hin. rewrite <- Hc. by apply Hmax.
Qed.
End AkillProperties.

(** ** Examples *)
Module Witness.
Import OperDemo.


Lemma check_akill_correct_witness :
  wp (check_akill "carol" "ca" "Bad.example.org") (fun b n' => calm net n' /\
    b = existsb (fun a => match_wild_nocase (a_mask a) "ca@bad.example.org") (akill (owned net)) /\
    (b = false -> out n' = out net) /\ (b = true -> exists a ban, a ∈ akill (owned net) /\
       match_wild_nocase (a_mask a) "ca@bad.example.org" = true /\
       (forall c, c ∈ akill (owned net) -> match_wild_nocase (a_mask c) "ca@bad.example.org" = true -> a_id c <= a_id a) /\
       out n' = ban :: Cmd (Some s_OperServ) ("KILL " +:+ "carol" +:+ " :" +:+ s_OperServ +:+ " ([" +:+
         show_int (a_id a) +:+ "] " +:+ default (a_reason a) StaticAkillReason +:+ ")") :: out net)) net.
Proof. exact (check_akill_correct net "carol" "ca" "Bad.example.org" ltac:(by apply Nat.ltb_lt; vm_compute)). Defined.

(** The limit of 12 hours on the autokills of those who are no Services
    operators does not hold back an autokill without end: [+0] is accepted
    where [+13h], and the configured default of 30 days, are refused. *)
Theorem akill_forever_by_anyone :
  let add e := (fun r => map a_expires (akill (owned (snd r)))) <$>
    do_akill 1 ("ADD " +:+ e +:+ "*@bad.example.org spamming") net in
  oper_user (ext net) oper_alice = false /\ admin_user (ext net) oper_alice = false /\
  add "+13h " = Some [] /\ add "" = Some [] /\ add "+0 " = Some [0].
Proof. by vm_compute. Qed.
End Witness.
