(* ===== verification/Sessions.v ===== *)
(** Session limits and their exceptions: [src/sessions.c].

    After the code: the tables each routine leaves
    ([does]), and the history of connections and disconnections
    ([session_step]).  One row of table [session] counts the users of a host.  A statement that
    MySQL refuses for another reason than a duplicate key ends Services, so it
    is not modelled. *)

From S2P Require Import Prelude CStr Wild NumTime Wp Track Graph Net Interfaces Part Masks Walk Channels Users Query OperDB Akill.

Section Sessions.
Context `{Conf} `{OperConf} `{MySQL} {E : Type} `{!NickServ E} `{!Part OperDB E}.
Implicit Types (n : Net E).

(** [SELECT .. FROM session LEFT JOIN exception ON IRC_MATCH (mask, host)]: the
    limits of the rows; the code uses the last one it fetches. *)
Definition limits (d : OperDB) (host : string) : list Z :=
  match List.filter (fun e => covers host (e_mask e)) (exception d) with
  | [] => [u32 DefSessionLimit]
  | l => map e_limit l
  end.
Definition session_limit (d : OperDB) (host : string) : Z := List.last (limits d host) 0.

Definition set_session (host : string) (f : SessionRow -> SessionRow) : M (Net E) unit :=
  set_tables (fun d => d{{session ::= alter f (collate host)}}).

(** A user too many: he is killed, or his host autokilled. *)
Definition refuse_session (nk host : string) (killcount : Z) : M (Net E) Z :=
  match SessionLimitExceeded with
  | Some s => notice s_OperServ nk (s +:+ host)
  | None => mret tt
  end;;
  match SessionLimitDetailsLoc with
  | Some s => notice s_OperServ nk s
  | None => mret tt
  end;;
  let killcount := u32 (killcount + 1) in
  if negb (SessionKillClues =? 0) && (SessionKillClues <? killcount) then
    t ← gets now;
    let msk := trunc BUFSIZE ("*@" +:+ host) in
    let expiry := (if SessionAkillExpiry =? 0 then AutokillExpiry else SessionAkillExpiry) + t in
    k ← (if WallOSAkill then count_mask_matches msk else mret 0);
    add_akill msk "Session limit exceeded" s_OperServ expiry;;
    when WallOSAkill
      (wallops (Some s_OperServ) (BOLD +:+ s_OperServ +:+ BOLD +:+ " added an AKILL for " +:+ BOLD +:+ msk +:+ BOLD +:+
         " (" +:+ disect_time (expiry - t) +:+ ") [Session limit exceeded] - " +:+ show_int k +:+ " clients killed"));;
    mret 0
  else
    send_cmd (Some s_OperServ) ("KILL " +:+ nk +:+ " :" +:+ s_OperServ +:+ " (Session limit exceeded)");;
    mret killcount.

Definition add_session (nk host : string) : M (Net E) bool :=
  row ← tables (fun d => session d !! collate host);
  match row with
  | None => set_tables (fun d => d{{session ::= insert (collate host) (mkSession host 1 0)}});; mret true
  | Some r =>
      sessionlimit ← tables (fun d => session_limit d (s_host r));
      if negb (sessionlimit =? 0) && (sessionlimit <=? s_count r) then
        killcount ← refuse_session nk host (s_killcount r);
        set_session host (fun r' => r'{{s_count := smallint (s_count r); s_killcount := smallint killcount}});;
        mret false
      else
        set_session host (fun r' => r'{{s_count := smallint (u32 (s_count r + 1));
                                       s_killcount := smallint (s_killcount r)}});;
        mret true
  end.

Definition del_session (host : string) : M (Net E) unit :=
  set_session host (fun r => r{{s_count := smallint (u64 (s_count r - 1))}}).

(** *** Exceptions *)
Definition expire_exceptions : M (Net E) unit :=
  t ← gets now;
  if opt_noexpire then mret tt
  else
    (if WallExceptionExpire then
       rows ← tables (fun d => List.filter (fun e => lapsed t (e_expires e)) (exception d));
       for_each rows (fun e =>
         wallops (Some s_OperServ) ("Session limit exception for " +:+ show_int (e_id e) +:+ " (" +:+
           e_mask e +:+ ") has expired."))
     else mret tt);;
    set_tables (fun d => d{{exception ::= List.filter (fun e => negb (lapsed t (e_expires e)))}}).

Definition num_exceptions : M (Net E) Z := tables (fun d => Z.of_nat (length (exception d))).

(** True when it was added. *)
Definition exception_add (msk : string) (limit : Z) (reason who : string) (expires : Z) : M (Net E) bool :=
  t ← gets now;
  dup ← tables (fun d => existsb (fun e => same_text (e_mask e) msk) (exception d));
  when (negb dup) (set_tables (fun d =>
    d{{exception := exception d ++
         [mkException (exception_next d) msk (smallint limit) (trunc NICKMAX who) reason t expires];
       exception_next := u32 (exception_next d + 1)}}));;
  mret (negb dup).

Definition do_exception_add (u : ptr) (args : string) : M (Net E) unit :=
  t ← gets now;
  k ← num_exceptions;
  if MAX_ROWS <=? k then oper_reply u "OPER_EXCEPTION_TOO_MANY"
  else
    let '(expiry, msk, rest) := opt_expiry args in
    let '(limitstr, rest) := strtok rest " " in
    match msk, fst (strtok rest "") with
    | Some msk, Some reason =>
        expires ← (match expiry with Some e => expiry_of e | None => mret ExceptionExpiry end);
        if expires <? 0 then oper_reply u "BAD_EXPIRY_TIME"
        else
          let expires := if 0 <? expires then wrap32 (expires + t) else expires in
          let limit := match limitstr with
                       | Some l => if isdigit (hd_char l) then atoi l else -1
                       | None => -1
                       end in
          if (limit <? 0) || (MaxSessionLimit <? limit) then oper_reply u "OPER_EXCEPTION_INVALID_LIMIT"
          else if has_char msk "!" || has_char msk "@" then oper_reply u "OPER_EXCEPTION_INVALID_HOSTMASK"
          else
            let msk := strlower msk in
            us ← load_user u;
            added ← exception_add msk limit reason (nick us) expires;
            if added : bool then
              oper_reply u "OPER_EXCEPTION_ADDED";;
              when WallOSException
                (wallops (Some s_OperServ) (nick us +:+ " added a session limit exception of " +:+ BOLD +:+
                   show_int limit +:+ BOLD +:+ " for " +:+ BOLD +:+ msk +:+ BOLD +:+ " (" +:+
                   (if expires =? 0 then "OPER_AKILL_NO_EXPIRE" else expires_in_lang us (expires - t + 59)) +:+ ")"))
            else oper_reply u "OPER_EXCEPTION_ALREADY_PRESENT"
    | _, _ => oper_reply u "OPER_EXCEPTION_ADD_SYNTAX"
    end.

(** The rows that DEL takes out. *)
Definition delete_exceptions (p : ExceptionRow -> bool) : M (Net E) Z :=
  k ← tables (fun d => Z.of_nat (length (List.filter p (exception d))));
  set_tables (fun d => d{{exception ::= List.filter (fun e => negb (p e))}});;
  mret k.

Definition all_of (set s : string) : bool := (strspn s set =? String.length s)%nat.

Definition do_exception_del (u : ptr) (args : string) : M (Net E) unit :=
  match fst (strtok args " ") with
  | None => oper_reply u "OPER_EXCEPTION_DEL_SYNTAX"
  | Some msk =>
      let report (rows : Z) :=
        oper_reply u (if rows =? 0 then "OPER_EXCEPTION_NO_MATCH"
                      else if rows =? 1 then "OPER_EXCEPTION_DELETED_ONE"
                      else "OPER_EXCEPTION_DELETED_SEVERAL") in
      if isdigit (hd_char msk) && all_of "1234567890,-" msk then
        match mysql_build_query msk MaxSessionLimit with
        | None => fault
        | Some [] => oper_reply u "OPER_EXCEPTION_DEL_SYNTAX"
        | Some l => rows ← delete_exceptions (fun e => in_ranges l (e_id e)); report rows
        end
      else rows ← delete_exceptions (fun e => covers msk (e_mask e)); report rows
  end.

(** LIST and VIEW, which differ in the line they print; LIST asks for no order
    when it is given numbers.  A list of numbers without a range gives the
    query [... WHERE ()], which MySQL refuses: Services end
    ([handle_mysql_error]). *)
Definition exception_list (u : ptr) (line : ExceptionRow -> string) (args : string) : M (Net E) unit :=
  expire_exceptions;;
  let '(m, rest) := strtok args " " in
  let m := option_map strlower m in
  let noexpire := match m, fst (strtok rest " ") with
                  | Some _, Some e => stricmp e "NOEXPIRE" =? 0
                  | _, _ => false
                  end in
  let show (rows : list ExceptionRow) :=
    let rows := List.filter (fun e => negb noexpire || (e_expires e =? 0)) rows in
    when (negb (bool_decide (rows = []))) (oper_reply u "OPER_EXCEPTION_LIST_HEADER");;
    for_each rows (fun e => oper_reply u (line e));;
    when (bool_decide (rows = [])) (oper_reply u "OPER_EXCEPTION_NO_MATCH") in
  match m with
  | Some m =>
      if all_of "1234567890,-" m then
        match mysql_build_query m MaxSessionLimit with
        | None | Some [] => fault
        | Some l => rows ← tables (fun d => List.filter (fun e => in_ranges l (e_id e)) (exception d)); show rows
        end
      else rows ← tables (fun d => List.filter (fun e => match_wild m (e_mask e)) (exception d)); show rows
  | None => rows ← tables exception; show rows
  end.

Definition do_exception (u : ptr) (args : string) : M (Net E) unit :=
  let '(cmd, rest) := strtok args " " in
  let cmd := default EmptyString cmd in
  if negb LimitSessions then oper_reply u "OPER_EXCEPTION_DISABLED"
  else if stricmp cmd "ADD" =? 0 then do_exception_add u rest
  else if stricmp cmd "DEL" =? 0 then do_exception_del u rest
  else if stricmp cmd "LIST" =? 0 then
    exception_list u (fun e => "OPER_EXCEPTION_LIST_FORMAT " +:+ show_int (e_id e) +:+ " " +:+
                               show_int (e_limit e) +:+ " " +:+ e_mask e) rest
  else if stricmp cmd "VIEW" =? 0 then
    exception_list u (fun e => "OPER_EXCEPTION_VIEW_FORMAT " +:+ show_int (e_id e) +:+ " " +:+ e_mask e +:+ " " +:+
                               e_who e +:+ " " +:+ show_int (e_limit e) +:+ " " +:+ e_reason e) rest
  else oper_reply u "OPER_EXCEPTION_SYNTAX".
End Sessions.

(** ** Sessions *)
Section SessionSpec.
Context `{Conf} `{OperConf} `{MySQL} {E : Type} `{!NickServ E} `{!Part OperDB E} `{!NickTables E}.
Implicit Types (n : Net E) (d : OperDB).

(** The row of a host is full. *)
Definition full d (r : SessionRow) : bool :=
  negb (session_limit d (s_host r) =? 0) && (session_limit d (s_host r) <=? s_count r).

Definition set_row d (host : string) (f : SessionRow -> SessionRow) : OperDB :=
  d{{session ::= alter f (collate host)}}.

Lemma set_session_leaves n host f :
  wp (set_session host f) (fun _ n' => leaves (set_row (owned n) host f) n n') n.
Proof. apply (set_tables_leaves n (fun d => set_row d host f)). Qed.

(** [*@host] is a mask [match_usermask] reads. *)
Lemma star_mask_reads s u : match_usermask (String "*" s) u <> None.
Proof.
  unfold match_usermask. destruct (has_char _ "!").
  - change (strtok (String "*" s) "!") with
      (Some (str_take (strcspn (String "*" s) "!") (String "*" s)),
       str_drop (S (strcspn (String "*" s) "!")) (String "*" s)).
    cbv beta iota. destruct (strtok _ "@") as [un r]. by destruct (strtok r "").
  - destruct (strtok _ "@") as [un r]. by destruct (strtok r "").
Qed.

Lemma does_done {A} n (a : A) : does n (mret a) a (owned n).
Proof. exact (does_ret n a). Qed.

Lemma does_asks {A} n (m : M (Net E) A) a : asks n m a -> does n m a (owned n).
Proof. intros Hm. eapply wp_mono; [exact Hm|]. intros ? n' [-> Hc]. split; [done|by apply leaves_self]. Qed.

Lemma does_calms n (m : M (Net E) unit) : calms n m -> does n m tt (owned n).
Proof. intros Hm. eapply wp_mono; [exact Hm|]. intros [] n' Hc. split; [done|by apply leaves_self]. Qed.

Lemma does_set n f : does n (set_tables f) tt (f (owned n)).
Proof. eapply wp_mono; [apply set_tables_leaves|]. by intros [] n' Hl. Qed.

Lemma does_ask {A B} n (m : M (Net E) A) (k : A -> M (Net E) B) a b d :
  asks n m a -> (forall n', leaves (owned n) n n' -> does n' (k a) b d) -> does n (mbind k m) b d.
Proof. intros Hm. eapply does_bind. by apply does_asks. Qed.

Lemma does_then {B} n (m : M (Net E) unit) (k : unit -> M (Net E) B) b d :
  calms n m -> (forall n', leaves (owned n) n n' -> does n' (k tt) b d) -> does n (mbind k m) b d.
Proof. intros Hm. eapply does_bind. by apply does_calms. Qed.

(** The tables after an [INSERT] of an autokill, and after [add_akill]. *)
Definition inserted d (msk reason who : string) (t expires : Z) : OperDB :=
  if existsb (fun a => same_text (a_mask a) msk) (akill d) then d
  else d{{akill := akill d ++ [mkAkill (akill_next d) msk reason who t expires];
          akill_next := u32 (akill_next d + 1)}}.

Definition akilled d (msk reason who : string) (t expiry : Z) : OperDB :=
  if MAX_ROWS <=? Z.of_nat (length (akill d)) then d
  else inserted d (strlower msk) reason (trunc NICKMAX who) t expiry.

Lemma does_insert n msk reason who t expires :
  does n (mysql_insert_akill msk reason who t expires)
    (existsb (fun a => same_text (a_mask a) msk) (akill (owned n))) (inserted (owned n) msk reason who t expires).
Proof.
  unfold mysql_insert_akill, inserted. eapply does_ask; [apply asks_tables|]. intros n1 Hl1.
  rewrite <- !(le_part _ _ _ Hl1). destruct (existsb _ _); eapply does_bind; [apply does_done| |apply does_set|];
    intros n2 Hl2; rewrite <- !(le_part _ _ _ Hl2); apply does_done.
Qed.

Lemma does_add_akill n msk reason who expiry :
  exists r, does n (add_akill msk reason who expiry) r (akilled (owned n) msk reason who (now n) expiry).
Proof.
  unfold add_akill, akilled. destruct (MAX_ROWS <=? _) eqn:Em.
  { exists TOO_MANY_AKILLS. eapply does_ask; [apply asks_tables|]. intros n1 Hl. rewrite Em.
    rewrite <- (le_part _ _ _ Hl). apply does_done. }
  eexists. eapply does_ask; [apply asks_tables|]. intros n1 Hl1. rewrite Em.
  eapply does_ask; [by apply wp_gets|]. intros n2 Hl2.
  rewrite <- (le_part _ _ _ Hl1), <- (le_part _ _ _ Hl2), <- (le_now _ _ _ Hl1).
  eapply does_bind; [apply does_insert|]. intros n3 Hl3.
  rewrite <- (le_part _ _ _ Hl3). eapply does_then; [apply calms_when, calms_send_akill|]. intros n4 Hl4.
  rewrite <- (le_part _ _ _ Hl4), (le_part _ _ _ Hl2), (le_part _ _ _ Hl1). apply does_done.
Qed.

(** After so many kills the host is autokilled. *)
Definition out_of_clues (killcount : Z) : bool :=
  negb (SessionKillClues =? 0) && (SessionKillClues <? u32 (killcount + 1)).

Definition session_mask (host : string) : string := trunc BUFSIZE ("*@" +:+ host).

Definition after_refusal d (host : string) (killcount t : Z) : OperDB :=
  if out_of_clues killcount
  then akilled d (session_mask host) "Session limit exceeded" s_OperServ t
         ((if SessionAkillExpiry =? 0 then AutokillExpiry else SessionAkillExpiry) + t)
  else d.

Lemma session_mask_star host : exists s, session_mask host = String "*" s.
Proof. by eexists. Qed.

Lemma session_after d host killcount t : session (after_refusal d host killcount t) = session d.
Proof. unfold after_refusal, akilled, inserted. by repeat case_match. Qed.

Lemma exception_after d host killcount t : exception (after_refusal d host killcount t) = exception d.
Proof. unfold after_refusal, akilled, inserted. by repeat case_match. Qed.

Lemma does_refuse n nk host killcount : heap_ok (graph_of n) ->
  does n (refuse_session nk host killcount) (if out_of_clues killcount then 0 else u32 (killcount + 1))
    (after_refusal (owned n) host killcount (now n)).
Proof.
  intros Hg. unfold refuse_session, after_refusal, out_of_clues.
  eapply does_then; [by destruct SessionLimitExceeded; [apply calms_emit|apply calms_ret]|]. intros n1 Hl1.
  eapply does_then; [by destruct SessionLimitDetailsLoc; [apply calms_emit|apply calms_ret]|]. intros n2 Hl2.
  rewrite <- (le_part _ _ _ Hl1), <- (le_part _ _ _ Hl2), <- (le_now _ _ _ Hl1), <- (le_now _ _ _ Hl2).
  assert (Hg2 : heap_ok (graph_of n2)) by (by rewrite (le_graph _ _ _ Hl2), (le_graph _ _ _ Hl1)).
  destruct (_ && _).
  - eapply does_ask; [by apply wp_gets|]. intros n3 Hl3. change (trunc BUFSIZE _) with (session_mask host).
    destruct (session_mask_star host) as [m Em]. rewrite Em.
    eapply (does_bind _ _ _ (if WallOSAkill then Z.of_nat (size (matched (String "*" m) n3)) else 0) _ (owned n3)).
    { destruct WallOSAkill; [|apply does_done]. eapply wp_mono.
      - apply count_mask_matches_spec; [by rewrite (le_graph _ _ _ Hl3)|apply star_mask_reads].
      - intros k n' (-> & Hgr & c & i & ->). split; [done|]. by split. }
    intros n4 Hl4. rewrite <- (le_part _ _ _ Hl3), <- (le_part _ _ _ Hl4), <- (le_now _ _ _ Hl3), <- (le_now _ _ _ Hl4).
    edestruct does_add_akill as [r Hr]. eapply does_bind; [exact Hr|]. intros n5 Hl5.
    rewrite <- (le_part _ _ _ Hl5).
    eapply does_then; [apply calms_when, calms_emit|]. intros n6 Hl6. rewrite <- (le_part _ _ _ Hl6). apply does_done.
  - eapply does_then; [apply calms_emit|]. intros n3 Hl3. rewrite <- (le_part _ _ _ Hl3). apply does_done.
Qed.

(** The tables after [add_session]. *)
Definition session_added d (host : string) (t : Z) : OperDB :=
  match session d !! collate host with
  | None => d{{session ::= insert (collate host) (mkSession host 1 0)}}
  | Some r =>
      if full d r then
        set_row (after_refusal d host (s_killcount r) t) host
          (fun r' => r'{{s_count := smallint (s_count r);
                         s_killcount := smallint (if out_of_clues (s_killcount r) then 0 else u32 (s_killcount r + 1))}})
      else set_row d host (fun r' => r'{{s_count := smallint (u32 (s_count r + 1)); s_killcount := smallint (s_killcount r)}})
  end.

Definition admits d (host : string) : bool :=
  match session d !! collate host with None => true | Some r => negb (full d r) end.

Lemma does_add_session n nk host : heap_ok (graph_of n) ->
  does n (add_session nk host) (admits (owned n) host) (session_added (owned n) host (now n)).
Proof.
  intros Hg. unfold add_session, admits, session_added.
  eapply does_ask; [apply asks_tables|]. intros n1 Hl1. rewrite <- (le_part _ _ _ Hl1), <- (le_now _ _ _ Hl1).
  destruct (session (owned n1) !! collate host) as [r|].
  - eapply does_ask; [apply asks_tables|]. intros n2 Hl2. rewrite <- (le_part _ _ _ Hl2), <- (le_now _ _ _ Hl2).
    unfold full. destruct (_ && _).
    + eapply does_bind; [apply does_refuse; by rewrite (le_graph _ _ _ Hl2), (le_graph _ _ _ Hl1)|].
      intros n3 Hl3. rewrite <- (le_part _ _ _ Hl3). eapply does_bind; [apply does_set|]. intros n4 Hl4.
      replace (set_row _ _ _) with (owned n4) by apply Hl4. apply does_done.
    + eapply does_bind; [apply does_set|]. intros n3 Hl3.
      replace (set_row _ _ _) with (owned n3) by apply Hl3. apply does_done.
  - eapply does_bind; [apply does_set|]. intros n2 Hl2. simpl in Hl2. simpl. rewrite <- (le_part _ _ _ Hl2). apply does_done.
Qed.

Lemma does_del_session n host :
  does n (del_session host) tt (set_row (owned n) host (fun r => r{{s_count := smallint (u64 (s_count r - 1))}})).
Proof. apply does_set. Qed.

(** *** Every connection and every disconnection *)

(** The online users' hosts that MySQL takes for the same. *)
Definition online (live : list string) (k : string) : Z :=
  Z.of_nat (length (List.filter (fun h => String.eqb (collate h) k) live)).

(** Who is counted: [live] holds the host of every user who was let in and has
    not left.  Anything else that happens keeps the rows and the limits. *)
Inductive session_step : Net E * list string -> Net E * list string -> Prop :=
  | step_connect n live nk host b n' :
      Z.of_nat (length live) < 65535 -> add_session nk host n = Some (b, n') ->
      session_step (n, live) (n', if b then host :: live else live)
  | step_quit n live1 host live2 n' :
      del_session host n = Some (tt, n') ->
      session_step (n, live1 ++ host :: live2) (n', live1 ++ live2)
  | step_other n live n' :
      heap_ok (graph_of n') -> session (owned n') = session (owned n) ->
      (forall h, session_limit (owned n') h = session_limit (owned n) h) ->
      session_step (n, live) (n', live).

(** The rows count the users, and no host has more than its limit. *)
Record sessions_ok n (live : list string) : Prop := {
  so_graph : heap_ok (graph_of n);
  so_live : Z.of_nat (length live) <= 65535;
  so_limit : forall h, 0 <= session_limit (owned n) h;
  so_row : forall k r, session (owned n) !! k = Some r ->
    s_count r = online live k /\
    (session_limit (owned n) (s_host r) = 0 \/ s_count r <= session_limit (owned n) (s_host r));
  so_none : forall k, session (owned n) !! k = None -> online live k = 0
}.

Lemma online_cons host live k :
  online (host :: live) k = online live k + (if String.eqb (collate host) k then 1 else 0).
Proof. unfold online. simpl. destruct (String.eqb _ _); simpl; lia. Qed.

Lemma online_middle live1 host live2 k : online (live1 ++ host :: live2) k = online (host :: live1 ++ live2) k.
Proof.
  unfold online. simpl. rewrite !List.filter_app, !length_app. simpl.
  destruct (String.eqb _ _); simpl; rewrite ?length_app; simpl; lia.
Qed.

Lemma online_bound live k : 0 <= online live k <= Z.of_nat (length live).
Proof. unfold online. induction live as [|h live IH]; simpl; [done|]. destruct (String.eqb _ _); simpl; lia. Qed.

Lemma session_limit_eq d d' h : exception d' = exception d -> session_limit d' h = session_limit d h.
Proof. intros He. unfold session_limit, limits. by rewrite He. Qed.

Lemma session_added_limit d host t h : session_limit (session_added d host t) h = session_limit d h.
Proof.
  apply session_limit_eq. unfold session_added. destruct (session d !! collate host) as [r|]; [|done].
  destruct (full d r); [|done]. apply (exception_after d host (s_killcount r) t).
Qed.

(** The rows after a connection: that of the host is new, or has one more, or is full. *)
Lemma session_added_row d host t k r' :
  session (session_added d host t) !! k = Some r' ->
  (k <> collate host /\ session d !! k = Some r') \/
  k = collate host /\
  match session d !! k with
  | None => s_count r' = 1
  | Some r => s_host r' = s_host r /\
      s_count r' = smallint (if full d r then s_count r else u32 (s_count r + 1))
  end.
Proof.
  unfold session_added. destruct (session d !! collate host) as [r|] eqn:Er.
  - assert (Hgo : forall d0 f, session d0 = session d ->
      session (set_row d0 host f) !! k = Some r' ->
      (k <> collate host /\ session d !! k = Some r') \/ k = collate host /\ r' = f r).
    { intros d0 f Hd. simpl. rewrite Hd. destruct (decide (k = collate host)) as [->|Hk].
      - rewrite lookup_alter_eq, Er. intros [= <-]. by right.
      - rewrite lookup_alter_ne by done. by left. }
    destruct (full d r) eqn:Ef; intros Hr; (apply Hgo in Hr as [?|[-> ->]]; [by left| |]).
    all: try (apply session_after). all: try done.
    all: right; rewrite Er; by rewrite Ef.
  - simpl. destruct (decide (k = collate host)) as [->|Hk].
    + rewrite lookup_insert_eq. intros [= <-]. right. by rewrite Er.
    + rewrite lookup_insert_ne by done. by left.
Qed.

Lemma session_added_none d host t k :
  session (session_added d host t) !! k = None -> k <> collate host /\ session d !! k = None.
Proof.
  unfold session_added. destruct (session d !! collate host) as [r|] eqn:Er.
  - assert (Hgo : forall d0 f, session d0 = session d ->
      session (set_row d0 host f) !! k = None -> k <> collate host /\ session d !! k = None).
    { intros d0 f Hd. simpl. rewrite Hd. destruct (decide (k = collate host)) as [->|Hk].
      - by rewrite lookup_alter_eq, Er.
      - by rewrite lookup_alter_ne. }
    destruct (full d r); apply Hgo; [apply session_after|done].
  - simpl. destruct (decide (k = collate host)) as [->|Hk]; [by rewrite lookup_insert_eq|].
    by rewrite lookup_insert_ne.
Qed.

Lemma fullP d r : full d r = true <-> session_limit d (s_host r) <> 0 /\ session_limit d (s_host r) <= s_count r.
Proof. unfold full. rewrite andb_true_iff, negb_true_iff, Z.eqb_neq, Z.leb_le. done. Qed.

Lemma sessions_ok_connect n live host n' :
  sessions_ok n live -> Z.of_nat (length live) < 65535 ->
  leaves (session_added (owned n) host (now n)) n n' ->
  sessions_ok n' (if admits (owned n) host then host :: live else live).
Proof.
  intros [Hg Hlive Hlim Hrow Hnone] Hlen Hl.
  assert (Hlim' : forall h, session_limit (owned n') h = session_limit (owned n) h).
  { intros h. rewrite (le_part _ _ _ Hl). apply session_added_limit. }
  assert (Ho : forall k, k <> collate host ->
    online (if admits (owned n) host then host :: live else live) k = online live k).
  { intros k Hk. destruct (admits _ _); [|done]. rewrite online_cons.
    destruct (String.eqb_spec (collate host) k); [congruence|lia]. }
  split.
  - by rewrite (le_graph _ _ _ Hl).
  - destruct (admits _ _); simpl; lia.
  - intros h. by rewrite Hlim'.
  - intros k r' Hr. rewrite (le_part _ _ _ Hl) in Hr. rewrite Hlim'.
    apply session_added_row in Hr as [[Hk Hr]|[-> Hr]]; [rewrite Ho by done; by apply Hrow|].
    unfold admits. destruct (session (owned n) !! collate host) as [r|] eqn:Er.
    + destruct Hr as [Hh Hc]. rewrite Hh, Hc. destruct (Hrow _ _ Er) as [Hcnt Hle].
      pose proof (online_bound live (collate host)) as Hb.
      destruct (full (owned n) r) eqn:Ef; cbn [negb].
      * rewrite smallint_id by lia. by rewrite Hcnt in *.
      * rewrite online_cons, String.eqb_refl. rewrite u32_id by lia. rewrite smallint_id by lia.
        split; [lia|]. apply not_true_iff_false in Ef. rewrite fullP in Ef. lia.
    + rewrite Hr, online_cons, String.eqb_refl, (Hnone _ Er). split; [done|]. specialize (Hlim (s_host r')). lia.
  - intros k Hr. rewrite (le_part _ _ _ Hl) in Hr. apply session_added_none in Hr as [Hk Hr].
    rewrite Ho by done. by apply Hnone.
Qed.

Lemma sessions_ok_quit n live1 host live2 n' :
  sessions_ok n (live1 ++ host :: live2) ->
  leaves (set_row (owned n) host (fun r => r{{s_count := smallint (u64 (s_count r - 1))}})) n n' ->
  sessions_ok n' (live1 ++ live2).
Proof.
  intros [Hg Hlive Hlim Hrow Hnone] Hl.
  assert (Hlim' : forall h, session_limit (owned n') h = session_limit (owned n) h).
  { intros h. rewrite (le_part _ _ _ Hl). by apply session_limit_eq. }
  assert (Ho : forall k, online (live1 ++ host :: live2) k =
    online (live1 ++ live2) k + (if String.eqb (collate host) k then 1 else 0)).
  { intros k. by rewrite online_middle, online_cons. }
  assert (Hs : session (owned n') = alter (fun r => r{{s_count := smallint (u64 (s_count r - 1))}}) (collate host)
    (session (owned n))) by (by rewrite (le_part _ _ _ Hl)).
  split.
  - by rewrite (le_graph _ _ _ Hl).
  - rewrite length_app in *. simpl in Hlive. lia.
  - intros h. by rewrite Hlim'.
  - intros k r' Hr. rewrite Hlim'. rewrite Hs in Hr. destruct (String.eqb_spec (collate host) k) as [<-|Hk].
    + rewrite lookup_alter_eq in Hr. destruct (session (owned n) !! collate host) as [r|] eqn:Er; [|done].
      injection Hr as <-. destruct (Hrow _ _ Er) as [Hc Hle]. rewrite Ho, String.eqb_refl in Hc.
      pose proof (online_bound (live1 ++ live2) (collate host)) as Hb. rewrite length_app in *. simpl in *.
      rewrite u64_id by lia. rewrite smallint_id by lia. lia.
    + rewrite lookup_alter_ne in Hr by done. destruct (Hrow _ _ Hr) as [Hc Hle]. rewrite Ho in Hc.
      destruct (String.eqb_spec (collate host) k); [done|]. split; [lia|done].
  - intros k Hr. rewrite Hs, lookup_alter_None in Hr. apply Hnone in Hr. rewrite Ho in Hr.
    pose proof (online_bound (live1 ++ live2) k). destruct (String.eqb _ _); lia.
Qed.

Lemma sessions_ok_step s s' : session_step s s' -> sessions_ok s.1 s.2 -> sessions_ok s'.1 s'.2.
Proof.
  intros [n live nk host b n' Hlen Hrun|n live1 host live2 n' Hrun|n live n' Hg Hs Hlim] Hok; simpl in *.
  - eapply does_run in Hrun as [-> Hl]; [|apply does_add_session, Hok]. by eapply sessions_ok_connect.
  - eapply does_run in Hrun as [_ Hl]; [|apply does_del_session]. by eapply sessions_ok_quit.
  - destruct Hok as [_ H1' H2' H3' H4']. split; [done|done| | |by rewrite Hs].
    + intros h. by rewrite Hlim.
    + rewrite Hs. intros k r Hr. rewrite Hlim. by apply H3'.
Qed.

Lemma sessions_ok_reach s s' : rtc session_step s s' -> sessions_ok s.1 s.2 -> sessions_ok s'.1 s'.2.
Proof. induction 1 as [|s1 s2 s3 Hs _ IH]; [done|]. intros Hok. by apply IH, (sessions_ok_step s1). Qed.

(** *** A host that is refused too often *)
Lemma glob_nocase p t : glob p t true = true -> glob p t false = true.
Proof.
  revert t. induction p as [|c p IH]; intros t; [done|]. simpl. destruct (Ascii.eqb c "?").
  - destruct t; [done|]. apply IH.
  - destruct (Ascii.eqb c "*").
    + induction t as [|x t IHt]; simpl; rewrite ?orb_true_iff; [intros [|]; [left; auto|done]|].
      intros [Hg|Hg]; [left; auto|right; auto].
    + destruct t as [|x t]; [done|]. rewrite !andb_true_iff. intros [He Hg]. split; [|auto].
      unfold eqc in *. apply Ascii.eqb_eq in He as ->. apply Ascii.eqb_refl.
Qed.

(** An autokill on all users of a host covers each of them. *)
Lemma session_mask_covers un host :
  (String.length un + String.length host < 509)%nat ->
  all_chars (fun c => negb (Ascii.eqb c "?")) host = true ->
  covers (akill_subject un host) (strlower (session_mask host)) = true.
Proof.
  intros Hlen Hq. rewrite akill_subject_fits by done. unfold session_mask.
  rewrite trunc_fits by (rewrite str_length_app; unfold BUFSIZE; simpl; lia).
  change (strlower ("*@" +:+ host)) with ("*@" +:+ strlower host).
  unfold covers, Udf.irc_match. rewrite udf_do_match_wild.
  rewrite glob_do_match_wild; [done| |].
  - apply no_qm. simpl. by apply no_qm_lower.
  - apply glob_nocase. apply (glob_star_drop (String.length un)).
    rewrite str_drop_app. apply glob_self.
Qed.

Lemma akill_after_clues n host killcount t :
  out_of_clues killcount = true -> Z.of_nat (length (akill (owned n))) < MAX_ROWS ->
  Forall (fun a => same_text (a_mask a) (strlower (session_mask host)) = false) (akill (owned n)) ->
  exists a, a_mask a = strlower (session_mask host) /\
    akill (after_refusal (owned n) host killcount t) = akill (owned n) ++ [a].
Proof.
  intros Hc Hroom Hnew. unfold after_refusal, akilled, inserted. rewrite Hc.
  destruct (Z.leb_spec MAX_ROWS (Z.of_nat (length (akill (owned n))))); [lia|].
  destruct (existsb _ _) eqn:Ed; [|by eexists (mkAkill _ _ _ _ _ _)].
  apply existsb_exists in Ed as (a & Ha & Hs). rewrite Forall_forall in Hnew.
  rewrite Hnew in Hs; [done|by apply list_elem_of_In].
Qed.

(** ** Properties *)

(** C6: The session table counts the connected users of each host and keeps to
    the limits.  From the empty table Services start with, after any sequence of
    connections, of disconnections of users who were let in, and of anything
    else that leaves the rows and the limits alone, the row of a host holds
    the number of its users and is within its limit; and the next connection is
    always answered, and accepted exactly if it is the first of the host, the
    host has no limit or fewer users than its limit. *)
Theorem sessions_count_correct n0 n live host nk
  (Hg : heap_ok (graph_of n0)) (Hs : session (owned n0) = ∅)
  (Hl : forall h, 0 <= session_limit (owned n0) h)
  (Hr : rtc session_step (n0, []) (n, live)) :
  match session (owned n) !! collate host with
  | None => online live (collate host) = 0 /\ exists n', add_session nk host n = Some (true, n')
  | Some r =>
      let limit := session_limit (owned n) (s_host r) in
      s_count r = online live (collate host) /\ (limit = 0 \/ s_count r <= limit) /\
      exists n', add_session nk host n =
        Some (bool_decide (limit = 0 \/ online live (collate host) < limit), n')
  end.
Proof.
  assert (Hok : sessions_ok n live).
  { apply (sessions_ok_reach _ _ Hr). split; simpl; [done|done|done| |]; intros k; [by rewrite Hs|].
    intros _. done. }
  pose proof (does_add_session n nk host (so_graph _ _ Hok)) as Hadd. unfold does, wp, admits in Hadd.
  destruct (add_session nk host n) as [[b n']|]; [|done]. destruct Hadd as [-> _].
  destruct (session (owned n) !! collate host) as [r|] eqn:Er.
  - destruct (so_row _ _ Hok _ _ Er) as [Hc Hle]. split; [done|]. split; [done|]. exists n'. do 2 f_equal.
    case_bool_decide as Hb; [apply negb_true_iff, not_true_iff_false|apply negb_false_iff]; rewrite fullP; lia.
  - split; [by apply Hok|]. by exists n'.
Qed.

(** Once a host has used up its clues, the next refused connection puts an
    autokill on it, and from then on [check_akill] turns away every user of the
    host. *)
Theorem refusals_bar_host n nk nk' un host r
  (Hg : heap_ok (graph_of n)) (Hr : session (owned n) !! collate host = Some r)
  (Hfull : full (owned n) r = true) (Hclues : out_of_clues (s_killcount r) = true)
  (Hroom : Z.of_nat (length (akill (owned n))) < MAX_ROWS)
  (Hnew : Forall (fun a => same_text (a_mask a) (strlower (session_mask host)) = false) (akill (owned n)))
  (Hlen : (String.length un + String.length host < 509)%nat)
  (Hq : all_chars (fun c => negb (Ascii.eqb c "?")) host = true) :
  wp (add_session nk host) (fun accepted n1 => accepted = false /\
    wp (check_akill nk' un host) (fun killed _ => killed = true) n1) n.
Proof.
  eapply wp_mono; [by apply does_add_session|]. intros b n1 [-> Hl]. unfold admits, session_added in *.
  rewrite Hr, Hfull in *. split; [done|]. eapply wp_mono; [apply check_akill_spec|].
  intros k n2 (_ & -> & _). rewrite (le_part _ _ _ Hl).
  change (akill (set_row ?d _ _)) with (akill d).
  destruct (akill_after_clues n host (s_killcount r) (now n)) as (a & Ha & ->); [done..|].
  rewrite existsb_app. simpl. rewrite Ha, session_mask_covers by done. by rewrite orb_true_r.
Qed.

(** The exceptions that DEL names: by number, each bound cut down to
    [MaxSessionLimit], or by a host they match. *)
Definition named (msk : string) (e : ExceptionRow) : bool :=
  if isdigit (hd_char msk) && all_of "1234567890,-" msk then
    existsb (fun p => let '(a, b) := clip MaxSessionLimit p in (a <=? e_id e) && (e_id e <=? b))
      (query_items (String.length msk) msk)
  else covers msk (e_mask e).

Lemma named_numbers msk l : isdigit (hd_char msk) && all_of "1234567890,-" msk = true ->
  mysql_build_query msk MaxSessionLimit = Some l -> forall e, named msk e = in_ranges l (e_id e).
Proof.
  unfold named, mysql_build_query. intros -> Hl e. rewrite query_loop_spec in Hl by done.
  injection Hl as <-. by rewrite in_ranges_clip.
Qed.

Lemma filter_named d (p : ExceptionRow -> bool) :
  (forall e, p e = false) -> d{{exception ::= List.filter (fun e => negb (p e))}} = d.
Proof.
  intros Hp. destruct d as [? ? ex]. cbn. f_equal. induction ex as [|e ex IH]; [done|]. simpl. by rewrite Hp, IH.
Qed.

(** EXCEPTION DEL answers every argument, and removes exactly the exceptions
    it names; without an argument it removes none. *)
Theorem do_exception_del_correct n u us args (Hu : users_heap n !! u = Some us) :
  wp (do_exception_del u args) (fun _ n' =>
    leaves (match fst (strtok args " ") with
            | None => owned n
            | Some msk => (owned n){{exception ::= List.filter (fun e => negb (named msk e))}}
            end) n n') n.
  unfold do_exception_del.
  assert (Hno : forall text, wp (oper_reply u text) (fun _ n' => leaves (owned n) n n') n).
  { intros text. eapply wp_mono; [by eapply calms_reply|]. intros ? n'. apply leaves_self. }
  destruct (fst (strtok args " ")) as [msk|]; [|apply Hno].
  assert (Hdel : forall p text, (forall e, named msk e = p e) ->
    wp (rows ← delete_exceptions p; oper_reply u (text rows)) (fun _ n' =>
      leaves ((owned n){{exception ::= List.filter (fun e => negb (named msk e))}}) n n') n).
  { intros p text Hp. unfold delete_exceptions. wps. apply wp_gets. wps.
    eapply wp_mono; [apply set_tables_leaves|]. intros [] n1 Hl. wps.
    eapply wp_mono; [eapply calms_reply; by rewrite (le_users _ _ _ Hl)|]. intros ? n2 Hc.
    eapply leaves_calm; [|exact Hc]. cbn in Hl. cbn. by rewrite (List.filter_ext _ _ (fun e => f_equal negb (Hp e))). }
  destruct (_ && _) eqn:Hnum; [|apply Hdel; intros e; unfold named; by rewrite Hnum].
  destruct (mysql_build_query_spec msk MaxSessionLimit) as (l & Hl & _). rewrite Hl.
  pose proof (named_numbers msk l Hnum Hl) as Hin. destruct l as [|r l]; [|by apply Hdel].
  rewrite (filter_named _ _ Hin). apply Hno.
Qed.

(** EXCEPTION LIST (and VIEW) with numbers that form no range, such as
    [2-0], ends Services whatever the state: the query is built without a
    condition, and a query MySQL refuses is fatal. *)
Theorem exception_list_empty_range_fatal n u line (Hm : 1 <= MaxSessionLimit) :
  exception_list u line "2-0" n = None.
Proof.
  unfold exception_list, mbind, M_bind. destruct (expire_exceptions n) as [[[] n1]|]; [|done].
  change (strtok "2-0" " ") with (Some "2-0", EmptyString). cbv beta iota.
  change (all_of "1234567890,-" (strlower "2-0")) with true. cbn [option_map].
  change (strlower "2-0") with "2-0". by rewrite empty_range.
Qed.
End SessionSpec.

(** ** The interface of the network code

    [findserver] ([src/servers.c]) has a state of its own, so it is given. *)
Section Implements.
Context `{Conf} `{OperConf} `{MySQL} {E : Type} `{!NickServ E} `{!Part OperDB E}.
Context (findserver : string -> M (Net E) ptr).

Definition operserv_of : OperServ E := {|
  Interfaces.check_akill := Akill.check_akill;
  Interfaces.add_session := add_session;
  Interfaces.del_session := del_session;
  Interfaces.findserver := findserver
|}.

(** Laws that mention no nick need no nicks. *)
#[program] Definition no_nicks : NickTables E := {|
  status_of _ _ := 0; id_of _ _ := 0; link_of _ _ := 0
|}.
Solve Obligations with done.

(** C34: Autokills and session limits keep what the network code expects of them:
    a newcomer's checks always answer and leave users, channels, membership and
    status alone, and the end of a session changes only the tables. *)
Theorem operserv_implements (Hf : forall nm, ext_only (findserver nm)) : @OperServLaws E operserv_of.
Proof.
  split; simpl.
  - intros nk us hs n _ _. eapply wp_mono; [apply (check_akill_spec (NickTables0 := no_nicks))|].
    intros b n' [Hc _]. apply Hc.
  - intros nk hs n Hg _. eapply wp_mono; [by apply (does_add_session (NickTables0 := no_nicks))|].
    intros b n' [_ Hl]. apply Hl.
  - intros hs n. apply wp_lift, wp_modify. by eexists.
  - exact Hf.
Qed.
End Implements.

(** ** Examples *)
Module Witness.
Import OperDemo.

(** alice's host has two users and was refused three times. *)
Definition crowded : Net OperDB :=
  net{{ext := no_tables{{session := {["one.example.org" := mkSession "one.example.org" 2 3]}}}}}.

Definition two_in : M (Net OperDB) bool :=
  add_session "carol" "Three.example.org";; add_session "dave" "three.example.org".

Lemma sessions_count_correct_witness :
  let n := default net (snd <$> two_in net) in
  exists r, session (owned n) !! "three.example.org" = Some r /\ s_count r = 2 /\ exists n', add_session "erin" "three.example.org" n = Some (false, n').
Proof.
  set (n1 := default net (snd <$> add_session "carol" "Three.example.org" net)).
  set (n2 := default net (snd <$> add_session "dave" "three.example.org" n1)).
  assert (Hs : rtc session_step (net, []) (n2, ["three.example.org"; "Three.example.org"])).
  { eapply rtc_l; [|eapply rtc_once].
    - apply (step_connect net [] "carol" "Three.example.org" true n1); [done|]. by vm_compute.
    - apply (step_connect n1 _ "dave" "three.example.org" true n2); [done|]. by vm_compute. }
  pose proof (sessions_count_correct net n2 ["three.example.org"; "Three.example.org"] "three.example.org" "erin"
    oper_net_ok eq_refl ltac:(by intros h; vm_compute) Hs) as Hw.
  assert (Hr : session (owned n2) !! collate "three.example.org" = Some (mkSession "Three.example.org" 2 0))
    by by vm_compute.
  rewrite Hr in Hw. destruct Hw as (Hc & _ & n' & Ha). eexists. split; [exact Hr|]. split; [done|]. by exists n'.
Defined.

Lemma refusals_bar_host_witness :
  wp (add_session "carol" "one.example.org") (fun accepted n1 => accepted = false /\ wp (check_akill "dave" "da" "one.example.org") (fun killed _ => killed = true) n1) crowded.
Proof.
  apply (refusals_bar_host crowded "carol" "dave" "da" "one.example.org" (mkSession "one.example.org" 2 3)).
  all: first [exact oper_net_ok | by constructor | by vm_compute | by (simpl; lia)].
Defined.

Lemma do_exception_del_correct_witness :
  wp (do_exception_del 1 "1-3,7") (fun _ n' => leaves (owned net) net n') net.
Proof. exact (do_exception_del_correct net 1 oper_alice "1-3,7" eq_refl). Defined.

Lemma exception_list_empty_range_fatal_witness : do_exception 1 "LIST 2-0" net = None.
Proof.
  assert (Hm : 1 <= MaxSessionLimit) by (by vm_compute).
  exact (exception_list_empty_range_fatal net 1 _ Hm).
Defined.

Lemma operserv_implements_witness : @OperServLaws OperDB (operserv_of (fun _ => mret NULL)).
Proof.
  apply operserv_implements. intros nm n. apply wp_ret. exists (ext n). by destruct n.
Defined.

(** A number above [MaxSessionLimit] (100 here) deletes the exception whose
    number that is. *)
Definition two_exceptions : Net OperDB :=
  net{{ext := no_tables{{exception := [mkException 100 "a.example.org" 5 "alice" "r" 0 0;
                                       mkException 120 "b.example.org" 5 "alice" "r" 0 0] }} }}.

(** EXCEPTION DEL 120 deletes exception 100 and leaves 120: the numbers are
    cut down to the largest session limit, which has nothing to do with them. *)
Theorem exception_del_hits_another :
  (fun r => map e_id (exception (owned (snd r)))) <$> do_exception 1 "DEL 120" two_exceptions = Some [120].
Proof. by vm_compute. Qed.

(** When Services do not send autokills at once, a user of a host that has used
    up its clues is refused but stays on the network: his connection is not
    accepted, and neither a KILL nor a KLINE is sent. *)
Theorem refused_without_kill :
  (fun r => (fst r, List.filter (fun m => match m with Cmd _ _ => true | _ => false end) (out (snd r)))) <$>
    add_session "carol" "one.example.org" crowded = Some (false, []).
Proof. by vm_compute. Qed.
End Witness.
